(* ===== verification/_CoqProject ===== *)
-Q . S2P
Prelude.v
WireError.v
Frame.v
Utf16.v
Header.v
Create.v
ReadWrite.v
FileControl.v
SessionMessages.v
CreateContext.v
Durable.v
Negotiate.v
Query.v
SetInfo.v
WireTotality.v
Client.v
Effects.v
Credits.v
MessageIds.v
AsyncResponse.v
Transport.v
Signing.v
Connection.v
Auth.v
Session.v
Exchange.v
Testkit.v
Tree.v
Files.v
Write.v
Read.v
PipelinedRead.v
Cancellation.v
CancelRead.v
CancelSafety.v
Spnego.v
Ntlm.v
Anonymous.v
QueryOps.v
SetInfoOps.v
DurableOpen.v
Reconnect.v
RecoveringRead.v
RecoveringCancel.v
VideoReader.v
VideoSafety.v
VideoPlayback.v
Broker.v
BrokerSafety.v
BrokerPlayback.v
RecoveringPlayback.v
FsQuery.v
FsMutation.v
EngineTypes.v
Engine.v
EngineSafety.v
EngineRandom.v
EngineCalls.v
Probe.v
Jni.v
JniSafety.v
