(* ===== verification/Prelude.v ===== *)
(** * smb-io-rs: a Rocq model of an SMB2/3 client

    The program is an SMB client in Rust, in layers. [smb-wire] encodes and
    decodes the messages of the protocol; [smb-auth] speaks NTLM inside SPNEGO;
    [smb-client] negotiates, authenticates, connects to a share and opens,
    reads, writes and closes files, with signing, credits and MessageIds;
    [smb-fs] lists directories and makes, renames and deletes entries;
    [smb-stream] plays a file: a reader with a read-ahead window, and a broker
    that serves one reader to several callers; [smb-android] is the engine behind
    an app: tables of opaque handles to videos, directories and open files. A
    method on [&mut self] is a function from the state to an [outcome] and the
    state it leaves, also when it fails; integers are [Z] within their width,
    bytes and strings lists of [Z], and every slice, [copy_from_slice] and
    unchecked sum of the source is a step that can [Panic].

    ** The files and the code

    - [Prelude]: [outcome], byte lists, little-endian integers, checked slices,
      and the logic of computations that return ([returns], [meets]).
    - [WireError], [Frame], [Utf16], [Header], [Create], [ReadWrite],
      [FileControl], [SessionMessages], [CreateContext], [Durable], [Negotiate],
      [Query], [SetInfo]: the modules of crates/smb-wire/src with the names of
      its functions; [WireTotality] states that no decoder panics.
    - [Client]: the errors of crates/smb-client/src/error.rs, the state monad
      [st] and its logic [runs]; [Effects]: the same for the layers that wrap the
      client's errors in their own.
    - [Credits] (credits.rs), [MessageIds] (message_id.rs, also as a step relation
      of concurrent allocators), [AsyncResponse] (async_response.rs,
      read_async.rs), [Transport] (transport.rs: the trait as a class with laws,
      the direct-TCP implementation over an abstract socket), [Signing]
      (signing.rs, preauth.rs).
    - [Connection] (negotiate.rs), [Auth] (smb-auth/provider.rs: the provider
      trait as a class with laws), [Session] (session.rs), [Exchange] (the
      reserve, allocate, encode, sign, send, receive, check, grant and verify
      steps that every operation of a session repeats), [Tree] (tree.rs),
      [Files] (file.rs, close.rs, flush.rs, write_open.rs, mutation_open.rs),
      [Write] (write.rs), [Read] and [PipelinedRead] (read.rs), [QueryOps]
      (query.rs), [SetInfoOps] (set_info.rs), [DurableOpen] (durable_open.rs),
      [Reconnect] (reconnect.rs), [RecoveringRead] and [RecoveringCancel]
      (recovering_read.rs: reads that reconnect, and their cancelable forms).
    - [Cancellation] (cancellation.rs: the generation token of a reader, which
      other tasks advance), [CancelRead] (cancel.rs: a pipelined read that a
      CANCEL may end), [CancelSafety] (what it sends and leaves behind).
    - [Spnego], [Ntlm], [Anonymous]: the providers of crates/smb-auth/src.
    - [FsQuery], [FsMutation]: query.rs and mutation.rs of crates/smb-fs/src.
    - [VideoReader] (crates/smb-stream/src/video.rs, over a class of sources),
      [VideoSafety] (the laws of a source, and the reader proved against them),
      [VideoPlayback] (the sources of the program satisfy the laws; sequences of
      reads); [Broker] (broker.rs: the handles, the runner and its loop),
      [BrokerSafety] (the invariant of the runner), [BrokerPlayback] (what the
      callers of a broker can rely on), [RecoveringPlayback] (a recovering file is
      a source as well: the sessions of its history, and a broker over it).
    - [EngineTypes] (smb-android/engine.rs: its errors and arguments, the tables
      of handles, the payload of a directory), [Engine] (the methods of
      [AndroidEngine], over the sessions they open), [EngineSafety] (what the
      sessions behind directories, tree walks and files send and leave),
      [EngineRandom] (threads on one random-access file, as a step relation),
      [EngineCalls] (the invariant of the tables, sequences of calls).
    - [Testkit] (crates/smb-testkit: the scripted transport, whose record is the
      traffic that the specifications speak of), [Probe] (crates/smb-probe: the
      command line tool that takes all layers through a connection).
    - [Jni] (smb-android/jni.rs: the native methods, over a class for the jni
      crate), [JniSafety] (the laws of Java, and what Java can rely on).

    ** What the theorems show

    - Wire formats: a decoder accepts exactly the bytes an explicit layout
      describes and returns what the layout holds ([*_iff]), encoders and
      decoders are inverse, decoders never panic and never read out of range.
    - Protocol state: credits are never overdrawn, MessageIds of concurrent
      tasks are disjoint and below the end of the counter, the asynchronous
      response state machine accepts exactly the interim and final responses of
      one request, a signature is accepted exactly when it is the one the key
      gives, and the direct-TCP reader returns the frames that were sent, in
      order, also when a read was cut off in the middle of one.
    - Exchanges ([*_sound]): whatever the peer answers, an operation sends the
      requests its specification lists and no other, each charged and numbered
      once, and a success is licensed by responses of that request that passed
      every check of the code; the state is well formed afterwards also on
      errors.
    - Setting up: what a negotiation stores is what the configuration and the
      response say, field by field; a session comes from a conversation of its
      provider with the server, and its key is the one this provider gives at the
      end of it; the NTLM provider's messages have the layout of MS-NLMP, and a
      server that knows the account, and reads them by that layout, accepts them
      and derives the same key.
    - Composed operations: a pipelined read returns the bytes of the file in
      order, a restored file is the file the recipe knew, a read is replayed at
      most once, a listing is its pages, and a mutation closes the file it opened (but
      for a rename whose new name turns out too long to encode).
      A path is sent as the caller wrote it, slashes apart: a mutation refuses [.]
      and [..], an open leaves them to the server. A read that is cancelled ends
      with no response of it outstanding; a reconnection looks at the token before
      each of its steps, the first look that finds it moved ends it, and session
      and file are as they were.
    - Playback: what a video reader returns, through cache, read-ahead and
      prefetch, is what reading the file returns; every command of a broker is
      answered once and in order, with the bytes of the file, and work from
      before a seek is refused as stale, and leaves no window behind when it was
      overtaken. Over a file that reconnects, each byte is
      one that some session of the file gave for that position, and no session
      after the first is used before the file was seen to be the same.
    - The engine: a handle is fresh and names one entry of one kind, a directory
      is handed over whole or refused, no sequence of calls panics or breaks
      another handle, a CLOSE is the last request of its file whatever threads
      share it, and the size of a tree is asked only of directories inside it.
    - The probe: it never panics, and reports a range as verified only if the host
      and port of the command line were dialled, a session was set up there for the
      account of the command line, and this session served these bytes to both ways
      of reading, between a matching open and close.
    - The native methods: arguments are checked before anything is done, bytes
      reach and leave Java's arrays unchanged and only in the given region, and no
      sequence of native calls of a process panics.

    ** Parameters

    The transport below [Transport], the digest and signature primitives, the
    random source, the clock, DNS, TCP connects and the peer's address are class parameters; their
    laws state documented behaviour (lengths of digests, a delivered message is
    a byte list of bounded length). Every property with hypotheses has a witness
    on a concrete instance of them.

    ** Bounds and fuel

    [patience] bounds the responses an operation follows for one request: the
    peer may send interim responses for ever, and [OutOfFuel] stands for
    waiting on it. The fuel of loops the code itself bounds is computed from
    their measure (the bytes left, the entries left, the attempts left); where
    such fuel ran out the model would [Panic], and the theorems show that it does
    not. What other tasks do meanwhile is an input: how far a cancellation token
    is advanced at each look at it, and a script of the commands that arrive at
    each look of a broker's runner at its queues; [turns_enough] computes from
    the script the turns its loop takes. [visits] and [pages] bound the
    directories of a tree and the pages of a directory that a server may show,
    which nothing in the code bounds.

    ** Not modelled

    Allocation failure, zeroization of secrets, [Debug] and [Display]
    implementations, what the probe prints, timeouts and how long the delay between
    reconnect attempts takes (what ends it is modelled), the operating system's
    sockets, wakers and the executor; the examples, which print what the
    operations modelled here return. *)
From stdpp Require Export base list numbers option strings gmap.
From Stdlib Require Export ZArith Lia.
From Stdlib Require Import Btauto.
From Stdlib Require Export Strings.Byte.

#[global] Open Scope Z_scope.

(** ** Results of Rust code

    [Ok] and [Err] are the two constructors of [Result]; [Panic] is a Rust
    panic (slice or index out of range, arithmetic overflow under overflow
    checks, [copy_from_slice] on different lengths); [OutOfFuel] is reserved
    for loops whose fuel is spent. *)
Inductive outcome (E A : Type) : Type :=
  | Ok (a : A)
  | Err (e : E)
  | Panic
  | OutOfFuel.
Arguments Ok {E A} _.
Arguments Err {E A} _.
Arguments Panic {E A}.
Arguments OutOfFuel {E A}.

Definition obind {E A B} (m : outcome E A) (k : A -> outcome E B) : outcome E B :=
  match m with
  | Ok a => k a
  | Err e => Err e
  | Panic => Panic
  | OutOfFuel => OutOfFuel
  end.

Definition omap_err {E F A} (f : E -> F) (m : outcome E A) : outcome F A :=
  match m with
  | Ok a => Ok a
  | Err e => Err (f e)
  | Panic => Panic
  | OutOfFuel => OutOfFuel
  end.

(** [Option::ok_or]. *)
Definition ok_or {E A} (o : option A) (e : E) : outcome E A :=
  match o with Some a => Ok a | None => Err e end.

Declare Scope outcome_scope.
Delimit Scope outcome_scope with outcome.
Notation "'let!' x ':=' m 'in' k" := (obind m (fun x => k))
  (at level 10, x name, m at level 100, k at level 200,
   format "'[v' 'let!'  x  ':='  m  'in' '/' k ']'") : outcome_scope.
Notation "'let!' ' p ':=' m 'in' k" := (obind m (fun p => k))
  (at level 10, p strict pattern, m at level 100, k at level 200,
   format "'[v' 'let!'  ' p  ':='  m  'in' '/' k ']'") : outcome_scope.
#[global] Open Scope outcome_scope.

(** The computation returns: it neither panics nor runs out of fuel. *)
Definition returns {E A} (m : outcome E A) : Prop :=
  match m with Ok _ | Err _ => True | _ => False end.

Definition is_ok {E A} (m : outcome E A) : bool :=
  match m with Ok _ => true | _ => false end.

Lemma obind_ok {E A B} (m : outcome E A) (k : A -> outcome E B) b :
  obind m k = Ok b <-> exists a, m = Ok a /\ k a = Ok b.
Proof. destruct m; simpl; split; first [by eauto | by intros (? & [= <-] & ?) | by intros (? & ? & ?)]. Qed.

Lemma Ok_inj {E A} (a b : A) : Ok a = Ok b :> outcome E A -> a = b.
Proof. by intros [= ->]. Qed.

Lemma ok_or_ok {E A} (o : option A) (e : E) a : ok_or o e = Ok a <-> o = Some a.
Proof. destruct o; simpl; split; naive_solver. Qed.

Lemma obind_assoc {E A B C} (m : outcome E A) (f : A -> outcome E B)
    (g : B -> outcome E C) :
  obind (obind m f) g = obind m (fun a => obind (f a) g).
Proof. by destruct m. Qed.

Lemma returns_bind {E A B} (m : outcome E A) (k : A -> outcome E B) :
  returns m -> (forall a, m = Ok a -> returns (k a)) -> returns (obind m k).
Proof. destruct m; simpl; naive_solver. Qed.

Lemma returns_ok {E A} (a : A) : returns (Ok a : outcome E A).
Proof. exact I. Qed.

Lemma returns_err {E A} (e : E) : returns (Err e : outcome E A).
Proof. exact I. Qed.

Lemma returns_ok_or {E A} (o : option A) (e : E) : returns (ok_or o e).
Proof. by destruct o. Qed.

Lemma returns_if {E A} (b : bool) (m k : outcome E A) :
  (b = true -> returns m) -> (b = false -> returns k) -> returns (if b then m else k).
Proof. destruct b; auto. Qed.

Lemma returns_map_err {E F A} (f : E -> F) (m : outcome E A) :
  returns m -> returns (omap_err f m).
Proof. by destruct m. Qed.

(** The computation returns, and what it returns on success satisfies [Q]. *)
Definition meets {E A} (m : outcome E A) (Q : A -> Prop) : Prop :=
  match m with Ok a => Q a | Err _ => True | _ => False end.

Lemma meets_bind {E A B} (m : outcome E A) (k : A -> outcome E B) Q :
  meets m (fun a => meets (k a) Q) -> meets (obind m k) Q.
Proof. by destruct m. Qed.

Lemma meets_mono {E A} (m : outcome E A) (P Q : A -> Prop) :
  meets m P -> (forall a, P a -> Q a) -> meets m Q.
Proof. destruct m; simpl; auto. Qed.

Lemma meets_returns {E A} (m : outcome E A) Q : meets m Q -> returns m.
Proof. by destruct m. Qed.

Lemma returns_meets {E A} (m : outcome E A) : returns m -> meets m (fun _ => True).
Proof. by destruct m. Qed.

Lemma meets_ok {E A} (m : outcome E A) Q a : meets m Q -> m = Ok a -> Q a.
Proof. by intros ? ->. Qed.

Lemma meets_iff {E A} (m : outcome E A) Q :
  meets m Q <-> returns m /\ (forall a, m = Ok a -> Q a).
Proof. destruct m; simpl; naive_solver. Qed.

Lemma meets_returns_bind {E A B} (m : outcome E A) (k : A -> outcome E B) Q :
  returns m -> (forall a, m = Ok a -> meets (k a) Q) -> meets (obind m k) Q.
Proof. destruct m; simpl; auto. Qed.

Create HintDb returns discriminated.
#[export] Hint Resolve returns_ok returns_err returns_ok_or returns_map_err : returns.

(** ** Machine integers *)

(** The values of an unsigned [w]-bit integer. *)
Definition uint (w v : Z) : Prop := 0 <= v < 2 ^ w.
Abbreviation u8 := (uint 8).
Abbreviation u16 := (uint 16).
Abbreviation u32 := (uint 32).
Abbreviation u64 := (uint 64).

Definition u16_max : Z := 65535.
Definition u32_max : Z := 4294967295.
Definition u64_max : Z := 18446744073709551615.
Definition u128_max : Z := 340282366920938463463374607431768211455.
(** [usize] of a 64-bit target. *)
Definition usize_max : Z := 18446744073709551615.

#[export] Instance uint_dec w v : Decision (uint w v).
Proof. unfold uint. apply _. Defined.

(** [checked_add], [saturating_add] and friends at a given maximum. *)
Definition checked_add (max a b : Z) : option Z :=
  if a + b <=? max then Some (a + b) else None.
Definition checked_sub (a b : Z) : option Z :=
  if b <=? a then Some (a - b) else None.
Definition checked_mul (max a b : Z) : option Z :=
  if a * b <=? max then Some (a * b) else None.
Definition saturating_add (max a b : Z) : Z := Z.min max (a + b).
Definition saturating_sub (a b : Z) : Z := Z.max 0 (a - b).
Definition saturating_mul (max a b : Z) : Z := Z.min max (a * b).
Definition wrapping_add (w a b : Z) : Z := (a + b) mod 2 ^ w.
(** [T::try_from] between unsigned integer types. *)
Definition try_from (max v : Z) : option Z := if v <=? max then Some v else None.
(** Plain [+] and [-] under overflow checks. *)
Definition add_or_panic {E} (max a b : Z) : outcome E Z :=
  if a + b <=? max then Ok (a + b) else Panic.
Definition sub_or_panic {E} (a b : Z) : outcome E Z :=
  if b <=? a then Ok (a - b) else Panic.

(** [value & flag != 0]. *)
Definition has_flag (value flag : Z) : bool := negb (Z.land value flag =? 0).

(** ** Bytes *)
Abbreviation bytes := (list byte).

#[export] Instance byte_eq_dec : EqDecision byte := Byte.byte_eq_dec.

Definition Z_of_byte (b : byte) : Z := Z.of_N (Byte.to_N b).

(** Truncation of an integer to a byte ([v as u8]). *)
Definition byte_of_Z (v : Z) : byte :=
  match Byte.of_N (Z.to_N (v mod 256)) with Some b => b | None => x00 end.

Lemma Z_of_byte_range b : 0 <= Z_of_byte b < 256.
Proof. unfold Z_of_byte. pose proof (Byte.to_N_bounded b). lia. Qed.

Lemma Z_of_byte_of_Z v : Z_of_byte (byte_of_Z v) = v mod 256.
Proof.
  unfold byte_of_Z, Z_of_byte.
  pose proof (Z.mod_pos_bound v 256 ltac:(lia)).
  destruct (Byte.of_N (Z.to_N (v mod 256))) as [b|] eqn:Hb.
  - apply Byte.to_of_N in Hb. rewrite Hb. lia.
  - apply Byte.of_N_None_iff in Hb. lia.
Qed.

Lemma byte_of_Z_of_byte b : byte_of_Z (Z_of_byte b) = b.
Proof. by destruct b. Qed.

Lemma Z_of_byte_inj b1 b2 : Z_of_byte b1 = Z_of_byte b2 -> b1 = b2.
Proof. intros H. by rewrite <- (byte_of_Z_of_byte b1), H, byte_of_Z_of_byte. Qed.

(** [to_le_bytes] of an [n]-byte integer, and its inverse. *)
Fixpoint le_bytes (n : nat) (v : Z) : bytes :=
  match n with
  | O => []
  | S n => byte_of_Z v :: le_bytes n (v / 256)
  end.

Fixpoint le_value (bs : bytes) : Z :=
  match bs with
  | [] => 0
  | b :: bs => Z_of_byte b + 256 * le_value bs
  end.

(** [to_be_bytes]. *)
Definition be_bytes (n : nat) (v : Z) : bytes := rev (le_bytes n v).

(** ** Lengths and slices *)
Definition len {A} (l : list A) : Z := Z.of_nat (length l).

(** The [n] elements of [l] from index [a] (total; [slice] has the checks). *)
Definition sub {A} (l : list A) (a n : Z) : list A :=
  take (Z.to_nat n) (drop (Z.to_nat a) l).

(** [&l[a..b]]. *)
Definition slice {E A} (l : list A) (a b : Z) : outcome E (list A) :=
  if (0 <=? a) && (a <=? b) && (b <=? len l) then Ok (sub l a (b - a)) else Panic.

(** [&l[a..]]. *)
Definition slice_from {E A} (l : list A) (a : Z) : outcome E (list A) :=
  if (0 <=? a) && (a <=? len l) then Ok (drop (Z.to_nat a) l) else Panic.

(** [out[a..b].copy_from_slice(src)]. *)
Definition copy_from_slice {E A} (out : list A) (a b : Z) (src : list A) :
    outcome E (list A) :=
  if (0 <=? a) && (a <=? b) && (b <=? len out) && (b - a =? len src)
  then Ok (take (Z.to_nat a) out ++ src ++ drop (Z.to_nat b) out) else Panic.

Lemma len_nonneg {A} (l : list A) : 0 <= len l.
Proof. unfold len. lia. Qed.
Lemma len_nil {A} : len (@nil A) = 0.
Proof. done. Qed.
Lemma len_cons {A} (x : A) l : len (x :: l) = 1 + len l.
Proof. unfold len. simpl. lia. Qed.
Lemma len_app {A} (l1 l2 : list A) : len (l1 ++ l2) = len l1 + len l2.
Proof. unfold len. rewrite length_app. lia. Qed.
Lemma len_replicate {A} n (x : A) : len (replicate n x) = Z.of_nat n.
Proof. unfold len. by rewrite length_replicate. Qed.
Lemma len_le_bytes n v : len (le_bytes n v) = Z.of_nat n.
Proof. unfold len. f_equal. revert v. induction n; simpl; intros; auto. Qed.
Lemma len_rev {A} (l : list A) : len (rev l) = len l.
Proof. unfold len. by rewrite length_rev. Qed.
Lemma len_drop {A} n (l : list A) : len (drop n l) = Z.max 0 (len l - Z.of_nat n).
Proof. unfold len. rewrite length_drop. lia. Qed.
Lemma len_take {A} n (l : list A) : len (take n l) = Z.min (Z.of_nat n) (len l).
Proof. unfold len. rewrite length_take. lia. Qed.
Lemma len_fmap {A B} (f : A -> B) (l : list A) : len (f <$> l) = len l.
Proof. unfold len. by rewrite length_fmap. Qed.

Create Rewrite HintDb len.
#[export] Hint Rewrite @len_nil @len_cons @len_app @len_replicate @len_le_bytes
  @len_rev @len_drop @len_take @len_fmap : len.

(** Linear arithmetic with constant division and remainder. *)
Ltac div_lia := unfold uint in *; Z.to_euclidean_division_equations; lia.

(** Linear arithmetic about lengths. *)
Ltac len_lia :=
  autorewrite with len in *; unfold uint in *;
  repeat match goal with
  | |- context [len ?l] => lazymatch goal with
      | _ : 0 <= len l |- _ => fail
      | _ => pose proof (len_nonneg l) end
  | _ : context [len ?l] |- _ => lazymatch goal with
      | _ : 0 <= len l |- _ => fail
      | _ => pose proof (len_nonneg l) end
  end; lia.

Lemma len_sub {A} (l : list A) a n :
  0 <= a -> 0 <= n -> a + n <= len l -> len (sub l a n) = n.
Proof. intros. unfold sub. len_lia. Qed.

Lemma sub_full {A} (l : list A) n : n = len l -> sub l 0 n = l.
Proof. intros ->. unfold sub, len. rewrite Nat2Z.id. simpl. apply take_ge. lia. Qed.

Lemma sub_app_r {A} (l1 l2 : list A) a n :
  len l1 <= a -> sub (l1 ++ l2) a n = sub l2 (a - len l1) n.
Proof.
  intros. unfold sub. f_equal.
  rewrite drop_app_ge by (unfold len in *; lia). f_equal. unfold len in *. lia.
Qed.

Lemma sub_app_here {A} (l r : list A) n :
  n = len l -> sub (l ++ r) 0 n = l.
Proof.
  intros ->. unfold sub, len. simpl. rewrite drop_0, Nat2Z.id. apply take_app_length.
Qed.

Lemma drop_app_here {A} (l r : list A) n :
  n = len l -> drop (Z.to_nat n) (l ++ r) = r.
Proof. intros ->. unfold len. rewrite Nat2Z.id. apply drop_app_length. Qed.

Lemma sub_drop {A} (l : list A) k a n :
  0 <= k -> 0 <= a -> sub (drop (Z.to_nat k) l) a n = sub l (k + a) n.
Proof. intros. unfold sub. rewrite drop_drop. do 2 f_equal. lia. Qed.

#[global] Arguments sub : simpl never.
#[global] Arguments slice : simpl never.
#[global] Arguments slice_from : simpl never.
#[global] Arguments copy_from_slice : simpl never.
#[global] Arguments byte_of_Z : simpl never.
#[global] Arguments Z_of_byte : simpl never.
#[global] Arguments uint : simpl never.
#[global] Arguments checked_add : simpl never.
#[global] Arguments checked_sub : simpl never.
#[global] Arguments checked_mul : simpl never.
#[global] Arguments try_from : simpl never.

Lemma slice_ok {E A} (l : list A) a b :
  0 <= a <= b -> b <= len l -> slice (E:=E) l a b = Ok (sub l a (b - a)).
Proof.
  intros. unfold slice.
  by rewrite (proj2 (Z.leb_le 0 a)), (proj2 (Z.leb_le a b)), (proj2 (Z.leb_le b _)) by lia.
Qed.

Lemma slice_sub {E A} (l : list A) a b n :
  n = b - a -> 0 <= a <= b -> b <= len l -> slice (E:=E) l a b = Ok (sub l a n).
Proof. intros ->. apply slice_ok. Qed.

Lemma slice_from_ok {E A} (l : list A) a :
  0 <= a <= len l -> slice_from (E:=E) l a = Ok (drop (Z.to_nat a) l).
Proof.
  intros. unfold slice_from.
  by rewrite (proj2 (Z.leb_le 0 a)), (proj2 (Z.leb_le a _)) by lia.
Qed.

Lemma copy_from_slice_ok {E A} (out : list A) a b src :
  0 <= a <= b -> b <= len out -> len src = b - a ->
  copy_from_slice (E:=E) out a b src
  = Ok (take (Z.to_nat a) out ++ src ++ drop (Z.to_nat b) out).
Proof.
  intros ?? Hs. unfold copy_from_slice.
  by rewrite Hs, (proj2 (Z.leb_le 0 a)), (proj2 (Z.leb_le a b)),
    (proj2 (Z.leb_le b _)), Z.eqb_refl by lia.
Qed.

(** Overwriting the middle of a buffer. *)
Lemma copy_at {E A} (pre mid post src : list A) a b :
  a = len pre -> b = a + len mid -> len src = len mid ->
  copy_from_slice (E:=E) (pre ++ mid ++ post) a b src = Ok (pre ++ src ++ post).
Proof.
  intros -> -> Hs. pose proof (len_nonneg mid). pose proof (len_nonneg pre).
  rewrite copy_from_slice_ok by len_lia. f_equal. unfold len in *.
  rewrite take_app_length' by lia. do 2 f_equal.
  rewrite (app_assoc pre mid post). apply drop_app_length'. rewrite length_app. lia.
Qed.

Lemma copy_from_slice_meets {E A} (out : list A) a b src :
  0 <= a <= b -> b <= len out -> len src = b - a ->
  meets (copy_from_slice (E:=E) out a b src) (fun r => len r = len out).
Proof. intros. rewrite copy_from_slice_ok by done. cbn [meets]. len_lia. Qed.

(** ** Little-endian fields *)

(** The [n]-byte little-endian integer at offset [o] (total). *)
Definition le_at (n : nat) (bs : bytes) (o : Z) : Z := le_value (sub bs o (Z.of_nat n)).

(** [uN::from_le_bytes([input[o], ..., input[o + n - 1]])]. *)
Definition get_le {E} (n : nat) (bs : bytes) (o : Z) : outcome E Z :=
  let! s := slice bs o (o + Z.of_nat n) in Ok (le_value s).

(** [out[o..o + n].copy_from_slice(&value.to_le_bytes())]. *)
Definition put_le {E} (n : nat) (out : bytes) (o v : Z) : outcome E bytes :=
  copy_from_slice out o (o + Z.of_nat n) (le_bytes n v).

#[global] Arguments le_at : simpl never.
#[global] Arguments get_le : simpl never.
#[global] Arguments put_le : simpl never.

Lemma le_value_bytes n v : le_value (le_bytes n v) = v mod 2 ^ (8 * Z.of_nat n).
Proof.
  revert v. induction n as [|n IH]; intros v; cbn [le_bytes le_value].
  - by rewrite Z.mod_1_r.
  - rewrite IH, Z_of_byte_of_Z.
    replace (8 * Z.of_nat (S n)) with (8 + 8 * Z.of_nat n) by lia.
    rewrite Z.pow_add_r by lia. change (2 ^ 8) with 256.
    rewrite Z.rem_mul_r by lia. lia.
Qed.

Lemma le_value_range bs : 0 <= le_value bs < 2 ^ (8 * len bs).
Proof.
  induction bs as [|b bs IH]; [done|].
  rewrite len_cons. cbn [le_value].
  pose proof (Z_of_byte_range b). pose proof (len_nonneg bs).
  replace (8 * (1 + len bs)) with (8 + 8 * len bs) by lia.
  rewrite Z.pow_add_r by lia. change (2 ^ 8) with 256. lia.
Qed.

Lemma le_value_app l1 l2 : le_value (l1 ++ l2) = le_value l1 + 256 ^ len l1 * le_value l2.
Proof.
  induction l1 as [|b l1 IH]; cbn [app le_value]; [unfold len; cbn; lia|].
  rewrite IH, len_cons, Z.pow_add_r by (pose proof (len_nonneg l1); lia). lia.
Qed.

Lemma le_bytes_value bs : le_bytes (length bs) (le_value bs) = bs.
Proof.
  induction bs as [|b bs IH]; [done|]. cbn [length le_bytes le_value].
  pose proof (Z_of_byte_range b). f_equal.
  - apply Z_of_byte_inj. rewrite Z_of_byte_of_Z.
    rewrite (Z.mul_comm 256), Z.mod_add by lia. apply Z.mod_small. lia.
  - rewrite (Z.mul_comm 256), Z.div_add, Z.div_small by lia. done.
Qed.

#[global] Arguments le_bytes : simpl never.
#[global] Arguments len : simpl never.

Lemma get_le_ok {E} n bs o :
  0 <= o -> o + Z.of_nat n <= len bs -> get_le (E:=E) n bs o = Ok (le_at n bs o).
Proof.
  intros. unfold get_le, le_at. rewrite slice_ok by lia. simpl. do 3 f_equal. lia.
Qed.

Lemma le_at_range n bs o :
  0 <= o -> o + Z.of_nat n <= len bs -> 0 <= le_at n bs o < 2 ^ (8 * Z.of_nat n).
Proof.
  intros. unfold le_at. pose proof (le_value_range (sub bs o (Z.of_nat n))) as Hr.
  by rewrite len_sub in Hr by lia.
Qed.

(** A field is never out of its width, wherever it lies. *)
Lemma le_at_bound n bs o : 0 <= le_at n bs o < 2 ^ (8 * Z.of_nat n).
Proof.
  unfold le_at. pose proof (le_value_range (sub bs o (Z.of_nat n))) as [? Hr]. split; [done|].
  eapply Z.lt_le_trans; [exact Hr|]. apply Z.pow_le_mono_r; [done|].
  unfold sub. rewrite len_take. lia.
Qed.

Lemma le_at_app_r n (l1 l2 : bytes) o :
  len l1 <= o -> le_at n (l1 ++ l2) o = le_at n l2 (o - len l1).
Proof. intros. unfold le_at. by rewrite sub_app_r. Qed.

Lemma le_at_here n v r w :
  w = 8 * Z.of_nat n -> uint w v -> le_at n (le_bytes n v ++ r) 0 = v.
Proof.
  intros -> ?. unfold le_at. rewrite sub_app_here by len_lia.
  rewrite le_value_bytes. by apply Z.mod_small.
Qed.

Lemma le_at_here_end n v w :
  w = 8 * Z.of_nat n -> uint w v -> le_at n (le_bytes n v) 0 = v.
Proof. intros. rewrite <- (app_nil_r (le_bytes n v)). by eapply le_at_here. Qed.

Lemma le_at_drop n (l : bytes) k o :
  0 <= k -> 0 <= o -> le_at n (drop (Z.to_nat k) l) o = le_at n l (k + o).
Proof. intros. unfold le_at. by rewrite sub_drop. Qed.

Lemma sub_sub {A} (m : list A) a k o n :
  0 <= a -> 0 <= o -> 0 <= n -> o + n <= k -> sub (sub m a k) o n = sub m (a + o) n.
Proof.
  intros. unfold sub. rewrite firstn_skipn_comm, firstn_firstn, Nat.min_l by lia.
  rewrite <- firstn_skipn_comm, drop_drop. do 2 f_equal. lia.
Qed.

Lemma le_at_sub n (m : bytes) a k o :
  0 <= a -> 0 <= o -> o + Z.of_nat n <= k -> le_at n (sub m a k) o = le_at n m (a + o).
Proof. intros. unfold le_at. by rewrite sub_sub by lia. Qed.

Lemma le_at_1_byte bs o b :
  0 <= o -> bs !! Z.to_nat o = Some b -> le_at 1 bs o = Z_of_byte b.
Proof.
  intros ? Hb. unfold le_at, sub. rewrite (drop_S _ _ _ Hb). simpl. lia.
Qed.

(** Splitting off the field at the front of a buffer. *)
Lemma le_bytes_at n (bs : bytes) o :
  0 <= o -> o + Z.of_nat n <= len bs ->
  drop (Z.to_nat o) bs = le_bytes n (le_at n bs o) ++ drop (Z.to_nat (o + Z.of_nat n)) bs.
Proof.
  intros. unfold le_at, sub. rewrite Nat2Z.id.
  assert (length (take n (drop (Z.to_nat o) bs)) = n) as Hl
    by (rewrite length_take, length_drop; unfold len in *; lia).
  pose proof (le_bytes_value (take n (drop (Z.to_nat o) bs))) as Hv.
  rewrite Hl in Hv. rewrite Hv.
  rewrite <- (take_drop n (drop (Z.to_nat o) bs)) at 1. f_equal.
  rewrite drop_drop. f_equal. lia.
Qed.

(** ** Bit operations on disjoint ranges *)
Lemma lor_shiftl_add a b n :
  0 <= n -> 0 <= b < 2 ^ n -> Z.lor (Z.shiftl a n) b = a * 2 ^ n + b.
Proof.
  intros. rewrite <- Z.shiftl_mul_pow2 by lia. symmetry. apply Z.add_nocarry_lor.
  apply Z.bits_inj'. intros i Hi. rewrite Z.land_spec, Z.bits_0.
  destruct (decide (i < n)) as [?|?].
  - by rewrite Z.shiftl_spec_low.
  - rewrite <- (Z.mod_small b (2 ^ n)) by lia.
    by rewrite Z.mod_pow2_bits_high, andb_false_r by lia.
Qed.

(** ** Reassembling a buffer from its fields *)
Lemma sub_cat {A} (l : list A) a n b m :
  b = a + n -> 0 <= a -> 0 <= n -> 0 <= m ->
  sub l a n ++ sub l b m = sub l a (n + m).
Proof.
  intros -> ???. unfold sub.
  replace (Z.to_nat (n + m)) with (Z.to_nat n + Z.to_nat m)%nat by lia.
  rewrite <- take_take_drop, drop_drop. do 3 f_equal. lia.
Qed.

Lemma le_bytes_le_at n (bs : bytes) o :
  0 <= o -> o + Z.of_nat n <= len bs -> le_bytes n (le_at n bs o) = sub bs o (Z.of_nat n).
Proof.
  intros. unfold le_at.
  pose proof (len_sub bs o (Z.of_nat n) ltac:(lia) ltac:(lia) ltac:(lia)) as Hl.
  pose proof (le_bytes_value (sub bs o (Z.of_nat n))) as Hv.
  unfold len in Hl. apply Nat2Z.inj in Hl. by rewrite Hl in Hv.
Qed.

Lemma take_sub {A} (l : list A) n : take (Z.to_nat n) l = sub l 0 n.
Proof. by unfold sub. Qed.

(** Evaluates reads of a buffer whose length is known, in the goal. *)
Ltac slice_len a b :=
  lazymatch isZcst a with
  | true => lazymatch isZcst b with
            | true => eval cbv in (b - a)
            | _ => constr:(b - a) end
  | _ => lazymatch b with
         | a + ?n => n
         | _ => constr:(b - a) end
  end.
Ltac oeval :=
  repeat (cbn [obind ok_or];
    first [ rewrite get_le_ok by len_lia
          | match goal with |- context [slice ?l ?a ?b] =>
              let n := slice_len a b in rewrite (slice_sub l a b n) by len_lia end
          | rewrite slice_from_ok by len_lia ]);
  cbn [obind ok_or].
Ltac oeval_in H :=
  repeat (cbn [obind ok_or] in H;
    first [ rewrite get_le_ok in H by len_lia
          | match type of H with context [slice ?l ?a ?b] =>
              let n := slice_len a b in rewrite (slice_sub l a b n) in H by len_lia end
          | rewrite slice_from_ok in H by len_lia ]);
  cbn [obind ok_or] in H.

(** Range facts: linear ones, and those of closed constants. *)
Ltac uint_solve := first [ assumption | len_lia | solve [split; by vm_compute] ].

(** Reads a field of a buffer given as a sequence of fields: skips the fields
    in front of the offset, then takes the field at its head. *)
Ltac field_at :=
  repeat (rewrite le_at_app_r by len_lia);
  lazymatch goal with |- le_at ?n ?l ?o = _ => replace o with 0 by len_lia end;
  first [ eapply le_at_here | eapply le_at_here_end ];
  [reflexivity | uint_solve].

(** Overwriting one field of a buffer. *)
Lemma put_at {E} n (pre mid post : bytes) o v :
  o = len pre -> len mid = Z.of_nat n ->
  put_le (E:=E) n (pre ++ mid ++ post) o v = Ok (pre ++ le_bytes n v ++ post).
Proof. intros -> Hm. unfold put_le. apply copy_at; [done|lia|len_lia]. Qed.

(** [!mask] at [w] bits. *)
Definition bit_not (w mask : Z) : Z := 2 ^ w - 1 - mask.

Lemma bit_not_ldiff w mask :
  0 <= w -> uint w mask -> bit_not w mask = Z.ldiff (Z.ones w) mask.
Proof.
  unfold uint, bit_not. intros Hw Hm. rewrite <- Z.sub_nocarry_ldiff.
  - rewrite Z.ones_equiv. lia.
  - apply Z.bits_inj'. intros n Hn. rewrite Z.ldiff_spec, Z.bits_0.
    destruct (Z.lt_ge_cases n w); [rewrite Z.ones_spec_low by lia; apply andb_false_r|].
    rewrite <- (Z.mod_small mask (2 ^ w)), Z.mod_pow2_bits_high by lia. done.
Qed.

(** A value has no bit outside [mask]. *)
Lemma no_other_bits w value mask :
  0 <= w -> uint w value -> uint w mask ->
  has_flag value (bit_not w mask) = false <-> Z.land value mask = value.
Proof.
  intros Hw Hv Hm. unfold has_flag. rewrite bit_not_ldiff by done.
  assert (Z.land value (Z.ldiff (Z.ones w) mask) = Z.ldiff value mask) as ->.
  { rewrite <- (Z.mod_small value (2 ^ w)) at 2 by apply Hv.
    rewrite <- Z.land_ones by done. apply Z.bits_inj'. intros n Hn.
    rewrite !Z.land_spec, !Z.ldiff_spec, !Z.land_spec. btauto. }
  rewrite negb_false_iff, Z.eqb_eq. split; intros H; apply Z.bits_inj'; intros n Hn;
    apply (f_equal (fun z => Z.testbit z n)) in H; revert H;
    rewrite ?Z.ldiff_spec, ?Z.land_spec, ?Z.bits_0;
    destruct (Z.testbit value n), (Z.testbit mask n); done.
Qed.

(** [Vec::resize(n, 0)] and [Vec::truncate(n)]. *)
Definition resize0 (out : bytes) (n : Z) : bytes :=
  take (Z.to_nat n) out ++ replicate (Z.to_nat n - length out) x00.
Definition truncate {A} (out : list A) (n : Z) : list A := take (Z.to_nat n) out.

Lemma put_le_meets {E} n (out : bytes) o v :
  0 <= o -> o + Z.of_nat n <= len out ->
  meets (put_le (E:=E) n out o v) (fun r => len r = len out).
Proof. intros. unfold put_le. apply copy_from_slice_meets; len_lia. Qed.

Lemma len_resize0 out n : 0 <= n -> len (resize0 out n) = n.
Proof. intros. unfold resize0. rewrite len_app, len_take, len_replicate. unfold len. lia. Qed.

(** [v.is_empty()]. *)
Definition is_empty {A} (l : list A) : bool := match l with [] => true | _ => false end.

Lemma is_empty_true {A} (l : list A) : is_empty l = true <-> l = [].
Proof. by destruct l. Qed.

Lemma is_empty_len {A} (l : list A) : is_empty l = (len l =? 0).
Proof. destruct l; [done|]. symmetry. apply Z.eqb_neq. unfold len. simpl. lia. Qed.

(** Writing inside a prefix of a buffer leaves the rest of it alone. *)
Lemma put_le_app {E} n (l1 l2 : bytes) o v :
  0 <= o -> o + Z.of_nat n <= len l1 ->
  put_le (E:=E) n (l1 ++ l2) o v = obind (put_le n l1 o v) (fun out => Ok (out ++ l2)).
Proof.
  intros. unfold put_le. rewrite !copy_from_slice_ok by len_lia. cbn [obind].
  f_equal. unfold len in *.
  rewrite take_app_le, drop_app_le by lia. by rewrite <- !app_assoc.
Qed.

Lemma checked_mul_some max a b c : checked_mul max a b = Some c <-> c = a * b /\ a * b <= max.
Proof. unfold checked_mul. destruct (Z.leb_spec (a * b) max); naive_solver lia. Qed.
Lemma checked_add_some max a b c : checked_add max a b = Some c <-> c = a + b /\ a + b <= max.
Proof. unfold checked_add. destruct (Z.leb_spec (a + b) max); naive_solver lia. Qed.
Lemma try_from_some max a b : try_from max a = Some b <-> b = a /\ a <= max.
Proof. unfold try_from. destruct (Z.leb_spec a max); naive_solver lia. Qed.
Lemma try_from_ok max a : a <= max -> try_from max a = Some a.
Proof. intros. by apply try_from_some. Qed.

(** Offsets of a body as offsets of its message. *)
Lemma le_at_body n (m : bytes) k o o' :
  0 <= k -> 0 <= o -> o' = k + o -> le_at n (drop (Z.to_nat k) m) o = le_at n m o'.
Proof. intros ?? ->. by apply le_at_drop. Qed.

Ltac body_offsets_in H :=
  repeat match type of H with
  | context [le_at ?n (drop (Z.to_nat ?k) ?m) ?o] =>
      let o' := eval cbv in (k + o) in rewrite (le_at_body n m k o o') in H by lia
  end.
Ltac body_offsets :=
  repeat match goal with
  | |- context [le_at ?n (drop (Z.to_nat ?k) ?m) ?o] =>
      let o' := eval cbv in (k + o) in rewrite (le_at_body n m k o o') by lia
  | H : context [le_at _ (drop _ _) _] |- _ => body_offsets_in H
  end.

(** A buffer as its fields, for [n] bytes in front of the rest. *)
Lemma drop_sub {A} (l : list A) a n b :
  b = a + n -> 0 <= a -> 0 <= n ->
  drop (Z.to_nat a) l = sub l a n ++ drop (Z.to_nat b) l.
Proof.
  intros -> ??. unfold sub. rewrite <- (take_drop (Z.to_nat n) (drop (Z.to_nat a) l)) at 1.
  f_equal. rewrite drop_drop. f_equal. lia.
Qed.

Lemma drop_0_Z {A} (l : list A) : l = drop (Z.to_nat 0) l.
Proof. done. Qed.

Lemma sub_1_byte (bs : bytes) o :
  0 <= o < len bs -> exists b, sub bs o 1 = [b].
Proof.
  intros. pose proof (len_sub bs o 1 ltac:(lia) ltac:(lia) ltac:(lia)).
  destruct (sub bs o 1) as [|b [|]]; [by len_lia| by eexists | exfalso; len_lia].
Qed.

Ltac rejoin := repeat (rewrite <- drop_sub by lia).

(** Replaces the field at offset [o] by its value. *)
Ltac field_is n o v :=
  match goal with |- context [le_at n ?m o] =>
    replace (le_at n m o) with v by (symmetry; field_at) end.

(** Evaluates the field reads of a buffer given as a sequence of fields. *)
Ltac read_fields :=
  repeat match goal with |- context [le_at ?n (?l1 ++ ?l2) ?o] =>
    let H := fresh in
    eassert (le_at n (l1 ++ l2) o = _) as H by field_at; rewrite H; clear H
  end.

(** A field that was checked to be zero. *)
Lemma zero_field n (bs : bytes) o :
  le_at n bs o = 0 -> 0 <= o -> o + Z.of_nat n <= len bs ->
  le_bytes n 0 = sub bs o (Z.of_nat n).
Proof. intros Hz ??. by rewrite <- Hz, le_bytes_le_at. Qed.

Lemma sub_to_end {A} (l : list A) a n :
  0 <= a -> len l = a + n -> sub l a n = drop (Z.to_nat a) l.
Proof. intros. unfold sub. apply take_ge. rewrite length_drop. unfold len in *. lia. Qed.
