(* ===== verification/WireError.v ===== *)
(** * Wire errors and range checks

    [crates/smb-wire/src/error.rs]: the error type of every encoder and decoder
    of the wire layer, with the two checks all of them share. *)
From S2P Require Import Prelude.

Inductive WireError : Type :=
  | BufferTooShort (needed actual : Z)
  | InvalidProtocolId (value : bytes)
  | InvalidStructureSize (expected actual : Z)
  | InvalidField (field : string)
  | InvalidOffset (field : string) (offset length packet_len : Z)
  | FrameTooLarge (length : Z)
  | TruncatedFrame (declared actual : Z)
  | Unsupported (feature : string).

#[export] Instance WireError_eq_dec : EqDecision WireError.
Proof. solve_decision. Defined.

(** [outcome] of the wire layer. *)
Abbreviation wire := (outcome WireError).

Definition require_len (input : bytes) (needed : Z) : wire unit :=
  if len input <? needed then Err (BufferTooShort needed (len input)) else Ok tt.

(** The range [offset..offset + len] of a packet, as its two bounds. *)
Definition checked_range (packet_len : Z) (field : string) (offset length : Z) :
    wire (Z * Z) :=
  let! range_end := ok_or (checked_add usize_max offset length)
                          (InvalidOffset field offset length packet_len) in
  if (packet_len <? offset) || (packet_len <? range_end)
  then Err (InvalidOffset field offset length packet_len)
  else Ok (offset, range_end).

Lemma require_len_ok input needed :
  needed <= len input -> require_len input needed = Ok tt.
Proof. intros. unfold require_len. by rewrite (proj2 (Z.ltb_ge _ _)). Qed.

Lemma require_len_inv input needed u :
  require_len input needed = Ok u -> needed <= len input.
Proof. unfold require_len. destruct (Z.ltb_spec (len input) needed); [done|lia]. Qed.

Lemma require_len_short input needed :
  len input < needed -> require_len input needed = Err (BufferTooShort needed (len input)).
Proof. intros. unfold require_len. by rewrite (proj2 (Z.ltb_lt _ _)). Qed.

Lemma returns_require_len input needed : returns (require_len input needed).
Proof. unfold require_len. by destruct (_ <? _). Qed.

Lemma checked_range_inv packet_len field offset length a b :
  checked_range packet_len field offset length = Ok (a, b) ->
  a = offset /\ b = offset + length /\ b <= packet_len.
Proof.
  unfold checked_range, checked_add, ok_or.
  destruct (Z.leb_spec (offset + length) usize_max); simpl; [|done].
  destruct (Z.ltb_spec packet_len offset); simpl; [done|].
  destruct (Z.ltb_spec packet_len (offset + length)); simpl; [done|].
  intros [= <- <-]. lia.
Qed.

Lemma checked_range_ok packet_len field offset length :
  0 <= length -> offset + length <= packet_len -> packet_len <= usize_max ->
  checked_range packet_len field offset length = Ok (offset, offset + length).
Proof.
  intros. unfold checked_range, checked_add, ok_or.
  rewrite (proj2 (Z.leb_le _ usize_max)) by lia. simpl.
  by rewrite !(proj2 (Z.ltb_ge _ _)) by lia.
Qed.

(** The slice of a range that was checked. *)
Lemma checked_range_slice (m : bytes) field o n :
  0 <= o -> 0 <= n -> o + n <= len m -> o + n <= usize_max ->
  (let! '(a, b) := checked_range (len m) field o n in slice m a b) = Ok (sub m o n).
Proof.
  intros. unfold checked_range. rewrite (proj2 (checked_add_some _ _ _ (o + n))) by done.
  cbn [ok_or obind]. rewrite !(proj2 (Z.ltb_ge _ _)) by lia. cbn [orb obind].
  apply slice_sub; lia.
Qed.

Lemma returns_checked_range packet_len field offset length :
  returns (checked_range packet_len field offset length).
Proof.
  unfold checked_range, checked_add, ok_or. destruct (_ <=? _); simpl; [|done].
  by destruct (_ || _).
Qed.

#[export] Hint Resolve returns_require_len returns_checked_range : returns.

(** Turns the recorded tests into arithmetic facts. *)
Ltac bool_facts :=
  repeat match goal with
  | H : (_ && _)%bool = true |- _ => apply andb_true_iff in H as [? ?]
  | H : (_ || _)%bool = false |- _ => apply orb_false_iff in H as [? ?]
  | H : negb _ = true |- _ => apply negb_true_iff in H
  | H : negb _ = false |- _ => apply negb_false_iff in H
  | H : (_ <? _) = true |- _ => apply Z.ltb_lt in H
  | H : (_ <? _) = false |- _ => apply Z.ltb_ge in H
  | H : (_ <=? _) = true |- _ => apply Z.leb_le in H
  | H : (_ <=? _) = false |- _ => apply Z.leb_gt in H
  | H : (_ =? _) = true |- _ => apply Z.eqb_eq in H
  | H : (_ =? _) = false |- _ => apply Z.eqb_neq in H
  | H : bool_decide _ = true |- _ => apply bool_decide_eq_true in H
  | H : bool_decide _ = false |- _ => apply bool_decide_eq_false in H
  end.

(** [bool_facts], also splitting disjunctions into cases. *)
Ltac bool_cases :=
  repeat (bool_facts; match goal with
  | H : (_ || _)%bool = true |- _ => apply orb_true_iff in H as [H|H]
  | H : (_ && _)%bool = false |- _ => apply andb_false_iff in H as [H|H]
  end); bool_facts.

(** Turns successful checked arithmetic and conversions into facts. *)
Ltac opt_facts :=
  repeat match goal with
  | H : checked_add _ _ _ = Some _ |- _ => apply checked_add_some in H as [-> ?]
  | H : checked_mul _ _ _ = Some _ |- _ => apply checked_mul_some in H as [-> ?]
  | H : try_from _ _ = Some _ |- _ => apply try_from_some in H as [-> ?]
  end.
(** Ranges of the fields already read. *)
Ltac read_facts :=
  repeat match goal with
  | |- context [le_at ?n ?b ?o] => lazymatch goal with
      | _ : 0 <= le_at n b o < _ |- _ => fail
      | _ => pose proof (le_at_range n b o ltac:(lia) ltac:(len_lia)) end
  | H : context [le_at ?n ?b ?o] |- _ => lazymatch goal with
      | _ : 0 <= le_at n b o < _ |- _ => fail
      | _ => pose proof (le_at_range n b o ltac:(lia) ltac:(len_lia)) end
  end.
Ltac facts_lia := opt_facts; bool_facts; read_facts; len_lia.

(** ** Decoders that return on every input

    [returns_step] takes one step of a decoder whose offsets are known to be
    in range: it opens the next bind or test, evaluates field reads with
    [get_le_ok] and slices with [slice_ok], and keeps the facts the checks
    establish. *)
Ltac returns_step :=
  match goal with
  | |- returns (obind (require_len ?i ?n) _) =>
      apply returns_bind; [apply returns_require_len|];
      let u := fresh in let Hl := fresh "Hlen" in
      intros u Hl; apply require_len_inv in Hl; clear u
  | |- returns (obind (checked_range _ _ _ _) _) =>
      apply returns_bind; [apply returns_checked_range|];
      let Hr := fresh "Hrange" in
      intros [? ?] Hr; apply checked_range_inv in Hr; destruct Hr as (-> & -> & Hr)
  | |- returns (obind (get_le ?n ?b ?o) _) =>
      rewrite (get_le_ok n b o) by len_lia; cbn [obind]
  | |- returns (obind (slice ?l ?a ?b) _) =>
      rewrite (slice_ok l a b) by facts_lia; cbn [obind]
  | |- returns (obind (slice_from ?l ?a) _) =>
      rewrite (slice_from_ok l a) by facts_lia; cbn [obind]
  | |- returns (obind (obind _ _) _) => rewrite obind_assoc
  | |- returns (obind (Ok _) _) => cbn [obind]
  | |- returns (obind (Err _) _) => exact I
  | |- returns (Ok _) => exact I
  | |- returns (Err _) => exact I
  | |- returns (obind (if ?b then _ else _) _) => destruct b eqn:?
  | |- returns (if ?b then _ else _) => destruct b eqn:?
  | |- returns (obind (ok_or ?o _) _) =>
      let E := fresh "E" in destruct o eqn:E; cbn [ok_or obind]
  | |- returns (obind _ _) => apply returns_bind; [solve [auto with returns]|intros ? ?]
  | |- returns _ => solve [auto with returns]
  end.

(** The same for [meets], which also keeps what the decoder returns. *)
Ltac meets_step :=
  match goal with
  | |- meets (obind (require_len ?i ?n) _) _ =>
      apply meets_returns_bind; [apply returns_require_len|];
      let u := fresh in let Hl := fresh "Hlen" in
      intros u Hl; apply require_len_inv in Hl; clear u
  | |- meets (obind (checked_range _ _ _ _) _) _ =>
      apply meets_returns_bind; [apply returns_checked_range|];
      let Hr := fresh "Hrange" in
      intros [? ?] Hr; apply checked_range_inv in Hr; destruct Hr as (-> & -> & Hr)
  | |- meets (obind (get_le ?n ?b ?o) _) _ =>
      rewrite (get_le_ok n b o) by len_lia; cbn [obind]
  | |- meets (obind (slice ?l ?a ?b) _) _ =>
      rewrite (slice_ok l a b) by facts_lia; cbn [obind]
  | |- meets (obind (slice_from ?l ?a) _) _ =>
      rewrite (slice_from_ok l a) by facts_lia; cbn [obind]
  | |- meets (obind (obind _ _) _) _ => rewrite obind_assoc
  | |- meets (obind (Ok _) _) _ => cbn [obind]
  | |- meets (obind (Err _) _) _ => exact I
  | |- meets (Err _) _ => exact I
  | |- meets (obind (if ?b then _ else _) _) _ => destruct b eqn:?
  | |- meets (if ?b then _ else _) _ => destruct b eqn:?
  | |- meets (obind (ok_or ?o _) _) _ =>
      let E := fresh "E" in destruct o eqn:E; cbn [ok_or obind]; opt_facts
  end.

(** Opens a hypothesis [H : m = Ok a] past the checks it must have passed,
    keeping each one as an equation. *)
Ltac accept_step H :=
  match type of H with
  | (if ?b then Err _ else _) = Ok _ =>
      let E := fresh "Hchk" in destruct b eqn:E; [discriminate H|]
  | (if ?b then _ else Err _) = Ok _ =>
      let E := fresh "Hchk" in destruct b eqn:E; [|discriminate H]
  | obind (if ?b then Err _ else _) _ = Ok _ =>
      let E := fresh "Hchk" in destruct b eqn:E; [discriminate H|]
  | obind (if ?b then _ else Err _) _ = Ok _ =>
      let E := fresh "Hchk" in destruct b eqn:E; [|discriminate H]
  | obind (ok_or ?o _) _ = Ok _ =>
      let E := fresh "Hopt" in destruct o eqn:E; cbn [ok_or obind] in H; [|discriminate H];
      opt_facts
  | obind (require_len _ _) _ = Ok _ =>
      let u := fresh in let Hl := fresh "Hlen" in
      apply obind_ok in H as (u & Hl & H); apply require_len_inv in Hl; clear u
  | obind (checked_range _ _ _ _) _ = Ok _ =>
      let a := fresh in let b := fresh in let Hr := fresh "Hrange" in
      apply obind_ok in H as ([a b] & Hr & H); apply checked_range_inv in Hr;
      destruct Hr as (-> & -> & Hr)
  | obind (obind _ _) _ = Ok _ => rewrite obind_assoc in H
  | obind (Ok _) _ = Ok _ => cbn [obind] in H
  | obind (get_le ?n ?b ?o) _ = Ok _ =>
      rewrite (get_le_ok n b o) in H by len_lia; cbn [obind] in H
  | obind (slice_from ?l ?a) _ = Ok _ =>
      rewrite (slice_from_ok l a) in H by len_lia; cbn [obind] in H
  | obind (slice ?l ?a ?b) _ = Ok _ =>
      let n := slice_len a b in
      rewrite (slice_sub l a b n) in H by facts_lia; cbn [obind] in H
  end.
Ltac accept H := repeat accept_step H.

(** Follows the checks of a decoder in the goal: a test the facts in context
    decide is replaced by its outcome. *)
Ltac decide_test :=
  match goal with
  | H : ?b = false |- (if ?b then _ else _) = _ => rewrite H; cbn [obind]
  | H : ?b = true |- (if ?b then _ else _) = _ => rewrite H; cbn [obind]
  | |- (if ?b then _ else _) = _ =>
      destruct b eqn:?; bool_cases; try (exfalso; done || len_lia); cbn [obind]
  | |- obind (if ?b then _ else _) _ = _ =>
      destruct b eqn:?; bool_cases; try (exfalso; done || len_lia); cbn [obind]
  | |- obind (ok_or (checked_add ?m ?a ?b) _) _ = _ =>
      rewrite (proj2 (checked_add_some m a b (a + b))) by (split; [done|len_lia]);
      cbn [ok_or obind]
  | |- obind (ok_or (try_from ?m ?a) _) _ = _ =>
      rewrite (try_from_ok m a) by len_lia; cbn [ok_or obind]
  end.

(** Reads a slice of a buffer given as a sequence of fields. *)
Ltac sub_at :=
  repeat (rewrite sub_app_r by len_lia); autorewrite with len;
  lazymatch goal with |- sub ?l ?o ?n = _ => replace o with 0 by lia end;
  first [ apply sub_app_here; len_lia | apply sub_full; len_lia ].

(** Runs a decoder on a buffer given as a sequence of fields. *)
Ltac follow := oeval; read_fields; repeat (decide_test; oeval; read_fields).

(** A write of the encoder at an offset known to be in range. *)
Ltac put_meets :=
  apply meets_bind;
  match goal with
  | |- meets (ok_or _ _) _ =>
      eapply meets_mono; [apply returns_meets, returns_ok_or|intros ? _]
  | |- meets (put_le _ _ _ _) _ => eapply meets_mono; [apply put_le_meets; lia|cbv beta; intros ? ?]
  | |- meets (copy_from_slice _ _ _ _) _ =>
      eapply meets_mono; [apply copy_from_slice_meets; lia|cbv beta; intros ? ?]
  end.
