(* ===== verification/Frame.v ===== *)
(** * Direct-TCP framing

    [crates/smb-wire/src/frame.rs]: the 4-byte session header in front of every
    SMB message on port 445, one zero byte and a 24-bit big-endian length. *)
From S2P Require Import Prelude WireError.

Definition DIRECT_TCP_HEADER_SIZE : Z := 4.
Definition DIRECT_TCP_MAX_PAYLOAD : Z := 0x00FFFFFF.

Definition encode_direct_tcp_frame (payload : bytes) : wire bytes :=
  if DIRECT_TCP_MAX_PAYLOAD <? len payload then Err (FrameTooLarge (len payload)) else
  let length := len payload mod 2 ^ 32 in
  Ok ([x00; byte_of_Z (Z.land (Z.shiftr length 16) 0xFF);
       byte_of_Z (Z.land (Z.shiftr length 8) 0xFF); byte_of_Z (Z.land length 0xFF)]
      ++ payload).

Definition decode_direct_tcp_length (header : bytes) : wire Z :=
  let! _ := require_len header DIRECT_TCP_HEADER_SIZE in
  let! h0 := get_le 1 header 0 in
  if negb (h0 =? 0) then Err (InvalidField "direct TCP reserved byte") else
  let! h1 := get_le 1 header 1 in
  let! h2 := get_le 1 header 2 in
  let! h3 := get_le 1 header 3 in
  Ok (Z.lor (Z.lor (Z.shiftl h1 16) (Z.shiftl h2 8)) h3).

Definition decode_direct_tcp_frame (frame : bytes) : wire bytes :=
  let! _ := require_len frame DIRECT_TCP_HEADER_SIZE in
  let! header := slice frame 0 DIRECT_TCP_HEADER_SIZE in
  let! declared := decode_direct_tcp_length header in
  let! actual := sub_or_panic (len frame) DIRECT_TCP_HEADER_SIZE in
  if negb (actual =? declared) then Err (TruncatedFrame declared actual) else
  slice_from frame DIRECT_TCP_HEADER_SIZE.

(** ** Lemmas *)

(** The header [encode_direct_tcp_frame] puts in front of [n] payload bytes. *)
Definition frame_header (n : Z) : bytes :=
  [x00; byte_of_Z (n / 65536); byte_of_Z (n / 256); byte_of_Z n].

Lemma len_frame_header n : len (frame_header n) = 4.
Proof. done. Qed.
#[export] Hint Rewrite len_frame_header : len.

Lemma byte_of_Z_land v : byte_of_Z (Z.land v 0xFF) = byte_of_Z v.
Proof.
  apply Z_of_byte_inj. rewrite !Z_of_byte_of_Z.
  change 0xFF with (Z.ones 8). rewrite Z.land_ones by lia.
  by rewrite Z.mod_mod.
Qed.

Lemma encode_frame_ok payload :
  len payload <= DIRECT_TCP_MAX_PAYLOAD ->
  encode_direct_tcp_frame payload = Ok (frame_header (len payload) ++ payload).
Proof.
  unfold DIRECT_TCP_MAX_PAYLOAD, encode_direct_tcp_frame. intros.
  rewrite (proj2 (Z.ltb_ge _ _)) by (unfold DIRECT_TCP_MAX_PAYLOAD; lia). cbv zeta.
  rewrite Z.mod_small by len_lia.
  by rewrite !byte_of_Z_land, !Z.shiftr_div_pow2 by lia.
Qed.

Lemma decode_length_eq header :
  DIRECT_TCP_HEADER_SIZE <= len header ->
  decode_direct_tcp_length header =
  if negb (le_at 1 header 0 =? 0) then Err (InvalidField "direct TCP reserved byte")
  else Ok (le_at 1 header 1 * 65536 + le_at 1 header 2 * 256 + le_at 1 header 3).
Proof.
  unfold DIRECT_TCP_HEADER_SIZE, decode_direct_tcp_length. intros.
  rewrite require_len_ok by done. cbn [obind].
  rewrite !get_le_ok by lia. cbn [obind]. destruct (negb _); [done|]. cbn [obind].
  pose proof (le_at_range 1 header 2 ltac:(lia) ltac:(lia)).
  pose proof (le_at_range 1 header 3 ltac:(lia) ltac:(lia)).
  change (2 ^ (8 * Z.of_nat 1)) with 256 in *.
  replace (Z.shiftl (le_at 1 header 1) 16)
    with (Z.shiftl (Z.shiftl (le_at 1 header 1) 8) 8) by (by rewrite Z.shiftl_shiftl).
  rewrite <- Z.shiftl_lor, !lor_shiftl_add by lia. f_equal. lia.
Qed.

Lemma decode_length_header n rest :
  0 <= n <= DIRECT_TCP_MAX_PAYLOAD ->
  decode_direct_tcp_length (frame_header n ++ rest) = Ok n.
Proof.
  unfold DIRECT_TCP_MAX_PAYLOAD. intros.
  rewrite decode_length_eq by (unfold DIRECT_TCP_HEADER_SIZE; len_lia).
  rewrite (le_at_1_byte _ 0 x00), (le_at_1_byte _ 1 (byte_of_Z (n / 65536))),
    (le_at_1_byte _ 2 (byte_of_Z (n / 256))), (le_at_1_byte _ 3 (byte_of_Z n)) by done.
  rewrite !Z_of_byte_of_Z. change (Z_of_byte x00 =? 0) with true. cbn [negb]. f_equal. div_lia.
Qed.

(** The header bytes are determined by the length they decode to. *)
Lemma decode_length_inv header n :
  len header = DIRECT_TCP_HEADER_SIZE ->
  decode_direct_tcp_length header = Ok n ->
  0 <= n <= DIRECT_TCP_MAX_PAYLOAD /\ header = frame_header n.
Proof.
  intros Hlen. rewrite decode_length_eq by lia.
  destruct header as [|b0 [|b1 [|b2 [|b3 [|]]]]];
    try (exfalso; clear -Hlen; unfold DIRECT_TCP_HEADER_SIZE in *; len_lia).
  rewrite (le_at_1_byte _ 0 b0), (le_at_1_byte _ 1 b1), (le_at_1_byte _ 2 b2),
    (le_at_1_byte _ 3 b3) by done.
  destruct (Z.eqb_spec (Z_of_byte b0) 0) as [H0|]; simpl; [|done]. intros [= <-].
  pose proof (Z_of_byte_range b1). pose proof (Z_of_byte_range b2).
  pose proof (Z_of_byte_range b3).
  split; [unfold DIRECT_TCP_MAX_PAYLOAD; lia|]. unfold frame_header.
  repeat apply f_equal2; try done; apply Z_of_byte_inj;
    rewrite ?Z_of_byte_of_Z, ?H0; try done; div_lia.
Qed.

Lemma returns_decode_direct_tcp_length header : returns (decode_direct_tcp_length header).
Proof.
  unfold decode_direct_tcp_length, DIRECT_TCP_HEADER_SIZE. repeat returns_step.
Qed.

Lemma returns_decode_direct_tcp_frame frame : returns (decode_direct_tcp_frame frame).
Proof.
  unfold decode_direct_tcp_frame. change DIRECT_TCP_HEADER_SIZE with 4.
  do 2 returns_step. apply returns_bind; [apply returns_decode_direct_tcp_length|]. intros n _.
  unfold sub_or_panic. rewrite (proj2 (Z.leb_le _ _)) by lia. cbn [obind].
  returns_step; [exact I|]. by rewrite slice_from_ok by lia.
Qed.

#[export] Hint Resolve returns_decode_direct_tcp_length returns_decode_direct_tcp_frame : returns.

(** ** Properties *)

(** A frame decodes to a payload exactly when it is the encoding of that
    payload: framing is lossless, unambiguous and rejects trailing bytes. *)
Theorem decode_frame_iff (frame payload : bytes) :
  decode_direct_tcp_frame frame = Ok payload <->
  encode_direct_tcp_frame payload = Ok frame.
Proof.
  split.
  - unfold decode_direct_tcp_frame. intros (u & Hl & Hd)%obind_ok.
    apply require_len_inv in Hl. unfold DIRECT_TCP_HEADER_SIZE in *.
    rewrite slice_ok in Hd by lia. cbn [obind] in Hd.
    apply obind_ok in Hd as (n & Hn & Hd).
    apply decode_length_inv in Hn as [Hn Hh];
      [|unfold DIRECT_TCP_HEADER_SIZE; rewrite len_sub; lia].
    unfold sub_or_panic in Hd. rewrite (proj2 (Z.leb_le 4 _)) in Hd by lia.
    cbn [obind] in Hd. destruct (Z.eqb_spec (len frame - 4) n) as [Hn'|]; [|done].
    simpl negb in Hd. cbv iota in Hd. rewrite slice_from_ok in Hd by lia.
    injection Hd as <-. assert (len (drop (Z.to_nat 4) frame) = n) as Hp by len_lia.
    rewrite encode_frame_ok, Hp by lia. f_equal. rewrite <- Hh.
    unfold sub. apply (take_drop 4).
  - intros He. assert (len payload <= DIRECT_TCP_MAX_PAYLOAD) as Hl.
    { unfold encode_direct_tcp_frame in He.
      by destruct (Z.ltb_spec DIRECT_TCP_MAX_PAYLOAD (len payload)). }
    rewrite (encode_frame_ok payload Hl) in He.
    assert (frame = frame_header (len payload) ++ payload) as -> by congruence.
    unfold decode_direct_tcp_frame, DIRECT_TCP_HEADER_SIZE.
    pose proof (len_nonneg payload).
    rewrite require_len_ok by len_lia. cbn [obind].
    rewrite slice_ok by len_lia. cbn [obind].
    rewrite sub_app_here by done.
    rewrite <- (app_nil_r (frame_header _)) at 1.
    rewrite decode_length_header by lia. cbn [obind].
    unfold sub_or_panic. rewrite (proj2 (Z.leb_le 4 _)) by len_lia. cbn [obind].
    rewrite len_app. change (len (frame_header (len payload))) with 4.
    rewrite (proj2 (Z.eqb_eq _ _)) by lia. simpl negb. cbv iota.
    rewrite slice_from_ok by len_lia. by rewrite drop_app_here.
Qed.
