(* ===== verification/Utf16.v ===== *)
(** * Rust strings and their UTF-16LE encoding

    A Rust [String] is a sequence of Unicode scalar values, here their code
    points. [encode_utf16], [String::from_utf16] and [chunks_exact(2)] are the
    standard library functions the wire layer uses for share paths and file
    names. *)
From S2P Require Import Prelude.

Abbreviation rust_string := (list Z).

(** A Unicode scalar value: a code point that is not a surrogate. *)
Definition scalar (c : Z) : Prop := 0 <= c < 0xD800 \/ 0xE000 <= c < 0x110000.

#[export] Instance scalar_dec c : Decision (scalar c).
Proof. unfold scalar. apply _. Defined.

Definition encode_char (c : Z) : list Z :=
  if c <? 0x10000 then [c]
  else [0xD800 + (c - 0x10000) / 0x400; 0xDC00 + (c - 0x10000) mod 0x400].

(** [str::encode_utf16]. *)
Definition encode_utf16 (s : rust_string) : list Z := s ≫= encode_char.

(** [String::from_utf16]: [None] is the error of an unpaired surrogate. *)
Fixpoint from_utf16 (units : list Z) : option rust_string :=
  match units with
  | [] => Some []
  | u :: units' =>
      if (u <? 0xD800) || (0xE000 <=? u) then cons u <$> from_utf16 units'
      else if 0xDC00 <=? u then None
      else match units' with
           | [] => None
           | v :: units'' =>
               if (0xDC00 <=? v) && (v <? 0xE000)
               then cons (0x10000 + (u - 0xD800) * 0x400 + (v - 0xDC00)) <$> from_utf16 units''
               else None
           end
  end.

(** The loop [for unit in s.encode_utf16() { out.extend(unit.to_le_bytes()) }]. *)
Definition utf16_bytes (s : rust_string) : bytes := encode_utf16 s ≫= le_bytes 2.

(** [chunks_exact(2).map(|pair| u16::from_le_bytes(..))]: a trailing odd byte is
    dropped. *)
Fixpoint utf16_units (bs : bytes) : list Z :=
  match bs with
  | b1 :: b2 :: bs => le_value [b1; b2] :: utf16_units bs
  | _ => []
  end.

(** [s.starts_with(c)] of a character and of a string, and [s.contains(c)]. *)
Definition starts_with (c : Z) (s : rust_string) : bool :=
  match s with [] => false | x :: _ => x =? c end.
Definition starts_with_str (prefix s : rust_string) : bool :=
  bool_decide (take (length prefix) s = prefix).
Definition contains (c : Z) (s : rust_string) : bool := existsb (Z.eqb c) s.

Definition valid_string (s : rust_string) : Prop := Forall scalar s.

Lemma encode_char_units c : scalar c -> Forall (uint 16) (encode_char c).
Proof.
  unfold scalar, encode_char. intros.
  destruct (Z.ltb_spec c 0x10000); repeat constructor; div_lia.
Qed.

Lemma encode_utf16_units s : valid_string s -> Forall (uint 16) (encode_utf16 s).
Proof.
  unfold encode_utf16. induction 1 as [|c s Hc _ IH]; simpl; [constructor|].
  apply Forall_app. split; [by apply encode_char_units|done].
Qed.

Lemma from_utf16_encode_char c units :
  scalar c -> from_utf16 (encode_char c ++ units) = cons c <$> from_utf16 units.
Proof.
  unfold scalar, encode_char. intros Hc.
  destruct (Z.ltb_spec c 0x10000).
  - cbn [app from_utf16].
    replace ((c <? 55296) || (57344 <=? c)) with true; [done|].
    symmetry. rewrite orb_true_iff, Z.ltb_lt, Z.leb_le. lia.
  - cbn [app from_utf16].
    set (u := 0xD800 + (c - 0x10000) / 0x400). set (v := 0xDC00 + (c - 0x10000) mod 0x400).
    assert (0xD800 <= u < 0xDC00) by (subst u; div_lia).
    assert (0xDC00 <= v < 0xE000) by (subst v; div_lia).
    rewrite (proj2 (Z.ltb_ge u _)), (proj2 (Z.leb_gt 0xE000 u)),
      (proj2 (Z.leb_gt 0xDC00 u)), (proj2 (Z.leb_le 0xDC00 v)),
      (proj2 (Z.ltb_lt v 0xE000)) by lia.
    cbn [orb andb]. replace (0x10000 + (u - 0xD800) * 0x400 + (v - 0xDC00)) with c; [done|].
    subst u v. div_lia.
Qed.

Lemma from_encode_utf16 s : valid_string s -> from_utf16 (encode_utf16 s) = Some s.
Proof.
  induction 1 as [|c s Hc _ IH]; [done|].
  cbn [encode_utf16 mbind list_bind]. rewrite from_utf16_encode_char by done.
  unfold encode_utf16 in IH. by rewrite IH.
Qed.

Lemma utf16_units_bytes units rest :
  Forall (uint 16) units -> utf16_units ((units ≫= le_bytes 2) ++ rest) = units ++ utf16_units rest.
Proof.
  induction 1 as [|u units Hu _ IH]; [done|].
  cbn [mbind list_bind]. rewrite <- app_assoc. cbn [app].
  change (le_bytes 2 u) with [byte_of_Z u; byte_of_Z (u / 256)].
  cbn [app utf16_units]. rewrite IH. f_equal.
  change [byte_of_Z u; byte_of_Z (u / 256)] with (le_bytes 2 u).
  rewrite le_value_bytes. apply Z.mod_small. done.
Qed.

Lemma utf16_units_utf16_bytes s : valid_string s -> utf16_units (utf16_bytes s) = encode_utf16 s.
Proof.
  intros Hs. unfold utf16_bytes. rewrite <- (app_nil_r (_ ≫= _)).
  rewrite utf16_units_bytes by by apply encode_utf16_units. apply app_nil_r.
Qed.

Lemma len_utf16_bytes s : len (utf16_bytes s) = 2 * len (encode_utf16 s).
Proof.
  unfold utf16_bytes. induction (encode_utf16 s) as [|u us IH]; [done|].
  cbn [mbind list_bind]. rewrite len_app, len_cons, IH, len_le_bytes. lia.
Qed.

Lemma encode_utf16_nil s : encode_utf16 s = [] <-> s = [].
Proof.
  split; [|by intros ->]. destruct s as [|c s]; [done|].
  cbn. unfold encode_char. by destruct (_ <? _).
Qed.

(** What is decoded is exactly what was encoded. *)
Lemma from_utf16_sound n : forall units s, (length units <= n)%nat -> Forall (uint 16) units ->
  from_utf16 units = Some s -> encode_utf16 s = units /\ valid_string s.
Proof.
  unfold encode_utf16, valid_string.
  induction n as [|n IH]; intros [|u units] s Hn Hu H; cbn [length] in Hn; [|lia| |];
    [injection H as <-; by split..|].
  inversion Hu as [|? ? Hu0 Hus]; subst. cbn [from_utf16] in H. unfold uint in Hu0.
  destruct ((u <? 0xD800) || (0xE000 <=? u)) eqn:Hb.
  - destruct (from_utf16 units) as [s'|] eqn:E; [|done]. injection H as <-.
    destruct (IH units s' ltac:(lia) Hus E) as [He Hv]. split.
    + cbn [mbind list_bind]. rewrite He. unfold encode_char. by rewrite (proj2 (Z.ltb_lt _ _)) by lia.
    + constructor; [|done]. unfold scalar. apply orb_true_iff in Hb as [?%Z.ltb_lt|?%Z.leb_le]; lia.
  - apply orb_false_iff in Hb as [?%Z.ltb_ge ?%Z.leb_gt].
    destruct (Z.leb_spec 0xDC00 u); [done|]. destruct units as [|v units]; [done|].
    inversion Hus as [|? ? Hv0 Hvs]; subst. unfold uint in Hv0. cbn [length] in Hn.
    destruct ((0xDC00 <=? v) && (v <? 0xE000)) eqn:Hb2; [|done].
    apply andb_true_iff in Hb2 as [?%Z.leb_le ?%Z.ltb_lt].
    destruct (from_utf16 units) as [s'|] eqn:E; [|done]. injection H as <-.
    destruct (IH units s' ltac:(lia) Hvs E) as [He Hv]. split.
    + cbn [mbind list_bind]. rewrite He. unfold encode_char.
      set (c := 0x10000 + (u - 0xD800) * 0x400 + (v - 0xDC00)).
      rewrite (proj2 (Z.ltb_ge _ _)) by (subst c; lia).
      cbn [app]. f_equal; [|f_equal]; subst c; div_lia.
    + constructor; [|done]. unfold scalar. lia.
Qed.

Lemma utf16_units_inv n : forall bs, (length bs <= n)%nat -> (2 | len bs) ->
  Forall (uint 16) (utf16_units bs) /\ utf16_units bs ≫= le_bytes 2 = bs.
Proof.
  induction n as [|n IH]; intros [|b1 [|b2 bs]] Hn [k Hk]; cbn [length] in Hn; try lia; try done;
    [len_lia|].
  rewrite !len_cons in Hk. destruct (IH bs ltac:(lia)) as [Hu He]; [exists (k - 1); lia|].
  pose proof (le_value_range [b1; b2]) as Hr. cbn [utf16_units]. split.
  - constructor; [exact Hr|exact Hu].
  - cbn [mbind list_bind]. rewrite He. change 2%nat with (length [b1; b2]).
    by rewrite le_bytes_value.
Qed.

(** Bytes that decode are the encoding of what they decode to. *)
Lemma utf16_decoded bs s : (2 | len bs) -> from_utf16 (utf16_units bs) = Some s ->
  utf16_bytes s = bs /\ valid_string s.
Proof.
  intros Hb H. destruct (utf16_units_inv (length bs) bs ltac:(lia) Hb) as [Hu He].
  destruct (from_utf16_sound _ _ _ (le_n _) Hu H) as [Henc Hv]. split; [|done].
  unfold utf16_bytes. by rewrite Henc.
Qed.

Lemma utf16_decodes s : valid_string s -> from_utf16 (utf16_units (utf16_bytes s)) = Some s.
Proof. intros Hs. by rewrite utf16_units_utf16_bytes, from_encode_utf16. Qed.

#[global] Arguments encode_utf16 : simpl never.
#[global] Arguments utf16_bytes : simpl never.
