(* ===== verification/Header.v ===== *)
(** * The SMB2 packet header

    [crates/smb-wire/src/header.rs] and [SMB2_PROTOCOL_ID] of [lib.rs]: the
    64-byte header every request and response starts with, its little-endian
    field accessors, and the two fields whose meaning the flags select (the
    status / channel-sequence union and the sync / async identifier union). *)
From S2P Require Import Prelude WireError.

Definition SMB2_PROTOCOL_ID : bytes := [xfe; x53; x4d; x42].
Definition SMB2_HEADER_SIZE : Z := 64.
Definition SMB2_HEADER_STRUCTURE_SIZE : Z := 64.

Module flags.
Definition SERVER_TO_REDIR : Z := 0x00000001.
Definition ASYNC_COMMAND : Z := 0x00000002.
Definition RELATED_OPERATIONS : Z := 0x00000004.
Definition SIGNED : Z := 0x00000008.
Definition PRIORITY_MASK : Z := 0x00000070.
Definition DFS_OPERATIONS : Z := 0x10000000.
Definition REPLAY_OPERATION : Z := 0x20000000.
End flags.

Definition get_u16 (input : bytes) (offset : Z) : wire Z := get_le 2 input offset.
Definition get_u32 (input : bytes) (offset : Z) : wire Z := get_le 4 input offset.
Definition get_u64 (input : bytes) (offset : Z) : wire Z := get_le 8 input offset.
Definition put_u16 (out : bytes) (offset value : Z) : wire bytes := put_le 2 out offset value.
Definition put_u32 (out : bytes) (offset value : Z) : wire bytes := put_le 4 out offset value.
Definition put_u64 (out : bytes) (offset value : Z) : wire bytes := put_le 8 out offset value.

Module Command.

Inductive t : Type :=
  | Negotiate | SessionSetup | Logoff | TreeConnect | TreeDisconnect | Create | Close
  | Flush | Read | Write | Lock | Ioctl | Cancel | Echo | QueryDirectory | ChangeNotify
  | QueryInfo | SetInfo | OplockBreak.

#[global] Instance eq_dec : EqDecision t.
Proof. solve_decision. Defined.

(** [self.command as u16]. *)
Definition as_u16 (c : t) : Z :=
  match c with
  | Negotiate => 0x0000
  | SessionSetup => 0x0001
  | Logoff => 0x0002
  | TreeConnect => 0x0003
  | TreeDisconnect => 0x0004
  | Create => 0x0005
  | Close => 0x0006
  | Flush => 0x0007
  | Read => 0x0008
  | Write => 0x0009
  | Lock => 0x000A
  | Ioctl => 0x000B
  | Cancel => 0x000C
  | Echo => 0x000D
  | QueryDirectory => 0x000E
  | ChangeNotify => 0x000F
  | QueryInfo => 0x0010
  | SetInfo => 0x0011
  | OplockBreak => 0x0012
  end.

Definition try_from (value : Z) : wire t :=
  match value with
  | 0x0000 => Ok Negotiate
  | 0x0001 => Ok SessionSetup
  | 0x0002 => Ok Logoff
  | 0x0003 => Ok TreeConnect
  | 0x0004 => Ok TreeDisconnect
  | 0x0005 => Ok Create
  | 0x0006 => Ok Close
  | 0x0007 => Ok Flush
  | 0x0008 => Ok Read
  | 0x0009 => Ok Write
  | 0x000A => Ok Lock
  | 0x000B => Ok Ioctl
  | 0x000C => Ok Cancel
  | 0x000D => Ok Echo
  | 0x000E => Ok QueryDirectory
  | 0x000F => Ok ChangeNotify
  | 0x0010 => Ok QueryInfo
  | 0x0011 => Ok SetInfo
  | 0x0012 => Ok OplockBreak
  | _ => Err (InvalidField "SMB2 Command")
  end.

Lemma as_u16_range c : u16 (as_u16 c).
Proof. by destruct c. Qed.

Lemma try_from_as_u16 c : try_from (as_u16 c) = Ok c.
Proof. by destruct c. Qed.

Lemma as_u16_try_from v c : try_from v = Ok c -> as_u16 c = v.
Proof.
  destruct v as [|p|p]; cbn; [by intros [= <-]| |done].
  do 5 (destruct p as [p|p|]; try done; try by intros [= <-]).
Qed.

Lemma returns_try_from v : returns (try_from v).
Proof.
  destruct v as [|p|p]; [done| |done]. cbn.
  do 5 (destruct p as [p|p|]; try done).
Qed.
End Command.
#[export] Hint Resolve Command.returns_try_from : returns.

Inductive StatusField : Type :=
  | ChannelSequence (sequence reserved : Z)
  | Status (status : Z).

Inductive HeaderId : Type :=
  | Sync (process_id tree_id : Z)
  | Async (async_id : Z).

#[export] Instance StatusField_eq_dec : EqDecision StatusField.
Proof. solve_decision. Defined.
#[export] Instance HeaderId_eq_dec : EqDecision HeaderId.
Proof. solve_decision. Defined.

Record Smb2Header : Type := mkSmb2Header {
  credit_charge : Z;
  status : StatusField;
  command : Command.t;
  credits : Z;
  hdr_flags : Z;
  next_command : Z;
  message_id : Z;
  hdr_id : HeaderId;
  session_id : Z;
  signature : bytes
}.

(** [Smb2Header::request]. *)
Definition request (command : Command.t) (message_id credit_charge credit_request : Z) :
    Smb2Header :=
  {| credit_charge := credit_charge;
     status := ChannelSequence 0 0;
     command := command;
     credits := credit_request;
     hdr_flags := 0;
     next_command := 0;
     message_id := message_id;
     hdr_id := Sync 0 0;
     session_id := 0;
     signature := replicate 16 x00 |}.

(** The assignments [header.session_id = ..; header.id = ..] every request
    encoder makes on a fresh [request] header. *)
Definition with_session_and_id (h : Smb2Header) (session : Z) (id : HeaderId) : Smb2Header :=
  {| credit_charge := credit_charge h; status := status h; command := command h;
     credits := credits h; hdr_flags := hdr_flags h; next_command := next_command h;
     message_id := message_id h; hdr_id := id; session_id := session;
     signature := signature h |}.

Definition encode_header (h : Smb2Header) : wire bytes :=
  let out := replicate (Z.to_nat SMB2_HEADER_SIZE) x00 in
  let! out := copy_from_slice out 0 4 SMB2_PROTOCOL_ID in
  let! out := put_u16 out 4 SMB2_HEADER_STRUCTURE_SIZE in
  let! out := put_u16 out 6 (credit_charge h) in
  let! out :=
    match status h with
    | ChannelSequence sequence reserved =>
        let! out := put_u16 out 8 sequence in put_u16 out 10 reserved
    | Status status => put_u32 out 8 status
    end in
  let! out := put_u16 out 12 (Command.as_u16 (command h)) in
  let! out := put_u16 out 14 (credits h) in
  let! out := put_u32 out 16 (hdr_flags h) in
  let! out := put_u32 out 20 (next_command h) in
  let! out := put_u64 out 24 (message_id h) in
  let! out :=
    match hdr_id h with
    | Sync process_id tree_id =>
        let! out := put_u32 out 32 process_id in put_u32 out 36 tree_id
    | Async async_id => put_u64 out 32 async_id
    end in
  let! out := put_u64 out 40 (session_id h) in
  copy_from_slice out 48 64 (signature h).

Definition decode_header (input : bytes) : wire Smb2Header :=
  let! _ := require_len input SMB2_HEADER_SIZE in
  let! protocol := slice input 0 4 in
  if bool_decide (protocol <> SMB2_PROTOCOL_ID) then Err (InvalidProtocolId protocol) else
  let! structure_size := get_u16 input 4 in
  if negb (structure_size =? SMB2_HEADER_STRUCTURE_SIZE)
  then Err (InvalidStructureSize SMB2_HEADER_STRUCTURE_SIZE structure_size) else
  let! flags_value := get_u32 input 16 in
  let! status :=
    if has_flag flags_value flags.SERVER_TO_REDIR
    then let! value := get_u32 input 8 in Ok (Status value)
    else let! sequence := get_u16 input 8 in
         let! reserved := get_u16 input 10 in
         Ok (ChannelSequence sequence reserved) in
  let! id :=
    if has_flag flags_value flags.ASYNC_COMMAND
    then let! async_id := get_u64 input 32 in Ok (Async async_id)
    else let! process_id := get_u32 input 32 in
         let! tree_id := get_u32 input 36 in
         Ok (Sync process_id tree_id) in
  let! signature := slice input 48 64 in
  let! credit_charge := get_u16 input 6 in
  let! command_value := get_u16 input 12 in
  let! command := Command.try_from command_value in
  let! credits := get_u16 input 14 in
  let! next_command := get_u32 input 20 in
  let! message_id := get_u64 input 24 in
  let! session_id := get_u64 input 40 in
  Ok {| credit_charge := credit_charge; status := status; command := command;
        credits := credits; hdr_flags := flags_value; next_command := next_command;
        message_id := message_id; hdr_id := id; session_id := session_id;
        signature := signature |}.

(** ** Well-formed headers

    The Rust types give the field ranges; [hdr_consistent] is the agreement of
    the flags with the two unions that the type leaves open. *)
Definition status_wf (s : StatusField) : Prop :=
  match s with
  | ChannelSequence sequence reserved => u16 sequence /\ u16 reserved
  | Status status => u32 status
  end.

Definition id_wf (i : HeaderId) : Prop :=
  match i with
  | Sync process_id tree_id => u32 process_id /\ u32 tree_id
  | Async async_id => u64 async_id
  end.

Definition header_wf (h : Smb2Header) : Prop :=
  u16 (credit_charge h) /\ status_wf (status h) /\ u16 (credits h) /\ u32 (hdr_flags h) /\
  u32 (next_command h) /\ u64 (message_id h) /\ id_wf (hdr_id h) /\ u64 (session_id h) /\
  len (signature h) = 16.

Definition is_status (s : StatusField) : bool :=
  match s with Status _ => true | _ => false end.
Definition is_async (i : HeaderId) : bool :=
  match i with Async _ => true | _ => false end.

Definition hdr_consistent (h : Smb2Header) : Prop :=
  is_status (status h) = has_flag (hdr_flags h) flags.SERVER_TO_REDIR /\
  is_async (hdr_id h) = has_flag (hdr_flags h) flags.ASYNC_COMMAND.

(** ** The header as a sequence of fields *)
Definition status_bytes (s : StatusField) : bytes :=
  match s with
  | ChannelSequence sequence reserved => le_bytes 2 sequence ++ le_bytes 2 reserved
  | Status status => le_bytes 4 status
  end.

Definition id_bytes (i : HeaderId) : bytes :=
  match i with
  | Sync process_id tree_id => le_bytes 4 process_id ++ le_bytes 4 tree_id
  | Async async_id => le_bytes 8 async_id
  end.

Definition header_bytes (h : Smb2Header) : bytes :=
  SMB2_PROTOCOL_ID ++ le_bytes 2 SMB2_HEADER_STRUCTURE_SIZE ++ le_bytes 2 (credit_charge h)
  ++ status_bytes (status h) ++ le_bytes 2 (Command.as_u16 (command h))
  ++ le_bytes 2 (credits h) ++ le_bytes 4 (hdr_flags h) ++ le_bytes 4 (next_command h)
  ++ le_bytes 8 (message_id h) ++ id_bytes (hdr_id h) ++ le_bytes 8 (session_id h)
  ++ signature h.

#[global] Arguments SMB2_PROTOCOL_ID : simpl never.
#[global] Arguments header_bytes : simpl never.
#[global] Arguments status_bytes : simpl never.
#[global] Arguments id_bytes : simpl never.

Lemma len_status_bytes s : len (status_bytes s) = 4.
Proof. by destruct s. Qed.
Lemma len_id_bytes i : len (id_bytes i) = 8.
Proof. by destruct i. Qed.
Lemma len_SMB2_PROTOCOL_ID : len SMB2_PROTOCOL_ID = 4.
Proof. done. Qed.
#[export] Hint Rewrite len_status_bytes len_id_bytes len_SMB2_PROTOCOL_ID : len.

Lemma len_header_bytes h : len (signature h) = 16 -> len (header_bytes h) = 64.
Proof. intros. unfold header_bytes. len_lia. Qed.

Lemma encode_header_bytes h :
  len (signature h) = 16 -> encode_header h = Ok (header_bytes h).
Proof.
  intros Hs. unfold encode_header, put_u16, put_u32, put_u64, put_le, header_bytes.
  assert (forall out : bytes, len out = 64 ->
    copy_from_slice out 48 64 (signature h) = Ok (take 48 out ++ signature h) :> wire _) as Hsig.
  { intros out Ho. rewrite copy_from_slice_ok by lia. do 2 f_equal.
    rewrite drop_ge by (unfold len in Ho; lia). apply app_nil_r. }
  destruct (status h) as [sq rs|st], (hdr_id h) as [pi ti|ai]; by apply Hsig.
Qed.

Ltac get_unfold := unfold get_u16, get_u32, get_u64, SMB2_HEADER_SIZE in *.

Lemma returns_decode_header input : returns (decode_header input).
Proof.
  unfold decode_header. get_unfold. repeat returns_step.
Qed.

#[export] Hint Resolve returns_decode_header : returns.

(** Projections of a header literal. *)
Ltac hdr_proj :=
  cbn [credit_charge status command credits hdr_flags next_command message_id hdr_id
       session_id signature].

(** What a successful decode says about its input. *)
Lemma decode_header_inv input h :
  decode_header input = Ok h ->
  64 <= len input /\ header_wf h /\ hdr_consistent h /\ sub input 0 64 = header_bytes h.
Proof.
  unfold decode_header. get_unfold. intros (u & Hl & Hd)%obind_ok.
  apply require_len_inv in Hl. oeval_in Hd.
  case_bool_decide as Hp; [done|].
  destruct (Z.eqb_spec (le_at 2 input 4) SMB2_HEADER_STRUCTURE_SIZE) as [Hss|]; [|done].
  cbn [negb] in Hd.
  apply obind_ok in Hd as (st & Hst & Hd). apply obind_ok in Hd as (id & Hid & Hd).
  oeval_in Hd. apply obind_ok in Hd as (cmd & Hcmd & Hd). oeval_in Hd.
  injection Hd as <-. apply Command.as_u16_try_from in Hcmd.
  assert (is_status st = has_flag (le_at 4 input 16) flags.SERVER_TO_REDIR /\ status_wf st
    /\ status_bytes st = sub input 8 4) as (Hst1 & Hst2 & Hst3).
  { destruct (has_flag _ flags.SERVER_TO_REDIR); oeval_in Hst; injection Hst as <-;
      (split; [done|]); unfold status_bytes, id_bytes; cbn;
      rewrite !le_bytes_le_at, ?sub_cat by lia; (split; [|done]);
      repeat split; apply le_at_range; lia. }
  assert (is_async id = has_flag (le_at 4 input 16) flags.ASYNC_COMMAND /\ id_wf id
    /\ id_bytes id = sub input 32 8) as (Hid1 & Hid2 & Hid3).
  { destruct (has_flag _ flags.ASYNC_COMMAND); oeval_in Hid; injection Hid as <-;
      (split; [done|]); unfold status_bytes, id_bytes; cbn;
      rewrite !le_bytes_le_at, ?sub_cat by lia; (split; [|done]);
      repeat split; apply le_at_range; lia. }
  split; [done|]. split; [|split; [done|]].
  - unfold header_wf. cbn. split_and!; try done;
      try (apply le_at_range; lia). apply len_sub; lia.
  - unfold header_bytes. hdr_proj. rewrite <- Hp, <- Hss, Hst3, Hcmd, Hid3.
    rewrite !le_bytes_le_at, !sub_cat by lia. done.
Qed.

(** Reading the fields of an encoded header back. *)
Ltac header_field := unfold header_bytes; rewrite <- !app_assoc; field_at.

Lemma header_protocol_at h rest : sub (header_bytes h ++ rest) 0 4 = SMB2_PROTOCOL_ID.
Proof. unfold header_bytes. rewrite <- !app_assoc. by rewrite sub_app_here. Qed.

Lemma header_signature_at h rest :
  len (signature h) = 16 -> sub (header_bytes h ++ rest) 48 16 = signature h.
Proof.
  intros. unfold header_bytes. rewrite <- !app_assoc.
  repeat (rewrite sub_app_r by len_lia). autorewrite with len.
  by apply sub_app_here.
Qed.

Lemma header_status_at h rest :
  status_wf (status h) ->
  status h = if is_status (status h) then Status (le_at 4 (header_bytes h ++ rest) 8)
             else ChannelSequence (le_at 2 (header_bytes h ++ rest) 8)
                                  (le_at 2 (header_bytes h ++ rest) 10).
Proof.
  intros Hwf. unfold header_bytes. rewrite <- !app_assoc.
  destruct (status h); cbn in *; [destruct Hwf|]; f_equal; symmetry.
  all: unfold status_bytes; rewrite <- ?app_assoc; field_at.
Qed.

Lemma header_id_at h rest :
  id_wf (hdr_id h) ->
  hdr_id h = if is_async (hdr_id h) then Async (le_at 8 (header_bytes h ++ rest) 32)
             else Sync (le_at 4 (header_bytes h ++ rest) 32)
                       (le_at 4 (header_bytes h ++ rest) 36).
Proof.
  intros Hwf. unfold header_bytes. rewrite <- !app_assoc.
  destruct (hdr_id h); cbn in *; [destruct Hwf|]; f_equal; symmetry.
  all: unfold id_bytes; rewrite <- ?app_assoc; field_at.
Qed.

Lemma decode_header_bytes h rest :
  header_wf h -> hdr_consistent h -> decode_header (header_bytes h ++ rest) = Ok h.
Proof.
  intros (Hcc & Hst & Hcr & Hfl & Hnc & Hmi & Hid & Hsi & Hsg) [Hc1 Hc2].
  pose proof (len_header_bytes h Hsg) as Hlen.
  pose proof (header_status_at h rest Hst) as Est.
  pose proof (header_id_at h rest Hid) as Eid.
  pose proof (header_protocol_at h rest) as Ep.
  pose proof (header_signature_at h rest Hsg) as Esg.
  assert (le_at 2 (header_bytes h ++ rest) 4 = SMB2_HEADER_STRUCTURE_SIZE) as E4
    by header_field.
  assert (le_at 4 (header_bytes h ++ rest) 16 = hdr_flags h) as E16 by header_field.
  assert (le_at 2 (header_bytes h ++ rest) 6 = credit_charge h) as E6 by header_field.
  assert (le_at 2 (header_bytes h ++ rest) 12 = Command.as_u16 (command h)) as E12
    by (pose proof (Command.as_u16_range (command h)); header_field).
  assert (le_at 2 (header_bytes h ++ rest) 14 = credits h) as E14 by header_field.
  assert (le_at 4 (header_bytes h ++ rest) 20 = next_command h) as E20 by header_field.
  assert (le_at 8 (header_bytes h ++ rest) 24 = message_id h) as E24 by header_field.
  assert (le_at 8 (header_bytes h ++ rest) 40 = session_id h) as E40 by header_field.
  unfold decode_header. get_unfold. rewrite require_len_ok by len_lia. oeval.
  rewrite Ep, bool_decide_false, E4, E16, <- Hc1, <- Hc2 by congruence. cbn [Z.eqb Pos.eqb negb].
  destruct (is_status (status h)), (is_async (hdr_id h)); oeval;
    rewrite E12, Command.try_from_as_u16; oeval;
    rewrite E6, E14, E20, E24, E40, Esg, <- Est, <- Eid; by destruct h.
Qed.

(** ** Evaluating encoders

    [put_eval] performs the writes of an encoder on a buffer of known length
    whose values are variables; a write inside the fixed part of a longer
    buffer goes through [put_le_app]. *)
Ltac put_eval :=
  unfold put_u16, put_u32, put_u64;
  repeat match goal with |- context [put_le ?n ?out ?o ?v] =>
    lazymatch out with
    | ?l1 ++ ?l2 => rewrite (put_le_app n l1 l2 o v) by (unfold len; cbn; lia);
                    try rewrite obind_assoc
    | _ => let r := eval lazy -[byte_of_Z Z.div] in (put_le (E:=WireError) n out o v) in
           change (put_le (E:=WireError) n out o v) with r; cbn [obind]
    end
  end.

(** ** Request headers *)

(** The header every request encoder builds. *)
Abbreviation request_header command message_id session tree charge credit_request :=
  (with_session_and_id (request command message_id charge credit_request) session (Sync 0 tree)).

Lemma request_header_wf c mid sid tid charge credit :
  u64 mid -> u64 sid -> u32 tid -> u16 charge -> u16 credit ->
  header_wf (request_header c mid sid tid charge credit).
Proof.
  intros. unfold header_wf. cbn. split_and!; try done; by split.
Qed.

Lemma request_header_consistent c mid sid tid charge credit :
  hdr_consistent (request_header c mid sid tid charge credit).
Proof. done. Qed.

Lemma encode_request_header c mid sid tid charge credit :
  encode_header (request_header c mid sid tid charge credit)
  = Ok (header_bytes (request_header c mid sid tid charge credit)).
Proof. by apply encode_header_bytes. Qed.

Lemma len_request_header c mid sid tid charge credit :
  len (header_bytes (request_header c mid sid tid charge credit)) = 64.
Proof. by apply len_header_bytes. Qed.
#[export] Hint Rewrite len_request_header : len.

Lemma encode_plain_header c mid charge credit :
  encode_header (request c mid charge credit)
  = Ok (header_bytes (request c mid charge credit)).
Proof. by apply encode_header_bytes. Qed.

(** ** Properties *)

(** A 64-byte header decodes to [h] exactly when it is the encoding of a
    well-formed header whose flags agree with its two unions; the decoder reads
    nothing past the header. *)
Theorem decode_header_iff (input : bytes) (h : Smb2Header) :
  decode_header input = Ok h <->
  header_wf h /\ hdr_consistent h /\ encode_header h = Ok (take 64 input).
Proof.
  change 64%nat with (Z.to_nat 64). rewrite take_sub. split.
  - intros (? & Hwf & ? & ->)%decode_header_inv. split_and!; try done.
    apply encode_header_bytes, Hwf.
  - intros (Hwf & Hc & He). rewrite encode_header_bytes in He by apply Hwf.
    rewrite <- (take_drop 64 input). change 64%nat with (Z.to_nat 64) at 1.
    rewrite take_sub. injection He as <-. by apply decode_header_bytes.
Qed.
