(* ===== verification/Create.v ===== *)
(** * File identifiers and the CREATE messages

    [crates/smb-wire/src/create.rs]: the [FileId] every later request names an
    open file with, the CREATE request encoder with its validation, and the
    CREATE response decoder. *)
From S2P Require Import Prelude WireError Utf16 Header.

Definition CREATE_REQUEST_STRUCTURE_SIZE : Z := 57.
Definition CREATE_REQUEST_FIXED_SIZE : Z := 56.
Definition CREATE_RESPONSE_STRUCTURE_SIZE : Z := 89.
Definition CREATE_RESPONSE_FIXED_SIZE : Z := 88.

Module oplock_level.
Definition NONE : Z := 0x00.
Definition LEVEL_II : Z := 0x01.
Definition EXCLUSIVE : Z := 0x08.
Definition BATCH : Z := 0x09.
Definition LEASE : Z := 0xff.
End oplock_level.

Module impersonation_level.
Definition ANONYMOUS : Z := 0x00000000.
Definition IDENTIFICATION : Z := 0x00000001.
Definition IMPERSONATION : Z := 0x00000002.
Definition DELEGATE : Z := 0x00000003.
End impersonation_level.

Module desired_access.
Definition FILE_READ_DATA : Z := 0x00000001.
Definition FILE_WRITE_DATA : Z := 0x00000002.
Definition FILE_APPEND_DATA : Z := 0x00000004.
Definition FILE_READ_EA : Z := 0x00000008.
Definition FILE_WRITE_EA : Z := 0x00000010.
Definition FILE_EXECUTE : Z := 0x00000020.
Definition FILE_DELETE_CHILD : Z := 0x00000040.
Definition FILE_READ_ATTRIBUTES : Z := 0x00000080.
Definition FILE_WRITE_ATTRIBUTES : Z := 0x00000100.
Definition DELETE : Z := 0x00010000.
Definition READ_CONTROL : Z := 0x00020000.
Definition WRITE_DAC : Z := 0x00040000.
Definition WRITE_OWNER : Z := 0x00080000.
Definition SYNCHRONIZE : Z := 0x00100000.
Definition ACCESS_SYSTEM_SECURITY : Z := 0x01000000.
Definition MAXIMUM_ALLOWED : Z := 0x02000000.
Definition GENERIC_ALL : Z := 0x10000000.
Definition GENERIC_EXECUTE : Z := 0x20000000.
Definition GENERIC_WRITE : Z := 0x40000000.
Definition GENERIC_READ : Z := 0x80000000.
End desired_access.

Module share_access.
Definition READ : Z := 0x00000001.
Definition WRITE : Z := 0x00000002.
Definition DELETE : Z := 0x00000004.
End share_access.

Module create_disposition.
Definition SUPERSEDE : Z := 0x00000000.
Definition OPEN : Z := 0x00000001.
Definition CREATE : Z := 0x00000002.
Definition OPEN_IF : Z := 0x00000003.
Definition OVERWRITE : Z := 0x00000004.
Definition OVERWRITE_IF : Z := 0x00000005.
End create_disposition.

Module create_options.
Definition DIRECTORY_FILE : Z := 0x00000001.
Definition WRITE_THROUGH : Z := 0x00000002.
Definition SEQUENTIAL_ONLY : Z := 0x00000004.
Definition NO_INTERMEDIATE_BUFFERING : Z := 0x00000008.
Definition SYNCHRONOUS_IO_ALERT : Z := 0x00000010.
Definition SYNCHRONOUS_IO_NONALERT : Z := 0x00000020.
Definition NON_DIRECTORY_FILE : Z := 0x00000040.
Definition COMPLETE_IF_OPLOCKED : Z := 0x00000100.
Definition NO_EA_KNOWLEDGE : Z := 0x00000200.
Definition OPEN_REMOTE_INSTANCE : Z := 0x00000400.
Definition RANDOM_ACCESS : Z := 0x00000800.
Definition DELETE_ON_CLOSE : Z := 0x00001000.
Definition OPEN_BY_FILE_ID : Z := 0x00002000.
Definition OPEN_FOR_BACKUP_INTENT : Z := 0x00004000.
Definition NO_COMPRESSION : Z := 0x00008000.
Definition OPEN_REQUIRING_OPLOCK : Z := 0x00010000.
Definition DISALLOW_EXCLUSIVE : Z := 0x00020000.
Definition RESERVE_OPFILTER : Z := 0x00100000.
Definition OPEN_REPARSE_POINT : Z := 0x00200000.
Definition OPEN_NO_RECALL : Z := 0x00400000.
Definition OPEN_FOR_FREE_SPACE_QUERY : Z := 0x00800000.
End create_options.

Module create_action.
Definition SUPERSEDED : Z := 0x00000000.
Definition OPENED : Z := 0x00000001.
Definition CREATED : Z := 0x00000002.
Definition OVERWRITTEN : Z := 0x00000003.
End create_action.

Record FileId : Type := mkFileId { persistent : Z; volatile : Z }.

#[export] Instance FileId_eq_dec : EqDecision FileId.
Proof. solve_decision. Defined.

Definition is_zero (f : FileId) : bool := (persistent f =? 0) && (volatile f =? 0).

Definition file_id_wf (f : FileId) : Prop := u64 (persistent f) /\ u64 (volatile f).

(** The 16 bytes of a file identifier in a message body. *)
Definition file_id_bytes (f : FileId) : bytes :=
  le_bytes 8 (persistent f) ++ le_bytes 8 (volatile f).
#[global] Arguments file_id_bytes : simpl never.

Lemma len_file_id_bytes f : len (file_id_bytes f) = 16.
Proof. done. Qed.
#[export] Hint Rewrite len_file_id_bytes : len.

Module CreateRequest.

Record t : Type := mk {
  requested_oplock_level : Z;
  impersonation : Z;
  access : Z;
  file_attributes : Z;
  share : Z;
  disposition : Z;
  options : Z;
  name : rust_string
}.

Definition open_existing_read (name : rust_string) : t :=
  {| requested_oplock_level := oplock_level.NONE;
     impersonation := impersonation_level.IMPERSONATION;
     access := desired_access.GENERIC_READ;
     file_attributes := 0;
     share := Z.lor (Z.lor share_access.READ share_access.WRITE) share_access.DELETE;
     disposition := create_disposition.OPEN;
     options := Z.lor create_options.NON_DIRECTORY_FILE create_options.RANDOM_ACCESS;
     name := name |}.

Definition validate (r : t) : wire unit :=
  if requested_oplock_level r =? oplock_level.LEASE
  then Err (Unsupported "CREATE lease context") else
  if negb ((requested_oplock_level r =? oplock_level.NONE)
           || (requested_oplock_level r =? oplock_level.LEVEL_II)
           || (requested_oplock_level r =? oplock_level.EXCLUSIVE)
           || (requested_oplock_level r =? oplock_level.BATCH))
  then Err (InvalidField "CREATE RequestedOplockLevel") else
  if impersonation_level.DELEGATE <? impersonation r
  then Err (InvalidField "CREATE ImpersonationLevel") else
  if create_disposition.OVERWRITE_IF <? disposition r
  then Err (InvalidField "CREATE CreateDisposition") else
  if has_flag (options r) create_options.DIRECTORY_FILE
     && has_flag (options r) create_options.NON_DIRECTORY_FILE
  then Err (InvalidField "CREATE directory and non-directory options conflict") else
  if has_flag (options r) create_options.SEQUENTIAL_ONLY
     && has_flag (options r) create_options.RANDOM_ACCESS
  then Err (InvalidField "CREATE sequential and random access options conflict") else
  if starts_with 92 (name r) || starts_with 47 (name r)
  then Err (InvalidField "CREATE name must be relative to the tree") else
  if contains 0 (name r)
  then Err (InvalidField "CREATE name must not contain NUL") else
  let! name_len := ok_or (checked_mul usize_max (len (encode_utf16 (name r))) 2)
                         (InvalidField "CREATE NameLength overflow") in
  if u16_max <? name_len then Err (InvalidField "CREATE NameLength") else Ok tt.

Definition encode_body (r : t) : wire bytes :=
  let! _ := validate r in
  let name := utf16_bytes (name r) in
  let body := replicate (Z.to_nat CREATE_REQUEST_FIXED_SIZE) x00 in
  let! body := put_u16 body 0 CREATE_REQUEST_STRUCTURE_SIZE in
  let! body := put_le 1 body 2 0 in
  let! body := put_le 1 body 3 (requested_oplock_level r) in
  let! body := put_u32 body 4 (impersonation r) in
  let! body := put_u64 body 8 0 in
  let! body := put_u64 body 16 0 in
  let! body := put_u32 body 24 (access r) in
  let! body := put_u32 body 28 (file_attributes r) in
  let! body := put_u32 body 32 (share r) in
  let! body := put_u32 body 36 (disposition r) in
  let! body := put_u32 body 40 (options r) in
  let! name_offset := ok_or (try_from u16_max (SMB2_HEADER_SIZE + CREATE_REQUEST_FIXED_SIZE))
                            (InvalidField "CREATE NameOffset") in
  let! body := put_u16 body 44 name_offset in
  let! body :=
    if is_empty name
    then let! body := put_u16 body 46 0 in Ok (body ++ [x00])
    else let! name_len := ok_or (try_from u16_max (len name))
                                (InvalidField "CREATE NameLength") in
         let! body := put_u16 body 46 name_len in
         Ok (body ++ name) in
  let! body := put_u32 body 48 0 in
  put_u32 body 52 0.

Definition encode_message (r : t) (message_id session_id tree_id credit_request : Z) :
    wire bytes :=
  let header := request_header Command.Create message_id session_id tree_id 0 credit_request in
  let! body := encode_body r in
  let! header := encode_header header in
  Ok (header ++ body).

(** The fixed part of the body; [contexts_offset] and [contexts_length] are
    zero in a context-free request. *)
Definition fixed_bytes (r : t) (contexts_offset contexts_length : Z) : bytes :=
  le_bytes 2 CREATE_REQUEST_STRUCTURE_SIZE ++ le_bytes 1 0
  ++ le_bytes 1 (requested_oplock_level r) ++ le_bytes 4 (impersonation r) ++ le_bytes 8 0
  ++ le_bytes 8 0 ++ le_bytes 4 (access r) ++ le_bytes 4 (file_attributes r)
  ++ le_bytes 4 (share r) ++ le_bytes 4 (disposition r) ++ le_bytes 4 (options r)
  ++ le_bytes 2 120 ++ le_bytes 2 (len (utf16_bytes (name r)))
  ++ le_bytes 4 contexts_offset ++ le_bytes 4 contexts_length.

Definition name_buffer (r : t) : bytes :=
  if is_empty (name r) then [x00] else utf16_bytes (name r).
#[global] Arguments fixed_bytes : simpl never.
#[global] Arguments name_buffer : simpl never.

Lemma len_fixed_bytes r o l : len (fixed_bytes r o l) = 56.
Proof. done. Qed.

Lemma create_request_returns_validate r : returns (validate r).
Proof. unfold validate. repeat returns_step. Qed.

Lemma create_request_validate_name_len r u : validate r = Ok u -> len (utf16_bytes (name r)) <= 65535.
Proof.
  unfold validate. intros H. accept H.
  bool_facts. rewrite len_utf16_bytes. unfold u16_max in *. lia.
Qed.

Lemma is_empty_utf16_bytes s : is_empty (utf16_bytes s) = is_empty s.
Proof.
  rewrite is_empty_len, len_utf16_bytes. destruct s as [|c s]; [done|].
  apply Z.eqb_neq. destruct (encode_utf16 (c :: s)) eqn:E.
  - by apply (proj1 (encode_utf16_nil _)) in E.
  - len_lia.
Qed.

(** The body a valid request encodes to. *)
Lemma create_request_encode_body_ok r u :
  validate r = Ok u -> encode_body r = Ok (fixed_bytes r 0 0 ++ name_buffer r).
Proof.
  intros Hv. pose proof (create_request_validate_name_len r u Hv) as Hn.
  unfold encode_body. rewrite Hv. cbn [obind]. cbv zeta.
  unfold name_buffer, fixed_bytes. rewrite is_empty_utf16_bytes.
  rewrite !try_from_ok
    by (unfold u16_max, SMB2_HEADER_SIZE, CREATE_REQUEST_FIXED_SIZE; lia).
  cbn [ok_or obind].
  assert (is_empty (name r) = true -> len (utf16_bytes (name r)) = 0) as He.
  { intros ->%is_empty_true. done. }
  destruct r as [ol im ac fa sh di op nm]; cbn in *.
  destruct (is_empty nm) eqn:Hempty.
  - rewrite He by done. put_eval. reflexivity.
  - clear Hn He. generalize (len (utf16_bytes nm)) (utf16_bytes nm). intros nl nb.
    put_eval. reflexivity.
Qed.

End CreateRequest.

Module CreateResponse.

Record t : Type := mk {
  header : Smb2Header;
  granted_oplock_level : Z;
  response_flags : Z;
  action : Z;
  creation_time : Z;
  last_access_time : Z;
  last_write_time : Z;
  change_time : Z;
  allocation_size : Z;
  end_of_file : Z;
  file_attributes : Z;
  file_id : FileId;
  create_contexts_offset : Z;
  create_contexts_length : Z
}.

Definition decode_message (message : bytes) : wire t :=
  let! _ := require_len message (SMB2_HEADER_SIZE + CREATE_RESPONSE_FIXED_SIZE) in
  let! header := decode_header message in
  if negb (bool_decide (command header = Command.Create))
  then Err (InvalidField "CREATE response Command") else
  if negb (has_flag (hdr_flags header) flags.SERVER_TO_REDIR)
  then Err (InvalidField "CREATE response direction") else
  if is_async (hdr_id header)
  then Err (InvalidField "CREATE response must use a synchronous header") else
  let! body := slice_from message SMB2_HEADER_SIZE in
  let! structure_size := get_u16 body 0 in
  if negb (structure_size =? CREATE_RESPONSE_STRUCTURE_SIZE)
  then Err (InvalidStructureSize CREATE_RESPONSE_STRUCTURE_SIZE structure_size) else
  let! contexts_offset := get_u32 body 80 in
  let! contexts_length := get_u32 body 84 in
  let! _ :=
    if negb (contexts_length =? 0) then
      let! offset := ok_or (try_from usize_max contexts_offset)
                           (InvalidField "CREATE CreateContextsOffset") in
      let! length := ok_or (try_from usize_max contexts_length)
                           (InvalidField "CREATE CreateContextsLength") in
      let! range_end := ok_or (checked_add usize_max offset length)
                              (InvalidField "CREATE create-context length overflow") in
      if negb (offset mod 8 =? 0) || (len message <? range_end)
      then Err (InvalidOffset "CREATE CreateContexts" offset length (len message))
      else Ok tt
    else if negb (contexts_offset =? 0)
    then Err (InvalidField "CREATE CreateContextsOffset without contexts")
    else Ok tt in
  let! granted_oplock_level := get_le 1 body 2 in
  let! response_flags := get_le 1 body 3 in
  let! action := get_u32 body 4 in
  let! creation_time := get_u64 body 8 in
  let! last_access_time := get_u64 body 16 in
  let! last_write_time := get_u64 body 24 in
  let! change_time := get_u64 body 32 in
  let! allocation_size := get_u64 body 40 in
  let! end_of_file := get_u64 body 48 in
  let! file_attributes := get_u32 body 56 in
  let! persistent := get_u64 body 64 in
  let! volatile := get_u64 body 72 in
  Ok {| header := header;
        granted_oplock_level := granted_oplock_level;
        response_flags := response_flags;
        action := action;
        creation_time := creation_time;
        last_access_time := last_access_time;
        last_write_time := last_write_time;
        change_time := change_time;
        allocation_size := allocation_size;
        end_of_file := end_of_file;
        file_attributes := file_attributes;
        file_id := mkFileId persistent volatile;
        create_contexts_offset := contexts_offset;
        create_contexts_length := contexts_length |}.

Lemma create_response_returns_decode_message message : returns (decode_message message).
Proof.
  unfold decode_message, CREATE_RESPONSE_FIXED_SIZE. get_unfold. repeat returns_step.
Qed.

Lemma decode_message_contexts message r :
  decode_message message = Ok r ->
  u32 (create_contexts_offset r) /\ u32 (create_contexts_length r) /\
  header_wf (header r) /\ command (header r) = Command.Create /\
  has_flag (hdr_flags (header r)) flags.SERVER_TO_REDIR = true /\
  file_id_wf (file_id r) /\ u64 (end_of_file r).
Proof.
  unfold decode_message, CREATE_RESPONSE_FIXED_SIZE. get_unfold. intros Hd. accept Hd.
  apply obind_ok in Hd as (h & Hh & Hd). apply decode_header_inv in Hh as (_ & Hwf & Hc & Hm).
  accept Hd. apply obind_ok in Hd as (u & _ & Hd). accept Hd. apply Ok_inj in Hd as <-.
  unfold file_id_wf. cbn. body_offsets. bool_facts. read_facts. by split_and!.
Qed.

End CreateResponse.
#[export] Hint Resolve CreateRequest.create_request_returns_validate CreateResponse.create_response_returns_decode_message
  : returns.
