(* ===== verification/ReadWrite.v ===== *)
(** * READ and WRITE messages

    [crates/smb-wire/src/read.rs] and [write.rs]: the request encoders with
    their validation and the response decoders of the data path. *)
From S2P Require Import Prelude WireError Header Create.

Definition READ_REQUEST_STRUCTURE_SIZE : Z := 49.
Definition READ_REQUEST_FIXED_SIZE : Z := 48.
Definition READ_RESPONSE_STRUCTURE_SIZE : Z := 17.
Definition READ_RESPONSE_FIXED_SIZE : Z := 16.
Definition READ_DEFAULT_DATA_OFFSET : Z := 0x50.

Module read_request_flags.
Definition NONE : Z := 0x00.
Definition READ_UNBUFFERED : Z := 0x01.
Definition REQUEST_COMPRESSED : Z := 0x02.
End read_request_flags.

Module read_channel.
Definition NONE : Z := 0x00000000.
Definition RDMA_V1 : Z := 0x00000001.
Definition RDMA_V1_INVALIDATE : Z := 0x00000002.
End read_channel.

Module ReadRequest.

Record t : Type := mk {
  padding : Z;
  flags : Z;
  length : Z;
  offset : Z;
  file_id : FileId;
  minimum_count : Z;
  channel : Z;
  remaining_bytes : Z
}.

Definition direct (file_id : FileId) (offset length : Z) : t :=
  {| padding := READ_DEFAULT_DATA_OFFSET;
     flags := read_request_flags.NONE;
     length := length;
     offset := offset;
     file_id := file_id;
     minimum_count := 0;
     channel := read_channel.NONE;
     remaining_bytes := 0 |}.

Definition validate (r : t) : wire unit :=
  if is_zero (file_id r) then Err (InvalidField "READ FileId") else
  if has_flag (flags r)
       (bit_not 8 (Z.lor read_request_flags.READ_UNBUFFERED read_request_flags.REQUEST_COMPRESSED))
  then Err (InvalidField "READ Flags") else
  if negb (channel r =? read_channel.NONE) then Err (Unsupported "READ RDMA channel") else
  if negb (remaining_bytes r =? 0)
  then Err (InvalidField "READ RemainingBytes without channel information") else
  if length r <? minimum_count r
  then Err (InvalidField "READ MinimumCount exceeds Length") else Ok tt.

Definition encode_body (r : t) : wire bytes :=
  let! _ := validate r in
  let body := replicate (Z.to_nat (READ_REQUEST_FIXED_SIZE + 1)) x00 in
  let! body := put_u16 body 0 READ_REQUEST_STRUCTURE_SIZE in
  let! body := put_le 1 body 2 (padding r) in
  let! body := put_le 1 body 3 (flags r) in
  let! body := put_u32 body 4 (length r) in
  let! body := put_u64 body 8 (offset r) in
  let! body := put_u64 body 16 (persistent (file_id r)) in
  let! body := put_u64 body 24 (volatile (file_id r)) in
  let! body := put_u32 body 32 (minimum_count r) in
  let! body := put_u32 body 36 (channel r) in
  let! body := put_u32 body 40 (remaining_bytes r) in
  let! body := put_u16 body 44 0 in
  let! body := put_u16 body 46 0 in
  put_le 1 body 48 0.

Definition encode_message (r : t)
    (message_id session_id tree_id credit_charge credit_request : Z) : wire bytes :=
  let header :=
    request_header Command.Read message_id session_id tree_id credit_charge credit_request in
  let! body := encode_body r in
  let! header := encode_header header in
  Ok (header ++ body).

Definition wf (r : t) : Prop :=
  u8 (padding r) /\ u8 (flags r) /\ u32 (length r) /\ u64 (offset r) /\
  file_id_wf (file_id r) /\ u32 (minimum_count r) /\ u32 (channel r) /\ u32 (remaining_bytes r).

Definition body_bytes (r : t) : bytes :=
  le_bytes 2 READ_REQUEST_STRUCTURE_SIZE ++ le_bytes 1 (padding r) ++ le_bytes 1 (flags r)
  ++ le_bytes 4 (length r) ++ le_bytes 8 (offset r) ++ file_id_bytes (file_id r)
  ++ le_bytes 4 (minimum_count r) ++ le_bytes 4 (channel r) ++ le_bytes 4 (remaining_bytes r)
  ++ le_bytes 2 0 ++ le_bytes 2 0 ++ le_bytes 1 0.
#[global] Arguments body_bytes : simpl never.

Lemma len_body_bytes r : len (body_bytes r) = 49.
Proof. done. Qed.

Lemma read_request_encode_body_ok r :
  encode_body r = let! _ := validate r in Ok (body_bytes r).
Proof.
  unfold encode_body. destruct (validate r) as [u|e| |]; [|done..]. cbn [obind]. cbv zeta.
  destruct r as [pa fl le_ off [pe vo] mi ch re]. cbn. put_eval. reflexivity.
Qed.

Lemma read_request_encode_message_ok r mid sid tid charge credit :
  validate r = Ok tt ->
  encode_message r mid sid tid charge credit
  = Ok (header_bytes (request_header Command.Read mid sid tid charge credit) ++ body_bytes r).
Proof.
  intros Hv. unfold encode_message. cbv zeta.
  by rewrite read_request_encode_body_ok, Hv, encode_request_header.
Qed.

(** The requests the client sends are valid when they name an open file. *)
Lemma read_request_validate_direct f offset length :
  is_zero f = false -> 0 <= length -> validate (direct f offset length) = Ok tt.
Proof.
  intros Hf ?. unfold validate, direct. cbn. rewrite Hf.
  by rewrite (proj2 (Z.ltb_ge length 0)).
Qed.

End ReadRequest.
#[export] Hint Rewrite ReadRequest.len_body_bytes : len.

Module ReadResponse.

Record t : Type := mk {
  header : Smb2Header;
  data_remaining : Z;
  flags : Z;
  data : bytes
}.

Definition decode_message (message : bytes) : wire t :=
  let! _ := require_len message (SMB2_HEADER_SIZE + READ_RESPONSE_FIXED_SIZE) in
  let! header := decode_header message in
  if negb (bool_decide (command header = Command.Read))
  then Err (InvalidField "READ response Command") else
  if negb (has_flag (hdr_flags header) flags.SERVER_TO_REDIR)
  then Err (InvalidField "READ response direction") else
  let! body := slice_from message SMB2_HEADER_SIZE in
  let! structure_size := get_u16 body 0 in
  if negb (structure_size =? READ_RESPONSE_STRUCTURE_SIZE)
  then Err (InvalidStructureSize READ_RESPONSE_STRUCTURE_SIZE structure_size) else
  let! data_offset := get_le 1 body 2 in
  let! data_length_u32 := get_u32 body 4 in
  let! data_length := ok_or (try_from usize_max data_length_u32)
                            (InvalidField "READ DataLength") in
  if data_length =? 0
  then Err (InvalidField "successful READ response contains no data") else
  if data_offset <? SMB2_HEADER_SIZE + READ_RESPONSE_FIXED_SIZE
  then Err (InvalidField "READ DataOffset before response buffer") else
  let! data_end := ok_or (checked_add usize_max data_offset data_length)
                         (InvalidField "READ DataLength overflow") in
  if len message <? data_end
  then Err (InvalidOffset "READ Buffer" data_offset data_length (len message)) else
  let! data_remaining := get_u32 body 8 in
  let! response_flags := get_u32 body 12 in
  let! data := slice message data_offset data_end in
  Ok {| header := header; data_remaining := data_remaining; flags := response_flags;
        data := data |}.

(** The wire format: header, fixed part, [gap], the data the header of the
    body points at, and whatever follows. *)
Definition message_bytes (r : t) (reserved : byte) (gap trailing : bytes) : bytes :=
  header_bytes (header r) ++ le_bytes 2 READ_RESPONSE_STRUCTURE_SIZE
  ++ le_bytes 1 (80 + len gap) ++ [reserved] ++ le_bytes 4 (len (data r))
  ++ le_bytes 4 (data_remaining r) ++ le_bytes 4 (flags r) ++ gap ++ data r ++ trailing.

Lemma read_response_returns_decode_message message : returns (decode_message message).
Proof.
  unfold decode_message, READ_RESPONSE_FIXED_SIZE. get_unfold. repeat returns_step.
Qed.

(** The response decoder against the wire format, in both directions. *)
Lemma read_response_decode_message_inv message r :
  decode_message message = Ok r ->
  header_wf (header r) /\ hdr_consistent (header r) /\
  command (header r) = Command.Read /\
  has_flag (hdr_flags (header r)) flags.SERVER_TO_REDIR = true /\
  u32 (data_remaining r) /\ u32 (flags r) /\ 0 < len (data r) < 2 ^ 32 /\
  exists reserved gap trailing,
    80 + len gap < 256 /\ message = message_bytes r reserved gap trailing.
Proof.
  unfold decode_message, READ_RESPONSE_FIXED_SIZE. get_unfold. intros Hd. accept Hd.
  apply obind_ok in Hd as (h & Hh & Hd). apply decode_header_inv in Hh as (_ & Hwf & Hc & Hm).
  accept Hd. injection Hd as <-.
  body_offsets.
  bool_facts. read_facts. cbn in *.
  rewrite len_sub by lia. split_and!; try done; try lia.
  destruct (sub_1_byte message 67 ltac:(lia)) as [b Hb].
  exists b, (sub message 80 (le_at 1 message 66 - 80)),
    (drop (Z.to_nat (le_at 1 message 66 + le_at 4 message 68)) message).
  unfold message_bytes. cbn [header data data_remaining flags]. rewrite !len_sub by lia.
  replace (80 + (le_at 1 message 66 - 80)) with (le_at 1 message 66) by lia.
  split; [lia|]. rewrite <- Hm, <- Hb, <- Hchk1, !le_bytes_le_at by lia. by rejoin.
Qed.

Lemma read_response_decode_message_bytes r reserved gap trailing :
  header_wf (header r) -> hdr_consistent (header r) ->
  command (header r) = Command.Read ->
  has_flag (hdr_flags (header r)) flags.SERVER_TO_REDIR = true ->
  u32 (data_remaining r) -> u32 (flags r) -> 0 < len (data r) < 2 ^ 32 ->
  80 + len gap < 256 ->
  decode_message (message_bytes r reserved gap trailing) = Ok r.
Proof.
  intros Hwf Hc Hcmd Hdir ????. pose proof (len_header_bytes (header r) ltac:(apply Hwf)).
  unfold decode_message, message_bytes, READ_RESPONSE_FIXED_SIZE. get_unfold.
  rewrite require_len_ok by len_lia. cbn [obind].
  rewrite decode_header_bytes by done. cbn [obind].
  rewrite Hcmd, bool_decide_true, Hdir by done. cbn [negb].
  rewrite slice_from_ok by len_lia. cbn [obind]. rewrite drop_app_here by lia.
  unfold READ_RESPONSE_STRUCTURE_SIZE, usize_max in *. follow.
  eassert (sub _ _ _ = data r) as -> by sub_at. by destruct r.
Qed.

End ReadResponse.

Definition WRITE_REQUEST_STRUCTURE_SIZE : Z := 49.
Definition WRITE_REQUEST_FIXED_SIZE : Z := 48.
Definition WRITE_RESPONSE_STRUCTURE_SIZE : Z := 17.
Definition WRITE_RESPONSE_FIXED_SIZE : Z := 16.
Definition WRITE_DEFAULT_DATA_OFFSET : Z := (SMB2_HEADER_SIZE + WRITE_REQUEST_FIXED_SIZE) mod 2 ^ 16.

Module write_channel.
Definition NONE : Z := 0x00000000.
Definition RDMA_V1 : Z := 0x00000001.
Definition RDMA_V1_INVALIDATE : Z := 0x00000002.
Definition RDMA_TRANSFORM : Z := 0x00000003.
End write_channel.

Module write_flags.
Definition NONE : Z := 0x00000000.
Definition WRITE_THROUGH : Z := 0x00000001.
Definition WRITE_UNBUFFERED : Z := 0x00000002.
End write_flags.

Module WriteRequest.

Record t : Type := mk {
  offset : Z;
  file_id : FileId;
  channel : Z;
  remaining_bytes : Z;
  flags : Z;
  data : bytes
}.

Definition direct (file_id : FileId) (offset : Z) (data : bytes) : t :=
  {| offset := offset;
     file_id := file_id;
     channel := write_channel.NONE;
     remaining_bytes := 0;
     flags := write_flags.NONE;
     data := data |}.

Definition validate (r : t) : wire unit :=
  if is_zero (file_id r) then Err (InvalidField "WRITE FileId") else
  if u32_max <? len (data r) then Err (InvalidField "WRITE Length") else
  if negb (channel r =? write_channel.NONE) then Err (Unsupported "WRITE RDMA channel") else
  if negb (remaining_bytes r =? 0)
  then Err (InvalidField "WRITE RemainingBytes without channel information") else
  if has_flag (flags r)
       (bit_not 32 (Z.lor write_flags.WRITE_THROUGH write_flags.WRITE_UNBUFFERED))
  then Err (InvalidField "WRITE Flags") else Ok tt.

Definition encode_body (r : t) : wire bytes :=
  let! _ := validate r in
  let! data_len := ok_or (try_from u32_max (len (data r))) (InvalidField "WRITE Length") in
  let body := replicate (Z.to_nat WRITE_REQUEST_FIXED_SIZE) x00 in
  let! body := put_u16 body 0 WRITE_REQUEST_STRUCTURE_SIZE in
  let! body := put_u16 body 2 WRITE_DEFAULT_DATA_OFFSET in
  let! body := put_u32 body 4 data_len in
  let! body := put_u64 body 8 (offset r) in
  let! body := put_u64 body 16 (persistent (file_id r)) in
  let! body := put_u64 body 24 (volatile (file_id r)) in
  let! body := put_u32 body 32 (channel r) in
  let! body := put_u32 body 36 (remaining_bytes r) in
  let! body := put_u16 body 40 0 in
  let! body := put_u16 body 42 0 in
  let! body := put_u32 body 44 (flags r) in
  Ok (if is_empty (data r) then body ++ [x00] else body ++ data r).

Definition encode_message (r : t)
    (message_id session_id tree_id credit_charge credit_request : Z) : wire bytes :=
  let header :=
    request_header Command.Write message_id session_id tree_id credit_charge credit_request in
  let! body := encode_body r in
  let! header := encode_header header in
  Ok (header ++ body).

Definition wf (r : t) : Prop :=
  u64 (offset r) /\ file_id_wf (file_id r) /\ u32 (channel r) /\ u32 (remaining_bytes r) /\
  u32 (flags r).

Definition body_bytes (r : t) : bytes :=
  le_bytes 2 WRITE_REQUEST_STRUCTURE_SIZE ++ le_bytes 2 112 ++ le_bytes 4 (len (data r))
  ++ le_bytes 8 (offset r) ++ file_id_bytes (file_id r) ++ le_bytes 4 (channel r)
  ++ le_bytes 4 (remaining_bytes r) ++ le_bytes 2 0 ++ le_bytes 2 0 ++ le_bytes 4 (flags r)
  ++ (if is_empty (data r) then [x00] else data r).
#[global] Arguments body_bytes : simpl never.

Lemma write_request_encode_body_ok r :
  encode_body r = let! _ := validate r in Ok (body_bytes r).
Proof.
  unfold encode_body. destruct (validate r) as [u|e| |] eqn:Hv; [|done..].
  assert (len (data r) <= u32_max) as Hl by (unfold validate in Hv; accept Hv; bool_facts; lia).
  cbn [obind]. cbv zeta. rewrite try_from_ok by done. cbn [ok_or obind]. clear Hv.
  destruct r as [off [pe vo] ch re fl da]. cbn in *. unfold body_bytes. cbn.
  generalize (len da). intros n.
  put_eval. unfold file_id_bytes. destruct (is_empty da); reflexivity.
Qed.

Lemma write_request_encode_message_ok r mid sid tid charge credit :
  validate r = Ok tt ->
  encode_message r mid sid tid charge credit
  = Ok (header_bytes (request_header Command.Write mid sid tid charge credit) ++ body_bytes r).
Proof.
  intros Hv. unfold encode_message. cbv zeta.
  by rewrite write_request_encode_body_ok, Hv, encode_request_header.
Qed.

Lemma validate_data_len r u : validate r = Ok u -> len (data r) <= u32_max.
Proof. unfold validate. intros H. accept H. bool_facts. lia. Qed.

Lemma write_request_validate_direct f offset data :
  is_zero f = false -> len data <= u32_max -> validate (direct f offset data) = Ok tt.
Proof.
  intros Hf ?. unfold validate, direct. cbn. rewrite Hf.
  by rewrite (proj2 (Z.ltb_ge u32_max _)).
Qed.

End WriteRequest.

Module WriteResponse.

Record t : Type := mk { header : Smb2Header; count : Z; remaining : Z }.

Definition decode_message (message : bytes) : wire t :=
  let! _ := require_len message (SMB2_HEADER_SIZE + WRITE_RESPONSE_FIXED_SIZE) in
  let! header := decode_header message in
  if negb (bool_decide (command header = Command.Write))
  then Err (InvalidField "WRITE response Command") else
  if negb (has_flag (hdr_flags header) flags.SERVER_TO_REDIR)
  then Err (InvalidField "WRITE response direction") else
  let! body := slice_from message SMB2_HEADER_SIZE in
  let! structure_size := get_u16 body 0 in
  if negb (structure_size =? WRITE_RESPONSE_STRUCTURE_SIZE)
  then Err (InvalidStructureSize WRITE_RESPONSE_STRUCTURE_SIZE structure_size) else
  let! channel_offset := get_u16 body 12 in
  let! channel_length := get_u16 body 14 in
  if negb (channel_offset =? 0) || negb (channel_length =? 0)
  then Err (Unsupported "WRITE response channel information") else
  let! count := get_u32 body 4 in
  let! remaining := get_u32 body 8 in
  Ok {| header := header; count := count; remaining := remaining |}.

Definition message_bytes (r : t) (reserved trailing : bytes) : bytes :=
  header_bytes (header r) ++ le_bytes 2 WRITE_RESPONSE_STRUCTURE_SIZE ++ reserved
  ++ le_bytes 4 (count r) ++ le_bytes 4 (remaining r) ++ le_bytes 2 0 ++ le_bytes 2 0 ++ trailing.

Lemma write_response_returns_decode_message message : returns (decode_message message).
Proof.
  unfold decode_message, WRITE_RESPONSE_FIXED_SIZE. get_unfold. repeat returns_step.
Qed.

Lemma write_response_decode_message_inv message r :
  decode_message message = Ok r ->
  header_wf (header r) /\ hdr_consistent (header r) /\
  command (header r) = Command.Write /\
  has_flag (hdr_flags (header r)) flags.SERVER_TO_REDIR = true /\
  u32 (count r) /\ u32 (remaining r) /\
  exists reserved trailing, len reserved = 2 /\ message = message_bytes r reserved trailing.
Proof.
  unfold decode_message, WRITE_RESPONSE_FIXED_SIZE. get_unfold. intros Hd. accept Hd.
  apply obind_ok in Hd as (h & Hh & Hd). apply decode_header_inv in Hh as (_ & Hwf & Hc & Hm).
  accept Hd. injection Hd as <-. body_offsets. bool_facts. read_facts. cbn in *.
  split_and!; try done; try lia.
  exists (sub message 66 2), (drop (Z.to_nat 80) message).
  unfold message_bytes. cbn [header count remaining]. rewrite !len_sub by lia.
  split; [done|]. rewrite <- Hm.
  replace (le_bytes 2 0 ++ le_bytes 2 0 ++ drop (Z.to_nat 80) message)
    with (drop (Z.to_nat 76) message).
  - rewrite <- Hchk1, !le_bytes_le_at by lia. by rejoin.
  - rewrite (drop_sub message 76 2 78), (drop_sub message 78 2 80) by lia.
    change 2 with (Z.of_nat 2). rewrite <- !le_bytes_le_at by lia. congruence.
Qed.

Lemma write_response_decode_message_bytes r reserved trailing :
  header_wf (header r) -> hdr_consistent (header r) ->
  command (header r) = Command.Write ->
  has_flag (hdr_flags (header r)) flags.SERVER_TO_REDIR = true ->
  u32 (count r) -> u32 (remaining r) -> len reserved = 2 ->
  decode_message (message_bytes r reserved trailing) = Ok r.
Proof.
  intros Hwf Hc Hcmd Hdir ???. pose proof (len_header_bytes (header r) ltac:(apply Hwf)).
  unfold decode_message, message_bytes, WRITE_RESPONSE_FIXED_SIZE. get_unfold.
  rewrite require_len_ok by len_lia. cbn [obind].
  rewrite decode_header_bytes by done. cbn [obind].
  rewrite Hcmd, bool_decide_true, Hdir by done. cbn [negb].
  rewrite slice_from_ok by len_lia. cbn [obind]. rewrite drop_app_here by lia.
  unfold WRITE_RESPONSE_STRUCTURE_SIZE. follow. by destruct r.
Qed.

End WriteResponse.

(** ** Properties *)

(** The READ response decoder accepts exactly the messages of the wire
    format: a READ response header, structure size 17, a data offset past the
    fixed part, and a non-empty data range that lies inside the message; the
    bytes it returns are that range. *)
Theorem read_response_iff (message : bytes) (r : ReadResponse.t) :
  ReadResponse.decode_message message = Ok r <->
  header_wf (ReadResponse.header r) /\ hdr_consistent (ReadResponse.header r) /\
  command (ReadResponse.header r) = Command.Read /\
  has_flag (hdr_flags (ReadResponse.header r)) flags.SERVER_TO_REDIR = true /\
  u32 (ReadResponse.data_remaining r) /\ u32 (ReadResponse.flags r) /\
  0 < len (ReadResponse.data r) < 2 ^ 32 /\
  exists reserved gap trailing,
    80 + len gap < 256 /\ message = ReadResponse.message_bytes r reserved gap trailing.
Proof.
  split; [apply ReadResponse.read_response_decode_message_inv|].
  intros (? & ? & ? & ? & ? & ? & ? & reserved & gap & trailing & ? & ->).
  by apply ReadResponse.read_response_decode_message_bytes.
Qed.

(** a READ request that passes validation is a 113-byte message whose
    header carries the session, tree and credit charge, and whose body holds
    the length, offset and file identifier at their protocol offsets. *)
Theorem read_request_wire r mid sid tid charge credit message
    (Hwf : ReadRequest.wf r) (Hmid : u64 mid) (Hsid : u64 sid) (Htid : u32 tid)
    (Hcharge : u16 charge) (Hcredit : u16 credit)
    (Hm : ReadRequest.encode_message r mid sid tid charge credit = Ok message) :
  decode_header message = Ok (request_header Command.Read mid sid tid charge credit) /\
  len message = 113 /\ is_zero (ReadRequest.file_id r) = false /\
  le_at 2 message 64 = READ_REQUEST_STRUCTURE_SIZE /\
  le_at 4 message 68 = ReadRequest.length r /\ le_at 8 message 72 = ReadRequest.offset r /\
  le_at 8 message 80 = persistent (ReadRequest.file_id r) /\
  le_at 8 message 88 = volatile (ReadRequest.file_id r).
Proof.
  destruct (ReadRequest.validate r) as [[]| | |] eqn:Hv;
    [|unfold ReadRequest.encode_message in Hm; rewrite ReadRequest.read_request_encode_body_ok, Hv in Hm; done..].
  rewrite ReadRequest.read_request_encode_message_ok in Hm by done. apply Ok_inj in Hm as <-.
  destruct Hwf as (? & ? & ? & ? & [? ?] & ? & ? & ?).
  assert (is_zero (ReadRequest.file_id r) = false) as Hz
    by (unfold ReadRequest.validate in Hv; by accept Hv).
  rewrite decode_header_bytes by
    (by apply request_header_wf || by apply request_header_consistent).
  do 3 (split; [first [reflexivity | assumption | len_lia]|]).
  unfold ReadRequest.body_bytes, file_id_bytes.
  rewrite <- ?app_assoc. split_and!; field_at.
Qed.

Lemma read_request_wire_witness :
  let r := ReadRequest.direct (mkFileId 0x1111222233334444 0x5555666677778888) 0x100000000 0x100000 in
  exists message,
    ReadRequest.encode_message r 7 8 9 16 32 = Ok message /\
    decode_header message = Ok (request_header Command.Read 7 8 9 16 32) /\
    le_at 8 message 72 = 0x100000000.
Proof.
  intros r.
  assert (ReadRequest.encode_message r 7 8 9 16 32
    = Ok (header_bytes (request_header Command.Read 7 8 9 16 32) ++ ReadRequest.body_bytes r))
    as He by by apply ReadRequest.read_request_encode_message_ok.
  assert (ReadRequest.wf r) as Hwf by (unfold ReadRequest.wf, file_id_wf; split_and!; uint_solve).
  eexists. split; [exact He|].
  destruct (read_request_wire r 7 8 9 16 32 _ Hwf ltac:(uint_solve) ltac:(uint_solve)
    ltac:(uint_solve) ltac:(uint_solve) ltac:(uint_solve) He) as (Hh & _ & _ & _ & _ & Ho & _).
  split; [exact Hh|exact Ho].
Defined.
