(* ===== verification/FileControl.v ===== *)
(** * CLOSE, FLUSH and CANCEL messages

    [crates/smb-wire/src/close.rs], [flush.rs] and [cancel.rs]: the control
    requests of an open file, each with an encoder and a decoder, and the CLOSE
    and FLUSH responses. *)
From S2P Require Import Prelude WireError Header Create.

Definition CLOSE_REQUEST_STRUCTURE_SIZE : Z := 24.
Definition CLOSE_REQUEST_FIXED_SIZE : Z := 24.
Definition CLOSE_RESPONSE_STRUCTURE_SIZE : Z := 60.
Definition CLOSE_RESPONSE_FIXED_SIZE : Z := 60.

Module close_flags.
Definition POSTQUERY_ATTRIB : Z := 0x0001.
End close_flags.

Module CloseRequest.

Record t : Type := mk { flags : Z; file_id : FileId }.

Definition new (file_id : FileId) : t := {| flags := 0; file_id := file_id |}.

Definition with_postquery_attributes (r : t) : t :=
  {| flags := Z.lor (flags r) close_flags.POSTQUERY_ATTRIB; file_id := file_id r |}.

Definition validate (r : t) : wire unit :=
  if has_flag (flags r) (bit_not 16 close_flags.POSTQUERY_ATTRIB)
  then Err (InvalidField "CLOSE Flags") else
  if is_zero (file_id r) then Err (InvalidField "CLOSE FileId") else Ok tt.

Definition encode_body (r : t) : wire bytes :=
  let! _ := validate r in
  let body := replicate (Z.to_nat CLOSE_REQUEST_FIXED_SIZE) x00 in
  let! body := put_u16 body 0 CLOSE_REQUEST_STRUCTURE_SIZE in
  let! body := put_u16 body 2 (flags r) in
  let! body := put_u32 body 4 0 in
  let! body := put_u64 body 8 (persistent (file_id r)) in
  put_u64 body 16 (volatile (file_id r)).

Definition encode_message (r : t)
    (message_id session_id tree_id credit_charge credit_request : Z) : wire bytes :=
  let header :=
    request_header Command.Close message_id session_id tree_id credit_charge credit_request in
  let! body := encode_body r in
  let! header := encode_header header in
  Ok (header ++ body).

Definition decode_message (message : bytes) : wire (Smb2Header * t) :=
  let! _ := require_len message (SMB2_HEADER_SIZE + CLOSE_REQUEST_FIXED_SIZE) in
  let! header := decode_header message in
  if negb (bool_decide (command header = Command.Close))
  then Err (InvalidField "CLOSE Command") else
  if has_flag (hdr_flags header) flags.SERVER_TO_REDIR
  then Err (InvalidField "CLOSE request direction") else
  let! body := slice_from message SMB2_HEADER_SIZE in
  let! structure_size := get_u16 body 0 in
  if negb (structure_size =? CLOSE_REQUEST_STRUCTURE_SIZE)
  then Err (InvalidStructureSize CLOSE_REQUEST_STRUCTURE_SIZE structure_size) else
  let! reserved := get_u32 body 4 in
  if negb (reserved =? 0) then Err (InvalidField "CLOSE Reserved") else
  let! flags := get_u16 body 2 in
  let! persistent := get_u64 body 8 in
  let! volatile := get_u64 body 16 in
  let request := {| flags := flags; file_id := mkFileId persistent volatile |} in
  let! _ := validate request in
  Ok (header, request).

Definition wf (r : t) : Prop := u16 (flags r) /\ file_id_wf (file_id r).

Definition body_bytes (r : t) : bytes :=
  le_bytes 2 CLOSE_REQUEST_STRUCTURE_SIZE ++ le_bytes 2 (flags r) ++ le_bytes 4 0
  ++ le_bytes 8 (persistent (file_id r)) ++ le_bytes 8 (volatile (file_id r)).

Lemma close_request_encode_body_ok r : encode_body r = let! _ := validate r in Ok (body_bytes r).
Proof.
  unfold encode_body. destruct (validate r) as [u|e| |]; [|done..]. cbn [obind]. cbv zeta.
  destruct r as [fl [pe vo]]. cbn. put_eval. reflexivity.
Qed.

Lemma close_request_encode_message_ok r mid sid tid charge credit :
  validate r = Ok tt ->
  encode_message r mid sid tid charge credit
  = Ok (header_bytes (request_header Command.Close mid sid tid charge credit) ++ body_bytes r).
Proof.
  intros Hv. unfold encode_message. cbv zeta.
  by rewrite close_request_encode_body_ok, Hv, encode_request_header.
Qed.

Lemma close_request_returns_validate r : returns (validate r).
Proof. unfold validate. repeat returns_step. Qed.
#[export] Hint Resolve close_request_returns_validate : returns.

Lemma close_request_returns_decode_message message : returns (decode_message message).
Proof.
  unfold decode_message, CLOSE_REQUEST_FIXED_SIZE. get_unfold. cbv zeta. repeat returns_step.
Qed.

Lemma close_request_decode_message_inv message h r :
  decode_message message = Ok (h, r) ->
  header_wf h /\ hdr_consistent h /\ command h = Command.Close /\
  has_flag (hdr_flags h) flags.SERVER_TO_REDIR = false /\ wf r /\ validate r = Ok tt /\
  exists trailing, message = header_bytes h ++ body_bytes r ++ trailing.
Proof.
  unfold decode_message, CLOSE_REQUEST_FIXED_SIZE. get_unfold. cbv zeta. intros Hd. accept Hd.
  apply obind_ok in Hd as (h' & Hh & Hd). apply decode_header_inv in Hh as (_ & Hwf & Hc & Hm).
  accept Hd. apply obind_ok in Hd as ([] & Hv & Hd). injection Hd as -> <-.
  body_offsets. bool_facts. read_facts. unfold wf, file_id_wf. cbn.
  split_and!; try done; try (unfold uint; lia).
  exists (drop (Z.to_nat 88) message). unfold body_bytes. cbn [flags file_id persistent volatile].
  rewrite <- Hm, <- Hchk1, (zero_field 4 message 68) by (done || lia).
  rewrite <- !app_assoc, !le_bytes_le_at by lia. by rejoin.
Qed.

Lemma close_request_decode_message_bytes h r trailing :
  header_wf h -> hdr_consistent h -> command h = Command.Close ->
  has_flag (hdr_flags h) flags.SERVER_TO_REDIR = false -> wf r -> validate r = Ok tt ->
  decode_message (header_bytes h ++ body_bytes r ++ trailing) = Ok (h, r).
Proof.
  intros Hwf Hc Hcmd Hdir (? & [? ?]) Hv. pose proof (len_header_bytes h ltac:(apply Hwf)).
  unfold decode_message, body_bytes, CLOSE_REQUEST_FIXED_SIZE. get_unfold.
  rewrite <- !app_assoc.
  rewrite require_len_ok by len_lia. cbn [obind].
  rewrite decode_header_bytes by done. cbn [obind].
  rewrite Hcmd, bool_decide_true, Hdir by done. cbn [negb].
  rewrite slice_from_ok by len_lia. cbn [obind]. rewrite drop_app_here by lia.
  unfold CLOSE_REQUEST_STRUCTURE_SIZE. follow. cbv zeta.
  destruct r as [fl [pe vo]]. cbn in *. rewrite Hv. done.
Qed.

End CloseRequest.

Module CloseResponse.

Record t : Type := mk {
  header : Smb2Header;
  flags : Z;
  creation_time : Z;
  last_access_time : Z;
  last_write_time : Z;
  change_time : Z;
  allocation_size : Z;
  end_of_file : Z;
  file_attributes : Z
}.

Definition decode_message (message : bytes) : wire t :=
  let! _ := require_len message (SMB2_HEADER_SIZE + CLOSE_RESPONSE_FIXED_SIZE) in
  let! header := decode_header message in
  if negb (bool_decide (command header = Command.Close))
  then Err (InvalidField "CLOSE response Command") else
  if negb (has_flag (hdr_flags header) flags.SERVER_TO_REDIR)
  then Err (InvalidField "CLOSE response direction") else
  let! body := slice_from message SMB2_HEADER_SIZE in
  let! structure_size := get_u16 body 0 in
  if negb (structure_size =? CLOSE_RESPONSE_STRUCTURE_SIZE)
  then Err (InvalidStructureSize CLOSE_RESPONSE_STRUCTURE_SIZE structure_size) else
  let! reserved := get_u32 body 4 in
  if negb (reserved =? 0) then Err (InvalidField "CLOSE response Reserved") else
  let! response_flags := get_u16 body 2 in
  if has_flag response_flags (bit_not 16 close_flags.POSTQUERY_ATTRIB)
  then Err (InvalidField "CLOSE response Flags") else
  let! creation_time := get_u64 body 8 in
  let! last_access_time := get_u64 body 16 in
  let! last_write_time := get_u64 body 24 in
  let! change_time := get_u64 body 32 in
  let! allocation_size := get_u64 body 40 in
  let! end_of_file := get_u64 body 48 in
  let! file_attributes := get_u32 body 56 in
  Ok {| header := header; flags := response_flags; creation_time := creation_time;
        last_access_time := last_access_time; last_write_time := last_write_time;
        change_time := change_time; allocation_size := allocation_size;
        end_of_file := end_of_file; file_attributes := file_attributes |}.

Definition has_postquery_attributes (r : t) : bool :=
  has_flag (flags r) close_flags.POSTQUERY_ATTRIB.

Lemma close_response_returns_decode_message message : returns (decode_message message).
Proof.
  unfold decode_message, CLOSE_RESPONSE_FIXED_SIZE. get_unfold. repeat returns_step.
Qed.

End CloseResponse.

Definition FLUSH_REQUEST_STRUCTURE_SIZE : Z := 24.
Definition FLUSH_REQUEST_FIXED_SIZE : Z := 24.
Definition FLUSH_RESPONSE_STRUCTURE_SIZE : Z := 4.
Definition FLUSH_RESPONSE_FIXED_SIZE : Z := 4.

Module FlushRequest.

Record t : Type := mk { file_id : FileId }.

Definition encode_message (r : t)
    (message_id session_id tree_id credit_charge credit_request : Z) : wire bytes :=
  if is_zero (file_id r) then Err (InvalidField "FLUSH FileId") else
  let header :=
    request_header Command.Flush message_id session_id tree_id credit_charge credit_request in
  let body := replicate (Z.to_nat FLUSH_REQUEST_FIXED_SIZE) x00 in
  let! body := put_u16 body 0 FLUSH_REQUEST_STRUCTURE_SIZE in
  let! body := put_u16 body 2 0 in
  let! body := put_u32 body 4 0 in
  let! body := put_u64 body 8 (persistent (file_id r)) in
  let! body := put_u64 body 16 (volatile (file_id r)) in
  let! header := encode_header header in
  Ok (header ++ body).

Definition decode_message (message : bytes) : wire (Smb2Header * t) :=
  let! _ := require_len message (SMB2_HEADER_SIZE + FLUSH_REQUEST_FIXED_SIZE) in
  if negb (len message =? SMB2_HEADER_SIZE + FLUSH_REQUEST_FIXED_SIZE)
  then Err (InvalidField "FLUSH request length") else
  let! header := decode_header message in
  if negb (bool_decide (command header = Command.Flush))
     || has_flag (hdr_flags header) flags.SERVER_TO_REDIR
  then Err (InvalidField "FLUSH request header") else
  let! body := slice_from message SMB2_HEADER_SIZE in
  let! structure_size := get_u16 body 0 in
  if negb (structure_size =? FLUSH_REQUEST_STRUCTURE_SIZE)
  then Err (InvalidStructureSize FLUSH_REQUEST_STRUCTURE_SIZE structure_size) else
  let! reserved := slice body 2 8 in
  if existsb (fun byte => negb (bool_decide (byte = x00))) reserved
  then Err (InvalidField "FLUSH request reserved") else
  let! persistent := get_u64 body 8 in
  let! volatile := get_u64 body 16 in
  let request := {| file_id := mkFileId persistent volatile |} in
  if is_zero (file_id request) then Err (InvalidField "FLUSH FileId") else
  Ok (header, request).

Definition body_bytes (r : t) : bytes :=
  le_bytes 2 FLUSH_REQUEST_STRUCTURE_SIZE ++ replicate 6 x00
  ++ le_bytes 8 (persistent (file_id r)) ++ le_bytes 8 (volatile (file_id r)).

Lemma flush_request_encode_message_ok r mid sid tid charge credit :
  is_zero (file_id r) = false ->
  encode_message r mid sid tid charge credit
  = Ok (header_bytes (request_header Command.Flush mid sid tid charge credit) ++ body_bytes r).
Proof.
  intros Hz. unfold encode_message. cbv zeta. rewrite Hz, encode_request_header. cbn [obind].
  destruct r as [[pe vo]]. cbn [file_id persistent volatile].
  put_eval. reflexivity.
Qed.

Lemma flush_request_returns_decode_message message : returns (decode_message message).
Proof.
  unfold decode_message, FLUSH_REQUEST_FIXED_SIZE. get_unfold. cbv zeta. repeat returns_step.
Qed.

(** A slice of zero bytes. *)
Lemma existsb_nonzero bs n :
  length bs = n ->
  existsb (fun byte => negb (bool_decide (byte = x00))) bs = false <-> bs = replicate n x00.
Proof.
  intros <-. induction bs as [|b bs IH]; [done|]. cbn [existsb length replicate].
  rewrite orb_false_iff, negb_false_iff, bool_decide_eq_true, IH.
  split; [intros [-> Hb]; congruence|by intros [= -> Hb]].
Qed.

Lemma flush_request_decode_message_inv message h r :
  decode_message message = Ok (h, r) ->
  header_wf h /\ hdr_consistent h /\ command h = Command.Flush /\
  has_flag (hdr_flags h) flags.SERVER_TO_REDIR = false /\ file_id_wf (file_id r) /\
  is_zero (file_id r) = false /\ message = header_bytes h ++ body_bytes r.
Proof.
  unfold decode_message, FLUSH_REQUEST_FIXED_SIZE. get_unfold. cbv zeta. intros Hd. accept Hd.
  apply obind_ok in Hd as (h' & Hh & Hd). apply decode_header_inv in Hh as (_ & Hwf & Hc & Hm).
  accept Hd. injection Hd as -> <-. body_offsets.
  rewrite sub_drop in * by lia. bool_facts.
  match goal with H : existsb _ (sub message ?a ?n) = false |- _ =>
    apply (existsb_nonzero _ 6) in H as Hz;
      [|apply Nat2Z.inj; apply (len_sub message a n); lia] end.
  read_facts. unfold file_id_wf. cbn [file_id persistent volatile].
  split_and!; try done; try (unfold uint; lia).
  unfold body_bytes. cbn [file_id persistent volatile].
  match goal with H : le_at 2 message 64 = _ |- _ => rewrite <- Hm, <- Hz, <- H end.
  rewrite !le_bytes_le_at by lia.
  rewrite (sub_to_end message 80) by lia. by rejoin.
Qed.

Lemma flush_request_decode_message_bytes h r :
  header_wf h -> hdr_consistent h -> command h = Command.Flush ->
  has_flag (hdr_flags h) flags.SERVER_TO_REDIR = false -> file_id_wf (file_id r) ->
  is_zero (file_id r) = false ->
  decode_message (header_bytes h ++ body_bytes r) = Ok (h, r).
Proof.
  intros Hwf Hc Hcmd Hdir [? ?] Hz. pose proof (len_header_bytes h ltac:(apply Hwf)).
  unfold decode_message, body_bytes, FLUSH_REQUEST_FIXED_SIZE. get_unfold.
  rewrite require_len_ok by len_lia. cbn [obind].
  rewrite (proj2 (Z.eqb_eq (len _) (64 + 24))) by len_lia. cbn [negb].
  rewrite decode_header_bytes by done. cbn [obind].
  rewrite Hcmd, bool_decide_true, Hdir by done. cbn [negb orb].
  rewrite slice_from_ok by len_lia. cbn [obind]. rewrite drop_app_here by lia.
  unfold FLUSH_REQUEST_STRUCTURE_SIZE. destruct r as [[pe vo]].
  cbn [file_id persistent volatile] in *. follow. done.
Qed.

End FlushRequest.

Module FlushResponse.

Definition decode_message (message : bytes) : wire unit :=
  let! _ := require_len message (SMB2_HEADER_SIZE + FLUSH_RESPONSE_FIXED_SIZE) in
  if negb (len message =? SMB2_HEADER_SIZE + FLUSH_RESPONSE_FIXED_SIZE)
  then Err (InvalidField "FLUSH response length") else
  let! header := decode_header message in
  if negb (bool_decide (command header = Command.Flush))
     || negb (has_flag (hdr_flags header) flags.SERVER_TO_REDIR)
  then Err (InvalidField "FLUSH response header") else
  let! body := slice_from message SMB2_HEADER_SIZE in
  let! structure_size := get_u16 body 0 in
  if negb (structure_size =? FLUSH_RESPONSE_STRUCTURE_SIZE)
  then Err (InvalidStructureSize FLUSH_RESPONSE_STRUCTURE_SIZE structure_size) else
  let! reserved := get_u16 body 2 in
  if negb (reserved =? 0) then Err (InvalidField "FLUSH response reserved") else
  Ok tt.

Lemma flush_response_returns_decode_message message : returns (decode_message message).
Proof.
  unfold decode_message, FLUSH_RESPONSE_FIXED_SIZE. get_unfold. repeat returns_step.
Qed.

End FlushResponse.

Definition CANCEL_REQUEST_STRUCTURE_SIZE : Z := 4.
Definition CANCEL_REQUEST_FIXED_SIZE : Z := 4.

(** [CancelRequest] is a unit struct: its operations take no request value. *)
Module CancelRequest.

Definition encode_body : wire bytes :=
  let body := replicate (Z.to_nat CANCEL_REQUEST_FIXED_SIZE) x00 in
  let! body := put_u16 body 0 CANCEL_REQUEST_STRUCTURE_SIZE in
  put_u16 body 2 0.

Definition sync_header (message_id session_id : Z) : Smb2Header :=
  request_header Command.Cancel message_id session_id 0 0 0.

Definition async_header (message_id session_id async_id : Z) : Smb2Header :=
  let header := request Command.Cancel message_id 0 0 in
  {| credit_charge := credit_charge header; status := status header;
     command := command header; credits := credits header;
     hdr_flags := Z.lor (hdr_flags header) flags.ASYNC_COMMAND;
     next_command := next_command header; message_id := Header.message_id header;
     hdr_id := Async async_id; session_id := session_id;
     signature := signature header |}.

Definition encode_sync_message (message_id session_id : Z) : wire bytes :=
  let! body := encode_body in
  let! header := encode_header (sync_header message_id session_id) in
  Ok (header ++ body).

Definition encode_async_message (message_id session_id async_id : Z) : wire bytes :=
  let! body := encode_body in
  let! header := encode_header (async_header message_id session_id async_id) in
  Ok (header ++ body).

Definition decode_message (message : bytes) : wire Smb2Header :=
  let! _ := require_len message (SMB2_HEADER_SIZE + CANCEL_REQUEST_FIXED_SIZE) in
  let! header := decode_header message in
  if negb (bool_decide (command header = Command.Cancel))
  then Err (InvalidField "CANCEL Command") else
  if has_flag (hdr_flags header) flags.SERVER_TO_REDIR
  then Err (InvalidField "CANCEL request direction") else
  let! body := slice_from message SMB2_HEADER_SIZE in
  let! structure_size := get_u16 body 0 in
  if negb (structure_size =? CANCEL_REQUEST_STRUCTURE_SIZE)
  then Err (InvalidStructureSize CANCEL_REQUEST_STRUCTURE_SIZE structure_size) else
  let! reserved := get_u16 body 2 in
  if negb (reserved =? 0) then Err (InvalidField "CANCEL Reserved") else
  Ok header.

Definition body_bytes : bytes := le_bytes 2 CANCEL_REQUEST_STRUCTURE_SIZE ++ le_bytes 2 0.

Lemma encode_sync_ok mid sid :
  encode_sync_message mid sid = Ok (header_bytes (sync_header mid sid) ++ body_bytes).
Proof.
  unfold encode_sync_message, sync_header. rewrite encode_request_header.
  assert (encode_body = Ok body_bytes) as -> by reflexivity. done.
Qed.

Lemma encode_async_ok mid sid aid :
  encode_async_message mid sid aid = Ok (header_bytes (async_header mid sid aid) ++ body_bytes).
Proof.
  unfold encode_async_message. rewrite encode_header_bytes by done.
  assert (encode_body = Ok body_bytes) as -> by reflexivity. done.
Qed.

Lemma async_header_wf mid sid aid :
  u64 mid -> u64 sid -> u64 aid -> header_wf (async_header mid sid aid).
Proof. intros. unfold header_wf. cbn. by split_and!. Qed.

Lemma cancel_request_returns_decode_message message : returns (decode_message message).
Proof.
  unfold decode_message, CANCEL_REQUEST_FIXED_SIZE. get_unfold. repeat returns_step.
Qed.

Lemma cancel_request_decode_message_bytes h trailing :
  header_wf h -> hdr_consistent h -> command h = Command.Cancel ->
  has_flag (hdr_flags h) flags.SERVER_TO_REDIR = false ->
  decode_message (header_bytes h ++ body_bytes ++ trailing) = Ok h.
Proof.
  intros Hwf Hc Hcmd Hdir. pose proof (len_header_bytes h ltac:(apply Hwf)).
  unfold decode_message, body_bytes, CANCEL_REQUEST_FIXED_SIZE. get_unfold.
  rewrite <- !app_assoc.
  rewrite require_len_ok by len_lia. cbn [obind].
  rewrite decode_header_bytes by done. cbn [obind].
  rewrite Hcmd, bool_decide_true, Hdir by done. cbn [negb].
  rewrite slice_from_ok by len_lia. cbn [obind]. rewrite drop_app_here by lia.
  unfold CANCEL_REQUEST_STRUCTURE_SIZE. by follow.
Qed.

End CancelRequest.

(** ** Properties *)

(** the CLOSE request decoder accepts a message exactly when it is a valid
    CLOSE request behind a well-formed client header; what it returns is that
    request, and encoding a valid request produces such a message. *)
Theorem close_request_codec (message : bytes) (h : Smb2Header) (r : CloseRequest.t) :
  (CloseRequest.decode_message message = Ok (h, r) <->
   header_wf h /\ hdr_consistent h /\ command h = Command.Close /\
   has_flag (hdr_flags h) flags.SERVER_TO_REDIR = false /\
   CloseRequest.wf r /\ CloseRequest.validate r = Ok tt /\
   exists trailing, message = header_bytes h ++ CloseRequest.body_bytes r ++ trailing) /\
  (forall mid sid tid charge credit, CloseRequest.validate r = Ok tt ->
   CloseRequest.encode_message r mid sid tid charge credit
   = Ok (header_bytes (request_header Command.Close mid sid tid charge credit)
         ++ CloseRequest.body_bytes r)).
Proof.
  split; [split|].
  - apply CloseRequest.close_request_decode_message_inv.
  - intros (? & ? & ? & ? & ? & ? & trailing & ->).
    by apply CloseRequest.close_request_decode_message_bytes.
  - intros. by apply CloseRequest.close_request_encode_message_ok.
Qed.

(** FLUSH requests round-trip, and the decoder accepts nothing but the
    exact 88-byte message of a non-zero file identifier. *)
Theorem flush_request_codec (message : bytes) (h : Smb2Header) (r : FlushRequest.t) :
  (FlushRequest.decode_message message = Ok (h, r) <->
   header_wf h /\ hdr_consistent h /\ command h = Command.Flush /\
   has_flag (hdr_flags h) flags.SERVER_TO_REDIR = false /\
   file_id_wf (FlushRequest.file_id r) /\ is_zero (FlushRequest.file_id r) = false /\
   message = header_bytes h ++ FlushRequest.body_bytes r) /\
  (forall mid sid tid charge credit, is_zero (FlushRequest.file_id r) = false ->
   FlushRequest.encode_message r mid sid tid charge credit
   = Ok (header_bytes (request_header Command.Flush mid sid tid charge credit)
         ++ FlushRequest.body_bytes r)).
Proof.
  split; [split|].
  - apply FlushRequest.flush_request_decode_message_inv.
  - intros (? & ? & ? & ? & ? & ? & ->). by apply FlushRequest.flush_request_decode_message_bytes.
  - intros. by apply FlushRequest.flush_request_encode_message_ok.
Qed.

(** Both CANCEL forms decode to the header of the request they cancel: the
    same MessageId and session, no credit charge or request, and either the
    sync form with tree 0 or the async form flagged ASYNC_COMMAND. *)
Theorem cancel_request_codec mid sid aid (Hmid : u64 mid) (Hsid : u64 sid) (Haid : u64 aid) :
  obind (CancelRequest.encode_sync_message mid sid) CancelRequest.decode_message
  = Ok (CancelRequest.sync_header mid sid) /\
  obind (CancelRequest.encode_async_message mid sid aid) CancelRequest.decode_message
  = Ok (CancelRequest.async_header mid sid aid) /\
  (forall h, h = CancelRequest.sync_header mid sid \/ h = CancelRequest.async_header mid sid aid ->
   command h = Command.Cancel /\ message_id h = mid /\ session_id h = sid /\
   credit_charge h = 0 /\ credits h = 0 /\
   has_flag (hdr_flags h) flags.ASYNC_COMMAND = is_async (hdr_id h)).
Proof.
  rewrite CancelRequest.encode_sync_ok, CancelRequest.encode_async_ok. cbn [obind].
  rewrite <- (app_nil_r CancelRequest.body_bytes).
  split; [|split].
  - by apply CancelRequest.cancel_request_decode_message_bytes.
  - by apply CancelRequest.cancel_request_decode_message_bytes; [apply CancelRequest.async_header_wf|..].
  - by intros h [->| ->].
Qed.

Lemma cancel_request_codec_witness :
  obind (CancelRequest.encode_async_message 42 7 99) CancelRequest.decode_message
  = Ok (CancelRequest.async_header 42 7 99).
Proof.
  apply (cancel_request_codec 42 7 99); uint_solve.
Defined.
