(* ===== verification/SessionMessages.v ===== *)
(** * SESSION_SETUP and TREE_CONNECT messages

    [crates/smb-wire/src/session_setup.rs] and [tree_connect.rs]: the requests
    and responses that authenticate a session and attach it to a share, with
    their variable-length buffers (security blob, UTF-16 UNC path). *)
From S2P Require Import Prelude WireError Utf16 Header.

Definition SESSION_SETUP_REQUEST_STRUCTURE_SIZE : Z := 25.
Definition SESSION_SETUP_REQUEST_FIXED_SIZE : Z := 24.
Definition SESSION_SETUP_RESPONSE_STRUCTURE_SIZE : Z := 9.
Definition SESSION_SETUP_RESPONSE_FIXED_SIZE : Z := 8.

Module session_flags.
Definition IS_GUEST : Z := 0x0001.
Definition IS_NULL : Z := 0x0002.
Definition ENCRYPT_DATA : Z := 0x0004.
End session_flags.

Module SessionSetupRequest.

Record t : Type := mk {
  flags : Z;
  security_mode : Z;
  capabilities : Z;
  previous_session_id : Z;
  security_blob : bytes
}.

Definition validate (r : t) : wire unit :=
  if u16_max <? len (security_blob r)
  then Err (InvalidField "SESSION_SETUP SecurityBufferLength") else Ok tt.

Definition encode_body (r : t) : wire bytes :=
  let! _ := validate r in
  let body := replicate (Z.to_nat SESSION_SETUP_REQUEST_FIXED_SIZE) x00 in
  let! body := put_u16 body 0 SESSION_SETUP_REQUEST_STRUCTURE_SIZE in
  let! body := put_le 1 body 2 (flags r) in
  let! body := put_le 1 body 3 (security_mode r) in
  let! body := put_u32 body 4 (capabilities r) in
  let! body := put_u32 body 8 0 in
  let! body :=
    if negb (is_empty (security_blob r)) then
      let! offset :=
        ok_or (checked_add usize_max SMB2_HEADER_SIZE SESSION_SETUP_REQUEST_FIXED_SIZE
               ≫= try_from u16_max)
              (InvalidField "SESSION_SETUP SecurityBufferOffset") in
      let! body := put_u16 body 12 offset in
      put_u16 body 14 (len (security_blob r) mod 2 ^ 16)
    else Ok body in
  let! body := put_u64 body 16 (previous_session_id r) in
  Ok (body ++ security_blob r).

(** The header of a SESSION_SETUP request: no credit charge, session only. *)
Definition setup_header (message_id session credit_request : Z) : Smb2Header :=
  with_session_and_id (request Command.SessionSetup message_id 0 credit_request) session (Sync 0 0).

Definition encode_message (r : t) (message_id session_id credit_request : Z) : wire bytes :=
  let! header := encode_header (setup_header message_id session_id credit_request) in
  let! body := encode_body r in
  Ok (header ++ body).

Definition decode_message (message : bytes) : wire t :=
  let! _ := require_len message (SMB2_HEADER_SIZE + SESSION_SETUP_REQUEST_FIXED_SIZE) in
  let! header := decode_header message in
  if negb (bool_decide (command header = Command.SessionSetup))
  then Err (InvalidField "SESSION_SETUP request Command") else
  if has_flag (hdr_flags header) flags.SERVER_TO_REDIR
  then Err (InvalidField "SESSION_SETUP request direction") else
  let! body := slice_from message SMB2_HEADER_SIZE in
  let! structure_size := get_u16 body 0 in
  if negb (structure_size =? SESSION_SETUP_REQUEST_STRUCTURE_SIZE)
  then Err (InvalidStructureSize SESSION_SETUP_REQUEST_STRUCTURE_SIZE structure_size) else
  let! channel := get_u32 body 8 in
  if negb (channel =? 0) then Err (InvalidField "SESSION_SETUP reserved Channel") else
  let! security_offset := get_u16 body 12 in
  let! security_len := get_u16 body 14 in
  let! security_blob :=
    if security_len =? 0 then Ok [] else
    if security_offset <? SMB2_HEADER_SIZE + SESSION_SETUP_REQUEST_FIXED_SIZE
    then Err (InvalidField "SESSION_SETUP SecurityBufferOffset before request buffer") else
    let! '(range_start, range_end) :=
      checked_range (len message) "SESSION_SETUP SecurityBuffer" security_offset security_len in
    slice message range_start range_end in
  let! flags := get_le 1 body 2 in
  let! security_mode := get_le 1 body 3 in
  let! capabilities := get_u32 body 4 in
  let! previous_session_id := get_u64 body 16 in
  Ok {| flags := flags; security_mode := security_mode; capabilities := capabilities;
        previous_session_id := previous_session_id; security_blob := security_blob |}.

Definition wf (r : t) : Prop :=
  u8 (flags r) /\ u8 (security_mode r) /\ u32 (capabilities r) /\ u64 (previous_session_id r).

Definition body_bytes (r : t) : bytes :=
  le_bytes 2 SESSION_SETUP_REQUEST_STRUCTURE_SIZE ++ le_bytes 1 (flags r)
  ++ le_bytes 1 (security_mode r) ++ le_bytes 4 (capabilities r) ++ le_bytes 4 0
  ++ le_bytes 2 (if is_empty (security_blob r) then 0 else 88)
  ++ le_bytes 2 (len (security_blob r))
  ++ le_bytes 8 (previous_session_id r) ++ security_blob r.

Lemma session_setup_request_encode_body_ok r : encode_body r = let! _ := validate r in Ok (body_bytes r).
Proof.
  unfold encode_body. destruct (validate r) as [u|e| |] eqn:Hv; [|done..].
  assert (len (security_blob r) <= u16_max) as Hl
    by (unfold validate in Hv; accept Hv; bool_facts; lia).
  unfold u16_max in Hl. pose proof (len_nonneg (security_blob r)).
  rewrite Z.mod_small by lia. cbn [obind]. cbv zeta.
  change (checked_add _ _ _ ≫= _) with (Some 88). cbn [ok_or obind]. clear Hv Hl.
  destruct r as [fl se ca pr bl]. unfold body_bytes.
  cbn [flags security_mode capabilities previous_session_id security_blob] in *.
  assert (is_empty bl = true -> len bl = 0) as He by (by intros ->%is_empty_true).
  destruct (is_empty bl); cbn [negb].
  - rewrite He by done. put_eval. reflexivity.
  - generalize (len bl). intros n. put_eval. reflexivity.
Qed.

Lemma session_setup_request_encode_message_ok r mid sid credit :
  validate r = Ok tt ->
  encode_message r mid sid credit
  = Ok (header_bytes (setup_header mid sid credit) ++ body_bytes r).
Proof.
  intros Hv. unfold encode_message, setup_header. rewrite encode_request_header. cbn [obind].
  by rewrite session_setup_request_encode_body_ok, Hv.
Qed.

Lemma session_setup_request_returns_decode_message message : returns (decode_message message).
Proof.
  unfold decode_message, SESSION_SETUP_REQUEST_FIXED_SIZE. get_unfold. repeat returns_step.
Qed.

Lemma session_setup_request_decode_message_bytes h r :
  header_wf h -> hdr_consistent h -> command h = Command.SessionSetup ->
  has_flag (hdr_flags h) flags.SERVER_TO_REDIR = false -> wf r -> validate r = Ok tt ->
  decode_message (header_bytes h ++ body_bytes r) = Ok r.
Proof.
  intros Hwf Hc Hcmd Hdir (? & ? & ? & ?) Hv. pose proof (len_header_bytes h ltac:(apply Hwf)).
  assert (len (security_blob r) <= 65535)
    by (unfold validate, u16_max in Hv; accept Hv; bool_facts; lia).
  unfold decode_message, body_bytes, SESSION_SETUP_REQUEST_FIXED_SIZE. get_unfold.
  rewrite require_len_ok by len_lia. cbn [obind].
  rewrite decode_header_bytes by done. cbn [obind].
  rewrite Hcmd, bool_decide_true, Hdir by done. cbn [negb].
  rewrite slice_from_ok by len_lia. cbn [obind]. rewrite drop_app_here by lia.
  unfold SESSION_SETUP_REQUEST_STRUCTURE_SIZE.
  assert (security_blob r = [] \/ 0 < len (security_blob r)) as [He|He]
    by (destruct (security_blob r); [by left|right; len_lia]).
  - rewrite He. cbn [is_empty]. follow. by destruct r; cbn in *; subst.
  - rewrite is_empty_len, (proj2 (Z.eqb_neq _ 0)) by lia. follow.
    rewrite checked_range_slice by (unfold usize_max; len_lia). cbn [obind].
    eassert (sub _ 88 _ = security_blob r) as -> by sub_at. by destruct r.
Qed.

End SessionSetupRequest.

Module SessionSetupResponse.

Record t : Type := mk { header : Smb2Header; session_flags : Z; security_blob : bytes }.

Definition decode_message (message : bytes) : wire t :=
  let! _ := require_len message (SMB2_HEADER_SIZE + SESSION_SETUP_RESPONSE_FIXED_SIZE) in
  let! header := decode_header message in
  if negb (bool_decide (command header = Command.SessionSetup))
  then Err (InvalidField "SESSION_SETUP response Command") else
  if negb (has_flag (hdr_flags header) flags.SERVER_TO_REDIR)
  then Err (InvalidField "SESSION_SETUP response direction") else
  let! body := slice_from message SMB2_HEADER_SIZE in
  let! structure_size := get_u16 body 0 in
  if negb (structure_size =? SESSION_SETUP_RESPONSE_STRUCTURE_SIZE)
  then Err (InvalidStructureSize SESSION_SETUP_RESPONSE_STRUCTURE_SIZE structure_size) else
  let! security_offset := get_u16 body 4 in
  let! security_len := get_u16 body 6 in
  let! security_blob :=
    if security_len =? 0 then Ok [] else
    if security_offset <? SMB2_HEADER_SIZE + SESSION_SETUP_RESPONSE_FIXED_SIZE
    then Err (InvalidField "SESSION_SETUP SecurityBufferOffset before response buffer") else
    let! '(range_start, range_end) :=
      checked_range (len message) "SESSION_SETUP SecurityBuffer" security_offset security_len in
    slice message range_start range_end in
  let! session_flags := get_u16 body 2 in
  Ok {| header := header; session_flags := session_flags; security_blob := security_blob |}.

(** The wire format of a response that carries a security blob: [gap] is what
    the server leaves between the fixed part and the blob. *)
Definition message_bytes (r : t) (gap trailing : bytes) : bytes :=
  header_bytes (header r) ++ le_bytes 2 SESSION_SETUP_RESPONSE_STRUCTURE_SIZE
  ++ le_bytes 2 (session_flags r) ++ le_bytes 2 (72 + len gap)
  ++ le_bytes 2 (len (security_blob r)) ++ gap ++ security_blob r ++ trailing.

Lemma session_setup_response_returns_decode_message message : returns (decode_message message).
Proof.
  unfold decode_message, SESSION_SETUP_RESPONSE_FIXED_SIZE. get_unfold. repeat returns_step.
Qed.

Lemma session_setup_response_decode_message_bytes r gap trailing :
  header_wf (header r) -> hdr_consistent (header r) ->
  command (header r) = Command.SessionSetup ->
  has_flag (hdr_flags (header r)) flags.SERVER_TO_REDIR = true ->
  u16 (session_flags r) -> len (security_blob r) < 2 ^ 16 -> 72 + len gap < 2 ^ 16 ->
  decode_message (message_bytes r gap trailing) = Ok r.
Proof.
  intros Hwf Hc Hcmd Hdir ???. pose proof (len_header_bytes (header r) ltac:(apply Hwf)).
  unfold decode_message, message_bytes, SESSION_SETUP_RESPONSE_FIXED_SIZE. get_unfold.
  rewrite require_len_ok by len_lia. cbn [obind].
  rewrite decode_header_bytes by done. cbn [obind].
  rewrite Hcmd, bool_decide_true, Hdir by done. cbn [negb].
  rewrite slice_from_ok by len_lia. cbn [obind]. rewrite drop_app_here by lia.
  unfold SESSION_SETUP_RESPONSE_STRUCTURE_SIZE.
  assert (security_blob r = [] \/ 0 < len (security_blob r)) as [He|He]
    by (destruct (security_blob r); [by left|right; len_lia]).
  - rewrite He. follow. by destruct r; cbn in *; subst.
  - follow. rewrite checked_range_slice by (unfold usize_max; len_lia). cbn [obind].
    eassert (sub _ _ _ = security_blob r) as -> by sub_at. by destruct r.
Qed.

(** What an accepted response says about its message. *)
Lemma session_setup_response_decode_message_inv message r :
  decode_message message = Ok r ->
  header_wf (header r) /\ hdr_consistent (header r) /\
  command (header r) = Command.SessionSetup /\
  has_flag (hdr_flags (header r)) flags.SERVER_TO_REDIR = true /\
  u16 (session_flags r) /\ len (security_blob r) < 2 ^ 16 /\
  header_bytes (header r) = sub message 0 64 /\
  (security_blob r = [] \/
   exists gap trailing, 72 + len gap < 2 ^ 16 /\ message = message_bytes r gap trailing).
Proof.
  unfold decode_message, SESSION_SETUP_RESPONSE_FIXED_SIZE. get_unfold. intros Hd. accept Hd.
  apply obind_ok in Hd as (h & Hh & Hd). apply decode_header_inv in Hh as (_ & Hwf & Hc & Hm).
  accept Hd. apply obind_ok in Hd as (blob & Hb & Hd). accept Hd.
  apply Ok_inj in Hd as <-. cbn [header session_flags security_blob].
  destruct (le_at 2 _ 6 =? 0) eqn:Hz.
  - apply Ok_inj in Hb as <-. body_offsets. bool_facts. read_facts.
    split_and!; try done; by left.
  - accept Hb. bool_facts. body_offsets. read_facts.
    assert (blob = sub message (le_at 2 message 68) (le_at 2 message 70)) as ->.
    { rewrite (slice_sub _ _ _ (le_at 2 message 70)) in Hb by lia. by apply Ok_inj in Hb. }
    rewrite !len_sub by lia.
    split; [done|]. split; [done|]. split; [done|]. split; [done|]. split; [done|].
    split; [lia|]. split; [done|]. right.
    exists (sub message 72 (le_at 2 message 68 - 72)),
      (drop (Z.to_nat (le_at 2 message 68 + le_at 2 message 70)) message).
    unfold message_bytes. cbn [header session_flags security_blob]. rewrite !len_sub by lia.
    split; [lia|]. replace (72 + (le_at 2 message 68 - 72)) with (le_at 2 message 68) by lia.
    rewrite <- Hm, <- Hchk1, !le_bytes_le_at by lia. by rejoin.
Qed.

End SessionSetupResponse.

Definition TREE_CONNECT_REQUEST_STRUCTURE_SIZE : Z := 9.
Definition TREE_CONNECT_REQUEST_FIXED_SIZE : Z := 8.
Definition TREE_CONNECT_RESPONSE_STRUCTURE_SIZE : Z := 16.
Definition TREE_CONNECT_RESPONSE_FIXED_SIZE : Z := 16.

Module tree_connect_flags.
Definition CLUSTER_RECONNECT : Z := 0x0001.
Definition REDIRECT_TO_OWNER : Z := 0x0002.
Definition EXTENSION_PRESENT : Z := 0x0004.
End tree_connect_flags.

Module share_type.
Definition DISK : Z := 0x01.
Definition PIPE : Z := 0x02.
Definition PRINT : Z := 0x03.
End share_type.

Module share_flags.
Definition ENCRYPT_DATA : Z := 0x00008000.
End share_flags.

Module share_capabilities.
Definition DFS : Z := 0x00000008.
Definition CONTINUOUS_AVAILABILITY : Z := 0x00000010.
Definition SCALEOUT : Z := 0x00000020.
Definition CLUSTER : Z := 0x00000040.
Definition ASYMMETRIC : Z := 0x00000080.
Definition REDIRECT_TO_OWNER : Z := 0x00000100.
End share_capabilities.

Module TreeConnectRequest.

Record t : Type := mk { flags : Z; path : rust_string }.

Definition validate (r : t) : wire unit :=
  if has_flag (flags r) tree_connect_flags.EXTENSION_PRESENT
  then Err (Unsupported "TREE_CONNECT extension-present requests") else
  if is_empty (path r) then Err (InvalidField "TREE_CONNECT Path") else
  if negb (starts_with_str [92; 92] (path r))
  then Err (InvalidField "TREE_CONNECT path must be a UNC path") else
  if contains 0 (path r)
  then Err (InvalidField "TREE_CONNECT path must not contain NUL") else
  let! path_len := ok_or (checked_mul usize_max (len (encode_utf16 (path r))) 2)
                         (InvalidField "TREE_CONNECT PathLength overflow") in
  if (path_len =? 0) || (u16_max <? path_len)
  then Err (InvalidField "TREE_CONNECT PathLength") else Ok tt.

Definition encode_body (r : t) : wire bytes :=
  let! _ := validate r in
  let path := utf16_bytes (path r) in
  let! path_offset :=
    ok_or (checked_add usize_max SMB2_HEADER_SIZE TREE_CONNECT_REQUEST_FIXED_SIZE
           ≫= try_from u16_max)
          (InvalidField "TREE_CONNECT PathOffset") in
  let! path_len := ok_or (try_from u16_max (len path)) (InvalidField "TREE_CONNECT PathLength") in
  let body := replicate (Z.to_nat TREE_CONNECT_REQUEST_FIXED_SIZE) x00 in
  let! body := put_u16 body 0 TREE_CONNECT_REQUEST_STRUCTURE_SIZE in
  let! body := put_u16 body 2 (flags r) in
  let! body := put_u16 body 4 path_offset in
  let! body := put_u16 body 6 path_len in
  Ok (body ++ path).

(** The header of a TREE_CONNECT request: no credit charge, session only. *)
Definition tree_header (message_id session credit_request : Z) : Smb2Header :=
  with_session_and_id (request Command.TreeConnect message_id 0 credit_request)
                      session (Sync 0 0).

Definition encode_message (r : t) (message_id session_id credit_request : Z) : wire bytes :=
  let! body := encode_body r in
  let! header := encode_header (tree_header message_id session_id credit_request) in
  Ok (header ++ body).

Definition decode_message (message : bytes) : wire t :=
  let! _ := require_len message (SMB2_HEADER_SIZE + TREE_CONNECT_REQUEST_FIXED_SIZE) in
  let! header := decode_header message in
  if negb (bool_decide (command header = Command.TreeConnect))
  then Err (InvalidField "TREE_CONNECT request Command") else
  if has_flag (hdr_flags header) Header.flags.SERVER_TO_REDIR
  then Err (InvalidField "TREE_CONNECT request direction") else
  let! body := slice_from message SMB2_HEADER_SIZE in
  let! structure_size := get_u16 body 0 in
  if negb (structure_size =? TREE_CONNECT_REQUEST_STRUCTURE_SIZE)
  then Err (InvalidStructureSize TREE_CONNECT_REQUEST_STRUCTURE_SIZE structure_size) else
  let! request_flags := get_u16 body 2 in
  if has_flag request_flags tree_connect_flags.EXTENSION_PRESENT
  then Err (Unsupported "TREE_CONNECT extension-present requests") else
  let! path_offset := get_u16 body 4 in
  let! path_len := get_u16 body 6 in
  if (path_len =? 0) || negb (path_len mod 2 =? 0)
  then Err (InvalidField "TREE_CONNECT PathLength") else
  if path_offset <? SMB2_HEADER_SIZE + TREE_CONNECT_REQUEST_FIXED_SIZE
  then Err (InvalidField "TREE_CONNECT PathOffset before request buffer") else
  let! path_end := ok_or (checked_add usize_max path_offset path_len)
                         (InvalidField "TREE_CONNECT PathLength overflow") in
  if len message <? path_end
  then Err (InvalidOffset "TREE_CONNECT Path" path_offset path_len (len message)) else
  let! buffer := slice message path_offset path_end in
  let units := utf16_units buffer in
  let! path := ok_or (from_utf16 units) (InvalidField "TREE_CONNECT Path UTF-16") in
  let request := {| flags := request_flags; path := path |} in
  let! _ := validate request in
  Ok request.

Definition body_bytes (r : t) : bytes :=
  le_bytes 2 TREE_CONNECT_REQUEST_STRUCTURE_SIZE ++ le_bytes 2 (flags r) ++ le_bytes 2 72
  ++ le_bytes 2 (len (utf16_bytes (path r))) ++ utf16_bytes (path r).

Lemma tree_connect_request_returns_validate r : returns (validate r).
Proof. unfold validate. repeat returns_step. Qed.

#[local] Hint Resolve tree_connect_request_returns_validate : returns.

Lemma tree_connect_request_validate_inv r u :
  validate r = Ok u ->
  0 < len (utf16_bytes (path r)) <= 65535 /\
  has_flag (flags r) tree_connect_flags.EXTENSION_PRESENT = false.
Proof.
  unfold validate. intros H. accept H. bool_facts. rewrite len_utf16_bytes.
  pose proof (len_nonneg (encode_utf16 (path r))). unfold u16_max in *. split; [lia|done].
Qed.

Lemma tree_connect_request_encode_message_ok r mid sid credit :
  validate r = Ok tt ->
  encode_message r mid sid credit
  = Ok (header_bytes (tree_header mid sid credit) ++ body_bytes r).
Proof.
  intros Hv. destruct (tree_connect_request_validate_inv _ _ Hv) as [Hl _].
  unfold encode_message, encode_body, tree_header. rewrite Hv, encode_request_header.
  cbn [obind]. cbv zeta. change (checked_add _ _ _ ≫= _) with (Some 72).
  rewrite try_from_ok by (unfold u16_max; lia). cbn [ok_or obind]. clear Hv Hl.
  destruct r as [fl pa]. unfold body_bytes. cbn [flags path].
  generalize (len (utf16_bytes pa)). intros n. put_eval. reflexivity.
Qed.

Lemma tree_connect_request_returns_decode_message message : returns (decode_message message).
Proof.
  unfold decode_message, TREE_CONNECT_REQUEST_FIXED_SIZE. get_unfold. cbv zeta.
  repeat returns_step.
Qed.

Lemma tree_connect_request_decode_message_bytes h r trailing :
  header_wf h -> hdr_consistent h -> command h = Command.TreeConnect ->
  has_flag (hdr_flags h) Header.flags.SERVER_TO_REDIR = false ->
  u16 (flags r) -> valid_string (path r) -> validate r = Ok tt ->
  decode_message (header_bytes h ++ body_bytes r ++ trailing) = Ok r.
Proof.
  intros Hwf Hc Hcmd Hdir ? Hs Hv. pose proof (len_header_bytes h ltac:(apply Hwf)).
  destruct (tree_connect_request_validate_inv _ _ Hv) as [Hl Hext].
  assert (len (utf16_bytes (path r)) mod 2 = 0)
    by (rewrite len_utf16_bytes; div_lia).
  unfold decode_message, body_bytes, TREE_CONNECT_REQUEST_FIXED_SIZE. get_unfold.
  rewrite <- !app_assoc.
  rewrite require_len_ok by len_lia. cbn [obind].
  rewrite decode_header_bytes by done. cbn [obind].
  rewrite Hcmd, bool_decide_true, Hdir by done. cbn [negb].
  rewrite slice_from_ok by len_lia. cbn [obind]. rewrite drop_app_here by lia.
  unfold TREE_CONNECT_REQUEST_STRUCTURE_SIZE, usize_max, u16_max in *. follow.
  eassert (sub _ _ _ = utf16_bytes (path r)) as -> by sub_at.
  rewrite utf16_units_utf16_bytes, from_encode_utf16 by done. cbn [ok_or obind].
  cbv zeta. destruct r. cbn [flags path]. by rewrite Hv.
Qed.

End TreeConnectRequest.
#[export] Hint Resolve TreeConnectRequest.tree_connect_request_returns_validate : returns.

Module TreeConnectResponse.

Record t : Type := mk {
  header : Smb2Header;
  share_type : Z;
  share_flags : Z;
  capabilities : Z;
  maximal_access : Z
}.

Definition decode_message (message : bytes) : wire t :=
  let! _ := require_len message (SMB2_HEADER_SIZE + TREE_CONNECT_RESPONSE_FIXED_SIZE) in
  let! header := decode_header message in
  if negb (bool_decide (command header = Command.TreeConnect))
  then Err (InvalidField "TREE_CONNECT response Command") else
  if negb (has_flag (hdr_flags header) flags.SERVER_TO_REDIR)
  then Err (InvalidField "TREE_CONNECT response direction") else
  if is_async (hdr_id header)
  then Err (InvalidField "TREE_CONNECT response must use a synchronous header") else
  let! body := slice_from message SMB2_HEADER_SIZE in
  let! structure_size := get_u16 body 0 in
  if negb (structure_size =? TREE_CONNECT_RESPONSE_STRUCTURE_SIZE)
  then Err (InvalidStructureSize TREE_CONNECT_RESPONSE_STRUCTURE_SIZE structure_size) else
  let! share_type := get_le 1 body 2 in
  if negb ((share_type =? share_type.DISK) || (share_type =? share_type.PIPE)
           || (share_type =? share_type.PRINT))
  then Err (InvalidField "TREE_CONNECT ShareType") else
  let! share_flags := get_u32 body 4 in
  let! capabilities := get_u32 body 8 in
  let! maximal_access := get_u32 body 12 in
  Ok {| header := header; share_type := share_type; share_flags := share_flags;
        capabilities := capabilities; maximal_access := maximal_access |}.

Definition tree_id (r : t) : Z :=
  match hdr_id (header r) with Sync _ tree_id => tree_id | Async _ => 0 end.

Definition message_bytes (r : t) (reserved trailing : bytes) : bytes :=
  header_bytes (header r) ++ le_bytes 2 TREE_CONNECT_RESPONSE_STRUCTURE_SIZE
  ++ le_bytes 1 (share_type r) ++ reserved ++ le_bytes 4 (share_flags r)
  ++ le_bytes 4 (capabilities r) ++ le_bytes 4 (maximal_access r) ++ trailing.

Lemma tree_connect_response_returns_decode_message message : returns (decode_message message).
Proof.
  unfold decode_message, TREE_CONNECT_RESPONSE_FIXED_SIZE. get_unfold. repeat returns_step.
Qed.

Lemma tree_connect_response_decode_message_bytes r reserved trailing :
  header_wf (header r) -> hdr_consistent (header r) ->
  command (header r) = Command.TreeConnect ->
  has_flag (hdr_flags (header r)) flags.SERVER_TO_REDIR = true ->
  is_async (hdr_id (header r)) = false -> 1 <= share_type r <= 3 -> u32 (share_flags r) ->
  u32 (capabilities r) -> u32 (maximal_access r) -> len reserved = 1 ->
  decode_message (message_bytes r reserved trailing) = Ok r.
Proof.
  intros Hwf Hc Hcmd Hdir Hsy ?????. pose proof (len_header_bytes (header r) ltac:(apply Hwf)).
  unfold decode_message, message_bytes, TREE_CONNECT_RESPONSE_FIXED_SIZE. get_unfold.
  rewrite require_len_ok by len_lia. cbn [obind].
  rewrite decode_header_bytes by done. cbn [obind].
  rewrite Hcmd, bool_decide_true, Hdir, Hsy by done. cbn [negb].
  rewrite slice_from_ok by len_lia. cbn [obind]. rewrite drop_app_here by lia.
  unfold TREE_CONNECT_RESPONSE_STRUCTURE_SIZE, share_type.DISK, share_type.PIPE,
    share_type.PRINT. follow; by destruct r.
Qed.

Lemma tree_connect_response_decode_message_inv message r :
  decode_message message = Ok r ->
  header_wf (header r) /\ hdr_consistent (header r) /\
  command (header r) = Command.TreeConnect /\
  has_flag (hdr_flags (header r)) flags.SERVER_TO_REDIR = true /\
  is_async (hdr_id (header r)) = false /\ 1 <= share_type r <= 3 /\ u32 (share_flags r) /\
  u32 (capabilities r) /\ u32 (maximal_access r) /\
  exists reserved trailing, len reserved = 1 /\ message = message_bytes r reserved trailing.
Proof.
  unfold decode_message, TREE_CONNECT_RESPONSE_FIXED_SIZE. get_unfold. intros Hd. accept Hd.
  apply obind_ok in Hd as (h & Hh & Hd). apply decode_header_inv in Hh as (_ & Hwf & Hc & Hm).
  accept Hd. apply Ok_inj in Hd as <-.
  cbn [header share_type share_flags capabilities maximal_access].
  body_offsets. unfold share_type.DISK, share_type.PIPE, share_type.PRINT in *.
  bool_facts. read_facts.
  split; [done|]. split; [done|]. split; [done|]. split; [done|]. split; [done|].
  split; [bool_cases; lia|]. split; [done|]. split; [done|]. split; [done|].
  exists (sub message 67 1), (drop (Z.to_nat 80) message).
  unfold message_bytes. cbn [header share_type share_flags capabilities maximal_access].
  rewrite !len_sub by lia.
  split; [done|]. rewrite <- Hm, <- Hchk2, !le_bytes_le_at by lia. by rejoin.
Qed.

End TreeConnectResponse.

(** ** Properties *)

(** SESSION_SETUP requests round-trip: the decoder recovers every field of
    a request and its security blob, whatever the blob, from the message the
    encoder writes; a blob too long for its 16-bit length is refused. *)
Theorem session_setup_request_roundtrip (r : SessionSetupRequest.t) (mid sid credit : Z)
    (Hr : SessionSetupRequest.wf r) (Hmid : u64 mid) (Hsid : u64 sid) (Hcr : u16 credit) :
  obind (SessionSetupRequest.encode_message r mid sid credit) SessionSetupRequest.decode_message
  = if u16_max <? len (SessionSetupRequest.security_blob r)
    then Err (InvalidField "SESSION_SETUP SecurityBufferLength") else Ok r.
Proof.
  destruct (SessionSetupRequest.validate r) as [[]|e| |] eqn:Hv.
  - rewrite SessionSetupRequest.session_setup_request_encode_message_ok by done. cbn [obind].
    rewrite SessionSetupRequest.session_setup_request_decode_message_bytes by (done || by apply request_header_wf).
    unfold SessionSetupRequest.validate in Hv. by destruct (_ <? _).
  - unfold SessionSetupRequest.encode_message, SessionSetupRequest.setup_header.
    rewrite encode_request_header. cbn [obind].
    rewrite SessionSetupRequest.session_setup_request_encode_body_ok, Hv. cbn [obind].
    unfold SessionSetupRequest.validate in Hv. destruct (_ <? _); naive_solver.
  - unfold SessionSetupRequest.validate in Hv. by destruct (_ <? _).
  - unfold SessionSetupRequest.validate in Hv. by destruct (_ <? _).
Qed.

Lemma session_setup_request_roundtrip_witness :
  obind (SessionSetupRequest.encode_message (SessionSetupRequest.mk 0 1 0 7 [x4e; x54]) 2 9 1)
    SessionSetupRequest.decode_message
  = Ok (SessionSetupRequest.mk 0 1 0 7 [x4e; x54]).
Proof.
  apply (session_setup_request_roundtrip (SessionSetupRequest.mk 0 1 0 7 [x4e; x54]) 2 9 1);
    [split_and!|..]; uint_solve.
Defined.

(** The SESSION_SETUP response decoder returns the blob the message
    carries at the offset the message states, and every message of the wire
    format is accepted; an accepted response with a blob is such a message. *)
Theorem session_setup_response_iff (message : bytes) (r : SessionSetupResponse.t)
    (Hblob : SessionSetupResponse.security_blob r <> []) :
  SessionSetupResponse.decode_message message = Ok r <->
  header_wf (SessionSetupResponse.header r) /\
  hdr_consistent (SessionSetupResponse.header r) /\
  command (SessionSetupResponse.header r) = Command.SessionSetup /\
  has_flag (hdr_flags (SessionSetupResponse.header r)) flags.SERVER_TO_REDIR = true /\
  u16 (SessionSetupResponse.session_flags r) /\
  len (SessionSetupResponse.security_blob r) < 2 ^ 16 /\
  exists gap trailing, 72 + len gap < 2 ^ 16 /\
    message = SessionSetupResponse.message_bytes r gap trailing.
Proof.
  split.
  - intros H. apply SessionSetupResponse.session_setup_response_decode_message_inv in H. naive_solver.
  - intros (? & ? & ? & ? & ? & ? & gap & trailing & ? & ->).
    by apply SessionSetupResponse.session_setup_response_decode_message_bytes.
Qed.

Lemma session_setup_response_iff_witness :
  let h := mkSmb2Header 1 (Status 0xC0000016) Command.SessionSetup 4 1 0 3 (Sync 0 0) 77
             (replicate 16 x00) in
  let r := SessionSetupResponse.mk h 0 [x4e; x54] in
  SessionSetupResponse.decode_message (SessionSetupResponse.message_bytes r [x00; x00] []) = Ok r.
Proof.
  cbv zeta. apply session_setup_response_iff; [discriminate|].
  split; [unfold header_wf; cbn; split_and!; uint_solve|].
  split; [vm_compute; split; reflexivity|]. split; [reflexivity|]. split; [reflexivity|].
  split; [uint_solve|]. split; [reflexivity|].
  exists [x00; x00], []. split; [reflexivity|reflexivity].
Defined.

(** TREE_CONNECT requests round-trip through UTF-16LE: the decoder recovers
    the flags and the share path (surrogate pairs included) of every request
    the encoder accepts, whatever bytes follow the message, and the encoder
    accepts exactly what [validate] accepts. *)
Theorem tree_connect_request_roundtrip (r : TreeConnectRequest.t) (mid sid credit : Z)
    (trailing : bytes)
    (Hf : u16 (TreeConnectRequest.flags r)) (Hp : valid_string (TreeConnectRequest.path r))
    (Hmid : u64 mid) (Hsid : u64 sid) (Hcr : u16 credit) :
  (let! message := TreeConnectRequest.encode_message r mid sid credit in
   TreeConnectRequest.decode_message (message ++ trailing))
  = let! _ := TreeConnectRequest.validate r in Ok r.
Proof.
  destruct (TreeConnectRequest.validate r) as [[]|e| |] eqn:Hv.
  - rewrite TreeConnectRequest.tree_connect_request_encode_message_ok by done. cbn [obind]. rewrite <- app_assoc.
    apply TreeConnectRequest.tree_connect_request_decode_message_bytes; (done || by apply request_header_wf).
  - unfold TreeConnectRequest.encode_message, TreeConnectRequest.encode_body. by rewrite Hv.
  - pose proof (TreeConnectRequest.tree_connect_request_returns_validate r). by rewrite Hv in *.
  - pose proof (TreeConnectRequest.tree_connect_request_returns_validate r). by rewrite Hv in *.
Qed.

Lemma tree_connect_request_roundtrip_witness :
  (let! message := TreeConnectRequest.encode_message
                     (TreeConnectRequest.mk 0 [92; 92; 110; 92; 0x1F600]) 3 7 1 in
   TreeConnectRequest.decode_message (message ++ [x00]))
  = Ok (TreeConnectRequest.mk 0 [92; 92; 110; 92; 0x1F600]).
Proof.
  apply (tree_connect_request_roundtrip
           (TreeConnectRequest.mk 0 [92; 92; 110; 92; 0x1F600]) 3 7 1 [x00]);
    [uint_solve|repeat constructor; unfold scalar; cbn; lia|uint_solve..].
Defined.

(** the TREE_CONNECT response decoder accepts exactly the synchronous
    response messages of a disk, pipe or print share, and reports the share's
    fields and the tree identifier of the header. *)
Theorem tree_connect_response_iff (message : bytes) (r : TreeConnectResponse.t) :
  TreeConnectResponse.decode_message message = Ok r <->
  header_wf (TreeConnectResponse.header r) /\ hdr_consistent (TreeConnectResponse.header r) /\
  command (TreeConnectResponse.header r) = Command.TreeConnect /\
  has_flag (hdr_flags (TreeConnectResponse.header r)) flags.SERVER_TO_REDIR = true /\
  (exists process_id,
     hdr_id (TreeConnectResponse.header r) = Sync process_id (TreeConnectResponse.tree_id r)) /\
  1 <= TreeConnectResponse.share_type r <= 3 /\ u32 (TreeConnectResponse.share_flags r) /\
  u32 (TreeConnectResponse.capabilities r) /\ u32 (TreeConnectResponse.maximal_access r) /\
  exists reserved trailing, len reserved = 1 /\
    message = TreeConnectResponse.message_bytes r reserved trailing.
Proof.
  split.
  - intros (? & ? & ? & ? & Hsync & H)%TreeConnectResponse.tree_connect_response_decode_message_inv.
    split; [done|]. split; [done|]. split; [done|]. split; [done|]. split; [|exact H].
    unfold TreeConnectResponse.tree_id.
    destruct (hdr_id _) as [p t|a]; [by exists p|done].
  - intros (? & ? & ? & ? & (p & Hid) & ? & ? & ? & ? & reserved & trailing & ? & ->).
    apply TreeConnectResponse.tree_connect_response_decode_message_bytes; try done. by rewrite Hid.
Qed.
