(* ===== verification/CreateContext.v ===== *)
(** * CREATE contexts

    [crates/smb-wire/src/create_context.rs]: the linked list of name/data pairs
    that follows a CREATE request or response. Encoder and decoder are loops,
    here over the list of contexts and, with fuel, over the input. *)
From S2P Require Import Prelude WireError Header.

Definition CREATE_CONTEXT_FIXED_SIZE : Z := 16.
Definition CREATE_CONTEXT_ALIGNMENT : Z := 8.

Record CreateContext : Type := mkCreateContext { name : bytes; data : bytes }.

#[export] Instance CreateContext_eq_dec : EqDecision CreateContext.
Proof. solve_decision. Defined.

Module CreateContext_.

Definition validate (c : CreateContext) : wire unit :=
  if len (name c) <? 4
  then Err (InvalidField "CREATE context name must be at least four bytes") else
  let! _ := ok_or (try_from u16_max (len (name c))) (InvalidField "CREATE context NameLength") in
  let! _ := ok_or (try_from u32_max (len (data c))) (InvalidField "CREATE context DataLength") in
  Ok tt.

Definition new (name data : bytes) : wire CreateContext :=
  let context := mkCreateContext name data in
  let! _ := validate context in
  Ok context.

End CreateContext_.

Definition align_up (value alignment : Z) : wire Z :=
  ok_or ((fun value => Z.land value (bit_not 64 (alignment - 1)))
           <$> checked_add usize_max value (alignment - 1))
        (InvalidField "CREATE context alignment overflow").

(** One iteration of the encoder's loop: [out] is the list written so far. *)
Definition encode_context (out : bytes) (context : CreateContext) (is_last : bool) :
    wire bytes :=
  let! _ := CreateContext_.validate context in
  let start := len out in
  let name_offset := CREATE_CONTEXT_FIXED_SIZE in
  let name_length := len (name context) in
  let! data_offset :=
    if is_empty (data context) then Ok 0 else
    let! name_end := ok_or (checked_add usize_max name_offset name_length)
                           (InvalidField "CREATE context name overflow") in
    align_up name_end CREATE_CONTEXT_ALIGNMENT in
  let data_length := len (data context) in
  let! payload_end :=
    if data_length =? 0
    then ok_or (checked_add usize_max name_offset name_length)
               (InvalidField "CREATE context length overflow")
    else ok_or (checked_add usize_max data_offset data_length)
               (InvalidField "CREATE context length overflow") in
  let! encoded_len :=
    if is_last then Ok payload_end else align_up payload_end CREATE_CONTEXT_ALIGNMENT in
  let! new_len := ok_or (checked_add usize_max start encoded_len)
                        (InvalidField "CREATE context list overflow") in
  let out := resize0 out new_len in
  let! context_bytes := slice out start (start + encoded_len) in
  let! next :=
    if is_last then Ok 0 else ok_or (try_from u32_max encoded_len)
                                    (InvalidField "CREATE context Next") in
  let! context_bytes := put_u32 context_bytes 0 next in
  let! v := ok_or (try_from u16_max name_offset) (InvalidField "CREATE context NameOffset") in
  let! context_bytes := put_u16 context_bytes 4 v in
  let! v := ok_or (try_from u16_max name_length) (InvalidField "CREATE context NameLength") in
  let! context_bytes := put_u16 context_bytes 6 v in
  let! context_bytes := put_u16 context_bytes 8 0 in
  let! v := ok_or (try_from u16_max data_offset) (InvalidField "CREATE context DataOffset") in
  let! context_bytes := put_u16 context_bytes 10 v in
  let! v := ok_or (try_from u32_max data_length) (InvalidField "CREATE context DataLength") in
  let! context_bytes := put_u32 context_bytes 12 v in
  let! context_bytes :=
    copy_from_slice context_bytes name_offset (name_offset + name_length) (name context) in
  let! context_bytes :=
    if negb (data_length =? 0)
    then copy_from_slice context_bytes data_offset (data_offset + data_length) (data context)
    else Ok context_bytes in
  copy_from_slice out start (start + encoded_len) context_bytes.

(** The [for] loop over the contexts. *)
Fixpoint encode_loop (out : bytes) (contexts : list CreateContext) : wire bytes :=
  match contexts with
  | [] => Ok out
  | context :: rest =>
      let! out := encode_context out context (is_empty rest) in
      encode_loop out rest
  end.

Definition encode_create_contexts (contexts : list CreateContext) : wire bytes :=
  encode_loop [] contexts.

Definition ranges_overlap (left right : Z * Z) : bool :=
  (left.1 <? right.2) && (right.1 <? left.2).

(** One iteration of the decoder's loop, up to the test that ends it: the
    context at [cursor] and its [Next] field. *)
Definition decode_context (input : bytes) (cursor : Z) : wire (CreateContext * Z) :=
  let! remaining := slice_from input cursor in
  let! _ := require_len remaining CREATE_CONTEXT_FIXED_SIZE in
  let! next_u32 := get_u32 remaining 0 in
  let! next := ok_or (try_from usize_max next_u32) (InvalidField "CREATE context Next") in
  let! extent :=
    if next =? 0 then Ok (len remaining) else
    if (next <? CREATE_CONTEXT_FIXED_SIZE) || negb (next mod CREATE_CONTEXT_ALIGNMENT =? 0)
    then Err (InvalidField "CREATE context Next alignment") else
    if len remaining <? next
    then Err (InvalidOffset "CREATE context Next" cursor next (len input)) else
    Ok next in
  let! current := slice remaining 0 extent in
  let! name_offset := get_u16 current 4 in
  let! name_length := get_u16 current 6 in
  let! reserved := get_u16 current 8 in
  let! data_offset := get_u16 current 10 in
  let! data_length_u32 := get_u32 current 12 in
  let! data_length := ok_or (try_from usize_max data_length_u32)
                            (InvalidField "CREATE context DataLength") in
  if negb (reserved =? 0) then Err (InvalidField "CREATE context Reserved") else
  if (name_length <? 4) || (name_offset <? CREATE_CONTEXT_FIXED_SIZE)
  then Err (InvalidField "CREATE context Name") else
  if negb (name_offset mod CREATE_CONTEXT_ALIGNMENT =? 0)
  then Err (InvalidField "CREATE context NameOffset alignment") else
  let! name_range := checked_range extent "CREATE context Name" name_offset name_length in
  let! data_range :=
    if data_length =? 0 then
      if negb (data_offset =? 0) && negb (data_offset mod CREATE_CONTEXT_ALIGNMENT =? 0)
      then Err (InvalidField "CREATE context DataOffset alignment") else Ok None
    else
      if (data_offset <? CREATE_CONTEXT_FIXED_SIZE)
         || negb (data_offset mod CREATE_CONTEXT_ALIGNMENT =? 0)
      then Err (InvalidField "CREATE context DataOffset alignment") else
      let! range := checked_range extent "CREATE context Data" data_offset data_length in
      Ok (Some range) in
  let! _ :=
    match data_range with
    | Some data_range =>
        if ranges_overlap name_range data_range
        then Err (InvalidField "CREATE context name/data ranges overlap") else Ok tt
    | None => Ok tt
    end in
  let! name := slice current name_range.1 name_range.2 in
  let! data :=
    match data_range with Some range => slice current range.1 range.2 | None => Ok [] end in
  Ok (mkCreateContext name data, next).

(** The decoder's [loop]; [contexts] are those pushed so far. *)
Fixpoint decode_loop (fuel : nat) (input : bytes) (cursor : Z) (contexts : list CreateContext) :
    wire (list CreateContext) :=
  match fuel with
  | O => OutOfFuel
  | S fuel =>
      let! '(context, next) := decode_context input cursor in
      let contexts := contexts ++ [context] in
      if next =? 0 then Ok contexts else
      let! cursor := ok_or (checked_add usize_max cursor next)
                           (InvalidField "CREATE context cursor overflow") in
      if len input <=? cursor
      then Err (InvalidField "CREATE context Next points past final context") else
      decode_loop fuel input cursor contexts
  end.

(** A step of the loop moves the cursor 16 bytes or more, so the length of
    the input is fuel enough. *)
Definition decode_create_contexts (input : bytes) : wire (list CreateContext) :=
  if is_empty input then Ok [] else decode_loop (length input) input 0 [].

(** ** The wire format *)

Definition align8 (v : Z) : Z := (v + 7) / 8 * 8.

(** Where the data of a context starts, where its payload ends, and the bytes
    it takes: all but the last are padded to a multiple of 8. *)
Definition data_at (c : CreateContext) : Z :=
  if is_empty (data c) then 0 else align8 (16 + len (name c)).
Definition payload (c : CreateContext) : Z :=
  if is_empty (data c) then 16 + len (name c) else data_at c + len (data c).
Definition extent (c : CreateContext) (is_last : bool) : Z :=
  if is_last then payload c else align8 (payload c).

Definition zeros (n : Z) : bytes := replicate (Z.to_nat n) x00.

Definition context_bytes (c : CreateContext) (is_last : bool) : bytes :=
  le_bytes 4 (if is_last then 0 else extent c is_last) ++ le_bytes 2 16
  ++ le_bytes 2 (len (name c)) ++ le_bytes 2 0 ++ le_bytes 2 (data_at c)
  ++ le_bytes 4 (len (data c)) ++ name c
  ++ (if is_empty (data c) then [] else zeros (data_at c - (16 + len (name c))) ++ data c)
  ++ zeros (extent c is_last - payload c).

Fixpoint list_bytes (contexts : list CreateContext) : bytes :=
  match contexts with
  | [] => []
  | c :: rest => context_bytes c (is_empty rest) ++ list_bytes rest
  end.

(** The contexts the fields of the format can hold. *)
Definition fits (c : CreateContext) (is_last : bool) : Prop :=
  4 <= len (name c) <= 65535 /\ len (data c) < 2 ^ 32 /\ data_at c <= 65535 /\
  (is_last = false -> extent c is_last < 2 ^ 32).

Fixpoint all_fit (contexts : list CreateContext) : Prop :=
  match contexts with
  | [] => True
  | c :: rest => fits c (is_empty rest) /\ all_fit rest
  end.

#[global] Arguments context_bytes : simpl never.
#[global] Arguments zeros : simpl never.

Lemma len_zeros n : len (zeros n) = Z.max 0 n.
Proof. unfold zeros, len. rewrite length_replicate. lia. Qed.
#[export] Hint Rewrite len_zeros : len.

Lemma zeros_app a b : 0 <= a -> 0 <= b -> zeros a ++ zeros b = zeros (a + b).
Proof. intros. unfold zeros. rewrite <- replicate_add. f_equal. lia. Qed.

Lemma align8_bounds v : v <= align8 v < v + 8 /\ align8 v mod 8 = 0.
Proof. unfold align8. div_lia. Qed.

Lemma land_not_7 v : 0 <= v < 2 ^ 64 -> Z.land v (bit_not 64 7) = v / 8 * 8.
Proof.
  intros. change (v / 8 * 8) with (v / 2 ^ 3 * 2 ^ 3).
  rewrite <- Z.shiftr_div_pow2, <- Z.shiftl_mul_pow2 by lia.
  replace (bit_not 64 7) with (Z.land (Z.ones 64) (Z.lnot (Z.ones 3))) by done.
  rewrite Z.land_assoc, Z.land_ones, Z.mod_small by lia.
  by rewrite <- Z.ldiff_land, Z.ldiff_ones_r by lia.
Qed.

Lemma align_up_ok v : 0 <= v -> v + 7 <= usize_max -> align_up v 8 = Ok (align8 v).
Proof.
  intros. unfold align_up. change (8 - 1) with 7.
  rewrite (proj2 (checked_add_some _ _ _ (v + 7))) by done. cbn.
  rewrite land_not_7 by (unfold usize_max in *; lia). done.
Qed.

Lemma resize0_grow (out : bytes) n : 0 <= n -> resize0 out (len out + n) = out ++ zeros n.
Proof.
  intros. unfold resize0, zeros, len. rewrite take_ge by lia. do 2 f_equal. lia.
Qed.

Lemma payload_ge c : 16 + len (name c) <= payload c.
Proof.
  unfold payload, data_at. pose proof (align8_bounds (16 + len (name c))).
  pose proof (len_nonneg (data c)). destruct (is_empty (data c)); lia.
Qed.

Lemma extent_ge c b : payload c <= extent c b.
Proof. unfold extent. pose proof (align8_bounds (payload c)). destruct b; lia. Qed.

Lemma len_context_bytes c b : len (context_bytes c b) = extent c b.
Proof.
  pose proof (payload_ge c). pose proof (extent_ge c b). unfold context_bytes.
  autorewrite with len. revert H H0. unfold payload, data_at.
  pose proof (align8_bounds (16 + len (name c))).
  pose proof (len_nonneg (data c)). pose proof (is_empty_len (data c)).
  destruct (is_empty (data c)); autorewrite with len; intros; lia.
Qed.
#[export] Hint Rewrite len_context_bytes : len.

Lemma context_validate_inv c u :
  CreateContext_.validate c = Ok u -> 4 <= len (name c) <= 65535 /\ len (data c) < 2 ^ 32.
Proof.
  unfold CreateContext_.validate. intros H. accept H. bool_facts. unfold u16_max, u32_max in *. lia.
Qed.

Lemma validate_fits c b : fits c b -> CreateContext_.validate c = Ok tt.
Proof.
  intros (? & ? & ? & ?). unfold CreateContext_.validate, u16_max, u32_max.
  rewrite (proj2 (Z.ltb_ge _ _)) by lia. by rewrite !try_from_ok by lia.
Qed.

(** What the two writes of name and data make of the zeroed context. *)
Lemma copy_payload_ok (fixed : bytes) c b :
  len fixed = 16 ->
  (let! out := copy_from_slice (fixed ++ zeros (extent c b - 16)) 16 (16 + len (name c))
                 (name c) in
   if negb (len (data c) =? 0)
   then copy_from_slice out (data_at c) (data_at c + len (data c)) (data c) else Ok out)
  = Ok (fixed ++ name c
        ++ (if is_empty (data c) then [] else zeros (data_at c - (16 + len (name c))) ++ data c)
        ++ zeros (extent c b - payload c)) :> wire bytes.
Proof.
  intros Hf. pose proof (payload_ge c). pose proof (extent_ge c b).
  pose proof (len_nonneg (name c)). pose proof (len_nonneg (data c)).
  replace (zeros (extent c b - 16)) with (zeros (len (name c)) ++ zeros (extent c b - 16 - len (name c)))
    by (rewrite zeros_app by lia; f_equal; lia).
  rewrite (copy_at fixed) by len_lia. cbn [obind]. rewrite <- is_empty_len.
  destruct (is_empty (data c)) eqn:He; cbn [negb].
  - assert (payload c = 16 + len (name c)) as -> by (unfold payload; by rewrite He).
    cbn [app]. do 4 f_equal. lia.
  - pose proof (align8_bounds (16 + len (name c))).
    assert (payload c = data_at c + len (data c)) as Hp by (unfold payload; by rewrite He).
    assert (data_at c = align8 (16 + len (name c))) as Hd by (unfold data_at; by rewrite He).
    replace (zeros (extent c b - 16 - len (name c)))
      with (zeros (data_at c - (16 + len (name c))) ++ zeros (len (data c))
            ++ zeros (extent c b - payload c))
      by (rewrite !zeros_app by lia; f_equal; lia).
    rewrite !app_assoc, <- (app_assoc _ (zeros (len (data c)))).
    rewrite copy_at by len_lia. by rewrite <- !app_assoc.
Qed.

(** The fixed part of a context, written field by field. *)
Lemma put_fixed_ok next nlen doff dlen (rest : bytes) (k : bytes -> wire bytes) :
  (let! b := put_u32 (replicate 16 x00 ++ rest) 0 next in
   let! b := put_u16 b 4 16 in
   let! b := put_u16 b 6 nlen in
   let! b := put_u16 b 8 0 in
   let! b := put_u16 b 10 doff in
   obind (put_u32 b 12 dlen) k)
  = k ((le_bytes 4 next ++ le_bytes 2 16 ++ le_bytes 2 nlen ++ le_bytes 2 0 ++ le_bytes 2 doff
         ++ le_bytes 4 dlen) ++ rest).
Proof. put_eval. reflexivity. Qed.

Lemma zeros_split n : 16 <= n -> zeros n = replicate 16 x00 ++ zeros (n - 16).
Proof.
  intros. change (replicate 16 x00) with (zeros 16). rewrite zeros_app by lia. f_equal. lia.
Qed.

Lemma encode_context_ok out c b :
  fits c b -> len out + extent c b <= usize_max ->
  encode_context out c b = Ok (out ++ context_bytes c b).
Proof.
  intros Hfits Htot. unfold encode_context. rewrite (validate_fits c b) by done.
  destruct Hfits as ([Hn4 Hn] & Hd & Hda & Hext). cbn [obind]. cbv zeta.
  change CREATE_CONTEXT_FIXED_SIZE with 16. change CREATE_CONTEXT_ALIGNMENT with 8.
  pose proof (payload_ge c). pose proof (extent_ge c b).
  pose proof (len_nonneg (name c)). pose proof (len_nonneg (data c)). pose proof (len_nonneg out).
  assert ((if is_empty (data c) then Ok 0 else
             let! name_end := ok_or (checked_add usize_max 16 (len (name c)))
                               (InvalidField "CREATE context name overflow") in
             align_up name_end 8) = Ok (data_at c) :> wire Z) as ->.
  { unfold data_at. destruct (is_empty (data c)); [done|].
    rewrite (proj2 (checked_add_some _ _ _ (16 + len (name c)))) by (unfold usize_max; lia).
    cbn [ok_or obind]. apply align_up_ok; unfold usize_max; lia. }
  cbn [obind].
  assert ((if len (data c) =? 0 then ok_or (checked_add usize_max 16 (len (name c)))
               (InvalidField "CREATE context length overflow")
           else ok_or (checked_add usize_max (data_at c) (len (data c)))
               (InvalidField "CREATE context length overflow")) = Ok (payload c) :> wire Z) as ->.
  { unfold payload. rewrite <- is_empty_len. unfold usize_max.
    destruct (is_empty (data c)) eqn:He;
      rewrite (proj2 (checked_add_some _ _ _ _)) by (split; [done|unfold data_at in *; lia]); done. }
  cbn [obind].
  assert ((if b then Ok (payload c) else align_up (payload c) 8) = Ok (extent c b) :> wire Z) as ->.
  { unfold extent in *. destruct b; [done|]. specialize (Hext eq_refl).
    pose proof (align8_bounds (payload c)). apply align_up_ok; unfold usize_max; lia. }
  cbn [obind].
  rewrite (proj2 (checked_add_some _ _ _ (len out + extent c b))) by done. cbn [ok_or obind].
  rewrite resize0_grow, slice_ok by len_lia. cbn [obind].
  replace (len out + extent c b - len out) with (extent c b) by lia.
  rewrite sub_app_r, Z.sub_diag, sub_full by len_lia.
  assert ((if b then Ok 0 else ok_or (try_from u32_max (extent c b))
             (InvalidField "CREATE context Next"))
          = Ok (if b then 0 else extent c b) :> wire Z) as ->.
  { destruct b; [done|]. specialize (Hext eq_refl). rewrite try_from_ok by (unfold u32_max; lia). done. }
  cbn [obind].
  rewrite !try_from_ok by (unfold u16_max, u32_max; lia). cbn [ok_or obind].
  rewrite (zeros_split (extent c b)) at 1 by lia.
  rewrite put_fixed_ok, <- obind_assoc, copy_payload_ok by done. cbn [obind].
  rewrite <- (app_nil_r (out ++ zeros _)), <- app_assoc.
  rewrite copy_at; [|done|len_lia|].
  - unfold context_bytes. by rewrite app_nil_r, <- !app_assoc.
  - pose proof (len_context_bytes c b) as Hlen. unfold context_bytes in Hlen.
    rewrite <- !app_assoc, Hlen. len_lia.
Qed.

Lemma align_up_inv v r : 0 <= v -> align_up v 8 = Ok r -> r = align8 v /\ v + 7 <= usize_max.
Proof.
  unfold align_up. intros ?. change (8 - 1) with 7. unfold checked_add.
  destruct (Z.leb_spec (v + 7) usize_max); cbn; [|done]. intros Hr. apply Ok_inj in Hr as <-.
  rewrite land_not_7 by (unfold usize_max in *; lia). done.
Qed.

Lemma encode_context_inv out c b r :
  encode_context out c b = Ok r -> fits c b /\ len out + extent c b <= usize_max.
Proof.
  unfold encode_context. intros (u & Hv%context_validate_inv & He)%obind_ok. cbv zeta in He.
  change CREATE_CONTEXT_FIXED_SIZE with 16 in He. change CREATE_CONTEXT_ALIGNMENT with 8 in He.
  pose proof (len_nonneg (name c)). pose proof (len_nonneg (data c)).
  apply obind_ok in He as (doff & Hdoff & He). apply obind_ok in He as (pend & Hpend & He).
  apply obind_ok in He as (elen & Helen & He). rewrite <- is_empty_len in Hpend.
  assert (doff = data_at c) as ->.
  { unfold data_at. destruct (is_empty (data c)); [by apply Ok_inj in Hdoff as <-|].
    accept Hdoff. apply align_up_inv in Hdoff; [tauto|lia]. }
  assert (pend = payload c) as ->.
  { unfold payload.
    destruct (is_empty (data c)); by apply ok_or_ok, checked_add_some in Hpend as [-> _]. }
  assert (elen = extent c b) as ->.
  { unfold extent. pose proof (payload_ge c).
    destruct b; [by apply Ok_inj in Helen as <-|]. apply align_up_inv in Helen; [tauto|lia]. }
  accept_step He. split; [|done].
  apply obind_ok in He as (cb & _ & He). apply obind_ok in He as (next & Hnext & He).
  split; [lia|]. split; [lia|]. split.
  - repeat (apply obind_ok in He as (? & ? & He)). unfold u16_max in *.
    repeat match goal with H : ok_or _ _ = Ok _ |- _ => apply ok_or_ok in H end.
    opt_facts. lia.
  - intros ->. apply ok_or_ok, try_from_some in Hnext as [_ ?]. unfold u32_max in *. lia.
Qed.

Lemma encode_loop_iff contexts out r :
  encode_loop out contexts = Ok r <->
  (contexts = [] \/ len out + len (list_bytes contexts) <= usize_max) /\ all_fit contexts /\
  r = out ++ list_bytes contexts.
Proof.
  revert out r. induction contexts as [|c rest IH]; intros out r; cbn [encode_loop].
  - cbn. rewrite app_nil_r. split; [intros H; apply Ok_inj in H as ->; auto|by intros (_ & _ & ->)].
  - cbn [list_bytes all_fit]. autorewrite with len. pose proof (len_nonneg (list_bytes rest)).
    split.
    + intros (out' & Hc & Hr)%obind_ok. pose proof (encode_context_inv _ _ _ _ Hc) as [Hf Hl].
      rewrite encode_context_ok in Hc by done. apply Ok_inj in Hc as <-.
      apply IH in Hr as (Htot & Hall & ->). rewrite <- app_assoc. split_and!; try done.
      right. revert Htot. autorewrite with len. destruct rest; cbn [list_bytes]; [len_lia|].
      intros [?|?]; [done|lia].
    + intros ([?|Htot] & [Hf Hall] & ->); [done|].
      rewrite encode_context_ok by (done || lia). cbn [obind]. apply IH.
      rewrite <- app_assoc. split_and!; try done. right. len_lia.
Qed.

Lemma data_at_facts c :
  0 <= data_at c /\ data_at c mod 8 = 0 /\
  (0 < len (data c) -> 16 + len (name c) <= data_at c /\ payload c = data_at c + len (data c)).
Proof.
  unfold payload, data_at. pose proof (align8_bounds (16 + len (name c))).
  pose proof (is_empty_len (data c)). pose proof (len_nonneg (name c)).
  destruct (is_empty (data c)); [|lia]. split; [lia|]. split; [done|].
  symmetry in H0. apply Z.eqb_eq in H0. lia.
Qed.

(** The encoder never panics: a context whose fields do not fit is refused
    before anything is written past the buffer. *)
Lemma returns_encode_context out c b : returns (encode_context out c b).
Proof.
  unfold encode_context. apply returns_bind.
  { unfold CreateContext_.validate. repeat returns_step. }
  intros u (Hn & Hd)%context_validate_inv. cbv zeta.
  change CREATE_CONTEXT_FIXED_SIZE with 16. change CREATE_CONTEXT_ALIGNMENT with 8.
  pose proof (payload_ge c). pose proof (len_nonneg out).
  apply (meets_returns _ (fun _ => True)).
  apply (meets_bind _ _ (fun _ => True)). apply (meets_mono _ (fun d => d = data_at c)).
  { unfold data_at. destruct (is_empty (data c)); [done|].
    rewrite (proj2 (checked_add_some _ _ _ (16 + len (name c)))) by (unfold usize_max; lia).
    cbn [ok_or obind]. rewrite align_up_ok by (unfold usize_max; lia). done. }
  intros ? ->. apply meets_bind. apply (meets_mono _ (fun d => d = payload c)).
  { rewrite <- is_empty_len. unfold payload.
    destruct (is_empty (data c)); destruct (checked_add _ _ _) eqn:E; try done;
      apply checked_add_some in E as [-> _]; done. }
  intros ? ->. apply meets_bind. apply (meets_mono _ (fun d => d = extent c b)).
  { unfold extent. destruct b; [done|]. destruct (align_up _ _) eqn:E; try done.
    - apply align_up_inv in E; [|lia]. cbn. tauto.
    - unfold align_up in E. by destruct (checked_add _ _ _).
    - unfold align_up in E. by destruct (checked_add _ _ _). }
  intros ? ->. pose proof (extent_ge c b). pose proof (len_nonneg (data c)).
  apply meets_returns_bind; [apply returns_ok_or|intros n Hl%ok_or_ok].
  apply checked_add_some in Hl as [-> _].
  rewrite resize0_grow, slice_ok by len_lia. cbn [obind].
  replace (len out + extent c b - len out) with (extent c b) by lia.
  rewrite sub_app_r, Z.sub_diag, sub_full by len_lia.
  apply meets_returns_bind; [by destruct b; auto with returns|intros next _].
  destruct (data_at_facts c) as (? & _ & Hdata).
  unfold put_u32, put_u16. assert (len (zeros (extent c b)) = extent c b) by len_lia.
  repeat put_meets. apply meets_bind. apply (meets_mono _ (fun r => len r = extent c b)).
  { destruct (Z.eqb_spec (len (data c)) 0); cbn [negb]; [cbn [meets]; lia|].
    eapply meets_mono; [apply copy_from_slice_meets; lia|cbn [meets]; lia]. }
  intros r Hr. eapply meets_mono; [apply copy_from_slice_meets; len_lia|done].
Qed.

Lemma returns_encode_create_contexts contexts : returns (encode_create_contexts contexts).
Proof.
  unfold encode_create_contexts. generalize (@nil byte) as out.
  induction contexts as [|c rest IH]; intros out; cbn [encode_loop]; [done|].
  apply returns_bind; [apply returns_encode_context|auto].
Qed.
#[export] Hint Resolve returns_encode_create_contexts : returns.


(** ** The decoder on the wire format *)

Lemma drop_len_app {A} (l r : list A) : drop (Z.to_nat (len l)) (l ++ r) = r.
Proof. by apply drop_app_here. Qed.

Lemma context_data_sub c b rest :
  0 < len (data c) -> sub (context_bytes c b ++ rest) (data_at c) (len (data c)) = data c.
Proof.
  intros Hd. destruct (data_at_facts c) as (_ & _ & [? ?]); [done|].
  unfold context_bytes. rewrite <- !app_assoc.
  rewrite is_empty_len, (proj2 (Z.eqb_neq _ 0)) by lia. rewrite <- !app_assoc. sub_at.
Qed.

Lemma context_name_sub c b rest :
  sub (context_bytes c b ++ rest) 16 (len (name c)) = name c.
Proof. unfold context_bytes. rewrite <- !app_assoc. sub_at. Qed.

Lemma context_context_fields c b rest :
  fits c b -> let m := context_bytes c b ++ rest in
  le_at 4 m 0 = (if b then 0 else extent c b) /\ le_at 2 m 4 = 16 /\
  le_at 2 m 6 = len (name c) /\ le_at 2 m 8 = 0 /\ le_at 2 m 10 = data_at c /\
  le_at 4 m 12 = len (data c).
Proof.
  intros (? & ? & ? & Hext). cbv zeta. unfold context_bytes. rewrite <- !app_assoc.
  pose proof (payload_ge c). pose proof (extent_ge c b).
  pose proof (len_nonneg (name c)). pose proof (len_nonneg (data c)).
  destruct (data_at_facts c) as (? & _).
  assert (0 <= (if b then 0 else extent c b) < 2 ^ 32) as Hnext
    by (destruct b; [lia|specialize (Hext eq_refl); lia]).
  revert Hnext. generalize (if b then 0 else extent c b). intros next ?.
  split_and!; field_at.
Qed.

(** How the decoder finds the extent of a context. *)
Lemma read_extent_ok c b rest cur tot :
  fits c b -> (b = true -> rest = []) ->
  (let next := if b then 0 else extent c b in
   if next =? 0 then Ok (len (context_bytes c b ++ rest)) else
   if (next <? 16) || negb (next mod 8 =? 0)
   then Err (InvalidField "CREATE context Next alignment") else
   if len (context_bytes c b ++ rest) <? next
   then Err (InvalidOffset "CREATE context Next" cur next tot) else Ok next)
  = Ok (extent c b) :> wire Z.
Proof.
  intros (? & ? & ? & Hext) Hrest. cbv zeta. pose proof (payload_ge c).
  pose proof (extent_ge c b). pose proof (len_nonneg rest). pose proof (len_nonneg (name c)).
  destruct b.
  - rewrite Hrest by done. rewrite app_nil_r. cbn [Z.eqb]. by rewrite len_context_bytes.
  - assert (extent c false mod 8 = 0) as Hm by apply align8_bounds.
    rewrite (proj2 (Z.eqb_neq _ 0)), (proj2 (Z.ltb_ge _ 16)), Hm by lia. cbn [orb negb Z.eqb].
    by rewrite (proj2 (Z.ltb_ge _ _)) by len_lia.
Qed.

Lemma decode_context_ok pre c rest :
  let b := is_empty rest in
  fits c b -> len pre + extent c b + len rest <= usize_max ->
  decode_context (pre ++ context_bytes c b ++ rest) (len pre)
  = Ok (c, if b then 0 else extent c b).
Proof.
  intros b Hfits Htot.
  pose proof (context_context_fields c b rest Hfits) as (Hnext & _).
  pose proof (context_context_fields c b [] Hfits) as (_ & Hno & Hnl & Hres & Hdo & Hdl).
  pose proof (context_name_sub c b []) as Hname.
  pose proof (context_data_sub c b []) as Hdata.
  rewrite app_nil_r in *.
  destruct (data_at_facts c) as (Hda0 & Hda8 & Hda).
  pose proof (payload_ge c). pose proof (extent_ge c b). pose proof (len_nonneg rest).
  pose proof (len_nonneg (data c)). pose proof (len_nonneg pre).
  assert (len (context_bytes c b) = extent c b) as Hlen by len_lia.
  pose proof Hfits as ([Hn4 Hn] & Hd & _ & Hext).
  unfold decode_context, CREATE_CONTEXT_FIXED_SIZE, CREATE_CONTEXT_ALIGNMENT. get_unfold.
  rewrite slice_from_ok by len_lia. cbn [obind]. rewrite drop_len_app.
  rewrite require_len_ok by len_lia. cbn [obind].
  rewrite get_le_ok by len_lia. cbn [obind]. rewrite Hnext.
  assert (0 <= (if b then 0 else extent c b) <= u32_max) as Hnr.
  { unfold u32_max. destruct b; [lia|]. specialize (Hext eq_refl). lia. }
  rewrite try_from_ok by (unfold u32_max, usize_max in *; lia). cbn [ok_or obind].
  assert (is_empty rest = true -> rest = []) as Hrest by apply is_empty_true.
  fold b in Hrest.
  pose proof (read_extent_ok c b rest (len pre) (len (pre ++ context_bytes c b ++ rest))
    Hfits Hrest) as Hread. cbv zeta in Hread. rewrite Hread. cbn [obind]. clear Hread Hnext.
  rewrite slice_ok by len_lia. cbn [obind].
  rewrite Z.sub_0_r, sub_app_here by len_lia.
  rewrite !get_le_ok by lia. cbn [obind]. rewrite Hno, Hnl, Hres, Hdo, Hdl.
  rewrite try_from_ok by (unfold usize_max; lia). cbn [ok_or obind].
  rewrite (proj2 (Z.ltb_ge _ 4)) by lia. cbn -[extent payload].
  change (16 mod 8 =? 0) with true. cbn [negb].
  rewrite checked_range_ok by lia. cbn -[extent payload].
  destruct (Z.eqb_spec (len (data c)) 0) as [Hz|Hnz].
  - rewrite Hda8. rewrite andb_false_r. cbn -[extent payload].
    rewrite slice_ok by lia. cbn -[extent payload].
    replace (16 + len (name c) - 16) with (len (name c)) by lia. rewrite Hname.
    assert (data c = []) as He by (apply is_empty_true; rewrite is_empty_len; lia).
    rewrite <- He. by destruct c.
  - destruct Hda as [? ?]; [lia|]. rewrite (proj2 (Z.ltb_ge _ 16)), Hda8 by lia.
    cbn -[extent payload]. rewrite checked_range_ok by lia.
    unfold ranges_overlap. cbn -[extent payload].
    rewrite (proj2 (Z.ltb_lt 16 _)), (proj2 (Z.ltb_ge (data_at c) _)) by lia.
    cbn -[extent payload]. rewrite !slice_ok by lia. cbn -[extent payload].
    replace (16 + len (name c) - 16) with (len (name c)) by lia.
    replace (data_at c + len (data c) - data_at c) with (len (data c)) by lia.
    rewrite Hname, Hdata by lia. by destruct c.
Qed.

Lemma fits_extent c b : fits c b -> 20 <= extent c b.
Proof. intros ([? _] & _). pose proof (payload_ge c). pose proof (extent_ge c b). lia. Qed.

Lemma length_list_bytes contexts :
  all_fit contexts -> (length contexts <= length (list_bytes contexts))%nat.
Proof.
  induction contexts as [|c rest IH]; [done|]. intros [?%fits_extent Hall]. specialize (IH Hall).
  cbn [list_bytes]. pose proof (len_context_bytes c (is_empty rest)). unfold len in *.
  rewrite length_app. simpl. lia.
Qed.

Lemma decode_loop_ok contexts fuel pre acc :
  contexts <> [] -> all_fit contexts -> len pre + len (list_bytes contexts) <= usize_max ->
  (length contexts <= fuel)%nat ->
  decode_loop fuel (pre ++ list_bytes contexts) (len pre) acc = Ok (acc ++ contexts).
Proof.
  revert fuel pre acc. induction contexts as [|c rest IH]; intros fuel pre acc Hne Hall Htot Hfuel;
    [done|]. clear Hne. destruct Hall as [Hfit Hall]. destruct fuel as [|fuel]; [simpl in Hfuel; lia|].
  cbn [decode_loop list_bytes] in *. autorewrite with len in Htot.
  pose proof (fits_extent _ _ Hfit). pose proof (len_nonneg pre).
  assert (is_empty (list_bytes rest) = is_empty rest) as He.
  { destruct rest as [|c' rest]; [done|]. rewrite is_empty_len. apply Z.eqb_neq.
    cbn [list_bytes]. destruct Hall as [?%fits_extent _].
    pose proof (len_nonneg (list_bytes rest)). len_lia. }
  rewrite <- He in *. rewrite decode_context_ok by (done || lia). cbn [obind].
  destruct (is_empty (list_bytes rest)) eqn:Hr.
  - symmetry in He. apply is_empty_true in He as ->. done.
  - rewrite (proj2 (Z.eqb_neq _ 0)) by lia.
    assert (0 < len (list_bytes rest)).
    { pose proof (len_nonneg (list_bytes rest)). rewrite is_empty_len in Hr.
      apply Z.eqb_neq in Hr. lia. }
    rewrite (proj2 (checked_add_some _ _ _ (len pre + extent c false))) by lia.
    cbn [ok_or obind]. rewrite (proj2 (Z.leb_gt _ _)) by len_lia.
    replace (len pre + extent c false) with (len (pre ++ context_bytes c false)) by len_lia.
    rewrite app_assoc, IH; [by rewrite <- app_assoc| |done|len_lia|simpl in Hfuel; lia].
    by intros ->.
Qed.

Lemma decode_list_bytes contexts :
  all_fit contexts -> contexts = [] \/ len (list_bytes contexts) <= usize_max ->
  decode_create_contexts (list_bytes contexts) = Ok contexts.
Proof.
  intros Hfit Htot.
  destruct contexts as [|c rest]; [done|].
  assert (20 <= len (list_bytes (c :: rest))).
  { cbn [list_bytes]. destruct Hfit as [?%fits_extent _].
    pose proof (len_nonneg (list_bytes rest)). len_lia. }
  unfold decode_create_contexts. rewrite is_empty_len, (proj2 (Z.eqb_neq _ 0)) by lia.
  apply (decode_loop_ok (c :: rest) _ [] []); [done|done| |].
  - destruct Htot as [?|?]; [done|]. len_lia.
  - apply length_list_bytes. done.
Qed.

(** ** The decoder on any input *)

(** What one iteration of the decoder's loop establishes: the cursor advances
    inside the input, and name and data are disjoint parts of the extent. *)
Lemma decode_context_meets input cursor :
  0 <= cursor <= len input ->
  meets (decode_context input cursor) (fun '(c, next) =>
    4 <= len (name c) <= 65535 /\
    exists extent, 16 + len (name c) + len (data c) <= extent /\
      cursor + extent <= len input /\ (next = extent \/ next = 0)).
Proof.
  intros. unfold decode_context, CREATE_CONTEXT_FIXED_SIZE, CREATE_CONTEXT_ALIGNMENT. get_unfold.
  do 4 meets_step; [|exact I]. apply meets_bind.
  apply (meets_mono _ (fun e => 16 <= e <= len (drop (Z.to_nat cursor) input) /\
                         (le_at 4 (drop (Z.to_nat cursor) input) 0 = e \/
                          le_at 4 (drop (Z.to_nat cursor) input) 0 = 0))).
  { repeat meets_step; cbn [meets]; bool_facts; lia. }
  intros extent (He & Hnext). autorewrite with len in He. meets_step.
  set (current := sub _ 0 _) in *.
  assert (len current = extent) as Hcur by (subst current; rewrite len_sub by len_lia; lia).
  clearbody current.
  repeat meets_step; cbn [fst snd obind];
    repeat (meets_step || rewrite slice_ok by facts_lia; cbn [fst snd obind]);
    unfold ranges_overlap in *; cbn [meets name data fst snd] in *; read_facts; bool_cases;
    rewrite !len_sub by lia; (split; [lia|]); exists extent; rewrite ?len_nil; lia.
Qed.

(** The bytes a list of contexts takes at least. *)
Fixpoint weight (contexts : list CreateContext) : Z :=
  match contexts with
  | [] => 0
  | c :: rest => 16 + len (name c) + len (data c) + weight rest
  end.

Definition name_ok (c : CreateContext) : Prop := 4 <= len (name c) <= 65535.

Lemma decode_loop_meets fuel input cursor acc :
  0 <= cursor < len input -> len input - cursor <= Z.of_nat fuel ->
  meets (decode_loop fuel input cursor acc) (fun contexts =>
    exists more, contexts = acc ++ more /\ more <> [] /\ Forall name_ok more /\
      weight more <= len input - cursor).
Proof.
  revert cursor acc. induction fuel as [|fuel IH]; intros cursor acc Hcur Hfuel; [lia|].
  cbn [decode_loop]. apply meets_bind. eapply meets_mono; [apply decode_context_meets; lia|].
  intros [c next] (Hname & extent & He & Hin & Hnext).
  pose proof (len_nonneg (data c)).
  destruct (Z.eqb_spec next 0) as [->|Hnz].
  - cbn [meets]. exists [c]. split_and!; try done; [by apply Forall_singleton|cbn; lia].
  - destruct Hnext as [->|]; [|done]. meets_step; [|exact I].
    destruct (Z.leb_spec (len input) (cursor + extent)); [exact I|].
    eapply meets_mono; [apply IH; lia|]. intros contexts (more & -> & _ & Hall & Hw).
    exists (c :: more). rewrite <- app_assoc. split_and!; try done; [by constructor|cbn; lia].
Qed.

Lemma decode_create_contexts_meets input :
  meets (decode_create_contexts input) (fun contexts =>
    Forall name_ok contexts /\ weight contexts <= len input /\
    (contexts = [] <-> input = [])).
Proof.
  unfold decode_create_contexts. destruct (is_empty input) eqn:He.
  - apply is_empty_true in He as ->. cbn. repeat constructor; done.
  - rewrite is_empty_len in He. apply Z.eqb_neq in He. pose proof (len_nonneg input).
    eapply meets_mono; [apply decode_loop_meets; unfold len in *; lia|].
    intros contexts (more & -> & Hne & Hall & Hw). cbn [app]. split; [done|]. split; [lia|].
    split; [done|by intros ->].
Qed.

Lemma returns_decode_create_contexts input : returns (decode_create_contexts input).
Proof. eapply meets_returns, decode_create_contexts_meets. Qed.
#[export] Hint Resolve returns_decode_create_contexts : returns.

(** ** Properties *)

(** What the encoder writes is the linked-list format, each context padded
    to 8 bytes except the last; it succeeds exactly for the contexts whose
    lengths and offsets fit their fields. *)
Theorem encode_create_contexts_iff (contexts : list CreateContext) (b : bytes) :
  encode_create_contexts contexts = Ok b <->
  (contexts = [] \/ len (list_bytes contexts) <= usize_max) /\ all_fit contexts /\
  b = list_bytes contexts.
Proof. unfold encode_create_contexts. by rewrite encode_loop_iff. Qed.

(** C40: CREATE context lists round-trip: the decoder recovers from an encoded
    list exactly the contexts it was made of, in order. *)
Theorem create_contexts_roundtrip (contexts : list CreateContext) (b : bytes)
    (He : encode_create_contexts contexts = Ok b) :
  decode_create_contexts b = Ok contexts.
Proof.
  unfold encode_create_contexts in He. apply encode_loop_iff in He as (Htot & Hfit & ->).
  by apply decode_list_bytes.
Qed.

Lemma create_contexts_roundtrip_witness :
  decode_create_contexts (list_bytes
    [mkCreateContext [x44; x48; x32; x51] [x01; x02]; mkCreateContext [x41; x42; x43; x44] []])
  = Ok [mkCreateContext [x44; x48; x32; x51] [x01; x02]; mkCreateContext [x41; x42; x43; x44] []].
Proof.
  apply create_contexts_roundtrip, encode_loop_iff. split; [|split]; [|repeat split; vm_compute; done|done].
  right. vm_compute. done.
Defined.

(** The decoder is total: on any input whatever it returns a list or an
    error without an out-of-range access and its loop ends within the fuel,
    and a list it returns has names of at least four bytes and takes, with its
    16-byte headers, no more memory than the input: no two payloads share a
    byte of it. *)
Theorem decode_create_contexts_bounded (input : bytes) :
  returns (decode_create_contexts input) /\
  (forall contexts, decode_create_contexts input = Ok contexts ->
   Forall name_ok contexts /\ weight contexts <= len input /\
   (contexts = [] <-> input = [])).
Proof. apply meets_iff, decode_create_contexts_meets. Qed.
