(* ===== verification/Durable.v ===== *)
(** * Durable handles and CREATE with contexts

    [crates/smb-wire/src/durable.rs]: the payloads of the [DH2Q]/[DH2C]
    contexts; [create_with_contexts.rs]: a CREATE request followed by a context
    list, and the response with the list it carries. *)
From S2P Require Import Prelude WireError Utf16 Header Create CreateContext.

Definition DURABLE_HANDLE_REQUEST_V2_NAME : bytes := [x44; x48; x32; x51].
Definition DURABLE_HANDLE_RECONNECT_V2_NAME : bytes := [x44; x48; x32; x43].
Definition DURABLE_HANDLE_REQUEST_V2_DATA_SIZE : Z := 32.
Definition DURABLE_HANDLE_RECONNECT_V2_DATA_SIZE : Z := 36.
Definition DURABLE_HANDLE_RESPONSE_V2_DATA_SIZE : Z := 8.

Module durable_handle_flags.
Definition PERSISTENT : Z := 0x00000002.
End durable_handle_flags.

Definition validate_flags (flags : Z) : wire unit :=
  if has_flag flags (bit_not 32 durable_handle_flags.PERSISTENT)
  then Err (InvalidField "durable handle v2 Flags") else Ok tt.

Definition require_name (context : CreateContext) (expected : bytes) (field : string) :
    wire unit :=
  if bool_decide (name context = expected) then Ok tt else Err (InvalidField field).

Definition require_exact_len (input : bytes) (expected : Z) (field : string) : wire unit :=
  let! _ := require_len input expected in
  if negb (len input =? expected) then Err (InvalidField field) else Ok tt.

Lemma returns_validate_flags f : returns (validate_flags f).
Proof. unfold validate_flags. by destruct (has_flag _ _). Qed.
Lemma returns_require_name c e f : returns (require_name c e f).
Proof. unfold require_name. by case_bool_decide. Qed.
#[export] Hint Resolve returns_validate_flags returns_require_name : returns.

Lemma require_exact_len_inv input expected field u :
  require_exact_len input expected field = Ok u -> len input = expected.
Proof. unfold require_exact_len. intros H. accept H. by bool_facts. Qed.

Lemma require_exact_len_ok input expected field :
  len input = expected -> require_exact_len input expected field = Ok tt.
Proof.
  intros <-. unfold require_exact_len. rewrite require_len_ok by lia. cbn [obind].
  by rewrite Z.eqb_refl.
Qed.

Lemma returns_require_exact_len input expected field :
  returns (require_exact_len input expected field).
Proof. unfold require_exact_len. repeat returns_step. Qed.
#[export] Hint Resolve returns_require_exact_len : returns.

(** The two flag words [validate_flags] lets through. *)
Lemma validate_flags_iff f :
  u32 f -> validate_flags f = Ok tt <-> f = 0 \/ f = durable_handle_flags.PERSISTENT.
Proof.
  unfold validate_flags, durable_handle_flags.PERSISTENT. intros Hf.
  pose proof (no_other_bits 32 f 2 ltac:(lia) Hf ltac:(done)) as Hb.
  split; [|by intros [->| ->]]. destruct (has_flag _ _); [done|]. intros _.
  destruct Hb as [Hb _]. specialize (Hb eq_refl).
  assert (Z.land f 2 = 0 \/ Z.land f 2 = 2).
  { destruct Hf as [Hpos _]. destruct f as [|p|p]; [by left| |lia].
    by destruct p as [[]|[]|]; cbn; auto. }
  lia.
Qed.

Module DurableHandleRequestV2.

Record t : Type := mk { timeout_ms : Z; flags : Z; create_guid : bytes }.

Definition new (create_guid : bytes) : t :=
  {| timeout_ms := 0; flags := 0; create_guid := create_guid |}.

Definition encode_data (r : t) : wire bytes :=
  let! _ := validate_flags (flags r) in
  let out := replicate (Z.to_nat DURABLE_HANDLE_REQUEST_V2_DATA_SIZE) x00 in
  let! out := put_u32 out 0 (timeout_ms r) in
  let! out := put_u32 out 4 (flags r) in
  copy_from_slice out 16 32 (create_guid r).

Definition decode_data (input : bytes) : wire t :=
  let! _ := require_exact_len input DURABLE_HANDLE_REQUEST_V2_DATA_SIZE "DH2Q request length" in
  let! reserved := slice input 8 16 in
  if existsb (fun byte => negb (bool_decide (byte = x00))) reserved
  then Err (InvalidField "DH2Q Reserved") else
  let! flags := get_u32 input 4 in
  let! _ := validate_flags flags in
  let! create_guid := slice input 16 32 in
  let! timeout_ms := get_u32 input 0 in
  Ok {| timeout_ms := timeout_ms; flags := flags; create_guid := create_guid |}.

Definition into_context (r : t) : wire CreateContext :=
  let! data := encode_data r in
  CreateContext_.new DURABLE_HANDLE_REQUEST_V2_NAME data.

Definition from_context (context : CreateContext) : wire t :=
  let! _ := require_name context DURABLE_HANDLE_REQUEST_V2_NAME "DH2Q context name" in
  decode_data (data context).

Definition data_bytes (r : t) : bytes :=
  le_bytes 4 (timeout_ms r) ++ le_bytes 4 (flags r) ++ replicate 8 x00 ++ create_guid r.

Definition wf (r : t) : Prop := u32 (timeout_ms r) /\ u32 (flags r) /\ len (create_guid r) = 16.

Lemma durable_handle_request_v2_encode_data_ok r :
  wf r -> encode_data r = let! _ := validate_flags (flags r) in Ok (data_bytes r).
Proof.
  intros (_ & _ & Hg). unfold encode_data. destruct (validate_flags _); [|done..].
  cbn [obind]. cbv zeta. unfold data_bytes. destruct r as [ti fl gu]. cbn in *.
  change (replicate (Z.to_nat DURABLE_HANDLE_REQUEST_V2_DATA_SIZE) x00)
    with (replicate 16 x00 ++ replicate 16 x00).
  put_eval. rewrite <- (app_nil_r (replicate 16 x00)).
  rewrite copy_at by (done || rewrite Hg; done). by rewrite app_nil_r.
Qed.

Lemma durable_handle_request_v2_decode_data_bytes r :
  wf r -> validate_flags (flags r) = Ok tt -> decode_data (data_bytes r) = Ok r.
Proof.
  intros (? & ? & Hg) Hv. unfold decode_data, data_bytes, DURABLE_HANDLE_REQUEST_V2_DATA_SIZE. get_unfold.
  rewrite require_exact_len_ok by len_lia. cbn [obind].
  oeval. assert (forall a b : bytes, len a = 8 -> sub (a ++ replicate 8 x00 ++ b) 8 8
                 = replicate 8 x00) as Hsub.
  { intros a b Ha. rewrite sub_app_r, Ha by lia. by apply sub_app_here. }
  rewrite (app_assoc (le_bytes 4 _)) at 1. rewrite Hsub by done. cbn [replicate existsb].
  rewrite bool_decide_true by done. cbn [negb orb]. read_fields. rewrite Hv. cbn [obind].
  oeval. read_fields.
  eassert (sub _ 16 16 = create_guid r) as -> by sub_at. by destruct r.
Qed.

Lemma durable_handle_request_v2_decode_data_inv input r :
  decode_data input = Ok r ->
  wf r /\ validate_flags (flags r) = Ok tt /\ input = data_bytes r.
Proof.
  unfold decode_data. get_unfold. intros (u & Hl%require_exact_len_inv & Hd)%obind_ok.
  change DURABLE_HANDLE_REQUEST_V2_DATA_SIZE with 32 in Hl. accept Hd.
  apply obind_ok in Hd as ([] & Hv & Hd). accept Hd. apply Ok_inj in Hd as <-.
  unfold wf, data_bytes. cbn [timeout_ms flags create_guid]. rewrite len_sub by lia.
  split; [read_facts; done|]. split; [done|].
  assert (sub input 8 8 = replicate 8 x00) as <-.
  { apply (f_equal negb) in Hchk. cbn [negb] in Hchk.
    assert (forall l : bytes, existsb (fun b => negb (bool_decide (b = x00))) l = false ->
            l = replicate (length l) x00) as Hall.
    { induction l as [|b l IH]; [done|]. cbn. intros [Hb Hl']%orb_false_iff.
      apply negb_false_iff, bool_decide_eq_true in Hb as ->. f_equal. auto. }
    rewrite (Hall (sub input 8 8)) by (by destruct (existsb _ _)).
    f_equal. pose proof (len_sub input 8 8). unfold len in *. lia. }
  rewrite !le_bytes_le_at by lia. rewrite (sub_to_end input 16) by lia. by rejoin.
Qed.

End DurableHandleRequestV2.

Module DurableHandleReconnectV2.

Record t : Type := mk { file_id : FileId; create_guid : bytes; flags : Z }.

Definition new (file_id : FileId) (create_guid : bytes) : t :=
  {| file_id := file_id; create_guid := create_guid; flags := 0 |}.

Definition encode_data (r : t) : wire bytes :=
  let! _ := validate_flags (flags r) in
  let out := replicate (Z.to_nat DURABLE_HANDLE_RECONNECT_V2_DATA_SIZE) x00 in
  let! out := put_u64 out 0 (persistent (file_id r)) in
  let! out := put_u64 out 8 (volatile (file_id r)) in
  let! out := copy_from_slice out 16 32 (create_guid r) in
  put_u32 out 32 (flags r).

Definition decode_data (input : bytes) : wire t :=
  let! _ :=
    require_exact_len input DURABLE_HANDLE_RECONNECT_V2_DATA_SIZE "DH2C reconnect length" in
  let! flags := get_u32 input 32 in
  let! _ := validate_flags flags in
  let! create_guid := slice input 16 32 in
  let! persistent := get_u64 input 0 in
  let! volatile := get_u64 input 8 in
  Ok {| file_id := mkFileId persistent volatile; create_guid := create_guid; flags := flags |}.

Definition into_context (r : t) : wire CreateContext :=
  let! data := encode_data r in
  CreateContext_.new DURABLE_HANDLE_RECONNECT_V2_NAME data.

Definition from_context (context : CreateContext) : wire t :=
  let! _ := require_name context DURABLE_HANDLE_RECONNECT_V2_NAME "DH2C context name" in
  decode_data (data context).

Definition data_bytes (r : t) : bytes :=
  file_id_bytes (file_id r) ++ create_guid r ++ le_bytes 4 (flags r).

Definition wf (r : t) : Prop :=
  file_id_wf (file_id r) /\ u32 (flags r) /\ len (create_guid r) = 16.

Lemma durable_handle_reconnect_v2_encode_data_ok r :
  wf r -> encode_data r = let! _ := validate_flags (flags r) in Ok (data_bytes r).
Proof.
  intros (_ & _ & Hg). unfold encode_data. destruct (validate_flags _); [|done..].
  cbn [obind]. cbv zeta. unfold data_bytes, file_id_bytes. destruct r as [[pe vo] gu fl]. cbn in *.
  change (replicate (Z.to_nat DURABLE_HANDLE_RECONNECT_V2_DATA_SIZE) x00)
    with (replicate 16 x00 ++ replicate 16 x00 ++ replicate 4 x00).
  put_eval. rewrite copy_at by (done || rewrite Hg; done). cbn [obind].
  unfold put_u32, put_le. rewrite app_assoc, <- (app_nil_r (replicate 4 x00)).
  rewrite copy_at; [by rewrite <- !app_assoc, app_nil_r|len_lia|done|done].
Qed.

Lemma durable_handle_reconnect_v2_decode_data_bytes r :
  wf r -> validate_flags (flags r) = Ok tt -> decode_data (data_bytes r) = Ok r.
Proof.
  intros ([? ?] & ? & Hg) Hv.
  unfold decode_data, data_bytes, DURABLE_HANDLE_RECONNECT_V2_DATA_SIZE. get_unfold.
  rewrite require_exact_len_ok by len_lia. cbn [obind].
  oeval. unfold file_id_bytes. rewrite <- !app_assoc. read_fields. rewrite Hv. cbn [obind].
  oeval. read_fields.
  eassert (sub _ 16 16 = create_guid r) as -> by sub_at. by destruct r as [[]].
Qed.

Lemma durable_handle_reconnect_v2_decode_data_inv input r :
  decode_data input = Ok r ->
  wf r /\ validate_flags (flags r) = Ok tt /\ input = data_bytes r.
Proof.
  unfold decode_data. get_unfold. intros (u & Hl%require_exact_len_inv & Hd)%obind_ok.
  change DURABLE_HANDLE_RECONNECT_V2_DATA_SIZE with 36 in Hl. accept Hd.
  apply obind_ok in Hd as ([] & Hv & Hd). accept Hd. apply Ok_inj in Hd as <-.
  unfold wf, file_id_wf, data_bytes, file_id_bytes.
  cbn [file_id persistent volatile flags create_guid].
  rewrite len_sub by lia. split; [read_facts; done|]. split; [done|].
  rewrite <- !app_assoc, !le_bytes_le_at, (sub_to_end input 32) by lia. by rejoin.
Qed.

End DurableHandleReconnectV2.

Module DurableHandleResponseV2.

Record t : Type := mk { timeout_ms : Z; flags : Z }.

Definition decode_data (input : bytes) : wire t :=
  let! _ := require_exact_len input DURABLE_HANDLE_RESPONSE_V2_DATA_SIZE "DH2Q response length" in
  let! flags := get_u32 input 4 in
  let! _ := validate_flags flags in
  let! timeout_ms := get_u32 input 0 in
  Ok {| timeout_ms := timeout_ms; flags := flags |}.

Definition from_context (context : CreateContext) : wire t :=
  let! _ := require_name context DURABLE_HANDLE_REQUEST_V2_NAME "DH2Q context name" in
  decode_data (data context).

Lemma returns_from_context context : returns (from_context context).
Proof.
  unfold from_context. apply returns_bind; [auto with returns|intros _ _].
  unfold decode_data. get_unfold.
  apply returns_bind; [auto with returns|]. intros ? Hl%require_exact_len_inv.
  change DURABLE_HANDLE_RESPONSE_V2_DATA_SIZE with 8 in Hl. repeat returns_step.
Qed.

Lemma decode_data_ok timeout flags :
  u32 timeout -> u32 flags -> validate_flags flags = Ok tt ->
  decode_data (le_bytes 4 timeout ++ le_bytes 4 flags) = Ok (mk timeout flags).
Proof.
  intros ?? Hv. unfold decode_data, DURABLE_HANDLE_RESPONSE_V2_DATA_SIZE. get_unfold.
  rewrite require_exact_len_ok by len_lia. cbn [obind]. oeval. read_fields.
  rewrite Hv. cbn [obind]. oeval. by read_fields.
Qed.

End DurableHandleResponseV2.

(** ** CREATE with contexts *)

Definition CREATE_BUFFER_ALIGNMENT : Z := 8.

(** [align_up] of [create_with_contexts.rs]. *)
Definition align_buffer (value alignment : Z) : wire Z :=
  ok_or ((fun value => Z.land value (bit_not 64 (alignment - 1)))
           <$> checked_add usize_max value (alignment - 1))
        (InvalidField "CREATE buffer alignment overflow").

Definition encode_create_request_with_contexts (request : CreateRequest.t)
    (contexts : list CreateContext) (message_id session_id tree_id credit_request : Z) :
    wire bytes :=
  if is_empty contexts
  then CreateRequest.encode_message request message_id session_id tree_id credit_request else
  let! _ := CreateRequest.validate request in
  let! encoded_contexts := encode_create_contexts contexts in
  if is_empty encoded_contexts
  then Err (InvalidField "CREATE context encoder returned an empty list") else
  let! body := CreateRequest.encode_body request in
  let body :=
    if is_empty (CreateRequest.name request) then truncate body CREATE_REQUEST_FIXED_SIZE
    else body in
  let! contexts_body_offset := align_buffer (len body) CREATE_BUFFER_ALIGNMENT in
  let body := resize0 body contexts_body_offset in
  let! contexts_offset := ok_or (checked_add usize_max SMB2_HEADER_SIZE contexts_body_offset)
                                (InvalidField "CREATE CreateContextsOffset overflow") in
  let! v := ok_or (try_from u32_max contexts_offset)
                  (InvalidField "CREATE CreateContextsOffset") in
  let! body := put_u32 body 48 v in
  let! v := ok_or (try_from u32_max (len encoded_contexts))
                  (InvalidField "CREATE CreateContextsLength") in
  let! body := put_u32 body 52 v in
  let body := body ++ encoded_contexts in
  let! header :=
    encode_header (request_header Command.Create message_id session_id tree_id 0 credit_request) in
  Ok (header ++ body).

Definition decode_create_response_with_contexts (message : bytes) :
    wire (CreateResponse.t * list CreateContext) :=
  let! response := CreateResponse.decode_message message in
  if CreateResponse.create_contexts_length response =? 0 then Ok (response, []) else
  let! offset := ok_or (try_from usize_max (CreateResponse.create_contexts_offset response))
                       (InvalidField "CREATE CreateContextsOffset") in
  let! length := ok_or (try_from usize_max (CreateResponse.create_contexts_length response))
                       (InvalidField "CREATE CreateContextsLength") in
  let! minimum_offset := ok_or (checked_add usize_max SMB2_HEADER_SIZE CREATE_RESPONSE_FIXED_SIZE)
                               (InvalidField "CREATE response fixed-size overflow") in
  if (offset <? minimum_offset) || negb (offset mod CREATE_BUFFER_ALIGNMENT =? 0)
  then Err (InvalidOffset "CREATE CreateContexts" offset length (len message)) else
  let! '(range_start, range_end) :=
    checked_range (len message) "CREATE CreateContexts" offset length in
  let! list := slice message range_start range_end in
  let! contexts := decode_create_contexts list in
  if is_empty contexts
  then Err (InvalidField "CREATE response declared an empty context list") else
  Ok (response, contexts).

(** ** The wire format of a request with contexts *)

(** The name a request with contexts carries (an empty one takes no byte) and
    where its context list starts in the message. *)
Definition contexts_at (r : CreateRequest.t) : Z :=
  64 + align8 (56 + len (utf16_bytes (CreateRequest.name r))).

Definition request_with_contexts_bytes (r : CreateRequest.t) (h : Smb2Header) (list : bytes) :
    bytes :=
  header_bytes h ++ CreateRequest.fixed_bytes r (contexts_at r) (len list)
  ++ utf16_bytes (CreateRequest.name r)
  ++ zeros (contexts_at r - (120 + len (utf16_bytes (CreateRequest.name r)))) ++ list.

Lemma align_buffer_ok v :
  0 <= v -> v + 7 <= usize_max -> align_buffer v 8 = Ok (align8 v).
Proof.
  intros. unfold align_buffer. change (8 - 1) with 7.
  rewrite (proj2 (checked_add_some _ _ _ (v + 7))) by done. cbn.
  rewrite land_not_7 by (unfold usize_max in *; lia). done.
Qed.

Lemma contexts_at_mod r : contexts_at r mod 8 = 0.
Proof.
  unfold contexts_at. pose proof (align8_bounds (56 + len (utf16_bytes (CreateRequest.name r)))).
  div_lia.
Qed.

(** Patching the two context fields of an encoded body. *)
Lemma put_contexts_ok r rest o l :
  (let! b := put_u32 (CreateRequest.fixed_bytes r 0 0 ++ rest) 48 o in put_u32 b 52 l)
  = Ok (CreateRequest.fixed_bytes r o l ++ rest).
Proof.
  unfold CreateRequest.fixed_bytes.
  generalize (len (utf16_bytes (CreateRequest.name r))). intros n. destruct r. cbn.
  match goal with |- context [put_u32 (?f ++ rest) 48 o] =>
    let f' := eval lazy -[byte_of_Z Z.div] in f in change f with f' end.
  put_eval. reflexivity.
Qed.

Lemma encode_with_contexts_ok r contexts mid sid tid credit :
  contexts <> [] -> CreateRequest.validate r = Ok tt -> all_fit contexts ->
  len (list_bytes contexts) < 2 ^ 32 ->
  encode_create_request_with_contexts r contexts mid sid tid credit
  = Ok (request_with_contexts_bytes r (request_header Command.Create mid sid tid 0 credit)
          (list_bytes contexts)).
Proof.
  intros Hne Hv Hfit Hl. pose proof (CreateRequest.create_request_validate_name_len _ _ Hv) as Hn.
  pose proof (len_nonneg (utf16_bytes (CreateRequest.name r))) as Hn0.
  unfold encode_create_request_with_contexts.
  rewrite is_empty_len, (proj2 (Z.eqb_neq _ 0)) by (destruct contexts; [done|len_lia]).
  rewrite Hv. cbn [obind]. unfold encode_create_contexts.
  rewrite (proj2 (encode_loop_iff contexts [] (list_bytes contexts)))
    by (split; [right; unfold usize_max; rewrite len_nil; lia|done]).
  cbn [obind].
  assert (20 <= len (list_bytes contexts)) as Hl20.
  { destruct contexts as [|c rest]; [done|]. destruct Hfit as [?%fits_extent _].
    cbn [list_bytes]. pose proof (len_nonneg (list_bytes rest)). len_lia. }
  rewrite (is_empty_len (list_bytes contexts)), (proj2 (Z.eqb_neq _ 0)) by lia.
  rewrite (CreateRequest.create_request_encode_body_ok r tt Hv). cbn [obind]. cbv zeta.
  set (name := utf16_bytes (CreateRequest.name r)) in *.
  replace (if is_empty (CreateRequest.name r) then _ else _)
    with (CreateRequest.fixed_bytes r 0 0 ++ name).
  2:{ unfold CreateRequest.name_buffer. fold name. destruct (is_empty _) eqn:He; [|done].
      subst name. apply is_empty_true in He as ->. unfold truncate.
      by rewrite take_app_length'. }
  autorewrite with len. rewrite CreateRequest.len_fixed_bytes.
  pose proof (align8_bounds (56 + len name)) as [? ?].
  change CREATE_BUFFER_ALIGNMENT with 8.
  rewrite align_buffer_ok by (unfold usize_max; lia). cbn [obind].
  assert (resize0 (CreateRequest.fixed_bytes r 0 0 ++ name) (align8 (56 + len name))
          = (CreateRequest.fixed_bytes r 0 0 ++ name)
            ++ zeros (align8 (56 + len name) - (56 + len name))) as ->.
  { rewrite <- resize0_grow by lia. f_equal. rewrite len_app, CreateRequest.len_fixed_bytes. lia. }
  rewrite (proj2 (checked_add_some _ _ _ (contexts_at r)))
    by (unfold contexts_at, usize_max; fold name; change SMB2_HEADER_SIZE with 64; lia).
  cbn [ok_or obind].
  rewrite !try_from_ok by (unfold u32_max, contexts_at; fold name; lia). cbn [ok_or obind].
  rewrite <- app_assoc, <- obind_assoc, put_contexts_ok. cbn [obind].
  rewrite encode_request_header. cbn [obind]. f_equal. unfold request_with_contexts_bytes.
  fold name. rewrite <- !app_assoc. do 3 f_equal. unfold contexts_at. fold name. do 2 f_equal. lia.
Qed.

(** Whatever the request and its contexts, the encoder returns, and a message
    it makes has room for its header. *)
Lemma encode_create_request_meets r contexts mid sid tid credit :
  meets (encode_create_request_with_contexts r contexts mid sid tid credit)
    (fun m => 64 <= len m).
Proof.
  unfold encode_create_request_with_contexts.
  assert (forall b : bytes,
    meets (let! h := encode_header (request_header Command.Create mid sid tid 0 credit) in
           Ok (h ++ b)) (fun m => 64 <= len m)) as Hframe.
  { intros b. rewrite encode_request_header. cbn [obind meets].
    rewrite len_app, len_header_bytes by done. pose proof (len_nonneg b). lia. }
  destruct (is_empty contexts).
  { unfold CreateRequest.encode_message. destruct (CreateRequest.validate r) as [[]|e| |] eqn:Hv.
    - rewrite (CreateRequest.create_request_encode_body_ok r tt Hv). apply Hframe.
    - unfold CreateRequest.encode_body. by rewrite Hv.
    - pose proof (CreateRequest.create_request_returns_validate r) as Hr. by rewrite Hv in Hr.
    - pose proof (CreateRequest.create_request_returns_validate r) as Hr. by rewrite Hv in Hr. }
  apply meets_returns_bind; [apply CreateRequest.create_request_returns_validate|intros u Hv].
  pose proof (CreateRequest.create_request_validate_name_len _ _ Hv) as Hn.
  apply meets_returns_bind; [auto with returns|intros list _]. destruct (is_empty list); [done|].
  rewrite (CreateRequest.create_request_encode_body_ok r u Hv). cbn [obind]. cbv zeta.
  set (body := if is_empty _ then _ else _).
  assert (56 <= len body <= 65591) as Hb.
  { subst body. unfold truncate, CreateRequest.name_buffer.
    pose proof (len_nonneg (utf16_bytes (CreateRequest.name r))).
    destruct (is_empty _); autorewrite with len; rewrite CreateRequest.len_fixed_bytes;
      change CREATE_REQUEST_FIXED_SIZE with 56; lia. }
  pose proof (align8_bounds (len body)) as [? _]. change CREATE_BUFFER_ALIGNMENT with 8.
  rewrite align_buffer_ok by (unfold usize_max; lia). cbn [obind].
  pose proof (len_resize0 body (align8 (len body)) ltac:(lia)).
  unfold put_u32. repeat put_meets. apply Hframe.
Qed.

Lemma returns_decode_create_response_with_contexts message :
  returns (decode_create_response_with_contexts message).
Proof.
  unfold decode_create_response_with_contexts.
  apply returns_bind; [auto with returns|].
  intros r (Ho & Hl & _)%CreateResponse.decode_message_contexts. unfold uint in *.
  repeat returns_step.
Qed.

Lemma new_context_ok name data :
  4 <= len name <= 65535 -> len data < 2 ^ 32 ->
  CreateContext_.new name data = Ok (mkCreateContext name data).
Proof.
  intros. unfold CreateContext_.new, CreateContext_.validate, u16_max, u32_max. cbn.
  rewrite (proj2 (Z.ltb_ge _ _)) by lia. by rewrite !try_from_ok by lia.
Qed.

(** ** Properties *)

(** Durable-handle contexts round-trip: the DH2Q request and the DH2C
    reconnect payloads survive encoding into a CREATE context and decoding
    back, the flags word being refused exactly when it has a bit other than
    PERSISTENT; and the two kinds are never mistaken for each other. *)
Theorem durable_contexts_roundtrip (q : DurableHandleRequestV2.t)
    (c : DurableHandleReconnectV2.t)
    (Hq : DurableHandleRequestV2.wf q) (Hc : DurableHandleReconnectV2.wf c) :
  obind (DurableHandleRequestV2.into_context q) DurableHandleRequestV2.from_context
  = (let! _ := validate_flags (DurableHandleRequestV2.flags q) in Ok q) /\
  obind (DurableHandleReconnectV2.into_context c) DurableHandleReconnectV2.from_context
  = (let! _ := validate_flags (DurableHandleReconnectV2.flags c) in Ok c) /\
  is_ok (obind (DurableHandleRequestV2.into_context q) DurableHandleReconnectV2.from_context)
  = false /\
  is_ok (obind (DurableHandleReconnectV2.into_context c) DurableHandleRequestV2.from_context)
  = false.
Proof.
  unfold DurableHandleRequestV2.into_context, DurableHandleReconnectV2.into_context.
  rewrite DurableHandleRequestV2.durable_handle_request_v2_encode_data_ok, DurableHandleReconnectV2.durable_handle_reconnect_v2_encode_data_ok by done.
  pose proof (DurableHandleRequestV2.durable_handle_request_v2_decode_data_bytes q Hq) as Hdq.
  pose proof (DurableHandleReconnectV2.durable_handle_reconnect_v2_decode_data_bytes c Hc) as Hdc.
  assert (len (DurableHandleRequestV2.data_bytes q) = 32) as Hlq.
  { unfold DurableHandleRequestV2.data_bytes. destruct Hq as (_ & _ & ?). len_lia. }
  assert (len (DurableHandleReconnectV2.data_bytes c) = 36) as Hlc.
  { unfold DurableHandleReconnectV2.data_bytes. destruct Hc as (_ & _ & ?). len_lia. }
  pose proof (new_context_ok DURABLE_HANDLE_REQUEST_V2_NAME
    (DurableHandleRequestV2.data_bytes q) ltac:(done) ltac:(lia)) as Hnq.
  pose proof (new_context_ok DURABLE_HANDLE_RECONNECT_V2_NAME
    (DurableHandleReconnectV2.data_bytes c) ltac:(done) ltac:(lia)) as Hnc.
  unfold DurableHandleRequestV2.from_context, DurableHandleReconnectV2.from_context, require_name.
  destruct (validate_flags (DurableHandleRequestV2.flags q)) as [[]| | |];
    destruct (validate_flags (DurableHandleReconnectV2.flags c)) as [[]| | |]; cbn [obind];
    rewrite ?Hnq, ?Hnc; cbn [obind name data];
    rewrite ?(bool_decide_true (_ = _)), ?(bool_decide_false (_ = _)) by done; cbn [obind is_ok];
    rewrite ?Hdq, ?Hdc by done; done.
Qed.

Lemma durable_contexts_roundtrip_witness :
  obind (DurableHandleReconnectV2.into_context
           (DurableHandleReconnectV2.new (mkFileId 5 6) (replicate 16 x07)))
        DurableHandleReconnectV2.from_context
  = Ok (DurableHandleReconnectV2.new (mkFileId 5 6) (replicate 16 x07)).
Proof.
  apply (durable_contexts_roundtrip (DurableHandleRequestV2.new (replicate 16 x00))
           (DurableHandleReconnectV2.new (mkFileId 5 6) (replicate 16 x07)));
    repeat split; vm_compute; done.
Defined.

(** a CREATE request with contexts states where its context list is: at an
    8-byte aligned offset past the name, inside the message, and the list read
    there decodes to the contexts of the caller; the name and the fixed part are
    those of the context-free request. *)
Theorem create_with_contexts_wire (r : CreateRequest.t) (contexts : list CreateContext)
    (mid sid tid credit : Z)
    (Hne : contexts <> []) (Hv : CreateRequest.validate r = Ok tt) (Hfit : all_fit contexts)
    (Hl : len (list_bytes contexts) < 2 ^ 32)
    (Hmid : u64 mid) (Hsid : u64 sid) (Htid : u32 tid) (Hcr : u16 credit) :
  exists message,
    encode_create_request_with_contexts r contexts mid sid tid credit = Ok message /\
    decode_header message = Ok (request_header Command.Create mid sid tid 0 credit) /\
    let offset := le_at 4 message 112 in let length := le_at 4 message 116 in
    offset mod 8 = 0 /\ offset + length = len message /\
    120 + len (utf16_bytes (CreateRequest.name r)) <= offset /\
    sub message 120 (len (utf16_bytes (CreateRequest.name r)))
    = utf16_bytes (CreateRequest.name r) /\
    decode_create_contexts (sub message offset length) = Ok contexts.
Proof.
  pose proof (CreateRequest.create_request_validate_name_len _ _ Hv) as Hn.
  pose proof (len_nonneg (utf16_bytes (CreateRequest.name r))) as Hn0.
  eexists. split; [by apply encode_with_contexts_ok|].
  unfold request_with_contexts_bytes. set (h := request_header _ _ _ _ _ _).
  assert (header_wf h) as Hwf by by apply request_header_wf.
  pose proof (len_header_bytes h ltac:(apply Hwf)) as Hlh.
  split; [by apply decode_header_bytes|]. cbv zeta.
  pose proof (CreateRequest.len_fixed_bytes r (contexts_at r) (len (list_bytes contexts))) as Hlf.
  pose proof (align8_bounds (56 + len (utf16_bytes (CreateRequest.name r)))) as [Hal Hmod].
  pose proof (contexts_at_mod r) as Hcm.
  assert (120 + len (utf16_bytes (CreateRequest.name r)) <= contexts_at r < 2 ^ 32) as Hca
    by (unfold contexts_at; lia).
  assert (le_at 4 (header_bytes h ++ CreateRequest.fixed_bytes r (contexts_at r)
            (len (list_bytes contexts)) ++ utf16_bytes (CreateRequest.name r)
            ++ zeros (contexts_at r - (120 + len (utf16_bytes (CreateRequest.name r))))
            ++ list_bytes contexts) 112 = contexts_at r) as ->.
  { unfold CreateRequest.fixed_bytes. rewrite <- !app_assoc. field_at. }
  assert (le_at 4 (header_bytes h ++ CreateRequest.fixed_bytes r (contexts_at r)
            (len (list_bytes contexts)) ++ utf16_bytes (CreateRequest.name r)
            ++ zeros (contexts_at r - (120 + len (utf16_bytes (CreateRequest.name r))))
            ++ list_bytes contexts) 116 = len (list_bytes contexts)) as ->.
  { pose proof (len_nonneg (list_bytes contexts)).
    unfold CreateRequest.fixed_bytes. rewrite <- !app_assoc. field_at. }
  split; [done|]. split; [len_lia|]. split; [lia|]. split; [sub_at|].
  eassert (sub _ (contexts_at r) _ = list_bytes contexts) as -> by sub_at.
  apply decode_list_bytes; [done|]. right. unfold usize_max. lia.
Qed.

Lemma create_with_contexts_wire_witness :
  exists message,
    encode_create_request_with_contexts (CreateRequest.open_existing_read [0x6d; 0x1F600])
      [mkCreateContext DURABLE_HANDLE_REQUEST_V2_NAME [x01]] 4 9 2 1 = Ok message /\
    decode_create_contexts (sub message (le_at 4 message 112) (le_at 4 message 116))
    = Ok [mkCreateContext DURABLE_HANDLE_REQUEST_V2_NAME [x01]].
Proof.
  destruct (create_with_contexts_wire (CreateRequest.open_existing_read [0x6d; 0x1F600])
              [mkCreateContext DURABLE_HANDLE_REQUEST_V2_NAME [x01]] 4 9 2 1)
    as (m & He & _ & _ & _ & _ & _ & Hd);
    [done|by vm_compute|repeat split; vm_compute; done|by vm_compute|uint_solve..|].
  exists m. split; [exact He|exact Hd].
Defined.
