(* ===== verification/Negotiate.v ===== *)
(** * NEGOTIATE

    [crates/smb-wire/src/negotiate.rs]: the dialect list and the SMB 3.1.1
    negotiate contexts of a request, and the response with its security blob
    and contexts. *)
From S2P Require Import Prelude WireError Header CreateContext.

Definition NEGOTIATE_REQUEST_STRUCTURE_SIZE : Z := 36.
Definition NEGOTIATE_RESPONSE_STRUCTURE_SIZE : Z := 65.
Definition NEGOTIATE_RESPONSE_FIXED_SIZE : Z := 64.

Module security_mode.
Definition SIGNING_ENABLED : Z := 0x0001.
Definition SIGNING_REQUIRED : Z := 0x0002.
End security_mode.

Module capabilities.
Definition DFS : Z := 0x00000001.
Definition LEASING : Z := 0x00000002.
Definition LARGE_MTU : Z := 0x00000004.
Definition MULTI_CHANNEL : Z := 0x00000008.
Definition PERSISTENT_HANDLES : Z := 0x00000010.
Definition DIRECTORY_LEASING : Z := 0x00000020.
Definition ENCRYPTION : Z := 0x00000040.
End capabilities.

Module context_type.
Definition PREAUTH_INTEGRITY_CAPABILITIES : Z := 0x0001.
Definition ENCRYPTION_CAPABILITIES : Z := 0x0002.
Definition COMPRESSION_CAPABILITIES : Z := 0x0003.
Definition NETNAME_NEGOTIATE_CONTEXT_ID : Z := 0x0005.
Definition TRANSPORT_CAPABILITIES : Z := 0x0006.
Definition RDMA_TRANSFORM_CAPABILITIES : Z := 0x0007.
Definition SIGNING_CAPABILITIES : Z := 0x0008.
End context_type.

Module preauth_hash_algorithm.
Definition SHA_512 : Z := 0x0001.
End preauth_hash_algorithm.

Inductive Dialect : Type := Smb202 | Smb210 | Smb300 | Smb302 | Smb311.

#[export] Instance Dialect_eq_dec : EqDecision Dialect.
Proof. solve_decision. Defined.

(** [dialect as u16] and [Dialect::try_from]. *)
Definition dialect_value (d : Dialect) : Z :=
  match d with
  | Smb202 => 0x0202
  | Smb210 => 0x0210
  | Smb300 => 0x0300
  | Smb302 => 0x0302
  | Smb311 => 0x0311
  end.

Definition dialect_try_from (value : Z) : wire Dialect :=
  if value =? 0x0202 then Ok Smb202 else
  if value =? 0x0210 then Ok Smb210 else
  if value =? 0x0300 then Ok Smb300 else
  if value =? 0x0302 then Ok Smb302 else
  if value =? 0x0311 then Ok Smb311 else
  Err (Unsupported "SMB dialect").

Lemma dialect_roundtrip d : dialect_try_from (dialect_value d) = Ok d.
Proof. by destruct d. Qed.
Lemma dialect_try_from_inv v d : dialect_try_from v = Ok d -> v = dialect_value d.
Proof.
  unfold dialect_try_from.
  repeat match goal with |- (if ?v =? ?c then _ else _) = _ -> _ =>
    destruct (Z.eqb_spec v c) as [->|] end; naive_solver.
Qed.
Lemma returns_dialect_try_from v : returns (dialect_try_from v).
Proof. unfold dialect_try_from. repeat returns_step. Qed.
#[export] Hint Resolve returns_dialect_try_from : returns.

Module NegotiateContext.

Record t : Type := mk { context_type : Z; data : bytes }.

#[global] Instance eq_dec : EqDecision t.
Proof. solve_decision. Defined.

Definition preauth_sha512 (salt : bytes) : wire t :=
  let! salt_len := ok_or (try_from u16_max (len salt)) (InvalidField "preauth salt length") in
  Ok {| context_type := context_type.PREAUTH_INTEGRITY_CAPABILITIES;
        data := le_bytes 2 1 ++ le_bytes 2 salt_len
                ++ le_bytes 2 preauth_hash_algorithm.SHA_512 ++ salt |}.

End NegotiateContext.

(** [while (SMB2_HEADER_SIZE + body.len()) % 8 != 0 { body.push(0) }]; at most
    seven bytes are pushed. *)
Fixpoint pad_loop (fuel : nat) (body : bytes) : wire bytes :=
  if negb ((SMB2_HEADER_SIZE + len body) mod 8 =? 0)
  then match fuel with
       | O => OutOfFuel
       | S fuel => pad_loop fuel (body ++ [x00])
       end
  else Ok body.
Definition pad_to_8 (body : bytes) : wire bytes := pad_loop 8 body.

Module NegotiateRequest.

Record t : Type := mk {
  security_mode : Z;
  capabilities : Z;
  client_guid : bytes;
  dialects : list Dialect;
  contexts : list NegotiateContext.t
}.

Definition validate (r : t) : wire unit :=
  if is_empty (dialects r) then Err (InvalidField "DialectCount") else
  if u16_max <? len (dialects r) then Err (InvalidField "DialectCount") else
  if u16_max <? len (contexts r) then Err (InvalidField "NegotiateContextCount") else
  let has_311 := existsb (fun d => bool_decide (d = Smb311)) (dialects r) in
  let has_preauth :=
    existsb (fun ctx => NegotiateContext.context_type ctx
                        =? context_type.PREAUTH_INTEGRITY_CAPABILITIES) (contexts r) in
  if has_311 && negb has_preauth
  then Err (InvalidField "SMB 3.1.1 requires a preauthentication integrity context") else
  if negb has_311 && negb (is_empty (contexts r))
  then Err (InvalidField "negotiate contexts require SMB 3.1.1") else
  if existsb (fun ctx => u16_max <? len (NegotiateContext.data ctx)) (contexts r)
  then Err (InvalidField "NegotiateContext DataLength") else
  Ok tt.

(** The loop that appends the contexts, each padded to 8 bytes. *)
Fixpoint append_contexts (body : bytes) (contexts : list NegotiateContext.t) : wire bytes :=
  match contexts with
  | [] => Ok body
  | context :: rest =>
      let body := body ++ le_bytes 2 (NegotiateContext.context_type context)
                       ++ le_bytes 2 (len (NegotiateContext.data context) mod 2 ^ 16)
                       ++ le_bytes 4 0 ++ NegotiateContext.data context in
      let! body := pad_to_8 body in
      append_contexts body rest
  end.

Definition encode_body (r : t) : wire bytes :=
  let! _ := validate r in
  let dialect_count := len (dialects r) mod 2 ^ 16 in
  let context_count := len (contexts r) mod 2 ^ 16 in
  let body := replicate (Z.to_nat NEGOTIATE_REQUEST_STRUCTURE_SIZE) x00 in
  let! body := put_u16 body 0 NEGOTIATE_REQUEST_STRUCTURE_SIZE in
  let! body := put_u16 body 2 dialect_count in
  let! body := put_u16 body 4 (security_mode r) in
  let! body := put_u16 body 6 0 in
  let! body := put_u32 body 8 (capabilities r) in
  let! body := copy_from_slice body 12 28 (client_guid r) in
  let body := body ++ (dialects r ≫= fun dialect => le_bytes 2 (dialect_value dialect)) in
  if negb (is_empty (contexts r)) then
    let! body := pad_to_8 body in
    let! context_offset :=
      ok_or (checked_add usize_max SMB2_HEADER_SIZE (len body) ≫= try_from u32_max)
            (InvalidField "NegotiateContextOffset") in
    let! body := put_u32 body 28 context_offset in
    let! body := put_u16 body 32 context_count in
    append_contexts body (contexts r)
  else Ok body.

Definition encode_message (r : t) (message_id credit_request : Z) : wire bytes :=
  let! header := encode_header (request Command.Negotiate message_id 0 credit_request) in
  let! body := encode_body r in
  Ok (header ++ body).

End NegotiateRequest.

Definition align_up_8 (value : Z) : option Z :=
  (fun v => Z.land v (bit_not 64 7)) <$> checked_add usize_max value 7.

(** [for index in 0..count]: [remaining] counts down the iterations left. *)
Fixpoint decode_contexts_loop (remaining : nat) (message : bytes) (cursor : Z)
    (contexts : list NegotiateContext.t) : wire (list NegotiateContext.t) :=
  match remaining with
  | O => Ok contexts
  | S remaining =>
      let! '(header_start, header_end) :=
        checked_range (len message) "NegotiateContext" cursor 8 in
      let! header := slice message header_start header_end in
      let! context_type := get_u16 header 0 in
      let! data_len := get_u16 header 2 in
      let! data_start := add_or_panic usize_max cursor 8 in
      let! '(range_start, range_end) :=
        checked_range (len message) "NegotiateContext.Data" data_start data_len in
      let! data := slice message range_start range_end in
      let contexts := contexts ++ [NegotiateContext.mk context_type data] in
      let! cursor :=
        if (0 <? Z.of_nat remaining)
        then ok_or (align_up_8 range_end) (InvalidField "NegotiateContext alignment")
        else Ok cursor in
      decode_contexts_loop remaining message cursor contexts
  end.
Definition decode_contexts (message : bytes) (cursor count : Z) :
    wire (list NegotiateContext.t) :=
  decode_contexts_loop (Z.to_nat count) message cursor [].

Module NegotiateResponse.

Record t : Type := mk {
  header : Smb2Header;
  security_mode : Z;
  dialect : Dialect;
  server_guid : bytes;
  capabilities : Z;
  max_transact_size : Z;
  max_read_size : Z;
  max_write_size : Z;
  system_time : Z;
  server_start_time : Z;
  security_blob : bytes;
  contexts : list NegotiateContext.t
}.

Definition decode_message (message : bytes) : wire t :=
  let! _ := require_len message (SMB2_HEADER_SIZE + NEGOTIATE_RESPONSE_FIXED_SIZE) in
  let! header := decode_header message in
  if negb (bool_decide (command header = Command.Negotiate))
  then Err (InvalidField "NEGOTIATE response Command") else
  if negb (has_flag (hdr_flags header) flags.SERVER_TO_REDIR)
  then Err (InvalidField "NEGOTIATE response direction") else
  let! body := slice_from message SMB2_HEADER_SIZE in
  let! structure_size := get_u16 body 0 in
  if negb (structure_size =? NEGOTIATE_RESPONSE_STRUCTURE_SIZE)
  then Err (InvalidStructureSize NEGOTIATE_RESPONSE_STRUCTURE_SIZE structure_size) else
  let! dialect_value := get_u16 body 4 in
  let! dialect := dialect_try_from dialect_value in
  let! context_count := get_u16 body 6 in
  let! server_guid := slice body 8 24 in
  let! security_offset := get_u16 body 56 in
  let! security_len := get_u16 body 58 in
  let! security_blob :=
    if security_len =? 0 then Ok [] else
    let! '(range_start, range_end) :=
      checked_range (len message) "SecurityBuffer" security_offset security_len in
    slice message range_start range_end in
  let! context_offset := get_u32 body 60 in
  let! contexts :=
    if context_count =? 0 then Ok [] else
    if negb (bool_decide (dialect = Smb311))
    then Err (InvalidField "NegotiateContextCount on pre-SMB3.1.1 response") else
    if (context_offset =? 0) || negb (context_offset mod 8 =? 0)
    then Err (InvalidField "NegotiateContextOffset") else
    decode_contexts message context_offset context_count in
  let! security_mode := get_u16 body 2 in
  let! capabilities := get_u32 body 24 in
  let! max_transact_size := get_u32 body 28 in
  let! max_read_size := get_u32 body 32 in
  let! max_write_size := get_u32 body 36 in
  let! system_time := get_u64 body 40 in
  let! server_start_time := get_u64 body 48 in
  Ok {| header := header;
        security_mode := security_mode;
        dialect := dialect;
        server_guid := server_guid;
        capabilities := capabilities;
        max_transact_size := max_transact_size;
        max_read_size := max_read_size;
        max_write_size := max_write_size;
        system_time := system_time;
        server_start_time := server_start_time;
        security_blob := security_blob;
        contexts := contexts |}.

End NegotiateResponse.

(** ** The wire format of the contexts *)

Definition pad_len (n : Z) : Z := align8 n - n.

Definition context_bytes (c : NegotiateContext.t) : bytes :=
  le_bytes 2 (NegotiateContext.context_type c) ++ le_bytes 2 (len (NegotiateContext.data c))
  ++ le_bytes 4 0 ++ NegotiateContext.data c ++ zeros (pad_len (len (NegotiateContext.data c))).

Definition contexts_bytes (cs : list NegotiateContext.t) : bytes := cs ≫= context_bytes.

Definition context_ok (c : NegotiateContext.t) : Prop :=
  u16 (NegotiateContext.context_type c) /\ len (NegotiateContext.data c) <= 65535.

Lemma pad_len_range n : 0 <= pad_len n < 8 /\ (n + pad_len n) mod 8 = 0.
Proof. unfold pad_len. pose proof (align8_bounds n). replace (n + (align8 n - n)) with (align8 n) by lia. lia. Qed.

Lemma pad_len_shift k n : k mod 8 = 0 -> pad_len (k + n) = pad_len n.
Proof. unfold pad_len, align8. div_lia. Qed.

Lemma len_context_bytes_mod c : len (context_bytes c) mod 8 = 0 /\ 8 <= len (context_bytes c).
Proof.
  unfold context_bytes. autorewrite with len.
  pose proof (pad_len_range (len (NegotiateContext.data c))).
  pose proof (len_nonneg (NegotiateContext.data c)). split; [div_lia|lia].
Qed.

Lemma pad_loop_ok fuel body :
  pad_len (64 + len body) <= Z.of_nat fuel ->
  pad_loop fuel body = Ok (body ++ zeros (pad_len (64 + len body))).
Proof.
  revert body. induction fuel as [|fuel IH]; intros body Hf; cbn [pad_loop];
    change SMB2_HEADER_SIZE with 64;
    pose proof (pad_len_range (64 + len body)) as [? Hm];
    destruct (Z.eqb_spec ((64 + len body) mod 8) 0) as [Hz|Hz]; cbn [negb].
  1,3: assert (pad_len (64 + len body) = 0) as -> by (unfold pad_len, align8; div_lia);
    by rewrite app_nil_r.
  - replace (pad_len (64 + len body)) with 0 in Hm by lia. by rewrite Z.add_0_r in Hm.
  - assert (pad_len (64 + len (body ++ [x00])) = pad_len (64 + len body) - 1) as Hp
      by (unfold pad_len, align8 in *; autorewrite with len; div_lia).
    rewrite IH by lia. rewrite Hp, <- app_assoc. do 2 f_equal.
    change [x00] with (zeros 1). rewrite zeros_app by (unfold pad_len, align8 in *; div_lia).
    f_equal. lia.
Qed.

(** The padding loop ends within its fuel and aligns the next structure. *)
Lemma pad_to_8_ok body : pad_to_8 body = Ok (body ++ zeros (pad_len (64 + len body))).
Proof. apply pad_loop_ok. pose proof (pad_len_range (64 + len body)). lia. Qed.

Lemma append_contexts_ok body cs :
  (64 + len body) mod 8 = 0 -> Forall context_ok cs ->
  NegotiateRequest.append_contexts body cs = Ok (body ++ contexts_bytes cs).
Proof.
  intros Hb Hcs. revert body Hb. induction Hcs as [|c cs [_ Hc] _ IH]; intros body Hb.
  - cbn. by rewrite app_nil_r.
  - cbn [NegotiateRequest.append_contexts]. cbv zeta.
    pose proof (len_nonneg (NegotiateContext.data c)). rewrite Z.mod_small by lia.
    rewrite pad_to_8_ok. cbn [obind].
    match goal with |- context [pad_len ?n] =>
      replace (pad_len n) with (pad_len (len (NegotiateContext.data c))) end.
    2:{ autorewrite with len.
        rewrite <- (pad_len_shift (64 + len body + 8)) by div_lia. f_equal. lia. }
    rewrite IH.
    + unfold contexts_bytes. cbn. unfold context_bytes. by rewrite <- !app_assoc.
    + pose proof (pad_len_range (len (NegotiateContext.data c))). autorewrite with len. div_lia.
Qed.

(** ** The wire format of a request *)

Definition dialects_bytes (ds : list Dialect) : bytes :=
  ds ≫= fun dialect => le_bytes 2 (dialect_value dialect).

Definition fixed_bytes (r : NegotiateRequest.t) (offset count : Z) : bytes :=
  le_bytes 2 NEGOTIATE_REQUEST_STRUCTURE_SIZE ++ le_bytes 2 (len (NegotiateRequest.dialects r))
  ++ le_bytes 2 (NegotiateRequest.security_mode r) ++ le_bytes 2 0
  ++ le_bytes 4 (NegotiateRequest.capabilities r) ++ NegotiateRequest.client_guid r
  ++ le_bytes 4 offset ++ le_bytes 2 count ++ le_bytes 2 0.

(** Where the contexts start in the message: after the dialects, aligned. *)
Definition contexts_at (r : NegotiateRequest.t) : Z :=
  align8 (100 + 2 * len (NegotiateRequest.dialects r)).

Definition body_bytes (r : NegotiateRequest.t) : bytes :=
  if is_empty (NegotiateRequest.contexts r)
  then fixed_bytes r 0 0 ++ dialects_bytes (NegotiateRequest.dialects r)
  else fixed_bytes r (contexts_at r) (len (NegotiateRequest.contexts r))
       ++ dialects_bytes (NegotiateRequest.dialects r)
       ++ zeros (pad_len (100 + 2 * len (NegotiateRequest.dialects r)))
       ++ contexts_bytes (NegotiateRequest.contexts r).

Lemma len_dialects_bytes ds : len (dialects_bytes ds) = 2 * len ds.
Proof.
  unfold dialects_bytes. induction ds as [|d ds IH]; [done|].
  cbn [mbind list_bind]. rewrite len_app, len_cons, IH, len_le_bytes. lia.
Qed.
#[export] Hint Rewrite len_dialects_bytes : len.

Lemma negotiate_validate_inv r u :
  NegotiateRequest.validate r = Ok u ->
  0 < len (NegotiateRequest.dialects r) <= 65535 /\
  len (NegotiateRequest.contexts r) <= 65535 /\
  Forall (fun c => len (NegotiateContext.data c) <= 65535) (NegotiateRequest.contexts r) /\
  (Smb311 ∈ NegotiateRequest.dialects r <-> NegotiateRequest.contexts r <> []).
Proof.
  unfold NegotiateRequest.validate. cbv zeta. intros H. accept H. bool_facts. unfold u16_max in *.
  assert (0 < len (NegotiateRequest.dialects r)) by (destruct (NegotiateRequest.dialects r); [done|len_lia]).
  split; [lia|]. split; [lia|]. split.
  - apply Forall_forall. intros c Hc. destruct (Z.ltb_spec 65535 (len (NegotiateContext.data c))); [|lia].
    exfalso. apply not_true_iff_false in Hchk4. apply Hchk4, existsb_exists. exists c.
    split; [by apply list_elem_of_In|]. by apply Z.ltb_lt.
  - destruct (existsb _ (NegotiateRequest.dialects r)) eqn:H311.
    + apply existsb_exists in H311 as (d & Hd & ->%bool_decide_eq_true).
      split; [|intros _; by apply list_elem_of_In]. intros _ He. by rewrite He in Hchk2.
    + split.
      * intros Hin%list_elem_of_In. exfalso. apply not_true_iff_false in H311.
        apply H311, existsb_exists. exists Smb311. split; [done|by apply bool_decide_eq_true].
      * intros Hne. by destruct (NegotiateRequest.contexts r).
Qed.

Lemma negotiate_encode_body_ok r :
  NegotiateRequest.validate r = Ok tt -> len (NegotiateRequest.client_guid r) = 16 ->
  Forall (fun c => u16 (NegotiateContext.context_type c)) (NegotiateRequest.contexts r) ->
  NegotiateRequest.encode_body r = Ok (body_bytes r).
Proof.
  intros Hv Hg Ht. destruct (negotiate_validate_inv _ _ Hv) as (Hd & Hc & Hcd & _).
  assert (Forall context_ok (NegotiateRequest.contexts r)) as Hok.
  { apply Forall_forall. intros c Hin. rewrite Forall_forall in Ht, Hcd. split; auto. }
  unfold NegotiateRequest.encode_body. rewrite Hv. cbn [obind]. cbv zeta.
  pose proof (len_nonneg (NegotiateRequest.contexts r)).
  rewrite !Z.mod_small by lia. clear Hv Ht Hcd.
  fold (dialects_bytes (NegotiateRequest.dialects r)). unfold body_bytes, fixed_bytes.
  unfold contexts_at. destruct r as [se ca gu ds cs].
  cbn [NegotiateRequest.security_mode NegotiateRequest.capabilities NegotiateRequest.client_guid
       NegotiateRequest.dialects NegotiateRequest.contexts] in *.
  change (replicate (Z.to_nat NEGOTIATE_REQUEST_STRUCTURE_SIZE) x00)
    with (replicate 12 x00 ++ replicate 16 x00 ++ replicate 8 x00).
  pose proof (len_dialects_bytes ds) as Hdb. revert Hdb Hd.
  generalize (len ds) (dialects_bytes ds). clear ds. intros dc db Hdb Hd.
  put_eval. rewrite copy_at by (done || rewrite Hg; done). cbn [obind].
  match goal with |- context [?f ++ gu ++ replicate 8 _] => 
    change f with (le_bytes 2 36 ++ le_bytes 2 dc ++ le_bytes 2 se ++ le_bytes 2 0
                   ++ le_bytes 4 ca) end.
  set (front := le_bytes 2 36 ++ le_bytes 2 dc ++ le_bytes 2 se ++ le_bytes 2 0 ++ le_bytes 4 ca).
  assert (len front = 12) as Hfr by done.
  destruct (is_empty cs); cbn [negb]; [subst front; by rewrite <- !app_assoc|].
  rewrite pad_to_8_ok. cbn [obind].
  replace (64 + len ((front ++ gu ++ replicate 8 x00) ++ db)) with (100 + 2 * dc)
    by (autorewrite with len; lia).
  pose proof (pad_len_range (100 + 2 * dc)) as [Hp Hpm].
  rewrite (proj2 (checked_add_some _ _ _ (align8 (100 + 2 * dc)))).
  2:{ change SMB2_HEADER_SIZE with 64. unfold usize_max, pad_len in *. autorewrite with len. lia. }
  cbn [mbind option_bind].
  rewrite try_from_ok by (unfold u32_max, pad_len in *; lia). cbn [ok_or obind].
  replace (((front ++ gu ++ replicate 8 x00) ++ db) ++ zeros (pad_len (100 + 2 * dc)))
    with ((front ++ gu) ++ replicate 4 x00 ++ replicate 2 x00 ++ replicate 2 x00 ++ db
          ++ zeros (pad_len (100 + 2 * dc))) by (by rewrite <- !app_assoc).
  rewrite put_at by (done || len_lia). cbn [obind].
  rewrite (app_assoc (front ++ gu) (le_bytes 4 _)), put_at by (done || len_lia). cbn [obind].
  rewrite append_contexts_ok; [|autorewrite with len; div_lia|done].
  subst front. by rewrite <- !app_assoc.
Qed.

Lemma negotiate_encode_message_ok r mid credit :
  NegotiateRequest.validate r = Ok tt -> len (NegotiateRequest.client_guid r) = 16 ->
  Forall (fun c => u16 (NegotiateContext.context_type c)) (NegotiateRequest.contexts r) ->
  NegotiateRequest.encode_message r mid credit
  = Ok (header_bytes (request Command.Negotiate mid 0 credit) ++ body_bytes r).
Proof.
  intros. unfold NegotiateRequest.encode_message.
  rewrite encode_header_bytes by done. cbn [obind]. by rewrite negotiate_encode_body_ok.
Qed.

(** ** The contexts of a response *)

Lemma align_up_8_some v a :
  0 <= v -> align_up_8 v = Some a <-> a = align8 v /\ v + 7 <= usize_max.
Proof.
  intros. unfold align_up_8. rewrite fmap_Some. split.
  - intros (w & [-> ?]%checked_add_some & ->). split; [|done].
    rewrite land_not_7 by (unfold usize_max in *; lia). done.
  - intros [-> ?]. exists (v + 7). rewrite checked_add_some. split; [done|].
    by rewrite land_not_7 by (unfold usize_max in *; lia).
Qed.

Lemma negotiate_context_fields c rest :
  context_ok c -> let m := context_bytes c ++ rest in
  le_at 2 m 0 = NegotiateContext.context_type c /\
  le_at 2 m 2 = len (NegotiateContext.data c) /\
  sub m 8 (len (NegotiateContext.data c)) = NegotiateContext.data c.
Proof.
  intros [? ?]. cbv zeta. unfold context_bytes. rewrite <- !app_assoc.
  pose proof (len_nonneg (NegotiateContext.data c)). split; [field_at|]. split; [field_at|].
  sub_at.
Qed.

Lemma decode_contexts_loop_ok cs pre trailing acc :
  Forall context_ok cs -> len pre mod 8 = 0 ->
  len (pre ++ contexts_bytes cs ++ trailing) + 7 <= usize_max ->
  decode_contexts_loop (length cs) (pre ++ contexts_bytes cs ++ trailing) (len pre) acc
  = Ok (acc ++ cs).
Proof.
  intros Hcs. revert pre acc. induction Hcs as [|c cs Hc Hcs IH]; intros pre acc Hpre Htot.
  - cbn. by rewrite app_nil_r.
  - cbn [length decode_contexts_loop]. get_unfold. unfold contexts_bytes in *. cbn [mbind list_bind] in *.
    rewrite <- (app_assoc (context_bytes c)) in *.
    set (rest := mbind context_bytes cs ++ trailing) in *.
    pose proof (negotiate_context_fields c rest Hc) as (Ht & Hl & Hd). destruct Hc as [_ Hc].
    set (m := context_bytes c ++ rest) in *.
    pose proof (len_context_bytes_mod c) as [? ?]. pose proof (len_nonneg pre).
    pose proof (len_nonneg rest). pose proof (len_nonneg (NegotiateContext.data c)).
    assert (8 + len (NegotiateContext.data c) + pad_len (len (NegotiateContext.data c))
            = len (context_bytes c)) as Hlc.
    { unfold context_bytes. pose proof (pad_len_range (len (NegotiateContext.data c))). len_lia. }
    pose proof (pad_len_range (len (NegotiateContext.data c))) as [? ?].
    assert (len m = len (context_bytes c) + len rest) as Hm by (subst m; len_lia).
    autorewrite with len in Htot.
    rewrite checked_range_ok by (autorewrite with len; lia). cbn [obind].
    rewrite (slice_sub _ _ _ 8) by (autorewrite with len; lia). cbn [obind].
    rewrite !get_le_ok by (rewrite ?len_sub; autorewrite with len; lia). cbn [obind].
    rewrite !le_at_sub, !(le_at_app_r _ pre) by lia.
    replace (len pre + 0 - len pre) with 0 by lia. replace (len pre + 2 - len pre) with 2 by lia.
    rewrite Ht, Hl. unfold add_or_panic.
    rewrite (proj2 (Z.leb_le (len pre + 8) usize_max)) by lia. cbn [obind].
    rewrite checked_range_ok by (autorewrite with len; lia). cbn [obind].
    rewrite (slice_sub _ _ _ (len (NegotiateContext.data c))) by (autorewrite with len; lia).
    cbn [obind]. rewrite sub_app_r by lia. replace (len pre + 8 - len pre) with 8 by lia.
    rewrite Hd. cbv zeta.
    replace (NegotiateContext.mk _ _) with c by (by destruct c).
    destruct cs as [|c' cs'].
    + cbn. done.
    + rewrite (proj2 (Z.ltb_lt 0 _)) by (simpl; lia).
      rewrite (proj2 (align_up_8_some (len pre + 8 + len (NegotiateContext.data c))
                        (len pre + len (context_bytes c)) ltac:(lia))).
      2:{ unfold pad_len in *. split; [unfold align8 in *; div_lia|lia]. }
      cbn [ok_or obind]. subst m.
      replace (len pre + len (context_bytes c)) with (len (pre ++ context_bytes c)) by len_lia.
      rewrite app_assoc, IH; [by rewrite <- app_assoc| |].
      * autorewrite with len. div_lia.
      * subst rest. autorewrite with len in *. lia.
Qed.

Lemma decode_contexts_at pre cs trailing offset :
  Forall context_ok cs -> len pre = offset -> offset mod 8 = 0 ->
  len (pre ++ contexts_bytes cs ++ trailing) + 7 <= usize_max ->
  decode_contexts (pre ++ contexts_bytes cs ++ trailing) offset (len cs) = Ok cs.
Proof.
  intros ? <- ??. unfold decode_contexts.
  replace (Z.to_nat (len cs)) with (length cs) by (unfold len; lia).
  by apply (decode_contexts_loop_ok cs pre trailing []).
Qed.

Lemma len_contexts_bytes cs :
  Forall context_ok cs -> 0 <= len (contexts_bytes cs) <= 65550 * len cs.
Proof.
  unfold contexts_bytes. induction 1 as [|c cs [_ Hc] _ IH]; [done|].
  cbn [mbind list_bind]. rewrite len_app, len_cons.
  pose proof (pad_len_range (len (NegotiateContext.data c))).
  pose proof (len_nonneg (NegotiateContext.data c)).
  assert (len (context_bytes c) <= 65550) by (unfold context_bytes; len_lia).
  pose proof (len_nonneg (context_bytes c)). lia.
Qed.

(** The bytes a list of contexts takes at least. *)
Fixpoint contexts_weight (cs : list NegotiateContext.t) : Z :=
  match cs with
  | [] => 0
  | c :: rest => 8 + len (NegotiateContext.data c) + contexts_weight rest
  end.

Lemma decode_contexts_loop_meets n message cursor acc :
  0 <= cursor ->
  meets (decode_contexts_loop n message cursor acc) (fun cs =>
    exists more, cs = acc ++ more /\ length more = n /\ Forall context_ok more /\
      (more <> [] -> cursor + contexts_weight more <= len message)).
Proof.
  revert cursor acc. induction n as [|n IH]; intros cursor acc Hcur; cbn [decode_contexts_loop].
  - cbn [meets]. exists []. by rewrite app_nil_r.
  - get_unfold. apply meets_returns_bind; [auto with returns|]. intros [a b] Hr.
    pose proof Hr as (-> & -> & Hin)%checked_range_inv.
    assert (cursor + 8 <= usize_max) as Hmax.
    { unfold checked_range in Hr. apply obind_ok in Hr as (e & He & _).
      by apply ok_or_ok, checked_add_some in He as [_ ?]. }
    meets_step. replace (cursor + 8 - cursor) with 8 by lia.
    pose proof (len_sub message cursor 8 ltac:(lia) ltac:(lia) ltac:(lia)).
    do 2 meets_step. unfold add_or_panic. rewrite (proj2 (Z.leb_le (cursor + 8) usize_max)) by lia.
    meets_step. meets_step. meets_step. cbv zeta.
    read_facts. set (c := NegotiateContext.mk _ _).
    assert (context_ok c) as Hc.
    { subst c. split; [done|]. cbn [NegotiateContext.data]. rewrite len_sub by lia. lia. }
    assert (cursor + 8 + len (NegotiateContext.data c) <= len message) as Hw.
    { subst c. cbn [NegotiateContext.data]. rewrite len_sub by lia. lia. }
    assert (cursor + 8 + le_at 2 (sub message cursor 8) 2
            = cursor + 8 + len (NegotiateContext.data c)) as ->.
    { subst c. cbn [NegotiateContext.data]. rewrite len_sub by lia. lia. }
    pose proof (len_nonneg (NegotiateContext.data c)). clearbody c.
    destruct (Z.ltb_spec 0 (Z.of_nat n)).
    + destruct (align_up_8 _) as [next|] eqn:Ha; cbn [ok_or obind]; [|exact I].
      apply align_up_8_some in Ha as [-> _]; [|lia].
      pose proof (align8_bounds (cursor + 8 + len (NegotiateContext.data c))).
      eapply meets_mono; [apply IH; lia|].
      intros cs (more & -> & Hn & Hall & Hmore). exists (c :: more).
      rewrite <- app_assoc. split; [done|]. split; [simpl; lia|]. split; [by constructor|].
      intros _. cbn. destruct more; [simpl in *; lia|]. specialize (Hmore ltac:(done)). lia.
    + destruct n; [|simpl in *; lia]. cbn [obind decode_contexts_loop meets].
      exists [c]. split; [done|]. split; [done|]. split; [by apply Forall_singleton|]. cbn. lia.
Qed.

Lemma returns_decode_contexts message cursor count :
  0 <= cursor -> returns (decode_contexts message cursor count).
Proof. intros. by eapply meets_returns, decode_contexts_loop_meets. Qed.

(** What an accepted response says about its message. *)
Definition response_spec (message : bytes) (r : NegotiateResponse.t) : Prop :=
  header_wf (NegotiateResponse.header r) /\
  header_bytes (NegotiateResponse.header r) = sub message 0 64 /\
  command (NegotiateResponse.header r) = Command.Negotiate /\
  has_flag (hdr_flags (NegotiateResponse.header r)) flags.SERVER_TO_REDIR = true /\
  le_at 2 message 68 = dialect_value (NegotiateResponse.dialect r) /\
  NegotiateResponse.security_mode r = le_at 2 message 66 /\
  NegotiateResponse.server_guid r = sub message 72 16 /\
  NegotiateResponse.capabilities r = le_at 4 message 88 /\
  NegotiateResponse.max_transact_size r = le_at 4 message 92 /\
  NegotiateResponse.max_read_size r = le_at 4 message 96 /\
  NegotiateResponse.max_write_size r = le_at 4 message 100 /\
  len (NegotiateResponse.security_blob r) = le_at 2 message 122 /\
  (NegotiateResponse.security_blob r <> [] ->
   NegotiateResponse.security_blob r
   = sub message (le_at 2 message 120) (le_at 2 message 122)) /\
  len (NegotiateResponse.contexts r) = le_at 2 message 70 /\
  Forall context_ok (NegotiateResponse.contexts r) /\
  (NegotiateResponse.contexts r <> [] ->
   NegotiateResponse.dialect r = Smb311 /\
   le_at 4 message 124 mod 8 = 0 /\ le_at 4 message 124 <> 0 /\
   le_at 4 message 124 + contexts_weight (NegotiateResponse.contexts r) <= len message).

Lemma response_meets message :
  meets (NegotiateResponse.decode_message message) (response_spec message).
Proof.
  unfold NegotiateResponse.decode_message, NEGOTIATE_RESPONSE_FIXED_SIZE. get_unfold.
  meets_step. apply meets_returns_bind; [auto with returns|].
  intros h (_ & Hwf & _ & Hh)%decode_header_inv.
  do 6 meets_step; try exact I.
  apply meets_returns_bind; [auto with returns|]. intros d Hd%dialect_try_from_inv.
  do 4 meets_step. apply meets_bind.
  set (body := drop _ message) in *.
  assert (len body = len message - 64) as Hlb by (subst body; len_lia).
  apply (meets_mono _ (fun blob => len blob = le_at 2 body 58 /\
    (blob <> [] -> blob = sub message (le_at 2 body 56) (le_at 2 body 58)))).
  { pose proof (le_at_range 2 body 56 ltac:(lia) ltac:(len_lia)).
    pose proof (le_at_range 2 body 58 ltac:(lia) ltac:(len_lia)).
    destruct (Z.eqb_spec (le_at 2 body 58) 0) as [->|]; [by cbn|].
    meets_step. rewrite (slice_sub _ _ _ (le_at 2 body 58)) by lia. cbn [meets].
    split; [by rewrite len_sub by lia|done]. }
  intros blob [Hbl Hblob]. meets_step. apply meets_bind.
  apply (meets_mono _ (fun cs => len cs = le_at 2 body 6 /\ Forall context_ok cs /\
    (cs <> [] -> d = Smb311 /\ le_at 4 body 60 mod 8 = 0 /\ le_at 4 body 60 <> 0 /\
       le_at 4 body 60 + contexts_weight cs <= len message))).
  { pose proof (le_at_range 2 body 6 ltac:(lia) ltac:(len_lia)).
    pose proof (le_at_range 4 body 60 ltac:(lia) ltac:(len_lia)).
    destruct (Z.eqb_spec (le_at 2 body 6) 0) as [->|]; [by cbn|].
    do 2 (meets_step; [exact I|]). bool_facts.
    eapply meets_mono; [apply decode_contexts_loop_meets; lia|].
    intros cs (more & -> & Hn & Hall & Hw). cbn [app]. split; [unfold len; lia|].
    split; [done|]. intros Hne. by specialize (Hw Hne). }
  intros cs (Hcl & Hcs & Hcw). do 7 meets_step. cbn [meets]. subst body. body_offsets.
  bool_facts. unfold response_spec.
  cbn [NegotiateResponse.header NegotiateResponse.dialect NegotiateResponse.security_mode
       NegotiateResponse.server_guid NegotiateResponse.capabilities
       NegotiateResponse.max_transact_size NegotiateResponse.max_read_size
       NegotiateResponse.max_write_size NegotiateResponse.security_blob
       NegotiateResponse.contexts].
  rewrite sub_drop by lia. by repeat (split; [done|]).
Qed.

Lemma returns_negotiate_response message : returns (NegotiateResponse.decode_message message).
Proof. eapply meets_returns, response_meets. Qed.
#[export] Hint Resolve returns_negotiate_response : returns.

(** ** Properties *)

(** A NEGOTIATE request carries its dialects and, exactly when SMB 3.1.1 is
    offered, its contexts: the header decodes, the dialect list is at byte 100,
    and the context decoder, run on the offset and the count the message
    states, recovers the contexts of the caller. *)
Theorem negotiate_request_wire (r : NegotiateRequest.t) (mid credit : Z)
    (Hv : NegotiateRequest.validate r = Ok tt)
    (Hg : len (NegotiateRequest.client_guid r) = 16)
    (Ht : Forall (fun c => u16 (NegotiateContext.context_type c)) (NegotiateRequest.contexts r))
    (Hmid : u64 mid) (Hcr : u16 credit) :
  exists message,
    NegotiateRequest.encode_message r mid credit = Ok message /\
    decode_header message = Ok (request Command.Negotiate mid 0 credit) /\
    le_at 2 message 66 = len (NegotiateRequest.dialects r) /\
    sub message 100 (2 * len (NegotiateRequest.dialects r))
    = dialects_bytes (NegotiateRequest.dialects r) /\
    (Smb311 ∈ NegotiateRequest.dialects r <-> NegotiateRequest.contexts r <> []) /\
    (NegotiateRequest.contexts r <> [] -> le_at 4 message 92 mod 8 = 0) /\
    decode_contexts message (le_at 4 message 92) (le_at 2 message 96)
    = Ok (NegotiateRequest.contexts r).
Proof.
  destruct (negotiate_validate_inv _ _ Hv) as (Hd & Hc & Hcd & H311).
  eexists. split; [by apply negotiate_encode_message_ok|].
  set (h := request Command.Negotiate mid 0 credit).
  assert (header_wf h) as Hwf by (subst h; unfold header_wf; cbn; by split_and!).
  pose proof (len_header_bytes h ltac:(apply Hwf)) as Hlh.
  split; [by apply decode_header_bytes|].
  pose proof (len_nonneg (NegotiateRequest.contexts r)).
  pose proof (pad_len_range (100 + 2 * len (NegotiateRequest.dialects r))) as [Hp Hpm].
  unfold body_bytes, fixed_bytes.
  destruct (is_empty (NegotiateRequest.contexts r)) eqn:He; rewrite <- !app_assoc.
  - apply is_empty_true in He. split; [field_at|]. split; [sub_at|]. split; [done|].
    split; [by rewrite He|]. field_is 2%nat 96 0. by rewrite He.
  - assert (0 <= contexts_at r < 2 ^ 32) as Hca by (unfold contexts_at, pad_len in *; lia).
    split; [field_at|]. split; [sub_at|]. split; [done|].
    field_is 4%nat 92 (contexts_at r).
    field_is 2%nat 96 (len (NegotiateRequest.contexts r)).
    split; [intros _; apply align8_bounds|].
    set (cs := NegotiateRequest.contexts r) in *.
    assert (Forall context_ok cs) as Hok.
    { apply Forall_forall. intros c Hin. rewrite Forall_forall in Ht, Hcd. split; auto. }
    pose proof (len_contexts_bytes cs Hok).
    match goal with |- decode_contexts (?a ++ ?b1 ++ ?b2 ++ ?b3 ++ ?b4 ++ ?b5 ++ ?b6 ++ ?b7 ++ ?b8
                        ++ ?b9 ++ ?c ++ ?z ++ ?l) _ _ = _ =>
      pose (pre := a ++ b1 ++ b2 ++ b3 ++ b4 ++ b5 ++ b6 ++ b7 ++ b8 ++ b9 ++ c ++ z);
      replace (a ++ b1 ++ b2 ++ b3 ++ b4 ++ b5 ++ b6 ++ b7 ++ b8 ++ b9 ++ c ++ z ++ l)
        with (pre ++ contexts_bytes cs ++ [])
        by (unfold pre; rewrite app_nil_r, <- !app_assoc; done)
    end.
    assert (len pre = contexts_at r) as Hpre
      by (unfold pre, contexts_at, pad_len in *; len_lia).
    clearbody pre. apply decode_contexts_at; [done|done|apply align8_bounds|].
    unfold usize_max, contexts_at, pad_len in *. autorewrite with len. rewrite Hpre. lia.
Qed.

Lemma negotiate_request_wire_witness :
  exists message,
    NegotiateRequest.encode_message
      (NegotiateRequest.mk 1 4 (replicate 16 x07) [Smb302; Smb311]
         [NegotiateContext.mk 1 [x01; x00; x01]; NegotiateContext.mk 8 [x01]]) 0 1 = Ok message /\
    decode_contexts message (le_at 4 message 92) (le_at 2 message 96)
    = Ok [NegotiateContext.mk 1 [x01; x00; x01]; NegotiateContext.mk 8 [x01]].
Proof.
  destruct (negotiate_request_wire
    (NegotiateRequest.mk 1 4 (replicate 16 x07) [Smb302; Smb311]
         [NegotiateContext.mk 1 [x01; x00; x01]; NegotiateContext.mk 8 [x01]]) 0 1)
    as (m & He & _ & _ & _ & _ & _ & Hd);
    [by vm_compute|by vm_compute|repeat constructor; vm_compute; done|uint_solve..|].
  exists m. split; [exact He|exact Hd].
Defined.

(** the NEGOTIATE response decoder is total and reads what the message
    says: fixed fields at their offsets, a security blob inside the message,
    and as many contexts as the count states, each inside the message, which
    only an SMB 3.1.1 response may carry, from a non-zero 8-byte aligned
    offset. *)
Theorem negotiate_response_sound (message : bytes) :
  returns (NegotiateResponse.decode_message message) /\
  (forall r, NegotiateResponse.decode_message message = Ok r -> response_spec message r).
Proof. apply meets_iff, response_meets. Qed.
