(* ===== verification/Query.v ===== *)
(** * QUERY_DIRECTORY and QUERY_INFO

    [crates/smb-wire/src/query_directory.rs] and [query_info.rs]: requests with
    a search pattern or an input buffer, and the two responses, which share one
    layout: an output buffer at an offset of the message. *)
From S2P Require Import Prelude WireError Utf16 Header Create.

Definition QUERY_DIRECTORY_REQUEST_STRUCTURE_SIZE : Z := 33.
Definition QUERY_DIRECTORY_REQUEST_FIXED_SIZE : Z := 32.
Definition QUERY_DIRECTORY_RESPONSE_STRUCTURE_SIZE : Z := 9.
Definition QUERY_DIRECTORY_RESPONSE_FIXED_SIZE : Z := 8.

Module query_directory_flags.
Definition NONE : Z := 0x00.
Definition RESTART_SCANS : Z := 0x01.
Definition RETURN_SINGLE_ENTRY : Z := 0x02.
Definition INDEX_SPECIFIED : Z := 0x04.
Definition REOPEN : Z := 0x10.
End query_directory_flags.

Module file_information_class.
Definition DIRECTORY_INFORMATION : Z := 0x01.
Definition FULL_DIRECTORY_INFORMATION : Z := 0x02.
Definition BOTH_DIRECTORY_INFORMATION : Z := 0x03.
Definition NAMES_INFORMATION : Z := 0x0c.
Definition ID_BOTH_DIRECTORY_INFORMATION : Z := 0x25.
Definition ID_FULL_DIRECTORY_INFORMATION : Z := 0x26.
Definition ID_EXTD_DIRECTORY_INFORMATION : Z := 0x3c.
End file_information_class.

Module QueryDirectoryRequest.

Record t : Type := mk {
  file_information_class : Z;
  flags : Z;
  file_index : Z;
  file_id : FileId;
  file_name : rust_string;
  output_buffer_length : Z
}.

Definition new (file_id : FileId) (file_information_class : Z) (file_name : rust_string)
    (output_buffer_length : Z) : t :=
  {| file_information_class := file_information_class;
     flags := query_directory_flags.NONE;
     file_index := 0;
     file_id := file_id;
     file_name := file_name;
     output_buffer_length := output_buffer_length |}.

Definition known_flags : Z :=
  Z.lor (Z.lor (Z.lor query_directory_flags.RESTART_SCANS query_directory_flags.RETURN_SINGLE_ENTRY)
               query_directory_flags.INDEX_SPECIFIED) query_directory_flags.REOPEN.

Definition validate (r : t) : wire unit :=
  if is_zero (file_id r) then Err (InvalidField "QUERY_DIRECTORY FileId") else
  if contains 0 (file_name r)
  then Err (InvalidField "QUERY_DIRECTORY FileName must not contain NUL") else
  let! file_name_len := ok_or (checked_mul usize_max (len (encode_utf16 (file_name r))) 2)
                              (InvalidField "QUERY_DIRECTORY FileNameLength overflow") in
  if u16_max <? file_name_len then Err (InvalidField "QUERY_DIRECTORY FileNameLength") else
  if has_flag (flags r) (bit_not 8 known_flags)
  then Err (InvalidField "QUERY_DIRECTORY Flags") else
  if negb (has_flag (flags r) query_directory_flags.INDEX_SPECIFIED)
     && negb (file_index r =? 0)
  then Err (InvalidField "QUERY_DIRECTORY FileIndex requires INDEX_SPECIFIED") else Ok tt.

Definition encode_body (r : t) : wire bytes :=
  let! _ := validate r in
  let file_name := utf16_bytes (file_name r) in
  let body := replicate (Z.to_nat QUERY_DIRECTORY_REQUEST_FIXED_SIZE) x00 in
  let! body := put_u16 body 0 QUERY_DIRECTORY_REQUEST_STRUCTURE_SIZE in
  let! body := put_le 1 body 2 (file_information_class r) in
  let! body := put_le 1 body 3 (flags r) in
  let! body := put_u32 body 4 (file_index r) in
  let! body := put_u64 body 8 (persistent (file_id r)) in
  let! body := put_u64 body 16 (volatile (file_id r)) in
  let! body :=
    if is_empty file_name then
      let! body := put_u16 body 24 0 in put_u16 body 26 0
    else
      let! v := ok_or (try_from u16_max (SMB2_HEADER_SIZE + QUERY_DIRECTORY_REQUEST_FIXED_SIZE))
                      (InvalidField "QUERY_DIRECTORY FileNameOffset") in
      let! body := put_u16 body 24 v in
      let! v := ok_or (try_from u16_max (len file_name))
                      (InvalidField "QUERY_DIRECTORY FileNameLength") in
      put_u16 body 26 v in
  let! body := put_u32 body 28 (output_buffer_length r) in
  Ok (if is_empty file_name then body ++ [x00] else body ++ file_name).

Definition encode_message (r : t)
    (message_id session_id tree_id credit_charge credit_request : Z) : wire bytes :=
  let header := request_header Command.QueryDirectory message_id session_id tree_id
                               credit_charge credit_request in
  let! body := encode_body r in
  let! header := encode_header header in
  Ok (header ++ body).

Definition body_bytes (r : t) : bytes :=
  le_bytes 2 QUERY_DIRECTORY_REQUEST_STRUCTURE_SIZE ++ le_bytes 1 (file_information_class r)
  ++ le_bytes 1 (flags r) ++ le_bytes 4 (file_index r) ++ file_id_bytes (file_id r)
  ++ le_bytes 2 (if is_empty (file_name r) then 0 else 96)
  ++ le_bytes 2 (len (utf16_bytes (file_name r))) ++ le_bytes 4 (output_buffer_length r)
  ++ (if is_empty (file_name r) then [x00] else utf16_bytes (file_name r)).
#[global] Arguments body_bytes : simpl never.

Definition wf (r : t) : Prop :=
  u8 (file_information_class r) /\ u8 (flags r) /\ u32 (file_index r) /\
  file_id_wf (file_id r) /\ valid_string (file_name r) /\ u32 (output_buffer_length r).

Lemma query_directory_request_validate_name_len r u : validate r = Ok u -> len (utf16_bytes (file_name r)) <= 65535.
Proof.
  unfold validate. intros H. accept H. bool_facts. rewrite len_utf16_bytes.
  unfold u16_max in *. lia.
Qed.

Lemma query_directory_request_encode_body_ok r : encode_body r = let! _ := validate r in Ok (body_bytes r).
Proof.
  unfold encode_body. destruct (validate r) as [u|e| |] eqn:Hv; [|done..].
  pose proof (query_directory_request_validate_name_len r u Hv) as Hn. cbn [obind]. cbv zeta. clear Hv.
  rewrite CreateRequest.is_empty_utf16_bytes.
  rewrite !try_from_ok by
    (unfold u16_max, SMB2_HEADER_SIZE, QUERY_DIRECTORY_REQUEST_FIXED_SIZE; lia).
  unfold body_bytes, file_id_bytes.
  assert (is_empty (file_name r) = true -> len (utf16_bytes (file_name r)) = 0) as He
    by (by intros ->%is_empty_true).
  destruct r as [cl fl ix [pe vo] nm ob]. cbn in *. clear Hn.
  destruct (is_empty nm).
  - rewrite He by done. put_eval. reflexivity.
  - clear He. generalize (len (utf16_bytes nm)) (utf16_bytes nm). intros nl nb.
    put_eval. reflexivity.
Qed.

Lemma query_directory_request_encode_message_ok r mid sid tid charge credit :
  encode_message r mid sid tid charge credit
  = let! _ := validate r in
    Ok (header_bytes (request_header Command.QueryDirectory mid sid tid charge credit)
        ++ body_bytes r).
Proof.
  unfold encode_message. cbv zeta. rewrite query_directory_request_encode_body_ok, encode_request_header.
  by destruct (validate r).
Qed.

End QueryDirectoryRequest.

Module QueryDirectoryResponse.

Record t : Type := mk { header : Smb2Header; output_buffer : bytes }.

Definition decode_message (message : bytes) : wire t :=
  let! _ := require_len message (SMB2_HEADER_SIZE + QUERY_DIRECTORY_RESPONSE_FIXED_SIZE) in
  let! header := decode_header message in
  if negb (bool_decide (command header = Command.QueryDirectory))
  then Err (InvalidField "QUERY_DIRECTORY response Command") else
  if negb (has_flag (hdr_flags header) flags.SERVER_TO_REDIR)
  then Err (InvalidField "QUERY_DIRECTORY response direction") else
  let! body := slice_from message SMB2_HEADER_SIZE in
  let! structure_size := get_u16 body 0 in
  if negb (structure_size =? QUERY_DIRECTORY_RESPONSE_STRUCTURE_SIZE)
  then Err (InvalidStructureSize QUERY_DIRECTORY_RESPONSE_STRUCTURE_SIZE structure_size) else
  let! output_offset := get_u16 body 2 in
  let! output_length_u32 := get_u32 body 4 in
  let! output_length := ok_or (try_from usize_max output_length_u32)
                              (InvalidField "QUERY_DIRECTORY OutputBufferLength") in
  let! output_buffer :=
    if output_length =? 0 then
      if negb (output_offset =? 0)
      then Err (InvalidField "QUERY_DIRECTORY zero-length output has nonzero offset")
      else Ok []
    else
      if output_offset <? SMB2_HEADER_SIZE + QUERY_DIRECTORY_RESPONSE_FIXED_SIZE
      then Err (InvalidField "QUERY_DIRECTORY OutputBufferOffset before response buffer") else
      let! '(range_start, range_end) :=
        checked_range (len message) "QUERY_DIRECTORY Buffer" output_offset output_length in
      slice message range_start range_end in
  Ok {| header := header; output_buffer := output_buffer |}.

End QueryDirectoryResponse.

Definition QUERY_INFO_REQUEST_STRUCTURE_SIZE : Z := 41.
Definition QUERY_INFO_REQUEST_FIXED_SIZE : Z := 40.
Definition QUERY_INFO_RESPONSE_STRUCTURE_SIZE : Z := 9.
Definition QUERY_INFO_RESPONSE_FIXED_SIZE : Z := 8.

Module info_type.
Definition FILE : Z := 0x01.
Definition FILESYSTEM : Z := 0x02.
Definition SECURITY : Z := 0x03.
Definition QUOTA : Z := 0x04.
End info_type.

Module query_info_flags.
Definition NONE : Z := 0x00000000.
Definition RESTART_SCAN : Z := 0x00000001.
Definition RETURN_SINGLE_ENTRY : Z := 0x00000002.
Definition INDEX_SPECIFIED : Z := 0x00000004.
End query_info_flags.

Definition known_info_type (v : Z) : bool :=
  (v =? info_type.FILE) || (v =? info_type.FILESYSTEM) || (v =? info_type.SECURITY)
  || (v =? info_type.QUOTA).

Module QueryInfoRequest.

Record t : Type := mk {
  info_type : Z;
  file_info_class : Z;
  output_buffer_length : Z;
  input_buffer : bytes;
  additional_information : Z;
  flags : Z;
  file_id : FileId
}.

Definition file (file_id : FileId) (file_info_class output_buffer_length : Z) : t :=
  {| info_type := info_type.FILE;
     file_info_class := file_info_class;
     output_buffer_length := output_buffer_length;
     input_buffer := [];
     additional_information := 0;
     flags := query_info_flags.NONE;
     file_id := file_id |}.

Definition validate (r : t) : wire unit :=
  if is_zero (file_id r) then Err (InvalidField "QUERY_INFO FileId") else
  if negb (known_info_type (info_type r)) then Err (InvalidField "QUERY_INFO InfoType") else
  if u32_max <? len (input_buffer r)
  then Err (InvalidField "QUERY_INFO InputBufferLength") else Ok tt.

Definition encode_body (r : t) : wire bytes :=
  let! _ := validate r in
  let body := replicate (Z.to_nat QUERY_INFO_REQUEST_FIXED_SIZE) x00 in
  let! body := put_u16 body 0 QUERY_INFO_REQUEST_STRUCTURE_SIZE in
  let! body := put_le 1 body 2 (info_type r) in
  let! body := put_le 1 body 3 (file_info_class r) in
  let! body := put_u32 body 4 (output_buffer_length r) in
  let! body :=
    if is_empty (input_buffer r) then
      let! body := put_u16 body 8 0 in put_u32 body 12 0
    else
      let! v := ok_or (try_from u16_max (SMB2_HEADER_SIZE + QUERY_INFO_REQUEST_FIXED_SIZE))
                      (InvalidField "QUERY_INFO InputBufferOffset") in
      let! body := put_u16 body 8 v in
      let! v := ok_or (try_from u32_max (len (input_buffer r)))
                      (InvalidField "QUERY_INFO InputBufferLength") in
      put_u32 body 12 v in
  let! body := put_u16 body 10 0 in
  let! body := put_u32 body 16 (additional_information r) in
  let! body := put_u32 body 20 (flags r) in
  let! body := put_u64 body 24 (persistent (file_id r)) in
  let! body := put_u64 body 32 (volatile (file_id r)) in
  Ok (body ++ input_buffer r).

Definition encode_message (r : t)
    (message_id session_id tree_id credit_charge credit_request : Z) : wire bytes :=
  let header := request_header Command.QueryInfo message_id session_id tree_id
                               credit_charge credit_request in
  let! body := encode_body r in
  let! header := encode_header header in
  Ok (header ++ body).

Definition body_bytes (r : t) : bytes :=
  le_bytes 2 QUERY_INFO_REQUEST_STRUCTURE_SIZE ++ le_bytes 1 (info_type r)
  ++ le_bytes 1 (file_info_class r) ++ le_bytes 4 (output_buffer_length r)
  ++ le_bytes 2 (if is_empty (input_buffer r) then 0 else 104) ++ le_bytes 2 0
  ++ le_bytes 4 (len (input_buffer r)) ++ le_bytes 4 (additional_information r)
  ++ le_bytes 4 (flags r) ++ file_id_bytes (file_id r) ++ input_buffer r.
#[global] Arguments body_bytes : simpl never.

Lemma query_info_request_encode_body_ok r : encode_body r = let! _ := validate r in Ok (body_bytes r).
Proof.
  unfold encode_body. destruct (validate r) as [u|e| |] eqn:Hv; [|done..].
  assert (len (input_buffer r) <= u32_max) as Hn
    by (unfold validate in Hv; accept Hv; bool_facts; lia).
  cbn [obind]. cbv zeta. clear Hv. rewrite (try_from_ok u32_max) by done.
  change (try_from u16_max _) with (Some 104). unfold body_bytes, file_id_bytes.
  assert (is_empty (input_buffer r) = true -> len (input_buffer r) = 0) as He
    by (by intros ->%is_empty_true).
  destruct r as [ty cl ob ib ad fl [pe vo]]. cbn in *. clear Hn.
  destruct (is_empty ib).
  - rewrite He by done. put_eval. reflexivity.
  - clear He. generalize (len ib). intros n. put_eval. reflexivity.
Qed.

Lemma query_info_request_encode_message_ok r mid sid tid charge credit :
  encode_message r mid sid tid charge credit
  = let! _ := validate r in
    Ok (header_bytes (request_header Command.QueryInfo mid sid tid charge credit)
        ++ body_bytes r).
Proof.
  unfold encode_message. cbv zeta. rewrite query_info_request_encode_body_ok, encode_request_header.
  by destruct (validate r).
Qed.

End QueryInfoRequest.

Module QueryInfoResponse.

Record t : Type := mk { header : Smb2Header; output_buffer : bytes }.

Definition decode_message (message : bytes) : wire t :=
  let! _ := require_len message (SMB2_HEADER_SIZE + QUERY_INFO_RESPONSE_FIXED_SIZE) in
  let! header := decode_header message in
  if negb (bool_decide (command header = Command.QueryInfo))
  then Err (InvalidField "QUERY_INFO response Command") else
  if negb (has_flag (hdr_flags header) flags.SERVER_TO_REDIR)
  then Err (InvalidField "QUERY_INFO response direction") else
  let! body := slice_from message SMB2_HEADER_SIZE in
  let! structure_size := get_u16 body 0 in
  if negb (structure_size =? QUERY_INFO_RESPONSE_STRUCTURE_SIZE)
  then Err (InvalidStructureSize QUERY_INFO_RESPONSE_STRUCTURE_SIZE structure_size) else
  let! output_offset := get_u16 body 2 in
  let! output_length_u32 := get_u32 body 4 in
  let! output_length := ok_or (try_from usize_max output_length_u32)
                              (InvalidField "QUERY_INFO OutputBufferLength") in
  let! output_buffer :=
    if output_length =? 0 then
      if negb (output_offset =? 0)
      then Err (InvalidField "QUERY_INFO zero-length output has nonzero offset")
      else Ok []
    else
      if output_offset <? SMB2_HEADER_SIZE + QUERY_INFO_RESPONSE_FIXED_SIZE
      then Err (InvalidField "QUERY_INFO OutputBufferOffset before response buffer") else
      let! '(range_start, range_end) :=
        checked_range (len message) "QUERY_INFO Buffer" output_offset output_length in
      slice message range_start range_end in
  Ok {| header := header; output_buffer := output_buffer |}.

End QueryInfoResponse.

(** ** The shared response layout *)

(** The layout both responses have: an empty buffer is announced by offset 0,
    another one by its offset past the fixed part. *)
Definition output_message (h : Smb2Header) (output gap trailing : bytes) : bytes :=
  header_bytes h ++ le_bytes 2 9 ++ le_bytes 2 (if is_empty output then 0 else 72 + len gap)
  ++ le_bytes 4 (len output) ++ gap ++ output ++ trailing.

(** Both decoders, with the command and the error texts as parameters. *)
Definition decode_output {T} (cmd : Command.t) (texts : list string)
    (build : Smb2Header -> bytes -> T) (message : bytes) : wire T :=
  let text i := nth i texts EmptyString in
  let! _ := require_len message (64 + 8) in
  let! header := decode_header message in
  if negb (bool_decide (command header = cmd)) then Err (InvalidField (text 0%nat)) else
  if negb (has_flag (hdr_flags header) flags.SERVER_TO_REDIR)
  then Err (InvalidField (text 1%nat)) else
  let! body := slice_from message 64 in
  let! structure_size := get_le 2 body 0 in
  if negb (structure_size =? 9) then Err (InvalidStructureSize 9 structure_size) else
  let! output_offset := get_le 2 body 2 in
  let! output_length_u32 := get_le 4 body 4 in
  let! output_length := ok_or (try_from usize_max output_length_u32)
                              (InvalidField (text 2%nat)) in
  let! output_buffer :=
    if output_length =? 0 then
      if negb (output_offset =? 0) then Err (InvalidField (text 3%nat)) else Ok []
    else
      if output_offset <? 64 + 8 then Err (InvalidField (text 4%nat)) else
      let! '(range_start, range_end) :=
        checked_range (len message) (text 5%nat) output_offset output_length in
      slice message range_start range_end in
  Ok (build header output_buffer).

Lemma query_directory_output message :
  QueryDirectoryResponse.decode_message message
  = decode_output Command.QueryDirectory
      ["QUERY_DIRECTORY response Command"; "QUERY_DIRECTORY response direction";
       "QUERY_DIRECTORY OutputBufferLength";
       "QUERY_DIRECTORY zero-length output has nonzero offset";
       "QUERY_DIRECTORY OutputBufferOffset before response buffer"; "QUERY_DIRECTORY Buffer"]
      QueryDirectoryResponse.mk message.
Proof. reflexivity. Qed.

Lemma query_info_output message :
  QueryInfoResponse.decode_message message
  = decode_output Command.QueryInfo
      ["QUERY_INFO response Command"; "QUERY_INFO response direction";
       "QUERY_INFO OutputBufferLength"; "QUERY_INFO zero-length output has nonzero offset";
       "QUERY_INFO OutputBufferOffset before response buffer"; "QUERY_INFO Buffer"]
      QueryInfoResponse.mk message.
Proof. reflexivity. Qed.

Section decode_output.
Context {T} (cmd : Command.t) (texts : list string) (build : Smb2Header -> bytes -> T).

Lemma returns_decode_output message : returns (decode_output cmd texts build message).
Proof. unfold decode_output. cbv zeta. repeat returns_step. Qed.

Lemma decode_output_inv message r :
  decode_output cmd texts build message = Ok r ->
  exists h output gap trailing,
    r = build h output /\ header_wf h /\ hdr_consistent h /\ command h = cmd /\
    has_flag (hdr_flags h) flags.SERVER_TO_REDIR = true /\ len output < 2 ^ 32 /\
    72 + len gap < 2 ^ 16 /\ message = output_message h output gap trailing.
Proof.
  unfold decode_output. cbv zeta. intros Hd. accept Hd.
  apply obind_ok in Hd as (h & Hh & Hd). apply decode_header_inv in Hh as (_ & Hwf & Hc & Hm).
  accept Hd. apply obind_ok in Hd as (o & Ho & Hd). apply Ok_inj in Hd as <-.
  body_offsets. bool_facts. exists h, o. unfold output_message. read_facts.
  destruct (Z.eqb_spec (le_at 4 message 68) 0) as [Hz|Hnz].
  - accept Ho. apply Ok_inj in Ho as <-. bool_facts.
    exists [], (drop (Z.to_nat 72) message). do 7 (split; [done|]).
    cbn [is_empty app]. change (len []) with 0.
    rewrite (zero_field 2 message 66), (zero_field 4 message 68) by lia.
    rewrite <- Hm, <- Hchk1, !le_bytes_le_at by lia. by rejoin.
  - accept Ho. bool_facts. body_offsets.
    rewrite (slice_sub _ _ _ (le_at 4 message 68)) in Ho by lia. apply Ok_inj in Ho as <-.
    exists (sub message 72 (le_at 2 message 66 - 72)),
      (drop (Z.to_nat (le_at 2 message 66 + le_at 4 message 68)) message).
    rewrite is_empty_len, !len_sub, (proj2 (Z.eqb_neq _ 0)) by lia.
    do 5 (split; [done|]). split; [lia|]. split; [lia|].
    replace (72 + (le_at 2 message 66 - 72)) with (le_at 2 message 66) by lia.
    rewrite <- Hm, <- Hchk1, !le_bytes_le_at by lia. by rejoin.
Qed.

Lemma decode_output_bytes h output gap trailing :
  header_wf h -> hdr_consistent h -> command h = cmd ->
  has_flag (hdr_flags h) flags.SERVER_TO_REDIR = true -> len output < 2 ^ 32 ->
  72 + len gap < 2 ^ 16 ->
  decode_output cmd texts build (output_message h output gap trailing) = Ok (build h output).
Proof.
  intros Hwf Hc Hcmd Hdir ??. pose proof (len_header_bytes h ltac:(apply Hwf)).
  pose proof (len_nonneg output). pose proof (len_nonneg gap).
  unfold decode_output, output_message. cbv zeta.
  rewrite require_len_ok by len_lia. cbn [obind].
  rewrite decode_header_bytes by done. cbn [obind].
  rewrite Hcmd, bool_decide_true, Hdir by done. cbn [negb].
  rewrite slice_from_ok by len_lia. cbn [obind]. rewrite drop_app_here by lia.
  unfold usize_max. destruct (is_empty output) eqn:He.
  - apply is_empty_true in He as ->. change (len []) with 0. follow. done.
  - rewrite is_empty_len in He. apply Z.eqb_neq in He. follow.
    rewrite checked_range_slice by (unfold usize_max; len_lia). cbn [obind].
    eassert (sub _ _ _ = output) as -> by sub_at. done.
Qed.
End decode_output.

Lemma returns_query_directory message : returns (QueryDirectoryResponse.decode_message message).
Proof. rewrite query_directory_output. apply returns_decode_output. Qed.
Lemma returns_query_info message : returns (QueryInfoResponse.decode_message message).
Proof. rewrite query_info_output. apply returns_decode_output. Qed.
#[export] Hint Resolve returns_query_directory returns_query_info : returns.

(** ** Properties *)

(** both query responses accept exactly the messages of the shared layout,
    whatever gap the server leaves before the buffer and whatever follows it,
    and return the bytes the message announces. *)
Theorem query_response_iff (message : bytes) :
  (forall r, QueryDirectoryResponse.decode_message message = Ok r <->
   let h := QueryDirectoryResponse.header r in
   let output := QueryDirectoryResponse.output_buffer r in
   header_wf h /\ hdr_consistent h /\ command h = Command.QueryDirectory /\
   has_flag (hdr_flags h) flags.SERVER_TO_REDIR = true /\ len output < 2 ^ 32 /\
   exists gap trailing, 72 + len gap < 2 ^ 16 /\
     message = output_message h output gap trailing) /\
  (forall r, QueryInfoResponse.decode_message message = Ok r <->
   let h := QueryInfoResponse.header r in
   let output := QueryInfoResponse.output_buffer r in
   header_wf h /\ hdr_consistent h /\ command h = Command.QueryInfo /\
   has_flag (hdr_flags h) flags.SERVER_TO_REDIR = true /\ len output < 2 ^ 32 /\
   exists gap trailing, 72 + len gap < 2 ^ 16 /\
     message = output_message h output gap trailing).
Proof.
  split; intros r; rewrite ?query_directory_output, ?query_info_output; cbv zeta; split.
  - intros (h & o & gap & trailing & -> & H)%decode_output_inv. naive_solver.
  - intros (? & ? & ? & ? & ? & gap & trailing & ? & ->).
    rewrite decode_output_bytes by done. by destruct r.
  - intros (h & o & gap & trailing & -> & H)%decode_output_inv. naive_solver.
  - intros (? & ? & ? & ? & ? & gap & trailing & ? & ->).
    rewrite decode_output_bytes by done. by destruct r.
Qed.

(** A QUERY_DIRECTORY or QUERY_INFO request that validates is encoded as its
    header and its fixed part followed by the search pattern or the input
    buffer; a request that does not validate is refused with that error and
    nothing is encoded. *)
Theorem query_request_wire (d : QueryDirectoryRequest.t) (i : QueryInfoRequest.t)
    (mid sid tid charge credit : Z) :
  QueryDirectoryRequest.encode_message d mid sid tid charge credit
  = (let! _ := QueryDirectoryRequest.validate d in
     Ok (header_bytes (request_header Command.QueryDirectory mid sid tid charge credit)
         ++ QueryDirectoryRequest.body_bytes d)) /\
  QueryInfoRequest.encode_message i mid sid tid charge credit
  = (let! _ := QueryInfoRequest.validate i in
     Ok (header_bytes (request_header Command.QueryInfo mid sid tid charge credit)
         ++ QueryInfoRequest.body_bytes i)).
Proof.
  split; [apply QueryDirectoryRequest.query_directory_request_encode_message_ok|apply QueryInfoRequest.query_info_request_encode_message_ok].
Qed.
