(* ===== verification/SetInfo.v ===== *)
(** * SET_INFO

    [crates/smb-wire/src/set_info.rs]: the request and response of SET_INFO and
    the information structures the client sends with it (rename, disposition,
    end of file). *)
From S2P Require Import Prelude WireError Utf16 Header Create Query.

Definition SET_INFO_REQUEST_STRUCTURE_SIZE : Z := 33.
Definition SET_INFO_REQUEST_FIXED_SIZE : Z := 32.
Definition SET_INFO_RESPONSE_STRUCTURE_SIZE : Z := 2.
Definition SET_INFO_RESPONSE_FIXED_SIZE : Z := 2.
Definition RENAME_INFORMATION_FIXED_SIZE : Z := 20.
Definition RENAME_INFORMATION_MIN_SIZE : Z := 24.

Module set_info_class.
Definition FILE_RENAME_INFORMATION : Z := 10.
Definition FILE_END_OF_FILE_INFORMATION : Z := 20.
Definition FILE_DISPOSITION_INFORMATION : Z := 13.
Definition FILE_DISPOSITION_INFORMATION_EX : Z := 64.
Definition FILE_RENAME_INFORMATION_EX : Z := 65.
End set_info_class.

Module SetInfoRequest.

Record t : Type := mk {
  info_type : Z;
  file_info_class : Z;
  buffer : bytes;
  additional_information : Z;
  file_id : FileId
}.

Definition file (file_id : FileId) (file_info_class : Z) (buffer : bytes) : t :=
  {| info_type := info_type.FILE;
     file_info_class := file_info_class;
     buffer := buffer;
     additional_information := 0;
     file_id := file_id |}.

Definition validate (r : t) : wire unit :=
  if is_zero (file_id r) then Err (InvalidField "SET_INFO FileId") else
  if negb (known_info_type (info_type r)) then Err (InvalidField "SET_INFO InfoType") else
  if is_empty (buffer r) then Err (InvalidField "SET_INFO BufferLength") else
  if u32_max <? len (buffer r) then Err (InvalidField "SET_INFO BufferLength") else Ok tt.

Definition encode_body (r : t) : wire bytes :=
  let! _ := validate r in
  let body := replicate (Z.to_nat SET_INFO_REQUEST_FIXED_SIZE) x00 in
  let! body := put_u16 body 0 SET_INFO_REQUEST_STRUCTURE_SIZE in
  let! body := put_le 1 body 2 (info_type r) in
  let! body := put_le 1 body 3 (file_info_class r) in
  let! v := ok_or (try_from u32_max (len (buffer r))) (InvalidField "SET_INFO BufferLength") in
  let! body := put_u32 body 4 v in
  let! v := ok_or (try_from u16_max (SMB2_HEADER_SIZE + SET_INFO_REQUEST_FIXED_SIZE))
                  (InvalidField "SET_INFO BufferOffset") in
  let! body := put_u16 body 8 v in
  let! body := put_u16 body 10 0 in
  let! body := put_u32 body 12 (additional_information r) in
  let! body := put_u64 body 16 (persistent (file_id r)) in
  let! body := put_u64 body 24 (volatile (file_id r)) in
  Ok (body ++ buffer r).

Definition encode_message (r : t)
    (message_id session_id tree_id credit_charge credit_request : Z) : wire bytes :=
  let header := request_header Command.SetInfo message_id session_id tree_id
                               credit_charge credit_request in
  let! body := encode_body r in
  let! header := encode_header header in
  Ok (header ++ body).

Definition body_bytes (r : t) : bytes :=
  le_bytes 2 SET_INFO_REQUEST_STRUCTURE_SIZE ++ le_bytes 1 (info_type r)
  ++ le_bytes 1 (file_info_class r) ++ le_bytes 4 (len (buffer r)) ++ le_bytes 2 96
  ++ le_bytes 2 0 ++ le_bytes 4 (additional_information r) ++ file_id_bytes (file_id r)
  ++ buffer r.
#[global] Arguments body_bytes : simpl never.

Lemma set_info_request_encode_message_ok r mid sid tid charge credit :
  encode_message r mid sid tid charge credit
  = let! _ := validate r in
    Ok (header_bytes (request_header Command.SetInfo mid sid tid charge credit) ++ body_bytes r).
Proof.
  unfold encode_message, encode_body. cbv zeta.
  destruct (validate r) as [u|e| |] eqn:Hv; [|done..].
  assert (len (buffer r) <= u32_max) as Hn
    by (unfold validate in Hv; accept Hv; bool_facts; lia).
  cbn [obind]. clear Hv. rewrite (try_from_ok u32_max) by done.
  change (try_from u16_max _) with (Some 96). cbn [ok_or obind]. clear Hn.
  unfold body_bytes, file_id_bytes. destruct r as [ty cl bu ad [pe vo]]. cbn.
  generalize (len bu). intros n. put_eval. rewrite encode_request_header. reflexivity.
Qed.

End SetInfoRequest.

Module SetInfoResponse.

Record t : Type := mk { header : Smb2Header }.

Definition decode_message (message : bytes) : wire t :=
  let! _ := require_len message (SMB2_HEADER_SIZE + SET_INFO_RESPONSE_FIXED_SIZE) in
  let! header := decode_header message in
  if negb (bool_decide (command header = Command.SetInfo))
  then Err (InvalidField "SET_INFO response Command") else
  if negb (has_flag (hdr_flags header) flags.SERVER_TO_REDIR)
  then Err (InvalidField "SET_INFO response direction") else
  let! body := slice_from message SMB2_HEADER_SIZE in
  let! structure_size := get_u16 body 0 in
  if negb (structure_size =? SET_INFO_RESPONSE_STRUCTURE_SIZE)
  then Err (InvalidStructureSize SET_INFO_RESPONSE_STRUCTURE_SIZE structure_size) else
  Ok {| header := header |}.

Lemma set_info_response_returns_decode_message message : returns (decode_message message).
Proof. unfold decode_message, SET_INFO_RESPONSE_FIXED_SIZE. get_unfold. repeat returns_step. Qed.

Lemma set_info_response_decode_message_bytes r trailing :
  header_wf (header r) -> hdr_consistent (header r) -> command (header r) = Command.SetInfo ->
  has_flag (hdr_flags (header r)) flags.SERVER_TO_REDIR = true ->
  decode_message (header_bytes (header r) ++ le_bytes 2 2 ++ trailing) = Ok r.
Proof.
  intros Hwf Hc Hcmd Hdir. pose proof (len_header_bytes (header r) ltac:(apply Hwf)).
  unfold decode_message, SET_INFO_RESPONSE_FIXED_SIZE. get_unfold.
  rewrite require_len_ok by len_lia. cbn [obind].
  rewrite decode_header_bytes by done. cbn [obind].
  rewrite Hcmd, bool_decide_true, Hdir by done. cbn [negb].
  rewrite slice_from_ok by len_lia. cbn [obind]. rewrite drop_app_here by lia.
  unfold SET_INFO_RESPONSE_STRUCTURE_SIZE. follow. by destruct r.
Qed.

End SetInfoResponse.
#[export] Hint Resolve SetInfoResponse.set_info_response_returns_decode_message : returns.

Definition encode_relative_utf16_name (name : rust_string) : wire bytes :=
  if is_empty name then Err (InvalidField "rename target must not be empty") else
  if starts_with 92 name || starts_with 47 name
  then Err (InvalidField "rename target must be relative to the tree") else
  if contains 0 name then Err (InvalidField "rename target must not contain NUL") else
  let out := utf16_bytes name in
  if u32_max <? len out then Err (InvalidField "rename target exceeds u32 length") else
  Ok out.

Module FileRenameInformation.

Record t : Type := mk { file_name : rust_string; replace_if_exists : bool }.

Definition encode (i : t) : wire bytes :=
  let! name := encode_relative_utf16_name (file_name i) in
  let out := replicate (Z.to_nat (RENAME_INFORMATION_FIXED_SIZE + len name)) x00 in
  let! out := put_le 1 out 0 (if replace_if_exists i then 1 else 0) in
  let! out := put_u64 out 8 0 in
  let! v := ok_or (try_from u32_max (len name))
                  (InvalidField "FileRenameInformation FileNameLength") in
  let! out := put_u32 out 16 v in
  let! out := copy_from_slice out RENAME_INFORMATION_FIXED_SIZE (len out) name in
  Ok (resize0 out (Z.max (len out) RENAME_INFORMATION_MIN_SIZE)).

End FileRenameInformation.

Module FileRenameInformationEx.

Record t : Type := mk { file_name : rust_string; flags : Z }.

Definition encode (i : t) : wire bytes :=
  let! name := encode_relative_utf16_name (file_name i) in
  let out := replicate (Z.to_nat (RENAME_INFORMATION_FIXED_SIZE + len name)) x00 in
  let! out := put_u32 out 0 (flags i) in
  let! out := put_u32 out 4 0 in
  let! out := put_u64 out 8 0 in
  let! v := ok_or (try_from u32_max (len name))
                  (InvalidField "FileRenameInformationEx FileNameLength") in
  let! out := put_u32 out 16 v in
  let! out := copy_from_slice out RENAME_INFORMATION_FIXED_SIZE (len out) name in
  Ok (resize0 out (Z.max (len out) RENAME_INFORMATION_MIN_SIZE)).

End FileRenameInformationEx.

Module FileDispositionInformation.
Record t : Type := mk { delete_pending : bool }.
Definition delete : t := {| delete_pending := true |}.
Definition keep : t := {| delete_pending := false |}.
Definition encode (i : t) : bytes := [if delete_pending i then x01 else x00].
End FileDispositionInformation.

Module FileDispositionInformationEx.
Record t : Type := mk { flags : Z }.
Definition encode (i : t) : bytes := le_bytes 4 (flags i).
End FileDispositionInformationEx.

(** [end_of_file] is an [i64], but a value of the type is only made by [new],
    from a non-negative length. *)
Module FileEndOfFileInformation.
Record t : Type := mk { end_of_file : Z }.
Definition new (length : Z) : wire t :=
  let! end_of_file := ok_or (try_from (2 ^ 63 - 1) length)
                            (InvalidField "FileEndOfFileInformation EndOfFile") in
  Ok {| end_of_file := end_of_file |}.
Definition encode (i : t) : bytes := le_bytes 8 (end_of_file i).
End FileEndOfFileInformation.

(** ** The rename structure on the wire *)

(** Bytes 0..16 hold the flags or the replace byte, then the length of the name
    and the name, zero-padded to 24 bytes. *)
Definition rename_bytes (front : Z) (name : rust_string) : bytes :=
  le_bytes 8 front ++ le_bytes 8 0 ++ le_bytes 4 (len (utf16_bytes name)) ++ utf16_bytes name
  ++ replicate (Z.to_nat (4 - len (utf16_bytes name))) x00.

(** How the receiver reads the target back. *)
Definition read_rename_target (b : bytes) : option rust_string :=
  from_utf16 (utf16_units (sub b 20 (le_at 4 b 16))).

Lemma encode_relative_utf16_name_inv name b :
  encode_relative_utf16_name name = Ok b ->
  b = utf16_bytes name /\ name <> [] /\ len b < 2 ^ 32.
Proof.
  unfold encode_relative_utf16_name. intros H. accept H. bool_facts. apply Ok_inj in H as <-.
  unfold u32_max in *. split; [done|]. split; [by intros ->|]. lia.
Qed.

(** The writes both rename encoders share, after the leading field. *)
Lemma rename_tail_ok (front : Z) name :
  0 <= front < 2 ^ 32 -> len (utf16_bytes name) < 2 ^ 32 ->
  (let! out := copy_from_slice ((le_bytes 8 front ++ le_bytes 8 0
                 ++ le_bytes 4 (len (utf16_bytes name)))
                 ++ replicate (length (utf16_bytes name)) x00)
                 20 (20 + len (utf16_bytes name)) (utf16_bytes name) in
   Ok (resize0 out (Z.max (len out) 24))) = Ok (rename_bytes front name) :> wire bytes.
Proof.
  intros Hf Hn. pose proof (len_nonneg (utf16_bytes name)).
  rewrite <- (app_nil_r (replicate _ _)).
  rewrite copy_at by (autorewrite with len; unfold len in *; lia). cbn [obind].
  rewrite app_nil_r. f_equal. unfold rename_bytes, resize0.
  match goal with |- context [take _ ?l] =>
    assert (len l = 20 + len (utf16_bytes name)) as Hl by len_lia; rewrite Hl;
    assert (Z.of_nat (length l) = 20 + len (utf16_bytes name)) by exact Hl
  end.
  rewrite take_ge by lia. rewrite <- !app_assoc in *. do 5 f_equal. lia.
Qed.

Lemma read_rename_target_ok front name :
  valid_string name -> len (utf16_bytes name) < 2 ^ 32 ->
  read_rename_target (rename_bytes front name) = Some name.
Proof.
  intros Hs Hl. pose proof (len_nonneg (utf16_bytes name)).
  unfold read_rename_target, rename_bytes. read_fields.
  eassert (sub _ 20 _ = utf16_bytes name) as -> by sub_at.
  rewrite utf16_units_utf16_bytes by done. by apply from_encode_utf16.
Qed.

(** The two encoders against the wire structure. *)
Lemma rename_encode_ok i :
  FileRenameInformation.encode i
  = let! _ := encode_relative_utf16_name (FileRenameInformation.file_name i) in
    Ok (rename_bytes (if FileRenameInformation.replace_if_exists i then 1 else 0)
          (FileRenameInformation.file_name i)).
Proof.
  destruct i as [name rep]. unfold FileRenameInformation.encode.
  cbn [FileRenameInformation.file_name FileRenameInformation.replace_if_exists].
  destruct (encode_relative_utf16_name name) as [b|e| |] eqn:He; [|done..]. cbn [obind].
  apply encode_relative_utf16_name_inv in He as (-> & _ & Hl).
  rewrite <- rename_tail_ok by (done || by destruct rep). cbv zeta.
  change RENAME_INFORMATION_FIXED_SIZE with 20. change RENAME_INFORMATION_MIN_SIZE with 24.
  pose proof (len_nonneg (utf16_bytes name)).
  rewrite try_from_ok by (unfold u32_max; lia).
  replace (Z.to_nat (20 + len (utf16_bytes name))) with (20 + length (utf16_bytes name))%nat
    by (unfold len; lia).
  rewrite replicate_add. cbn [ok_or obind].
  set (z := replicate (length (utf16_bytes name)) x00).
  assert (len z = len (utf16_bytes name)) as Hz by (subst z; unfold len; by rewrite length_replicate).
  clearbody z. revert Hz. generalize (utf16_bytes name). intros nb Hz. clear Hl.
  remember (len nb) as n eqn:Hn. put_eval.
  match goal with |- context [len (?a ++ z)] =>
    replace (len (a ++ z)) with (20 + n) by (rewrite len_app; change (len a) with 20; lia) end.
  by destruct rep.
Qed.

Lemma le_bytes_u32_in_u64 v : u32 v -> le_bytes 8 v = le_bytes 4 v ++ le_bytes 4 0.
Proof.
  intros [? ?]. unfold le_bytes. cbn [app].
  assert (v / 256 / 256 / 256 / 256 = 0) as ->; [|done].
  rewrite !Z.div_div by lia. apply Z.div_small. cbn. lia.
Qed.

Lemma rename_ex_encode_ok i :
  u32 (FileRenameInformationEx.flags i) ->
  FileRenameInformationEx.encode i
  = let! _ := encode_relative_utf16_name (FileRenameInformationEx.file_name i) in
    Ok (rename_bytes (FileRenameInformationEx.flags i) (FileRenameInformationEx.file_name i)).
Proof.
  intros Hf. destruct i as [name fl]. unfold FileRenameInformationEx.encode.
  cbn [FileRenameInformationEx.file_name FileRenameInformationEx.flags] in *.
  destruct (encode_relative_utf16_name name) as [b|e| |] eqn:He; [|done..]. cbn [obind].
  apply encode_relative_utf16_name_inv in He as (-> & _ & Hl).
  rewrite <- rename_tail_ok by done. cbv zeta.
  change RENAME_INFORMATION_FIXED_SIZE with 20. change RENAME_INFORMATION_MIN_SIZE with 24.
  pose proof (len_nonneg (utf16_bytes name)).
  rewrite try_from_ok by (unfold u32_max; lia).
  replace (Z.to_nat (20 + len (utf16_bytes name))) with (20 + length (utf16_bytes name))%nat
    by (unfold len; lia).
  rewrite replicate_add. cbn [ok_or obind].
  set (z := replicate (length (utf16_bytes name)) x00).
  assert (len z = len (utf16_bytes name)) as Hz by (subst z; unfold len; by rewrite length_replicate).
  clearbody z. revert Hz. generalize (utf16_bytes name). intros nb Hz. clear Hl.
  rewrite le_bytes_u32_in_u64 by done.
  remember (len nb) as n eqn:Hn. put_eval.
  match goal with |- context [len (?a ++ z)] =>
    replace (len (a ++ z)) with (20 + n) by (rewrite len_app; change (len a) with 20; lia) end.
  done.
Qed.

(** ** Properties *)

(** a rename target survives its encoding in both rename structures: the
    encoder refuses an empty, absolute or NUL-containing name, and otherwise
    writes a structure of at least 24 bytes whose length field and UTF-16LE
    name give the target back. *)
Theorem rename_target_roundtrip (name : rust_string) (replace : bool) (fl : Z)
    (Hs : valid_string name) (Hf : u32 fl) :
  let classic := FileRenameInformation.encode (FileRenameInformation.mk name replace) in
  let extended := FileRenameInformationEx.encode (FileRenameInformationEx.mk name fl) in
  match encode_relative_utf16_name name with
  | Ok _ =>
      name <> [] /\
      exists c e, classic = Ok c /\ extended = Ok e /\ 24 <= len c /\ 24 <= len e /\
        le_at 1 c 0 = (if replace then 1 else 0) /\ le_at 4 e 0 = fl /\
        read_rename_target c = Some name /\ read_rename_target e = Some name
  | Err err => classic = Err err /\ extended = Err err
  | _ => False
  end.
Proof.
  cbv zeta. rewrite rename_encode_ok, rename_ex_encode_ok by done.
  cbn [FileRenameInformation.file_name FileRenameInformation.replace_if_exists
       FileRenameInformationEx.file_name FileRenameInformationEx.flags].
  destruct (encode_relative_utf16_name name) as [b|err| |] eqn:He; cbn [obind].
  2: done.
  2,3: revert He; unfold encode_relative_utf16_name; cbv zeta;
       by repeat case_match.
  apply encode_relative_utf16_name_inv in He as (-> & Hne & Hl). split; [done|].
  pose proof (len_nonneg (utf16_bytes name)).
  do 2 eexists. split; [reflexivity|]. split; [reflexivity|].
  rewrite !read_rename_target_ok by done. unfold rename_bytes.
  split; [len_lia|]. split; [len_lia|]. split; [by destruct replace|].
  split; [|done]. rewrite (le_bytes_u32_in_u64 fl), <- !app_assoc by done. field_at.
Qed.

Lemma rename_target_roundtrip_witness :
  exists c e,
    FileRenameInformation.encode (FileRenameInformation.mk [0x65B0; 0x1F600] true) = Ok c /\
    FileRenameInformationEx.encode (FileRenameInformationEx.mk [0x65B0; 0x1F600] 3) = Ok e /\
    read_rename_target c = Some [0x65B0; 0x1F600] /\ read_rename_target e = Some [0x65B0; 0x1F600].
Proof.
  destruct (rename_target_roundtrip [0x65B0; 0x1F600] true 3)
    as (_ & c & e & Hc & He & _ & _ & _ & _ & Hrc & Hre);
    [repeat constructor; unfold scalar; cbn; lia|uint_solve|].
  exists c, e. split; [exact Hc|]. split; [exact He|]. split; [exact Hrc|exact Hre].
Defined.
