(* ===== verification/WireTotality.v ===== *)
(** * Every decoder returns

    The wire layer reads data a server controls. Each decoder of
    [crates/smb-wire] is run here on arbitrary bytes: no index or slice is out
    of range, no addition overflows, no loop runs past its fuel. *)
From S2P Require Import Prelude WireError Utf16 Frame Header Create ReadWrite FileControl.
From S2P Require Import SessionMessages CreateContext Durable Negotiate Query SetInfo.

Lemma returns_durable_request context : returns (DurableHandleRequestV2.from_context context).
Proof.
  unfold DurableHandleRequestV2.from_context. apply returns_bind; [auto with returns|intros _ _].
  unfold DurableHandleRequestV2.decode_data. get_unfold.
  apply returns_bind; [auto with returns|]. intros ? Hl%require_exact_len_inv.
  change DURABLE_HANDLE_REQUEST_V2_DATA_SIZE with 32 in Hl. repeat returns_step.
Qed.

Lemma returns_durable_reconnect context : returns (DurableHandleReconnectV2.from_context context).
Proof.
  unfold DurableHandleReconnectV2.from_context. apply returns_bind; [auto with returns|intros _ _].
  unfold DurableHandleReconnectV2.decode_data. get_unfold.
  apply returns_bind; [auto with returns|]. intros ? Hl%require_exact_len_inv.
  change DURABLE_HANDLE_RECONNECT_V2_DATA_SIZE with 36 in Hl. repeat returns_step.
Qed.

(** C39: no input makes a decoder of the wire layer panic or loop: on any bytes
    whatever, each of them returns a value or a [WireError]. *)
Theorem wire_decoders_total (m : bytes) (c : CreateContext) :
  returns (decode_direct_tcp_frame m) /\ returns (decode_header m) /\
  returns (NegotiateResponse.decode_message m) /\
  returns (SessionSetupRequest.decode_message m) /\
  returns (SessionSetupResponse.decode_message m) /\
  returns (TreeConnectRequest.decode_message m) /\
  returns (TreeConnectResponse.decode_message m) /\
  returns (CreateResponse.decode_message m) /\
  returns (decode_create_response_with_contexts m) /\
  returns (decode_create_contexts m) /\
  returns (DurableHandleRequestV2.from_context c) /\
  returns (DurableHandleReconnectV2.from_context c) /\
  returns (DurableHandleResponseV2.from_context c) /\
  returns (ReadResponse.decode_message m) /\ returns (WriteResponse.decode_message m) /\
  returns (CloseRequest.decode_message m) /\ returns (CloseResponse.decode_message m) /\
  returns (FlushRequest.decode_message m) /\ returns (FlushResponse.decode_message m) /\
  returns (CancelRequest.decode_message m) /\
  returns (QueryDirectoryResponse.decode_message m) /\
  returns (QueryInfoResponse.decode_message m) /\ returns (SetInfoResponse.decode_message m).
Proof.
  repeat split;
    auto using returns_decode_direct_tcp_frame, returns_decode_header, returns_negotiate_response,
      returns_decode_create_response_with_contexts, returns_decode_create_contexts,
      returns_durable_request, returns_durable_reconnect, returns_query_directory,
      returns_query_info, SessionSetupRequest.session_setup_request_returns_decode_message,
      SessionSetupResponse.session_setup_response_returns_decode_message, TreeConnectRequest.tree_connect_request_returns_decode_message,
      TreeConnectResponse.tree_connect_response_returns_decode_message, CreateResponse.create_response_returns_decode_message,
      DurableHandleResponseV2.returns_from_context, ReadResponse.read_response_returns_decode_message,
      WriteResponse.write_response_returns_decode_message, CloseRequest.close_request_returns_decode_message,
      CloseResponse.close_response_returns_decode_message, FlushRequest.flush_request_returns_decode_message,
      FlushResponse.flush_response_returns_decode_message, CancelRequest.cancel_request_returns_decode_message,
      SetInfoResponse.set_info_response_returns_decode_message.
Qed.
