(* ===== verification/Client.v ===== *)
(** * Client errors and the state monad of the client

    [crates/smb-client/src/error.rs] and the error types it wraps
    ([crates/smb-auth/src/provider.rs], [std::io::Error]), with the monad of the
    client's stateful code: a method on [&mut self] is a function from the state
    to an [outcome] and the state it leaves behind, also when it fails. *)
From S2P Require Import Prelude WireError.

Module AuthError.
Inductive t : Type :=
  | InvalidToken (message : string)
  | InvalidState (message : string)
  | Unsupported (message : string)
  | Failed (message : string).
#[global] Instance eq_dec : EqDecision t.
Proof. solve_decision. Defined.
End AuthError.

(** [std::io::ErrorKind], the kinds the source names. *)
Inductive ErrorKind : Type := UnexpectedEof | TimedOut | OtherIo (code : Z).
#[export] Instance ErrorKind_eq_dec : EqDecision ErrorKind.
Proof. solve_decision. Defined.

Inductive ClientError : Type :=
  | Io (kind : ErrorKind)
  | Wire (error : WireError)
  | Auth (error : AuthError.t)
  | Timeout_ (stage : string)
  | ServerStatus (status : Z)
  | Cancelled
  | Capability (message : string)
  | Protocol (message : string).
#[export] Instance ClientError_eq_dec : EqDecision ClientError.
Proof. solve_decision. Defined.

Abbreviation client := (outcome ClientError).

(** The [?] operator on a wire or authentication result: [From] wraps the error. *)
Definition from_wire {A} (m : wire A) : client A := omap_err Wire m.
Definition from_auth {A} (m : outcome AuthError.t A) : client A := omap_err Auth m.

Lemma returns_from_wire {A} (m : wire A) : returns m -> returns (from_wire m).
Proof. by destruct m. Qed.
Lemma returns_from_auth {A} (m : outcome AuthError.t A) : returns m -> returns (from_auth m).
Proof. by destruct m. Qed.
#[export] Hint Resolve returns_from_wire returns_from_auth : returns.

Lemma from_wire_ok {A} (m : wire A) a : from_wire m = Ok a <-> m = Ok a.
Proof. destruct m; cbn; split; naive_solver. Qed.
Lemma from_auth_ok {A} (m : outcome AuthError.t A) a : from_auth m = Ok a <-> m = Ok a.
Proof. destruct m; cbn; split; naive_solver. Qed.

(** ** Stateful code *)

Definition st (S A : Type) : Type := S -> client A * S.

Definition sret {S A} (a : A) : st S A := fun s => (Ok a, s).
Definition slift {S A} (m : client A) : st S A := fun s => (m, s).
Definition sget {S A} (f : S -> A) : st S A := fun s => (Ok (f s), s).
Definition smodify {S} (f : S -> S) : st S unit := fun s => (Ok tt, f s).
Definition sbind {S A B} (m : st S A) (k : A -> st S B) : st S B :=
  fun s => match m s with
           | (Ok a, s) => k a s
           | (Err e, s) => (Err e, s)
           | (Panic, s) => (Panic, s)
           | (OutOfFuel, s) => (OutOfFuel, s)
           end.

Declare Scope st_scope.
Delimit Scope st_scope with st.
Notation "'do!' x ':=' m 'in' k" := (sbind m (fun x => k))
  (at level 10, x name, m at level 100, k at level 200,
   format "'[v' 'do!'  x  ':='  m  'in' '/' k ']'") : st_scope.
Notation "'do!' ' p ':=' m 'in' k" := (sbind m (fun p => k))
  (at level 10, p strict pattern, m at level 100, k at level 200,
   format "'[v' 'do!'  ' p  ':='  m  'in' '/' k ']'") : st_scope.
#[global] Open Scope st_scope.

(** A computation on a part of the state: [lens] is a field of it. *)
Definition zoom {S T A} (get : S -> T) (set : S -> T -> S) (m : st T A) : st S A :=
  fun s => let '(r, t) := m (get s) in (r, set s t).

Lemma sbind_ok {S A B} (m : st S A) (k : A -> st S B) s b s' :
  sbind m k s = (Ok b, s') <-> exists a s1, m s = (Ok a, s1) /\ k a s1 = (Ok b, s').
Proof. unfold sbind. destruct (m s) as [[]]; split; naive_solver. Qed.

Lemma slift_ok {S A} (m : client A) (s : S) a s' :
  slift m s = (Ok a, s') <-> m = Ok a /\ s' = s.
Proof. unfold slift. split; [by intros [= -> ->]|by intros [-> ->]]. Qed.

(** [run_meets m s Q]: from [s] the computation returns, and its result and
    final state satisfy [Q], whichever way it ends. *)
Definition run_meets {S A} (m : st S A) (s : S) (Q : client A -> S -> Prop) : Prop :=
  let '(r, s') := m s in returns r /\ Q r s'.

Lemma run_meets_bind {S A B} (m : st S A) (k : A -> st S B) s Q :
  run_meets m s (fun r s1 =>
    match r with
    | Ok a => run_meets (k a) s1 Q
    | Err e => Q (Err e) s1
    | _ => False
    end) -> run_meets (sbind m k) s Q.
Proof.
  unfold run_meets, sbind. destruct (m s) as [[a|e| |] s1]; [|naive_solver..].
  by intros [_ H].
Qed.

Lemma run_meets_lift {S A} (m : client A) (s : S) Q :
  returns m -> Q m s -> run_meets (slift m) s Q.
Proof. unfold run_meets, slift. done. Qed.

Lemma run_meets_mono {S A} (m : st S A) s (P Q : client A -> S -> Prop) :
  run_meets m s P -> (forall r s', P r s' -> Q r s') -> run_meets m s Q.
Proof. unfold run_meets. destruct (m s). naive_solver. Qed.

(** [runs m s Q]: from [s] the computation does not panic, and if it comes to
    an end its result and final state satisfy [Q]. This is what can be said of
    code that waits for a peer, whose silence is [OutOfFuel]. *)
Definition runs {S A} (m : st S A) (s : S) (Q : client A -> S -> Prop) : Prop :=
  match m s with
  | (Panic, _) => False
  | (OutOfFuel, _) => True
  | (r, s') => Q r s'
  end.

Lemma runs_bind {S A B} (m : st S A) (k : A -> st S B) s Q :
  runs m s (fun r s1 =>
    match r with
    | Ok a => runs (k a) s1 Q
    | Err e => Q (Err e) s1
    | _ => True
    end) -> runs (sbind m k) s Q.
Proof. unfold runs, sbind. by destruct (m s) as [[a|e| |] s1]. Qed.

Lemma runs_lift {S A} (m : client A) (s : S) Q : meets m (fun a => Q (Ok a) s) ->
  (forall e, m = Err e -> Q (Err e) s) -> runs (slift m) s Q.
Proof. unfold runs, slift. destruct m; naive_solver. Qed.

Lemma runs_returns {S A} (m : client A) (s : S) (Q : client A -> S -> Prop) :
  returns m -> Q m s -> runs (slift m) s Q.
Proof. unfold runs, slift. by destruct m. Qed.

Lemma runs_mono {S A} (m : st S A) s (P Q : client A -> S -> Prop) :
  runs m s P -> (forall r s', P r s' -> Q r s') -> runs m s Q.
Proof. unfold runs. destruct (m s) as [[]]; naive_solver. Qed.

Lemma runs_zoom {S T A} (get : S -> T) (set : S -> T -> S) (m : st T A) s Q :
  runs m (get s) (fun r t => Q r (set s t)) -> runs (zoom get set m) s Q.
Proof. unfold runs, zoom. by destruct (m (get s)) as [[] t]. Qed.

(** Reading an end of a computation off [runs]. *)
Lemma runs_elim {S A} (m : st S A) s Q r s' :
  runs m s Q -> m s = (r, s') -> r <> OutOfFuel -> Q r s'.
Proof. unfold runs. intros H E. rewrite E in H. by destruct r. Qed.

(** A computation evaluated to a success that passes a test. *)
Definition ended {S A} (test : A -> S -> bool) (x : client A * S) : bool :=
  match x with (Ok a, s) => test a s | _ => false end.

Lemma ended_ok {S A} (test : A -> S -> bool) (x : client A * S) :
  ended test x = true -> exists a s, x = (Ok a, s) /\ test a s = true.
Proof. destruct x as [[a|e| |] s]; cbn; [eauto|done..]. Qed.

Lemma runs_ended {S A} (m : st S A) s Q test :
  runs m s Q -> ended test (m s) = true -> exists a s', Q (Ok a) s' /\ test a s' = true.
Proof. intros Hr (a & s' & E & Ht)%ended_ok. exists a, s'. by eapply runs_elim in Hr. Qed.

Lemma runs_bind_lift {S A B} (m : client A) (k : A -> st S B) s (Q : client B -> S -> Prop) :
  returns m -> (forall e, m = Err e -> Q (Err e) s) ->
  (forall a, m = Ok a -> runs (k a) s Q) -> runs (sbind (slift m) k) s Q.
Proof. unfold runs, sbind, slift. destruct m; naive_solver. Qed.

Lemma runs_bind_get {S A B} (f : S -> A) (k : A -> st S B) s Q :
  runs (k (f s)) s Q -> runs (sbind (sget f) k) s Q.
Proof. done. Qed.

Lemma runs_bind_modify {S B} (f : S -> S) (k : unit -> st S B) s Q :
  runs (k tt) (f s) Q -> runs (sbind (smodify f) k) s Q.
Proof. done. Qed.

(** One step of a computation whose end is described by [runs]: pure steps that
    are known to return, reads and writes of the state, tests. A step that ends
    in an error is left to [done]. *)
Ltac run_step :=
  match goal with
  | |- runs (sbind (slift _) _) _ _ =>
      apply runs_bind_lift; [try solve [auto with returns]|try by intros|intros]
  | |- runs (sbind (sget _) _) _ _ => apply runs_bind_get
  | |- runs (sbind (smodify _) _) _ _ => apply runs_bind_modify
  | |- runs (slift (Err _)) _ _ => apply runs_returns; [exact I|try done]
  | |- runs (if ?b then _ else _) _ _ => let E := fresh "Htest" in destruct b eqn:E
  | |- runs (let '(_, _) := ?p in _) _ _ => destruct p
  end.

(** A pure step whose result is used later, under the given names. *)
Tactic Notation "run_bind" simple_intropattern(a) simple_intropattern(H) :=
  apply runs_bind_lift; [try solve [auto with returns]|try by intros|intros a H].
