(* ===== verification/Effects.v ===== *)
(** * Computations above the client

    The layers above [smb-client] thread a state and fail with an error type of
    their own, into which the client's errors are wrapped by [?] and [map_err].
    Here: that monad, the steps that run client code on a part of the state, and
    the logic in which their specifications are proved. *)
From S2P Require Import Prelude WireError Client.

(** A computation on a state that fails with an [E]. *)
Definition est (E S A : Type) : Type := S -> outcome E A * S.
Definition eret {E S A} (a : A) : est E S A := fun s => (Ok a, s).
Definition efail {E S A} (e : E) : est E S A := fun s => (Err e, s).
Definition ebind {E S A B} (m : est E S A) (k : A -> est E S B) : est E S B := fun s =>
  match m s with
  | (Ok a, s) => k a s
  | (Err e, s) => (Err e, s)
  | (Panic, s) => (Panic, s)
  | (OutOfFuel, s) => (OutOfFuel, s)
  end.
Definition elift {E S A} (m : outcome E A) : est E S A := fun s => (m, s).
Definition eget {E S A} (f : S -> A) : est E S A := fun s => (Ok (f s), s).
Definition emodify {E S} (f : S -> S) : est E S unit := fun s => (Ok tt, f s).

Declare Scope est_scope.
Delimit Scope est_scope with est.
Notation "'rec!' x ':=' m 'in' k" := (ebind m (fun x => k))
  (at level 10, x name, m at level 100, k at level 200,
   format "'[v' 'rec!'  x  ':='  m  'in' '/' k ']'") : est_scope.
#[global] Open Scope est_scope.

(** Client code on a part of the state, its error wrapped: [m.await?], or
    [m.await.map_err(wrap)?]. *)
Definition client_on {E S T A} (wrap : ClientError -> E) (get : S -> T) (set : S -> T -> S)
    (m : st T A) : est E S A := fun s =>
  let '(r, t) := m (get s) in (omap_err wrap r, set s t).

(** [match m.await { Ok(a) => .., Err(e) => .. }]. *)
Definition attempt {E S T A} (get : S -> T) (set : S -> T -> S) (m : st T A) :
    est E S (ClientError + A) := fun s =>
  let '(r, t) := m (get s) in
  (match r with
   | Ok a => Ok (inr a)
   | Err e => Ok (inl e)
   | Panic => Panic
   | OutOfFuel => OutOfFuel
   end, set s t).

(** [match m.await { Ok(a) => .., Err(e) => .. }] of a computation of its own. *)
Definition caught {E S A} (m : est E S A) : est E S (E + A) := fun s =>
  let '(r, s) := m s in
  (match r with
   | Ok a => Ok (inr a)
   | Err e => Ok (inl e)
   | Panic => Panic
   | OutOfFuel => OutOfFuel
   end, s).

(** ** What a computation comes to *)

Definition eruns {E S A} (m : est E S A) (s : S) (Q : outcome E A -> S -> Prop) : Prop :=
  match m s with
  | (Panic, _) => False
  | (OutOfFuel, _) => True
  | (r, s') => Q r s'
  end.

Lemma eruns_bind {E S A B} (m : est E S A) (k : A -> est E S B) s Q :
  eruns m s (fun r s1 =>
    match r with Ok a => eruns (k a) s1 Q | Err e => Q (Err e) s1 | _ => True end) ->
  eruns (ebind m k) s Q.
Proof. unfold eruns, ebind. destruct (m s) as [[a|e| |] s1]; [done|naive_solver..]. Qed.

Lemma eruns_mono {E S A} (m : est E S A) s (P Q : outcome E A -> S -> Prop) :
  eruns m s P -> (forall r s', P r s' -> Q r s') -> eruns m s Q.
Proof. unfold eruns. destruct (m s) as [[]]; naive_solver. Qed.

(** The same, with the run itself at hand. *)
Lemma eruns_run {E S A} (m : est E S A) s (P Q : outcome E A -> S -> Prop) :
  eruns m s P -> (forall r s', m s = (r, s') -> P r s' -> Q r s') -> eruns m s Q.
Proof. unfold eruns. destruct (m s) as [[]]; naive_solver. Qed.

(** A run that ended with a value that passes a test. *)
Definition eended {E S A} (test : A -> S -> bool) (x : outcome E A * S) : bool :=
  match x with (Ok a, s') => test a s' | _ => false end.

Lemma eruns_ended {E S A} (m : est E S A) s Q test :
  eruns m s Q -> eended test (m s) = true -> exists a s', Q (Ok a) s' /\ test a s' = true.
Proof. unfold eruns, eended. destruct (m s) as [[a| | |] s']; [|done..]. by exists a, s'. Qed.

Lemma eruns_get {E S A B} (f : S -> A) (k : A -> est E S B) s (Q : outcome E B -> S -> Prop) :
  eruns (k (f s)) s Q -> eruns (ebind (eget f) k) s Q.
Proof. done. Qed.

Lemma eruns_bind_lift {E S A B} (m : outcome E A) (k : A -> est E S B) s
    (Q : outcome E B -> S -> Prop) :
  returns m -> (forall e, m = Err e -> Q (Err e) s) ->
  (forall a, m = Ok a -> eruns (k a) s Q) -> eruns (ebind (elift m) k) s Q.
Proof. unfold eruns, ebind, elift. destruct m; naive_solver. Qed.

Lemma eruns_modify {E S B} (f : S -> S) (k : unit -> est E S B) s (Q : outcome E B -> S -> Prop) :
  eruns (k tt) (f s) Q -> eruns (ebind (emodify f) k) s Q.
Proof. done. Qed.

Lemma eruns_client_on {E S T A} (wrap : ClientError -> E) (get : S -> T) (set : S -> T -> S)
    (m : st T A) s Q :
  runs m (get s) (fun r t => Q (omap_err wrap r) (set s t)) -> eruns (client_on wrap get set m) s Q.
Proof. unfold runs, eruns, client_on. by destruct (m (get s)) as [[] t]. Qed.

Lemma eruns_caught {E S A B} (m : est E S A) (k : E + A -> est E S B) s
    (Q : outcome E B -> S -> Prop) :
  eruns m s (fun r s' =>
    match r with
    | Ok a => eruns (k (inr a)) s' Q
    | Err e => eruns (k (inl e)) s' Q
    | _ => True
    end) -> eruns (ebind (caught m) k) s Q.
Proof. unfold eruns, ebind, caught. by destruct (m s) as [[] s']. Qed.

Lemma eruns_attempt {E S T A} (get : S -> T) (set : S -> T -> S) (m : st T A) s
    (Q : outcome E (ClientError + A) -> S -> Prop) :
  runs m (get s) (fun r t =>
    match r with
    | Ok a => Q (Ok (inr a)) (set s t)
    | Err e => Q (Ok (inl e)) (set s t)
    | _ => True
    end) -> eruns (attempt get set m) s Q.
Proof. unfold runs, eruns, attempt. by destruct (m (get s)) as [[] t]. Qed.

