(* ===== verification/Credits.v ===== *)
(** * Credits

    [crates/smb-client/src/credits.rs]: the connection-wide budget of SMB
    credits a scheduler reserves from before it sends and returns the server's
    grants to. *)
From S2P Require Import Prelude WireError Client.

Definition DEFAULT_TARGET_CREDITS : Z := 128.

Module CreditManager.

Record t : Type := mk { available : Z; target : Z }.

Definition new (initial : Z) : client t :=
  if initial =? 0
  then Err (Protocol "server granted zero credits in NEGOTIATE response")
  else Ok {| available := initial; target := DEFAULT_TARGET_CREDITS |}.

Definition reserve (charge : Z) : st t unit := fun s =>
  let logical_charge := Z.max charge 1 in
  if available s <? logical_charge
  then (Err (Protocol "SMB request requires more credits than are currently available"), s)
  else (let! available := sub_or_panic (available s) logical_charge in Ok tt,
        {| available := available s - logical_charge; target := target s |}).

Definition grant (credits : Z) : st t unit := fun s =>
  match checked_add u32_max (available s) credits with
  | Some available => (Ok tt, {| available := available; target := target s |})
  | None => (Err (Protocol "SMB credit count overflow"), s)
  end.

Definition request_hint (s : t) (minimum : Z) : Z :=
  let desired := saturating_sub (target s) (available s) in
  let desired := Z.min desired u16_max mod 2 ^ 16 in
  Z.max (Z.max minimum desired) 1.

Definition max_multi_credit_payload (s : t) : Z :=
  saturating_mul usize_max
    (match try_from usize_max (available s) with Some v => v | None => usize_max end) 65536.

Definition wf (s : t) : Prop := u32 (available s) /\ target s = DEFAULT_TARGET_CREDITS.

Lemma new_ok initial s :
  u16 initial -> new initial = Ok s ->
  wf s /\ available s = initial /\ 0 < initial.
Proof.
  unfold new, uint. destruct (Z.eqb_spec initial 0); [done|]. intros ? Hs.
  apply Ok_inj in Hs as <-. unfold wf, uint. cbn. lia.
Qed.

(** Every branch of [reserve] and of [grant]. *)
Lemma reserve_spec charge s :
  wf s -> 0 <= charge ->
  reserve charge s =
    if available s <? Z.max charge 1
    then (Err (Protocol "SMB request requires more credits than are currently available"), s)
    else (Ok tt, {| available := available s - Z.max charge 1; target := target s |}).
Proof.
  intros [[? ?] _] ?. unfold reserve. destruct (Z.ltb_spec (available s) (Z.max charge 1)); [done|].
  unfold sub_or_panic. by rewrite (proj2 (Z.leb_le _ _)) by lia.
Qed.

Lemma reserve_wf charge s :
  wf s -> 0 <= charge ->
  run_meets (reserve charge) s (fun r s' =>
    wf s' /\
    match r with
    | Ok _ => available s' = available s - Z.max charge 1
    | _ => s' = s /\ available s < Z.max charge 1
    end).
Proof.
  intros Hwf ?. unfold run_meets. rewrite reserve_spec by done. destruct Hwf as [[? ?] Ht].
  destruct (Z.ltb_spec (available s) (Z.max charge 1)).
  - split; [done|]. split; [|done]. by repeat split.
  - split; [done|]. split; [|done]. unfold wf, uint. cbn. split; [lia|done].
Qed.

Lemma grant_wf credits s :
  wf s -> u16 credits ->
  run_meets (grant credits) s (fun r s' =>
    wf s' /\
    match r with
    | Ok _ => available s' = available s + credits
    | _ => s' = s /\ u32_max < available s + credits
    end).
Proof.
  intros Hwf [? ?]. unfold run_meets, grant.
  destruct (checked_add u32_max (available s) credits) as [a|] eqn:E.
  - apply checked_add_some in E as [-> ?]. split; [done|]. split; [|done].
    destruct Hwf as [[? ?] ?]. unfold wf, uint, u32_max in *. cbn. split; [lia|done].
  - split; [done|]. split; [done|]. split; [done|].
    unfold checked_add in E. destruct (Z.leb_spec (available s + credits) u32_max); [done|lia].
Qed.

End CreditManager.

(** ** The ledger of a connection *)

(** The operations a connection performs on its window. *)
Inductive credit_op : Type := OReserve (charge : Z) | OGrant (credits : Z).

Definition op_wf (o : credit_op) : Prop :=
  match o with OReserve c => u16 c | OGrant c => u16 c end.

Definition apply_op (o : credit_op) : st CreditManager.t unit :=
  match o with
  | OReserve c => CreditManager.reserve c
  | OGrant c => CreditManager.grant c
  end.

(** A run of operations whatever each of them returns, with what it reserved
    and what it was granted. *)
Fixpoint run_ops (s : CreditManager.t) (reserved granted : Z) (ops : list credit_op) :
    outcome Empty_set (CreditManager.t * Z * Z) :=
  match ops with
  | [] => Ok (s, reserved, granted)
  | o :: ops =>
      match apply_op o s with
      | (Ok _, s') =>
          match o with
          | OReserve c => run_ops s' (reserved + Z.max c 1) granted ops
          | OGrant c => run_ops s' reserved (granted + c) ops
          end
      | (Err _, s') => run_ops s' reserved granted ops
      | (Panic, _) => Panic
      | (OutOfFuel, _) => OutOfFuel
      end
  end.

Lemma run_ops_meets s reserved granted ops :
  CreditManager.wf s -> Forall op_wf ops ->
  meets (run_ops s reserved granted ops) (fun '(s', reserved', granted') =>
    CreditManager.wf s' /\
    CreditManager.available s' - CreditManager.available s
    = (granted' - granted) - (reserved' - reserved)).
Proof.
  intros Hwf Hops. revert s reserved granted Hwf.
  induction Hops as [|o ops Ho _ IH]; intros s reserved granted Hwf; cbn [run_ops].
  - cbn. split; [done|lia].
  - destruct o as [c|c]; cbn [apply_op op_wf] in *.
    + pose proof (CreditManager.reserve_wf c s Hwf ltac:(apply Ho)) as H.
      unfold run_meets in H. destruct (CreditManager.reserve c s) as [[[]|e| |] s'];
        destruct H as (Hr & Hwf' & H); try done.
      * eapply meets_mono; [by apply IH|]. intros [[s2 r2] g2] [? ?]. split; [done|lia].
      * destruct H as [-> _]. by apply IH.
    + pose proof (CreditManager.grant_wf c s Hwf Ho) as H.
      unfold run_meets in H. destruct (CreditManager.grant c s) as [[[]|e| |] s'];
        destruct H as (Hr & Hwf' & H); try done.
      * eapply meets_mono; [by apply IH|]. intros [[s2 r2] g2] [? ?]. split; [done|lia].
      * destruct H as [-> _]. by apply IH.
Qed.

(** ** Properties *)

(** C36: the credit window is never overdrawn: from a window opened with [initial]
    credits, any sequence of reservations and grants (each one may be refused)
    leaves a window equal to what the server granted less what was reserved,
    between 0 and the 32-bit maximum; a request hint always asks for at least
    one credit and at least the caller's minimum. *)
Theorem credit_window_sound (initial : Z) (ops : list credit_op) (minimum : Z)
    (Hi : u16 initial) (Hops : Forall op_wf ops) (Hm : u16 minimum) :
  match CreditManager.new initial with
  | Ok s => exists s' reserved granted,
      run_ops s 0 0 ops = Ok (s', reserved, granted) /\
      CreditManager.available s' = initial + granted - reserved /\
      0 <= CreditManager.available s' <= u32_max /\
      Z.max minimum 1 <= CreditManager.request_hint s' minimum <= u16_max /\
      (CreditManager.request_hint s' minimum <= Z.max minimum 1 \/
       CreditManager.available s' + CreditManager.request_hint s' minimum
       = DEFAULT_TARGET_CREDITS)
  | Err _ => initial = 0
  | _ => False
  end.
Proof.
  destruct (CreditManager.new initial) as [s|e| |] eqn:Hnew.
  2-4: unfold CreditManager.new in Hnew; destruct (Z.eqb_spec initial 0); naive_solver.
  apply CreditManager.new_ok in Hnew as (Hwf & <- & Hpos); [|done].
  pose proof (run_ops_meets s 0 0 ops Hwf Hops) as H.
  destruct (run_ops s 0 0 ops) as [[[s' r] g]| | |]; try done. destruct H as [[[? ?] Ht] Hl].
  exists s', r, g. split; [done|]. split; [lia|]. split; [unfold u32_max; lia|].
  unfold CreditManager.request_hint, saturating_sub, u16_max. rewrite Ht.
  unfold DEFAULT_TARGET_CREDITS, uint in *. rewrite Z.mod_small by lia. split; lia.
Qed.

Lemma credit_window_sound_witness :
  exists s' reserved granted,
    run_ops (CreditManager.mk 8 128) 0 0 [OReserve 4; OReserve 9; OGrant 6] = Ok (s', reserved, granted)
    /\ CreditManager.available s' = 8 + granted - reserved.
Proof.
  destruct (credit_window_sound 8 [OReserve 4; OReserve 9; OGrant 6] 1)
    as (s' & r & g & Hrun & Hav & _); [uint_solve|repeat constructor; uint_solve|uint_solve|].
  exists s', r, g. split; [exact Hrun|exact Hav].
Defined.
