(* ===== verification/MessageIds.v ===== *)
(** * MessageIds

    [crates/smb-client/src/message_id.rs]: one atomic counter hands out the
    sequence numbers of a connection. [allocate] is a compare-exchange loop that
    several tasks may run at once, so it is a step relation here; the sequential
    meaning the rest of the client uses is proved to be a run of it. *)
From S2P Require Import Prelude WireError Client.
From stdpp Require Import relations.
#[local] Open Scope Z_scope.

Definition exhausted : ClientError := Protocol "SMB MessageId space exhausted".

(** ** Sequential meaning *)

(** [allocate] when no other task touches the counter meanwhile; the state is
    the counter. *)
Definition allocate (credit_charge : Z) : st Z Z := fun next =>
  let width := Z.max credit_charge 1 in
  match checked_add u64_max next width with
  | Some next' => (Ok next, next')
  | None => (Err exhausted, next)
  end.

Definition peek : st Z Z := sget id.

(** ** Interleaved executions *)

(** Where a call of [allocate] is: about to load, in the loop with the value of
    [current], or returned. *)
Inductive call : Type :=
  | Start (width : Z)
  | Loop (width current : Z)
  | Returned (width id : Z)
  | Exhausted (width : Z).

(** The counter, every value it has held (a relaxed load may return an old
    one), and the calls made so far. *)
Record world : Type := World { next : Z; history : list Z; calls : list call }.

Definition initial : world := World 0 [0] [].

Inductive step : relation world :=
  | step_call n hs cs credit_charge :
      u16 credit_charge ->
      step (World n hs cs) (World n hs (cs ++ [Start (Z.max credit_charge 1)]))
  | step_load n hs cs i width v :
      cs !! i = Some (Start width) -> v ∈ hs ->
      step (World n hs cs) (World n hs (<[i := Loop width v]> cs))
  | step_exhausted n hs cs i width current :
      cs !! i = Some (Loop width current) -> checked_add u64_max current width = None ->
      step (World n hs cs) (World n hs (<[i := Exhausted width]> cs))
  | step_exchanged n hs cs i width current next' :
      cs !! i = Some (Loop width current) ->
      checked_add u64_max current width = Some next' -> current = n ->
      step (World n hs cs) (World next' (next' :: hs) (<[i := Returned width current]> cs))
  | step_retry n hs cs i width current next' observed :
      cs !! i = Some (Loop width current) ->
      checked_add u64_max current width = Some next' -> observed ∈ hs ->
      step (World n hs cs) (World n hs (<[i := Loop width observed]> cs)).

Definition reachable (w : world) : Prop := rtc step initial w.

(** ** The invariant *)

(** The sequence numbers handed out by returned calls. *)
Definition span (c : call) : Z := match c with Returned width _ => width | _ => 0 end.
Fixpoint spans (cs : list call) : Z :=
  match cs with [] => 0 | c :: cs => span c + spans cs end.

Definition call_width (c : call) : Z :=
  match c with Start w | Loop w _ | Returned w _ | Exhausted w => w end.

Definition disjoint_calls (c1 c2 : call) : Prop :=
  match c1, c2 with
  | Returned w1 id1, Returned w2 id2 => id1 + w1 <= id2 \/ id2 + w2 <= id1
  | _, _ => True
  end.

Definition call_inside (n : Z) (c : call) : Prop :=
  match c with Returned w id => 0 <= id /\ id + w <= n | _ => True end.

Record inv (w : world) : Prop := {
  inv_next : 0 <= next w <= u64_max;
  inv_current : next w ∈ history w;
  inv_history : Forall (fun v => 0 <= v <= next w) (history w);
  inv_width : Forall (fun c => 1 <= call_width c <= 65535) (calls w);
  inv_inside : Forall (call_inside (next w)) (calls w);
  inv_sum : spans (calls w) = next w;
  inv_disjoint : forall i j c1 c2, i <> j ->
    calls w !! i = Some c1 -> calls w !! j = Some c2 -> disjoint_calls c1 c2
}.

Lemma spans_app cs1 cs2 : spans (cs1 ++ cs2) = spans cs1 + spans cs2.
Proof. induction cs1; cbn; lia. Qed.

Lemma spans_insert cs i c c' :
  cs !! i = Some c -> spans (<[i := c']> cs) = spans cs - span c + span c'.
Proof.
  revert i. induction cs as [|c0 cs IH]; intros [|i] Hi; try done.
  - injection Hi as ->. cbn. lia.
  - change (span c0 + spans (<[i := c']> cs) = span c0 + spans cs - span c + span c').
    rewrite (IH i Hi). lia.
Qed.

Lemma inv_initial : inv initial.
Proof.
  constructor; unfold initial; cbn [next history calls]; try done;
    by first [by left|by apply Forall_singleton].
Qed.

(** A call that changes without returning keeps the invariant. *)
Lemma inv_update n hs cs i c c' :
  inv (World n hs cs) -> cs !! i = Some c -> span c = 0 -> span c' = 0 ->
  call_width c' = call_width c -> (forall w id, c' <> Returned w id) ->
  inv (World n hs (<[i := c']> cs)).
Proof.
  intros [Hn Hcur Hh Hw Hin Hs Hd] Hi Hc Hc' Hwc Hnr. constructor; cbn [next history calls] in *; try done.
  - apply Forall_insert; [done|]. rewrite Hwc. by apply (Forall_lookup_1 _ _ _ _ Hw Hi).
  - apply Forall_insert; [done|]. destruct c'; try done. by destruct (Hnr width id).
  - rewrite (spans_insert _ _ _ _ Hi). lia.
  - intros j k c1 c2 Hjk Hj Hk.
    destruct (decide (j = i)) as [->|]; [|destruct (decide (k = i)) as [->|]].
    + rewrite list_lookup_insert_eq in Hj by (by eapply lookup_lt_Some). injection Hj as <-.
      destruct c' as [| |wd id|]; try done. by destruct (Hnr wd id).
    + rewrite list_lookup_insert_eq in Hk by (by eapply lookup_lt_Some). injection Hk as <-.
      destruct c1, c' as [| |wd id'|]; try done. by destruct (Hnr wd id').
    + rewrite list_lookup_insert_ne in Hj, Hk by done. exact (Hd j k c1 c2 Hjk Hj Hk).
Qed.

Lemma inv_step w w' : inv w -> step w w' -> inv w'.
Proof.
  intros Hinv Hstep.
  destruct Hstep as [n hs cs ch Hch|n hs cs i wd v Hi Hv|n hs cs i wd cur Hi Hov
                    |n hs cs i wd cur nx Hi Hadd ->|n hs cs i wd cur nx v Hi Hadd Hv].
  - destruct Hinv as [Hn Hcur Hh Hw Hin Hs Hd]. constructor; cbn [next history calls] in *; try done.
    + apply Forall_app. split; [done|]. apply Forall_singleton. cbn. unfold uint in Hch. lia.
    + apply Forall_app. split; [done|]. by apply Forall_singleton.
    + rewrite spans_app. cbn. lia.
    + intros i j c1 c2 Hij Hi Hj.
      apply lookup_app_Some in Hi as [Hi|[_ Hi]], Hj as [Hj|[_ Hj]].
      * exact (Hd i j c1 c2 Hij Hi Hj).
      * apply list_lookup_singleton_Some in Hj as [_ <-]. by destruct c1.
      * apply list_lookup_singleton_Some in Hi as [_ <-]. done.
      * apply list_lookup_singleton_Some in Hi as [_ <-]. done.
  - by eapply inv_update.
  - by eapply inv_update.
  - apply checked_add_some in Hadd as [-> Hmax].
    destruct Hinv as [Hn Hcur Hh Hw Hin Hs Hd]. cbn [next history calls] in *.
    pose proof (Forall_lookup_1 _ _ _ _ Hw Hi) as Hwd. cbn in Hwd.
    constructor; cbn [next history calls].
    + lia.
    + by left.
    + constructor; [lia|]. eapply Forall_impl; [exact Hh|]. cbn. lia.
    + apply Forall_insert; [done|]. done.
    + apply Forall_insert; [|cbn; lia].
      eapply Forall_impl; [exact Hin|]. intros []; cbn; try done. lia.
    + rewrite (spans_insert _ _ _ _ Hi). cbn [span]. lia.
    + intros j k c1 c2 Hjk Hj Hk.
      destruct (decide (j = i)) as [->|]; [|destruct (decide (k = i)) as [->|]].
      * rewrite list_lookup_insert_eq in Hj by (by eapply lookup_lt_Some). injection Hj as <-.
        rewrite list_lookup_insert_ne in Hk by done.
        pose proof (Forall_lookup_1 _ _ _ _ Hin Hk) as Hc. destruct c2; cbn in *; try done. lia.
      * rewrite list_lookup_insert_eq in Hk by (by eapply lookup_lt_Some). injection Hk as <-.
        rewrite list_lookup_insert_ne in Hj by done.
        pose proof (Forall_lookup_1 _ _ _ _ Hin Hj) as Hc. destruct c1; cbn in *; try done. lia.
      * rewrite list_lookup_insert_ne in Hj, Hk by done. exact (Hd j k c1 c2 Hjk Hj Hk).
  - by eapply inv_update.
Qed.

Lemma reachable_inv w : reachable w -> inv w.
Proof.
  unfold reachable. intros Hr. pose proof inv_initial as Hinv. revert Hinv.
  induction Hr as [|w1 w2 w3 Hs _ IH]; [done|]. intros Hinv. apply IH. by eapply inv_step.
Qed.

(** ** Properties *)

(** C35: concurrent allocations never share a MessageId: in every execution of
    any number of interleaved calls, with stale loads and spurious failures,
    the spans of sequence numbers of two returned calls are disjoint, every
    span lies below the counter, and the counter is exactly the number of
    sequence numbers handed out, so none is lost either. *)
Theorem message_ids_disjoint (w : world) (Hw : reachable w) :
  (forall i j w1 id1 w2 id2, i <> j ->
     calls w !! i = Some (Returned w1 id1) -> calls w !! j = Some (Returned w2 id2) ->
     forall id, ~ (id1 <= id < id1 + w1 /\ id2 <= id < id2 + w2)) /\
  (forall i wd id, calls w !! i = Some (Returned wd id) ->
     1 <= wd /\ 0 <= id /\ id + wd <= next w <= u64_max) /\
  spans (calls w) = next w.
Proof.
  apply reachable_inv in Hw as [Hn Hcur Hh Hwd Hin Hs Hd]. split; [|split; [|done]].
  - intros i j w1 id1 w2 id2 Hij Hi Hj id. specialize (Hd i j _ _ Hij Hi Hj). cbn in Hd. lia.
  - intros i wd id Hi. pose proof (Forall_lookup_1 _ _ _ _ Hin Hi) as [? ?].
    pose proof (Forall_lookup_1 _ _ _ _ Hwd Hi) as Hwid. cbn in Hwid. lia.
Qed.

Lemma message_ids_disjoint_witness :
  (1 <= 1 /\ 0 <= 0 /\ 0 + 1 <= 3 <= u64_max) /\ ~ (0 <= 0 < 0 + 1 /\ 1 <= 0 < 1 + 2).
Proof.
  assert (reachable (World 3 [3; 1; 0] [Returned 1 0; Returned 2 1])) as Hr.
  { eapply rtc_l; [apply (step_call 0 [0] [] 0); uint_solve|].
    eapply rtc_l; [apply (step_call 0 [0] [Start 1] 2); uint_solve|].
    eapply rtc_l; [apply (step_load 0 [0] [Start 1; Start 2] 1 2 0); [done|by left]|].
    eapply rtc_l; [apply (step_load 0 [0] [Start 1; Loop 2 0] 0 1 0); [done|by left]|].
    eapply rtc_l; [by apply (step_exchanged 0 [0] [Loop 1 0; Loop 2 0] 0 1 0 1)|].
    eapply rtc_l; [apply (step_retry 1 [1; 0] [Returned 1 0; Loop 2 0] 1 2 0 2 1); [done|done|by left]|].
    eapply rtc_l; [by apply (step_exchanged 1 [1; 0] [Returned 1 0; Loop 2 1] 1 2 1 3)|].
    apply rtc_refl. }
  destruct (message_ids_disjoint _ Hr) as (Hd & Hin & _). split.
  - exact (Hin 0%nat 1 0 eq_refl).
  - exact (Hd 0%nat 1%nat 1 0 2 1 ltac:(lia) eq_refl eq_refl 0).
Defined.

(** A call of [allocate] can always finish on its own, and then does what
    the sequential definition says: from any reachable state, a call that has
    not returned needs at most three more steps of its own to return the value
    of the counter and advance it by the width, or, when the 64-bit space is
    used up, to fail without moving the counter. *)
Theorem allocate_finishes (w : world) (i : nat) (charge : Z)
    (Hw : reachable w)
    (Hi : calls w !! i = Some (Start (Z.max charge 1)) \/
          exists cur, calls w !! i = Some (Loop (Z.max charge 1) cur) /\
                      cur + Z.max charge 1 <= u64_max) :
  exists w', rtc step w w' /\
    match allocate charge (next w) with
    | (Ok id, next') =>
        calls w' !! i = Some (Returned (Z.max charge 1) id) /\ next w' = next'
    | (Err _, next') =>
        calls w' !! i = Some (Exhausted (Z.max charge 1)) /\ next w' = next'
    | _ => False
    end.
Proof.
  apply reachable_inv in Hw as [Hn Hcur _ _ _ _ _]. destruct w as [n hs cs]. cbn in *.
  assert (exists w1, rtc step (World n hs cs) w1 /\ next w1 = n /\ history w1 = hs /\
            calls w1 !! i = Some (Loop (Z.max charge 1) n)) as (w1 & Hr & Hn1 & Hh1 & Hi1).
  { destruct Hi as [Hi|(cur & Hi & Hcurw)];
      exists (World n hs (<[i := Loop (Z.max charge 1) n]> cs)); cbn;
      rewrite list_lookup_insert_eq by (by eapply lookup_lt_Some); (split; [|done]);
      apply rtc_once; [by apply step_load|].
    by eapply step_retry; [exact Hi|by apply checked_add_some|]. }
  destruct w1 as [n1 hs1 cs1]. cbn in *. subst n1 hs1. unfold allocate.
  destruct (checked_add u64_max n (Z.max charge 1)) as [n'|] eqn:Hadd.
  - exists (World n' (n' :: hs) (<[i := Returned (Z.max charge 1) n]> cs1)). cbn.
    rewrite list_lookup_insert_eq by (by eapply lookup_lt_Some). split; [|done].
    eapply rtc_r; [exact Hr|]. by eapply step_exchanged.
  - exists (World n hs (<[i := Exhausted (Z.max charge 1)]> cs1)). cbn.
    rewrite list_lookup_insert_eq by (by eapply lookup_lt_Some). split; [|done].
    eapply rtc_r; [exact Hr|]. by eapply step_exhausted.
Qed.

Lemma allocate_finishes_witness :
  exists w', rtc step (World 0 [0] [Start 1]) w' /\
    calls w' !! 0%nat = Some (Returned 1 0) /\ next w' = 1.
Proof.
  apply (allocate_finishes (World 0 [0] [Start 1]) 0 0).
  - apply rtc_once. apply (step_call 0 [0] [] 0). uint_solve.
  - by left.
Defined.
