(* ===== verification/AsyncResponse.v ===== *)
(** * Asynchronous responses

    [crates/smb-client/src/async_response.rs]: the per-request state machine
    that tells an interim STATUS_PENDING response from the final one and keeps
    the AsyncId the server gave the request. *)
From S2P Require Import Prelude WireError Header Client.

Definition STATUS_PENDING : Z := 0x00000103.

Inductive ResponsePhase : Type := InterimPending | Final.

#[export] Instance ResponsePhase_eq_dec : EqDecision ResponsePhase.
Proof. solve_decision. Defined.

Definition requires_signature (phase : ResponsePhase) (signing_required : bool) : bool :=
  signing_required && bool_decide (phase = Final).

Module AsyncResponseState.

(** The [async_id] field. *)
Definition t : Type := option Z.
Definition default : t := None.

Definition validate (expected_command : Command.t) (tree_id session message : Z)
    (header : Smb2Header) : st t ResponsePhase := fun self =>
  if negb (bool_decide (command header = expected_command))
  then (Err (Protocol "async response command does not match request"), self) else
  if negb (message_id header =? message)
  then (Err (Protocol "async response MessageId does not match request"), self) else
  if negb (session_id header =? session)
  then (Err (Protocol "async response SessionId does not match session"), self) else
  match status header with
  | ChannelSequence _ _ => (Err (Protocol "async response used request header form"), self)
  | Status status =>
      match hdr_id header with
      | Sync _ received_tree_id =>
          if bool_decide (is_Some self)
          then (Err (Protocol "asynchronous final response reverted to sync header form"), self)
          else if status =? STATUS_PENDING
          then (Err (Protocol "STATUS_PENDING response did not use async header form"), self)
          else if negb (received_tree_id =? tree_id)
          then (Err (Protocol "response TreeId does not match request tree"), self)
          else (Ok Final, self)
      | Async async_id =>
          if async_id =? 0
          then (Err (Protocol "asynchronous response has a zero AsyncId"), self) else
          match self with
          | Some expected =>
              if negb (expected =? async_id)
              then (Err (Protocol "asynchronous response AsyncId changed before completion"), self)
              else ((if status =? STATUS_PENDING then Ok InterimPending else Ok Final), self)
          | None =>
              ((if status =? STATUS_PENDING then Ok InterimPending else Ok Final), Some async_id)
          end
      end
  end.

End AsyncResponseState.

(** ** Sequences of responses to one request *)

(** The header answers this request with [s] as its status. *)
Definition answers (cmd : Command.t) (session message s : Z) (h : Smb2Header) : Prop :=
  command h = cmd /\ message_id h = message /\ session_id h = session /\ status h = Status s.

(** The headers received for one request, the last one being accepted as final
    and all others as interim. *)
Fixpoint accept_responses (cmd : Command.t) (tree session message : Z) (hs : list Smb2Header) :
    st AsyncResponseState.t unit :=
  match hs with
  | [] => slift (Err (Protocol "no response"))
  | h :: rest =>
      do! phase := AsyncResponseState.validate cmd tree session message h in
      match phase, rest with
      | Final, [] => sret tt
      | InterimPending, _ => accept_responses cmd tree session message rest
      | Final, _ :: _ => slift (Err (Protocol "response after the final one"))
      end
  end.

(** What a server may send: one synchronous response for the request's tree, or
    any number of interim responses and a final one, all with the one non-zero
    AsyncId. *)
Definition conforming (cmd : Command.t) (tree session message : Z) (known : option Z)
    (hs : list Smb2Header) : Prop :=
  (known = None /\ exists h s p, hs = [h] /\ answers cmd session message s h /\
     s <> STATUS_PENDING /\ hdr_id h = Sync p tree) \/
  (exists a interim final s, hs = interim ++ [final] /\ a <> 0 /\
     (known = None \/ known = Some a) /\
     Forall (fun h => answers cmd session message STATUS_PENDING h /\ hdr_id h = Async a) interim /\
     answers cmd session message s final /\ s <> STATUS_PENDING /\ hdr_id final = Async a).

Section validate.
Context (cmd : Command.t) (tree session message : Z).
Abbreviation validate := (AsyncResponseState.validate cmd tree session message).

(** The outcomes of one step. *)
Lemma validate_ok h self phase self' :
  validate h self = (Ok phase, self') <->
  exists s, answers cmd session message s h /\
    ((exists p, hdr_id h = Sync p tree /\ self = None /\ self' = None /\
                s <> STATUS_PENDING /\ phase = Final) \/
     (exists a, hdr_id h = Async a /\ a <> 0 /\ (self = None \/ self = Some a) /\
                self' = Some a /\
                phase = if s =? STATUS_PENDING then InterimPending else Final)).
Proof.
  unfold AsyncResponseState.validate, answers. split.
  - repeat case_match; intros [= <- <-]; bool_facts;
      eexists; (split; [by eauto|]).
    { left. eexists. subst. by rewrite <- eq_None_not_Some in *. }
    all: right; eexists; (split; [done|]); (split; [done|]); split; [by subst; eauto|];
      (split; [by subst|]); by destruct (Z.eqb_spec status STATUS_PENDING).
  - intros (s & (Hc & Hm & Hs & Hst) & H). rewrite Hst.
    rewrite bool_decide_true, (proj2 (Z.eqb_eq _ _)), (proj2 (Z.eqb_eq _ _)) by done. cbn [negb].
    destruct H as [(p & -> & -> & -> & Hp & ->)|(a & -> & Ha & Hself & -> & ->)].
    + rewrite bool_decide_false by by intros []. rewrite (proj2 (Z.eqb_neq _ _)) by done.
      by rewrite Z.eqb_refl.
    + rewrite (proj2 (Z.eqb_neq _ _)) by done. destruct Hself as [->| ->].
      * by destruct (s =? _).
      * rewrite Z.eqb_refl. by destruct (s =? _).
Qed.

(** A refused response leaves the state as it was. *)
Lemma validate_err h self e self' :
  validate h self = (Err e, self') -> self' = self.
Proof. unfold AsyncResponseState.validate. repeat case_match; naive_solver. Qed.

Lemma async_returns_validate h self : returns (validate h self).1.
Proof. unfold AsyncResponseState.validate. by repeat case_match. Qed.
End validate.

Section accept.
Context (cmd : Command.t) (tree session message : Z).

Lemma accept_responses_ok hs self self' :
  accept_responses cmd tree session message hs self = (Ok tt, self') <->
  conforming cmd tree session message self hs /\
  self' = match last hs with Some h => match hdr_id h with Async a => Some a | _ => None end
          | None => None end.
Proof.
  revert self. induction hs as [|h rest IH]; intros self; cbn [accept_responses].
  - split; [done|]. intros [[(_ & h & s & p & ? & _)|(a & i & f & s & Hi & _)] _]; [done|].
    by destruct i.
  - rewrite sbind_ok. split.
    + intros (phase & s1 & Hv & Hk).
      apply validate_ok in Hv as (s & Hans & [(p & Hid & -> & -> & Hs & ->)
                                             |(a & Hid & Ha & Hself & -> & ->)]).
      * destruct rest; [|done]. injection Hk as <-. split; [|cbn; by rewrite Hid].
        left. split; [done|]. by exists h, s, p.
      * destruct (Z.eqb_spec s STATUS_PENDING) as [->|Hs].
        -- apply IH in Hk as [Hconf ->].
           destruct Hconf as [(? & _)|(a' & i & f & s' & -> & Ha' & [?|[= <-]] & Hall & Hf)];
             [done|done|].
           split; [|by rewrite app_comm_cons, !last_snoc]. right.
           exists a, (h :: i), f, s'. split; [done|]. split; [done|]. split; [done|].
           split; [by constructor|done].
        -- destruct rest; [|done]. injection Hk as <-. split; [|cbn; by rewrite Hid].
           right. exists a, [], h, s. by split_and!.
    + intros [Hconf ->].
      destruct Hconf as [(-> & h' & s & p & [= <- ->] & Hans & Hs & Hid)
                        |(a & i & f & s & Heq & Ha & Hself & Hall & Hf & Hs & Hid)].
      * exists Final, None. rewrite validate_ok. split; [|cbn; by rewrite Hid].
        exists s. split; [done|]. left. by exists p.
      * destruct i as [|h' i]; injection Heq as -> ->.
        -- exists Final, (Some a). rewrite validate_ok. split; [|cbn; by rewrite Hid].
           exists s. split; [done|]. right. exists a.
           by rewrite (proj2 (Z.eqb_neq _ _)) by done.
        -- apply Forall_cons in Hall as [[Hans Hid'] Hall].
           exists InterimPending, (Some a). rewrite validate_ok. split.
           ++ exists STATUS_PENDING. split; [done|]. right. by exists a.
           ++ apply IH. rewrite app_comm_cons, !last_snoc. split; [|done].
              right. exists a, i, f, s. split_and!; try done. by right.
Qed.

(** A response accepted as interim extends a conforming sequence; one accepted
    as final is one by itself. *)
Lemma conforming_cons h hs self self' :
  AsyncResponseState.validate cmd tree session message h self = (Ok InterimPending, self') ->
  conforming cmd tree session message self' hs -> conforming cmd tree session message self (h :: hs).
Proof.
  intros Hv Hc. pose proof (proj2 (accept_responses_ok hs self' _) (conj Hc eq_refl)) as Ha.
  eapply proj1, accept_responses_ok. cbn [accept_responses]. unfold sbind. rewrite Hv. exact Ha.
Qed.

Lemma conforming_final h self self' :
  AsyncResponseState.validate cmd tree session message h self = (Ok Final, self') ->
  conforming cmd tree session message self [h].
Proof.
  intros Hv. eapply proj1, (accept_responses_ok [h] self self').
  cbn [accept_responses]. unfold sbind. by rewrite Hv.
Qed.
End accept.

(** ** Properties *)

(** C37: a request completes exactly on the response sequences a conforming
    server sends: one synchronous response for the request's own tree, command,
    session and MessageId, or interim STATUS_PENDING responses and a final one
    that all carry one non-zero AsyncId; the state then holds that identifier.
    Anything else - a changed AsyncId, a return to the synchronous form, a
    pending status without an AsyncId, another request's response - is refused,
    and a refused response does not change the state. *)
Theorem async_responses_iff (cmd : Command.t) (tree session message : Z)
    (hs : list Smb2Header) :
  (forall self', accept_responses cmd tree session message hs AsyncResponseState.default
                 = (Ok tt, self') <->
   conforming cmd tree session message None hs /\
   self' = match last hs with
           | Some h => match hdr_id h with Async a => Some a | Sync _ _ => None end
           | None => None
           end) /\
  (forall h self, returns (AsyncResponseState.validate cmd tree session message h self).1) /\
  (forall h self e self', AsyncResponseState.validate cmd tree session message h self
                          = (Err e, self') -> self' = self).
Proof.
  split; [intros self'; apply accept_responses_ok|]. split.
  - apply async_returns_validate.
  - apply validate_err.
Qed.

(** A session that requires signing accepts an unsigned response only in the
    interim: whatever the state, a response with a status other than
    STATUS_PENDING is final, so its signature is required. *)
Theorem final_response_needs_signature (cmd : Command.t) (tree session message s : Z)
    (h : Smb2Header) (self self' : AsyncResponseState.t) (phase : ResponsePhase)
    (Hv : AsyncResponseState.validate cmd tree session message h self = (Ok phase, self'))
    (Hs : status h = Status s) :
  requires_signature phase true = negb (s =? STATUS_PENDING).
Proof.
  apply validate_ok in Hv as (s' & (_ & _ & _ & Hst) & H). rewrite Hst in Hs. injection Hs as ->.
  destruct H as [(p & _ & _ & _ & Hp & ->)|(a & _ & _ & _ & _ & ->)].
  - by rewrite (proj2 (Z.eqb_neq _ _)).
  - by destruct (s =? STATUS_PENDING).
Qed.

Lemma final_response_needs_signature_witness :
  requires_signature Final true = negb (0 =? STATUS_PENDING).
Proof.
  apply (final_response_needs_signature Command.Read 2 7 5 0
           (mkSmb2Header 0 (Status 0) Command.Read 1 1 0 5 (Sync 0 2) 7 []) None None);
    reflexivity.
Defined.
