(* ===== verification/Transport.v ===== *)
(** * The transport interface and direct TCP

    [crates/smb-client/src/transport.rs]: the message-oriented interface the
    client's state machine is written against, and its TCP implementation, which
    reassembles length-prefixed frames from whatever chunks the socket yields. *)
From S2P Require Import Prelude WireError Frame Client.

(** ** The interface *)

(** [trait Transport]. A call that never completes (the peer stays silent) is
    [OutOfFuel]. *)
Class Transport (T : Type) : Type := {
  send_message : bytes -> st T unit;
  receive_message : st T bytes
}.

(** What the client relies on: [pending t m rest] says that the transport will
    deliver [m] next and then be in a state that delivers [rest]. *)
Class TransportLaws (T : Type) `{Transport T} : Type := {
  delivers : T -> list bytes -> Prop;
  receive_delivers t m rest :
    delivers t (m :: rest) -> exists t', receive_message t = (Ok m, t') /\ delivers t' rest
}.

(** Neither operation panics, whatever the state. *)
Class TransportSafe (T : Type) `{Transport T} : Prop := {
  send_no_panic (t : T) m : (send_message m t).1 <> Panic;
  receive_no_panic (t : T) : (receive_message t).1 <> Panic
}.

(** ** Direct TCP *)

Module TcpTransportConfig.
Record t : Type := mk {
  connect_timeout : Z;
  io_timeout : Z;
  max_message_size : Z;
  tcp_nodelay : bool
}.
(** Durations in milliseconds. *)
Definition default : t :=
  {| connect_timeout := 8000; io_timeout := 30000; max_message_size := DIRECT_TCP_MAX_PAYLOAD;
     tcp_nodelay := true |}.
End TcpTransportConfig.

(** What a read of the socket yields: up to 64 KiB of data (none at the end of
    the stream), a timeout, or an I/O error. *)
Inductive read_event : Type :=
  | ReadData (chunk : bytes)
  | ReadTimeout
  | ReadError (kind : ErrorKind).

(** How a [write_all] ends; a failed one may have written a part. *)
Inductive write_event : Type :=
  | WriteDone
  | WriteTimeout (part : Z)
  | WriteError (part : Z) (kind : ErrorKind).

(** The socket: what its reads will yield, how its writes will end, and what
    has been written to it. *)
Record TcpStream : Type := mkTcpStream {
  reads : list read_event;
  writes : list write_event;
  written : bytes
}.

Module TcpTransport.

Record t : Type := mk { stream : TcpStream; max_message_size : Z; read_buffer : bytes }.

(** [connect], on the outcome of the TCP connection attempt. *)
Definition connect (config : TcpTransportConfig.t) (attempt : client TcpStream) : client t :=
  if (TcpTransportConfig.max_message_size config =? 0)
     || (DIRECT_TCP_MAX_PAYLOAD <? TcpTransportConfig.max_message_size config)
  then Err (Protocol "TCP max_message_size must fit the 24-bit direct-TCP length field") else
  let! stream := attempt in
  Ok {| stream := stream; max_message_size := TcpTransportConfig.max_message_size config;
        read_buffer := [] |}.

(** [v.copy_within(a..b, dest)]. *)
Definition copy_within (v : bytes) (a b dest : Z) : client bytes :=
  let! moved := slice v a b in copy_from_slice v dest (dest + (b - a)) moved.

(** [try_take_message], on the read buffer. *)
Definition try_take_message (max_message_size : Z) : st bytes (option bytes) := fun buffer =>
  if len buffer <? DIRECT_TCP_HEADER_SIZE then (Ok None, buffer) else
  match (let! header := slice buffer 0 DIRECT_TCP_HEADER_SIZE in
         let! payload_len := from_wire (decode_direct_tcp_length header) in
         if max_message_size <? payload_len
         then Err (Protocol "SMB peer advertised a frame larger than configured transport maximum")
         else
         let! frame_len := ok_or (checked_add usize_max DIRECT_TCP_HEADER_SIZE payload_len)
                                 (Protocol "direct-TCP frame length overflow") in
         Ok (payload_len, frame_len)) with
  | Ok (payload_len, frame_len) =>
      if len buffer <? frame_len then (Ok None, buffer) else
      let frame := take (Z.to_nat frame_len) buffer in
      let remainder := drop (Z.to_nat frame_len) buffer in
      (let! frame := copy_within frame DIRECT_TCP_HEADER_SIZE frame_len 0 in
       Ok (Some (truncate frame payload_len)), remainder)
  | Err e => (Err e, buffer)
  | Panic => (Panic, buffer)
  | OutOfFuel => (OutOfFuel, buffer)
  end.

(** The loop of [receive_message], over the reads still to come. *)
Fixpoint receive_loop (max_message_size : Z) (reads : list read_event) (buffer : bytes) :
    client bytes * (list read_event * bytes) :=
  match try_take_message max_message_size buffer with
  | (Ok (Some message), buffer) => (Ok message, (reads, buffer))
  | (Err e, buffer) => (Err e, (reads, buffer))
  | (Panic, buffer) => (Panic, (reads, buffer))
  | (OutOfFuel, buffer) => (OutOfFuel, (reads, buffer))
  | (Ok None, buffer) =>
      match reads with
      | [] => (OutOfFuel, ([], buffer))
      | ReadTimeout :: reads => (Err (Timeout_ "TCP message read"), (reads, buffer))
      | ReadError kind :: reads => (Err (Io kind), (reads, buffer))
      | ReadData chunk :: reads =>
          if len chunk =? 0 then (Err (Io UnexpectedEof), (reads, buffer))
          else receive_loop max_message_size reads (buffer ++ chunk)
      end
  end.

Definition receive_message : st t bytes := fun s =>
  let '(r, (reads', buffer)) :=
    receive_loop (max_message_size s) (reads (stream s)) (read_buffer s) in
  (r, {| stream := {| reads := reads'; writes := writes (stream s);
                      written := written (stream s) |};
         max_message_size := max_message_size s;
         read_buffer := buffer |}).

(** [stream.write_all(frame)]. *)
Definition write_all (frame : bytes) : st TcpStream unit := fun s =>
  match writes s with
  | [] => (OutOfFuel, s)
  | WriteDone :: rest =>
      (Ok tt, {| reads := reads s; writes := rest; written := written s ++ frame |})
  | WriteTimeout part :: rest =>
      (Err (Timeout_ "TCP write"),
       {| reads := reads s; writes := rest; written := written s ++ truncate frame part |})
  | WriteError part kind :: rest =>
      (Err (Io kind),
       {| reads := reads s; writes := rest; written := written s ++ truncate frame part |})
  end.

Definition send_message (message : bytes) : st t unit := fun s =>
  if max_message_size s <? len message
  then (Err (Protocol "SMB message exceeds configured transport maximum"), s) else
  match from_wire (encode_direct_tcp_frame message) with
  | Ok frame =>
      let '(r, stream') := write_all frame (stream s) in
      (r, {| stream := stream'; max_message_size := max_message_size s;
             read_buffer := read_buffer s |})
  | Err e => (Err e, s)
  | Panic => (Panic, s)
  | OutOfFuel => (OutOfFuel, s)
  end.

End TcpTransport.

#[export] Instance TcpTransport_transport : Transport TcpTransport.t := {|
  send_message := TcpTransport.send_message;
  receive_message := TcpTransport.receive_message
|}.

(** ** Reassembly *)

Definition frame_of (m : bytes) : bytes := frame_header (len m) ++ m.
Definition frames (ms : list bytes) : bytes := ms ≫= frame_of.

Section reassembly.
Context (max : Z) (Hmax : max <= DIRECT_TCP_MAX_PAYLOAD).

Lemma take_header_ok (m buffer rest : bytes) :
  len m <= max -> 4 <= len buffer -> buffer ++ rest = frame_of m ++ drop (Z.to_nat (4 + len m)) (buffer ++ rest) ->
  (let! header := slice buffer 0 DIRECT_TCP_HEADER_SIZE in
   let! payload_len := from_wire (decode_direct_tcp_length header) in
   if max <? payload_len
   then Err (Protocol "SMB peer advertised a frame larger than configured transport maximum")
   else
   let! frame_len := ok_or (checked_add usize_max DIRECT_TCP_HEADER_SIZE payload_len)
                           (Protocol "direct-TCP frame length overflow") in
   Ok (payload_len, frame_len)) = Ok (len m, 4 + len m) :> client (Z * Z).
Proof.
  intros Hm Hb Heq. pose proof (len_nonneg m). change DIRECT_TCP_HEADER_SIZE with 4.
  rewrite slice_ok by lia. cbn [obind].
  assert (sub buffer 0 (4 - 0) = frame_header (len m)) as ->.
  { change (4 - 0) with 4. replace (sub buffer 0 4) with (sub (buffer ++ rest) 0 4).
    - rewrite Heq. unfold frame_of. rewrite <- app_assoc. by rewrite sub_app_here.
    - rewrite <- !take_sub. apply take_app_le. unfold len in *. lia. }
  rewrite <- (app_nil_r (frame_header _)), decode_length_header by lia. cbn [from_wire omap_err obind].
  rewrite (proj2 (Z.ltb_ge _ _)) by lia.
  rewrite (proj2 (checked_add_some _ _ _ (4 + len m)))
    by (unfold usize_max, DIRECT_TCP_MAX_PAYLOAD in *; lia). done.
Qed.

(** A buffer that starts with a frame gives up that frame and keeps the rest. *)
Lemma take_message_ok (m rest : bytes) :
  len m <= max ->
  TcpTransport.try_take_message max (frame_of m ++ rest) = (Ok (Some m), rest).
Proof.
  intros Hm. pose proof (len_nonneg m). pose proof (len_nonneg rest).
  assert (len (frame_of m) = 4 + len m) as Hf by (unfold frame_of; len_lia).
  unfold TcpTransport.try_take_message. change DIRECT_TCP_HEADER_SIZE with 4 at 1.
  rewrite (proj2 (Z.ltb_ge _ _)) by len_lia.
  rewrite (take_header_ok m _ []); [|done|len_lia|].
  2:{ rewrite app_nil_r, drop_app_here by done. done. }
  rewrite (proj2 (Z.ltb_ge _ _)) by len_lia.
  rewrite drop_app_here by done. f_equal. unfold TcpTransport.copy_within.
  change DIRECT_TCP_HEADER_SIZE with 4.
  rewrite take_sub, sub_app_here by done. rewrite (slice_sub _ _ _ (len m)) by lia.
  cbn [obind]. unfold frame_of. rewrite sub_app_r by len_lia.
  rewrite sub_full by len_lia.
  rewrite copy_from_slice_ok by len_lia. cbn [obind]. do 2 f_equal.
  change (Z.to_nat 0) with 0%nat. rewrite take_0. cbn [app]. unfold truncate.
  rewrite take_sub. by apply sub_app_here.
Qed.

(** A buffer that ends inside the frame waits for more. *)
Lemma take_message_more (m buffer rest : bytes) tail :
  len m <= max -> buffer ++ rest = frame_of m ++ tail -> len buffer < 4 + len m ->
  TcpTransport.try_take_message max buffer = (Ok None, buffer).
Proof.
  intros Hm Heq Hb. unfold TcpTransport.try_take_message.
  destruct (Z.ltb_spec (len buffer) DIRECT_TCP_HEADER_SIZE) as [|H4]; [done|].
  change DIRECT_TCP_HEADER_SIZE with 4 in H4.
  rewrite (take_header_ok m _ rest); [|done|lia|].
  2:{ rewrite Heq, drop_app_here by (unfold frame_of; len_lia). done. }
  by rewrite (proj2 (Z.ltb_lt _ _)) by lia.
Qed.

Lemma receive_loop_ok chunks es buffer m tail :
  Forall (fun c => c <> []) chunks -> len m <= max ->
  buffer ++ concat chunks = frame_of m ++ tail ->
  exists chunks' buffer',
    TcpTransport.receive_loop max ((ReadData <$> chunks) ++ es) buffer
    = (Ok m, ((ReadData <$> chunks') ++ es, buffer')) /\
    Forall (fun c => c <> []) chunks' /\ buffer' ++ concat chunks' = tail.
Proof.
  intros Hne Hm. revert buffer. induction Hne as [|c chunks Hc Hne IH]; intros buffer Heq.
  - exists [], tail. cbn [concat fmap list_fmap app] in *. rewrite app_nil_r in *. subst buffer.
    split; [|done]. destruct es; cbn [TcpTransport.receive_loop]; by rewrite take_message_ok.
  - destruct (Z.lt_ge_cases (len buffer) (4 + len m)) as [Hlt|Hge].
    + cbn [concat fmap list_fmap app TcpTransport.receive_loop].
      rewrite (take_message_more m buffer (c ++ concat chunks) tail) by done.
      rewrite (proj2 (Z.eqb_neq (len c) 0)) by (destruct c; [done|len_lia]).
      apply IH. by rewrite <- app_assoc.
    + assert (exists b', buffer = frame_of m ++ b') as [b' ->].
      { exists (drop (Z.to_nat (4 + len m)) buffer).
        assert (take (Z.to_nat (4 + len m)) (buffer ++ concat (c :: chunks))
                = take (Z.to_nat (4 + len m)) buffer) as Ht.
        { apply take_app_le. unfold len in *. lia. }
        rewrite Heq in Ht. rewrite take_app_length' in Ht.
        - rewrite Ht. symmetry. apply take_drop.
        - assert (len (frame_of m) = 4 + len m) by (unfold frame_of; len_lia).
          unfold len in *. lia. }
      rewrite <- app_assoc in Heq. apply app_inv_head in Heq.
      exists (c :: chunks), b'. split; [|split; [by constructor|done]].
      cbn [fmap list_fmap app TcpTransport.receive_loop]. by rewrite take_message_ok.
Qed.
End reassembly.

(** The outcomes of [try_take_message] on any buffer. *)
Lemma take_message_cases max buffer :
  match TcpTransport.try_take_message max buffer with
  | (Ok None, b) => b = buffer
  | (Ok (Some m), b) => len m <= max /\ len m <= DIRECT_TCP_MAX_PAYLOAD /\ buffer = frame_of m ++ b
  | (Err _, b) => b = buffer
  | _ => False
  end.
Proof.
  unfold TcpTransport.try_take_message. change DIRECT_TCP_HEADER_SIZE with 4.
  destruct (Z.ltb_spec (len buffer) 4); [done|].
  rewrite slice_ok by lia. cbn [obind]. change (4 - 0) with 4.
  pose proof (len_sub buffer 0 4 ltac:(lia) ltac:(lia) ltac:(lia)) as Hh.
  destruct (decode_direct_tcp_length (sub buffer 0 4)) as [n|e| |] eqn:Hd.
  2: done.
  2,3: pose proof (returns_decode_direct_tcp_length (sub buffer 0 4)) as Hr; by rewrite Hd in Hr.
  apply decode_length_inv in Hd as [Hn Hd]; [|done]. cbn [from_wire omap_err obind].
  destruct (Z.ltb_spec max n); [done|].
  rewrite (proj2 (checked_add_some _ _ _ (4 + n)))
    by (unfold usize_max, DIRECT_TCP_MAX_PAYLOAD in *; lia). cbn [ok_or obind].
  destruct (Z.ltb_spec (len buffer) (4 + n)); [done|].
  assert (len (sub buffer 4 n) = n) as Hm by (apply len_sub; lia).
  assert (buffer = frame_of (sub buffer 4 n) ++ drop (Z.to_nat (4 + n)) buffer) as Heq.
  { unfold frame_of. rewrite Hm, <- Hd, <- app_assoc.
    rewrite <- (drop_sub buffer 4 n (4 + n)) by lia. symmetry.
    rewrite <- (drop_sub buffer 0 4 4) by lia. done. }
  unfold TcpTransport.copy_within. rewrite take_sub.
  assert (len (sub buffer 0 (4 + n)) = 4 + n) as Hf by (apply len_sub; lia).
  rewrite (slice_sub _ _ _ n) by lia. cbn [obind].
  rewrite sub_sub by lia. change (0 + 4) with 4. rewrite copy_from_slice_ok by lia. cbn [obind].
  change (Z.to_nat 0) with 0%nat. rewrite take_0. cbn [app]. unfold truncate.
  rewrite take_sub, sub_app_here by done. split; [lia|]. split; [lia|]. done.
Qed.

Lemma receive_loop_resume max es1 es2 buffer buffer' :
  TcpTransport.receive_loop max es1 buffer = (OutOfFuel, ([], buffer')) ->
  TcpTransport.receive_loop max (es1 ++ es2) buffer = TcpTransport.receive_loop max es2 buffer'.
Proof.
  revert buffer. induction es1 as [|e es1 IH]; intros buffer; cbn [TcpTransport.receive_loop app];
    pose proof (take_message_cases max buffer) as Ht;
    destruct (TcpTransport.try_take_message max buffer) as [[[m|]|err| |] b] eqn:Htt; try done;
    subst b.
  - by intros [= <-].
  - destruct e as [c| |k]; try done. destruct (len c =? 0); [done|]. apply IH.
Qed.

(** What a [receive_message] does with arbitrary socket behaviour. *)
Lemma receive_loop_cases max es buffer :
  match TcpTransport.receive_loop max es buffer with
  | (Ok m, (es', b)) =>
      exists chunks, es = (ReadData <$> chunks) ++ es' /\ len m <= max /\
        buffer ++ concat chunks = frame_of m ++ b
  | (Err _, _) => True
  | (OutOfFuel, (es', b)) =>
      es' = [] /\ exists chunks, es = ReadData <$> chunks /\ b = buffer ++ concat chunks
  | (Panic, _) => False
  end.
Proof.
  revert buffer. induction es as [|e es IH]; intros buffer; cbn [TcpTransport.receive_loop];
    pose proof (take_message_cases max buffer) as Ht;
    destruct (TcpTransport.try_take_message max buffer) as [[[m|]|err| |] b] eqn:Htt; try done.
  - destruct Ht as (? & _ & ->). exists []. cbn. by rewrite app_nil_r.
  - subst b. split; [done|]. exists []. cbn. by rewrite app_nil_r.
  - destruct Ht as (? & _ & ->). exists []. cbn. by rewrite app_nil_r.
  - subst b. destruct e as [c| |k]; try done.
    destruct (len c =? 0); [done|]. specialize (IH (buffer ++ c)).
    destruct (TcpTransport.receive_loop max es (buffer ++ c)) as [[m|err| |] [es' b]]; try done.
    + destruct IH as (chunks & -> & ? & Heq). exists (c :: chunks). cbn.
      by rewrite app_assoc.
    + destruct IH as (-> & chunks & -> & ->). split; [done|]. exists (c :: chunks). cbn.
      by rewrite app_assoc.
Qed.

(** ** The transport keeps its promise *)

(** The bytes still to be consumed are the frames of [ms], in any chunking. *)
Definition tcp_delivers (t : TcpTransport.t) (ms : list bytes) : Prop :=
  TcpTransport.max_message_size t <= DIRECT_TCP_MAX_PAYLOAD /\
  Forall (fun m => len m <= TcpTransport.max_message_size t) ms /\
  exists chunks es tail,
    reads (TcpTransport.stream t) = (ReadData <$> chunks) ++ es /\
    Forall (fun c => c <> []) chunks /\
    TcpTransport.read_buffer t ++ concat chunks = frames ms ++ tail.

Lemma tcp_receive_delivers t m rest :
  tcp_delivers t (m :: rest) ->
  exists t', TcpTransport.receive_message t = (Ok m, t') /\ tcp_delivers t' rest.
Proof.
  intros (Hmax & Hall & chunks & es & tail & Hr & Hne & Heq).
  apply Forall_cons in Hall as [Hm Hall].
  change (frames (m :: rest)) with (frame_of m ++ frames rest) in Heq.
  rewrite <- app_assoc in Heq.
  destruct (receive_loop_ok (TcpTransport.max_message_size t) Hmax chunks es
              (TcpTransport.read_buffer t) m (frames rest ++ tail) Hne Hm Heq)
    as (chunks' & buffer' & Hloop & Hne' & Heq').
  unfold TcpTransport.receive_message. rewrite Hr, Hloop. eexists. split; [reflexivity|].
  split; [done|]. split; [done|]. by exists chunks', es, tail.
Qed.

#[export] Instance TcpTransport_laws : TransportLaws TcpTransport.t := {|
  delivers := tcp_delivers;
  receive_delivers := tcp_receive_delivers
|}.

#[export] Instance TcpTransport_safe : TransportSafe TcpTransport.t.
Proof.
  split; cbn [send_message receive_message TcpTransport_transport].
  - intros t m. unfold TcpTransport.send_message. destruct (_ <? _); [done|].
    unfold encode_direct_tcp_frame. destruct (_ <? _); cbn [from_wire omap_err]; [done|].
    unfold TcpTransport.write_all. by destruct (writes (TcpTransport.stream t)) as [|[| |] ws].
  - intros t. unfold TcpTransport.receive_message.
    pose proof (receive_loop_cases (TcpTransport.max_message_size t)
      (reads (TcpTransport.stream t)) (TcpTransport.read_buffer t)) as Hc.
    by destruct (TcpTransport.receive_loop _ _ _) as [[] [es b]].
Qed.

(** Every branch of [send_message]: what is written is a whole frame, or, when
    the write fails, a part of one. *)
Lemma tcp_send_ok t m t' :
  TcpTransport.send_message m t = (Ok tt, t') ->
  len m <= TcpTransport.max_message_size t /\ len m <= DIRECT_TCP_MAX_PAYLOAD /\
  written (TcpTransport.stream t') = written (TcpTransport.stream t) ++ frame_of m /\
  TcpTransport.max_message_size t' = TcpTransport.max_message_size t.
Proof.
  unfold TcpTransport.send_message. destruct (Z.ltb_spec (TcpTransport.max_message_size t) (len m));
    [done|].
  destruct (encode_direct_tcp_frame m) as [f|e| |] eqn:He; cbn [from_wire omap_err]; try done.
  assert (len m <= DIRECT_TCP_MAX_PAYLOAD) as Hm.
  { unfold encode_direct_tcp_frame in He. by destruct (Z.ltb_spec DIRECT_TCP_MAX_PAYLOAD (len m)). }
  rewrite encode_frame_ok in He by done. apply Ok_inj in He as <-.
  unfold TcpTransport.write_all. destruct (writes (TcpTransport.stream t)) as [|[| |] ws]; try done.
  intros [= <-]. done.
Qed.

(** Sending a list of messages, and receiving a number of them. *)
Fixpoint send_all {T} `{Transport T} (ms : list bytes) : st T unit :=
  match ms with
  | [] => sret tt
  | m :: ms => do! _ := send_message m in send_all ms
  end.
Fixpoint receive_n {T} `{Transport T} (n : nat) : st T (list bytes) :=
  match n with
  | O => sret []
  | S n => do! m := receive_message in do! ms := receive_n n in sret (m :: ms)
  end.

(** Against the interface: what the transport delivers is received in order. *)
Lemma receive_n_delivers {T} `{TransportLaws T} (t : T) ms :
  delivers t ms -> exists t', receive_n (length ms) t = (Ok ms, t').
Proof.
  revert t. induction ms as [|m ms IH]; intros t Hd; cbn [receive_n length]; [by exists t|].
  destruct (receive_delivers t m ms Hd) as (t1 & Hm & Hd1). destruct (IH t1 Hd1) as (t2 & Hms).
  exists t2. unfold sbind. by rewrite Hm, Hms.
Qed.

Lemma tcp_send_all_written ms t t' :
  send_all ms t = (Ok tt, t') ->
  written (TcpTransport.stream t') = written (TcpTransport.stream t) ++ frames ms /\
  Forall (fun m => len m <= DIRECT_TCP_MAX_PAYLOAD) ms.
Proof.
  revert t. induction ms as [|m ms IH]; intros t; cbn [send_all].
  - intros [= <-]. by rewrite app_nil_r.
  - rewrite sbind_ok. intros ([] & t1 & Hm & Hms).
    apply tcp_send_ok in Hm as (_ & Hm & Hw & _). apply IH in Hms as (-> & Hall).
    rewrite Hw, <- app_assoc. split; [done|by constructor].
Qed.

(** ** Properties *)

(** C38: messages cross a TCP connection unchanged and in order, however the
    stream is cut: what one transport has sent, another receives message by
    message from any sequence of non-empty chunks of the bytes written, with
    whatever the first call already had in its buffer. *)
Theorem tcp_stream_roundtrip (sender sender' receiver : TcpTransport.t) (ms : list bytes)
    (chunks : list bytes) (later : list read_event)
    (Hfresh : written (TcpTransport.stream sender) = [])
    (Hsend : send_all ms sender = (Ok tt, sender'))
    (Hmax : TcpTransport.max_message_size receiver = DIRECT_TCP_MAX_PAYLOAD)
    (Hreads : reads (TcpTransport.stream receiver) = (ReadData <$> chunks) ++ later)
    (Hne : Forall (fun c => c <> []) chunks)
    (Hbytes : TcpTransport.read_buffer receiver ++ concat chunks
              = written (TcpTransport.stream sender')) :
  exists receiver', receive_n (length ms) receiver = (Ok ms, receiver').
Proof.
  apply tcp_send_all_written in Hsend as [Hw Hall]. rewrite Hfresh in Hw. cbn [app] in Hw.
  apply (receive_n_delivers receiver ms). cbn [delivers TcpTransport_laws].
  split; [lia|]. split; [by rewrite Hmax|]. exists chunks, later, [].
  rewrite app_nil_r, Hbytes. by split_and!.
Qed.

Lemma tcp_stream_roundtrip_witness :
  exists receiver',
    receive_n 2 (TcpTransport.mk
      (mkTcpStream [ReadData [x00; x00]; ReadData [x02; xfe; x53; x00]; ReadData [x00; x00; x01; x07]]
         [] []) DIRECT_TCP_MAX_PAYLOAD [x00]) = (Ok [[xfe; x53]; [x07]], receiver').
Proof.
  apply (tcp_stream_roundtrip
    (TcpTransport.mk (mkTcpStream [] [WriteDone; WriteDone] []) DIRECT_TCP_MAX_PAYLOAD [])
    (TcpTransport.mk (mkTcpStream [] []
       [x00; x00; x00; x02; xfe; x53; x00; x00; x00; x01; x07]) DIRECT_TCP_MAX_PAYLOAD [])
    _ [[xfe; x53]; [x07]]
    [[x00; x00]; [x02; xfe; x53; x00]; [x00; x00; x01; x07]] []);
    first [reflexivity | by repeat constructor].
Defined.

(** Receiving is safe and cancellation-safe on any input: whatever the
    socket yields, no frame is read past the buffer, a message is returned only
    for a complete frame within the configured maximum and exactly that frame
    is consumed; and a receive that is dropped while it waits has consumed
    nothing but complete chunks into the buffer, so that a later call goes on
    exactly as if it had never been interrupted. *)
Theorem tcp_receive_cancellation_safe (t : TcpTransport.t) (es later : list read_event)
    (Hreads : reads (TcpTransport.stream t) = es ++ later) :
  match TcpTransport.receive_loop (TcpTransport.max_message_size t) es
          (TcpTransport.read_buffer t) with
  | (Ok m, (es', buffer')) =>
      len m <= TcpTransport.max_message_size t /\
      exists chunks, es = (ReadData <$> chunks) ++ es' /\
        TcpTransport.read_buffer t ++ concat chunks = frame_of m ++ buffer'
  | (OutOfFuel, (es', buffer')) =>
      TcpTransport.receive_message t
      = TcpTransport.receive_message
          (TcpTransport.mk (mkTcpStream later (writes (TcpTransport.stream t))
                              (written (TcpTransport.stream t)))
             (TcpTransport.max_message_size t) buffer')
  | (Err _, _) => True
  | (Panic, _) => False
  end.
Proof.
  pose proof (receive_loop_cases (TcpTransport.max_message_size t) es (TcpTransport.read_buffer t))
    as Hc.
  destruct (TcpTransport.receive_loop _ es _) as [[m|e| |] [es' b]] eqn:Hloop; try done.
  - destruct Hc as (chunks & ? & ? & ?). eauto.
  - destruct Hc as (-> & _). unfold TcpTransport.receive_message.
    rewrite Hreads. cbn [TcpTransport.stream TcpTransport.max_message_size
      TcpTransport.read_buffer reads writes written].
    by rewrite (receive_loop_resume _ _ _ _ _ Hloop).
Qed.

Lemma tcp_receive_cancellation_safe_witness :
  TcpTransport.receive_message
    (TcpTransport.mk (mkTcpStream [ReadData [x00; x00; x00]; ReadData [x01; x07]] [] []) 16 [])
  = TcpTransport.receive_message
      (TcpTransport.mk (mkTcpStream [ReadData [x01; x07]] [] []) 16 [x00; x00; x00]).
Proof.
  exact (tcp_receive_cancellation_safe
           (TcpTransport.mk (mkTcpStream [ReadData [x00; x00; x00]; ReadData [x01; x07]] [] []) 16 [])
           [ReadData [x00; x00; x00]] [ReadData [x01; x07]] eq_refl).
Defined.
