(* ===== verification/Signing.v ===== *)
(** * Signing

    [crates/smb-client/src/signing.rs] and [preauth.rs]: key derivation, message
    signatures and the preauthentication hash. The primitives come from other
    crates ([hmac], [sha2], [cmac], [aes]) and are parameters here; the message
    is mutated in place, so it is the state of [sign] and [verify]. *)
From S2P Require Import Prelude WireError Header Negotiate Client.

(** ** The primitives *)

(** MACs by key and message, [None] where the crate refuses the key length, and
    the SHA-512 digest. *)
Class Crypto : Type := {
  hmac_sha256 : bytes -> bytes -> option bytes;
  aes128_cmac : bytes -> bytes -> option bytes;
  sha512 : bytes -> bytes
}.

(** What the crates document: HMAC takes any key and gives 32 bytes; AES-128
    CMAC takes a 16-byte key and gives 16 bytes; SHA-512 gives 64 bytes. *)
Class CryptoLaws `{Crypto} : Prop := {
  hmac_sha256_len key m : exists d, hmac_sha256 key m = Some d /\ len d = 32;
  aes128_cmac_len key m :
    if len key =? 16 then exists d, aes128_cmac key m = Some d /\ len d = 16
    else aes128_cmac key m = None;
  sha512_len m : len (sha512 m) = 64
}.

(** ** The preauthentication hash *)
Module PreauthIntegrityHash.
Section preauth.
Context `{Crypto}.

Definition t : Type := bytes.
Definition new : t := replicate 64 x00.
Definition update (value : t) (message : bytes) : client t :=
  copy_from_slice value 0 64 (sha512 (value ++ message)).
Definition current (value : t) : bytes := value.

Lemma update_ok `{!CryptoLaws} value message :
  len value = 64 -> update value message = Ok (sha512 (value ++ message)).
Proof.
  intros Hv. unfold update. pose proof (sha512_len (value ++ message)) as Hs.
  rewrite copy_from_slice_ok by lia. change (Z.to_nat 0) with 0%nat. rewrite take_0. cbn [app].
  rewrite drop_ge by (unfold len in *; lia). by rewrite app_nil_r.
Qed.
End preauth.
End PreauthIntegrityHash.

(** ** Algorithms and keys *)
Definition SIGNATURE_OFFSET : Z := 48.
Definition SIGNATURE_SIZE : Z := 16.
Definition KDF_OUTPUT_BITS : Z := 128.

Inductive SigningAlgorithm : Type := HmacSha256 | AesCmac | AesGmac.

#[export] Instance SigningAlgorithm_eq_dec : EqDecision SigningAlgorithm.
Proof. solve_decision. Defined.

(** [algorithm as u16] and [SigningAlgorithm::try_from]. *)
Definition algorithm_value (a : SigningAlgorithm) : Z :=
  match a with HmacSha256 => 0x0000 | AesCmac => 0x0001 | AesGmac => 0x0002 end.
Definition algorithm_try_from (value : Z) : client SigningAlgorithm :=
  if value =? 0x0000 then Ok HmacSha256 else
  if value =? 0x0001 then Ok AesCmac else
  if value =? 0x0002 then Ok AesGmac else
  Err (Protocol "unknown SMB signing algorithm").

Lemma returns_algorithm_try_from v : returns (algorithm_try_from v).
Proof. unfold algorithm_try_from. by repeat case_match. Qed.
#[export] Hint Resolve returns_algorithm_try_from : returns.

Lemma algorithm_roundtrip a : algorithm_try_from (algorithm_value a) = Ok a.
Proof. by destruct a. Qed.

Definition normalize_session_key (session_key : bytes) : client bytes :=
  let key := replicate 16 x00 in
  let copy_len := Z.min (len session_key) (len key) in
  let! src := slice session_key 0 copy_len in
  copy_from_slice key 0 copy_len src.

Lemma normalize_ok key :
  normalize_session_key key
  = Ok (take 16 key ++ replicate (16 - length key) x00).
Proof.
  unfold normalize_session_key. cbv zeta. change (len (replicate 16 x00)) with 16.
  pose proof (len_nonneg key). rewrite slice_ok by lia. cbn [obind]. rewrite Z.sub_0_r.
  rewrite copy_from_slice_ok by (rewrite ?len_sub; len_lia).
  change (Z.to_nat 0) with 0%nat. rewrite take_0. cbn [app]. f_equal. f_equal.
  - unfold sub. rewrite drop_0. destruct (Z.le_gt_cases 16 (len key)).
    + rewrite Z.min_r by lia. done.
    + rewrite Z.min_l by lia. rewrite !take_ge by (unfold len in *; lia). done.
  - rewrite drop_replicate. f_equal. unfold len. lia.
Qed.

Module SigningState.
Record t : Type := mk { algorithm : SigningAlgorithm; key : bytes }.
End SigningState.

Definition ensure_smb2_message (message : bytes) : client unit :=
  if len message <? SMB2_HEADER_SIZE
  then Err (Protocol "SMB message is shorter than its header") else
  let! _ := from_wire (decode_header message) in Ok tt.

Definition set_signed_flag (message : bytes) (signed : bool) : client bytes :=
  let! value := get_le 4 message 16 in
  let value := if signed then Z.lor value flags.SIGNED
               else Z.land value (bit_not 32 flags.SIGNED) in
  put_le 4 message 16 value.

Section signing.
Context `{Crypto}.

(** SP800-108 in counter mode with one 128-bit block. *)
Definition sp800_108_kdf_128 (key label context : bytes) : client bytes :=
  let input := be_bytes 4 1 ++ label ++ [x00] ++ context ++ be_bytes 4 KDF_OUTPUT_BITS in
  let! digest := ok_or (hmac_sha256 key input) (Protocol "invalid SMB key-derivation key") in
  slice digest 0 16.

(** ["SMB2AESCMAC\0"], ["SmbSign\0"] and ["SMBSigningKey\0"]. *)
Definition label_aes_cmac : bytes := [x53; x4d; x42; x32; x41; x45; x53; x43; x4d; x41; x43; x00].
Definition context_smb_sign : bytes := [x53; x6d; x62; x53; x69; x67; x6e; x00].
Definition label_signing_key : bytes :=
  [x53; x4d; x42; x53; x69; x67; x6e; x69; x6e; x67; x4b; x65; x79; x00].

Definition derive (dialect : Dialect) (negotiated_algorithm : SigningAlgorithm)
    (session_key : bytes) (preauth_hash : option PreauthIntegrityHash.t) :
    client SigningState.t :=
  let! normalized := normalize_session_key session_key in
  let algorithm :=
    match dialect with
    | Smb202 | Smb210 => HmacSha256
    | Smb300 | Smb302 => AesCmac
    | Smb311 => negotiated_algorithm
    end in
  if bool_decide (algorithm = AesGmac)
  then Err (Protocol "AES-GMAC signing is not implemented yet") else
  let! key :=
    match dialect with
    | Smb202 | Smb210 => Ok normalized
    | Smb300 | Smb302 => sp800_108_kdf_128 normalized label_aes_cmac context_smb_sign
    | Smb311 =>
        let! preauth := ok_or preauth_hash
          (Protocol "SMB 3.1.1 signing requires a preauthentication hash") in
        sp800_108_kdf_128 normalized label_signing_key (PreauthIntegrityHash.current preauth)
    end in
  Ok (SigningState.mk algorithm key).

Definition compute_signature (self : SigningState.t) (message : bytes) : client bytes :=
  match SigningState.algorithm self with
  | HmacSha256 =>
      let! digest := ok_or (hmac_sha256 (SigningState.key self) message)
                           (Protocol "invalid SMB HMAC signing key") in
      slice digest 0 SIGNATURE_SIZE
  | AesCmac =>
      let! digest := ok_or (aes128_cmac (SigningState.key self) message)
                           (Protocol "invalid SMB AES-CMAC signing key") in
      copy_from_slice (replicate 16 x00) 0 16 digest
  | AesGmac => Err (Protocol "AES-GMAC signing is not implemented yet")
  end.

(** A step that replaces the message, leaving it alone on failure. *)
Definition smessage (f : bytes -> client bytes) : st bytes unit := fun m =>
  match f m with
  | Ok m' => (Ok tt, m')
  | Err e => (Err e, m)
  | Panic => (Panic, m)
  | OutOfFuel => (OutOfFuel, m)
  end.
Definition swith {A} (f : bytes -> client A) : st bytes A := fun m => (f m, m).
Definition put_signature (signature : bytes) (m : bytes) : client bytes :=
  copy_from_slice m SIGNATURE_OFFSET (SIGNATURE_OFFSET + SIGNATURE_SIZE) signature.
Definition zero_signature : bytes := replicate (Z.to_nat SIGNATURE_SIZE) x00.

Definition sign (self : SigningState.t) : st bytes unit :=
  do! _ := swith ensure_smb2_message in
  do! _ := smessage (fun m => set_signed_flag m true) in
  do! _ := smessage (put_signature zero_signature) in
  do! signature := swith (compute_signature self) in
  smessage (put_signature signature).

Definition verify (self : SigningState.t) : st bytes unit :=
  do! _ := swith ensure_smb2_message in
  do! header := swith (fun m => from_wire (decode_header m)) in
  if negb (has_flag (hdr_flags header) flags.SIGNED)
  then slift (Err (Protocol "SMB message is not signed")) else
  do! received :=
    swith (fun m => slice m SIGNATURE_OFFSET (SIGNATURE_OFFSET + SIGNATURE_SIZE)) in
  do! _ := smessage (put_signature zero_signature) in
  do! expected := (fun m => (Ok (compute_signature self m), m)) in
  do! _ := smessage (put_signature received) in
  do! expected := slift expected in
  if negb (bool_decide (received = expected))
  then slift (Err (Protocol "SMB signature verification failed")) else
  sret tt.

End signing.

(** ** Lemmas *)

Definition with_flags (h : Smb2Header) (f : Z) : Smb2Header :=
  {| credit_charge := credit_charge h; status := status h; command := command h;
     credits := credits h; hdr_flags := f; next_command := next_command h;
     message_id := message_id h; hdr_id := hdr_id h; session_id := session_id h;
     signature := signature h |}.
Definition with_signature (h : Smb2Header) (s : bytes) : Smb2Header :=
  {| credit_charge := credit_charge h; status := status h; command := command h;
     credits := credits h; hdr_flags := hdr_flags h; next_command := next_command h;
     message_id := message_id h; hdr_id := hdr_id h; session_id := session_id h;
     signature := s |}.

(** The header of a signed message. *)
Definition signed_header (h : Smb2Header) (s : bytes) : Smb2Header :=
  with_signature (with_flags h (Z.lor (hdr_flags h) flags.SIGNED)) s.

Lemma lor_u32 a b : u32 a -> u32 b -> u32 (Z.lor a b).
Proof.
  unfold uint. intros Ha Hb.
  assert (Z.lor a b mod 2 ^ 32 = Z.lor a b) as <-; [|by apply Z.mod_pos_bound].
  rewrite <- Z.land_ones, Z.land_lor_distr_l, !Z.land_ones, !Z.mod_small by lia. done.
Qed.

Lemma has_flag_lor a b f : Z.land b f = 0 -> has_flag (Z.lor a b) f = has_flag a f.
Proof. intros Hb. unfold has_flag. by rewrite Z.land_lor_distr_l, Hb, Z.lor_0_r. Qed.

Lemma signed_header_wf h s :
  header_wf h -> hdr_consistent h -> len s = 16 ->
  header_wf (signed_header h s) /\ hdr_consistent (signed_header h s) /\
  has_flag (hdr_flags (signed_header h s)) flags.SIGNED = true.
Proof.
  intros (? & ? & ? & ? & ? & ? & ? & ? & ?) [Hc1 Hc2] Hs.
  unfold header_wf, hdr_consistent, signed_header. cbn [with_signature with_flags hdr_flags
    credit_charge status credits next_command message_id hdr_id session_id signature].
  rewrite !(has_flag_lor (hdr_flags h)) by done. split; [|split; [done|]].
  - split_and!; try done; by apply lor_u32.
  - unfold has_flag. rewrite Z.land_lor_distr_l. apply negb_true_iff, Z.eqb_neq.
    intros [_ Hz]%Z.lor_eq_0_iff. done.
Qed.

Lemma decode_split m h :
  decode_header m = Ok h ->
  m = header_bytes h ++ drop (Z.to_nat 64) m /\ header_wf h /\ hdr_consistent h /\ 64 <= len m.
Proof.
  intros (Hl & Hwf & Hc & Hh)%decode_header_inv. split; [|done].
  by rewrite <- Hh, <- (drop_sub m 0 64 64) by lia.
Qed.

Lemma header_bytes_flags h :
  exists front back, len front = 16 /\
    forall f, header_bytes (with_flags h f) = front ++ le_bytes 4 f ++ back.
Proof.
  exists (SMB2_PROTOCOL_ID ++ le_bytes 2 SMB2_HEADER_STRUCTURE_SIZE ++ le_bytes 2 (credit_charge h)
          ++ status_bytes (status h) ++ le_bytes 2 (Command.as_u16 (command h))
          ++ le_bytes 2 (credits h)),
    (le_bytes 4 (next_command h) ++ le_bytes 8 (message_id h) ++ id_bytes (hdr_id h)
     ++ le_bytes 8 (session_id h) ++ signature h).
  split; [len_lia|]. intros f. unfold header_bytes.
  cbn [with_flags credit_charge status command credits
    hdr_flags next_command message_id hdr_id session_id signature]. by rewrite <- !app_assoc.
Qed.

Lemma header_bytes_signature h :
  exists front, len front = 48 /\ forall s, header_bytes (with_signature h s) = front ++ s.
Proof.
  exists (SMB2_PROTOCOL_ID ++ le_bytes 2 SMB2_HEADER_STRUCTURE_SIZE ++ le_bytes 2 (credit_charge h)
          ++ status_bytes (status h) ++ le_bytes 2 (Command.as_u16 (command h))
          ++ le_bytes 2 (credits h) ++ le_bytes 4 (hdr_flags h)
          ++ le_bytes 4 (next_command h) ++ le_bytes 8 (message_id h) ++ id_bytes (hdr_id h)
          ++ le_bytes 8 (session_id h)).
  split; [len_lia|]. intros s. unfold header_bytes.
  cbn [with_signature credit_charge status command credits
    hdr_flags next_command message_id hdr_id session_id signature]. by rewrite <- !app_assoc.
Qed.

Lemma set_signed_ok h rest :
  header_wf h ->
  set_signed_flag (header_bytes h ++ rest) true
  = Ok (header_bytes (with_flags h (Z.lor (hdr_flags h) flags.SIGNED)) ++ rest).
Proof.
  intros (_ & _ & _ & Hfl & _). destruct (header_bytes_flags h) as (front & back & Hf & Hb).
  assert (header_bytes h = front ++ le_bytes 4 (hdr_flags h) ++ back) as ->
    by (rewrite <- Hb; by destruct h).
  rewrite Hb, <- !app_assoc. pose proof (len_nonneg back). pose proof (len_nonneg rest).
  unfold set_signed_flag. rewrite get_le_ok by len_lia. cbn [obind].
  assert (le_at 4 (front ++ le_bytes 4 (hdr_flags h) ++ back ++ rest) 16 = hdr_flags h) as ->
    by field_at.
  by rewrite put_at by len_lia.
Qed.

Lemma put_signature_ok h s rest :
  len (signature h) = 16 -> len s = 16 ->
  put_signature s (header_bytes h ++ rest) = Ok (header_bytes (with_signature h s) ++ rest).
Proof.
  intros Hh Hs. destruct (header_bytes_signature h) as (front & Hf & Hb).
  assert (header_bytes h = front ++ signature h) as -> by (rewrite <- Hb; by destruct h).
  rewrite Hb, <- !app_assoc. unfold put_signature, SIGNATURE_OFFSET, SIGNATURE_SIZE.
  by rewrite copy_at by lia.
Qed.

Lemma slice_signature_ok h rest :
  len (signature h) = 16 ->
  slice (header_bytes h ++ rest) SIGNATURE_OFFSET (SIGNATURE_OFFSET + SIGNATURE_SIZE)
  = Ok (signature h) :> client bytes.
Proof.
  intros Hh. destruct (header_bytes_signature h) as (front & Hf & Hb).
  assert (header_bytes h = front ++ signature h) as -> by (rewrite <- Hb; by destruct h).
  unfold SIGNATURE_OFFSET, SIGNATURE_SIZE. rewrite <- app_assoc.
  pose proof (len_nonneg rest).
  rewrite (slice_sub _ _ _ 16) by len_lia. f_equal.
  rewrite sub_app_r, Hf by lia. by apply sub_app_here.
Qed.

Section signing_laws.
Context `{CryptoLaws}.

Lemma returns_compute self message : returns (compute_signature self message).
Proof.
  unfold compute_signature. destruct (SigningState.algorithm self); [| |done].
  - destruct (hmac_sha256_len (SigningState.key self) message) as (d & -> & Hd).
    cbn [ok_or obind]. by rewrite slice_ok by (unfold SIGNATURE_SIZE; lia).
  - pose proof (aes128_cmac_len (SigningState.key self) message) as Hc.
    destruct (len (SigningState.key self) =? 16); [|by rewrite Hc].
    destruct Hc as (d & -> & Hd). cbn [ok_or obind]. by rewrite copy_from_slice_ok by done.
Qed.

Lemma compute_len self message s :
  compute_signature self message = Ok s -> len s = 16.
Proof.
  unfold compute_signature. destruct (SigningState.algorithm self); [| |done].
  - destruct (hmac_sha256_len (SigningState.key self) message) as (d & -> & Hd).
    cbn [ok_or obind]. rewrite slice_ok by (unfold SIGNATURE_SIZE; lia).
    intros Hs. apply Ok_inj in Hs as <-. by rewrite len_sub by (unfold SIGNATURE_SIZE; lia).
  - pose proof (aes128_cmac_len (SigningState.key self) message) as Hc.
    destruct (len (SigningState.key self) =? 16); [|by rewrite Hc].
    destruct Hc as (d & -> & Hd). cbn [ok_or obind]. rewrite copy_from_slice_ok by done.
    intros Hs. apply Ok_inj in Hs as <-. change (Z.to_nat 0) with 0%nat. rewrite take_0.
    cbn [app]. rewrite drop_ge by (cbn; lia). by rewrite app_nil_r.
Qed.

(** The bytes a signature is computed over. *)
Definition unsigned (h : Smb2Header) (rest : bytes) : bytes :=
  header_bytes (with_signature h zero_signature) ++ rest.

(** [sign] and [verify] on a message with a header, by what the MAC gives. *)
Lemma sign_eq self h rest :
  header_wf h -> hdr_consistent h ->
  let h' := with_flags h (Z.lor (hdr_flags h) flags.SIGNED) in
  sign self (header_bytes h ++ rest)
  = match compute_signature self (unsigned h' rest) with
    | Ok s => (Ok tt, header_bytes (with_signature h' s) ++ rest)
    | Err e => (Err e, unsigned h' rest)
    | Panic => (Panic, unsigned h' rest)
    | OutOfFuel => (OutOfFuel, unsigned h' rest)
    end.
Proof.
  intros Hwf Hc h'. pose proof (len_header_bytes h ltac:(apply Hwf)). pose proof (len_nonneg rest).
  assert (len (signature h') = 16) as Hs by apply Hwf.
  unfold sign, sbind, swith, smessage, ensure_smb2_message.
  rewrite (proj2 (Z.ltb_ge _ _)) by (change SMB2_HEADER_SIZE with 64; len_lia).
  rewrite decode_header_bytes by done. cbn [from_wire omap_err obind].
  rewrite set_signed_ok by done. fold h'. rewrite put_signature_ok by done.
  fold (unsigned h' rest). destruct (compute_signature self (unsigned h' rest)) eqn:Hcs; try done.
  unfold unsigned. rewrite put_signature_ok; [done|done|by eapply compute_len].
Qed.

Lemma verify_eq self h rest :
  header_wf h -> hdr_consistent h ->
  verify self (header_bytes h ++ rest)
  = (if negb (has_flag (hdr_flags h) flags.SIGNED)
     then Err (Protocol "SMB message is not signed") else
     let! expected := compute_signature self (unsigned h rest) in
     if bool_decide (signature h = expected) then Ok tt
     else Err (Protocol "SMB signature verification failed"), header_bytes h ++ rest).
Proof.
  intros Hwf Hc. pose proof (len_header_bytes h ltac:(apply Hwf)). pose proof (len_nonneg rest).
  assert (len (signature h) = 16) as Hs by apply Hwf.
  unfold verify, sbind, swith, smessage, ensure_smb2_message, slift, sret.
  rewrite (proj2 (Z.ltb_ge _ _)) by (change SMB2_HEADER_SIZE with 64; len_lia).
  rewrite decode_header_bytes by done. cbn [from_wire omap_err obind].
  destruct (has_flag (hdr_flags h) flags.SIGNED); cbn [negb]; [|done].
  rewrite slice_signature_ok, put_signature_ok by done. cbv beta iota.
  rewrite put_signature_ok by done. fold (unsigned h rest).
  assert (with_signature (with_signature h zero_signature) (signature h) = h) as -> by (by destruct h).
  destruct (compute_signature self (unsigned h rest)) as [e|e| |]; cbn [obind]; try done.
  by case_bool_decide.
Qed.

Lemma verify_bad_header self m e :
  decode_header m = Err e ->
  exists err, verify self m = (Err err, m).
Proof.
  intros Hd. unfold verify, sbind, swith, ensure_smb2_message.
  destruct (Z.ltb_spec (len m) SMB2_HEADER_SIZE); [by eexists|]. rewrite Hd. by eexists.
Qed.

(** Verification returns and leaves the message as it was. *)
Lemma verify_returns self m : returns (verify self m).1 /\ (verify self m).2 = m.
Proof.
  destruct (decode_header m) as [h|e| |] eqn:Hd.
  - apply decode_split in Hd as (-> & Hwf & Hc & Hl). rewrite verify_eq by done. cbn [fst snd].
    split; [|done]. destruct (has_flag _ _); cbn [negb]; [|done].
    apply returns_bind; [apply returns_compute|]. intros. by case_bool_decide.
  - destruct (verify_bad_header self m e Hd) as [err ->]. done.
  - by pose proof (returns_decode_header m) as Hr; rewrite Hd in Hr.
  - by pose proof (returns_decode_header m) as Hr; rewrite Hd in Hr.
Qed.

Lemma sign_returns self m : returns (sign self m).1.
Proof.
  destruct (decode_header m) as [h|e| |] eqn:Hd.
  - apply decode_split in Hd as (-> & Hwf & Hc & _). rewrite sign_eq by done.
    pose proof (returns_compute self (unsigned (with_flags h (Z.lor (hdr_flags h) flags.SIGNED))
      (drop (Z.to_nat 64) m))) as Hr.
    by destruct (compute_signature self _).
  - unfold sign, sbind, swith, ensure_smb2_message.
    destruct (Z.ltb_spec (len m) SMB2_HEADER_SIZE); [done|]. by rewrite Hd.
  - by pose proof (returns_decode_header m) as Hr; rewrite Hd in Hr.
  - by pose proof (returns_decode_header m) as Hr; rewrite Hd in Hr.
Qed.

Lemma kdf_ok k l c : exists s, sp800_108_kdf_128 k l c = Ok s /\ len s = 16.
Proof.
  unfold sp800_108_kdf_128.
  destruct (hmac_sha256_len k (be_bytes 4 1 ++ l ++ [x00] ++ c ++ be_bytes 4 KDF_OUTPUT_BITS))
    as (dg & -> & Hdg). cbn [ok_or obind].
  rewrite slice_ok by lia. eexists. split; [done|]. rewrite len_sub by lia. lia.
Qed.

Lemma returns_derive d a key preauth : returns (derive d a key preauth).
Proof.
  unfold derive. rewrite normalize_ok. cbn [obind]. case_bool_decide; [done|].
  apply returns_bind; [|done]. destruct d; try done; [..|destruct preauth; [|done]; cbn [ok_or obind]].
  all: match goal with |- returns (sp800_108_kdf_128 ?k ?l ?c) =>
         by destruct (kdf_ok k l c) as (? & -> & _) end.
Qed.
End signing_laws.
#[export] Hint Resolve returns_derive : returns.

(** A concrete instance of the primitives, to run the model on: a checksum
    spread over the digest. *)
Definition checksum (key m : bytes) : byte :=
  byte_of_Z (foldr (fun b acc => Z_of_byte b + 3 * acc) (len key) (key ++ m)).
Definition toy_crypto : Crypto := {|
  hmac_sha256 key m := Some (replicate 32 (checksum key m));
  aes128_cmac key m := if len key =? 16 then Some (replicate 16 (checksum key m)) else None;
  sha512 m := replicate 64 (checksum [] m)
|}.
Lemma toy_laws : @CryptoLaws toy_crypto.
Proof.
  split; cbn.
  - intros key m. by eexists.
  - intros key m. destruct (len key =? 16); [by eexists|done].
  - done.
Qed.

(** ** Properties *)

(** A signed message verifies: when [sign] succeeds, [verify] accepts what it
    left in the buffer and leaves it unchanged, and the signed message is the
    original with the SIGNED flag set and its signature field filled in: same
    header otherwise, same payload. *)
Theorem sign_verify_roundtrip `{CryptoLaws} (self : SigningState.t) (m m' : bytes)
    (Hsign : sign self m = (Ok tt, m')) :
  verify self m' = (Ok tt, m') /\
  exists h s, decode_header m = Ok h /\ decode_header m' = Ok (signed_header h s) /\
    drop 64 m' = drop 64 m.
Proof.
  destruct (decode_header m) as [h|e| |] eqn:Hd.
  - apply decode_split in Hd as (Hm & Hwf & Hc & Hl).
    set (rest := drop (Z.to_nat 64) m) in *. rewrite Hm, sign_eq in Hsign by done.
    set (h' := with_flags h (Z.lor (hdr_flags h) flags.SIGNED)) in *.
    destruct (compute_signature self (unsigned h' rest)) as [s| | |] eqn:Hcs; try done.
    change (with_signature h' s) with (signed_header h s) in Hsign.
    assert (m' = header_bytes (signed_header h s) ++ rest) as -> by congruence.
    destruct (signed_header_wf h s Hwf Hc (compute_len _ _ _ Hcs)) as (Hwf' & Hc' & Hf').
    split.
    + rewrite verify_eq by done. rewrite Hf'. cbn [negb].
      replace (unsigned (signed_header h s) rest) with (unsigned h' rest) by done.
      rewrite Hcs. cbn [obind]. by rewrite bool_decide_true.
    + exists h, s. split; [done|]. split; [by apply decode_header_bytes|].
      by apply (drop_app_here _ _ 64); rewrite len_header_bytes by apply Hwf'.
  - exfalso. revert Hsign. unfold sign, sbind, swith, ensure_smb2_message.
    destruct (len m <? SMB2_HEADER_SIZE); [done|]. by rewrite Hd.
  - by pose proof (returns_decode_header m) as Hr; rewrite Hd in Hr.
  - by pose proof (returns_decode_header m) as Hr; rewrite Hd in Hr.
Qed.

Lemma sign_verify_roundtrip_witness :
  @verify toy_crypto (SigningState.mk AesCmac (replicate 16 x01))
    (@sign toy_crypto (SigningState.mk AesCmac (replicate 16 x01))
       (header_bytes (request Command.Echo 5 0 1) ++ [x04; x00; x00; x00])).2
  = (Ok tt, (@sign toy_crypto (SigningState.mk AesCmac (replicate 16 x01))
       (header_bytes (request Command.Echo 5 0 1) ++ [x04; x00; x00; x00])).2).
Proof.
  apply (@sign_verify_roundtrip toy_crypto toy_laws _
           (header_bytes (request Command.Echo 5 0 1) ++ [x04; x00; x00; x00])).
  vm_compute. reflexivity.
Defined.

(** C34: [verify] accepts a message exactly when its header decodes, is flagged
    SIGNED, and its signature field is the session's MAC of the whole message
    with that field zeroed; whatever it answers, it returns and the message is
    left as it was. *)
Theorem verify_iff `{CryptoLaws} (self : SigningState.t) (m : bytes) :
  returns (verify self m).1 /\ (verify self m).2 = m /\
  ((verify self m).1 = Ok tt <->
   exists h, decode_header m = Ok h /\ has_flag (hdr_flags h) flags.SIGNED = true /\
     compute_signature self (unsigned h (drop 64 m)) = Ok (signature h)).
Proof.
  destruct (verify_returns self m) as [Hr Hm]. split; [done|]. split; [done|].
  destruct (decode_header m) as [h|e| |] eqn:Hd.
  - apply decode_split in Hd as (Hs & Hwf & Hc & Hl). revert Hs.
    change (Z.to_nat 64) with 64%nat. set (rest := drop 64 m). clearbody rest. intros ->.
    rewrite verify_eq by done. cbn [fst]. split.
    + destruct (has_flag (hdr_flags h) flags.SIGNED) eqn:Hf; cbn [negb]; [|done].
      destruct (compute_signature self (unsigned h rest)) as [s| | |] eqn:Hs; try done.
      cbn [obind]. case_bool_decide as Heq; [|done]. intros _. exists h. by rewrite Hs, Heq.
    + intros (h' & [= <-] & Hf & Hcs). rewrite Hf, Hcs. cbn [negb obind].
      by rewrite bool_decide_true.
  - destruct (verify_bad_header self m e Hd) as [err ->].
    split; [done|by intros (h & ? & _)].
  - by pose proof (returns_decode_header m) as Hr'; rewrite Hd in Hr'.
  - by pose proof (returns_decode_header m) as Hr'; rewrite Hd in Hr'.
Qed.

Lemma verify_iff_witness :
  (@verify toy_crypto (SigningState.mk HmacSha256 []) [x00]).2 = [x00].
Proof. apply (@verify_iff toy_crypto toy_laws). Defined.

(** The signing key of a session follows its dialect: SMB 2.x signs with
    HMAC-SHA256 under the session key itself, 3.0 and 3.0.2 with AES-CMAC under
    a key derived with the fixed labels, 3.1.1 with the negotiated algorithm
    under a key bound to the preauthentication hash, without which there is no
    key; AES-GMAC is refused, and every derived key is 16 bytes, the size
    AES-CMAC needs. *)
Theorem derive_by_dialect `{CryptoLaws} (d : Dialect) (a : SigningAlgorithm) (key : bytes)
    (preauth : option PreauthIntegrityHash.t) :
  let normalized := take 16 key ++ replicate (16 - length key) x00 in
  match d, derive d a key preauth with
  | (Smb202 | Smb210), r => r = Ok (SigningState.mk HmacSha256 normalized)
  | (Smb300 | Smb302), Ok s =>
      SigningState.algorithm s = AesCmac /\ len (SigningState.key s) = 16 /\
      sp800_108_kdf_128 normalized label_aes_cmac context_smb_sign = Ok (SigningState.key s)
  | Smb311, Ok s =>
      a <> AesGmac /\ SigningState.algorithm s = a /\ len (SigningState.key s) = 16 /\
      exists hash, preauth = Some hash /\
        sp800_108_kdf_128 normalized label_signing_key hash = Ok (SigningState.key s)
  | Smb311, Err _ => a = AesGmac \/ preauth = None
  | _, _ => False
  end.
Proof.
  cbv zeta. unfold derive. rewrite normalize_ok. cbn [obind].
  set (normalized := take 16 key ++ replicate (16 - length key) x00).
  destruct d; cbn [bool_decide].
  1,2: by rewrite bool_decide_false by done.
  1,2: rewrite bool_decide_false by done;
    destruct (kdf_ok normalized label_aes_cmac context_smb_sign) as (s & Hs & Hl);
    rewrite Hs; cbn [obind SigningState.algorithm SigningState.key]; done.
  case_bool_decide as Ha; [by left|].
  destruct preauth as [hash|]; cbn [ok_or obind]; [|by right].
  destruct (kdf_ok normalized label_signing_key hash) as (s & Hs & Hl).
  unfold PreauthIntegrityHash.current. rewrite Hs. cbn [obind SigningState.algorithm SigningState.key].
  split; [done|]. split; [done|]. split; [done|]. by exists hash.
Qed.

Lemma derive_by_dialect_witness :
  @derive toy_crypto Smb210 AesCmac [x01; x02] None
  = Ok (SigningState.mk HmacSha256 ([x01; x02] ++ replicate 14 x00)).
Proof. exact (@derive_by_dialect toy_crypto toy_laws Smb210 AesCmac [x01; x02] None). Defined.
