(* ===== verification/Connection.v ===== *)
(** * Connections and NEGOTIATE

    [crates/smb-client/src/negotiate.rs]: the state of one transport connection
    (MessageIds, credits, negotiated parameters, preauthentication hash) and the
    NEGOTIATE exchange that fills it. *)
From S2P Require Import Prelude WireError Frame Header CreateContext Negotiate Client Credits.
From S2P Require Import MessageIds Transport Signing.

(** ** Configuration and parameters *)
Module NegotiateConfig.
Record t : Type := mk {
  dialects : list Dialect;
  security_mode : Z;
  capabilities : Z;
  client_guid : bytes;
  preauth_salt : bytes;
  signing_algorithms : list SigningAlgorithm;
  credit_request : Z
}.

Definition modern (client_guid preauth_salt : bytes) : t :=
  {| dialects := [Smb202; Smb210; Smb300; Smb302; Smb311];
     security_mode := security_mode.SIGNING_ENABLED;
     capabilities := capabilities.LARGE_MTU;
     client_guid := client_guid;
     preauth_salt := preauth_salt;
     signing_algorithms := [AesCmac; HmacSha256];
     credit_request := 64 |}.
End NegotiateConfig.

Definition signing_capabilities_context (algorithms : list SigningAlgorithm) :
    client NegotiateContext.t :=
  let! count := ok_or (try_from u16_max (len algorithms))
                      (Protocol "too many SMB signing algorithms") in
  if count =? 0
  then Err (Protocol "SMB signing capabilities must contain an algorithm") else
  if bool_decide (AesGmac ∈ algorithms)
  then Err (Protocol "AES-GMAC must not be advertised until it is implemented") else
  Ok (NegotiateContext.mk context_type.SIGNING_CAPABILITIES
        (le_bytes 2 count ++ (algorithms ≫= fun algorithm => le_bytes 2 (algorithm_value algorithm)))).

(** [NegotiateConfig::request]. *)
Definition negotiate_request (config : NegotiateConfig.t) : client NegotiateRequest.t :=
  let! contexts :=
    if bool_decide (Smb311 ∈ NegotiateConfig.dialects config) then
      if is_empty (NegotiateConfig.preauth_salt config)
      then Err (Protocol "SMB 3.1.1 negotiation requires a non-empty preauth salt") else
      let! preauth :=
        from_wire (NegotiateContext.preauth_sha512 (NegotiateConfig.preauth_salt config)) in
      if negb (is_empty (NegotiateConfig.signing_algorithms config))
      then let! signing :=
             signing_capabilities_context (NegotiateConfig.signing_algorithms config) in
           Ok [preauth; signing]
      else Ok [preauth]
    else Ok [] in
  Ok (NegotiateRequest.mk (NegotiateConfig.security_mode config)
        (NegotiateConfig.capabilities config) (NegotiateConfig.client_guid config)
        (NegotiateConfig.dialects config) contexts).

Module NegotiatedParameters.
Record t : Type := mk {
  dialect : Dialect;
  security_mode : Z;
  capabilities : Z;
  server_guid : bytes;
  max_transact_size : Z;
  max_read_size : Z;
  max_write_size : Z;
  initial_credits : Z;
  signing_algorithm : SigningAlgorithm;
  require_signing : bool
}.

Definition signing_enabled (p : t) : bool :=
  has_flag (security_mode p) security_mode.SIGNING_ENABLED.
Definition signing_required (p : t) : bool := require_signing p.
Definition supports_multi_credit (p : t) : bool :=
  negb (bool_decide (dialect p = Smb202)) && has_flag (capabilities p) capabilities.LARGE_MTU.

(** The size limits a negotiation leaves behind are non-zero 32-bit numbers. *)
Definition wf (p : t) : Prop :=
  0 < max_transact_size p < 2 ^ 32 /\ 0 < max_read_size p < 2 ^ 32 /\
  0 < max_write_size p < 2 ^ 32.
End NegotiatedParameters.

(** ** Checking the server's contexts *)

Definition select_signing_algorithm (dialect : Dialect) (contexts : list NegotiateContext.t)
    (offered : list SigningAlgorithm) : client SigningAlgorithm :=
  match dialect with
  | Smb202 | Smb210 => Ok HmacSha256
  | Smb300 | Smb302 => Ok AesCmac
  | Smb311 =>
      match filter (fun c => NegotiateContext.context_type c = context_type.SIGNING_CAPABILITIES)
                   contexts with
      | [] => Ok AesCmac
      | _ :: _ :: _ =>
          Err (Protocol "SMB 3.1.1 response contains duplicate signing capabilities")
      | [context] =>
          let data := NegotiateContext.data context in
          if len data <? 4
          then Err (Protocol "SMB 3.1.1 signing capabilities are truncated") else
          let! count := get_le 2 data 0 in
          if negb (count =? 1)
          then Err (Protocol "SMB 3.1.1 server must select exactly one signing algorithm") else
          let! value := get_le 2 data 2 in
          let! selected := algorithm_try_from value in
          if negb (bool_decide (selected ∈ offered))
          then Err (Protocol "server selected an SMB signing algorithm that was not offered") else
          Ok selected
      end
  end.

(** [slice.chunks_exact(2).any(|b| u16::from_le_bytes(b) == value)]. *)
Fixpoint any_u16 (value : Z) (bs : bytes) : bool :=
  match bs with
  | b1 :: b2 :: bs => (le_value [b1; b2] =? value) || any_u16 value bs
  | _ => false
  end.

Definition validate_server_preauth_sha512 (contexts : list NegotiateContext.t) : client unit :=
  match filter (fun c => NegotiateContext.context_type c
                         = context_type.PREAUTH_INTEGRITY_CAPABILITIES) contexts with
  | [] => Err (Protocol "SMB 3.1.1 response omitted preauth integrity capabilities")
  | _ :: _ :: _ =>
      Err (Protocol "SMB 3.1.1 response contains duplicate preauth integrity capabilities")
  | [context] =>
      let data := NegotiateContext.data context in
      if len data <? 6
      then Err (Protocol "SMB 3.1.1 preauth integrity context is truncated") else
      let! algorithm_count := get_le 2 data 0 in
      let! salt_len := get_le 2 data 2 in
      if algorithm_count =? 0
      then Err (Protocol "SMB 3.1.1 server returned no preauth hash algorithm") else
      let! algorithms_len := ok_or (checked_mul usize_max algorithm_count 2)
                                   (Protocol "preauth algorithm list overflow") in
      let! required :=
        ok_or (checked_add usize_max 4 algorithms_len
               ≫= fun value => checked_add usize_max value salt_len)
              (Protocol "preauth context length overflow") in
      if len data <? required
      then Err (Protocol "SMB 3.1.1 preauth integrity context length is invalid") else
      let! algorithms := slice data 4 (4 + algorithms_len) in
      if negb (any_u16 preauth_hash_algorithm.SHA_512 algorithms)
      then Err (Protocol "server did not offer SHA-512 for SMB 3.1.1 preauth integrity") else
      Ok tt
  end.

Lemma returns_select_signing d cs offered : returns (select_signing_algorithm d cs offered).
Proof.
  destruct d; try done. unfold select_signing_algorithm.
  destruct (filter _ cs) as [|c [|c' l]]; try done. cbv zeta.
  destruct (Z.ltb_spec (len (NegotiateContext.data c)) 4); [done|]. repeat returns_step.
Qed.

Lemma returns_validate_preauth cs : returns (validate_server_preauth_sha512 cs).
Proof.
  unfold validate_server_preauth_sha512.
  destruct (filter _ cs) as [|c [|c' l]]; try done. cbv zeta.
  destruct (Z.ltb_spec (len (NegotiateContext.data c)) 6); [done|].
  do 2 returns_step. returns_step; [done|]. returns_step; [|done].
  apply returns_bind; [destruct (_ ≫= _); done|]. intros req Hreq%ok_or_ok.
  apply bind_Some in Hreq as (v & [-> ?]%checked_add_some & [-> ?]%checked_add_some).
  opt_facts. read_facts.
  destruct (Z.ltb_spec (len (NegotiateContext.data c))
    (4 + le_at 2 (NegotiateContext.data c) 0 * 2 + le_at 2 (NegotiateContext.data c) 2)); [done|].
  rewrite slice_ok by lia. cbn [obind]. by destruct (any_u16 _ _).
Qed.
#[export] Hint Resolve returns_select_signing returns_validate_preauth : returns.

(** ** What a configuration asks for *)

(** [client_guid] is a [[u8; 16]]. *)
Definition config_wf (config : NegotiateConfig.t) : Prop :=
  len (NegotiateConfig.client_guid config) = 16.

(** The contexts of the request, by their bytes: one preauthentication context
    (type 1: one algorithm, SHA-512, and the salt) and, unless none is offered,
    one with the signing algorithms (type 8), and none at all without SMB 3.1.1. *)
Definition offered_contexts (config : NegotiateConfig.t) : list NegotiateContext.t :=
  let salt := NegotiateConfig.preauth_salt config in
  let algorithms := NegotiateConfig.signing_algorithms config in
  if decide (Smb311 ∈ NegotiateConfig.dialects config) then
    NegotiateContext.mk 1 (le_bytes 2 1 ++ le_bytes 2 (len salt) ++ le_bytes 2 1 ++ salt)
    :: if decide (algorithms = []) then [] else
       [NegotiateContext.mk 8 (le_bytes 2 (len algorithms)
          ++ concat (map (fun a => le_bytes 2 (algorithm_value a)) algorithms))]
  else [].

(** The request a configuration asks for. *)
Record asked (config : NegotiateConfig.t) (r : NegotiateRequest.t) : Prop := {
  asked_mode : NegotiateRequest.security_mode r = NegotiateConfig.security_mode config;
  asked_capabilities : NegotiateRequest.capabilities r = NegotiateConfig.capabilities config;
  asked_guid : NegotiateRequest.client_guid r = NegotiateConfig.client_guid config;
  asked_dialects : NegotiateRequest.dialects r = NegotiateConfig.dialects config;
  asked_contexts : NegotiateRequest.contexts r = offered_contexts config;
  asked_signing : Smb311 ∈ NegotiateConfig.dialects config ->
    AesGmac ∉ NegotiateConfig.signing_algorithms config
}.

Lemma bind_concat_map {A B} (f : A -> list B) (l : list A) : l ≫= f = concat (map f l).
Proof. induction l as [|x l IH]; [done|]. cbn. f_equal. exact IH. Qed.

Lemma signing_context_ok algorithms c :
  signing_capabilities_context algorithms = Ok c ->
  c = NegotiateContext.mk 8 (le_bytes 2 (len algorithms)
        ++ concat (map (fun a => le_bytes 2 (algorithm_value a)) algorithms)) /\
  algorithms <> [] /\ AesGmac ∉ algorithms.
Proof.
  unfold signing_capabilities_context. intros H. accept H. bool_facts.
  apply Ok_inj in H as <-. rewrite bind_concat_map. split; [done|]. split; [by intros ->|done].
Qed.

Lemma preauth_context_ok salt c :
  NegotiateContext.preauth_sha512 salt = Ok c ->
  c = NegotiateContext.mk 1 (le_bytes 2 1 ++ le_bytes 2 (len salt) ++ le_bytes 2 1 ++ salt).
Proof. unfold NegotiateContext.preauth_sha512. intros H. accept H. by apply Ok_inj in H as <-. Qed.

Lemma returns_preauth_context salt : returns (NegotiateContext.preauth_sha512 salt).
Proof. unfold NegotiateContext.preauth_sha512. repeat returns_step. Qed.
Lemma returns_signing_context algorithms : returns (signing_capabilities_context algorithms).
Proof. unfold signing_capabilities_context. repeat returns_step. Qed.
#[local] Hint Resolve returns_preauth_context returns_signing_context : returns.

Lemma returns_negotiate_request config : returns (negotiate_request config).
Proof.
  unfold negotiate_request. apply returns_bind; [|done]. repeat returns_step.
Qed.

Lemma negotiate_request_ok config r : negotiate_request config = Ok r -> asked config r.
Proof.
  unfold negotiate_request. intros (cs & Hcs & Hr)%obind_ok. apply Ok_inj in Hr as <-.
  cut (cs = offered_contexts config /\ (Smb311 ∈ NegotiateConfig.dialects config ->
    AesGmac ∉ NegotiateConfig.signing_algorithms config)); [by intros [-> ?]|].
  unfold offered_contexts. destruct (bool_decide _) eqn:E311; bool_facts.
  2:{ apply Ok_inj in Hcs as <-. by rewrite decide_False. }
  rewrite decide_True by done. accept Hcs.
  apply obind_ok in Hcs as (pre & ->%from_wire_ok%preauth_context_ok & Hcs).
  destruct (NegotiateConfig.signing_algorithms config) as [|a l] eqn:Ha; cbn [is_empty negb] in Hcs.
  - apply Ok_inj in Hcs as <-. split; [done|]. by intros _ ?%not_elem_of_nil.
  - apply obind_ok in Hcs as (sg & (-> & _ & ?)%signing_context_ok & Hcs).
    by apply Ok_inj in Hcs as <-.
Qed.

Lemma asked_types config r : asked config r ->
  Forall (fun c => u16 (NegotiateContext.context_type c)) (NegotiateRequest.contexts r).
Proof.
  intros Ha. rewrite (asked_contexts _ _ Ha). unfold offered_contexts.
  repeat case_decide; repeat constructor; cbn; lia.
Qed.

Lemma returns_negotiate_validate r : returns (NegotiateRequest.validate r).
Proof. unfold NegotiateRequest.validate. cbv zeta. by repeat case_match. Qed.

Lemma returns_negotiate_encode config r mid credit :
  config_wf config -> negotiate_request config = Ok r ->
  returns (NegotiateRequest.encode_message r mid credit).
Proof.
  intros Hwf Ha%negotiate_request_ok. pose proof (asked_guid _ _ Ha) as Hg. pose proof (asked_types _ _ Ha) as Ht.
  destruct (NegotiateRequest.validate r) as [[]|e| |] eqn:Hv.
  - rewrite negotiate_encode_message_ok by (done || by rewrite Hg). done.
  - unfold NegotiateRequest.encode_message, NegotiateRequest.encode_body. rewrite Hv.
    by rewrite encode_header_bytes.
  - pose proof (returns_negotiate_validate r) as Hr. rewrite Hv in Hr. destruct Hr.
  - pose proof (returns_negotiate_validate r) as Hr. rewrite Hv in Hr. destruct Hr.
Qed.

(** The algorithm a session ends up with: the one of the dialect, or for
    SMB 3.1.1 the one of the server's signing context (type 8), which names
    exactly one, among those offered; AES-CMAC if there is no such context. *)
Definition chosen_algorithm (d : Dialect) (cs : list NegotiateContext.t)
    (offered : list SigningAlgorithm) (a : SigningAlgorithm) : Prop :=
  match d with
  | Smb202 | Smb210 => a = HmacSha256
  | Smb300 | Smb302 => a = AesCmac
  | Smb311 =>
      match filter (fun c => NegotiateContext.context_type c = 8) cs with
      | [] => a = AesCmac
      | [c] => 4 <= len (NegotiateContext.data c) /\ le_at 2 (NegotiateContext.data c) 0 = 1 /\
          le_at 2 (NegotiateContext.data c) 2 = algorithm_value a /\ a ∈ offered
      | _ => False
      end
  end.

Lemma select_signing_ok d cs offered a :
  select_signing_algorithm d cs offered = Ok a -> chosen_algorithm d cs offered a.
Proof.
  destruct d; cbn [select_signing_algorithm chosen_algorithm]; try (by intros [= <-]).
  change context_type.SIGNING_CAPABILITIES with 8.
  destruct (filter _ cs) as [|c [|c' l]]; [by intros [= <-]| |done].
  cbv zeta. intros H. accept_step H. bool_facts. accept H. apply obind_ok in H as (s & Hs & H). accept H.
  bool_facts. apply Ok_inj in H as <-. split_and!; [done..| |done].
  revert Hs. unfold algorithm_try_from. repeat case_match; intros Hs; bool_facts;
    [apply Ok_inj in Hs; by subst s..|discriminate Hs].
Qed.

Lemma chosen_offered d cs offered a : chosen_algorithm d cs offered a ->
  (d = Smb311 -> AesGmac ∉ offered) -> a <> AesGmac.
Proof.
  unfold chosen_algorithm. intros Hc Hg ->. destruct d; try done. specialize (Hg eq_refl).
  repeat case_match; naive_solver.
Qed.

(** The server's preauthentication context (type 1), of which there is exactly
    one: its algorithms are inside it, with its salt, and SHA-512 is among them. *)
Definition preauth_accepted (cs : list NegotiateContext.t) : Prop :=
  exists c, filter (fun c => NegotiateContext.context_type c = 1) cs = [c] /\
    let data := NegotiateContext.data c in
    6 <= len data /\ 4 + 2 * le_at 2 data 0 + le_at 2 data 2 <= len data /\
    exists i, 0 <= i < le_at 2 data 0 /\ le_at 2 data (4 + 2 * i) = 1.

Lemma any_u16_at value bs : any_u16 value bs = true ->
  exists i, 0 <= i /\ 2 * i + 2 <= len bs /\ le_at 2 bs (2 * i) = value.
Proof.
  remember (length bs) as n eqn:Hn. revert bs Hn.
  induction n as [n IH] using lt_wf_ind. intros [|b1 [|b2 bs]] ->; [done..|].
  cbn [any_u16]. rewrite orb_true_iff. pose proof (len_nonneg bs) as Hbs.
  intros [Hv%Z.eqb_eq|Hr].
  - exists 0. split; [done|]. split; [unfold len in *; cbn; lia|]. exact Hv.
  - destruct (IH (length bs) ltac:(cbn; lia) bs eq_refl Hr) as (i & Hi & Hl & Hv).
    exists (i + 1). split; [lia|]. split; [unfold len in *; cbn in *; lia|].
    rewrite <- Hv. change (b1 :: b2 :: bs) with ([b1; b2] ++ bs).
    rewrite le_at_app_r by (change (len [b1; b2]) with 2; lia). f_equal. change (len [b1; b2]) with 2. lia.
Qed.

Lemma preauth_accepted_ok cs u : validate_server_preauth_sha512 cs = Ok u -> preauth_accepted cs.
Proof.
  unfold validate_server_preauth_sha512, preauth_accepted.
  change context_type.PREAUTH_INTEGRITY_CAPABILITIES with 1.
  destruct (filter _ cs) as [|c [|c' l]]; [done| |done]. cbv zeta. set (data := NegotiateContext.data c).
  intros H. exists c. split; [done|]. fold data. accept_step H. bool_facts. do 4 accept_step H.
  read_facts. destruct (checked_add usize_max 4 _) as [v|] eqn:Hv; [|discriminate H]. cbn [mbind option_bind] in H.
  apply checked_add_some in Hv as [-> ?]. accept_step H. bool_facts. accept H. bool_facts.
  match goal with Hany : any_u16 _ _ = true |- _ => apply any_u16_at in Hany as (i & Hi & Hl & Hat) end. clear H.
  match type of Hl with context [sub data ?o ?n] => set (algorithms := sub data o n) in * end.
  assert (len algorithms = le_at 2 data 0 * 2) as Hla by (unfold algorithms; rewrite len_sub; lia).
  split; [lia|]. split; [lia|]. exists i. split; [lia|].
  change preauth_hash_algorithm.SHA_512 with 1 in Hat. rewrite <- Hat. unfold algorithms. by rewrite le_at_sub by lia.
Qed.

(** The check every exchange ends its header validation with: [Status(0)] goes
    on, another status is the server's error, the request form is refused with
    the exchange's own message. *)
Definition check_status (h : Smb2Header) (form_error : string) : client unit :=
  match status h with
  | Status 0 => Ok tt
  | Status s => Err (ServerStatus s)
  | ChannelSequence _ _ => Err (Protocol form_error)
  end.

Lemma returns_check_status h e : returns (check_status h e).
Proof. unfold check_status. by repeat case_match. Qed.
Lemma check_status_ok h e u : check_status h e = Ok u <-> status h = Status 0.
Proof. unfold check_status. destruct u. repeat case_match; naive_solver. Qed.
#[export] Hint Resolve returns_check_status returns_negotiate_request : returns.

(** ** The connection *)
Module Connection.

Record t (T : Type) : Type := mk {
  transport : T;
  message_ids : Z;
  negotiated : option NegotiatedParameters.t;
  preauth_hash : option PreauthIntegrityHash.t;
  credits : option CreditManager.t
}.
Arguments mk {T}.
Arguments transport {T}.
Arguments message_ids {T}.
Arguments negotiated {T}.
Arguments preauth_hash {T}.
Arguments credits {T}.

Section connection.
Context {T : Type}.

Definition new (transport : T) : t T := mk transport 0 None None None.

Definition set_transport (c : t T) (x : T) : t T :=
  mk x (message_ids c) (negotiated c) (preauth_hash c) (credits c).
Definition set_message_ids (c : t T) (x : Z) : t T :=
  mk (transport c) x (negotiated c) (preauth_hash c) (credits c).
Definition set_preauth (c : t T) (x : option PreauthIntegrityHash.t) : t T :=
  mk (transport c) (message_ids c) (negotiated c) x (credits c).
Definition set_credits (c : t T) (x : option CreditManager.t) : t T :=
  mk (transport c) (message_ids c) (negotiated c) (preauth_hash c) x.

(** The calls on the parts of [self]. *)
Definition allocate (credit_charge : Z) : st (t T) Z :=
  zoom message_ids set_message_ids (MessageIds.allocate credit_charge).
Definition send `{Transport T} (message : bytes) : st (t T) unit :=
  zoom transport set_transport (send_message message).
Definition receive `{Transport T} : st (t T) bytes :=
  zoom transport set_transport receive_message.

Definition available_credits (c : t T) : option Z :=
  CreditManager.available <$> credits c.

Definition single_request_credit_charge (c : t T) : client Z :=
  let! negotiated := ok_or (negotiated c)
    (Protocol "credit calculation requires negotiated parameters") in
  Ok (if NegotiatedParameters.supports_multi_credit negotiated then 1 else 0).

Definition uninitialized_window : ClientError := Protocol "SMB credit window is not initialized".

(** [self.credits.as_mut().ok_or(...)?] and the call on it. *)
Definition with_credits {A} (m : st CreditManager.t A) : st (t T) A := fun c =>
  match credits c with
  | None => (Err uninitialized_window, c)
  | Some credits => let '(r, credits) := m credits in (r, set_credits c (Some credits))
  end.

Definition reserve_credits (credit_charge minimum_credit_request : Z) : st (t T) Z :=
  with_credits
    (do! _ := CreditManager.reserve credit_charge in
     sget (fun credits => CreditManager.request_hint credits minimum_credit_request)).

Definition grant_credits (credit_response : Z) : st (t T) unit :=
  with_credits (CreditManager.grant credit_response).

Definition negotiate `{Transport T} `{Crypto} (config : NegotiateConfig.t) :
    st (t T) NegotiatedParameters.t :=
  do! already := sget negotiated in
  if bool_decide (is_Some already)
  then slift (Err (Protocol "SMB connection is already negotiated")) else
  do! request := slift (negotiate_request config) in
  do! id := allocate 0 in
  do! request_message := slift (from_wire (NegotiateRequest.encode_message request id
                                             (NegotiateConfig.credit_request config))) in
  let advertised_311 := bool_decide (Smb311 ∈ NegotiateConfig.dialects config) in
  do! preauth := slift (if advertised_311
                        then let! hash := PreauthIntegrityHash.update PreauthIntegrityHash.new
                                            request_message in Ok (Some hash)
                        else Ok None) in
  do! _ := send request_message in
  do! response_message := receive in
  do! response_header := slift (from_wire (decode_header response_message)) in
  if negb (message_id response_header =? id)
  then slift (Err (Protocol "NEGOTIATE response MessageId does not match request")) else
  do! _ := slift (check_status response_header "NEGOTIATE response used request header form") in
  do! response := slift (from_wire (NegotiateResponse.decode_message response_message)) in
  if negb (bool_decide (NegotiateResponse.dialect response ∈ NegotiateConfig.dialects config))
  then slift (Err (Protocol "server selected a dialect that was not offered")) else
  do! preauth_hash := slift
    (if bool_decide (NegotiateResponse.dialect response = Smb311) then
       let! _ := validate_server_preauth_sha512 (NegotiateResponse.contexts response) in
       let! hash := ok_or preauth
         (Protocol "SMB 3.1.1 selected without a client preauth hash") in
       let! hash := PreauthIntegrityHash.update hash response_message in
       Ok (Some hash)
     else Ok None) in
  do! signing_algorithm := slift
    (select_signing_algorithm (NegotiateResponse.dialect response)
       (NegotiateResponse.contexts response) (NegotiateConfig.signing_algorithms config)) in
  let require_signing :=
    has_flag (NegotiateResponse.security_mode response) security_mode.SIGNING_REQUIRED
    || has_flag (NegotiateConfig.security_mode config) security_mode.SIGNING_REQUIRED in
  let parameters :=
    {| NegotiatedParameters.dialect := NegotiateResponse.dialect response;
       NegotiatedParameters.security_mode := NegotiateResponse.security_mode response;
       NegotiatedParameters.capabilities := NegotiateResponse.capabilities response;
       NegotiatedParameters.server_guid := NegotiateResponse.server_guid response;
       NegotiatedParameters.max_transact_size := NegotiateResponse.max_transact_size response;
       NegotiatedParameters.max_read_size := NegotiateResponse.max_read_size response;
       NegotiatedParameters.max_write_size := NegotiateResponse.max_write_size response;
       NegotiatedParameters.initial_credits := Header.credits (NegotiateResponse.header response);
       NegotiatedParameters.signing_algorithm := signing_algorithm;
       NegotiatedParameters.require_signing := require_signing |} in
  if (NegotiatedParameters.max_transact_size parameters =? 0)
     || (NegotiatedParameters.max_read_size parameters =? 0)
     || (NegotiatedParameters.max_write_size parameters =? 0)
  then slift (Err (Protocol "server negotiated a zero SMB operation size limit")) else
  do! credits := slift (CreditManager.new (NegotiatedParameters.initial_credits parameters)) in
  do! _ := smodify (fun c => set_preauth c preauth_hash) in
  do! _ := smodify (fun c => set_credits c (Some credits)) in
  do! _ := smodify (fun c => mk (transport c) (message_ids c) (Some parameters)
                               (Connection.preauth_hash c) (Connection.credits c)) in
  do! stored := sget negotiated in
  slift (ok_or stored (Protocol "failed to store negotiated parameters")).

(** ** The invariant of a connection *)

Record wf (c : t T) : Prop := {
  wf_ids : u64 (message_ids c);
  wf_hash : forall h, preauth_hash c = Some h -> len h = 64;
  wf_credits : forall s, credits c = Some s -> CreditManager.wf s;
  wf_negotiated : forall p, negotiated c = Some p -> NegotiatedParameters.wf p
}.

(** What a failed negotiation may have moved: the transport and the counter. *)
Definition unnegotiated (c c' : t T) : Prop :=
  negotiated c' = negotiated c /\ preauth_hash c' = preauth_hash c /\ credits c' = credits c.

Lemma wf_transport c x : wf c -> wf (set_transport c x).
Proof. by intros [? ? ? ?]; constructor. Qed.

Section rules.
Context `{TransportSafe T}.

(** The transport moves, nothing else does. *)
Lemma send_runs message c (Q : client unit -> t T -> Prop) :
  (forall r x, send_message message (transport c) = (r, x) -> Q r (set_transport c x)) ->
  runs (send message) c Q.
Proof.
  intros HQ. unfold send. apply runs_zoom. unfold runs.
  pose proof (send_no_panic (transport c) message) as Hn.
  destruct (send_message message (transport c)) as [[] x] eqn:E; auto.
Qed.

Lemma receive_runs c (Q : client bytes -> t T -> Prop) :
  (forall r x, receive_message (transport c) = (r, x) -> Q r (set_transport c x)) ->
  runs receive c Q.
Proof.
  intros HQ. unfold receive. apply runs_zoom. unfold runs.
  pose proof (receive_no_panic (transport c)) as Hn.
  destruct (receive_message (transport c)) as [[] x] eqn:E; auto.
Qed.
End rules.

(** One MessageId is used per unit of the charge, at least one. *)
Lemma allocate_runs charge c (Q : client Z -> t T -> Prop) :
  wf c -> 0 <= charge ->
  (forall c', wf c' -> message_ids c' = message_ids c + Z.max charge 1 ->
     c' = set_message_ids c (message_ids c') -> Q (Ok (message_ids c)) c') ->
  Q (Err MessageIds.exhausted) c ->
  runs (allocate charge) c Q.
Proof.
  intros [Hid Hh Hc Hn] ? Hok Herr. unfold allocate. apply runs_zoom.
  unfold runs, MessageIds.allocate.
  destruct (checked_add u64_max (message_ids c) (Z.max charge 1)) as [n|] eqn:E.
  - apply checked_add_some in E as [-> ?]. apply Hok; [|done..].
    unfold uint, u64_max in *. split; cbn; [unfold uint; lia|done..].
  - by destruct c.
Qed.

(** A call on the window that gives back a well-formed window. *)
Lemma with_credits_runs {A} (m : st CreditManager.t A) c (Q : client A -> t T -> Prop) :
  wf c -> (forall e, Q (Err e) c) ->
  (forall s, credits c = Some s -> CreditManager.wf s ->
     runs m s (fun r s' =>
       match r with
       | Ok a => CreditManager.wf s' /\ (wf (set_credits c (Some s')) ->
                                         Q (Ok a) (set_credits c (Some s')))
       | _ => s' = s
       end)) ->
  runs (with_credits m) c Q.
Proof.
  intros [Hid Hh Hc Hn] Herr Hm. unfold with_credits, runs.
  destruct (credits c) as [s|] eqn:Ec; [|by apply Herr].
  specialize (Hm s eq_refl (Hc s eq_refl)). unfold runs in Hm.
  destruct (m s) as [[a|e| |] s']; try done.
  - destruct Hm as [Hs' Hm]. apply Hm. split; [done|done|by intros ? [= <-]|done].
  - subst s'. replace (set_credits c (Some s)) with c; [apply Herr|].
    destruct c. cbn in *. by subst.
Qed.

Lemma reserve_runs charge minimum c (Q : client Z -> t T -> Prop) :
  wf c -> 0 <= charge -> (forall e, Q (Err e) c) ->
  (forall s s', credits c = Some s -> wf (set_credits c (Some s')) ->
     CreditManager.available s' = CreditManager.available s - Z.max charge 1 ->
     Q (Ok (CreditManager.request_hint s' minimum)) (set_credits c (Some s'))) ->
  runs (reserve_credits charge minimum) c Q.
Proof.
  intros Hwf ? Herr Hok. apply with_credits_runs; [done|done|]. intros s Es Hs.
  apply runs_bind. pose proof (CreditManager.reserve_wf charge s Hs ltac:(lia)) as Hr.
  unfold run_meets in Hr. unfold runs at 1.
  destruct (CreditManager.reserve charge s) as [[[]|e| |] s']; destruct Hr as (? & Hs' & Hr);
    try done; [|by destruct Hr].
  unfold runs, sget. split; [done|]. intros. by eapply Hok.
Qed.

Lemma grant_runs response c (Q : client unit -> t T -> Prop) :
  wf c -> u16 response -> (forall e, Q (Err e) c) ->
  (forall s s', credits c = Some s -> wf (set_credits c (Some s')) ->
     CreditManager.available s' = CreditManager.available s + response ->
     Q (Ok tt) (set_credits c (Some s'))) ->
  runs (grant_credits response) c Q.
Proof.
  intros Hwf ? Herr Hok. apply with_credits_runs; [done|done|]. intros s Es Hs.
  pose proof (CreditManager.grant_wf response s Hs ltac:(done)) as Hr.
  unfold run_meets in Hr. unfold runs.
  destruct (CreditManager.grant response s) as [[[]|e| |] s']; destruct Hr as (? & Hs' & Hr);
    try done; [|by destruct Hr].
  split; [done|]. intros. by eapply Hok.
Qed.

(** ** What NEGOTIATE promises *)
Section promise.
Context `{TransportSafe T} `{CryptoLaws}.

(** The hash after the two NEGOTIATE messages. *)
Definition transcript_hash (request_message response_message : bytes) : bytes :=
  sha512 (sha512 (PreauthIntegrityHash.new ++ request_message) ++ response_message).

(** The parameters [p], the hash and the window follow from the configuration
    and the two messages: the fields of the response at their offsets, the
    credits its header grants, and what its contexts choose. *)
Record agreed (config : NegotiateConfig.t) (id : Z) (request_message response_message : bytes)
    (p : NegotiatedParameters.t) (hash : option PreauthIntegrityHash.t)
    (window : option CreditManager.t) : Prop := {
  agreed_request : exists request, asked config request /\
    NegotiateRequest.encode_message request id (NegotiateConfig.credit_request config)
    = Ok request_message;
  agreed_header : exists h, decode_header response_message = Ok h /\
    message_id h = id /\ status h = Status 0;
  agreed_response : exists r, NegotiateResponse.decode_message response_message = Ok r /\
    NegotiatedParameters.dialect p = NegotiateResponse.dialect r /\
    chosen_algorithm (NegotiatedParameters.dialect p) (NegotiateResponse.contexts r)
      (NegotiateConfig.signing_algorithms config) (NegotiatedParameters.signing_algorithm p) /\
    (NegotiatedParameters.dialect p = Smb311 -> preauth_accepted (NegotiateResponse.contexts r));
  agreed_dialect : NegotiatedParameters.dialect p ∈ NegotiateConfig.dialects config;
  agreed_dialect_value : dialect_value (NegotiatedParameters.dialect p) = le_at 2 response_message 68;
  agreed_mode : NegotiatedParameters.security_mode p = le_at 2 response_message 66;
  agreed_required : NegotiatedParameters.require_signing p =
    has_flag (le_at 2 response_message 66) 2
    || has_flag (NegotiateConfig.security_mode config) 2;
  agreed_guid : NegotiatedParameters.server_guid p = sub response_message 72 16;
  agreed_capabilities : NegotiatedParameters.capabilities p = le_at 4 response_message 88;
  agreed_transact : NegotiatedParameters.max_transact_size p = le_at 4 response_message 92;
  agreed_read : NegotiatedParameters.max_read_size p = le_at 4 response_message 96;
  agreed_write : NegotiatedParameters.max_write_size p = le_at 4 response_message 100;
  agreed_sizes : NegotiatedParameters.max_transact_size p <> 0 /\
    NegotiatedParameters.max_read_size p <> 0 /\ NegotiatedParameters.max_write_size p <> 0;
  agreed_signing : NegotiatedParameters.signing_algorithm p <> AesGmac;
  agreed_hash : hash = match NegotiatedParameters.dialect p with
                       | Smb311 => Some (transcript_hash request_message response_message)
                       | _ => None
                       end;
  agreed_credits : NegotiatedParameters.initial_credits p = le_at 2 response_message 14;
  agreed_window : 0 < NegotiatedParameters.initial_credits p /\
    window = Some (CreditManager.mk (NegotiatedParameters.initial_credits p) DEFAULT_TARGET_CREDITS)
}.

(** The credits of a decoded header are at byte 14. *)
Lemma header_credits_at h message :
  header_wf h -> header_bytes h = sub message 0 64 -> 64 <= len message ->
  Header.credits h = le_at 2 message 14.
Proof.
  intros Hwf Hb Hl. transitivity (le_at 2 (header_bytes h) 14).
  - destruct Hwf as (? & ? & ? & ?). unfold header_bytes. symmetry. field_at.
  - rewrite Hb. by rewrite le_at_sub by lia.
Qed.

Lemma hash_update message h :
  len h = 64 -> PreauthIntegrityHash.update h message = Ok (sha512 (h ++ message)).
Proof. by apply PreauthIntegrityHash.update_ok. Qed.

(** Both hash steps of the exchange. *)
Lemma returns_client_hash (b : bool) message :
  returns (if b then let! hash := PreauthIntegrityHash.update PreauthIntegrityHash.new message in
                     Ok (Some hash) else Ok None : client _).
Proof. destruct b; [|done]. by rewrite hash_update. Qed.

Lemma client_hash_ok (b : bool) message (o : option bytes) :
  (if b then let! hash := PreauthIntegrityHash.update PreauthIntegrityHash.new message in
             Ok (Some hash) else Ok None) = Ok o :> client _ ->
  o = if b then Some (sha512 (PreauthIntegrityHash.new ++ message)) else None.
Proof. destruct b; [|by intros [= <-]]. rewrite hash_update by done. by intros [= <-]. Qed.

Definition server_hash (d : Dialect) (cs : list NegotiateContext.t) (o : option bytes)
    (message : bytes) : client (option bytes) :=
  if bool_decide (d = Smb311) then
    let! _ := validate_server_preauth_sha512 cs in
    let! hash := ok_or o (Protocol "SMB 3.1.1 selected without a client preauth hash") in
    let! hash := PreauthIntegrityHash.update hash message in Ok (Some hash)
  else Ok None.

Lemma server_hash_meets d cs o message :
  (forall h, o = Some h -> len h = 64) ->
  meets (server_hash d cs o message) (fun o' =>
    match d with
    | Smb311 => preauth_accepted cs /\ exists h, o = Some h /\ o' = Some (sha512 (h ++ message))
    | _ => o' = None
    end).
Proof.
  intros Ho. unfold server_hash. destruct d; try done.
  rewrite bool_decide_true by done. apply meets_returns_bind; [auto with returns|].
  intros u Hu%preauth_accepted_ok.
  destruct o as [h|]; [|done]. cbn [ok_or obind]. rewrite hash_update by auto. cbn. split; [done|by exists h].
Qed.

Lemma credits_new_meets n : u16 n ->
  meets (CreditManager.new n) (fun s => 0 < n /\ s = CreditManager.mk n DEFAULT_TARGET_CREDITS).
Proof.
  unfold CreditManager.new, uint. intros ?. destruct (Z.eqb_spec n 0); [done|].
  cbn. split; [lia|done].
Qed.

Lemma negotiate_runs config c :
  config_wf config -> wf c ->
  runs (negotiate config) c (fun r c' =>
    wf c' /\
    match r with
    | Ok p => negotiated c = None /\ negotiated c' = Some p /\
        exists request_message response_message t1,
          send_message request_message (transport c) = (Ok tt, t1) /\
          receive_message t1 = (Ok response_message, transport c') /\
          agreed config (message_ids c) request_message response_message p
            (preauth_hash c') (credits c')
    | _ => unnegotiated c c'
    end).
Proof.
  intros Hcfg Hwf. unfold negotiate. run_step. run_step; [by run_step|].
  bool_facts. run_bind req Hreq.
  apply runs_bind, allocate_runs; [done|done| |done].
  intros c1 Hwf1 Hid Hc1.
  assert (unnegotiated c c1) as Hun1 by (by rewrite Hc1).
  assert (transport c1 = transport c) as Ht1 by (by rewrite Hc1).
  run_bind msg Hmsg; [by eapply returns_from_wire, returns_negotiate_encode|].
  cbv zeta. run_bind pre Hpre; [apply returns_client_hash|]. apply client_hash_ok in Hpre.
  apply runs_bind, send_runs. intros [[]|e| |] x1 Hsend; [|by split; [by apply wf_transport|]|exact I..].
  apply runs_bind, receive_runs. intros [resp|e| |] x2 Hrecv;
    [|by split; [do 2 apply wf_transport|]|exact I..].
  cbn [transport set_transport] in Hrecv. rewrite Ht1 in Hsend.
  set (c3 := set_transport (set_transport c1 x1) x2).
  assert (wf c3) as Hwf3 by (by do 2 apply wf_transport).
  assert (unnegotiated c c3) as Hun3 by done.
  run_bind h Hh. run_step; [by run_step|]. bool_facts.
  run_bind u Hst. run_bind r Hr.
  run_step; [by run_step|]. bool_facts.
  fold (server_hash (NegotiateResponse.dialect r) (NegotiateResponse.contexts r) pre resp).
  assert (forall x, pre = Some x -> len x = 64) as Hpl.
  { intros x ->. destruct (bool_decide _) in Hpre; [|done]. injection Hpre as ->.
    apply sha512_len. }
  pose proof (server_hash_meets (NegotiateResponse.dialect r) (NegotiateResponse.contexts r)
                pre resp Hpl) as Hsh.
  run_bind hash Hhash; [by eapply meets_returns|].
  eapply meets_ok in Hsh; [|exact Hhash].
  run_bind alg Halg.
  run_step; [by run_step|].
  apply from_wire_ok in Hr. pose proof (response_meets resp) as Hrs.
  eapply meets_ok in Hrs; [|exact Hr].
  pose proof (credits_new_meets (Header.credits (NegotiateResponse.header r))) as Hcn.
  run_bind window Hwin; [eapply meets_returns, Hcn; apply Hrs|].
  eapply meets_ok in Hcn as [Hpos ->]; [|apply Hrs|exact Hwin].
  do 4 run_step. apply runs_returns; [done|]. cbn [ok_or negotiated].
  assert (negotiated c = None) as Hnone by (by apply eq_None_not_Some).
  split; [|split; [done|split; [done|]]].
  - subst c3. destruct Hwf3 as [? _ _ _]. constructor; cbn; [done| | |].
    + intros x ->. destruct (NegotiateResponse.dialect r); try done.
      destruct Hsh as (_ & y & _ & [= ->]). apply sha512_len.
    + intros s [= <-]. unfold CreditManager.wf, uint. cbn.
      destruct Hrs as [(_ & _ & [? ?] & _) _]. split; [lia|done].
    + intros p [= <-]. bool_facts.  destruct Hrs as (_ & _ & _ & _ & _ & _ & _ & _ & Ht & Hrd & Hw & _).
      pose proof (le_at_bound 4 resp 92). pose proof (le_at_bound 4 resp 96).
      pose proof (le_at_bound 4 resp 100).
      unfold NegotiatedParameters.wf. change (8 * Z.of_nat 4) with 32 in *. cbn in *. lia.
  - exists msg, resp, x1. split; [done|]. split; [done|]. bool_facts.
    cbn [NegotiatedParameters.max_transact_size NegotiatedParameters.max_read_size
         NegotiatedParameters.max_write_size] in *.
    apply from_wire_ok in Hh. apply check_status_ok in Hst.
    apply negotiate_request_ok in Hreq. apply from_wire_ok in Hmsg. apply select_signing_ok in Halg.
    destruct Hrs as (Hhwf & Hhb & _ & _ & Hd & Hm & Hgu & Hcap & Htr & Hrd & Hwr & _).
    assert (64 <= len resp) as Hlen by (by apply decode_header_inv in Hh as [? _]).
    constructor; cbn; [by exists req|exists h; auto| |done|by rewrite Hd|done|by rewrite Hm|done..|tauto| | |
      by apply header_credits_at|auto].
    + exists r. split; [done|]. split; [done|]. split; [done|]. intros Hr311. rewrite Hr311 in Hsh. apply Hsh.
    + eapply chosen_offered; [exact Halg|]. intros Hr311. apply (asked_signing _ _ Hreq). by rewrite <- Hr311.
    + destruct (NegotiateResponse.dialect r); try done. destruct Hsh as (_ & y & Hy & ->).
      rewrite Hpre, bool_decide_true in Hy by done. by injection Hy as <-.
Qed.
End promise.

End connection.
End Connection.

(** ** Properties *)

(** C32: NEGOTIATE is safe and all-or-nothing. Against any peer it does not
    panic. When it succeeds, the connection was not negotiated before, the one
    request sent carries the configuration's dialects, client GUID, security mode,
    capabilities and contexts, one response was received, and everything stored
    follows from the two messages: the response answers this request with
    success; the dialect is the response's and was offered; security mode, server
    GUID, capabilities, the three size limits (none of them zero) and the initial
    credits are the fields of the response at their offsets; signing is required
    when either side requires it; the signing algorithm is the dialect's own or,
    for SMB 3.1.1, the one offered algorithm the server's signing context names
    (AES-CMAC without one), never the unimplemented AES-GMAC; for SMB 3.1.1 the
    server has agreed to SHA-512 and the preauthentication hash is that of the two
    messages, for the others there is none; and the credit window opens with the
    credits granted. When it fails, whatever the reason, parameters, hash and
    window are untouched. *)
Theorem negotiate_sound {T} `{TransportSafe T} `{CryptoLaws} (config : NegotiateConfig.t)
    (c : Connection.t T) (Hconfig : config_wf config) (Hc : Connection.wf c) :
  runs (Connection.negotiate config) c (fun r c' =>
    Connection.wf c' /\
    match r with
    | Ok p => Connection.negotiated c = None /\ Connection.negotiated c' = Some p /\
        exists request_message response_message t1,
          send_message request_message (Connection.transport c) = (Ok tt, t1) /\
          receive_message t1 = (Ok response_message, Connection.transport c') /\
          Connection.agreed config (Connection.message_ids c) request_message response_message p
            (Connection.preauth_hash c') (Connection.credits c')
    | _ => Connection.unnegotiated c c'
    end).
Proof. by apply Connection.negotiate_runs. Qed.

(** A server's answer that selects SMB 3.1.1 and grants 8 credits. *)
Definition sample_response : bytes :=
  header_bytes (mkSmb2Header 0 (Status 0) Command.Negotiate 8 flags.SERVER_TO_REDIR 0 0
                  (Sync 0 0) 0 (replicate 16 x00))
  ++ le_bytes 2 65 ++ le_bytes 2 1 ++ le_bytes 2 0x311 ++ le_bytes 2 1 ++ replicate 16 x05
  ++ le_bytes 4 4 ++ le_bytes 4 65536 ++ le_bytes 4 65536 ++ le_bytes 4 65536
  ++ le_bytes 8 0 ++ le_bytes 8 0 ++ le_bytes 2 0 ++ le_bytes 2 0 ++ le_bytes 4 128
  ++ le_bytes 2 1 ++ le_bytes 2 6 ++ le_bytes 4 0
  ++ le_bytes 2 1 ++ le_bytes 2 0 ++ le_bytes 2 1.

Definition sample_connection (writes : nat) (responses : list bytes) :
    Connection.t TcpTransport.t :=
  Connection.new
    (TcpTransport.mk (mkTcpStream (ReadData <$> map frame_of responses) (replicate writes WriteDone) [])
       DIRECT_TCP_MAX_PAYLOAD []).

Lemma sample_connection_wf writes responses : Connection.wf (sample_connection writes responses).
Proof. by constructor. Qed.

Definition sample_config : NegotiateConfig.t :=
  NegotiateConfig.modern (replicate 16 x01) (replicate 32 x02).

Lemma negotiate_sound_witness :
  exists p (c' : Connection.t TcpTransport.t),
    NegotiatedParameters.dialect p = Smb311 /\ Connection.available_credits c' = Some 8 /\
    Connection.negotiated c' = Some p.
Proof.
  destruct (runs_ended _ _ _ (fun p c' => bool_decide
      (NegotiatedParameters.dialect p = Smb311 /\ Connection.available_credits c' = Some 8))
      (@negotiate_sound _ _ _ toy_crypto toy_laws sample_config
         (sample_connection 1 [sample_response]) eq_refl (sample_connection_wf _ _)))
    as (p & c' & (_ & _ & Hn & _) & [Hd Ha]%bool_decide_eq_true);
    [vm_compute; reflexivity|].
  exists p, c'. split; [exact Hd|]. split; [exact Ha|exact Hn].
Defined.
