(* ===== verification/Auth.v ===== *)
(** * Authentication providers

    [crates/smb-auth/src/provider.rs]: the interface between SESSION_SETUP and
    an authentication mechanism, which owns the meaning of the tokens. *)
From S2P Require Import Prelude WireError Client.

Inductive AuthMechanism : Type := Anonymous | NtlmV2 | Kerberos.
#[export] Instance AuthMechanism_eq_dec : EqDecision AuthMechanism.
Proof. solve_decision. Defined.

Inductive AuthState : Type := Continue | Complete.
#[export] Instance AuthState_eq_dec : EqDecision AuthState.
Proof. solve_decision. Defined.

Module AuthStep.
Record t : Type := mk { token : bytes; state : AuthState }.
End AuthStep.

(** [trait AuthProvider]; a call may change the provider also when it fails. *)
Class AuthProvider (P : Type) : Type := {
  mechanism : P -> AuthMechanism;
  initial_token : P -> outcome AuthError.t AuthStep.t * P;
  next_token : bytes -> P -> outcome AuthError.t AuthStep.t * P;
  take_session_key : P -> option bytes * P
}.

(** The two fallible calls return, whatever the token. *)
Class AuthProviderSafe (P : Type) `{AuthProvider P} : Prop := {
  initial_token_returns (p : P) : returns (initial_token p).1;
  next_token_returns token (p : P) : returns (next_token token p).1
}.

(** A call in the client's monad, its error wrapped by [?]. *)
Definition provide {P A} (m : P -> outcome AuthError.t A * P) : st P A := fun p =>
  let '(r, p') := m p in (from_auth r, p').

Lemma provide_runs {P A} (m : P -> outcome AuthError.t A * P) p (Q : client A -> P -> Prop) :
  returns (m p).1 ->
  (forall a, (m p).1 = Ok a -> Q (Ok a) (m p).2) ->
  (forall e, Q (Err e) (m p).2) -> runs (provide m) p Q.
Proof. unfold runs, provide. destruct (m p) as [[] p']; cbn; naive_solver. Qed.
