(* ===== verification/Session.v ===== *)
(** * SESSION_SETUP

    [crates/smb-client/src/session.rs]: the token exchange that turns a
    negotiated connection into an authenticated session, against any
    authentication provider. *)
From S2P Require Import Prelude WireError Frame Header SessionMessages Negotiate Client.
From S2P Require Import Credits MessageIds Transport Signing Connection Auth.

Definition STATUS_SUCCESS : Z := 0x00000000.
Definition STATUS_MORE_PROCESSING_REQUIRED : Z := 0xC0000016.

Module SessionSetupConfig.
Record t : Type := mk {
  security_mode : Z;
  capabilities : Z;
  previous_session_id : Z;
  credit_request : Z;
  max_rounds : Z
}.
Definition default : t :=
  {| security_mode := Negotiate.security_mode.SIGNING_ENABLED mod 2 ^ 8; capabilities := 0;
     previous_session_id := 0; credit_request := 32; max_rounds := 8 |}.
End SessionSetupConfig.

Module SessionConnection.
Record t (T : Type) : Type := mk {
  connection : Connection.t T;
  session_id : Z;
  session_flags : Z;
  mechanism : AuthMechanism;
  session_key : option bytes;
  signing : option SigningState.t;
  signing_required : bool
}.
Arguments mk {T}.
Arguments connection {T}.
Arguments session_id {T}.
Arguments session_flags {T}.
Arguments mechanism {T}.
Arguments session_key {T}.
Arguments signing {T}.
Arguments signing_required {T}.

Section methods.
Context {T : Type} `{Crypto}.

Definition has_session_key (s : t T) : bool := bool_decide (is_Some (session_key s)).
Definition signing_algorithm (s : t T) : option SigningAlgorithm :=
  SigningState.algorithm <$> signing s.
Definition negotiated (s : t T) : option NegotiatedParameters.t :=
  Connection.negotiated (connection s).
Definition preauth_hash (s : t T) : option PreauthIntegrityHash.t :=
  Connection.preauth_hash (connection s).

Definition no_signing_state : ClientError := Protocol "SMB session does not have signing state".
Definition sign_message (s : t T) : st bytes unit :=
  do! signing := slift (ok_or (signing s) no_signing_state) in sign signing.
Definition verify_message (s : t T) : st bytes unit :=
  do! signing := slift (ok_or (signing s) no_signing_state) in verify signing.
End methods.
End SessionConnection.

(** [set_credit_charge] and [validate_session_id]. *)
Definition set_credit_charge (message : bytes) (credit_charge : Z) : client bytes :=
  copy_from_slice message 6 8 (le_bytes 2 credit_charge).

Definition validate_session_id (current received : Z) : client unit :=
  if negb (current =? 0) && negb (received =? current)
  then Err (Protocol "server changed SessionId during SESSION_SETUP") else Ok tt.

(** How a round of the loop ends. *)
Inductive round_end : Type :=
  | NextRound (step : AuthStep.t) (session_id : Z)
  | Established (session_id session_flags : Z) (session_key : option bytes)
      (signing : option SigningState.t) (signing_required : bool).

Section session_setup.
Context {T P : Type} `{Transport T} `{Crypto} `{AuthProvider P}.

(** The two objects the exchange works on: [self] and [provider]. *)
Definition world : Type := Connection.t T * P.
Definition on_connection {A} (m : st (Connection.t T) A) : st world A :=
  zoom fst (fun w c => (c, snd w)) m.
Definition on_provider {A} (m : st P A) : st world A :=
  zoom snd (fun w p => (fst w, p)) m.

Definition update_preauth (message : bytes) : st (Connection.t T) unit := fun c =>
  match Connection.preauth_hash c with
  | None => (Ok tt, c)
  | Some hash =>
      (do! hash := slift (PreauthIntegrityHash.update hash message) in
       smodify (fun c => Connection.set_preauth c (Some hash))) c
  end.

(** What follows the checks of the provider's final state. *)
Definition establish (mechanism : AuthMechanism) (response_header : Smb2Header)
    (response : SessionSetupResponse.t) (session_id : Z) (response_message : bytes) :
    st world round_end :=
  do! session_key := on_provider (fun p => let '(k, p) := take_session_key p in (Ok k, p)) in
  do! negotiated := on_connection (sget Connection.negotiated) in
  do! negotiated := slift (ok_or negotiated
    (Protocol "negotiated parameters disappeared during SESSION_SETUP")) in
  let flags := SessionSetupResponse.session_flags response in
  let is_guest := has_flag flags session_flags.IS_GUEST in
  let is_null := has_flag flags session_flags.IS_NULL in
  let is_anonymous := bool_decide (mechanism = Anonymous) || is_null in
  let is_guest_or_null := is_guest || is_anonymous in
  let is_encrypted := has_flag flags session_flags.ENCRYPT_DATA in
  if negb is_guest_or_null && bool_decide (session_key = None)
  then slift (Err (Protocol "authenticated session completed without a session key")) else
  let session_key := if is_guest_or_null then None else session_key in
  let signing_required := NegotiatedParameters.require_signing negotiated
                          && negb is_guest_or_null && negb is_encrypted in
  do! preauth_hash := on_connection (sget Connection.preauth_hash) in
  do! signing := slift
    (match session_key with
     | Some key =>
         if negb is_guest_or_null then
           let! signing := derive (NegotiatedParameters.dialect negotiated)
                             (NegotiatedParameters.signing_algorithm negotiated) key preauth_hash in
           Ok (Some signing)
         else Ok None
     | None => Ok None
     end) in
  do! _ := slift
    (if has_flag (hdr_flags response_header) Header.flags.SIGNED then
       let! signing := ok_or signing
         (Protocol "server signed SESSION_SETUP without an available signing key") in
       (verify signing response_message).1
     else if bool_decide (NegotiatedParameters.dialect negotiated = Smb311)
             && negb is_guest_or_null
     then Err (Protocol
       "SMB 3.1.1 final SESSION_SETUP response must be signed for a normal session")
     else if signing_required
     then Err (Protocol "server omitted a required SESSION_SETUP signature")
     else Ok tt) in
  sret (Established session_id flags session_key signing signing_required).

(** The state the provider ends in, which may look at a last token. *)
Definition final_state (step_state : AuthState) (security_blob : bytes) : st world AuthState :=
  if is_empty security_blob then sret step_state else
  do! final_step := on_provider (provide (next_token security_blob)) in
  if negb (is_empty (AuthStep.token final_step))
  then slift (Err (Protocol "authentication provider produced another token after STATUS_SUCCESS"))
  else sret (AuthStep.state final_step).

(** The part of a round that sends the request and receives the response. *)
Definition exchange_token (config : SessionSetupConfig.t) (token : bytes) (session_id : Z) :
    st (Connection.t T) (Z * bytes) :=
  let request :=
    {| SessionSetupRequest.flags := 0;
       SessionSetupRequest.security_mode := SessionSetupConfig.security_mode config;
       SessionSetupRequest.capabilities := SessionSetupConfig.capabilities config;
       SessionSetupRequest.previous_session_id := SessionSetupConfig.previous_session_id config;
       SessionSetupRequest.security_blob := token |} in
  do! c := sget id in
  do! credit_charge := slift (Connection.single_request_credit_charge c) in
  do! credit_request :=
    Connection.reserve_credits credit_charge (SessionSetupConfig.credit_request config) in
  do! message_id := Connection.allocate credit_charge in
  do! request_message := slift (from_wire
    (SessionSetupRequest.encode_message request message_id session_id credit_request)) in
  do! request_message := slift (set_credit_charge request_message credit_charge) in
  do! _ := update_preauth request_message in
  do! _ := Connection.send request_message in
  do! response_message := Connection.receive in
  sret (message_id, response_message).

(** The body of the loop. *)
Definition session_round (mechanism : AuthMechanism) (config : SessionSetupConfig.t)
    (step : AuthStep.t) (session_id : Z) : st world round_end :=
  let step_state := AuthStep.state step in
  do! '(id, response_message) :=
    on_connection (exchange_token config (AuthStep.token step) session_id) in
  do! response_header := slift (from_wire (decode_header response_message)) in
  do! _ := on_connection (Connection.grant_credits (Header.credits response_header)) in
  if negb (bool_decide (command response_header = Command.SessionSetup))
  then slift (Err (Protocol "SESSION_SETUP response command does not match request")) else
  if negb (message_id response_header =? id)
  then slift (Err (Protocol "SESSION_SETUP response MessageId does not match request")) else
  do! status := slift
    (match status response_header with
     | Status status => Ok status
     | ChannelSequence _ _ => Err (Protocol "SESSION_SETUP response used request header form")
     end) in
  if negb (status =? STATUS_SUCCESS) && negb (status =? STATUS_MORE_PROCESSING_REQUIRED)
  then slift (Err (ServerStatus status)) else
  do! response := slift (from_wire (SessionSetupResponse.decode_message response_message)) in
  let received := Header.session_id (SessionSetupResponse.header response) in
  do! _ := slift (validate_session_id session_id received) in
  let session_id := if negb (received =? 0) then received else session_id in
  if status =? STATUS_MORE_PROCESSING_REQUIRED then
    do! _ := on_connection (update_preauth response_message) in
    if session_id =? 0
    then slift (Err (Protocol "server did not assign a SessionId during authentication")) else
    do! step :=
      on_provider (provide (next_token (SessionSetupResponse.security_blob response))) in
    sret (NextRound step session_id)
  else
  do! final := final_state step_state (SessionSetupResponse.security_blob response) in
  if negb (bool_decide (final = Complete))
  then slift (Err (Protocol
    "server completed SESSION_SETUP before authentication provider completed")) else
  if session_id =? 0
  then slift (Err (Protocol "successful SESSION_SETUP response has a zero SessionId")) else
  establish mechanism response_header response session_id response_message.

(** [for _round in 0..config.max_rounds]. *)
Fixpoint session_loop (rounds : nat) (mechanism : AuthMechanism) (config : SessionSetupConfig.t)
    (step : AuthStep.t) (session_id : Z) : st world (SessionConnection.t T) :=
  match rounds with
  | O => slift (Err (Protocol
      "SESSION_SETUP exceeded the configured authentication round limit"))
  | S rounds =>
      do! round := session_round mechanism config step session_id in
      match round with
      | NextRound step session_id => session_loop rounds mechanism config step session_id
      | Established session_id session_flags session_key signing signing_required =>
          sget (fun w => {| SessionConnection.connection := fst w;
                            SessionConnection.session_id := session_id;
                            SessionConnection.session_flags := session_flags;
                            SessionConnection.mechanism := mechanism;
                            SessionConnection.session_key := session_key;
                            SessionConnection.signing := signing;
                            SessionConnection.signing_required := signing_required |})
      end
  end.

Definition session_setup (config : SessionSetupConfig.t) : st world (SessionConnection.t T) :=
  do! negotiated := on_connection (sget Connection.negotiated) in
  if bool_decide (negotiated = None)
  then slift (Err (Protocol "SESSION_SETUP requires a negotiated SMB connection")) else
  if SessionSetupConfig.max_rounds config =? 0
  then slift (Err (Protocol "SESSION_SETUP max_rounds must be greater than zero")) else
  do! mechanism := on_provider (sget Auth.mechanism) in
  do! step := on_provider (provide initial_token) in
  session_loop (Z.to_nat (SessionSetupConfig.max_rounds config)) mechanism config step 0.

End session_setup.

(** ** Lemmas *)

Section session_laws.
Context {T P : Type} `{TransportSafe T} `{CryptoLaws} `{AuthProviderSafe P}.

#[local] Abbreviation world := (@world T P).

(** The hash after a list of messages. *)
Definition hash_messages : bytes -> list bytes -> bytes := foldl (fun h m => sha512 (h ++ m)).

(** Requests sent and the responses received to each, from one state of the
    transport to another. *)
Inductive exchanges : T -> list (bytes * bytes) -> T -> Prop :=
  | exchanges_nil t : exchanges t [] t
  | exchanges_cons t request t1 response t2 rs t3 :
      send_message request t = (Ok tt, t1) -> receive_message t1 = (Ok response, t2) ->
      exchanges t2 rs t3 -> exchanges t ((request, response) :: rs) t3.

Lemma exchanges_app t1 rs1 t2 rs2 t3 :
  exchanges t1 rs1 t2 -> exchanges t2 rs2 t3 -> exchanges t1 (rs1 ++ rs2) t3.
Proof. induction 1; cbn; [done|]. intros. econstructor; eauto. Qed.

(** [c'] follows [c] by the exchanges [rs], of which the messages [ms] went into
    the hash. *)
Record follows (c : Connection.t T) (rs : list (bytes * bytes)) (ms : list bytes)
    (c' : Connection.t T) : Prop := {
  follows_wf : Connection.wf c';
  follows_negotiated : Connection.negotiated c' = Connection.negotiated c;
  follows_transport : exchanges (Connection.transport c) rs (Connection.transport c');
  follows_hash : Connection.preauth_hash c'
                 = (fun h => hash_messages h ms) <$> Connection.preauth_hash c
}.

Lemma follows_refl c : Connection.wf c -> follows c [] [] c.
Proof. intros. split; [done|done|constructor|by destruct (Connection.preauth_hash c)]. Qed.

Lemma follows_trans c1 rs1 ms1 c2 rs2 ms2 c3 :
  follows c1 rs1 ms1 c2 -> follows c2 rs2 ms2 c3 -> follows c1 (rs1 ++ rs2) (ms1 ++ ms2) c3.
Proof.
  intros [_ Hn1 Ht1 Hh1] [Hw Hn2 Ht2 Hh2]. split; [done|congruence|by eapply exchanges_app|].
  rewrite Hh2, Hh1. destruct (Connection.preauth_hash c1); [|done]. cbn. f_equal.
  unfold hash_messages. by rewrite foldl_app.
Qed.

(** A change of the window alone. *)
Lemma follows_credits c rs ms c' s :
  follows c rs ms c' -> Connection.wf (Connection.set_credits c' s) ->
  follows c rs ms (Connection.set_credits c' s).
Proof. by intros [_ ? ? ?] ?; split. Qed.

Lemma update_preauth_runs message c rs ms c' (Q : client unit -> Connection.t T -> Prop) :
  follows c rs ms c' ->
  (forall c'', follows c rs (ms ++ [message]) c'' -> Q (Ok tt) c'') ->
  runs (update_preauth message) c' Q.
Proof.
  intros [Hwf Hn Ht Hh] HQ. unfold update_preauth, runs.
  destruct (Connection.preauth_hash c') as [h|] eqn:Eh.
  - rewrite Connection.hash_update by by eapply Connection.wf_hash. cbn [sbind slift smodify].
    apply HQ. destruct Hwf. split; [|done|done|]; cbn.
    + constructor; [done| |done|done]. intros ? [= <-]. apply sha512_len.
    + destruct (Connection.preauth_hash c) as [h0|]; [|done]. cbn in *. injection Hh as ->.
      unfold hash_messages. by rewrite foldl_app.
  - apply HQ. split; [done|done|done|]. rewrite Eh.
    by destruct (Connection.preauth_hash c).
Qed.

(** The request that goes out. *)
Lemma returns_setup_encode r mid sid credit :
  meets (SessionSetupRequest.encode_message r mid sid credit) (fun m => 64 <= len m).
Proof.
  destruct (SessionSetupRequest.validate r) as [[]|e| |] eqn:Hv.
  - rewrite SessionSetupRequest.session_setup_request_encode_message_ok by done. cbn.
    pose proof (len_header_bytes (SessionSetupRequest.setup_header mid sid credit) eq_refl).
    rewrite len_app. pose proof (len_nonneg (SessionSetupRequest.body_bytes r)). lia.
  - unfold SessionSetupRequest.encode_message, SessionSetupRequest.setup_header.
    rewrite encode_request_header. cbn [obind].
    by rewrite SessionSetupRequest.session_setup_request_encode_body_ok, Hv.
  - unfold SessionSetupRequest.validate in Hv. by case_match.
  - unfold SessionSetupRequest.validate in Hv. by case_match.
Qed.

Lemma set_credit_charge_ok m charge :
  64 <= len m -> exists m', set_credit_charge m charge = Ok m'.
Proof. intros. unfold set_credit_charge. rewrite copy_from_slice_ok by (done || lia). eauto. Qed.

Lemma charge_meets (c : Connection.t T) :
  meets (Connection.single_request_credit_charge c) (fun n => 0 <= n <= 1).
Proof.
  unfold Connection.single_request_credit_charge.
  destruct (Connection.negotiated c); [|done]. cbn. case_match; lia.
Qed.

(** The request that carries a token: the fields of the configuration, and the
    identifier the session has so far. *)
Definition token_request (config : SessionSetupConfig.t) (token : bytes) : SessionSetupRequest.t :=
  {| SessionSetupRequest.flags := 0;
     SessionSetupRequest.security_mode := SessionSetupConfig.security_mode config;
     SessionSetupRequest.capabilities := SessionSetupConfig.capabilities config;
     SessionSetupRequest.previous_session_id := SessionSetupConfig.previous_session_id config;
     SessionSetupRequest.security_blob := token |}.
Definition carries (config : SessionSetupConfig.t) (token : bytes) (sid id : Z) (request : bytes) : Prop :=
  exists credit charge m,
    SessionSetupRequest.encode_message (token_request config token) id sid credit = Ok m /\
    set_credit_charge m charge = Ok request.

Lemma exchange_runs config token sid c :
  Connection.wf c ->
  runs (exchange_token config token sid) c (fun r c' =>
    match r with
    | Ok (id, response) => exists request, carries config token sid id request /\
        follows c [(request, response)] [request] c'
    | _ => True
    end).
Proof.
  intros Hwf. unfold exchange_token. cbv zeta. run_step. cbn [id].
  pose proof (charge_meets c) as Hcm.
  run_bind charge Hcharge; [by eapply meets_returns|]. eapply meets_ok in Hcm; [|exact Hcharge].
  apply runs_bind, Connection.reserve_runs; [done|lia|done|].
  intros s s' _ Hwf1 _. set (c1 := Connection.set_credits c (Some s')) in *.
  apply runs_bind, Connection.allocate_runs; [done|lia| |done].
  intros c2 Hwf2 _ Hc2. assert (follows c [] [] c2) as Hf2.
  { rewrite Hc2 in Hwf2 |- *. split; [done|done|constructor|]. cbn.
    by destruct (Connection.preauth_hash c). }
  fold (token_request config token). set (req := token_request config token) in *.
  pose proof (returns_setup_encode req (Connection.message_ids c1) sid
    (CreditManager.request_hint s' (SessionSetupConfig.credit_request config))) as Henc.
  run_bind m Hm; [by eapply returns_from_wire, meets_returns|].
  apply from_wire_ok in Hm. eapply meets_ok in Henc; [|exact Hm].
  destruct (set_credit_charge_ok m charge Henc) as [m' Hm'].
  run_bind m'' Hm''; [by rewrite Hm'|]. clear Hm'.
  assert (carries config token sid (Connection.message_ids c1) m'') as Hcarries by (by do 3 eexists).
  eapply runs_bind, update_preauth_runs; [exact Hf2|]. intros c3 Hf3.
  apply runs_bind, Connection.send_runs. intros [[]|e| |] x1 Hsend; try exact I.
  apply runs_bind, Connection.receive_runs. intros [resp|e| |] x2 Hrecv; try exact I.
  unfold runs, sret. exists m''. split; [done|]. clear Hcarries. destruct Hf3 as [Hw3 Hn3 Ht3 Hh3]. cbn in *.
  split; cbn; [by do 2 apply Connection.wf_transport|done| |done].
  assert (Connection.transport c = Connection.transport c3) as -> by (by inversion Ht3).
  by eapply exchanges_cons; [..|constructor].
Qed.

(** One request and its response: the request carries the provider's token, the
    response is a SESSION_SETUP response with its MessageId and this status, and
    an identifier once assigned stays. *)
Record took_round (config : SessionSetupConfig.t) (step : AuthStep.t) (sid : Z)
    (request response : bytes) (st : Z) (r : SessionSetupResponse.t) (sid' : Z) : Prop := {
  round_answer : exists id h, carries config (AuthStep.token step) sid id request /\
    decode_header response = Ok h /\ command h = Command.SessionSetup /\ message_id h = id /\
    status h = Status st;
  round_response : SessionSetupResponse.decode_message response = Ok r;
  round_assigned : sid' = (if Header.session_id (SessionSetupResponse.header r) =? 0 then sid
                           else Header.session_id (SessionSetupResponse.header r));
  round_kept : sid <> 0 -> sid' = sid
}.

(** The rounds that ask for more, from one state of the provider to another: each
    response's security blob is what the provider is given for its next token. *)
Inductive conversation (config : SessionSetupConfig.t) :
    AuthStep.t -> P -> Z -> list (bytes * bytes) -> AuthStep.t -> P -> Z -> Prop :=
  | conversation_done step p sid : conversation config step p sid [] step p sid
  | conversation_more step p sid request response r sid1 step1 p1 rs step2 p2 sid2 :
      took_round config step sid request response STATUS_MORE_PROCESSING_REQUIRED r sid1 -> sid1 <> 0 ->
      next_token (SessionSetupResponse.security_blob r) p = (Ok step1, p1) ->
      conversation config step1 p1 sid1 rs step2 p2 sid2 ->
      conversation config step p sid ((request, response) :: rs) step2 p2 sid2.

(** The last round: a success at which the provider is complete, of itself or with
    the blob of the response, for which it has no further token. *)
Definition concluded (config : SessionSetupConfig.t) (step : AuthStep.t) (p : P) (sid : Z)
    (request response : bytes) (p' : P) (sid' : Z) : Prop :=
  exists r, took_round config step sid request response STATUS_SUCCESS r sid' /\
    (SessionSetupResponse.security_blob r = [] /\ AuthStep.state step = Complete /\ p' = p \/
     SessionSetupResponse.security_blob r <> [] /\
     next_token (SessionSetupResponse.security_blob r) p = (Ok (AuthStep.mk [] Complete), p')).

(** What an established session rests on: [response_message] is the final
    response, [c] the connection it was received on, [provider] the provider at
    that point, whose key it is. *)
Record authenticated (mechanism : AuthMechanism) (provider : P) (c : Connection.t T)
    (response_message : bytes)
    (sid session_flags : Z) (session_key : option bytes) (signing : option SigningState.t)
    (signing_required : bool) (n : NegotiatedParameters.t) (h : Smb2Header) : Prop := {
  auth_header : decode_header response_message = Ok h /\ status h = Status STATUS_SUCCESS;
  auth_response : exists r, SessionSetupResponse.decode_message response_message = Ok r /\
    SessionSetupResponse.session_flags r = session_flags;
  auth_id : sid <> 0;
  auth_negotiated : Connection.negotiated c = Some n;
  auth_keys :
    let keyless := has_flag session_flags session_flags.IS_GUEST
      || (bool_decide (mechanism = Anonymous) || has_flag session_flags session_flags.IS_NULL) in
    signing_required = NegotiatedParameters.require_signing n && negb keyless
      && negb (has_flag session_flags session_flags.ENCRYPT_DATA) /\
    if keyless then session_key = None /\ signing = None
    else exists key state, session_key = Some key /\ (take_session_key provider).1 = Some key /\
      signing = Some state /\
      derive (NegotiatedParameters.dialect n) (NegotiatedParameters.signing_algorithm n) key
        (Connection.preauth_hash c) = Ok state /\
      (NegotiatedParameters.dialect n = Smb311 -> has_flag (hdr_flags h) flags.SIGNED = true);
  auth_signature :
    if has_flag (hdr_flags h) flags.SIGNED
    then exists state, signing = Some state /\ (verify state response_message).1 = Ok tt
    else signing_required = false
}.

Lemma establish_runs mechanism h r sid response (w : world) :
  decode_header response = Ok h -> status h = Status STATUS_SUCCESS ->
  SessionSetupResponse.decode_message response = Ok r -> sid <> 0 ->
  runs (establish mechanism h r sid response) w (fun e w' =>
    match e with
    | Ok (NextRound _ _) => False
    | Ok (Established sid' fl key signing required) =>
        fst w' = fst w /\ sid' = sid /\
        exists n, authenticated mechanism (snd w) (fst w) response sid fl key signing required n h
    | _ => True
    end).
Proof.
  intros Hh Hst Hr Hsid. unfold establish. apply runs_bind, runs_zoom. unfold runs at 1.
  destruct (take_session_key (snd w)) as [k p'] eqn:Hkey. set (w' := (w.1, p')).
  apply runs_bind, runs_zoom. unfold runs at 1, sget at 1. cbn beta iota.
  change (w'.1, snd w') with w'. cbv zeta.
  run_bind n Hn. apply ok_or_ok in Hn.
  set (fl := SessionSetupResponse.session_flags r).
  set (keyless := has_flag fl session_flags.IS_GUEST || _).
  set (required := _ && negb keyless && _).
  destruct (negb keyless && _) eqn:Hk; [by run_step|].
  apply runs_bind, runs_zoom. unfold runs at 1, sget at 1. cbn beta iota.
  change (w'.1, snd w') with w'. change (w'.1) with (w.1) in *.
  run_bind signing Hsigning; [destruct (if keyless then _ else _); [|done];
    destruct (negb keyless); [|done]; by apply returns_bind; [auto with returns|]|].
  run_bind u Hsig.
  { destruct (has_flag (hdr_flags h) _).
    - destruct signing; [|done]. apply verify_returns.
    - clearbody required. 
      by destruct (bool_decide (NegotiatedParameters.dialect n = Smb311)), (negb keyless), required. }
  unfold runs, sret. split; [done|]. split; [done|]. exists n.
  constructor; [done|by exists r|done|done| |]; fold keyless; cbv zeta.
  - split; [done|]. destruct keyless; cbn [negb andb] in *.
    + by apply Ok_inj in Hsigning.
    + destruct k as [k|]; [|done]. apply obind_ok in Hsigning as (state & Hd & Hs).
      apply Ok_inj in Hs as <-. exists k, state. split; [done|]. split; [by rewrite Hkey|].
      split; [done|]. split; [done|].
      intros H311. rewrite H311 in Hsig. by destruct (has_flag (hdr_flags h) _).
  - destruct (has_flag (hdr_flags h) _).
    + apply obind_ok in Hsig as (state & Hs%ok_or_ok & Hv). exists state. by destruct u.
    + clearbody required.
      by destruct (bool_decide (NegotiatedParameters.dialect n = Smb311)), (negb keyless), required.
Qed.

(** What one round leaves behind. *)
Definition round_spec (mechanism : AuthMechanism) (config : SessionSetupConfig.t) (step : AuthStep.t)
    (sid : Z) (w : world) (e : client round_end) (w' : world) : Prop :=
  match e with
  | Ok (NextRound step' sid') =>
      exists request response r,
        follows (fst w) [(request, response)] [request; response] (fst w') /\
        took_round config step sid request response STATUS_MORE_PROCESSING_REQUIRED r sid' /\ sid' <> 0 /\
        next_token (SessionSetupResponse.security_blob r) (snd w) = (Ok step', snd w')
  | Ok (Established sid' fl key signing required) =>
      exists request response provider n h,
        follows (fst w) [(request, response)] [request] (fst w') /\
        concluded config step (snd w) sid request response provider sid' /\
        authenticated mechanism provider (fst w') response sid' fl key signing required n h
  | _ => True
  end.

Lemma pair_first {A B} (x : A * B) a : x.1 = a -> x = (a, x.2).
Proof. by destruct x; intros <-. Qed.

Lemma final_state_runs step_state blob (w : world) (Q : client AuthState -> world -> Prop) :
  (forall e p', Q (Err e) (fst w, p')) ->
  (forall st p', blob = [] /\ step_state = st /\ p' = snd w \/
     blob <> [] /\ next_token blob (snd w) = (Ok (AuthStep.mk [] st), p') -> Q (Ok st) (fst w, p')) ->
  runs (final_state step_state blob) w Q.
Proof.
  intros Herr Hok. unfold final_state. destruct (is_empty blob) eqn:Hb.
  - unfold runs, sret. apply is_empty_true in Hb. destruct w as [c p]. apply Hok. by left.
  - apply runs_bind, runs_zoom, provide_runs; [apply next_token_returns| |intros; apply Herr].
    intros [token st] Hnext. cbn [AuthStep.token AuthStep.state].
    destruct (is_empty token) eqn:Ht; cbn [negb]; unfold runs, slift, sret; [|apply Herr].
    apply Hok. right. split; [by intros ->|]. apply is_empty_true in Ht as ->.
    by apply pair_first.
Qed.

Lemma returns_validate_session_id current received :
  returns (validate_session_id current received).
Proof. unfold validate_session_id. by destruct (_ && _). Qed.

Lemma validate_session_id_ok current received u :
  validate_session_id current received = Ok u ->
  current <> 0 -> received = current.
Proof.
  unfold validate_session_id. intros Hv ?. accept Hv. bool_cases; done.
Qed.

Lemma round_runs mechanism config step sid (w : world) :
  Connection.wf (fst w) ->
  runs (session_round mechanism config step sid) w (round_spec mechanism config step sid w).
Proof.
  intros Hwf. unfold session_round. cbv zeta. apply runs_bind, runs_zoom.
  eapply runs_mono; [by apply exchange_runs|]. intros [[id resp]|e| |] c1 Hex; try exact I.
  destruct Hex as (req & Hcarries & Hf1). run_bind h Hh. apply from_wire_ok in Hh.
  pose proof (decode_header_inv _ _ Hh) as (_ & Hhwf & _).
  apply runs_bind, runs_zoom. cbn [fst snd].
  apply Connection.grant_runs; [apply Hf1|apply Hhwf|done|].
  intros s s' _ Hwf2 _. set (c2 := Connection.set_credits c1 (Some s')) in *.
  assert (follows (fst w) [(req, resp)] [req] c2) as Hf2 by (by apply follows_credits).
  clear Hf1. run_step; [by run_step|]. run_step; [by run_step|].
  run_bind st Hst; [by destruct (status h)|].
  assert (status h = Status st) as Hst' by (destruct (status h); [done|by apply Ok_inj in Hst as ->]).
  run_step; [by run_step|].
  run_bind r Hr; [apply returns_from_wire, SessionSetupResponse.session_setup_response_returns_decode_message|].
  apply from_wire_ok in Hr. set (received := Header.session_id _).
  run_bind u Hv; [apply returns_validate_session_id|].
  set (sid' := if negb (received =? 0) then received else sid).
  assert (sid' = (if received =? 0 then sid else received)) as Hassigned
    by (subst sid'; by destruct (received =? 0)).
  assert (sid <> 0 -> sid' = sid) as Hsid.
  { intros Hne. subst sid'. pose proof (validate_session_id_ok _ _ _ Hv Hne) as Hrec.
    rewrite Hrec. by destruct (negb (sid =? 0)). }
  assert (took_round config step sid req resp st r sid') as Htook.
  { split; [|done..]. bool_facts. by exists id, h. }
  destruct (st =? STATUS_MORE_PROCESSING_REQUIRED) eqn:Hmore.
  - apply runs_bind, runs_zoom. cbn [fst snd]. eapply update_preauth_runs; [exact Hf2|].
    intros c3 Hf3. run_step; [by run_step|]. apply runs_bind, runs_zoom, provide_runs;
      [apply next_token_returns| |done]. intros step' Hnext. cbn [fst snd] in *.
    unfold runs, sret. exists req, resp, r. split; [done|]. bool_facts. subst st.
    split; [by apply Htook|]. split; [done|]. exact (pair_first _ _ Hnext).
  - apply runs_bind, final_state_runs; [done|]. intros fin p' Hfin. cbn [fst snd] in *.
    run_step; [by run_step|]. run_step; [by run_step|]. bool_facts. subst fin.
    assert (st = STATUS_SUCCESS) as -> by (bool_cases; done).
    eapply runs_mono; [by eapply establish_runs|].
    intros [[step' s0|s0 fl key sg rq]|e| |] w'; try done.
    intros (Hw' & -> & n & Hauth). cbn [fst snd] in *. exists req, resp, p', n, h.
    rewrite Hw'. split; [done|]. split; [|done]. exists r. split; [by apply Htook|exact Hfin].
Qed.

Lemma loop_runs rounds mechanism config step sid (w : world) :
  Connection.wf (fst w) ->
  runs (session_loop rounds mechanism config step sid) w (fun r _ =>
    match r with
    | Ok s => exists rs step' p' sid' last response provider n h,
        (length rs < rounds)%nat /\
        conversation config step (snd w) sid rs step' p' sid' /\
        concluded config step' p' sid' last response provider (SessionConnection.session_id s) /\
        follows (fst w) (rs ++ [(last, response)]) ((rs ≫= fun '(a, b) => [a; b]) ++ [last])
          (SessionConnection.connection s) /\
        SessionConnection.mechanism s = mechanism /\
        authenticated mechanism provider (SessionConnection.connection s) response
          (SessionConnection.session_id s) (SessionConnection.session_flags s)
          (SessionConnection.session_key s) (SessionConnection.signing s)
          (SessionConnection.signing_required s) n h
    | _ => True
    end).
Proof.
  revert step sid w. induction rounds as [|rounds IH]; intros step sid w Hwf; cbn [session_loop];
    [by run_step|].
  apply runs_bind. eapply runs_mono; [by apply round_runs|].
  intros [[step' sid'|sid' fl key sg rq]|e| |] w'; try done.
  - intros (req & resp & r & Hf & Htook & Hsid & Hnext). eapply runs_mono; [apply IH, Hf|].
    intros [s|e| |] _; try done.
    intros (rs & step2 & p2 & sid2 & last & response & provider & n & h & Hl & Hconv & Hcon & Hf2 & Hm & Ha).
    exists ((req, resp) :: rs), step2, p2, sid2, last, response, provider, n, h. split; [cbn; lia|].
    split; [by eapply conversation_more|]. split; [done|].
    split; [by eapply (follows_trans _ [_] [_; _])|done].
  - intros (req & resp & provider & n & h & Hf & Hcon & Ha). unfold runs, sget.
    exists [], step, (snd w), sid, req, resp, provider, n, h. split; [cbn; lia|].
    split; [constructor|]. by split.
Qed.

End session_laws.

(** ** Properties *)

(** What an authenticated session came from: the provider's tokens were carried to
    the server and its answers back, at most [max_rounds] requests in all, hashed
    in order but for the final response, at which the provider was complete. *)
Definition set_up {T P} `{TransportSafe T} `{CryptoLaws} `{AuthProviderSafe P}
    (config : SessionSetupConfig.t) (w : Connection.t T * P) (s : SessionConnection.t T) : Prop :=
  exists first p0 rs step p1 sid last response provider n h,
    initial_token (snd w) = (Ok first, p0) /\
    conversation config first p0 0 rs step p1 sid /\
    concluded config step p1 sid last response provider (SessionConnection.session_id s) /\
    Z.of_nat (length rs) < SessionSetupConfig.max_rounds config /\
    follows (fst w) (rs ++ [(last, response)]) ((rs ≫= fun '(a, b) => [a; b]) ++ [last])
      (SessionConnection.connection s) /\
    Connection.negotiated (fst w) = Some n /\
    SessionConnection.mechanism s = mechanism (snd w) /\
    authenticated (mechanism (snd w)) provider (SessionConnection.connection s) response
      (SessionConnection.session_id s) (SessionConnection.session_flags s)
      (SessionConnection.session_key s) (SessionConnection.signing s)
      (SessionConnection.signing_required s) n h.

Lemma set_up_wf {T P} `{TransportSafe T} `{CryptoLaws} `{AuthProviderSafe P}
    (config : SessionSetupConfig.t) (w : Connection.t T * P) (s : SessionConnection.t T) :
  set_up config w s -> Connection.wf (SessionConnection.connection s).
Proof.
  intros (? & ? & ? & ? & ? & ? & ? & ? & ? & ? & ? & _ & _ & _ & _ & Hf & _). by apply follows_wf in Hf.
Qed.

Lemma session_setup_runs {T P} `{TransportSafe T} `{CryptoLaws} `{AuthProviderSafe P}
    (config : SessionSetupConfig.t) (w : Connection.t T * P) (Hw : Connection.wf (fst w)) :
  runs (session_setup config) w (fun r _ =>
    match r with Ok s => set_up config w s | _ => True end).
Proof.
  unfold session_setup. apply runs_bind, runs_zoom. unfold runs at 1, sget at 1. cbn beta iota.
  run_step; [by run_step|]. run_step; [by run_step|].
  apply runs_bind, runs_zoom. unfold runs at 1, sget at 1. cbn beta iota.
  apply runs_bind, runs_zoom, provide_runs; [apply initial_token_returns| |done].
  intros first Hfirst. eapply runs_mono; [by apply loop_runs|]. cbn [fst snd] in *.
  intros [s|e| |] _; try done.
  intros (rs & step & p1 & sid & last & resp & provider & n & h & Hl & Hconv & Hcon & Hf & Hm & Ha).
  exists first, (initial_token (snd w)).2, rs, step, p1, sid, last, resp, provider, n, h.
  split; [by apply pair_first|]. split; [done|]. split; [done|].
  split; [lia|]. split; [done|]. split; [|done].
  destruct Hf as [_ Hn _ _], Ha as [_ _ _ Hn' _ _]. cbn in *. congruence.
Qed.

(** C31: an established session rests on an exchange that checks out. Whatever
    the server and the provider do, SESSION_SETUP does not panic, and when it
    yields a session: the connection was negotiated; the provider's tokens went
    out one per request, from its initial one on, and each of its later tokens
    answers the security blob of a response that asked for more under the
    request's MessageId; at most [max_rounds] requests were sent, each answered by
    one response, all the responses before the last one and all the requests are
    hashed in order (for SMB 3.1.1) and the last response is not; the last
    response says success, and at it the provider was complete; the SessionId is
    the one the server assigned, kept from then on, and not zero; a guest or
    anonymous session has no key, no signing state and signs nothing; every other
    session has the key this provider gives in the state the exchange left it in,
    and the signing state derived from that key and the hash, and on SMB 3.1.1 its
    final response was signed; a final response that is signed was verified, and
    one that is not means that signing is not required. *)
Theorem session_setup_sound {T P} `{TransportSafe T} `{CryptoLaws} `{AuthProviderSafe P}
    (config : SessionSetupConfig.t) (w : Connection.t T * P) (Hw : Connection.wf (fst w)) :
  runs (session_setup config) w (fun r _ =>
    match r with
    | Ok s => exists first p0 rs step p1 sid last response provider n h,
        initial_token (snd w) = (Ok first, p0) /\
        conversation config first p0 0 rs step p1 sid /\
        concluded config step p1 sid last response provider (SessionConnection.session_id s) /\
        Z.of_nat (length rs) < SessionSetupConfig.max_rounds config /\
        follows (fst w) (rs ++ [(last, response)]) ((rs ≫= fun '(a, b) => [a; b]) ++ [last])
          (SessionConnection.connection s) /\
        Connection.negotiated (fst w) = Some n /\
        SessionConnection.mechanism s = mechanism (snd w) /\
        authenticated (mechanism (snd w)) provider (SessionConnection.connection s) response
          (SessionConnection.session_id s) (SessionConnection.session_flags s)
          (SessionConnection.session_key s) (SessionConnection.signing s)
          (SessionConnection.signing_required s) n h
    | _ => True
    end).
Proof. by apply session_setup_runs. Qed.

(** A provider that replays tokens and then gives a key. *)
Definition Replay : Type := list bytes * bytes.
Definition replay_next (p : Replay) : outcome AuthError.t AuthStep.t * Replay :=
  match fst p with
  | [] => (Err (AuthError.InvalidState "no more tokens"), p)
  | [token] => (Ok (AuthStep.mk token Complete), ([], snd p))
  | token :: rest => (Ok (AuthStep.mk token Continue), (rest, snd p))
  end.
#[export] Instance Replay_provider : AuthProvider Replay := {|
  mechanism _ := NtlmV2;
  initial_token := replay_next;
  next_token _ := replay_next;
  take_session_key p := (Some (snd p), p)
|}.
#[export] Instance Replay_safe : AuthProviderSafe Replay.
Proof. split; intros; cbn; unfold replay_next; by destruct (fst p) as [|? [|]]. Qed.

(** A connection negotiated at SMB 2.1 with required signing. *)
Definition negotiated_connection (responses : list bytes) : Connection.t TcpTransport.t :=
  Connection.mk
    (TcpTransport.mk (mkTcpStream (ReadData <$> map frame_of responses) (replicate 12 WriteDone) [])
       DIRECT_TCP_MAX_PAYLOAD [])
    1
    (Some (NegotiatedParameters.mk Smb210 3 capabilities.LARGE_MTU (replicate 16 x05) 65536 65536
             65536 8 HmacSha256 true))
    None (Some (CreditManager.mk 8 128)).

Definition setup_response (id st flag_bits : Z) (blob : bytes) : bytes :=
  header_bytes (mkSmb2Header 1 (Status st) Command.SessionSetup 4 flag_bits 0 id
                  (Sync 0 0) 77 (replicate 16 x00))
  ++ le_bytes 2 9 ++ le_bytes 2 0 ++ le_bytes 2 72 ++ le_bytes 2 (len blob) ++ blob.

Definition replay_key : bytes := replicate 16 x0b.

(** The server answers with a challenge, then with a signed success. *)
Definition setup_responses : list bytes :=
  [ setup_response 1 STATUS_MORE_PROCESSING_REQUIRED flags.SERVER_TO_REDIR [x43];
    (@sign toy_crypto (SigningState.mk HmacSha256 replay_key)
       (setup_response 2 STATUS_SUCCESS flags.SERVER_TO_REDIR [])).2 ].

Lemma negotiated_connection_wf responses : Connection.wf (negotiated_connection responses).
Proof. split; [uint_solve|done|by intros s [= <-]|by intros p [= <-]]. Qed.

Lemma session_setup_sound_witness :
  exists (s : SessionConnection.t TcpTransport.t) (rs : list (bytes * bytes)),
    (SessionConnection.session_id s, SessionConnection.session_key s) = (77, Some replay_key) /\
    Z.of_nat (length rs) < 8.
Proof.
  destruct (runs_ended _ _ _ (fun s _ => bool_decide
      ((SessionConnection.session_id s, SessionConnection.session_key s) = (77, Some replay_key)))
      (@session_setup_sound _ _ _ _ toy_crypto toy_laws _ _ SessionSetupConfig.default
         (negotiated_connection setup_responses, ([[x01]; [x02]], replay_key))
         (negotiated_connection_wf _)))
    as (s & _ & (_ & _ & rs & _ & _ & _ & _ & _ & _ & _ & _ & _ & _ & _ & Hl & _)
        & Hs%bool_decide_eq_true); [vm_compute; reflexivity|].
  exists s, rs. split; [exact Hs|exact Hl].
Defined.
