(* ===== verification/Exchange.v ===== *)
(** * Requests and responses of a session

    What every operation of a [SessionConnection] does around its own request
    and response ([crates/smb-client/src/] [tree.rs], [file.rs], [close.rs],
    [flush.rs], [write.rs], [read.rs], [query.rs], [set_info.rs]): reserve
    credits, allocate a MessageId, encode, sign, send; then receive, check the
    header, take the credits and check the signature. The source repeats these
    lines in each operation; the operations here share them, with the messages
    of each. *)
From S2P Require Import Prelude WireError Frame Header SessionMessages Negotiate Client.
From S2P Require Import Credits MessageIds AsyncResponse Transport Signing Connection Auth.
From S2P Require Import Session.

Section exchange.
Context {T : Type} `{Transport T} `{Crypto}.
Abbreviation session := (SessionConnection.t T).

Definition set_connection (s : session) (c : Connection.t T) : session :=
  SessionConnection.mk c (SessionConnection.session_id s) (SessionConnection.session_flags s)
    (SessionConnection.mechanism s) (SessionConnection.session_key s)
    (SessionConnection.signing s) (SessionConnection.signing_required s).
Definition connected {A} (m : st (Connection.t T) A) : st session A :=
  zoom SessionConnection.connection set_connection m.

(** The guard every operation starts with. *)
Definition ensure_session (s : session) : client unit :=
  if has_flag (SessionConnection.session_flags s) session_flags.ENCRYPT_DATA
  then Err (Protocol "encrypted SMB sessions are not implemented yet") else Ok tt.

(** [if required { self.signing.as_ref().ok_or(...)?.sign(&mut message)?; }]. *)
Definition sign_request (s : session) (required : bool) (no_key : string) (message : bytes) :
    client bytes :=
  if required then
    let! signing := ok_or (SessionConnection.signing s) (Protocol no_key) in
    match sign signing message with
    | (Ok _, message) => Ok message
    | (Err e, _) => Err e
    | (Panic, _) => Panic
    | (OutOfFuel, _) => OutOfFuel
    end
  else Ok message.

(** The check of a response's signature: one that is present must verify, one
    that is missing must not be required. *)
Definition verify_response (s : session) (header : Smb2Header) (required : bool)
    (no_key missing : string) (message : bytes) : client unit :=
  if has_flag (hdr_flags header) flags.SIGNED then
    let! signing := ok_or (SessionConnection.signing s) (Protocol no_key) in
    (verify signing message).1
  else if required then Err (Protocol missing) else Ok tt.

(** Everything up to the send; [encode] is given the MessageId and the credits
    to ask for. *)
Definition send_request (credit_charge credit_request : Z) (encode : Z -> Z -> client bytes)
    (required : bool) (no_key : string) : st session Z :=
  do! credit_request := connected (Connection.reserve_credits credit_charge credit_request) in
  do! message_id := connected (Connection.allocate credit_charge) in
  do! request_message := slift (encode message_id credit_request) in
  do! s := sget id in
  do! request_message := slift (sign_request s required no_key request_message) in
  do! _ := connected (Connection.send request_message) in
  sret message_id.

(** The header checks of a response that must be synchronous; [tree] is [None]
    for TREE_CONNECT, which has no tree yet. *)
Definition check_header (s : session) (cmd : Command.t) (op : string) (message : Z)
    (tree : option (Z * string)) (header : Smb2Header) : client unit :=
  if negb (bool_decide (command header = cmd))
  then Err (Protocol (op ++ " response command does not match request")) else
  if negb (message_id header =? message)
  then Err (Protocol (op ++ " response MessageId does not match request")) else
  if negb (session_id header =? SessionConnection.session_id s)
  then Err (Protocol (op ++ " response SessionId does not match session")) else
  match tree with
  | None => Ok tt
  | Some (tree_id, mismatch) =>
      match hdr_id header with
      | Sync _ received =>
          if received =? tree_id then Ok tt else Err (Protocol (op ++ mismatch))
      | Async _ => Err (Protocol (op ++ " response unexpectedly used async header form"))
      end
  end.

(** Receives the one response of a synchronous operation: header checks, then
    the credits. *)
Definition receive_response (cmd : Command.t) (op : string) (message : Z)
    (tree : option (Z * string)) : st session (bytes * Smb2Header) :=
  do! response_message := connected Connection.receive in
  do! header := slift (from_wire (decode_header response_message)) in
  do! s := sget id in
  do! _ := slift (check_header s cmd op message tree header) in
  do! _ := connected (Connection.grant_credits (credits header)) in
  sret (response_message, header).

(** The loop that waits for the final response of an operation that may go
    asynchronous. A server may send any number of interim responses, so the
    loop may not end; [patience] is how many responses it is followed for. *)
Fixpoint receive_final (patience : nat) (cmd : Command.t) (op : string) (message tree : Z)
    (state : AsyncResponseState.t) : st session (bytes * Smb2Header) :=
  match patience with
  | O => slift OutOfFuel
  | S patience =>
      do! response_message := connected Connection.receive in
      do! header := slift (from_wire (decode_header response_message)) in
      do! s := sget id in
      let '(phase, state) :=
        AsyncResponseState.validate cmd tree (SessionConnection.session_id s) message header state in
      do! phase := slift phase in
      do! _ := connected (Connection.grant_credits (credits header)) in
      do! _ := slift (verify_response s header
                        (requires_signature phase (SessionConnection.signing_required s))
                        ("server signed " ++ op ++ " without an available signing key")
                        ("server omitted a required " ++ op ++ " signature") response_message) in
      if bool_decide (phase = InterimPending)
      then receive_final patience cmd op message tree state
      else sret (response_message, header)
  end.

End exchange.

(** ** Traffic *)

(** What passed through the transport, with the outcome of each call. *)
Inductive event : Type :=
  | ESend (message : bytes) (result : client unit)
  | EReceive (result : client bytes).

Definition is_send (e : event) : bool := match e with ESend _ _ => true | _ => false end.
Definition sends (es : list event) : list event := List.filter is_send es.

Lemma sends_app es1 es2 : sends (es1 ++ es2) = sends es1 ++ sends es2.
Proof. apply List.filter_app. Qed.

Section exchange_laws.
Context {T : Type} `{TransportSafe T} `{CryptoLaws}.
Abbreviation session := (SessionConnection.t T).

Inductive trace : T -> list event -> T -> Prop :=
  | trace_nil t : trace t [] t
  | trace_send t m r t1 es t2 :
      send_message m t = (r, t1) -> trace t1 es t2 -> trace t (ESend m r :: es) t2
  | trace_receive t r t1 es t2 :
      receive_message t = (r, t1) -> trace t1 es t2 -> trace t (EReceive r :: es) t2.

Lemma trace_app t1 es1 t2 es2 t3 : trace t1 es1 t2 -> trace t2 es2 t3 -> trace t1 (es1 ++ es2) t3.
Proof. induction 1; cbn; [done|..]; intros; econstructor; eauto. Qed.

(** [s'] follows [s] by the traffic [es]: only the connection changed, it is
    well formed, its parameters are the same and its MessageIds only grew. *)
Record advances (s : session) (es : list event) (s' : session) : Prop := {
  advances_wf : Connection.wf (SessionConnection.connection s');
  advances_trace : trace (Connection.transport (SessionConnection.connection s)) es
                     (Connection.transport (SessionConnection.connection s'));
  advances_session : s' = set_connection s (SessionConnection.connection s');
  advances_negotiated : Connection.negotiated (SessionConnection.connection s')
                        = Connection.negotiated (SessionConnection.connection s);
  advances_ids : Connection.message_ids (SessionConnection.connection s)
                 <= Connection.message_ids (SessionConnection.connection s')
}.

Definition session_wf (s : session) : Prop := Connection.wf (SessionConnection.connection s).

Lemma advances_refl s : session_wf s -> advances s [] s.
Proof. intros. split; [done|constructor|by destruct s|done|done]. Qed.

Lemma advances_app s1 es1 s2 es2 s3 :
  advances s1 es1 s2 -> advances s2 es2 s3 -> advances s1 (es1 ++ es2) s3.
Proof.
  intros [_ Ht1 Hs1 Hn1 Hi1] [Hw Ht2 Hs2 Hn2 Hi2].
  split; [done|by eapply trace_app| |congruence|lia]. rewrite Hs2, Hs1. done.
Qed.

(** The session's own fields survive. *)
Lemma advances_fields s es s' :
  advances s es s' ->
  SessionConnection.session_id s' = SessionConnection.session_id s /\
  SessionConnection.session_flags s' = SessionConnection.session_flags s /\
  SessionConnection.mechanism s' = SessionConnection.mechanism s /\
  SessionConnection.signing s' = SessionConnection.signing s /\
  SessionConnection.signing_required s' = SessionConnection.signing_required s.
Proof. by intros [_ _ -> _ _]. Qed.

(** A change of the connection that keeps its transport and parameters. *)
Lemma advances_connection s es s' c :
  advances s es s' -> Connection.wf c ->
  Connection.transport c = Connection.transport (SessionConnection.connection s') ->
  Connection.negotiated c = Connection.negotiated (SessionConnection.connection s') ->
  Connection.message_ids (SessionConnection.connection s') <= Connection.message_ids c ->
  advances s es (set_connection s' c).
Proof.
  intros [_ Ht -> Hn Hi] Hw Hct Hcn Hci.
  split; cbn in *; [done|by rewrite Hct|done|congruence|lia].
Qed.

Lemma set_connection_id (s : session) : set_connection s (SessionConnection.connection s) = s.
Proof. by destruct s. Qed.

Section steps.
Context (s0 : session).

(** Each part of an exchange, from a state that follows [s0] by [es]. *)
Lemma reserve_step charge minimum es s (Q : client Z -> session -> Prop) :
  advances s0 es s -> 0 <= charge ->
  (forall hint s', advances s0 es s' ->
     Connection.message_ids (SessionConnection.connection s')
     = Connection.message_ids (SessionConnection.connection s) -> Q (Ok hint) s') ->
  (forall e, Q (Err e) s) ->
  runs (connected (Connection.reserve_credits charge minimum)) s Q.
Proof.
  intros Ha ? Hok Herr. apply runs_zoom, Connection.reserve_runs; [apply Ha|done| |].
  - intros e. rewrite set_connection_id. apply Herr.
  - intros w w' _ Hwf _. apply Hok; [by apply advances_connection|done].
Qed.

Lemma grant_step response es s (Q : client unit -> session -> Prop) :
  advances s0 es s -> u16 response ->
  (forall s', advances s0 es s' -> Q (Ok tt) s') ->
  (forall e, Q (Err e) s) ->
  runs (connected (Connection.grant_credits response)) s Q.
Proof.
  intros Ha ? Hok Herr. apply runs_zoom, Connection.grant_runs; [apply Ha|done| |].
  - intros e. rewrite set_connection_id. apply Herr.
  - intros w w' _ Hwf _. by apply Hok, advances_connection.
Qed.

Lemma allocate_step charge es s (Q : client Z -> session -> Prop) :
  advances s0 es s -> 0 <= charge ->
  (forall s', advances s0 es s' ->
     Connection.message_ids (SessionConnection.connection s)
     < Connection.message_ids (SessionConnection.connection s') ->
     Q (Ok (Connection.message_ids (SessionConnection.connection s))) s') ->
  Q (Err exhausted) s ->
  runs (connected (Connection.allocate charge)) s Q.
Proof.
  intros Ha ? Hok Herr. apply runs_zoom, Connection.allocate_runs; [apply Ha|done| |].
  - intros c Hwf Hid Hc. apply Hok; [|cbn; lia].
    apply advances_connection; [done|done|by rewrite Hc|by rewrite Hc|cbn; lia].
  - by rewrite set_connection_id.
Qed.

Lemma send_step m es s (Q : client unit -> session -> Prop) :
  advances s0 es s ->
  (forall r s', advances s0 (es ++ [ESend m r]) s' ->
     Connection.message_ids (SessionConnection.connection s')
     = Connection.message_ids (SessionConnection.connection s) -> Q r s') ->
  runs (connected (Connection.send m)) s Q.
Proof.
  intros [Hw Ht Hs Hn Hi] HQ. apply runs_zoom, Connection.send_runs. intros r x Hx.
  apply HQ; [|done].
  split; cbn; [by apply Connection.wf_transport| |by rewrite Hs|done|done].
  eapply trace_app; [exact Ht|]. by econstructor; [|constructor].
Qed.

Lemma receive_step es s (Q : client bytes -> session -> Prop) :
  advances s0 es s ->
  (forall r s', advances s0 (es ++ [EReceive r]) s' -> Q r s') ->
  runs (connected Connection.receive) s Q.
Proof.
  intros [Hw Ht Hs Hn Hi] HQ. apply runs_zoom, Connection.receive_runs. intros r x Hx. apply HQ.
  split; cbn; [by apply Connection.wf_transport| |by rewrite Hs|done|done].
  eapply trace_app; [exact Ht|]. by econstructor; [|constructor].
Qed.
End steps.

Lemma returns_sign_request (s : session) required no_key m : returns (sign_request s required no_key m).
Proof.
  unfold sign_request. destruct required; [|done].
  destruct (SessionConnection.signing s) as [sg|]; [|done]. cbn [ok_or obind].
  pose proof (sign_returns sg m). by destruct (sign sg m) as [[] ?].
Qed.

Lemma returns_verify_response (s : session) h required no_key missing m :
  returns (verify_response s h required no_key missing m).
Proof.
  unfold verify_response. destruct (has_flag _ _); [|by destruct required].
  destruct (SessionConnection.signing s) as [sg|]; [|done]. apply verify_returns.
Qed.

Lemma returns_ensure_session (s : session) : returns (ensure_session s).
Proof. unfold ensure_session. by destruct (has_flag _ _). Qed.
#[local] Hint Resolve returns_sign_request returns_verify_response returns_ensure_session : returns.

(** What is known of a message that was sent: it is the request the operation
    encodes, for a fresh MessageId, signed when the session requires it. *)
Definition request_sent (s : session) (encode : Z -> Z -> client bytes) (required : bool)
    (id : Z) (m : bytes) : Prop :=
  exists hint plain no_key, encode id hint = Ok plain /\
    sign_request s required no_key plain = Ok m.

Lemma send_request_runs charge minimum encode required no_key s0 es s
    (Q : client Z -> session -> Prop) :
  advances s0 es s -> 0 <= charge -> (forall id hint, returns (encode id hint)) ->
  (forall id m s', advances s0 (es ++ [ESend m (Ok tt)]) s' ->
     request_sent s0 encode required id m ->
     Connection.message_ids (SessionConnection.connection s) <= id
     < Connection.message_ids (SessionConnection.connection s') -> Q (Ok id) s') ->
  (forall e es' s', advances s0 (es ++ es') s' -> (length (sends es') <= 1)%nat -> Q (Err e) s') ->
  runs (send_request charge minimum encode required no_key) s Q.
Proof.
  intros Ha Hc Henc Hok Herr. unfold send_request.
  assert (forall e s', advances s0 es s' -> Q (Err e) s') as Herr0.
  { intros e s' Ha'. apply (Herr e []); [by rewrite app_nil_r|cbn; lia]. }
  apply runs_bind. eapply reserve_step; [exact Ha|done| |by intros e; apply Herr0].
  intros hint s1 Ha1 Hid1. apply runs_bind.
  eapply allocate_step; [exact Ha1|done| |by apply Herr0]. intros s2 Ha2 Hid2.
  set (mid := Connection.message_ids _).
  apply runs_bind_lift; [apply Henc|by intros; apply Herr0|intros plain Hplain].
  run_step. cbn [id].
  apply runs_bind_lift; [apply returns_sign_request|by intros; apply Herr0|intros m Hm].
  apply runs_bind. eapply send_step; [exact Ha2|]. intros [[]|e| |] s3 Ha3 Hid3; try exact I.
  - unfold runs, sret. eapply Hok; [exact Ha3| |subst mid; rewrite Hid1, Hid3 in *; lia].
    exists hint, plain, no_key. split; [done|].
    rewrite <- Hm. unfold sign_request. by rewrite (advances_session _ _ _ Ha2).
  - by eapply (Herr e [ESend m (Err e)]).
Qed.

(** What is known of a response an operation went on with. *)
Record response_accepted (s : session) (cmd : Command.t) (id : Z) (tree : option Z)
    (m : bytes) (h : Smb2Header) : Prop := {
  accepted_header : decode_header m = Ok h;
  accepted_command : command h = cmd;
  accepted_message : message_id h = id;
  accepted_session : session_id h = SessionConnection.session_id s;
  accepted_tree : forall t, tree = Some t -> exists p, hdr_id h = Sync p t
}.

(** Its signature: verified, or absent where it is not required. *)
Definition signature_accepted (s : session) (required : bool) (m : bytes) (h : Smb2Header) : Prop :=
  if has_flag (hdr_flags h) flags.SIGNED
  then exists sg, SessionConnection.signing s = Some sg /\ (verify sg m).1 = Ok tt
  else required = false.

Lemma verify_response_ok (s : session) h required no_key missing m u :
  verify_response s h required no_key missing m = Ok u -> signature_accepted s required m h.
Proof.
  unfold verify_response, signature_accepted. destruct (has_flag _ _).
  - destruct (SessionConnection.signing s) as [sg|]; [|done]. cbn [ok_or obind].
    destruct u. eauto.
  - by destruct required.
Qed.

Lemma check_header_meets (s : session) cmd op id tree h :
  meets (check_header s cmd op id tree h) (fun _ =>
    command h = cmd /\ message_id h = id /\ session_id h = SessionConnection.session_id s /\
    forall t, fst <$> tree = Some t -> exists p, hdr_id h = Sync p t).
Proof.
  unfold check_header. destruct (negb (bool_decide _)) eqn:Hc; [done|].
  destruct (negb (message_id h =? id)) eqn:Hm; [done|]. destruct (negb (session_id h =? _)) eqn:Hs; [done|].
  bool_facts. destruct tree as [[t mismatch]|].
  - destruct (hdr_id h) as [p t'|a]; [|done]. destruct (Z.eqb_spec t' t) as [->|]; [|done].
    cbn. split; [done|]. split; [done|]. split; [done|]. intros ? [= <-]. by exists p.
  - cbn. split; [done|]. split; [done|]. by split.
Qed.

Lemma receive_response_runs cmd op id tree s0 es s (Q : client (bytes * Smb2Header) -> session -> Prop) :
  advances s0 es s ->
  (forall m h s', advances s0 (es ++ [EReceive (Ok m)]) s' ->
     response_accepted s0 cmd id (fst <$> tree) m h -> Q (Ok (m, h)) s') ->
  (forall e es' s', advances s0 (es ++ es') s' -> sends es' = [] -> Q (Err e) s') ->
  runs (receive_response cmd op id tree) s Q.
Proof.
  intros Ha Hok Herr. unfold receive_response. apply runs_bind.
  eapply receive_step; [exact Ha|]. intros [m|e| |] s1 Ha1; try exact I.
  2:{ by eapply (Herr e [EReceive (Err e)]). }
  assert (forall e, Q (Err e) s1) as Herr1 by (by intros e; eapply (Herr e [EReceive (Ok m)])).
  apply runs_bind_lift; [auto with returns|by intros|intros h Hh%from_wire_ok].
  run_step. cbn [Datatypes.id].
  pose proof (check_header_meets s1 cmd op id tree h) as Hch.
  apply runs_bind_lift; [by eapply meets_returns|by intros|intros u Hu].
  eapply meets_ok in Hch as (? & ? & Hs & ?); [|exact Hu].
  apply runs_bind. eapply grant_step; [exact Ha1| |intros s2 Ha2|done].
  { apply decode_header_inv in Hh as (_ & Hwf & _). apply Hwf. }
  unfold runs, sret. apply (Hok m h); [exact Ha2|]. split; try done.
  rewrite Hs. apply (advances_fields _ _ _ Ha1).
Qed.

(** What is known of the final response of an operation that may have gone
    asynchronous: the responses received are one conforming sequence, and the
    final one passed the signature check. *)
Definition final_accepted (s : session) (cmd : Command.t) (id tree : Z) (known : option Z)
    (ms : list bytes) (m : bytes) (h : Smb2Header) : Prop :=
  exists hs, Forall2 (fun m h => decode_header m = Ok h) (ms ++ [m]) (hs ++ [h]) /\
    conforming cmd tree (SessionConnection.session_id s) id known (hs ++ [h]) /\
    signature_accepted s (SessionConnection.signing_required s) m h.

Definition received (ms : list bytes) : list event := (fun m => EReceive (Ok m)) <$> ms.

Lemma sends_received ms : sends (received ms) = [].
Proof. induction ms; [done|]. by rewrite <- IHms. Qed.

Lemma receive_final_runs patience cmd op id tree s0 :
  forall known es s (Q : client (bytes * Smb2Header) -> session -> Prop),
  advances s0 es s ->
  (forall ms m h s', advances s0 (es ++ received (ms ++ [m])) s' ->
     final_accepted s0 cmd id tree known ms m h -> Q (Ok (m, h)) s') ->
  (forall e es' s', advances s0 (es ++ es') s' -> sends es' = [] -> Q (Err e) s') ->
  runs (receive_final patience cmd op id tree known) s Q.
Proof.
  induction patience as [|patience IH]; intros known es s Q Ha Hok Herr; cbn [receive_final]; [done|].
  apply runs_bind. eapply receive_step; [exact Ha|]. intros [m|e| |] s1 Ha1; try exact I.
  2:{ by eapply (Herr e [EReceive (Err e)]). }
  assert (forall e s', advances s0 (es ++ [EReceive (Ok m)]) s' -> Q (Err e) s') as Herr1
    by (by intros e s' Ha'; eapply (Herr e [EReceive (Ok m)])).
  apply runs_bind_lift; [auto with returns|by intros; eapply Herr1|intros h Hh%from_wire_ok].
  run_step. cbn [Datatypes.id].
  destruct (AsyncResponseState.validate _ _ _ _ _ _) as [phase known'] eqn:Hv.
  pose proof (async_returns_validate cmd tree (SessionConnection.session_id s1) id h known) as Hr.
  rewrite Hv in Hr.
  apply runs_bind_lift; [done|by intros; eapply Herr1|intros ph ->].
  apply runs_bind. eapply grant_step; [exact Ha1| |intros s2 Ha2|by intros; eapply Herr1].
  { apply decode_header_inv in Hh as (_ & Hwf & _). apply Hwf. }
  destruct (advances_fields _ _ _ Ha1) as (Hsid & _ & _ & Hsig & Hreq).
  rewrite Hsid in Hv. apply validate_ok in Hv as Hv'.
  apply runs_bind_lift; [apply returns_verify_response|by intros; eapply Herr1|intros u Hvr].
  apply verify_response_ok in Hvr. destruct ph; cbn [bool_decide].
  - rewrite bool_decide_true by done. eapply IH; [exact Ha2| |].
    + intros ms m' h' s' Ha' (hs & Hdec & Hconf & Hacc). eapply (Hok (m :: ms)).
      * by rewrite <- app_assoc in Ha'.
      * exists (h :: hs). split; [by constructor|]. split; [|done].
        cbn [app]. eapply conforming_cons; [exact Hv|exact Hconf].
    + intros e es' s' Ha' Hs. eapply (Herr e (EReceive (Ok m) :: es')); [|exact Hs].
      by rewrite <- app_assoc in Ha'.
  - rewrite bool_decide_false by done. unfold runs, sret. eapply (Hok []); [exact Ha2|].
    exists []. split; [by repeat constructor|]. split; [by eapply conforming_final|].
    revert Hvr. unfold signature_accepted, requires_signature. rewrite Hsig, Hreq.
    rewrite bool_decide_true, andb_true_r by done. done.
Qed.

(** ** One request, one answer

    What an operation built from [send_request] and one of the two ways to wait
    for its answer promises: at most one message is sent, whatever happens; and
    on success exactly one was sent, exactly the responses read are its answer,
    and [good] holds of them and of the result. *)
Definition one_request {A} (s : session) (encode : Z -> Z -> client bytes) (required : bool)
    (answer : Z -> list bytes -> bytes -> Smb2Header -> Prop)
    (good : bytes -> Smb2Header -> A -> Prop) (r : client A) (s' : session) : Prop :=
  exists es, advances s es s' /\ (length (sends es) <= 1)%nat /\
    match r with
    | Ok a => exists id m ms response h,
        es = ESend m (Ok tt) :: received (ms ++ [response]) /\
        request_sent s encode required id m /\ answer id ms response h /\ good response h a
    | _ => True
    end.

(** The two kinds of answers. *)
Definition sync_answer (s : session) (cmd : Command.t) (tree : option Z)
    (id : Z) (ms : list bytes) (m : bytes) (h : Smb2Header) : Prop :=
  ms = [] /\ response_accepted s cmd id tree m h.
Definition async_answer (s : session) (cmd : Command.t) (tree : Z)
    (id : Z) (ms : list bytes) (m : bytes) (h : Smb2Header) : Prop :=
  final_accepted s cmd id tree None ms m h.

(** Nothing was sent yet. *)
Lemma one_request_err {A} s encode required answer good (e : ClientError) s' :
  advances s [] s' -> one_request (A := A) s encode required answer good (Err e) s'.
Proof. intros Ha. exists []. split; [done|]. split; [cbn; lia|done]. Qed.

Section one_request.
Context {A : Type} (s : session) (encode : Z -> Z -> client bytes) (required : bool).
Context (good : bytes -> Smb2Header -> A -> Prop).
Context (charge minimum : Z) (no_key : string) (op : string) (cmd : Command.t).
Context (Hs : session_wf s) (Hcharge : 0 <= charge) (Hencode : forall id hint, returns (encode id hint)).

Lemma sync_request_runs tree (k : bytes * Smb2Header -> st session A) :
  (forall response h id s', response_accepted s cmd id (fst <$> tree) response h ->
     runs (k (response, h)) s' (fun r s'' =>
       s'' = s' /\ match r with Ok a => good response h a | _ => True end)) ->
  runs (do! id := send_request charge minimum encode required no_key in
        do! p := receive_response cmd op id tree in k p) s
    (one_request s encode required (sync_answer s cmd (fst <$> tree)) good).
Proof.
  intros Hk. pose proof (advances_refl s Hs) as Ha.
  apply runs_bind. eapply send_request_runs; [exact Ha|done|done| |].
  2:{ intros e es s' Ha' Hl. by exists es. }
  intros id m s1 Ha1 Hreq _. apply runs_bind. eapply receive_response_runs; [exact Ha1| |].
  2:{ intros e es s' Ha' Hno. exists ([ESend m (Ok tt)] ++ es). split; [done|].
      by rewrite sends_app, Hno. }
  intros response h s2 Ha2 Hacc. eapply runs_mono; [by eapply Hk|].
  intros r s3 [-> Hr]. eexists. split; [exact Ha2|]. split; [cbn; lia|].
  destruct r as [a| | |]; [|done..]. by exists id, m, [], response, h.
Qed.

Lemma async_request_runs patience tree (k : bytes * Smb2Header -> st session A) :
  (forall response h s', (exists id ms, final_accepted s cmd id tree None ms response h) ->
     runs (k (response, h)) s' (fun r s'' =>
       s'' = s' /\ match r with Ok a => good response h a | _ => True end)) ->
  runs (do! id := send_request charge minimum encode required no_key in
        do! p := receive_final patience cmd op id tree None in k p) s
    (one_request s encode required (async_answer s cmd tree) good).
Proof.
  intros Hk. pose proof (advances_refl s Hs) as Ha.
  apply runs_bind. eapply send_request_runs; [exact Ha|done|done| |].
  2:{ intros e es s' Ha' Hl. by exists es. }
  intros id m s1 Ha1 Hreq _. apply runs_bind. eapply receive_final_runs; [exact Ha1| |].
  2:{ intros e es s' Ha' Hno. exists ([ESend m (Ok tt)] ++ es). split; [done|].
      by rewrite sends_app, Hno. }
  intros ms response h s2 Ha2 Hacc. eapply runs_mono; [eapply Hk; eauto|].
  intros r s3 [-> Hr]. eexists. split; [exact Ha2|].
  split; [rewrite sends_app, sends_received; cbn; lia|].
  destruct r as [a| | |]; [|done..]. by exists id, m, ms, response, h.
Qed.
End one_request.

(** What the parts of a longer operation send. *)
Lemma one_request_traffic {A} (s : session) encode required answer good (r : client A) s' :
  one_request s encode required answer good r s' ->
  exists es, advances s es s' /\ (length (sends es) <= 1)%nat /\
             (is_ok r = true -> length (sends es) = 1%nat).
Proof.
  intros (es & Ha & Hl & Hr). exists es. split; [done|]. split; [done|]. destruct r as [a| | |]; [|done..].
  destruct Hr as (id & m & ms & response & h & -> & _). cbn. by rewrite sends_received.
Qed.

End exchange_laws.

(** ** A session to run the model on *)

(** SMB 2.1 with required signing; the server signs what it sends. *)
Definition sample_signing : SigningState.t := SigningState.mk HmacSha256 replay_key.
Definition signed (m : bytes) : bytes := (@sign toy_crypto sample_signing m).2.
Definition sample_session (responses : list bytes) : SessionConnection.t TcpTransport.t :=
  SessionConnection.mk (negotiated_connection (map signed responses)) 77 0 NtlmV2
    (Some replay_key) (Some sample_signing) true.

(** A response header of the server for this session. *)
Definition sample_header (cmd : Command.t) (st id : Z) (hid : HeaderId) : bytes :=
  header_bytes (mkSmb2Header 1 (Status st) cmd 4
    (match hid with Async _ => Z.lor flags.SERVER_TO_REDIR flags.ASYNC_COMMAND
                  | _ => flags.SERVER_TO_REDIR end)
    0 id hid 77 (replicate 16 x00)).

Lemma sample_session_wf responses : session_wf (sample_session responses).
Proof. apply negotiated_connection_wf. Qed.
