(* ===== verification/Testkit.v ===== *)
(** * The scripted transport of the tests

    [crates/smb-testkit/src/lib.rs]: a transport that plays queued messages and
    keeps what was sent, and what its record says of the traffic in terms of which
    the properties of the client are stated. *)
From S2P Require Import Prelude WireError Utf16 Header.
From S2P Require Import Client Credits MessageIds Transport Signing Connection Auth Session Exchange.

Module ScriptedTransport.
Record t : Type := mk { incoming : list bytes; sent : list bytes }.
Definition new (incoming : list bytes) : t := mk incoming [].
Definition sent_messages (self : t) : list bytes := sent self.
Definition remaining_messages (self : t) : Z := Z.of_nat (length (incoming self)).

Definition send_message (message : bytes) : st t unit := fun self =>
  (Ok tt, mk (incoming self) (sent self ++ [message])).
Definition nothing_queued : ClientError := Protocol "scripted transport has no queued response".
Definition receive_message : st t bytes := fun self =>
  match incoming self with
  | message :: incoming => (Ok message, mk incoming (sent self))
  | [] => (Err nothing_queued, self)
  end.
End ScriptedTransport.

#[export] Instance scripted_transport : Transport ScriptedTransport.t := {|
  send_message := ScriptedTransport.send_message;
  receive_message := ScriptedTransport.receive_message
|}.

(** The messages that are queued are the ones that it delivers. *)
#[export] Instance scripted_laws : TransportLaws ScriptedTransport.t.
Proof.
  refine {| delivers t ms := ScriptedTransport.incoming t = ms |}.
  intros [incoming sent] m rest. cbn. intros ->. by eexists.
Defined.

#[export] Instance scripted_safe : TransportSafe ScriptedTransport.t.
Proof. split; [done|]. intros [[|m incoming] sent]; done. Qed.

(** ** The record and the traffic *)

(** What was asked to be sent, and what the receives came to. *)
Definition messages_sent (es : list event) : list bytes :=
  es ≫= fun e => match e with ESend m _ => [m] | EReceive _ => [] end.
Definition send_results (es : list event) : list (client unit) :=
  es ≫= fun e => match e with ESend _ r => [r] | EReceive _ => [] end.
Definition receive_results (es : list event) : list (client bytes) :=
  es ≫= fun e => match e with ESend _ _ => [] | EReceive r => [r] end.

(** The first [n] receives of a script. *)
Definition played (n : nat) (script : list bytes) : list (client bytes) :=
  (Ok <$> take n script) ++ replicate (n - length script) (Err ScriptedTransport.nothing_queued).

Lemma played_cons n m script : played (S n) (m :: script) = Ok m :: played n script.
Proof. done. Qed.
Lemma played_nil n : played n [] = replicate n (Err ScriptedTransport.nothing_queued).
Proof. unfold played. by rewrite take_nil, Nat.sub_0_r. Qed.

(** The traffic that a script and a record allow. *)
Record scripted_traffic (t : ScriptedTransport.t) (es : list event) (t' : ScriptedTransport.t) : Prop := {
  traffic_sent : ScriptedTransport.sent t' = ScriptedTransport.sent t ++ messages_sent es;
  traffic_accepted : Forall (fun r => r = Ok tt) (send_results es);
  traffic_received : receive_results es = played (length (receive_results es)) (ScriptedTransport.incoming t);
  traffic_left : ScriptedTransport.incoming t' = drop (length (receive_results es)) (ScriptedTransport.incoming t)
}.

#[local] Arguments played : simpl never.

Lemma trace_traffic t es t' : trace t es t' -> scripted_traffic t es t'.
Proof.
  induction 1 as [t|t m r t1 es t2 Hs _ [Hsent Hok Hrec Hleft]|t r t1 es t2 Hs _ [Hsent Hok Hrec Hleft]].
  - split; [by rewrite app_nil_r|constructor|done|done].
  - injection Hs as <- <-. split; cbn in *; [by rewrite Hsent, <- app_assoc|by constructor|done|done].
  - destruct t as [[|m incoming] sent]; injection Hs as <- <-; cbn in *; split; try done; cbn.
    + rewrite played_nil. cbn [replicate]. f_equal. etrans; [exact Hrec|]. by rewrite played_nil.
    + by rewrite Hleft, !drop_nil.
    + rewrite played_cons. by f_equal.
Qed.

Lemma traffic_trace es : forall t t', scripted_traffic t es t' -> trace t es t'.
Proof.
  induction es as [|[m r|r] es IH]; intros [incoming sent] [incoming' sent'] [Hsent Hok Hrec Hleft]; cbn in *.
  - rewrite Hsent, app_nil_r, Hleft. constructor.
  - apply Forall_cons in Hok as [-> Hok]. eapply trace_send; [reflexivity|]. apply IH.
    split; cbn; [by rewrite Hsent, <- app_assoc|done..].
  - destruct incoming as [|m incoming].
    + rewrite played_nil in Hrec. injection Hrec as -> Hrec.
      eapply trace_receive; [reflexivity|]. apply IH. split; cbn; [done..| |].
      * by rewrite played_nil.
      * by rewrite Hleft, !drop_nil.
    + rewrite played_cons in Hrec. injection Hrec as -> Hrec.
      eapply trace_receive; [reflexivity|]. apply IH. by split.
Qed.

(** ** Properties *)

(** The record of the scripted transport is the traffic. A trace of events
    between two states of the transport, in terms of which all exchanges of the
    client are specified, holds exactly if the record has grown by the messages
    of its sends, in order and byte for byte, every send was accepted, its
    receives are the queued messages in order, and an error once there are none,
    and these messages are gone from the queue. So what the tests read off the
    record is what the specifications speak about, and nothing sent is missing. *)
Theorem scripted_transport_iff (t : ScriptedTransport.t) (es : list event) (t' : ScriptedTransport.t) :
  trace t es t' <->
  ScriptedTransport.sent_messages t' = ScriptedTransport.sent_messages t ++ messages_sent es /\
  Forall (fun r => r = Ok tt) (send_results es) /\
  receive_results es = played (length (receive_results es)) (ScriptedTransport.incoming t) /\
  ScriptedTransport.incoming t' = drop (length (receive_results es)) (ScriptedTransport.incoming t) /\
  ScriptedTransport.remaining_messages t'
    = Z.max 0 (ScriptedTransport.remaining_messages t - len (receive_results es)).
Proof.
  split.
  - intros [Hs Ho Hr Hl]%trace_traffic. split_and!; try done.
    unfold ScriptedTransport.remaining_messages, len. rewrite Hl, length_drop. lia.
  - intros (Hs & Ho & Hr & Hl & _). apply traffic_trace. by split.
Qed.
