(* ===== verification/Tree.v ===== *)
(** * TREE_CONNECT

    [crates/smb-client/src/tree.rs]: connecting an authenticated session to a
    share. *)
From S2P Require Import Prelude WireError Utf16 Frame Header SessionMessages Negotiate.
From S2P Require Import Client Credits MessageIds AsyncResponse Transport Signing Connection.
From S2P Require Import Auth Session Exchange.

Module TreeConnectOptions.
Record t : Type := mk { flags : Z; credit_request : Z }.
Definition default : t := {| flags := 0; credit_request := 16 |}.
End TreeConnectOptions.

Module TreeHandle.
Record t : Type := mk {
  tree_id : Z;
  path : rust_string;
  share_type : Z;
  share_flags : Z;
  capabilities : Z;
  maximal_access : Z
}.
End TreeHandle.

(** The checks of the options before anything is sent. *)
Definition validate_tree_options (dialect : Dialect) (options : TreeConnectOptions.t)
    (session_flags : Z) : client unit :=
  if negb (bool_decide (dialect = Smb311)) && negb (TreeConnectOptions.flags options =? 0)
  then Err (Protocol "TREE_CONNECT flags are only valid for SMB 3.1.1") else
  if has_flag (TreeConnectOptions.flags options) tree_connect_flags.EXTENSION_PRESENT
  then Err (Protocol "TREE_CONNECT extensions are not implemented yet") else
  if has_flag session_flags session_flags.ENCRYPT_DATA
  then Err (Protocol "encrypted SMB sessions are not implemented yet") else Ok tt.

(** SMB 3.1.1 signs TREE_CONNECT of an authenticated session in any case. *)
Definition request_signed {T} (dialect : Dialect) (s : SessionConnection.t T) : bool :=
  SessionConnection.signing_required s
  || (bool_decide (dialect = Smb311)
      && negb (bool_decide (SessionConnection.mechanism s = Anonymous))
      && negb (has_flag (SessionConnection.session_flags s)
                 (Z.lor session_flags.IS_GUEST session_flags.IS_NULL))).

Definition tree_id_of (header : Smb2Header) : client Z :=
  match hdr_id header with
  | Sync _ tree_id =>
      if negb (tree_id =? 0) then Ok tree_id
      else Err (Protocol "successful TREE_CONNECT response has a zero TreeId")
  | Async _ => Err (Protocol "TREE_CONNECT response unexpectedly used async header form")
  end.

Section tree_connect.
Context {T : Type} `{Transport T} `{Crypto}.

Definition tree_connect (path : rust_string) (options : TreeConnectOptions.t) :
    st (SessionConnection.t T) TreeHandle.t :=
  do! s := sget id in
  do! negotiated := slift (ok_or (SessionConnection.negotiated s)
    (Protocol "TREE_CONNECT requires negotiated parameters")) in
  let dialect := NegotiatedParameters.dialect negotiated in
  do! _ := slift (validate_tree_options dialect options (SessionConnection.session_flags s)) in
  let request := {| TreeConnectRequest.flags := TreeConnectOptions.flags options;
                    TreeConnectRequest.path := path |} in
  do! credit_charge :=
    slift (Connection.single_request_credit_charge (SessionConnection.connection s)) in
  do! message_id := send_request credit_charge (TreeConnectOptions.credit_request options)
    (fun message_id credit_request =>
       let! message := from_wire (TreeConnectRequest.encode_message request message_id
                                    (SessionConnection.session_id s) credit_request) in
       set_credit_charge message credit_charge)
    (request_signed dialect s)
    "TREE_CONNECT requires signing but the session has no signing key" in
  do! '(response_message, header) :=
    receive_response Command.TreeConnect "TREE_CONNECT" message_id None in
  do! _ := slift (check_status header "TREE_CONNECT response used request header form") in
  do! _ := slift (verify_response s header (SessionConnection.signing_required s)
    "server signed TREE_CONNECT without an available signing key"
    "server omitted a required TREE_CONNECT signature" response_message) in
  do! response := slift (from_wire (TreeConnectResponse.decode_message response_message)) in
  do! tree_id := slift (tree_id_of (TreeConnectResponse.header response)) in
  sret {| TreeHandle.tree_id := tree_id;
          TreeHandle.path := path;
          TreeHandle.share_type := TreeConnectResponse.share_type response;
          TreeHandle.share_flags := TreeConnectResponse.share_flags response;
          TreeHandle.capabilities := TreeConnectResponse.capabilities response;
          TreeHandle.maximal_access := TreeConnectResponse.maximal_access response |}.

End tree_connect.

(** ** Properties *)

Section tree_laws.
Context {T : Type} `{TransportSafe T} `{CryptoLaws}.

Lemma tree_encode_meets r mid sid credit :
  meets (TreeConnectRequest.encode_message r mid sid credit) (fun m => 64 <= len m).
Proof.
  destruct (TreeConnectRequest.validate r) as [[]|e| |] eqn:Hv.
  - rewrite TreeConnectRequest.tree_connect_request_encode_message_ok by done. cbn [meets].
    pose proof (len_header_bytes (TreeConnectRequest.tree_header mid sid credit) eq_refl).
    rewrite len_app. pose proof (len_nonneg (TreeConnectRequest.body_bytes r)). lia.
  - unfold TreeConnectRequest.encode_message, TreeConnectRequest.encode_body. by rewrite Hv.
  - pose proof (TreeConnectRequest.tree_connect_request_returns_validate r) as Hr. by rewrite Hv in Hr.
  - pose proof (TreeConnectRequest.tree_connect_request_returns_validate r) as Hr. by rewrite Hv in Hr.
Qed.

(** A request with its credit charge written in. *)
Lemma returns_charged (m : wire bytes) charge :
  meets m (fun m => 64 <= len m) ->
  returns (let! message := from_wire m in set_credit_charge message charge).
Proof.
  intros Hm. destruct m as [m|e| |]; try done. cbn in *.
  destruct (set_credit_charge_ok m charge Hm) as [m' ->]. done.
Qed.

Definition tree_request (s : SessionConnection.t T) (path : rust_string)
    (options : TreeConnectOptions.t) (charge id credit : Z) : client bytes :=
  let! message := from_wire (TreeConnectRequest.encode_message
    (TreeConnectRequest.mk (TreeConnectOptions.flags options) path) id
    (SessionConnection.session_id s) credit) in
  set_credit_charge message charge.

Definition tree_connected (s : SessionConnection.t T) (path : rust_string) (response : bytes)
    (h : Smb2Header) (tree : TreeHandle.t) : Prop :=
  status h = Status 0 /\
  signature_accepted s (SessionConnection.signing_required s) response h /\
  TreeHandle.path tree = path /\ TreeHandle.tree_id tree <> 0 /\
  exists r, TreeConnectResponse.decode_message response = Ok r /\
    TreeConnectResponse.tree_id r = TreeHandle.tree_id tree /\
    TreeConnectResponse.maximal_access r = TreeHandle.maximal_access tree.

Lemma tree_id_of_ok h id :
  tree_id_of h = Ok id -> id <> 0 /\ match hdr_id h with Sync _ t => t | Async _ => 0 end = id.
Proof.
  unfold tree_id_of. destruct (hdr_id h) as [p t|a]; [|done].
  destruct (Z.eqb_spec t 0); [done|]. intros Hid. apply Ok_inj in Hid as <-. done.
Qed.

End tree_laws.

(** What connecting to a share comes to. *)
Definition one_tree_connect {T} `{TransportSafe T} `{CryptoLaws} (s : SessionConnection.t T)
    (path : rust_string) (options : TreeConnectOptions.t) (r : client TreeHandle.t)
    (s' : SessionConnection.t T) : Prop :=
  exists charge required,
    (forall n, SessionConnection.negotiated s = Some n ->
       required = request_signed (NegotiatedParameters.dialect n) s) /\
    one_request s (tree_request s path options charge) required
      (sync_answer s Command.TreeConnect None) (tree_connected s path) r s'.

Lemma tree_connect_runs {T} `{TransportSafe T} `{CryptoLaws} (s : SessionConnection.t T)
    (path : rust_string) (options : TreeConnectOptions.t) (Hs : session_wf s) :
  runs (tree_connect path options) s (one_tree_connect s path options).
Proof.
  unfold tree_connect. run_step. cbn [id]. 
  assert (forall e n', exists charge required,
    (forall n, n' = Some n -> required = request_signed (NegotiatedParameters.dialect n) s) /\
    one_request s (tree_request s path options charge) required
      (sync_answer s Command.TreeConnect None) (tree_connected s path) (Err e) s) as Herr.
  { intros e n'. exists 0, (match n' with Some n => request_signed (NegotiatedParameters.dialect n) s
                            | None => false end).
    split; [by intros n ->|]. by apply one_request_err, advances_refl. }
  apply runs_bind_lift; [auto with returns|intros; apply Herr|intros n Hn%ok_or_ok].
  cbv zeta. apply runs_bind_lift; [unfold validate_tree_options; by repeat case_match|
    intros; apply Herr|intros _ _].
  pose proof (charge_meets (SessionConnection.connection s)) as Hcm.
  apply runs_bind_lift; [by eapply meets_returns|intros; apply Herr|intros charge Hcharge].
  eapply meets_ok in Hcm; [|exact Hcharge].
  eapply runs_mono.
  - apply (sync_request_runs s _ _ (tree_connected s path)); [done|lia| |].
    + intros id hint. apply returns_charged, tree_encode_meets.
    + intros response h id s' Hacc.
      run_bind u Hst%check_status_ok. run_bind v Hv; [apply returns_verify_response|].
      apply verify_response_ok in Hv.
      run_bind r Hr; [apply returns_from_wire,
        TreeConnectResponse.tree_connect_response_returns_decode_message|].
      run_bind t Ht; [unfold tree_id_of; by repeat case_match|].
      apply tree_id_of_ok in Ht as [Ht0 Ht]. apply from_wire_ok in Hr.
      unfold runs, sret. split; [done|]. split; [done|]. split; [done|].
      split; [done|]. split; [done|]. exists r. by split.
  - intros r s' Hone. exists charge, (request_signed (NegotiatedParameters.dialect n) s).
    split; [|exact Hone]. intros n' Hn'. congruence.
Qed.

(** TREE_CONNECT sends at most one request and believes only a genuine
    answer. Against any server, without panicking: whatever the outcome, no more
    than one message goes out and the session is otherwise unchanged; a tree
    handle is returned only after exactly one request and one response, which
    carries the request's command, MessageId and SessionId and a success
    status, whose signature was verified (or was absent and not required); the
    tree identifier is the response's and never zero. On SMB 3.1.1 the request
    of an authenticated session is signed whatever the signing policy. *)
Theorem tree_connect_sound {T} `{TransportSafe T} `{CryptoLaws} (s : SessionConnection.t T)
    (path : rust_string) (options : TreeConnectOptions.t) (Hs : session_wf s) :
  runs (tree_connect path options) s (fun r s' =>
    exists charge required,
      (forall n, SessionConnection.negotiated s = Some n ->
         required = request_signed (NegotiatedParameters.dialect n) s) /\
      one_request s (tree_request s path options charge) required
        (sync_answer s Command.TreeConnect None) (tree_connected s path) r s').
Proof. by apply tree_connect_runs. Qed.

Definition sample_share : rust_string := [92; 92; 115; 92; 118].
Definition sample_tree_response : bytes :=
  sample_header Command.TreeConnect 0 1 (Sync 0 5)
  ++ le_bytes 2 16 ++ [x01; x00] ++ le_bytes 4 0 ++ le_bytes 4 0 ++ le_bytes 4 0x1F01FF.

Lemma tree_connect_sound_witness :
  exists (tree : TreeHandle.t) (s' : SessionConnection.t TcpTransport.t),
    TreeHandle.tree_id tree = 5 /\
    exists es, advances (sample_session [sample_tree_response]) es s' /\ (length (sends es) <= 1)%nat.
Proof.
  destruct (runs_ended _ _ _ (fun tree _ => bool_decide (TreeHandle.tree_id tree = 5))
      (@tree_connect_sound _ _ _ toy_crypto toy_laws (sample_session [sample_tree_response])
         sample_share TreeConnectOptions.default (sample_session_wf _)))
    as (tree & s' & (charge & required & _ & es & Ha & Hl & _) & Ht%bool_decide_eq_true);
    [vm_compute; reflexivity|].
  exists tree, s'. split; [exact Ht|]. exists es. split; [exact Ha|exact Hl].
Defined.
