(* ===== verification/Files.v ===== *)
(** * Opening, closing and flushing files

    [crates/smb-client/src/file.rs] with the option sets of [mutation_open.rs]
    and [write_open.rs], [close.rs] and [flush.rs]: CREATE, CLOSE and FLUSH on a
    connected tree. *)
From S2P Require Import Prelude WireError Utf16 Frame Header Create FileControl.
From S2P Require Import CreateContext Durable Negotiate.
From S2P Require Import Client Credits MessageIds AsyncResponse Transport Signing Connection.
From S2P Require Import Auth Session Exchange Tree.

Module FileOpenOptions.
Record t : Type := mk {
  requested_oplock_level : Z;
  impersonation : Z;
  access : Z;
  file_attributes : Z;
  share : Z;
  disposition : Z;
  options : Z;
  credit_request : Z
}.

Definition share_all : Z :=
  Z.lor (Z.lor share_access.READ share_access.WRITE) share_access.DELETE.

Definition read_existing_random : t :=
  {| requested_oplock_level := oplock_level.NONE;
     impersonation := impersonation_level.IMPERSONATION;
     access := desired_access.GENERIC_READ;
     file_attributes := 0;
     share := share_all;
     disposition := create_disposition.OPEN;
     options := Z.lor create_options.NON_DIRECTORY_FILE create_options.RANDOM_ACCESS;
     credit_request := 16 |}.

Definition read_existing_directory : t :=
  {| requested_oplock_level := oplock_level.NONE;
     impersonation := impersonation_level.IMPERSONATION;
     access := desired_access.GENERIC_READ;
     file_attributes := 0;
     share := share_all;
     disposition := create_disposition.OPEN;
     options := create_options.DIRECTORY_FILE;
     credit_request := 16 |}.

Definition default : t := read_existing_random.

Definition mutation_existing : t :=
  {| requested_oplock_level := oplock_level.NONE;
     impersonation := impersonation_level.IMPERSONATION;
     access := Z.lor desired_access.DELETE desired_access.FILE_READ_ATTRIBUTES;
     file_attributes := 0;
     share := share_all;
     disposition := create_disposition.OPEN;
     options := 0;
     credit_request := 16 |}.

(** [Self { create_options, ..self }] and [options.desired_access = access]. *)
Definition with_options (o : t) (options : Z) : t :=
  mk (requested_oplock_level o) (impersonation o) (access o) (file_attributes o) (share o)
    (disposition o) options (credit_request o).
Definition with_access (o : t) (access : Z) : t :=
  mk (requested_oplock_level o) (impersonation o) access (file_attributes o) (share o)
    (disposition o) (options o) (credit_request o).

Definition mutation_existing_file : t :=
  with_options mutation_existing create_options.NON_DIRECTORY_FILE.
Definition mutation_existing_directory : t :=
  with_options mutation_existing create_options.DIRECTORY_FILE.

Definition create_directory : t :=
  {| requested_oplock_level := oplock_level.NONE;
     impersonation := impersonation_level.IMPERSONATION;
     access := Z.lor (Z.lor desired_access.DELETE desired_access.FILE_READ_ATTRIBUTES)
                 desired_access.FILE_WRITE_ATTRIBUTES;
     file_attributes := 0;
     share := share_all;
     disposition := create_disposition.CREATE;
     options := create_options.DIRECTORY_FILE;
     credit_request := 16 |}.

Definition writable_random (disposition : Z) : t :=
  {| requested_oplock_level := oplock_level.NONE;
     impersonation := impersonation_level.IMPERSONATION;
     access := Z.lor desired_access.GENERIC_READ desired_access.GENERIC_WRITE;
     file_attributes := 0;
     share := share_all;
     disposition := disposition;
     options := Z.lor create_options.NON_DIRECTORY_FILE create_options.RANDOM_ACCESS;
     credit_request := 16 |}.

Definition create_new_random : t := writable_random create_disposition.CREATE.
Definition write_existing_random : t := writable_random create_disposition.OPEN.
Definition overwrite_for_stream : t :=
  with_access (writable_random create_disposition.OVERWRITE_IF) desired_access.GENERIC_WRITE.
Definition create_or_truncate_random : t := writable_random create_disposition.OVERWRITE_IF.
Definition open_or_create_random : t := writable_random create_disposition.OPEN_IF.
End FileOpenOptions.

Module FileHandle.
Record t : Type := mk {
  file_id : FileId;
  tree_id : Z;
  path : rust_string;
  granted_oplock_level : Z;
  allocation_size : Z;
  end_of_file : Z;
  file_attributes : Z;
  creation_time : Z;
  last_access_time : Z;
  last_write_time : Z;
  change_time : Z;
  action : Z
}.

#[global] Instance eq_dec : EqDecision t.
Proof. solve_decision. Defined.

(** [FileHandle::len] and [FileHandle::is_empty]. *)
Definition length_ (f : t) : Z := end_of_file f.
Definition is_empty (f : t) : bool := end_of_file f =? 0.

Definition record_confirmed_len (f : t) (length : Z) : t :=
  mk (file_id f) (tree_id f) (path f) (granted_oplock_level f) (allocation_size f) length
    (file_attributes f) (creation_time f) (last_access_time f) (last_write_time f)
    (change_time f) (action f).

(** A handle names an open file of a tree. *)
Definition wf (f : t) : Prop :=
  file_id_wf (file_id f) /\ is_zero (file_id f) = false /\ u64 (end_of_file f).
End FileHandle.

Module FileOpenResult.
Record t : Type := mk { file : FileHandle.t; response_contexts : list CreateContext }.
End FileOpenResult.

(** [path.replace('/', "\\")]. *)
Definition backslashes (path : rust_string) : rust_string :=
  (fun c => if c =? 47 then 92 else c) <$> path.

Definition normalize_relative_path (path : rust_string) (allow_empty : bool) : client rust_string :=
  if is_empty path
  then if allow_empty then Ok path else Err (Protocol "file path must not be empty") else
  let normalized := backslashes path in
  if starts_with 92 normalized
  then Err (Protocol "file path must be relative to the connected tree") else
  if contains 0 normalized then Err (Protocol "file path must not contain NUL") else
  Ok normalized.

(** The CREATE request of an open. *)
Definition create_request (path : rust_string) (o : FileOpenOptions.t) : CreateRequest.t :=
  {| CreateRequest.requested_oplock_level := FileOpenOptions.requested_oplock_level o;
     CreateRequest.impersonation := FileOpenOptions.impersonation o;
     CreateRequest.access := FileOpenOptions.access o;
     CreateRequest.file_attributes := FileOpenOptions.file_attributes o;
     CreateRequest.share := FileOpenOptions.share o;
     CreateRequest.disposition := FileOpenOptions.disposition o;
     CreateRequest.options := FileOpenOptions.options o;
     CreateRequest.name := path |}.

(** The handle of a successful CREATE response. *)
Definition opened_file (tree_id : Z) (path : rust_string) (r : CreateResponse.t) : FileHandle.t :=
  {| FileHandle.file_id := CreateResponse.file_id r;
     FileHandle.tree_id := tree_id;
     FileHandle.path := path;
     FileHandle.granted_oplock_level := CreateResponse.granted_oplock_level r;
     FileHandle.allocation_size := CreateResponse.allocation_size r;
     FileHandle.end_of_file := CreateResponse.end_of_file r;
     FileHandle.file_attributes := CreateResponse.file_attributes r;
     FileHandle.creation_time := CreateResponse.creation_time r;
     FileHandle.last_access_time := CreateResponse.last_access_time r;
     FileHandle.last_write_time := CreateResponse.last_write_time r;
     FileHandle.change_time := CreateResponse.change_time r;
     FileHandle.action := CreateResponse.action r |}.

Module CloseOptions.
Record t : Type := mk { postquery_attributes : bool; credit_request : Z }.
Definition default : t := {| postquery_attributes := false; credit_request := 8 |}.
End CloseOptions.

Module CloseInfo.
Record t : Type := mk {
  has_postquery_attributes : bool;
  creation_time : Z;
  last_access_time : Z;
  last_write_time : Z;
  change_time : Z;
  allocation_size : Z;
  end_of_file : Z;
  file_attributes : Z
}.
End CloseInfo.

Definition close_request (file : FileHandle.t) (options : CloseOptions.t) : CloseRequest.t :=
  let request := CloseRequest.new (FileHandle.file_id file) in
  if CloseOptions.postquery_attributes options
  then CloseRequest.mk (Z.lor (CloseRequest.flags request) close_flags.POSTQUERY_ATTRIB)
         (CloseRequest.file_id request)
  else request.

Definition close_info (r : CloseResponse.t) : CloseInfo.t :=
  {| CloseInfo.has_postquery_attributes := CloseResponse.has_postquery_attributes r;
     CloseInfo.creation_time := CloseResponse.creation_time r;
     CloseInfo.last_access_time := CloseResponse.last_access_time r;
     CloseInfo.last_write_time := CloseResponse.last_write_time r;
     CloseInfo.change_time := CloseResponse.change_time r;
     CloseInfo.allocation_size := CloseResponse.allocation_size r;
     CloseInfo.end_of_file := CloseResponse.end_of_file r;
     CloseInfo.file_attributes := CloseResponse.file_attributes r |}.

Section files.
Context {T : Type} `{Transport T} `{Crypto}.

Definition open_file_with_contexts (tree : TreeHandle.t) (path : rust_string)
    (options : FileOpenOptions.t) (request_contexts : list CreateContext) :
    st (SessionConnection.t T) FileOpenResult.t :=
  let allow_empty_path := has_flag (FileOpenOptions.options options) create_options.DIRECTORY_FILE in
  do! path := slift (normalize_relative_path path allow_empty_path) in
  do! s := sget id in
  do! _ := slift (ensure_session s) in
  let request := create_request path options in
  do! credit_charge :=
    slift (Connection.single_request_credit_charge (SessionConnection.connection s)) in
  do! message_id := send_request credit_charge (FileOpenOptions.credit_request options)
    (fun message_id credit_request =>
       let! message := from_wire (encode_create_request_with_contexts request request_contexts
         message_id (SessionConnection.session_id s) (TreeHandle.tree_id tree) credit_request) in
       set_credit_charge message credit_charge)
    (SessionConnection.signing_required s)
    "CREATE requires signing but the session has no signing key" in
  do! '(response_message, header) := receive_response Command.Create "CREATE" message_id
    (Some (TreeHandle.tree_id tree, " response TreeId does not match tree"%string)) in
  do! _ := slift (check_status header "CREATE response used request header form") in
  do! _ := slift (verify_response s header (SessionConnection.signing_required s)
    "server signed CREATE without an available signing key"
    "server omitted a required CREATE signature" response_message) in
  do! '(response, response_contexts) :=
    slift (from_wire (decode_create_response_with_contexts response_message)) in
  if is_zero (CreateResponse.file_id response)
  then slift (Err (Protocol "successful CREATE response has a zero FileId")) else
  sret {| FileOpenResult.file := opened_file (TreeHandle.tree_id tree) path response;
          FileOpenResult.response_contexts := response_contexts |}.

Definition open_file (tree : TreeHandle.t) (path : rust_string) (options : FileOpenOptions.t) :
    st (SessionConnection.t T) FileHandle.t :=
  do! result := open_file_with_contexts tree path options [] in
  sret (FileOpenResult.file result).

Definition close_file (file : FileHandle.t) (options : CloseOptions.t) :
    st (SessionConnection.t T) CloseInfo.t :=
  do! s := sget id in
  do! _ := slift (ensure_session s) in
  let request := close_request file options in
  do! credit_charge :=
    slift (Connection.single_request_credit_charge (SessionConnection.connection s)) in
  do! message_id := send_request credit_charge (CloseOptions.credit_request options)
    (fun message_id credit_request =>
       from_wire (CloseRequest.encode_message request message_id
         (SessionConnection.session_id s) (FileHandle.tree_id file) credit_charge credit_request))
    (SessionConnection.signing_required s)
    "CLOSE requires signing but the session has no signing key" in
  do! '(response_message, header) := receive_response Command.Close "CLOSE" message_id
    (Some (FileHandle.tree_id file, " response TreeId does not match file tree"%string)) in
  do! _ := slift (check_status header "CLOSE response used request header form") in
  do! _ := slift (verify_response s header (SessionConnection.signing_required s)
    "server signed CLOSE without an available signing key"
    "server omitted a required CLOSE signature" response_message) in
  do! response := slift (from_wire (CloseResponse.decode_message response_message)) in
  sret (close_info response).

Definition flush_file (patience : nat) (file : FileHandle.t) : st (SessionConnection.t T) unit :=
  do! s := sget id in
  do! _ := slift (ensure_session s) in
  do! credit_charge :=
    slift (Connection.single_request_credit_charge (SessionConnection.connection s)) in
  do! message_id := send_request credit_charge 8
    (fun message_id credit_request =>
       from_wire (FlushRequest.encode_message (FlushRequest.mk (FileHandle.file_id file)) message_id
         (SessionConnection.session_id s) (FileHandle.tree_id file) credit_charge credit_request))
    (SessionConnection.signing_required s)
    "FLUSH requires signing but the session has no signing key" in
  do! '(message, header) :=
    receive_final patience Command.Flush "FLUSH" message_id (FileHandle.tree_id file) None in
  do! _ := slift (check_status header "FLUSH response used request header form") in
  slift (from_wire (FlushResponse.decode_message message)).

End files.

(** ** Paths *)

(** What the name of a file of a tree looks like on the wire: no separator at
    its start, no forward slash and no NUL in it. *)
Definition relative_path (path : rust_string) : Prop :=
  starts_with 92 path = false /\ ~ 47 ∈ path /\ ~ 0 ∈ path.

Lemma contains_true c s : contains c s = true <-> c ∈ s.
Proof.
  unfold contains. rewrite existsb_exists. setoid_rewrite list_elem_of_In.
  split; [intros (x & Hx & ->%Z.eqb_eq)|exists c; rewrite Z.eqb_eq]; done.
Qed.

Lemma normalize_relative_path_ok path allow p :
  normalize_relative_path path allow = Ok p ->
  p = backslashes path /\ relative_path p /\ (p = [] -> allow = true).
Proof.
  unfold normalize_relative_path. destruct (is_empty path) eqn:He.
  - apply is_empty_true in He as ->. destruct allow; [|done]. intros Hp. apply Ok_inj in Hp as <-.
    split; [done|]. split; [|done]. unfold relative_path. set_solver.
  - cbv zeta. destruct (starts_with 92 _) eqn:Hs; [done|]. destruct (contains 0 _) eqn:H0; [done|].
    intros Hp. apply Ok_inj in Hp as <-. split; [done|]. split.
    + split; [done|]. split.
      * unfold backslashes. intros (c & Hc & _)%list_elem_of_fmap.
        destruct (Z.eqb_spec c 47); lia.
      * intros Hin%contains_true. congruence.
    + intros Hnil. destruct path; done.
Qed.

Lemma returns_normalize_relative_path path allow : returns (normalize_relative_path path allow).
Proof. unfold normalize_relative_path. by repeat case_match. Qed.
#[export] Hint Resolve returns_normalize_relative_path : returns.

(** Normalising a normalised path changes nothing. *)
Lemma normalize_idempotent path allow p :
  normalize_relative_path path allow = Ok p -> normalize_relative_path p allow = Ok p.
Proof.
  intros Hn. pose proof (normalize_relative_path_ok _ _ _ Hn) as (-> & (Hs & H47 & H0) & Hnil).
  unfold normalize_relative_path. destruct (is_empty (backslashes path)) eqn:He.
  - apply is_empty_true in He. by rewrite Hnil.
  - cbv zeta. assert (backslashes (backslashes path) = backslashes path) as ->.
    { unfold backslashes. rewrite <- list_fmap_compose. apply list_fmap_ext. intros i c _. cbn.
      destruct (Z.eqb_spec c 47); [done|]. by destruct (Z.eqb_spec c 47). }
    rewrite Hs. destruct (contains 0 (backslashes path)) eqn:E; [|done].
    by apply contains_true in E.
Qed.

(** ** Properties *)

Section file_laws.
Context {T : Type} `{TransportSafe T} `{CryptoLaws}.
Abbreviation session := (SessionConnection.t T).

Lemma returns_close_encode r mid sid tid charge credit :
  returns (CloseRequest.encode_message r mid sid tid charge credit).
Proof.
  pose proof (CloseRequest.close_request_returns_validate r) as Hr.
  destruct (CloseRequest.validate r) as [[]|e| |] eqn:Hv; [|by unfold CloseRequest.encode_message;
    rewrite CloseRequest.close_request_encode_body_ok, Hv|done..].
  by rewrite CloseRequest.close_request_encode_message_ok.
Qed.

Lemma returns_flush_encode r mid sid tid charge credit :
  returns (FlushRequest.encode_message r mid sid tid charge credit).
Proof.
  destruct (is_zero (FlushRequest.file_id r)) eqn:Hz.
  - unfold FlushRequest.encode_message. by rewrite Hz.
  - by rewrite FlushRequest.flush_request_encode_message_ok.
Qed.

(** The CREATE that an open sends. *)
Definition open_request (s : session) (tree : TreeHandle.t) (path : rust_string)
    (options : FileOpenOptions.t) (contexts : list CreateContext) (charge id credit : Z) :
    client bytes :=
  let! message := from_wire (encode_create_request_with_contexts (create_request path options)
    contexts id (SessionConnection.session_id s) (TreeHandle.tree_id tree) credit) in
  set_credit_charge message charge.

Definition opened (s : session) (tree : TreeHandle.t) (path : rust_string) (response : bytes)
    (h : Smb2Header) (result : FileOpenResult.t) : Prop :=
  status h = Status 0 /\
  signature_accepted s (SessionConnection.signing_required s) response h /\
  exists r, decode_create_response_with_contexts response
            = Ok (r, FileOpenResult.response_contexts result) /\
    FileOpenResult.file result = opened_file (TreeHandle.tree_id tree) path r /\
    is_zero (CreateResponse.file_id r) = false.

(** The single-request charge of the session's connection. *)
Lemma charge_step (s : session) {A} (k : Z -> st session A) (Q : client A -> session -> Prop) :
  (forall e, Q (Err e) s) ->
  (forall charge, Connection.single_request_credit_charge (SessionConnection.connection s) = Ok charge ->
     0 <= charge <= 1 -> runs (k charge) s Q) ->
  runs (do! charge :=
          slift (Connection.single_request_credit_charge (SessionConnection.connection s)) in
        k charge) s Q.
Proof.
  intros Herr Hk. pose proof (charge_meets (SessionConnection.connection s)) as Hcm.
  apply runs_bind_lift; [by eapply meets_returns|intros; apply Herr|intros charge Hcharge].
  eapply meets_ok in Hcm; [|exact Hcharge]. by apply Hk.
Qed.

End file_laws.

(** What an open comes to. *)
Definition one_open {T} `{TransportSafe T} `{CryptoLaws} (s : SessionConnection.t T)
    (tree : TreeHandle.t) (path : rust_string) (options : FileOpenOptions.t)
    (contexts : list CreateContext) (r : client FileOpenResult.t) (s' : SessionConnection.t T) :
    Prop :=
  match normalize_relative_path path
          (has_flag (FileOpenOptions.options options) create_options.DIRECTORY_FILE) with
  | Ok p => relative_path p /\ exists charge,
      one_request s (open_request s tree p options contexts charge)
        (SessionConnection.signing_required s)
        (sync_answer s Command.Create (Some (TreeHandle.tree_id tree))) (opened s tree p) r s'
  | _ => s' = s /\ exists e, r = Err e
  end.

Lemma open_file_runs {T} `{TransportSafe T} `{CryptoLaws} (s : SessionConnection.t T)
    (tree : TreeHandle.t) (path : rust_string) (options : FileOpenOptions.t)
    (contexts : list CreateContext) (Hs : session_wf s) :
  runs (open_file_with_contexts tree path options contexts) s
    (one_open s tree path options contexts).
Proof.
  unfold open_file_with_contexts, one_open.
  apply runs_bind_lift; [auto with returns|by intros e ->; eauto|intros p Hp]. rewrite Hp.
  apply normalize_relative_path_ok in Hp as (_ & Hrel & _).
  assert (forall charge e, one_request s (open_request s tree p options contexts charge)
    (SessionConnection.signing_required s)
    (sync_answer s Command.Create (Some (TreeHandle.tree_id tree))) (opened s tree p) (Err e) s)
    as Herr by (intros; by apply one_request_err, advances_refl).
  run_step. cbn [id].
  apply runs_bind_lift; [apply returns_ensure_session|by intros; split; [|exists 0]|intros _ _].
  apply charge_step; [by intros; split; [|exists 0]|intros charge _ Hc].
  eapply runs_mono; [|intros r s' Hone; split; [done|exists charge; exact Hone]].
  apply (sync_request_runs s _ _ (opened s tree p) _ _ _ _ _ Hs (proj1 Hc)
           (fun id hint => returns_charged _ _ (encode_create_request_meets _ _ id _ _ hint))).
  intros response h id s' Hacc.
  run_bind u Hst%check_status_ok. run_bind v Hv; [apply returns_verify_response|].
  apply verify_response_ok in Hv.
  run_bind r Hr; [apply returns_from_wire, returns_decode_create_response_with_contexts|].
  apply from_wire_ok in Hr. destruct r as [r ctxs]. run_step; [done|].
  unfold runs, sret. split; [done|]. split; [done|]. split; [done|]. by exists r.
Qed.

(** The paths an open refuses: absolute ones, ones with a NUL, and the empty one
    where a file is meant. *)
Definition refused_path (path : rust_string) (directory : bool) : Prop :=
  path = [] /\ directory = false \/
  (exists c rest, path = c :: rest /\ (c = 47 \/ c = 92)) \/ 0 ∈ path.

(** The name sent for a path: code point by code point the path itself, a slash as
    a backslash. *)
Definition sent_name (path p : rust_string) : Prop :=
  Forall2 (fun c d => d = if decide (c = 47) then 92 else c) path p.

Lemma backslashes_sent path : sent_name path (backslashes path).
Proof.
  unfold sent_name, backslashes. rewrite Forall2_fmap_r. apply Forall_Forall2_diag, Forall_forall. intros c _. cbn.
  destruct (decide (c = 47)) as [->|Hc]; [done|]. by rewrite (proj2 (Z.eqb_neq _ _)).
Qed.
Lemma sent_name_backslashes path p : sent_name path p -> p = backslashes path.
Proof.
  intros Hs. unfold sent_name in Hs. induction Hs as [|c d path p -> Hs IH]; [done|].
  cbn. rewrite IH. f_equal. destruct (decide (c = 47)) as [->|Hc]; [done|]. by rewrite (proj2 (Z.eqb_neq _ _)).
Qed.

Lemma starts_backslash path : starts_with 92 (backslashes path) = true <->
  exists c rest, path = c :: rest /\ (c = 47 \/ c = 92).
Proof.
  destruct path as [|c rest]; cbn.
  - split; [done|by intros (? & ? & ? & _)].
  - destruct (Z.eqb_spec c 47) as [->|Hc]; cbn.
    + split; [intros _; do 2 eexists; split; [done|by left]|done].
    + rewrite Z.eqb_eq. split; [intros <-; do 2 eexists; split; [done|by right]|].
      by intros (? & ? & [= <- <-] & [|]).
Qed.
Lemma backslashes_nul path : 0 ∈ backslashes path <-> 0 ∈ path.
Proof.
  unfold backslashes. rewrite list_elem_of_fmap. split.
  - intros (c & Hc & Hin). destruct (Z.eqb_spec c 47); [lia|]. by subst c.
  - intros Hin. by exists 0.
Qed.

(** Which paths are refused, and what is sent for the others. *)
Lemma normalize_relative_path_cases path directory :
  (refused_path path directory /\ exists e, normalize_relative_path path directory = Err e) \/
  (~ refused_path path directory /\ normalize_relative_path path directory = Ok (backslashes path)).
Proof.
  unfold normalize_relative_path, refused_path. destruct (is_empty path) eqn:He.
  - apply is_empty_true in He as ->. destruct directory; [right|left; split; [by left|eauto]].
    split; [|done]. intros [[_ Hd]|[(? & ? & Hp & _)|Hin]]; [done..|]. by apply elem_of_nil in Hin.
  - cbv zeta. destruct (starts_with 92 (backslashes path)) eqn:Hs.
    { apply starts_backslash in Hs. left. split; [by right; left|eauto]. }
    destruct (contains 0 (backslashes path)) eqn:H0.
    { apply contains_true in H0. apply (backslashes_nul path) in H0. left. split; [by right; right|eauto]. }
    right. split; [|done]. intros [[-> _]|[Hp%starts_backslash|Hin%backslashes_nul%contains_true]]; [done|congruence..].
Qed.

(** C23: opening a file sends at most one CREATE, under the name the caller gave,
    and believes only its answer. Against any server, without panicking: a path
    that is absolute, has a NUL, or is empty where a file is meant is an error
    that leaves the session untouched; any other is sent code point by code point
    as it is, but for its slashes, which become backslashes ([.] and [..]
    components among them: resolving those is left to the server); and a handle
    is returned only for a response of the request's command, MessageId, session
    and tree with a success status and an acceptable signature, with the
    response's own non-zero file identifier and size. *)
Theorem open_file_sound {T} `{TransportSafe T} `{CryptoLaws} (s : SessionConnection.t T)
    (tree : TreeHandle.t) (path : rust_string) (options : FileOpenOptions.t)
    (contexts : list CreateContext) (Hs : session_wf s) :
  let directory := has_flag (FileOpenOptions.options options) create_options.DIRECTORY_FILE in
  runs (open_file_with_contexts tree path options contexts) s (fun r s' =>
    (refused_path path directory /\ s' = s /\ exists e, r = Err e) \/
    (~ refused_path path directory /\ exists p charge, sent_name path p /\ relative_path p /\
      one_request s (open_request s tree p options contexts charge)
        (SessionConnection.signing_required s)
        (sync_answer s Command.Create (Some (TreeHandle.tree_id tree))) (opened s tree p) r s')).
Proof.
  intros directory. eapply runs_mono; [by apply open_file_runs|]. intros r s'. unfold one_open. fold directory.
  destruct (normalize_relative_path_cases path directory) as [[Hr [e ->]]|[Hr ->]].
  - intros Hone. by left.
  - intros (Hrel & charge & Hone). right. split; [done|]. exists (backslashes path), charge.
    by split; [apply backslashes_sent|split].
Qed.

Section file_control.
Context {T : Type} `{TransportSafe T} `{CryptoLaws}.
Abbreviation session := (SessionConnection.t T).

Definition closed (s : session) (response : bytes) (h : Smb2Header) (info : CloseInfo.t) : Prop :=
  status h = Status 0 /\
  signature_accepted s (SessionConnection.signing_required s) response h /\
  exists r, CloseResponse.decode_message response = Ok r /\ info = close_info r.

(** What a close comes to. *)
Definition one_close (s : session) (file : FileHandle.t) (options : CloseOptions.t)
    (r : client CloseInfo.t) (s' : session) : Prop :=
  exists charge,
    one_request s (fun id hint => from_wire (CloseRequest.encode_message
        (close_request file options) id (SessionConnection.session_id s)
        (FileHandle.tree_id file) charge hint))
      (SessionConnection.signing_required s)
      (sync_answer s Command.Close (Some (FileHandle.tree_id file))) (closed s) r s'.

Lemma close_file_runs (s : session) file options (Hs : session_wf s) :
  runs (close_file file options) s (fun r s' => exists charge,
    one_request s (fun id hint => from_wire (CloseRequest.encode_message
        (close_request file options) id (SessionConnection.session_id s)
        (FileHandle.tree_id file) charge hint))
      (SessionConnection.signing_required s)
      (sync_answer s Command.Close (Some (FileHandle.tree_id file))) (closed s) r s').
Proof.
  unfold close_file. run_step. cbn [id].
  apply runs_bind_lift; [apply returns_ensure_session| |intros _ _].
  { intros e _. exists 0. by apply one_request_err, advances_refl. }
  apply charge_step; [intros e; exists 0; by apply one_request_err, advances_refl|].
  intros charge _ Hc. eapply runs_mono; [|intros r s' Hone; exists charge; exact Hone].
  apply (sync_request_runs s _ _ (closed s) _ _ _ _ _ Hs (proj1 Hc)
           (fun id hint => returns_from_wire _ (returns_close_encode _ _ _ _ _ _))).
  intros response h id s' Hacc.
  run_bind u Hst%check_status_ok. run_bind v Hv; [apply returns_verify_response|].
  apply verify_response_ok in Hv.
  run_bind r Hr; [apply returns_from_wire, CloseResponse.close_response_returns_decode_message|].
  apply from_wire_ok in Hr. unfold runs, sret. split; [done|]. split; [done|]. split; [done|].
  by exists r.
Qed.

Lemma flush_file_runs (s : session) patience file (Hs : session_wf s) :
  runs (flush_file patience file) s (fun r s' => exists charge,
    one_request s (fun id hint => from_wire (FlushRequest.encode_message
        (FlushRequest.mk (FileHandle.file_id file)) id (SessionConnection.session_id s)
        (FileHandle.tree_id file) charge hint))
      (SessionConnection.signing_required s)
      (async_answer s Command.Flush (FileHandle.tree_id file))
      (fun response h _ => status h = Status 0 /\ FlushResponse.decode_message response = Ok tt) r s').
Proof.
  unfold flush_file. run_step. cbn [id].
  apply runs_bind_lift; [apply returns_ensure_session| |intros _ _].
  { intros e _. exists 0. by apply one_request_err, advances_refl. }
  apply charge_step; [intros e; exists 0; by apply one_request_err, advances_refl|].
  intros charge _ Hc. eapply runs_mono; [|intros r s' Hone; exists charge; exact Hone].
  apply (async_request_runs s _ _
           (fun response h _ => status h = Status 0 /\ FlushResponse.decode_message response = Ok tt)
           _ _ _ _ _ Hs (proj1 Hc)
           (fun id hint => returns_from_wire _ (returns_flush_encode _ _ _ _ _ _))).
  intros response h s' _. run_bind u Hst%check_status_ok.
  apply runs_returns; [apply returns_from_wire, FlushResponse.flush_response_returns_decode_message|].
  split; [done|]. destruct (FlushResponse.decode_message response) as [[]|e| |] eqn:Hd; done.
Qed.

End file_control.

Section file_traffic.
Context {T : Type} `{TransportSafe T} `{CryptoLaws}.
Abbreviation session := (SessionConnection.t T).

Lemma one_open_traffic (s : session) tree path options contexts r s' : session_wf s ->
  one_open s tree path options contexts r s' ->
  exists es, advances s es s' /\ (length (sends es) <= 1)%nat /\
             (is_ok r = true -> length (sends es) = 1%nat).
Proof.
  intros Hs. unfold one_open. destruct (normalize_relative_path _ _).
  - intros (_ & charge & Hone). by eapply one_request_traffic.
  - intros [-> [e' ->]]. exists []. split; [by apply advances_refl|]. split; [cbn; lia|done].
  - intros [-> [e' ->]]. exists []. split; [by apply advances_refl|]. split; [cbn; lia|done].
  - intros [-> [e' ->]]. exists []. split; [by apply advances_refl|]. split; [cbn; lia|done].
Qed.

Lemma one_open_handle (s : session) tree path options contexts result s' :
  one_open s tree path options contexts (Ok result) s' -> FileHandle.wf (FileOpenResult.file result).
Proof.
  unfold one_open. destruct (normalize_relative_path _ _); [|by intros [_ [? ?]]..].
  intros (_ & charge & es & _ & _ & id & m & ms & response & h & _ & _ & _ & _ & _ & r & Hd & -> & Hz).
  unfold decode_create_response_with_contexts in Hd.
  apply obind_ok in Hd as (r' & Hr & Hd).
  assert (r' = r) as ->.
  { destruct (CreateResponse.create_contexts_length r' =? 0); [by injection Hd|]. accept Hd.
    apply obind_ok in Hd as (cs & _ & Hd).
    apply obind_ok in Hd as (list & _ & Hd). accept Hd. by injection Hd. }
  apply CreateResponse.decode_message_contexts in Hr as (_ & _ & _ & _ & _ & Hid & Heof).
  split; [exact Hid|]. by split.
Qed.

Lemma one_open_wf (s : session) tree path options contexts r s' : session_wf s ->
  one_open s tree path options contexts r s' -> session_wf s'.
Proof.
  intros Hs Hopen. destruct (one_open_traffic _ _ _ _ _ _ _ Hs Hopen) as (es & Ha & _). apply Ha.
Qed.

Lemma one_close_wf (s : session) file options r s' :
  one_close s file options r s' -> session_wf s'.
Proof. intros (charge & es & Ha & _). apply Ha. Qed.
End file_traffic.

(** CLOSE and FLUSH each send at most one request and report success only
    when the server confirmed it. A close succeeds only on the one synchronous
    response of its request, in the session and tree of the handle, with a
    success status and an acceptable signature, and reports that response's
    attributes; a flush succeeds only after a conforming sequence of responses
    (any number of interim ones, then the final one, signed if signing is
    required) ending in a success status and a well-formed FLUSH response.
    Neither panics, whatever the server sends and however long it takes. *)
Theorem close_and_flush_sound {T} `{TransportSafe T} `{CryptoLaws} (s : SessionConnection.t T)
    (file : FileHandle.t) (options : CloseOptions.t) (patience : nat) (Hs : session_wf s) :
  runs (close_file file options) s (fun r s' => exists charge,
    one_request s (fun id hint => from_wire (CloseRequest.encode_message
        (close_request file options) id (SessionConnection.session_id s)
        (FileHandle.tree_id file) charge hint))
      (SessionConnection.signing_required s)
      (sync_answer s Command.Close (Some (FileHandle.tree_id file))) (closed s) r s') /\
  runs (flush_file patience file) s (fun r s' => exists charge,
    one_request s (fun id hint => from_wire (FlushRequest.encode_message
        (FlushRequest.mk (FileHandle.file_id file)) id (SessionConnection.session_id s)
        (FileHandle.tree_id file) charge hint))
      (SessionConnection.signing_required s)
      (async_answer s Command.Flush (FileHandle.tree_id file))
      (fun response h _ => status h = Status 0 /\ FlushResponse.decode_message response = Ok tt) r s').
Proof. split; [by apply close_file_runs|by apply flush_file_runs]. Qed.

(** ** A file to run the model on *)

Definition sample_tree : TreeHandle.t := TreeHandle.mk 5 sample_share 1 0 0 0x1F01FF.
Definition sample_path : rust_string := [100; 47; 102].
Definition sample_file_id : FileId := mkFileId 3 4.
Definition sample_create_response : bytes :=
  sample_header Command.Create 0 1 (Sync 0 5)
  ++ le_bytes 2 89 ++ [x00; x00] ++ le_bytes 4 1 ++ le_bytes 8 0 ++ le_bytes 8 0 ++ le_bytes 8 0
  ++ le_bytes 8 0 ++ le_bytes 8 4096 ++ le_bytes 8 1000 ++ le_bytes 4 32 ++ le_bytes 4 0
  ++ file_id_bytes sample_file_id ++ le_bytes 4 0 ++ le_bytes 4 0.
Definition sample_file : FileHandle.t :=
  FileHandle.mk sample_file_id 5 (backslashes sample_path) 0 4096 1000 32 0 0 0 0 1.
Definition sample_close_response : bytes :=
  sample_header Command.Close 0 1 (Sync 0 5)
  ++ le_bytes 2 60 ++ le_bytes 2 0 ++ replicate 56 x00.
Definition sample_flush_pending : bytes :=
  sample_header Command.Flush 0x103 1 (Async 9) ++ le_bytes 2 9 ++ replicate 7 x00.
Definition sample_flush_response : bytes :=
  sample_header Command.Flush 0 1 (Async 9) ++ le_bytes 2 4 ++ le_bytes 2 0.

Lemma open_file_sound_witness :
  exists (result : FileOpenResult.t) (s' : SessionConnection.t TcpTransport.t),
    FileOpenResult.file result = sample_file /\ sent_name sample_path [100; 92; 102] /\
    exists es, advances (sample_session [sample_create_response]) es s' /\ length (sends es) = 1%nat.
Proof.
  destruct (runs_ended _ _ _ (fun result _ => bool_decide (FileOpenResult.file result = sample_file))
      (@open_file_sound _ _ _ toy_crypto toy_laws (sample_session [sample_create_response])
         sample_tree sample_path FileOpenOptions.default [] (sample_session_wf _)))
    as (result & s' & [(_ & _ & e & [=])
                      |(_ & p & charge & Hname & _ & es & Ha & _ & id & m & ms & r & h & He & _)]
        & Ht%bool_decide_eq_true); [vm_compute; reflexivity|].
  exists result, s'. split; [exact Ht|]. split.
  { rewrite (sent_name_backslashes _ _ Hname) in Hname. exact Hname. }
  exists es. split; [exact Ha|].
  rewrite He. cbn. by rewrite sends_received.
Defined.

Lemma close_and_flush_sound_witness :
  exists (s1 s2 : SessionConnection.t TcpTransport.t) info,
    (exists es, advances (sample_session [sample_close_response]) es s1 /\
                length (sends es) = 1%nat) /\
    CloseInfo.end_of_file info = 0 /\
    exists es, advances (sample_session [sample_flush_pending; sample_flush_response]) es s2 /\
               length (sends es) = 1%nat.
Proof.
  destruct (runs_ended _ _ _ (fun info _ => CloseInfo.end_of_file info =? 0)
      (proj1 (@close_and_flush_sound _ _ _ toy_crypto toy_laws (sample_session [sample_close_response])
         sample_file CloseOptions.default 2 (sample_session_wf _))))
    as (info & s1 & (c1 & es1 & Ha1 & Hl1 & id1 & m1 & ms1 & r1 & h1 & He1 & _) & Ht%Z.eqb_eq);
    [vm_compute; reflexivity|].
  destruct (runs_ended _ _ _ (fun _ _ => true)
      (proj2 (@close_and_flush_sound _ _ _ toy_crypto toy_laws
         (sample_session [sample_flush_pending; sample_flush_response])
         sample_file CloseOptions.default 2 (sample_session_wf _))))
    as (u & s2 & (c2 & es2 & Ha2 & Hl2 & id2 & m2 & ms2 & r2 & h2 & He2 & _) & _);
    [vm_compute; reflexivity|].
  exists s1, s2, info. split; [exists es1; split; [exact Ha1|]|split; [exact Ht|exists es2; split; [exact Ha2|]]];
    subst; cbn; by rewrite ?sends_received.
Defined.
