(* ===== verification/Write.v ===== *)
(** * WRITE

    [crates/smb-client/src/write.rs]: positional writes, split into chunks that
    the negotiated size limit and the available credits allow. The credit
    arithmetic is shared with [read.rs], which repeats it. *)
From S2P Require Import Prelude WireError Utf16 Frame Header Create ReadWrite Negotiate.
From S2P Require Import Client Credits MessageIds AsyncResponse Transport Signing Connection.
From S2P Require Import Auth Session Exchange Tree Files.

(** ** The credit arithmetic of READ and WRITE *)

Definition CREDIT_UNIT_BYTES : Z := 65536.

Definition credit_limited_payload (supports_multi_credit : bool) (available_credits : Z) : Z :=
  if supports_multi_credit
  then saturating_mul usize_max
         (match try_from usize_max available_credits with Some v => v | None => usize_max end)
         CREDIT_UNIT_BYTES
  else if 0 <? available_credits then CREDIT_UNIT_BYTES else 0.

(** [write_credit_charge] and [read_credit_charge], which differ in the name
    they report. *)
Definition credit_charge (op : string) (supports_multi_credit : bool) (length : Z) : client Z :=
  if negb supports_multi_credit then Ok 0 else
  if length =? 0
  then Err (Protocol (op ++ " CreditCharge cannot be calculated for zero bytes")) else
  let units := (length - 1) / CREDIT_UNIT_BYTES + 1 in
  ok_or (try_from u16_max units) (Protocol (op ++ " CreditCharge exceeds u16")).

Definition write_credit_charge : bool -> Z -> client Z := credit_charge "WRITE".

Lemma returns_credit_charge op multi length : returns (credit_charge op multi length).
Proof. unfold credit_charge. destruct multi; [|done]. cbn [negb]. case_match; [done|auto with returns]. Qed.

(** A chunk within the payload of the window is paid for by the window. *)
Lemma credit_charge_affordable op multi available length charge :
  u32 available -> 0 < length <= credit_limited_payload multi available ->
  credit_charge op multi length = Ok charge ->
  0 <= charge <= u16_max /\ Z.max charge 1 <= available /\
  (multi = true -> (charge - 1) * CREDIT_UNIT_BYTES < length <= charge * CREDIT_UNIT_BYTES).
Proof.
  unfold credit_limited_payload, credit_charge, saturating_mul, CREDIT_UNIT_BYTES.
  intros [? ?] Hl Hc. destruct multi; cbn [negb] in *.
  - rewrite try_from_ok in Hl by (unfold usize_max; lia).
    destruct (Z.eqb_spec length 0); [lia|]. cbv zeta in Hc.
    apply ok_or_ok, try_from_some in Hc as [-> ?]. unfold u16_max, usize_max in *. div_lia.
  - apply Ok_inj in Hc as <-. destruct (Z.ltb_spec 0 available); unfold u16_max; [|lia].
    split; [lia|]. split; [lia|done].
Qed.

Module WriteOptions.
Record t : Type := mk { credit_request : Z }.
Definition default : t := {| credit_request := 32 |}.
End WriteOptions.

(** ** The operation *)

Section write.
Context {T : Type} `{Transport T} `{Crypto}.

Definition write_limits (s : SessionConnection.t T) : client (bool * Z) :=
  let! negotiated := ok_or (SessionConnection.negotiated s)
    (Protocol "WRITE requires negotiated parameters") in
  let! max_write_size := ok_or (try_from usize_max (NegotiatedParameters.max_write_size negotiated))
    (Protocol "MaxWriteSize does not fit in usize") in
  if max_write_size =? 0 then Err (Protocol "MaxWriteSize must be greater than zero") else
  Ok (NegotiatedParameters.supports_multi_credit negotiated, max_write_size).

(** [available_write_credits] and [available_read_credits]. *)
Definition available_credits (op : string) (s : SessionConnection.t T) : client Z :=
  match Connection.available_credits (SessionConnection.connection s) with
  | Some available =>
      if available =? 0
      then Err (Protocol ("SMB connection has no credits available for " ++ op)) else Ok available
  | None => Err (Protocol "SMB credit window is not initialized")
  end.

Definition available_write_credits : SessionConnection.t T -> client Z := available_credits "WRITE".

(** The request of one chunk. *)
Definition write_request (s : SessionConnection.t T) (file : FileHandle.t) (offset : Z)
    (data : bytes) (written chunk_len charge message_id credit_request : Z) : client bytes :=
  let! written_u64 := ok_or (try_from u64_max written)
    (Protocol "WRITE offset conversion overflow") in
  let! chunk_offset := ok_or (checked_add u64_max offset written_u64)
    (Protocol "WRITE offset overflow") in
  let! chunk := slice data written (written + chunk_len) in
  let request := WriteRequest.direct (FileHandle.file_id file) chunk_offset chunk in
  from_wire (WriteRequest.encode_message request message_id (SessionConnection.session_id s)
    (FileHandle.tree_id file) charge credit_request).

(** The count of bytes a response confirms for a chunk. *)
Definition confirmed_count (response_message : bytes) (chunk_len : Z) : client Z :=
  let! response := from_wire (WriteResponse.decode_message response_message) in
  let! count := ok_or (try_from usize_max (WriteResponse.count response))
    (Protocol "WRITE response Count does not fit usize") in
  if chunk_len <? count
  then Err (Protocol "WRITE response reported more bytes than requested") else
  if count =? 0 then Err (Protocol "successful WRITE response reported zero bytes") else
  Ok count.

(** One turn of the [while] loop: the bytes it confirms. *)
Definition write_chunk (patience : nat) (file : FileHandle.t) (offset : Z) (data : bytes)
    (options : WriteOptions.t) (written : Z) : st (SessionConnection.t T) Z :=
  do! s := sget id in
  let remaining := len data - written in
  do! '(supports_multi_credit, max_write_size) := slift (write_limits s) in
  do! available := slift (available_write_credits s) in
  let credit_limited := credit_limited_payload supports_multi_credit available in
  let chunk_len := Z.min (Z.min remaining max_write_size) credit_limited in
  if chunk_len =? 0 then slift (Err (Protocol "WRITE chunk size resolved to zero")) else
  do! charge := slift (write_credit_charge supports_multi_credit chunk_len) in
  do! message_id := send_request charge (WriteOptions.credit_request options)
    (write_request s file offset data written chunk_len charge)
    (SessionConnection.signing_required s)
    "WRITE requires signing but the session has no signing key" in
  do! '(response_message, header) :=
    receive_final patience Command.Write "WRITE" message_id (FileHandle.tree_id file) None in
  do! _ := slift (check_status header "WRITE response used request header form") in
  slift (confirmed_count response_message chunk_len).

(** The loop. A turn confirms at least one byte, so as many turns as there are
    bytes are enough; running out of them is a [Panic]. *)
Fixpoint write_loop (fuel patience : nat) (file : FileHandle.t) (offset : Z) (data : bytes)
    (options : WriteOptions.t) (written : Z) : st (SessionConnection.t T) Z :=
  if written <? len data then
    match fuel with
    | O => slift Panic
    | S fuel =>
        do! count := write_chunk patience file offset data options written in
        do! written := slift (ok_or (checked_add usize_max written count)
                                (Protocol "WRITE result length overflow")) in
        write_loop fuel patience file offset data options written
    end
  else sret written.

Definition write_at_with_options (patience : nat) (file : FileHandle.t) (offset : Z) (data : bytes)
    (options : WriteOptions.t) : st (SessionConnection.t T) Z :=
  if is_empty data then sret 0 else
  do! s := sget id in
  do! _ := slift (ensure_session s) in
  write_loop (length data) patience file offset data options 0.

Definition write_at (patience : nat) (file : FileHandle.t) (offset : Z) (data : bytes) :
    st (SessionConnection.t T) Z :=
  write_at_with_options patience file offset data WriteOptions.default.

End write.

(** ** What a write leaves behind *)

Section write_laws.
Context {T : Type} `{TransportSafe T} `{CryptoLaws}.
Abbreviation session := (SessionConnection.t T).

(** The request that asks for [chunk] to be written at [offset]. *)
Definition chunk_request (s : session) (file : FileHandle.t) (offset : Z) (chunk : bytes)
    (charge id credit : Z) : client bytes :=
  from_wire (WriteRequest.encode_message
    (WriteRequest.direct (FileHandle.file_id file) offset chunk) id
    (SessionConnection.session_id s) (FileHandle.tree_id file) charge credit).

(** One WRITE request for [chunk] at [offset] and the server's confirmation
    that it wrote the first [count] bytes of it. *)
Definition chunk_confirmed (s : session) (file : FileHandle.t) (offset : Z) (chunk : bytes)
    (count : Z) (es : list event) : Prop :=
  0 < count <= len chunk /\ 0 <= offset <= u64_max /\
  exists charge id m ms response h r,
    es = ESend m (Ok tt) :: received (ms ++ [response]) /\
    request_sent s (chunk_request s file offset chunk charge)
      (SessionConnection.signing_required s) id m /\
    async_answer s Command.Write (FileHandle.tree_id file) id ms response h /\
    status h = Status 0 /\ WriteResponse.decode_message response = Ok r /\
    WriteResponse.count r = count.

(** Traffic that confirms [data] at [offset]: chunk by chunk, each starting
    where the bytes confirmed so far end. *)
Inductive confirms (s : session) (file : FileHandle.t) : Z -> bytes -> list event -> Prop :=
  | confirms_nil offset : confirms s file offset [] []
  | confirms_chunk offset chunk count es rest es' :
      chunk_confirmed s file offset chunk count es ->
      confirms s file (offset + count) rest es' ->
      confirms s file offset (sub chunk 0 count ++ rest) (es ++ es').

Lemma confirms_set_connection (s : session) c file offset data es :
  confirms (set_connection s c) file offset data es -> confirms s file offset data es.
Proof. induction 1 as [|offset chunk count es rest es' Hc]; [constructor|by econstructor]. Qed.

Lemma returns_write_encode r mid sid tid charge credit :
  returns (WriteRequest.encode_message r mid sid tid charge credit).
Proof.
  assert (returns (WriteRequest.validate r)) as Hr
    by (unfold WriteRequest.validate; repeat returns_step).
  destruct (WriteRequest.validate r) as [[]|e| |] eqn:Hv; [| |done..].
  - by rewrite WriteRequest.write_request_encode_message_ok.
  - unfold WriteRequest.encode_message. by rewrite WriteRequest.write_request_encode_body_ok, Hv.
Qed.

Lemma write_limits_meets (s : session) : session_wf s ->
  meets (write_limits s) (fun '(_, size) => 0 < size < 2 ^ 32).
Proof.
  intros Hs. unfold write_limits, SessionConnection.negotiated.
  destruct (Connection.negotiated _) as [p|] eqn:Hp; [|done]. cbn [ok_or obind].
  apply (Connection.wf_negotiated _ Hs) in Hp as (? & ? & ?).
  rewrite try_from_ok by (unfold usize_max; lia). cbn [ok_or obind].
  by destruct (Z.eqb_spec (NegotiatedParameters.max_write_size p) 0).
Qed.

Lemma available_credits_meets op (s : session) : session_wf s ->
  meets (available_credits op s) (fun n => u32 n /\ 0 < n).
Proof.
  intros Hs. unfold available_credits, Connection.available_credits.
  destruct (Connection.credits _) as [w|] eqn:Hw; [|done]. cbn.
  apply (Connection.wf_credits _ Hs) in Hw as [Hu _].
  destruct (Z.eqb_spec (CreditManager.available w) 0); [done|]. cbn. unfold uint in *. lia.
Qed.

Lemma credit_limited_payload_pos multi available :
  u32 available -> 0 < available -> 0 < credit_limited_payload multi available.
Proof.
  unfold credit_limited_payload, saturating_mul, CREDIT_UNIT_BYTES. intros [? ?] ?.
  destruct multi; [rewrite try_from_ok by (unfold usize_max; lia); unfold usize_max; lia|].
  destruct (Z.ltb_spec 0 available); lia.
Qed.

Lemma write_request_eq (s : session) file offset data written n charge id credit :
  0 <= written -> 0 <= n -> written + n <= len data -> 0 <= offset ->
  returns (write_request s file offset data written n charge id credit) /\
  forall m, write_request s file offset data written n charge id credit = Ok m ->
    offset + written <= u64_max /\
    chunk_request s file (offset + written) (sub data written n) charge id credit = Ok m.
Proof.
  intros. unfold write_request. destruct (try_from u64_max written) as [w|] eqn:Ew; [|done].
  apply try_from_some in Ew as [-> _]. cbn [ok_or obind].
  destruct (checked_add u64_max offset written) as [o|] eqn:Eo; [|done].
  apply checked_add_some in Eo as [-> Hle]. cbn [ok_or obind].
  rewrite slice_ok by lia. cbn [obind]. rewrite Z.add_simpl_l.
  split; [apply returns_from_wire, returns_write_encode|done].
Qed.

Lemma confirmed_count_meets response n :
  meets (confirmed_count response n) (fun count =>
    0 < count <= n /\
    exists r, WriteResponse.decode_message response = Ok r /\ WriteResponse.count r = count).
Proof.
  unfold confirmed_count. apply meets_returns_bind;
    [apply returns_from_wire, WriteResponse.write_response_returns_decode_message|].
  intros r Hr%from_wire_ok.
  pose proof (WriteResponse.write_response_decode_message_inv _ _ Hr) as (_ & _ & _ & _ & [? ?] & _).
  rewrite try_from_ok by (unfold usize_max; lia). cbn [ok_or obind].
  destruct (Z.ltb_spec n (WriteResponse.count r)); [done|].
  destruct (Z.eqb_spec (WriteResponse.count r) 0); [done|]. cbn. split; [lia|by exists r].
Qed.

(** A pure step that keeps what it meets. *)
Lemma chunk_step (s : session) patience file offset data options written :
  session_wf s -> 0 <= written < len data -> 0 <= offset ->
  runs (write_chunk patience file offset data options written) s (fun r s' =>
    exists es, advances s es s' /\ (length (sends es) <= 1)%nat /\
    match r with
    | Ok count => exists n, 0 <= n /\ written + n <= len data /\
        chunk_confirmed s file (offset + written) (sub data written n) count es
    | _ => True
    end).
Proof.
  intros Hs Hw Ho. unfold write_chunk. run_step. cbn [id].
  assert (forall (e : ClientError), exists es, advances s es s /\ (length (sends es) <= 1)%nat /\ True)
    as Herr by (intros e; exists []; split; [by apply advances_refl|cbn; split; [lia|done]]).
  pose proof (write_limits_meets s Hs) as Hlim.
  apply runs_bind_lift; [by eapply meets_returns|by intros; apply Herr|intros lim Elim]. eapply meets_ok in Hlim; [|exact Elim].
  destruct lim as [multi size].
  pose proof (available_credits_meets "WRITE" s Hs) as Hav.
  apply runs_bind_lift; [by eapply meets_returns|by intros; apply Herr|intros available Eav].
  eapply meets_ok in Hav as [Hu Hpos]; [|exact Eav].
  pose proof (credit_limited_payload_pos multi available Hu Hpos). cbv zeta.
  set (n := Z.min _ _). assert (0 < n /\ written + n <= len data
    /\ n <= credit_limited_payload multi available /\ n < 2 ^ 32) as (Hn & Hwn & Hcl & Hn32) by lia.
  destruct (Z.eqb_spec n 0); [lia|].
  apply runs_bind_lift; [apply returns_credit_charge|by intros; apply Herr|intros charge Ech].
  apply (credit_charge_affordable _ _ available) in Ech as (Hch & _); [|done|lia].
  eapply runs_mono.
  - apply (async_request_runs s _ _ (fun response h count => status h = Status 0 /\
      0 < count <= n /\
      exists r, WriteResponse.decode_message response = Ok r /\ WriteResponse.count r = count)
      _ _ _ _ _ Hs (proj1 Hch)).
    + intros id hint. apply write_request_eq; lia.
    + intros response h s' _. run_bind u Hst%check_status_ok.
      pose proof (confirmed_count_meets response n) as Hc. unfold runs, slift.
      destruct (confirmed_count response n) as [count|e| |]; [|by split|by destruct Hc..].
      by split.
  - intros r s' (es & Ha & Hl & Hr). exists es. split; [done|]. split; [done|].
    destruct r as [count| | |]; [|done..].
    destruct Hr as (id & m & ms & response & h & -> & Hreq & Hans & Hst & Hc & rr & Hd & Hcount).
    exists n. split; [lia|]. split; [done|].
    destruct Hreq as (hint & plain & no_key & Henc & Hsign).
    apply write_request_eq in Henc as [Hle Henc]; [|lia..].
    split; [rewrite len_sub; lia|]. split; [lia|].
    exists charge, id, m, ms, response, h, rr. split; [done|]. split; [by exists hint, plain, no_key|].
    by split.
Qed.

(** The loop: what it confirms, and that at most one request is left
    unconfirmed when it stops early. *)
Definition write_result (s : session) (file : FileHandle.t) (offset : Z) (data : bytes)
    (total : Z) (r : client Z) (s' : session) : Prop :=
  exists es, advances s es s' /\
  match r with
  | Ok n => n = total /\ confirms s file offset data es
  | _ => exists sent rest es1 es2, data = sent ++ rest /\ es = es1 ++ es2 /\
           confirms s file offset sent es1 /\ (length (sends es2) <= 1)%nat
  end.

Lemma write_loop_runs patience file offset data options fuel :
  0 <= offset -> forall written s, session_wf s -> 0 <= written <= len data ->
  len data - written <= Z.of_nat fuel ->
  runs (write_loop fuel patience file offset data options written) s
    (write_result s file (offset + written) (drop (Z.to_nat written) data) (len data)).
Proof.
  intros Ho. induction fuel as [|fuel IH]; intros written s Hs Hw Hf; cbn [write_loop].
  all: destruct (Z.ltb_spec written (len data)); [|
    unfold runs, sret; exists []; split; [by apply advances_refl|];
    replace (drop (Z.to_nat written) data) with (@nil byte)
      by (symmetry; apply drop_ge; unfold len in *; lia); split; [lia|constructor]].
  1: lia.
  apply runs_bind. eapply runs_mono; [apply chunk_step; [done|lia|done]|].
  intros r s1 (es & Ha & Hl & Hr). destruct r as [count|e| |]; [|
    exists es; split; [done|]; exists [], (drop (Z.to_nat written) data), [], es;
    split; [done|]; split; [done|]; split; [constructor|done]|done..].
  destruct Hr as (n & Hn & Hwn & Hchunk). pose proof Hchunk as ((Hc & Hc') & _ & _).
  rewrite len_sub in Hc' by lia.
  apply runs_bind_lift; [auto with returns| |intros w Hw'%ok_or_ok%checked_add_some].
  { intros e _. exists es. split; [done|].
    exists [], (drop (Z.to_nat written) data), [], es. repeat split; try done. constructor. }
  destruct Hw' as [-> _].
  assert (drop (Z.to_nat written) data
          = sub (sub data written n) 0 count ++ drop (Z.to_nat (written + count)) data) as Hdata.
  { rewrite sub_sub by lia. rewrite Z.add_0_r. rewrite <- drop_sub by lia. done. }
  eapply runs_mono; [apply IH; [apply Ha|lia|lia]|].
  intros r s2 (es2 & Ha2 & Hr2). exists (es ++ es2). split; [by eapply advances_app|].
  rewrite (advances_session _ _ _ Ha) in Hr2. rewrite Z.add_assoc in Hr2.
  destruct r as [k|e| |].
  1:{ destruct Hr2 as [-> Hconf%confirms_set_connection]. split; [done|]. rewrite Hdata.
      by eapply confirms_chunk. }
  all: destruct Hr2 as (sent & rest & es3 & es4 & Hd & -> & Hconf%confirms_set_connection & Hl4);
    exists (sub (sub data written n) 0 count ++ sent), rest, (es ++ es3), es4;
    rewrite Hdata, Hd, <- !app_assoc; split; [done|]; split; [done|]; split; [|done];
    by eapply confirms_chunk.
Qed.

End write_laws.

Lemma write_at_runs {T} `{TransportSafe T} `{CryptoLaws} (s : SessionConnection.t T)
    (patience : nat) (file : FileHandle.t) (offset : Z) (data : bytes) (options : WriteOptions.t)
    (Hs : session_wf s) (Hoffset : 0 <= offset) :
  runs (write_at_with_options patience file offset data options) s
    (write_result s file offset data (len data)).
Proof.
  unfold write_at_with_options. destruct (is_empty data) eqn:He.
  { apply is_empty_true in He as ->. exists []. split; [by apply advances_refl|].
    split; [done|constructor]. }
  run_step. cbn [id].
  apply runs_bind_lift; [apply returns_ensure_session| |intros _ _].
  { intros e _. exists []. split; [by apply advances_refl|].
    exists [], data, [], []. repeat split; try done; [constructor|cbn; lia]. }
  pose proof (write_loop_runs patience file offset data options (length data) Hoffset 0 s Hs) as Hloop.
  rewrite Z.add_0_r in Hloop. cbn [Z.to_nat drop] in Hloop.
  apply Hloop; unfold len; lia.
Qed.

(** C2: a positional write reports success only when the server confirmed every
    byte, and never replays. Against any server, without panicking and in at
    most one turn per byte: on success the number returned is the length of the
    data and the traffic confirms exactly the data, chunk after chunk, each
    request starting at the offset where the confirmed bytes end, each with its
    own accepted response; on an error some prefix of the data was confirmed
    that way and at most one further request, whose outcome is unknown, was
    sent after it. *)
Theorem write_at_sound {T} `{TransportSafe T} `{CryptoLaws} (s : SessionConnection.t T)
    (patience : nat) (file : FileHandle.t) (offset : Z) (data : bytes) (options : WriteOptions.t)
    (Hs : session_wf s) (Hoffset : 0 <= offset) :
  runs (write_at_with_options patience file offset data options) s
    (write_result s file offset data (len data)).
Proof. by apply write_at_runs. Qed.

(** Three bytes; the server first writes two of them, then the third, both
    after going asynchronous. *)
Definition write_response (st id : Z) (hid : HeaderId) (count : Z) : bytes :=
  sample_header Command.Write st id hid
  ++ le_bytes 2 17 ++ le_bytes 2 0 ++ le_bytes 4 count ++ le_bytes 4 0 ++ le_bytes 4 0.
Definition sample_writes : list bytes :=
  [sample_header Command.Write 0x103 1 (Async 9) ++ le_bytes 2 9 ++ replicate 7 x00;
   write_response 0 1 (Async 9) 2; write_response 0 2 (Sync 0 5) 1].

Lemma write_at_sound_witness :
  exists (s' : SessionConnection.t TcpTransport.t) es,
    advances (sample_session sample_writes) es s' /\
    @confirms _ toy_crypto (sample_session sample_writes) sample_file 0 [x0a; x0b; x0c] es.
Proof.
  destruct (runs_ended _ _ _ (fun n s =>
        (n =? 3) && (Connection.message_ids (SessionConnection.connection s) =? 3))
      (@write_at_sound _ _ _ toy_crypto toy_laws (sample_session sample_writes) 4 sample_file 0
         [x0a; x0b; x0c] WriteOptions.default (sample_session_wf _) ltac:(done)))
    as (n & s' & (es & Ha & _ & Hconf) & _); [vm_compute; reflexivity|].
  exists s', es. split; [exact Ha|exact Hconf].
Defined.
