(* ===== verification/Read.v ===== *)
(** * READ, one request at a time

    [crates/smb-client/src/read.rs] ([read_at]) and [read_async.rs]: positional
    reads of an open file, split into chunks that the negotiated size limit and
    the available credits allow. The pipelined reader of the same file is in
    [PipelinedRead]. *)
From S2P Require Import Prelude WireError Utf16 Frame Header Create ReadWrite Negotiate.
From S2P Require Import Client Credits MessageIds AsyncResponse Transport Signing Connection.
From S2P Require Import Auth Session Exchange Tree Files Write.

Definition STATUS_END_OF_FILE : Z := 0xC0000011.

Module ReadOptions.
Record t : Type := mk { credit_request : Z }.
Definition default : t := {| credit_request := 32 |}.
End ReadOptions.

Definition read_credit_charge : bool -> Z -> client Z := credit_charge "READ".

Definition read_target_len (file : FileHandle.t) (offset length : Z) : client Z :=
  let! requested := ok_or (try_from u64_max length) (Protocol "READ length does not fit in u64") in
  let! available := sub_or_panic (FileHandle.length_ file) offset in
  let target_u64 := Z.min requested available in
  ok_or (try_from usize_max target_u64) (Protocol "READ length does not fit in usize").

(** How the status of a final READ response is taken by [read_at]: [true] to go
    on to its data, [false] for the end of the file. *)
Definition read_status (header : Smb2Header) : client bool :=
  match status header with
  | Status s =>
      if s =? 0 then Ok true
      else if s =? STATUS_END_OF_FILE then Ok false else Err (ServerStatus s)
  | ChannelSequence _ _ => Err (Protocol "READ response used request header form")
  end.

Section read.
Context {T : Type} `{Transport T} `{Crypto}.

Definition read_limits (s : SessionConnection.t T) : client (bool * Z) :=
  let! negotiated := ok_or (SessionConnection.negotiated s)
    (Protocol "READ requires negotiated parameters") in
  let! max_read_size := ok_or (try_from usize_max (NegotiatedParameters.max_read_size negotiated))
    (Protocol "MaxReadSize does not fit in usize") in
  Ok (NegotiatedParameters.supports_multi_credit negotiated, max_read_size).

Definition available_read_credits : SessionConnection.t T -> client Z := available_credits "READ".

(** The request of one chunk at [offset]. *)
Definition read_request (s : SessionConnection.t T) (file : FileHandle.t)
    (offset chunk_len charge message_id credit_request : Z) : client bytes :=
  let! length := ok_or (try_from u32_max chunk_len) (Protocol "READ chunk exceeds u32 length") in
  let request := ReadRequest.direct (FileHandle.file_id file) offset length in
  from_wire (ReadRequest.encode_message request message_id (SessionConnection.session_id s)
    (FileHandle.tree_id file) charge credit_request).

(** What one turn of the loop got: data, or the end of the file; with the
    length that was asked for. *)
Definition read_chunk (patience : nat) (file : FileHandle.t) (remaining next_offset : Z)
    (options : ReadOptions.t) : st (SessionConnection.t T) (Z * option bytes) :=
  do! s := sget id in
  do! '(supports_multi_credit, max_read_size) := slift (read_limits s) in
  do! available := slift (available_read_credits s) in
  let credit_limited := credit_limited_payload supports_multi_credit available in
  let chunk_len := Z.min (Z.min remaining max_read_size) credit_limited in
  if chunk_len =? 0 then slift (Err (Protocol "READ chunk size resolved to zero")) else
  do! charge := slift (read_credit_charge supports_multi_credit chunk_len) in
  do! message_id := send_request charge (ReadOptions.credit_request options)
    (read_request s file next_offset chunk_len charge)
    (SessionConnection.signing_required s)
    "READ requires signing but the session has no signing key" in
  do! '(response_message, header) :=
    receive_final patience Command.Read "READ" message_id (FileHandle.tree_id file) None in
  do! more := slift (read_status header) in
  if negb more then sret (chunk_len, None) else
  do! response := slift (from_wire (ReadResponse.decode_message response_message)) in
  if chunk_len <? len (ReadResponse.data response)
  then slift (Err (Protocol "READ response returned more data than requested")) else
  if is_empty (ReadResponse.data response) then sret (chunk_len, None) else
  sret (chunk_len, Some (ReadResponse.data response)).

(** The loop. A turn adds at least one byte or ends it, so as many turns as
    there are bytes to read are enough; running out of them is a [Panic]. *)
Fixpoint read_loop (fuel patience : nat) (file : FileHandle.t) (target next_offset : Z)
    (options : ReadOptions.t) (out : bytes) : st (SessionConnection.t T) bytes :=
  if len out <? target then
    match fuel with
    | O => slift Panic
    | S fuel =>
        let remaining := target - len out in
        do! '(chunk_len, data) := read_chunk patience file remaining next_offset options in
        match data with
        | None => sret out
        | Some data =>
            let received := len data in
            let out := out ++ data in
            do! received_u64 := slift (ok_or (try_from u64_max received)
                                  (Protocol "READ result length overflow")) in
            do! next_offset := slift (ok_or (checked_add u64_max next_offset received_u64)
                                 (Protocol "READ offset overflow")) in
            if received <? chunk_len then sret out
            else read_loop fuel patience file target next_offset options out
        end
    end
  else sret out.

Definition read_at_with_options (patience : nat) (file : FileHandle.t) (offset length : Z)
    (options : ReadOptions.t) : st (SessionConnection.t T) bytes :=
  if (length =? 0) || (FileHandle.length_ file <=? offset) then sret [] else
  do! s := sget id in
  do! _ := slift (ensure_session s) in
  do! target := slift (read_target_len file offset length) in
  read_loop (Z.to_nat target) patience file target offset options [].

Definition read_at (patience : nat) (file : FileHandle.t) (offset length : Z) :
    st (SessionConnection.t T) bytes :=
  read_at_with_options patience file offset length ReadOptions.default.

End read.

(** ** What a read rests on *)

Section read_laws.
Context {T : Type} `{TransportSafe T} `{CryptoLaws}.
Abbreviation session := (SessionConnection.t T).

(** The request for [n] bytes at [offset]. *)
Definition chunk_read_request (s : session) (file : FileHandle.t) (offset n : Z)
    (charge id credit : Z) : client bytes :=
  from_wire (ReadRequest.encode_message (ReadRequest.direct (FileHandle.file_id file) offset n) id
    (SessionConnection.session_id s) (FileHandle.tree_id file) charge credit).

(** What a final response says of the bytes at the requested offset: its data
    with a success status, none with STATUS_END_OF_FILE. *)
Definition response_data (response : bytes) (h : Smb2Header) (n : Z) (data : bytes) : Prop :=
  (status h = Status 0 /\ 0 < len data <= n /\
     exists r, ReadResponse.decode_message response = Ok r /\ ReadResponse.data r = data) \/
  (status h = Status STATUS_END_OF_FILE /\ data = []).

(** One READ request for [n] bytes at [offset] and its accepted answer. *)
Definition chunk_read (s : session) (file : FileHandle.t) (offset n : Z) (data : bytes)
    (es : list event) : Prop :=
  0 < n /\
  exists charge id m ms response h,
    es = ESend m (Ok tt) :: received (ms ++ [response]) /\
    request_sent s (chunk_read_request s file offset n charge)
      (SessionConnection.signing_required s) id m /\
    async_answer s Command.Read (FileHandle.tree_id file) id ms response h /\
    response_data response h n data.

(** Traffic that reads [data] from [offset] on: full chunks, each starting where
    the one before it ends; after a short one, the end. *)
Inductive reads (s : session) (file : FileHandle.t) : Z -> bytes -> bool -> list event -> Prop :=
  | reads_nil offset : reads s file offset [] false []
  | reads_full offset n data es rest ended es' :
      chunk_read s file offset n data es -> len data = n ->
      reads s file (offset + n) rest ended es' ->
      reads s file offset (data ++ rest) ended (es ++ es')
  | reads_short offset n data es :
      chunk_read s file offset n data es -> len data < n ->
      reads s file offset data true es.

Lemma reads_set_connection (s : session) c file offset data ended es :
  reads (set_connection s c) file offset data ended es -> reads s file offset data ended es.
Proof.
  induction 1 as [|offset n data es rest ended es' Hc|offset n data es Hc];
    [constructor|by eapply reads_full|by eapply reads_short].
Qed.

Lemma returns_read_encode r mid sid tid charge credit :
  returns (ReadRequest.encode_message r mid sid tid charge credit).
Proof.
  assert (returns (ReadRequest.validate r)) as Hr
    by (unfold ReadRequest.validate; repeat returns_step).
  destruct (ReadRequest.validate r) as [[]|e| |] eqn:Hv; [| |done..].
  - by rewrite ReadRequest.read_request_encode_message_ok.
  - unfold ReadRequest.encode_message. by rewrite ReadRequest.read_request_encode_body_ok, Hv.
Qed.

Lemma read_limits_meets (s : session) : session_wf s ->
  meets (read_limits s) (fun '(_, size) => 0 < size < 2 ^ 32).
Proof.
  intros Hs. unfold read_limits, SessionConnection.negotiated.
  destruct (Connection.negotiated _) as [p|] eqn:Hp; [|done]. cbn [ok_or obind].
  apply (Connection.wf_negotiated _ Hs) in Hp as (? & ? & ?).
  rewrite try_from_ok by (unfold usize_max; lia). cbn. lia.
Qed.

Lemma read_request_eq (s : session) file offset n charge id credit :
  returns (read_request s file offset n charge id credit) /\
  forall m, read_request s file offset n charge id credit = Ok m ->
    chunk_read_request s file offset n charge id credit = Ok m.
Proof.
  unfold read_request. destruct (try_from u32_max n) as [l|] eqn:E; [|done].
  apply try_from_some in E as [-> _]. cbn [ok_or obind].
  split; [apply returns_from_wire, returns_read_encode|done].
Qed.

Lemma read_status_meets h :
  meets (read_status h) (fun more =>
    status h = Status (if more : bool then 0 else STATUS_END_OF_FILE)).
Proof.
  unfold read_status. destruct (status h) as [q r|v]; [done|].
  destruct (Z.eqb_spec v 0) as [->|]; [done|].
  by destruct (Z.eqb_spec v STATUS_END_OF_FILE) as [->|].
Qed.

Lemma read_chunk_step (s : session) patience file remaining offset options :
  session_wf s -> 0 < remaining ->
  runs (read_chunk patience file remaining offset options) s (fun r s' =>
    exists es, advances s es s' /\ (length (sends es) <= 1)%nat /\
    match r with
    | Ok (n, data) => n <= remaining /\ chunk_read s file offset n (default [] data) es /\
        forall d, data = Some d -> d <> []
    | _ => True
    end).
Proof.
  intros Hs Hrem. unfold read_chunk. run_step. cbn [id].
  assert (forall (e : ClientError), exists es, advances s es s /\ (length (sends es) <= 1)%nat /\ True)
    as Herr by (intros e; exists []; split; [by apply advances_refl|cbn; split; [lia|done]]).
  pose proof (read_limits_meets s Hs) as Hlim.
  apply runs_bind_lift; [by eapply meets_returns|by intros; apply Herr|intros lim Elim].
  eapply meets_ok in Hlim; [|exact Elim]. destruct lim as [multi size].
  pose proof (available_credits_meets "READ" s Hs) as Hav.
  apply runs_bind_lift; [by eapply meets_returns|by intros; apply Herr|intros available Eav].
  eapply meets_ok in Hav as [Hu Hpos]; [|exact Eav].
  pose proof (credit_limited_payload_pos multi available Hu Hpos). cbv zeta.
  set (n := Z.min _ _).
  assert (0 < n /\ n <= remaining /\ n <= credit_limited_payload multi available)
    as (Hn & Hnr & Hcl) by lia.
  destruct (Z.eqb_spec n 0); [lia|].
  apply runs_bind_lift; [apply returns_credit_charge|by intros; apply Herr|intros charge Ech].
  apply (credit_charge_affordable _ _ available) in Ech as (Hch & _); [|done|lia].
  eapply runs_mono.
  - apply (async_request_runs s _ _ (fun response h '(n', data) => n' = n /\
      response_data response h n (default [] data) /\ (forall d, data = Some d -> d <> []))
      _ _ _ _ _ Hs (proj1 Hch)).
    + intros id hint. apply read_request_eq.
    + intros response h s' _. pose proof (read_status_meets h) as Hst.
      run_bind more Emore; [by eapply meets_returns|]. eapply meets_ok in Hst; [|exact Emore].
      destruct more; cbn [negb]; [|by split; [|split; [|split; [right|]]]].
      run_bind r Hr%from_wire_ok;
        [apply returns_from_wire, ReadResponse.read_response_returns_decode_message|].
      pose proof (ReadResponse.read_response_decode_message_inv _ _ Hr)
        as (_ & _ & _ & _ & _ & _ & Hlen & _).
      destruct (Z.ltb_spec n (len (ReadResponse.data r))); [by run_step|].
      destruct (is_empty _) eqn:He; [apply is_empty_true in He; rewrite He in Hlen; by destruct Hlen|].
      unfold runs, sret. split; [done|]. split; [done|]. split.
      * left. split; [done|]. split; [cbn; lia|by exists r].
      * intros d [= <-] Hnil. by rewrite Hnil in He.
  - intros r s' (es & Ha & Hl & Hr). exists es. split; [done|]. split; [done|].
    destruct r as [[n' data]| | |]; [|done..].
    destruct Hr as (id & m & ms & response & h & -> & Hreq & Hans & -> & Hd & Hne).
    split; [done|]. split; [|done]. split; [done|].
    destruct Hreq as (hint & plain & no_key & Henc%read_request_eq & Hsign).
    exists charge, id, m, ms, response, h. split; [done|].
    split; [by exists hint, plain, no_key|]. by split.
Qed.

Lemma response_data_len response h n data : 0 < n -> response_data response h n data -> len data <= n.
Proof. intros ? [(_ & ? & _)|[_ ->]]; [lia|]. rewrite len_nil. lia. Qed.

(** What a read that asked for [target] more bytes has done. *)
Definition read_result (s : session) (file : FileHandle.t) (offset target : Z) (prefix : bytes)
    (r : client bytes) (s' : session) : Prop :=
  exists es, advances s es s' /\
  match r with
  | Ok out => exists data ended, out = prefix ++ data /\ reads s file offset data ended es /\
      len data <= target /\ (ended = false -> len data = target)
  | _ => exists data es1 es2, es = es1 ++ es2 /\ reads s file offset data false es1 /\
      (length (sends es2) <= 1)%nat
  end.

Lemma read_loop_runs patience file options target fuel :
  forall out offset s, session_wf s -> len out <= target -> target - len out <= Z.of_nat fuel ->
  runs (read_loop fuel patience file target offset options out) s
    (read_result s file offset (target - len out) out).
Proof.
  induction fuel as [|fuel IH]; intros out offset s Hs Hout Hf; cbn [read_loop].
  all: destruct (Z.ltb_spec (len out) target); [|
    unfold runs, sret; exists []; split; [by apply advances_refl|]; exists [], false;
    rewrite app_nil_r, len_nil; split; [done|]; split; [constructor|]; lia].
  1: lia.
  apply runs_bind. eapply runs_mono; [apply read_chunk_step; [done|lia]|].
  intros r s1 (es & Ha & Hl & Hr).
  assert (forall (e : ClientError), read_result s file offset (target - len out) out (Err e) s1) as Herr.
  { intros e. exists es. split; [done|]. exists [], [], es. split; [done|]. split; [constructor|done]. }
  destruct r as [[n [data|]]|e| |]; [| |apply Herr|done..]; destruct Hr as (Hn & Hread & Hne).
  2:{ unfold runs, sret. exists es. split; [done|]. exists [], true. rewrite app_nil_r, len_nil.
      split; [done|]. split; [|split; [lia|done]]. eapply reads_short; [exact Hread|].
      destruct Hread as [? _]. rewrite len_nil. done. }
  change (default [] (Some data)) with data in Hread. specialize (Hne data eq_refl). cbv zeta.
  assert (0 < len data <= n) as Hd.
  { destruct Hread as (? & ? & ? & ? & ? & ? & ? & _ & _ & _ & [(_ & ? & _)|[_ ?]]); done. }
  apply runs_bind_lift; [auto with returns|by intros|intros k Hk%ok_or_ok%try_from_some].
  destruct Hk as [-> _].
  apply runs_bind_lift; [auto with returns|by intros|intros o Ho%ok_or_ok%checked_add_some].
  destruct Ho as [-> _].
  destruct (Z.ltb_spec (len data) n).
  { unfold runs, sret. exists es. split; [done|]. exists data, true.
    split; [done|]. split; [by eapply reads_short|]. split; [lia|done]. }
  assert (n = len data) as -> by lia.
  eapply runs_mono; [apply IH; [apply Ha|len_lia|len_lia]|].
  intros r s2 (es2 & Ha2 & Hr2). exists (es ++ es2). split; [by eapply advances_app|].
  rewrite (advances_session _ _ _ Ha) in Hr2. rewrite len_app in Hr2. destruct r as [o|e| |].
  1:{ destruct Hr2 as (more & ended & -> & Hmore%reads_set_connection & Hlm & He).
      exists (data ++ more), ended. rewrite <- app_assoc, len_app. split; [done|].
      split; [by eapply reads_full|]. split; [lia|]. intros E%He. lia. }
  all: destruct Hr2 as (more & es3 & es4 & -> & Hmore%reads_set_connection & Hl4);
    exists (data ++ more), (es ++ es3), es4; rewrite <- app_assoc; split; [done|];
    split; [by eapply reads_full|done].
Qed.

Lemma read_target_len_meets file offset length :
  FileHandle.length_ file <=? offset = false ->
  meets (read_target_len file offset length) (fun n =>
    n = Z.min length (FileHandle.length_ file - offset)).
Proof.
  intros Ho%Z.leb_gt. unfold read_target_len.
  destruct (try_from u64_max length) as [l|] eqn:E; [|done].
  apply try_from_some in E as [-> _]. cbn [ok_or obind]. unfold sub_or_panic.
  rewrite (proj2 (Z.leb_le offset _)) by lia. cbn [obind].
  destruct (try_from usize_max _) as [n|] eqn:En; [|done].
  by apply try_from_some in En as [-> _].
Qed.
End read_laws.

Lemma read_at_runs {T} `{TransportSafe T} `{CryptoLaws} (s : SessionConnection.t T)
    (patience : nat) (file : FileHandle.t) (offset length : Z) (options : ReadOptions.t)
    (Hs : session_wf s) (Hlength : 0 <= length) :
  runs (read_at_with_options patience file offset length options) s
    (read_result s file offset (Z.max 0 (Z.min length (FileHandle.length_ file - offset))) []).
Proof.
  unfold read_at_with_options. destruct (_ || _) eqn:Hz.
  { exists []. split; [by apply advances_refl|]. exists [], false. rewrite len_nil.
    split; [done|]. split; [constructor|].
    apply orb_true_iff in Hz as [Hz|Hz]; bool_facts; (split; [lia|intros _; lia]). }
  bool_facts. run_step. cbn [id].
  assert (forall (e : ClientError) n, read_result s file offset n [] (Err e) s) as Herr.
  { intros e n. exists []. split; [by apply advances_refl|]. exists [], [], [].
    split; [done|]. split; [constructor|cbn; lia]. }
  apply runs_bind_lift; [apply returns_ensure_session|by intros; apply Herr|intros _ _].
  pose proof (read_target_len_meets file offset length ltac:(by apply Z.leb_gt)) as Ht.
  apply runs_bind_lift; [by eapply meets_returns|by intros; apply Herr|intros n En].
  eapply meets_ok in Ht as ->; [|exact En].
  rewrite Z.max_r by lia. pose proof (read_loop_runs patience file options
    (Z.min length (FileHandle.length_ file - offset)) (Z.to_nat (Z.min length (FileHandle.length_ file - offset)))
    [] offset s Hs) as Hloop.
  rewrite len_nil, Z.sub_0_r in Hloop. apply Hloop; lia.
Qed.

(** C22: a positional read returns what the server sent for exactly those
    offsets, and stops short only where the server says the file ends. Against
    any server, without panicking and in at most one turn per byte: on success
    the bytes returned are the concatenated data of accepted responses to
    requests for consecutive ranges from [offset] on; there are never more than
    the requested length nor than the handle's size allows; and there are fewer
    only if the last response was short or reported the end of the file. On an
    error the requests answered so far were answered in full, and at most one
    more was sent. *)
Theorem read_at_sound {T} `{TransportSafe T} `{CryptoLaws} (s : SessionConnection.t T)
    (patience : nat) (file : FileHandle.t) (offset length : Z) (options : ReadOptions.t)
    (Hs : session_wf s) (Hlength : 0 <= length) :
  runs (read_at_with_options patience file offset length options) s
    (read_result s file offset (Z.max 0 (Z.min length (FileHandle.length_ file - offset))) []).
Proof. by apply read_at_runs. Qed.

(** Ten bytes at offset 995 of a file of 1000: five are asked for, the server
    answers three and then the end. *)
Definition read_response (id : Z) (data : bytes) : bytes :=
  sample_header Command.Read 0 id (Sync 0 5)
  ++ le_bytes 2 17 ++ [x50; x00] ++ le_bytes 4 (len data) ++ le_bytes 4 0 ++ le_bytes 4 0 ++ data.

Lemma read_at_sound_witness :
  exists (s' : SessionConnection.t TcpTransport.t) es,
    advances (sample_session [read_response 1 [x0a; x0b; x0c]]) es s' /\
    @reads _ toy_crypto (sample_session [read_response 1 [x0a; x0b; x0c]]) sample_file 995
      [x0a; x0b; x0c] true es.
Proof.
  destruct (runs_ended _ _ _ (fun out _ => bool_decide (out = [x0a; x0b; x0c]))
      (@read_at_sound _ _ _ toy_crypto toy_laws (sample_session [read_response 1 [x0a; x0b; x0c]])
         4 sample_file 995 10 ReadOptions.default (sample_session_wf _) ltac:(done)))
    as (out & s' & (es & Ha & data & ended & -> & Hreads & Hl & He) & Hout%bool_decide_eq_true);
    [vm_compute; reflexivity|].
  cbn in Hout. subst data. destruct ended; [exists s', es; split; [exact Ha|exact Hreads]|].
  by specialize (He eq_refl).
Defined.
