(* ===== verification/PipelinedRead.v ===== *)
(** * READ, several requests in flight

    [crates/smb-client/src/read.rs] ([read_at_pipelined_with_stats]): a
    scheduler that keeps several READ requests outstanding, matches responses to
    requests through a table of MessageIds and reassembles the data in file
    order. *)
From S2P Require Import Prelude WireError Utf16 Frame Header Create ReadWrite Negotiate.
From S2P Require Import Client Credits MessageIds AsyncResponse Transport Signing Connection.
From S2P Require Import Auth Session Exchange Tree Files Write Read.

Definition DEFAULT_PIPELINE_CHUNK_SIZE : Z := 256 * 1024.
Definition DEFAULT_MAX_IN_FLIGHT : Z := 4.

Module PipelinedReadOptions.
Record t : Type := mk { chunk_size : Z; max_in_flight : Z; credit_request : Z }.
Definition default : t :=
  {| chunk_size := DEFAULT_PIPELINE_CHUNK_SIZE; max_in_flight := DEFAULT_MAX_IN_FLIGHT;
     credit_request := 32 |}.
End PipelinedReadOptions.

Module PipelinedReadStats.
Record t : Type := mk {
  requests_sent : Z; responses_completed : Z; peak_in_flight : Z; credit_stalls : Z
}.
Definition default : t := mk 0 0 0 0.
End PipelinedReadStats.

Module PipelinedReadResult.
Record t : Type := mk { data : bytes; stats : PipelinedReadStats.t }.
End PipelinedReadResult.

Module PendingRead.
Record t : Type := mk { position : Z; chunk_len : Z; async_state : AsyncResponseState.t }.
End PendingRead.

Module OutstandingReads.
Abbreviation t := (gmap Z PendingRead.t).

Definition length (reads : t) : Z := Z.of_nat (size reads).
Definition is_empty (reads : t) : bool := bool_decide (reads = ∅).

Definition insert (message_id : Z) (request : PendingRead.t) (reads : t) : client t :=
  if bool_decide (is_Some (reads !! message_id))
  then Err (Protocol "pipelined READ reused an outstanding MessageId")
  else Ok (<[message_id := request]> reads).

Definition get_mut (message_id : Z) (reads : t) : client PendingRead.t :=
  ok_or (reads !! message_id) (Protocol "pipelined READ response MessageId is not outstanding").

Definition finish (message_id : Z) (reads : t) : client (PendingRead.t * t) :=
  let! request := ok_or (reads !! message_id)
    (Protocol "pipelined READ received a duplicate or unknown final response") in
  Ok (request, delete message_id reads).

Lemma length_empty : length ∅ = 0.
Proof. done. Qed.

Lemma outstanding_is_empty_true (reads : t) : is_empty reads = true <-> reads = ∅.
Proof. apply bool_decide_eq_true. Qed.

Lemma returns_insert id request reads : returns (insert id request reads).
Proof. unfold insert. by destruct (bool_decide _). Qed.

Lemma insert_ok id request reads reads' :
  insert id request reads = Ok reads' ->
  reads !! id = None /\ reads' = <[id := request]> reads /\ length reads' = length reads + 1.
Proof.
  unfold insert. destruct (bool_decide _) eqn:E; [done|]. apply bool_decide_eq_false in E.
  apply eq_None_not_Some in E. intros Hr. apply Ok_inj in Hr as <-. split; [done|]. split; [done|].
  unfold length. rewrite (map_size_insert_None id request reads) by done. apply Nat2Z.inj_succ.
Qed.

Lemma length_update (reads : t) id request :
  is_Some (reads !! id) -> length (<[id := request]> reads) = length reads.
Proof. intros Ho. unfold length. by rewrite (map_size_insert_Some id request reads). Qed.

Lemma length_delete (reads : t) id :
  is_Some (reads !! id) -> length (delete id reads) = length reads - 1.
Proof.
  intros Ho. unfold length. rewrite (map_size_delete_Some id reads) by done.
  apply Nat2Z.inj_pred, Nat.neq_0_lt_0. intros Hz%map_size_empty_inv.
  rewrite Hz in Ho. by destruct Ho.
Qed.
End OutstandingReads.

(** The local variables of the scheduler. *)
Module Pipeline.
Record t : Type := mk {
  outstanding : OutstandingReads.t;
  completed : list (option bytes);
  scheduled_bytes : Z;
  short_response_at : option Z;
  first_server_error : option Z;
  stats : PipelinedReadStats.t
}.
Definition new : t := mk ∅ [] 0 None None PipelinedReadStats.default.
End Pipeline.

(** [short_response_at.map_or(position, |current| current.min(position))]. *)
Definition short_at (current : option Z) (position : Z) : option Z :=
  Some (match current with Some current => Z.min current position | None => position end).

(** [data] of a final response, with the two flags it may set. *)
Definition response_outcome (response_message : bytes) (header : Smb2Header)
    (position chunk_len : Z) (short_response_at first_server_error : option Z) :
    client (bytes * option Z * option Z) :=
  match status header with
  | Status s =>
      if s =? 0 then
        if bool_decide (is_Some first_server_error)
        then Ok ([], short_response_at, first_server_error) else
        let! response := from_wire (ReadResponse.decode_message response_message) in
        if chunk_len <? len (ReadResponse.data response)
        then Err (Protocol "READ response returned more data than requested") else
        Ok (ReadResponse.data response,
            if len (ReadResponse.data response) <? chunk_len
            then short_at short_response_at position else short_response_at,
            first_server_error)
      else if s =? STATUS_END_OF_FILE then
        Ok ([], if bool_decide (first_server_error = None)
                then short_at short_response_at position else short_response_at,
            first_server_error)
      else
        Ok ([], short_response_at,
            if bool_decide (first_server_error = None) then Some s else first_server_error)
  | ChannelSequence _ _ => Err (Protocol "READ response used request header form")
  end.

(** [completed[position].replace(data)], refused when the slot was full. *)
Definition complete (completed : list (option bytes)) (position : Z) (data : bytes) :
    client (list (option bytes)) :=
  match completed !! Z.to_nat position with
  | None => Panic
  | Some (Some _) => Err (Protocol "pipelined READ completed the same output slot twice")
  | Some None => Ok (<[Z.to_nat position := Some data]> completed)
  end.

(** [debug_assert_eq!] of the scheduler. *)
Definition debug_assert (b : bool) : client unit := if b then Ok tt else Panic.

(** The concatenation of the slots that count. *)
Fixpoint assemble (slots : list (option bytes)) (out : bytes) : client bytes :=
  match slots with
  | [] => Ok out
  | slot :: slots =>
      let! data := ok_or slot
        (Protocol "pipelined READ did not receive every required response") in
      assemble slots (out ++ data)
  end.

Section pipeline.
Context {T : Type} `{Transport T} `{Crypto}.
Abbreviation session := (SessionConnection.t T).

Section scheduler.
Context (file : FileHandle.t) (offset target : Z) (options : PipelinedReadOptions.t).
Context (supports_multi_credit : bool) (max_read_size : Z).

(** The offset of the next request is computed between the allocation of its
    MessageId and its encoding. *)
Definition pipelined_request (s : session) (scheduled_bytes chunk_len charge : Z)
    (message_id credit_request : Z) : client bytes :=
  let! scheduled := ok_or (try_from u64_max scheduled_bytes)
    (Protocol "READ offset conversion overflow") in
  let! request_offset := ok_or (checked_add u64_max offset scheduled)
    (Protocol "READ offset overflow") in
  read_request s file request_offset chunk_len charge message_id credit_request.

(** One turn of the inner [while] loop; [None] when it stalls for credit. *)
Definition schedule_one (p : Pipeline.t) : st session (option Pipeline.t) :=
  do! s := sget id in
  match Connection.available_credits (SessionConnection.connection s) with
  | None => slift (Err (Protocol "SMB credit window is not initialized"))
  | Some available =>
      if available =? 0 then sret None else
      let credit_limited := credit_limited_payload supports_multi_credit available in
      let chunk_len :=
        Z.min (Z.min (Z.min (target - Pipeline.scheduled_bytes p)
                            (PipelinedReadOptions.chunk_size options)) max_read_size)
              credit_limited in
      if chunk_len =? 0 then sret None else
      do! charge := slift (read_credit_charge supports_multi_credit chunk_len) in
      do! message_id := send_request charge (PipelinedReadOptions.credit_request options)
        (pipelined_request s (Pipeline.scheduled_bytes p) chunk_len charge)
        (SessionConnection.signing_required s)
        "READ requires signing but the session has no signing key" in
      let position := len (Pipeline.completed p) in
      let completed := Pipeline.completed p ++ [None] in
      do! outstanding := slift (OutstandingReads.insert message_id
        (PendingRead.mk position chunk_len AsyncResponseState.default) (Pipeline.outstanding p)) in
      do! scheduled := slift (add_or_panic usize_max (Pipeline.scheduled_bytes p) chunk_len) in
      let stats := Pipeline.stats p in
      do! requests_sent :=
        slift (add_or_panic usize_max (PipelinedReadStats.requests_sent stats) 1) in
      let stats := PipelinedReadStats.mk requests_sent
        (PipelinedReadStats.responses_completed stats)
        (Z.max (PipelinedReadStats.peak_in_flight stats) (OutstandingReads.length outstanding))
        (PipelinedReadStats.credit_stalls stats) in
      sret (Some (Pipeline.mk outstanding completed scheduled (Pipeline.short_response_at p)
                    (Pipeline.first_server_error p) stats))
  end.

(** The condition of the inner loop. *)
Definition may_schedule (p : Pipeline.t) : bool :=
  bool_decide (Pipeline.first_server_error p = None)
  && bool_decide (Pipeline.short_response_at p = None)
  && (OutstandingReads.length (Pipeline.outstanding p) <? PipelinedReadOptions.max_in_flight options)
  && (Pipeline.scheduled_bytes p <? target).

(** The inner loop, with whether it stalled for credit. A turn schedules at
    least one byte, so the bytes not scheduled yet are fuel enough. *)
Fixpoint fill (fuel : nat) (p : Pipeline.t) : st session (bool * Pipeline.t) :=
  if may_schedule p then
    match fuel with
    | O => slift Panic
    | S fuel =>
        do! next := schedule_one p in
        match next with
        | None => sret (true, p)
        | Some p => fill fuel p
        end
    end
  else sret (false, p).

(** Taking one response: of any outstanding request, in whatever order. *)
Definition receive_one (p : Pipeline.t) : st session Pipeline.t :=
  do! response_message := connected Connection.receive in
  do! header := slift (from_wire (decode_header response_message)) in
  do! s := sget id in
  do! pending := slift (OutstandingReads.get_mut (message_id header) (Pipeline.outstanding p)) in
  let '(phase, async_state) :=
    AsyncResponseState.validate Command.Read (FileHandle.tree_id file)
      (SessionConnection.session_id s) (message_id header) header
      (PendingRead.async_state pending) in
  do! phase := slift phase in
  let position := PendingRead.position pending in
  let chunk_len := PendingRead.chunk_len pending in
  let outstanding :=
    <[message_id header := PendingRead.mk position chunk_len async_state]> (Pipeline.outstanding p) in
  do! _ := connected (Connection.grant_credits (credits header)) in
  do! _ := slift (verify_response s header
    (requires_signature phase (SessionConnection.signing_required s))
    "server signed READ without an available signing key"
    "server omitted a required READ signature" response_message) in
  if bool_decide (phase = InterimPending)
  then sret (Pipeline.mk outstanding (Pipeline.completed p) (Pipeline.scheduled_bytes p)
               (Pipeline.short_response_at p) (Pipeline.first_server_error p) (Pipeline.stats p)) else
  do! '(finished, outstanding) := slift (OutstandingReads.finish (message_id header) outstanding) in
  do! _ := slift (debug_assert (PendingRead.position finished =? position)) in
  do! _ := slift (debug_assert (PendingRead.chunk_len finished =? chunk_len)) in
  do! '(data, short_response_at, first_server_error) :=
    slift (response_outcome response_message header position chunk_len
             (Pipeline.short_response_at p) (Pipeline.first_server_error p)) in
  do! completed := slift (complete (Pipeline.completed p) position data) in
  let stats := Pipeline.stats p in
  do! responses_completed :=
    slift (add_or_panic usize_max (PipelinedReadStats.responses_completed stats) 1) in
  let stats := PipelinedReadStats.mk (PipelinedReadStats.requests_sent stats) responses_completed
    (PipelinedReadStats.peak_in_flight stats) (PipelinedReadStats.credit_stalls stats) in
  sret (Pipeline.mk outstanding completed (Pipeline.scheduled_bytes p) short_response_at
          first_server_error stats).

Definition count_stall (stalled : bool) (p : Pipeline.t) : client Pipeline.t :=
  if stalled && negb (OutstandingReads.is_empty (Pipeline.outstanding p)) then
    let stats := Pipeline.stats p in
    let! credit_stalls := add_or_panic usize_max (PipelinedReadStats.credit_stalls stats) 1 in
    Ok (Pipeline.mk (Pipeline.outstanding p) (Pipeline.completed p) (Pipeline.scheduled_bytes p)
          (Pipeline.short_response_at p) (Pipeline.first_server_error p)
          (PipelinedReadStats.mk (PipelinedReadStats.requests_sent stats)
             (PipelinedReadStats.responses_completed stats)
             (PipelinedReadStats.peak_in_flight stats) credit_stalls))
  else Ok p.

(** The outer loop. A server may send any number of interim responses, so it
    may not end; [patience] is how many responses it is followed for. *)
Fixpoint pipeline_loop (patience : nat) (p : Pipeline.t) : st session Pipeline.t :=
  do! '(stalled_for_credit, p) :=
    fill (Z.to_nat (target - Pipeline.scheduled_bytes p)) p in
  do! p := slift (count_stall stalled_for_credit p) in
  if OutstandingReads.is_empty (Pipeline.outstanding p) then
    match Pipeline.first_server_error p with
    | Some status => slift (Err (ServerStatus status))
    | None =>
        if bool_decide (is_Some (Pipeline.short_response_at p))
           || (target <=? Pipeline.scheduled_bytes p)
        then sret p
        else slift (Err (Protocol "SMB connection exhausted credits with no outstanding READ able to restore them"))
    end
  else
    match patience with
    | O => slift OutOfFuel
    | S patience => do! p := receive_one p in pipeline_loop patience p
    end.

End scheduler.

Definition read_at_pipelined_with_stats (patience : nat) (file : FileHandle.t) (offset length : Z)
    (options : PipelinedReadOptions.t) : st session PipelinedReadResult.t :=
  if (length =? 0) || (FileHandle.length_ file <=? offset)
  then sret (PipelinedReadResult.mk [] PipelinedReadStats.default) else
  if PipelinedReadOptions.chunk_size options =? 0
  then slift (Err (Protocol "pipelined READ chunk_size must be greater than zero")) else
  if PipelinedReadOptions.max_in_flight options =? 0
  then slift (Err (Protocol "pipelined READ max_in_flight must be greater than zero")) else
  do! s := sget id in
  do! _ := slift (ensure_session s) in
  do! target := slift (read_target_len file offset length) in
  do! '(supports_multi_credit, max_read_size) := slift (read_limits s) in
  do! p := pipeline_loop file offset target options supports_multi_credit max_read_size patience
             Pipeline.new in
  let take_count :=
    match Pipeline.short_response_at p with
    | Some position => saturating_add usize_max position 1
    | None => len (Pipeline.completed p)
    end in
  do! out := slift (assemble (take (Z.to_nat take_count) (Pipeline.completed p)) []) in
  sret (PipelinedReadResult.mk out (Pipeline.stats p)).

Definition read_at_pipelined_with_options (patience : nat) (file : FileHandle.t)
    (offset length : Z) (options : PipelinedReadOptions.t) : st session bytes :=
  do! result := read_at_pipelined_with_stats patience file offset length options in
  sret (PipelinedReadResult.data result).

Definition read_at_pipelined (patience : nat) (file : FileHandle.t) (offset length : Z) :
    st session bytes :=
  read_at_pipelined_with_options patience file offset length PipelinedReadOptions.default.

End pipeline.

(** ** The invariant of the scheduler *)

Section pipeline_laws.
Context {T : Type} `{TransportSafe T} `{CryptoLaws}.
Abbreviation session := (SessionConnection.t T).

(** The request for [n] bytes at [offset] under MessageId [id] was sent. *)
Definition requested (s : session) (file : FileHandle.t) (es : list event) (offset n id : Z) : Prop :=
  exists charge m, ESend m (Ok tt) ∈ es /\
    request_sent s (chunk_read_request s file offset n charge)
      (SessionConnection.signing_required s) id m.

(** A response was received and accepted as the final one of [id]. *)
Definition answered (s : session) (file : FileHandle.t) (es : list event) (id : Z)
    (response : bytes) (h : Smb2Header) : Prop :=
  EReceive (Ok response) ∈ es /\ decode_header response = Ok h /\
  (exists self self', AsyncResponseState.validate Command.Read (FileHandle.tree_id file)
     (SessionConnection.session_id s) id h self = (Ok Final, self')) /\
  signature_accepted s (SessionConnection.signing_required s) response h.

(** Data pieced together in file order from answers that arrived in any order:
    full chunks, and after a short one the end. *)
Inductive assembled (s : session) (file : FileHandle.t) (es : list event) :
    Z -> bytes -> bool -> Prop :=
  | assembled_nil offset : assembled s file es offset [] false
  | assembled_full offset n id response h data rest ended :
      requested s file es offset n id -> answered s file es id response h ->
      response_data response h n data -> len data = n ->
      assembled s file es (offset + n) rest ended ->
      assembled s file es offset (data ++ rest) ended
  | assembled_short offset n id response h data :
      requested s file es offset n id -> answered s file es id response h ->
      response_data response h n data -> len data < n ->
      assembled s file es offset data true.

Lemma requested_app s file es es' offset n id :
  requested s file es offset n id -> requested s file (es ++ es') offset n id.
Proof. intros (charge & m & Hm & Hr). exists charge, m. split; [apply elem_of_app; by left|done]. Qed.
Lemma answered_app s file es es' id response h :
  answered s file es id response h -> answered s file (es ++ es') id response h.
Proof. intros [Hin Hr]. split; [apply elem_of_app; by left|done]. Qed.

(** The requests sent so far, in file order: MessageId and length of each. *)
Definition plan_bytes (plan : list (Z * Z)) : Z := foldr (fun q => Z.add q.2) 0 plan.

Lemma plan_bytes_app p q : plan_bytes (p ++ q) = plan_bytes p + plan_bytes q.
Proof. unfold plan_bytes. induction p as [|[id n] p IH]; cbn; [done|]. rewrite IH. lia. Qed.

Lemma plan_bytes_length plan :
  Forall (fun q => 0 < q.2) plan -> Z.of_nat (length plan) <= plan_bytes plan.
Proof. induction 1; cbn [plan_bytes foldr length] in *; [done|]. unfold plan_bytes in *. lia. Qed.

Section invariant.
Context (s : session) (file : FileHandle.t) (offset target : Z) (options : PipelinedReadOptions.t).

(** What is known of one slot: its request is outstanding, or it was answered,
    and as long as no server error was seen a short answer is remembered. *)
Definition slot_ok (p : Pipeline.t) (es : list event) (i : nat) (id n : Z)
    (slot : option bytes) : Prop :=
  match slot with
  | None => exists st, Pipeline.outstanding p !! id = Some (PendingRead.mk (Z.of_nat i) n st)
  | Some data => exists response h, answered s file es id response h /\
      (Pipeline.first_server_error p = None ->
         response_data response h n data /\
         (len data < n -> exists k, Pipeline.short_response_at p = Some k /\ k <= Z.of_nat i))
  end.

Record pipeline_inv (p : Pipeline.t) (es : list event) (s' : session) (plan : list (Z * Z)) : Prop := {
  inv_advances : advances s es s';
  inv_length : length (Pipeline.completed p) = length plan;
  inv_scheduled : Pipeline.scheduled_bytes p = plan_bytes plan;
  inv_target : plan_bytes plan <= target;
  inv_positive : Forall (fun q => 0 < q.2) plan;
  inv_requested : forall i id n, plan !! i = Some (id, n) ->
    requested s file es (offset + plan_bytes (take i plan)) n id;
  inv_slots : forall i id n slot, plan !! i = Some (id, n) ->
    Pipeline.completed p !! i = Some slot -> slot_ok p es i id n slot;
  inv_outstanding : forall id pr, Pipeline.outstanding p !! id = Some pr ->
    exists i, PendingRead.position pr = Z.of_nat i /\
      plan !! i = Some (id, PendingRead.chunk_len pr) /\ Pipeline.completed p !! i = Some None;
  inv_nodup : NoDup plan.*1;
  inv_ids : Forall (fun id => id < Connection.message_ids (SessionConnection.connection s')) plan.*1;
  inv_short : forall k, Pipeline.short_response_at p = Some k -> 0 <= k /\
    exists id n data, plan !! Z.to_nat k = Some (id, n) /\
      Pipeline.completed p !! Z.to_nat k = Some (Some data) /\ len data < n;
  inv_sent : PipelinedReadStats.requests_sent (Pipeline.stats p) = Z.of_nat (length plan);
  inv_completed : PipelinedReadStats.responses_completed (Pipeline.stats p)
    + OutstandingReads.length (Pipeline.outstanding p) = Z.of_nat (length plan);
  inv_sends : length (sends es) = length plan;
  inv_in_flight : OutstandingReads.length (Pipeline.outstanding p)
    <= PipelinedReadOptions.max_in_flight options;
  inv_peak : PipelinedReadStats.peak_in_flight (Pipeline.stats p)
    <= PipelinedReadOptions.max_in_flight options
}.

Context (Hs : session_wf s) (Htarget : target <= usize_max).
Context (Hflight : 0 < PipelinedReadOptions.max_in_flight options).

Lemma pipeline_inv_new : 0 <= target -> pipeline_inv Pipeline.new [] s [].
Proof.
  intros. split; cbn; try done; try by apply advances_refl.
  all: try constructor 1. all: rewrite ?OutstandingReads.length_empty; lia.
Qed.

(** The connection moved on, nothing was sent. *)
Lemma pipeline_inv_advances p es s1 plan es' s2 :
  pipeline_inv p es s1 plan -> advances s1 es' s2 -> sends es' = [] ->
  pipeline_inv p (es ++ es') s2 plan.
Proof.
  intros [] Ha Hno. split; try done.
  - by eapply advances_app.
  - intros. by apply requested_app; auto.
  - intros i id n slot Hp Hc. specialize (inv_slots0 i id n slot Hp Hc).
    destruct slot as [data|]; [|done]. destruct inv_slots0 as (response & h & Hans & Hd).
    exists response, h. split; [by apply answered_app|done].
  - eapply Forall_impl; [done|]. intros id Hid. cbv beta in *.
    pose proof (advances_ids _ _ _ Ha). lia.
  - by rewrite sends_app, Hno, app_nil_r.
Qed.

Context (multi : bool) (max_read : Z) (Hread : 0 < max_read).
Context (Hchunk : 0 < PipelinedReadOptions.chunk_size options) (Hoffset : 0 <= offset).

Lemma pipelined_request_eq (s1 : session) scheduled n charge id credit :
  0 <= scheduled ->
  returns (pipelined_request file offset s1 scheduled n charge id credit) /\
  forall m, pipelined_request file offset s1 scheduled n charge id credit = Ok m ->
    chunk_read_request s1 file (offset + scheduled) n charge id credit = Ok m.
Proof.
  intros ?. unfold pipelined_request. destruct (try_from u64_max scheduled) as [w|] eqn:Ew; [|done].
  apply try_from_some in Ew as [-> _]. cbn [ok_or obind].
  destruct (checked_add u64_max offset scheduled) as [o|] eqn:Eo; [|done].
  apply checked_add_some in Eo as [-> _]. apply read_request_eq.
Qed.

(** A new entry at the end of the plan. *)
Lemma pipeline_inv_schedule p es s1 plan id n m s2 charge outstanding :
  pipeline_inv p es s1 plan -> advances s (es ++ [ESend m (Ok tt)]) s2 ->
  0 < n -> plan_bytes plan + n <= target ->
  OutstandingReads.length (Pipeline.outstanding p) < PipelinedReadOptions.max_in_flight options ->
  request_sent s (chunk_read_request s file (offset + plan_bytes plan) n charge)
    (SessionConnection.signing_required s) id m ->
  Connection.message_ids (SessionConnection.connection s1) <= id
    < Connection.message_ids (SessionConnection.connection s2) ->
  OutstandingReads.insert id (PendingRead.mk (len (Pipeline.completed p)) n AsyncResponseState.default)
    (Pipeline.outstanding p) = Ok outstanding ->
  pipeline_inv
    (Pipeline.mk outstanding (Pipeline.completed p ++ [None]) (Pipeline.scheduled_bytes p + n)
       (Pipeline.short_response_at p) (Pipeline.first_server_error p)
       (PipelinedReadStats.mk (PipelinedReadStats.requests_sent (Pipeline.stats p) + 1)
          (PipelinedReadStats.responses_completed (Pipeline.stats p))
          (Z.max (PipelinedReadStats.peak_in_flight (Pipeline.stats p))
             (OutstandingReads.length outstanding))
          (PipelinedReadStats.credit_stalls (Pipeline.stats p))))
    (es ++ [ESend m (Ok tt)]) s2 (plan ++ [(id, n)]).
Proof.
  intros [] Ha Hn Hfit Hroom Hreq Hid Hins.
  apply OutstandingReads.insert_ok in Hins as (Hnone & -> & Hlen).
  assert (len (Pipeline.completed p) = Z.of_nat (length plan)) as Hpos by (unfold len; by rewrite inv_length0).
  assert (forall i q, (plan ++ [(id, n)]) !! i = Some q ->
            plan !! i = Some q \/ i = length plan /\ q = (id, n)) as Hlookup.
  { intros i q [Hq|[Hq Hi]]%lookup_app_Some; [by left|right].
    apply list_lookup_singleton_Some in Hi as [? <-]. split; [lia|done]. }
  split; cbn; try done.
  - rewrite !length_app. cbn. lia.
  - rewrite plan_bytes_app, inv_scheduled0. cbn. lia.
  - rewrite plan_bytes_app. cbn. lia.
  - apply Forall_app. split; [done|by constructor].
  - intros i id' n' [Hi|[-> [= -> ->]]]%Hlookup.
    + rewrite take_app_le by (apply lookup_lt_Some in Hi; lia). by apply requested_app; auto.
    + rewrite take_app_length' by done. exists charge, m. split; [|done].
      apply elem_of_app. right. by apply list_elem_of_singleton.
  - intros i id' n' slot [Hi|[-> [= -> ->]]]%Hlookup Hc.
    + rewrite lookup_app_l in Hc by (apply lookup_lt_Some in Hi; lia).
      specialize (inv_slots0 i id' n' slot Hi Hc). destruct slot as [data|].
      * destruct inv_slots0 as (response & h & Hans & Hd). exists response, h.
        split; [by apply answered_app|done].
      * destruct inv_slots0 as [st Hst]. exists st. cbn. rewrite lookup_insert_ne; [done|].
        intros ->. congruence.
    + rewrite lookup_app_r, inv_length0, Nat.sub_diag in Hc by lia. injection Hc as <-.
      exists AsyncResponseState.default. cbn. by rewrite lookup_insert_eq, Hpos.
  - intros id' pr [[<- <-]|[Hne Hp]]%lookup_insert_Some; cbn.
    + exists (length plan). rewrite Hpos. split; [done|]. split.
      * by rewrite lookup_app_r, Nat.sub_diag by lia.
      * by rewrite lookup_app_r, inv_length0, Nat.sub_diag by lia.
    + destruct (inv_outstanding0 id' pr Hp) as (i & Hi & Hpl & Hcm). exists i.
      split; [done|]. split; by apply lookup_app_l_Some.
  - rewrite fmap_app. apply NoDup_app. split; [done|]. split; [|apply NoDup_singleton].
    intros x Hx ->%list_elem_of_singleton. rewrite Forall_forall in inv_ids0.
    specialize (inv_ids0 _ Hx). cbn in *. lia.
  - rewrite fmap_app. apply Forall_app. split; [|by constructor; [cbn; lia|]].
    eapply Forall_impl; [done|]. cbn. lia.
  - intros k Hk. destruct (inv_short0 k Hk) as (? & id' & n' & data & Hp & Hc & Hlt).
    split; [done|]. exists id', n', data. split_and!; [by apply lookup_app_l_Some..|done].
  - rewrite length_app. cbn. lia.
  - rewrite length_app. cbn. lia.
  - rewrite sends_app, !length_app. cbn. lia.
  - lia.
  - lia.
Qed.

Lemma may_schedule_true p : may_schedule target options p = true ->
  Pipeline.first_server_error p = None /\ Pipeline.short_response_at p = None /\
  OutstandingReads.length (Pipeline.outstanding p) < PipelinedReadOptions.max_in_flight options /\
  Pipeline.scheduled_bytes p < target.
Proof. unfold may_schedule. intros H'. bool_facts. split_and!; try done; lia. Qed.

(** Where a pipeline may go from [p] without receiving anything. *)
Definition scheduled_from (p p' : Pipeline.t) : Prop :=
  Pipeline.short_response_at p' = Pipeline.short_response_at p /\
  Pipeline.first_server_error p' = Pipeline.first_server_error p /\
  PipelinedReadStats.credit_stalls (Pipeline.stats p')
  = PipelinedReadStats.credit_stalls (Pipeline.stats p).

Lemma schedule_one_runs p es s1 plan :
  pipeline_inv p es s1 plan -> may_schedule target options p = true ->
  runs (schedule_one file offset target options multi max_read p) s1 (fun r s2 =>
    match r with
    | Ok None => s2 = s1
    | Ok (Some p') => Pipeline.scheduled_bytes p < Pipeline.scheduled_bytes p' /\
        scheduled_from p p' /\
        exists es' plan', pipeline_inv p' (es ++ es') s2 plan'
    | _ => exists es', advances s (es ++ es') s2
    end).
Proof.
  intros Hinv (_ & _ & Hroom & Hmore)%may_schedule_true. pose proof Hinv as [].
  pose proof (plan_bytes_length plan ltac:(done)) as Hpl.
  assert (exists es', advances s (es ++ es') s1) as Herr1 by (exists []; by rewrite app_nil_r).
  unfold schedule_one. run_step. cbn [id].
  destruct (Connection.available_credits _) as [available|] eqn:Hav; [|by run_step].
  destruct (Z.eqb_spec available 0) as [|Hav0]; [done|]. cbv zeta.
  assert (u32 available) as Hu.
  { revert Hav. unfold Connection.available_credits.
    destruct (Connection.credits _) as [w|] eqn:Hw; [|done]. intros [= <-].
    by apply (Connection.wf_credits _ (advances_wf _ _ _ inv_advances0)) in Hw as [? _]. }
  pose proof (credit_limited_payload_pos multi available Hu ltac:(unfold uint in Hu; lia)).
  set (n := Z.min _ _). assert (0 < n /\ n <= target - plan_bytes plan /\
    n <= credit_limited_payload multi available) as (Hn & Hfit & Hcl) by lia.
  destruct (Z.eqb_spec n 0); [done|].
  apply runs_bind_lift; [apply returns_credit_charge|by intros|intros charge Ech].
  apply (credit_charge_affordable _ _ available) in Ech as (Hch & _); [|done|lia].
  apply runs_bind. eapply send_request_runs; [exact inv_advances0|lia| | |].
  { intros id hint. apply pipelined_request_eq. rewrite inv_scheduled0. lia. }
  2:{ intros e es' s2 Ha _. by exists es'. }
  intros id m s2 Ha Hreq Hid.
  apply runs_bind_lift; [apply OutstandingReads.returns_insert|by intros; eexists|].
  intros outstanding Hins.
  assert (request_sent s (chunk_read_request s file (offset + plan_bytes plan) n charge)
            (SessionConnection.signing_required s) id m) as Hreq'.
  { destruct Hreq as (hint & plain & no_key & Henc & Hsign). exists hint, plain, no_key.
    apply pipelined_request_eq in Henc; [|lia]. rewrite inv_scheduled0 in Henc.
    rewrite (advances_session _ _ _ inv_advances0) in Henc, Hsign. by split. }
  pose proof (pipeline_inv_schedule p es s1 plan id n m s2 charge outstanding Hinv Ha Hn
                ltac:(lia) Hroom Hreq' Hid Hins) as Hnext.
  pose proof (plan_bytes_length _ (inv_positive _ _ _ _ Hnext)) as Hnl.
  rewrite length_app, plan_bytes_app in Hnl. cbn in Hnl.
  unfold add_or_panic. rewrite (proj2 (Z.leb_le _ _)) by lia.
  apply runs_bind_lift; [done..|intros sched [= <-]].
  rewrite (proj2 (Z.leb_le _ _)) by lia.
  apply runs_bind_lift; [done..|intros sent [= <-]].
  unfold runs, sret. cbn. split; [lia|]. split; [done|]. by eexists _, _.
Qed.

Lemma fill_runs fuel : forall p es s1 plan,
  pipeline_inv p es s1 plan -> target - Pipeline.scheduled_bytes p <= Z.of_nat fuel ->
  runs (fill file offset target options multi max_read fuel p) s1 (fun r s2 =>
    match r with
    | Ok (stalled, p') => scheduled_from p p' /\
        (may_schedule target options p = false -> p' = p /\ s2 = s1) /\
        exists es' plan', pipeline_inv p' (es ++ es') s2 plan'
    | _ => may_schedule target options p = true /\ exists es', advances s (es ++ es') s2
    end).
Proof.
  induction fuel as [|fuel IH]; intros p es s1 plan Hinv Hf; cbn [fill].
  all: destruct (may_schedule target options p) eqn:Hmay; [|
    unfold runs, sret; split; [done|]; split; [done|]; exists [], plan; by rewrite app_nil_r].
  { apply may_schedule_true in Hmay. lia. }
  apply runs_bind. eapply runs_mono; [by apply (schedule_one_runs p es s1 plan)|].
  intros r s2 Hr. destruct r as [[p'|]|e| |]; try done.
  2:{ subst s2. unfold runs, sret. split; [done|]. split; [done|]. exists [], plan. by rewrite app_nil_r. }
  destruct Hr as (Hlt & (Hsh & Hfe & Hcs) & es' & plan' & Hinv').
  eapply runs_mono; [apply (IH p' _ _ _ Hinv'); lia|]. intros r s3 Hr.
  destruct r as [[stalled p'']|e| |].
  - destruct Hr as ((Hsh' & Hfe' & Hcs') & _ & es'' & plan'' & Hinv'').
    split; [split_and!; congruence|]. split; [done|]. exists (es' ++ es''), plan''. by rewrite app_assoc.
  - destruct Hr as [_ [es'' Ha]]. split; [done|]. exists (es' ++ es''). by rewrite app_assoc.
  - destruct Hr as [_ [es'' Ha]]. split; [done|]. exists (es' ++ es''). by rewrite app_assoc.
  - destruct Hr as [_ [es'' Ha]]. split; [done|]. exists (es' ++ es''). by rewrite app_assoc.
Qed.

(** ** Taking a response *)

Lemma response_outcome_meets response h position n short err :
  0 < n ->
  meets (response_outcome response h position n short err) (fun '(data, short', err') =>
    (forall e, err = Some e -> err' = Some e /\ short' = short) /\
    (err' = None -> response_data response h n data /\
       short' = if len data <? n then short_at short position else short) /\
    (short' = short \/ short' = short_at short position /\ len data < n)).
Proof.
  intros Hn. unfold response_outcome. destruct (status h) as [?|v] eqn:Est; [done|].
  destruct (Z.eqb_spec v 0) as [->|Hv0].
  - destruct err as [e|]; [rewrite bool_decide_true by done; cbn; naive_solver|].
    rewrite bool_decide_false by by intros []. apply meets_returns_bind;
      [apply returns_from_wire, ReadResponse.read_response_returns_decode_message|].
    intros r Hr%from_wire_ok.
    pose proof (ReadResponse.read_response_decode_message_inv _ _ Hr)
      as (_ & _ & _ & _ & _ & _ & Hlen & _).
    destruct (Z.ltb_spec n (len (ReadResponse.data r))); [done|]. cbn. split; [done|]. split.
    + intros _. split; [|done]. left. split; [done|]. split; [lia|by exists r].
    + destruct (Z.ltb_spec (len (ReadResponse.data r)) n); auto.
  - destruct (Z.eqb_spec v STATUS_END_OF_FILE) as [->|Hve]; cbn.
    + split; [by intros e ->; rewrite bool_decide_false by done|]. split.
      * intros ->. rewrite bool_decide_true by done. split; [by right|].
        by rewrite len_nil, (proj2 (Z.ltb_lt 0 n)).
      * destruct (bool_decide (err = None)); [right; by rewrite len_nil|by left].
    + split; [by intros e ->; rewrite bool_decide_false by done|]. split; [|by left].
      destruct err; [rewrite bool_decide_false by done|rewrite bool_decide_true by done]; done.
Qed.

(** An entry of the table whose state machine moved. *)
Lemma pipeline_inv_interim p es s1 plan id pr st :
  pipeline_inv p es s1 plan -> Pipeline.outstanding p !! id = Some pr ->
  pipeline_inv
    (Pipeline.mk
       (<[id := PendingRead.mk (PendingRead.position pr) (PendingRead.chunk_len pr) st]>
          (Pipeline.outstanding p))
       (Pipeline.completed p) (Pipeline.scheduled_bytes p) (Pipeline.short_response_at p)
       (Pipeline.first_server_error p) (Pipeline.stats p)) es s1 plan.
Proof.
  intros [] Hpr.
  assert (OutstandingReads.length
    (<[id := PendingRead.mk (PendingRead.position pr) (PendingRead.chunk_len pr) st]>
       (Pipeline.outstanding p)) = OutstandingReads.length (Pipeline.outstanding p)) as Hlen
    by (apply OutstandingReads.length_update; by eexists).
  split; cbn; try done; rewrite ?Hlen; try done.
  - intros i id' n slot Hpl Hc. specialize (inv_slots0 i id' n slot Hpl Hc).
    destruct slot as [data|]; [done|]. destruct inv_slots0 as [st' Hst]. cbn.
    destruct (decide (id' = id)) as [->|Hne].
    + rewrite Hst in Hpr. injection Hpr as <-. exists st. by rewrite lookup_insert_eq.
    + exists st'. by rewrite lookup_insert_ne.
  - intros id' pr' [[<- <-]|[Hne Hp]]%lookup_insert_Some; [|by eauto].
    destruct (inv_outstanding0 _ pr Hpr) as (i & Hi). by exists i.
Qed.

(** An entry that was answered leaves the table for its slot. *)
Lemma pipeline_inv_complete p es s1 plan id pr response h data short err completed :
  pipeline_inv p es s1 plan -> Pipeline.outstanding p !! id = Some pr ->
  answered s file es id response h ->
  response_outcome response h (PendingRead.position pr) (PendingRead.chunk_len pr)
    (Pipeline.short_response_at p) (Pipeline.first_server_error p) = Ok (data, short, err) ->
  complete (Pipeline.completed p) (PendingRead.position pr) data = Ok completed ->
  pipeline_inv
    (Pipeline.mk (delete id (Pipeline.outstanding p)) completed (Pipeline.scheduled_bytes p)
       short err
       (PipelinedReadStats.mk (PipelinedReadStats.requests_sent (Pipeline.stats p))
          (PipelinedReadStats.responses_completed (Pipeline.stats p) + 1)
          (PipelinedReadStats.peak_in_flight (Pipeline.stats p))
          (PipelinedReadStats.credit_stalls (Pipeline.stats p)))) es s1 plan.
Proof.
  intros [] Hpr Hans Hout Hcomp.
  destruct (inv_outstanding0 id pr Hpr) as (i & Hi & Hpl & Hslot).
  assert (0 < PendingRead.chunk_len pr) as Hn.
  { rewrite Forall_forall in inv_positive0.
    apply (inv_positive0 (id, PendingRead.chunk_len pr)). by eapply list_elem_of_lookup_2. }
  pose proof (response_outcome_meets response h (PendingRead.position pr) (PendingRead.chunk_len pr)
    (Pipeline.short_response_at p) (Pipeline.first_server_error p) Hn) as Hm.
  rewrite Hout in Hm. destruct Hm as (Herr & Hdata & Hshort).
  unfold complete in Hcomp. rewrite Hi, Nat2Z.id, Hslot in Hcomp. apply Ok_inj in Hcomp as <-.
  pose proof (OutstandingReads.length_delete (Pipeline.outstanding p) id ltac:(by eexists)) as Hlen.
  assert (i < length plan)%nat as Hil by by eapply lookup_lt_Some.
  split; cbn; try done; rewrite ?Hlen; try lia.
  - by rewrite length_insert.
  - intros j id' n slot Hplj Hc. destruct (decide (j = i)) as [->|Hji].
    + rewrite list_lookup_insert_eq in Hc by lia. injection Hc as <-.
      rewrite Hpl in Hplj. injection Hplj as <- <-. exists response, h. split; [done|]. cbn.
      intros [Hd ->]%Hdata. split; [done|]. intros Hlt. rewrite (proj2 (Z.ltb_lt _ _)) by done.
      unfold short_at. eexists. split; [done|].
      destruct (Pipeline.short_response_at p); lia.
    + rewrite list_lookup_insert_ne in Hc by done. specialize (inv_slots0 j id' n slot Hplj Hc).
      destruct slot as [data'|].
      * destruct inv_slots0 as (response' & h' & Hans' & Hd'). exists response', h'.
        split; [done|]. cbn. intros Hnone. destruct (Pipeline.first_server_error p) eqn:Efe.
        { destruct (Herr _ eq_refl) as [He _]. congruence. }
        destruct (Hd' eq_refl) as [Hrd Hk]. split; [done|]. intros Hlt.
        destruct (Hk Hlt) as (k & Hks & Hkj). destruct Hshort as [->|[-> _]]; [by exists k|].
        rewrite Hks. unfold short_at. eexists. split; [done|]. lia.
      * destruct inv_slots0 as [st Hst]. exists st. cbn. rewrite lookup_delete_ne; [done|].
        intros ->. rewrite Hpr in Hst. injection Hst as ->. cbn in Hi. lia.
  - intros id' pr' [Hne Hp]%lookup_delete_Some.
    destruct (inv_outstanding0 id' pr' Hp) as (j & Hj & Hplj & Hcj).
    exists j. split; [done|]. split; [done|]. rewrite list_lookup_insert_ne; [done|].
    intros ->. rewrite Hpl in Hplj. by injection Hplj as ->.
  - intros k Hk. assert (forall k, Pipeline.short_response_at p = Some k -> 0 <= k /\
      exists id' n data', plan !! Z.to_nat k = Some (id', n) /\
        <[i := Some data]> (Pipeline.completed p) !! Z.to_nat k = Some (Some data') /\
        len data' < n) as Hold.
    { intros k' Hk'. destruct (inv_short0 k' Hk') as (? & id' & n & data' & Hp & Hc & Hlt).
      split; [done|]. exists id', n, data'. split; [done|]. split; [|done].
      rewrite list_lookup_insert_ne; [done|]. intros Heq. rewrite <- Heq in Hc. congruence. }
    destruct Hshort as [->|[-> Hlt]]; [by apply Hold|]. unfold short_at in Hk.
    assert (k = Z.of_nat i \/ Pipeline.short_response_at p = Some k) as [->|Hk']; [|split; [lia|]|].
    { destruct (Pipeline.short_response_at p) as [k'|]; injection Hk as <-; [|by left].
      destruct (Z.min_spec k' (PendingRead.position pr)) as [[_ ->]|[_ ->]]; [by right|by left]. }
    + exists id, (PendingRead.chunk_len pr), data. rewrite Nat2Z.id. split; [done|].
      split; [|done]. by rewrite list_lookup_insert_eq by lia.
    + by apply Hold.
Qed.

Lemma returns_complete p es s1 plan id pr data :
  pipeline_inv p es s1 plan -> Pipeline.outstanding p !! id = Some pr ->
  returns (complete (Pipeline.completed p) (PendingRead.position pr) data).
Proof.
  intros [] Hpr. destruct (inv_outstanding0 id pr Hpr) as (i & Hi & _ & Hslot).
  unfold complete. by rewrite Hi, Nat2Z.id, Hslot.
Qed.

Lemma receive_one_runs p es s1 plan :
  pipeline_inv p es s1 plan ->
  runs (receive_one file p) s1 (fun r s2 =>
    exists es', advances s1 es' s2 /\ sends es' = [] /\
    match r with
    | Ok p' => pipeline_inv p' (es ++ es') s2 plan /\
        PipelinedReadStats.credit_stalls (Pipeline.stats p')
        = PipelinedReadStats.credit_stalls (Pipeline.stats p) /\
        (forall e, Pipeline.first_server_error p = Some e ->
                   Pipeline.first_server_error p' = Some e)
    | _ => True
    end).
Proof.
  intros Hinv. pose proof (advances_refl s1 (advances_wf _ _ _ (inv_advances _ _ _ _ Hinv))) as Ha0.
  unfold receive_one. apply runs_bind. eapply receive_step; [exact Ha0|].
  intros [m|e| |] s2 Ha; try exact I; [|by exists [EReceive (Err e)]]. cbn [app] in Ha.
  assert (forall (e : ClientError), exists es', advances s1 es' s2 /\ sends es' = [] /\ True) as Herr
    by (intros e; by exists [EReceive (Ok m)]).
  apply runs_bind_lift; [auto with returns|by intros; apply Herr|intros h Hh%from_wire_ok].
  run_step. cbn [Datatypes.id].
  apply runs_bind_lift; [apply returns_ok_or|by intros; apply Herr|intros pr Hpr%ok_or_ok].
  destruct (AsyncResponseState.validate _ _ _ _ _ _) as [phase st'] eqn:Hv.
  pose proof (async_returns_validate Command.Read (FileHandle.tree_id file)
    (SessionConnection.session_id s2) (message_id h) h (PendingRead.async_state pr)) as Hr.
  rewrite Hv in Hr. apply runs_bind_lift; [done|by intros; apply Herr|intros ph ->]. cbv zeta.
  apply runs_bind. eapply grant_step; [exact Ha| | |by intros; apply Herr].
  { apply decode_header_inv in Hh as (_ & Hwf & _). apply Hwf. }
  intros s3 Ha3. clear Herr.
  assert (forall (e : ClientError), exists es', advances s1 es' s3 /\ sends es' = [] /\ True) as Herr
    by (intros e; by exists [EReceive (Ok m)]).
  apply runs_bind_lift; [apply returns_verify_response|by intros; apply Herr|intros u Hvr].
  apply verify_response_ok in Hvr.
  pose proof (pipeline_inv_advances p es s1 plan [EReceive (Ok m)] s3 Hinv Ha3 eq_refl) as Hinv3.
  destruct ph.
  { rewrite bool_decide_true by done. unfold runs, sret. exists [EReceive (Ok m)].
    split; [done|]. split; [done|]. split; [by apply pipeline_inv_interim|done]. }
  rewrite bool_decide_false by done.
  unfold OutstandingReads.finish. rewrite lookup_insert_eq. cbn [ok_or obind].
  apply runs_bind_lift; [done|done|intros [finished outstanding] [= <- <-]].
  cbn [PendingRead.position PendingRead.chunk_len]. rewrite !Z.eqb_refl.
  do 2 (apply runs_bind_lift; [done|done|intros ? _]). rewrite delete_insert_eq.
  assert (0 < PendingRead.chunk_len pr) as Hn.
  { destruct (inv_outstanding _ _ _ _ Hinv _ _ Hpr) as (i & _ & Hpl & _).
    pose proof (inv_positive _ _ _ _ Hinv) as Hpos. rewrite Forall_forall in Hpos.
    apply (Hpos (message_id h, PendingRead.chunk_len pr)). by eapply list_elem_of_lookup_2. }
  pose proof (response_outcome_meets m h (PendingRead.position pr) (PendingRead.chunk_len pr)
    (Pipeline.short_response_at p) (Pipeline.first_server_error p) Hn) as Hm.
  apply runs_bind_lift; [by eapply meets_returns|by intros; apply Herr|].
  intros [[data short] err] Hout. rewrite Hout in Hm. destruct Hm as (Hkeep & _ & _).
  apply runs_bind_lift; [by eapply returns_complete|by intros; apply Herr|intros completed Hcomp].
  destruct (advances_fields _ _ _ Ha) as (Hsid & _ & _ & Hsig & Hreq).
  assert (answered s file (es ++ [EReceive (Ok m)]) (message_id h) m h) as Hans.
  { split; [apply elem_of_app; right; by apply list_elem_of_singleton|]. split; [done|]. split.
    - exists (PendingRead.async_state pr), st'.
      rewrite <- Hv, Hsid, (advances_session _ _ _ (inv_advances _ _ _ _ Hinv)). done.
    - revert Hvr. unfold signature_accepted, requires_signature.
      rewrite bool_decide_true, andb_true_r, Hsig, Hreq by done.
      by rewrite (advances_session _ _ _ (inv_advances _ _ _ _ Hinv)). }
  pose proof (pipeline_inv_complete p _ s3 plan (message_id h) pr m h data short err completed
                Hinv3 Hpr Hans Hout Hcomp) as Hdone.
  pose proof (inv_completed _ _ _ _ Hdone) as Hcount. pose proof (inv_target _ _ _ _ Hinv).
  pose proof (plan_bytes_length plan (inv_positive _ _ _ _ Hinv)). cbn in Hcount.
  unfold OutstandingReads.length in Hcount. unfold add_or_panic. rewrite (proj2 (Z.leb_le _ _)) by lia.
  apply runs_bind_lift; [done..|intros ? [= <-]].
  unfold runs, sret. exists [EReceive (Ok m)]. split; [done|]. split; [done|].
  split; [exact Hdone|]. split; [done|]. intros e He. by apply Hkeep.
Qed.

(** ** Reassembly *)

(** What the slots of a drained pipeline hold, from a position on; [short] is
    counted from there. *)
Definition slots_answered (es : list event) (off : Z) (plan : list (Z * Z))
    (slots : list (option bytes)) (short : option Z) : Prop :=
  length slots = length plan /\
  (forall j id n, plan !! j = Some (id, n) -> exists data response h,
     slots !! j = Some (Some data) /\ requested s file es (off + plan_bytes (take j plan)) n id /\
     answered s file es id response h /\ response_data response h n data /\ 0 < n /\
     (len data < n -> exists k, short = Some k /\ k <= Z.of_nat j)) /\
  (forall k, short = Some k -> 0 <= k /\ exists id n data,
     plan !! Z.to_nat k = Some (id, n) /\ slots !! Z.to_nat k = Some (Some data) /\ len data < n).

Lemma slots_answered_tail es off id n plan data slots short :
  slots_answered es off ((id, n) :: plan) (Some data :: slots) short ->
  short <> Some 0 ->
  slots_answered es (off + n) plan slots (Z.pred <$> short).
Proof.
  intros (Hl & Hall & Hshort) Hne. split; [by injection Hl|]. split.
  - intros j id' n' Hj. destruct (Hall (S j) id' n' Hj) as (d & r & h & Hsd & Hreq & ? & ? & ? & Hk).
    exists d, r, h. split; [done|]. split.
    { revert Hreq. cbn. unfold plan_bytes. cbn. by rewrite Z.add_assoc. }
    split; [done|]. split; [done|]. split; [done|]. intros Hlt.
    destruct (Hk Hlt) as (k & -> & Hkj). exists (Z.pred k). split; [done|]. lia.
  - intros k Hk. destruct short as [k'|]; [|done]. injection Hk as <-.
    destruct (Hshort k' eq_refl) as (Hk0 & id' & n' & d & Hp & Hsd & Hlt).
    assert (k' <> 0) by congruence. split; [lia|]. exists id', n', d.
    replace (Z.to_nat k') with (S (Z.to_nat (Z.pred k'))) in * by lia. done.
Qed.

Lemma assemble_meets es plan : forall off slots short out,
  slots_answered es off plan slots short ->
  meets (assemble (take (match short with Some k => Z.to_nat (k + 1) | None => length slots end) slots) out)
    (fun o => exists data ended, o = out ++ data /\ assembled s file es off data ended /\
       len data <= plan_bytes plan /\ (ended = false -> len data = plan_bytes plan /\ short = None) /\
       (short = None -> ended = false)).
Proof.
  induction plan as [|[id n] plan IH]; intros off slots short out Hsl; pose proof Hsl as (Hl & Hall & Hshort).
  { destruct slots; [|done]. rewrite take_nil. cbn. exists [], false. rewrite app_nil_r, len_nil.
    split; [done|]. split; [constructor|]. split; [done|]. split; [|done]. intros _. split; [done|].
    destruct short as [k|]; [|done]. by destruct (Hshort k eq_refl) as (_ & ? & ? & ? & ? & _). }
  destruct (Hall 0%nat id n eq_refl) as (data & response & h & Hslot & Hreq & Hans & Hrd & Hn & Hk).
  destruct slots as [|slot slots]; [done|]. injection Hslot as ->.
  cbn in Hreq. rewrite Z.add_0_r in Hreq.
  pose proof (response_data_len response h n data Hn Hrd) as Hle.
  assert (forall p : list (Z * Z), plan_bytes ((id, n) :: p) = n + plan_bytes p) as Hcons by done.
  assert (0 <= plan_bytes plan) as Hpos.
  { assert (Forall (fun q => 0 < q.2) plan) as Hf.
    { apply Forall_forall. intros [id' n'] [j Hj]%list_elem_of_lookup_1.
      by destruct (Hall (S j) id' n' Hj) as (? & ? & ? & _ & _ & _ & _ & ? & _). }
    pose proof (plan_bytes_length plan Hf). lia. }
  destruct (decide (short = Some 0)) as [->|Hne].
  { change (Z.to_nat (0 + 1)) with 1%nat. cbn [take assemble ok_or obind meets].
    destruct (Hshort 0 eq_refl) as (_ & ? & ? & ? & [= <- <-] & [= <-] & Hlt). exists data, true. split; [done|]. split; [by eapply assembled_short|].
    rewrite Hcons. split; [lia|done]. }
  assert (len data = n) as Hfull.
  { destruct (Z.lt_trichotomy (len data) n) as [Hlt|[?|?]]; [|done|lia].
    destruct (Hk Hlt) as (k & Hs' & ?). destruct (Hshort k Hs') as [? _].
    destruct Hne. rewrite Hs'. f_equal. lia. }
  replace (match short with Some k => Z.to_nat (k + 1) | None => length (Some data :: slots) end)
    with (S (match Z.pred <$> short with Some k => Z.to_nat (k + 1) | None => length slots end)).
  2:{ destruct short as [k|]; [|done]. destruct (Hshort k eq_refl) as [? _].
      assert (k <> 0) by congruence. cbn. lia. }
  cbn [take assemble ok_or obind].
  eapply meets_mono; [apply (IH (off + n) slots); by eapply slots_answered_tail|].
  intros o (rest & ended & -> & Hrest & Hrl & He & Hnone). exists (data ++ rest), ended.
  rewrite <- app_assoc, len_app, Hcons. split; [done|].
  split; [by eapply assembled_full|]. split; [lia|]. split; [|by intros ->; apply Hnone].
  intros [E Hsn]%He. split; [lia|]. by destruct short.
Qed.

(** The state the loop ends in. *)
Definition drained (p : Pipeline.t) : Prop :=
  Pipeline.outstanding p = ∅ /\ Pipeline.first_server_error p = None /\
  (Pipeline.short_response_at p = None -> target <= Pipeline.scheduled_bytes p).

Lemma drained_slots p es s1 plan :
  pipeline_inv p es s1 plan -> drained p ->
  slots_answered es offset plan (Pipeline.completed p) (Pipeline.short_response_at p).
Proof.
  intros [] (Hempty & Hnone & _). split; [done|]. split; [|done]. intros j id n Hj.
  assert (exists slot, Pipeline.completed p !! j = Some slot) as [slot Hslot].
  { apply lookup_lt_is_Some. rewrite inv_length0. by eapply lookup_lt_Some. }
  specialize (inv_slots0 j id n slot Hj Hslot). destruct slot as [data|].
  - destruct inv_slots0 as (response & h & Hans & Hd). destruct (Hd Hnone) as [Hrd Hk].
    exists data, response, h. split; [done|]. split; [by apply inv_requested0|]. split; [done|].
    split; [done|]. split; [|done]. rewrite Forall_forall in inv_positive0.
    apply (inv_positive0 (id, n)). by eapply list_elem_of_lookup_2.
  - destruct inv_slots0 as [st Hst]. by rewrite Hempty in Hst.
Qed.

(** ** The loop *)

Lemma count_stall_meets stalled p :
  PipelinedReadStats.credit_stalls (Pipeline.stats p) < usize_max ->
  meets (count_stall stalled p) (fun p' =>
    Pipeline.scheduled_bytes p' = Pipeline.scheduled_bytes p /\
    Pipeline.outstanding p' = Pipeline.outstanding p /\
    Pipeline.first_server_error p' = Pipeline.first_server_error p /\
    PipelinedReadStats.credit_stalls (Pipeline.stats p')
    <= PipelinedReadStats.credit_stalls (Pipeline.stats p) + 1 /\
    forall es s1 plan, pipeline_inv p es s1 plan -> pipeline_inv p' es s1 plan).
Proof.
  intros Hlt. unfold count_stall. destruct (stalled && _); [|cbn; split_and!; done || lia].
  unfold add_or_panic. rewrite (proj2 (Z.leb_le _ _)) by lia. cbn.
  split_and!; try done. intros es s1 plan []. by split.
Qed.

(** What one turn of the loop does before it looks at the table. *)
Lemma turn_runs {A} p es s1 plan (k : Pipeline.t -> st session A) (Q : client A -> session -> Prop) :
  pipeline_inv p es s1 plan ->
  PipelinedReadStats.credit_stalls (Pipeline.stats p) < usize_max ->
  (forall e es' s2, advances s (es ++ es') s2 -> Pipeline.first_server_error p = None ->
     Q (Err e) s2) ->
  (forall p' es' s2 plan', pipeline_inv p' (es ++ es') s2 plan' ->
     (forall e, Pipeline.first_server_error p = Some e ->
        es' = [] /\ Pipeline.first_server_error p' = Some e) ->
     PipelinedReadStats.credit_stalls (Pipeline.stats p')
     <= PipelinedReadStats.credit_stalls (Pipeline.stats p) + 1 ->
     runs (k p') s2 Q) ->
  runs (do! '(stalled, p) := fill file offset target options multi max_read
                               (Z.to_nat (target - Pipeline.scheduled_bytes p)) p in
        do! p := slift (count_stall stalled p) in k p) s1 Q.
Proof.
  intros Hinv Hcs Herr Hk. apply runs_bind.
  eapply runs_mono; [apply (fill_runs _ p es s1 plan Hinv); lia|].
  assert (forall e, Pipeline.first_server_error p = Some e -> may_schedule target options p = false)
    as Hstop by (intros e' He; unfold may_schedule; by rewrite He).
  intros r s2 Hr. destruct r as [[stalled p1]|e| |]; [|
    destruct Hr as [Hmay [es' Ha]]; eapply Herr; [exact Ha|];
    destruct (Pipeline.first_server_error p) eqn:E; [by rewrite (Hstop _ eq_refl) in Hmay|done]|done..].
  destruct Hr as ((_ & Hfe & Hst) & Hsame & es' & plan' & Hinv1).
  pose proof (count_stall_meets stalled p1 ltac:(lia)) as Hm.
  assert (exists es' plan', pipeline_inv p1 (es ++ es') s2 plan' /\
    forall e, Pipeline.first_server_error p = Some e -> es' = []) as (es1 & plan1 & Hinv2 & Hno).
  { destruct (Pipeline.first_server_error p) as [e|] eqn:E.
    - destruct (Hsame (Hstop e eq_refl)) as [-> ->]. exists [], plan. by rewrite app_nil_r.
    - by exists es', plan'. }
  apply runs_bind_lift; [by eapply meets_returns| |].
  - intros e He. rewrite He in Hm. unfold count_stall, add_or_panic in He. by repeat case_match.
  - intros p2 E2. eapply meets_ok in Hm as (_ & _ & Hfe2 & Hcs2 & Hkeep); [|exact E2].
    eapply Hk; [by apply Hkeep| |lia]. intros e He. split; [by apply (Hno e)|]. congruence.
Qed.

Lemma pipeline_loop_runs patience : forall p es s1 plan,
  pipeline_inv p es s1 plan ->
  PipelinedReadStats.credit_stalls (Pipeline.stats p) + Z.of_nat patience < usize_max ->
  runs (pipeline_loop file offset target options multi max_read patience p) s1 (fun r s2 =>
    exists es', advances s (es ++ es') s2 /\
    (forall e, Pipeline.first_server_error p = Some e -> sends es' = [] /\ forall p', r <> Ok p') /\
    match r with
    | Ok p' => drained p' /\ exists plan', pipeline_inv p' (es ++ es') s2 plan'
    | _ => True
    end).
Proof.
  induction patience as [|patience IH]; intros p es s1 plan Hinv Hpat; cbn [pipeline_loop].
  all: eapply turn_runs; [exact Hinv|lia| |].
  1,3: intros e es' s2 Ha Hnone; exists es'; split; [done|]; split; [by rewrite Hnone|done].
  all: intros p1 es1 s2 plan1 Hinv1 Hfe Hcs1;
    pose proof (inv_advances _ _ _ _ Hinv1) as Ha1;
    destruct (OutstandingReads.is_empty _) eqn:Hempty.
  1,3: apply OutstandingReads.outstanding_is_empty_true in Hempty;
    assert (forall e, Pipeline.first_server_error p = Some e ->
              sends es1 = [] /\ Pipeline.first_server_error p1 = Some e)
      as Hfe' by (intros e He; by destruct (Hfe e He) as [-> ->]);
    destruct (Pipeline.first_server_error p1) as [e|] eqn:E1;
    [run_step; exists es1; split; [done|]; split; [|done]; intros e' He'; split; [by eapply Hfe'|done]|];
    destruct (_ || _) eqn:Hend; [|run_step; exists es1; split; [done|]; split; [|done];
      intros e' He'; by destruct (Hfe' e' He')];
    unfold runs, sret; exists es1; split; [done|];
    (split; [intros e' He'; by destruct (Hfe' e' He')|]);
    (split; [|by exists plan1]); split; [done|]; split; [done|];
    intros Hns; rewrite Hns in Hend; cbn in Hend; by apply Z.leb_le.
  { done. }
  apply runs_bind. eapply runs_mono; [exact (receive_one_runs p1 _ s2 plan1 Hinv1)|].
  intros r s3 (es2 & Ha2 & Hno2 & Hr). rewrite <- app_assoc in Hr.
  pose proof (advances_app _ _ _ _ _ Ha1 Ha2) as Ha3. rewrite <- app_assoc in Ha3.
  destruct r as [p2|e| |]; [|exists (es1 ++ es2); split; [done|]; split; [|done];
    intros e' He'; rewrite sends_app, Hno2; by destruct (Hfe e' He') as [-> _]|done..].
  destruct Hr as (Hinv2 & Hcs2 & Hfe2).
  eapply runs_mono; [apply (IH p2 _ s3 plan1 Hinv2); lia|].
  intros r s4 (es3 & Ha4 & Hstop & Hr). exists ((es1 ++ es2) ++ es3).
  rewrite (app_assoc es (es1 ++ es2) es3). split; [done|]. split; [|exact Hr].
  intros e He. destruct (Hfe e He) as [-> He1]. destruct (Hstop e (Hfe2 e He1)) as [Hno Hbad].
  split; [by rewrite !sends_app, Hno2, Hno|done].
Qed.
End invariant.
End pipeline_laws.

(** What a pipelined read of a session comes to. *)
Definition pipelined_result {T} `{TransportSafe T} `{CryptoLaws} (s : SessionConnection.t T)
    (file : FileHandle.t) (offset length : Z) (options : PipelinedReadOptions.t)
    (r : client PipelinedReadResult.t) (s' : SessionConnection.t T) : Prop :=
  exists es, advances s es s' /\
  match r with
  | Ok res => exists ended,
      assembled s file es offset (PipelinedReadResult.data res) ended /\
      let target := Z.max 0 (Z.min length (FileHandle.length_ file - offset)) in
      len (PipelinedReadResult.data res) <= target /\
      (ended = false -> len (PipelinedReadResult.data res) = target) /\
      let stats := PipelinedReadResult.stats res in
      PipelinedReadStats.requests_sent stats = len (sends es) /\
      PipelinedReadStats.responses_completed stats = len (sends es) /\
      PipelinedReadStats.peak_in_flight stats <= PipelinedReadOptions.max_in_flight options
  | _ => True
  end.

Lemma pipelined_read_runs {T} `{TransportSafe T} `{CryptoLaws} (s : SessionConnection.t T)
    (patience : nat) (file : FileHandle.t) (offset length : Z) (options : PipelinedReadOptions.t)
    (Hs : session_wf s) (Hoffset : 0 <= offset) (Hlength : 0 <= length)
    (Hchunk : 0 <= PipelinedReadOptions.chunk_size options)
    (Hflight : 0 <= PipelinedReadOptions.max_in_flight options)
    (Hpatience : Z.of_nat patience < usize_max) :
  runs (read_at_pipelined_with_stats patience file offset length options) s
    (pipelined_result s file offset length options).
Proof.
  unfold read_at_pipelined_with_stats, pipelined_result. pose proof (advances_refl s Hs) as Ha0.
  destruct (_ || _) eqn:Hz.
  { exists []. split; [done|]. exists false. cbn. rewrite len_nil. split; [constructor|].
    apply orb_true_iff in Hz as [Hz|Hz]; bool_facts; (split_and!; intros; lia || done). }
  assert (forall e : ClientError, exists es, advances s es s /\ True) as Herr by (by exists []).
  bool_facts. do 2 (run_step; [run_step; by apply (Herr Cancelled)|]). bool_facts.
  run_step. cbn [id].
  apply runs_bind_lift; [apply returns_ensure_session|by intros; apply Herr|intros _ _].
  pose proof (read_target_len_meets file offset length ltac:(by apply Z.leb_gt)) as Ht.
  apply runs_bind_lift; [by eapply meets_returns|by intros; apply Herr|intros target En].
  eapply meets_ok in Ht as Htarget; [|exact En].
  assert (target <= usize_max) as Hmax.
  { unfold read_target_len in En. repeat (apply obind_ok in En as (? & _ & En)).
    by apply ok_or_ok, try_from_some in En as [-> ?]. }
  rewrite Z.max_r, <- Htarget by lia.
  pose proof (read_limits_meets s Hs) as Hlim.
  apply runs_bind_lift; [by eapply meets_returns|by intros; apply Herr|intros [multi size] Elim].
  eapply meets_ok in Hlim; [|exact Elim]. cbn in Hlim.
  apply runs_bind. eapply runs_mono.
  { apply (pipeline_loop_runs s file offset target options Hmax) with (es := []) (plan := []);
      try lia; [apply pipeline_inv_new; done || lia|cbn; lia]. }
  intros r s1 (es & Ha & _ & Hr). cbn [app] in Ha, Hr.
  destruct r as [p|e| |]; [|by exists es|done..].
  destruct Hr as (Hdr & plan & Hinv). pose proof Hdr as (Hempty & _ & Hend).
  assert (forall k, Pipeline.short_response_at p = Some k -> 0 <= k < usize_max) as Hk.
  { intros k Hk. destruct (inv_short _ _ _ _ _ _ _ _ _ Hinv k Hk) as (? & ? & ? & ? & Hl%lookup_lt_Some & _).
    pose proof (inv_target _ _ _ _ _ _ _ _ _ Hinv).
    pose proof (plan_bytes_length plan (inv_positive _ _ _ _ _ _ _ _ _ Hinv)). lia. }
  pose proof (assemble_meets s file es plan offset (Pipeline.completed p)
    (Pipeline.short_response_at p) [] ltac:(by eapply drained_slots)) as Hasm.
  replace (Z.to_nat _) with (match Pipeline.short_response_at p with
    | Some k => Z.to_nat (k + 1) | None => Datatypes.length (Pipeline.completed p) end).
  2:{ destruct (Pipeline.short_response_at p) as [k|]; [|unfold len; lia].
      specialize (Hk k eq_refl). unfold saturating_add. by rewrite Z.min_r by lia. }
  apply runs_bind_lift; [by eapply meets_returns|by intros; exists es|intros out Hout].
  eapply meets_ok in Hasm as (data & ended & -> & Hdata & Hl & He & _); [|exact Hout].
  pose proof (inv_target _ _ _ _ _ _ _ _ _ Hinv). pose proof (inv_scheduled _ _ _ _ _ _ _ _ _ Hinv).
  pose proof (inv_sent _ _ _ _ _ _ _ _ _ Hinv). pose proof (inv_completed _ _ _ _ _ _ _ _ _ Hinv).
  pose proof (inv_sends _ _ _ _ _ _ _ _ _ Hinv) as Hsends.
  rewrite Hempty, OutstandingReads.length_empty in *.
  unfold runs, sret. exists es. split; [done|]. exists ended. cbn.
  split; [done|]. split; [lia|]. split; [intros [? ?%Hend]%He; lia|].
  unfold len. rewrite Hsends. split; [done|]. split; [lia|].
  apply (inv_peak _ _ _ _ _ _ _ _ _ Hinv).
Qed.

(** C1: the pipelined reader returns exactly what the server sent for the range,
    in file order, whatever order the answers came in. Against any server,
    without panicking (no index out of range, no counter overflow, no slot
    filled twice): on success the bytes returned are pieced together from
    accepted answers to the requests sent for consecutive ranges from [offset]
    on, each matched by its MessageId; there are never more than the requested
    length nor than the handle's size allows, and fewer only when the last piece
    is a short answer or the end of the file. Every request sent was answered by
    then, and never more than [max_in_flight] were outstanding at a time. *)
Theorem pipelined_read_sound {T} `{TransportSafe T} `{CryptoLaws} (s : SessionConnection.t T)
    (patience : nat) (file : FileHandle.t) (offset length : Z) (options : PipelinedReadOptions.t)
    (Hs : session_wf s) (Hoffset : 0 <= offset) (Hlength : 0 <= length)
    (Hchunk : 0 <= PipelinedReadOptions.chunk_size options)
    (Hflight : 0 <= PipelinedReadOptions.max_in_flight options)
    (Hpatience : Z.of_nat patience < usize_max) :
  runs (read_at_pipelined_with_stats patience file offset length options) s (fun r s' =>
    exists es, advances s es s' /\
    match r with
    | Ok res => exists ended,
        assembled s file es offset (PipelinedReadResult.data res) ended /\
        let target := Z.max 0 (Z.min length (FileHandle.length_ file - offset)) in
        len (PipelinedReadResult.data res) <= target /\
        (ended = false -> len (PipelinedReadResult.data res) = target) /\
        let stats := PipelinedReadResult.stats res in
        PipelinedReadStats.requests_sent stats = len (sends es) /\
        PipelinedReadStats.responses_completed stats = len (sends es) /\
        PipelinedReadStats.peak_in_flight stats <= PipelinedReadOptions.max_in_flight options
    | _ => True
    end).
Proof. by apply pipelined_read_runs. Qed.

(** Two chunks of three bytes, answered in the other order. *)
Definition sample_pipeline : PipelinedReadOptions.t := PipelinedReadOptions.mk 3 4 32.
Definition sample_answers : list bytes :=
  [read_response 2 [x0d; x0e]; read_response 1 [x0a; x0b; x0c]].

Lemma pipelined_read_sound_witness :
  exists (s' : SessionConnection.t TcpTransport.t) es,
    advances (sample_session sample_answers) es s' /\ len (sends es) = 2 /\
    @assembled _ toy_crypto (sample_session sample_answers) sample_file es 994
      [x0a; x0b; x0c; x0d; x0e] true.
Proof.
  destruct (runs_ended _ _ _ (fun res _ => bool_decide
        (PipelinedReadResult.data res = [x0a; x0b; x0c; x0d; x0e])
        && (PipelinedReadStats.requests_sent (PipelinedReadResult.stats res) =? 2))
      (@pipelined_read_sound _ _ _ toy_crypto toy_laws (sample_session sample_answers)
         4 sample_file 994 10 sample_pipeline (sample_session_wf _) ltac:(done) ltac:(done)
         ltac:(done) ltac:(done) ltac:(done)))
    as (res & s' & (es & Ha & ended & Hdata & Hl & He & Hsent & _) & Ht);
    [vm_compute; reflexivity|].
  apply andb_true_iff in Ht as [Hd%bool_decide_eq_true Hn%Z.eqb_eq]. rewrite Hd in *.
  exists s', es. split; [exact Ha|]. split; [congruence|].
  destruct ended; [exact Hdata|by specialize (He eq_refl)].
Defined.
