(* ===== verification/Cancellation.v ===== *)
(** * Cancellation tokens

    [crates/smb-client/src/cancellation.rs]: a generation counter shared by the
    holders of a token, any of which may advance it at any time. What the other
    holders do is an explicit schedule: before each look at the counter they
    advance it some number of times. Wakers ([Notify]) only decide when a wait
    looks again, and are not modelled. *)
From S2P Require Import Prelude WireError Client.

Module ReadCancellationToken.

(** The counter, and how often it is advanced elsewhere before each of the looks
    to come; beyond the list it is left alone. *)
Record t : Type := mk { counter : Z; schedule : list nat }.

Definition new (schedule : list nat) : t := mk 0 schedule.

Definition bump (generation : Z) (n : nat) : Z := wrapping_add 64 generation (Z.of_nat n).

(** The other holders act. *)
Definition interfere (self : t) : t :=
  match schedule self with
  | [] => self
  | n :: rest => mk (bump (counter self) n) rest
  end.

(** [generation]: a look at the counter. *)
Definition generation {E} : t -> outcome E Z * t := fun self =>
  let self := interfere self in (Ok (counter self), self).

Definition is_current {E} (generation_ : Z) : t -> outcome E bool * t := fun self =>
  let self := interfere self in (Ok (counter self =? generation_), self).

(** [advance]: an atomic increment, and the value after it. *)
Definition advance {E} : t -> outcome E Z * t := fun self =>
  let self := interfere self in
  let next := bump (counter self) 1 in
  (Ok next, mk next (schedule self)).

(** One look of the loop of [wait_for_change]: the new generation, or [None] to
    wait for a notification. *)
Definition changed {E} (generation_ : Z) : t -> outcome E (option Z) * t := fun self =>
  let self := interfere self in
  (Ok (if counter self =? generation_ then None else Some (counter self)), self).

(** Fewer than [2^64] advances in all. *)
Definition wf (self : t) : Prop :=
  0 <= counter self /\ counter self + Z.of_nat (sum_list (schedule self)) < 2 ^ 64.

Lemma interfere_wf self : wf self ->
  wf (interfere self) /\ counter self <= counter (interfere self).
Proof.
  unfold wf, interfere, bump, wrapping_add. destruct self as [g [|n rest]]; cbn;
    [by intros [? ?]|]. intros [? ?]. rewrite Z.mod_small by (cbn in *; lia). cbn in *. lia.
Qed.

(** Once the counter has moved on from a generation, it never shows it again. *)
Lemma moved_on self generation_ : wf self -> generation_ < counter self ->
  generation_ < counter (interfere self).
Proof. intros Hw Hg. destruct (interfere_wf self Hw). lia. Qed.

End ReadCancellationToken.
