(* ===== verification/CancelRead.v ===== *)
(** * READ, several requests in flight, until cancelled

    [crates/smb-client/src/cancel.rs]: the pipelined reader that a cancellation
    token can stop. It works in waves: requests are sent up to the limit, then
    all their final responses are taken, also when the wave was cancelled and a
    CANCEL was sent for each request without one. A receive that [select!] drops
    because the token moved is taken not to have happened, which
    [tcp_receive_cancellation_safe] justifies for the TCP transport. *)
From S2P Require Import Prelude WireError Utf16 Frame Header Create ReadWrite FileControl Negotiate.
From S2P Require Import Client Credits MessageIds AsyncResponse Transport Signing Connection.
From S2P Require Import Auth Session Exchange Tree Files Write Read PipelinedRead Cancellation.

Definition STATUS_CANCELLED : Z := 0xC0000120.

(** [PendingRead] of this file. *)
Module CancelableRead.
Record t : Type := mk {
  message_id : Z; chunk_len : Z; async_state : AsyncResponseState.t; async_cancel_sent : bool
}.
Definition set_async_state (r : t) (state : AsyncResponseState.t) : t :=
  mk (message_id r) (chunk_len r) state (async_cancel_sent r).
Definition set_cancel_sent (r : t) (sent : bool) : t :=
  mk (message_id r) (chunk_len r) (async_state r) sent.
End CancelableRead.

(** The local variables of a wave. *)
Module Wave.
Record t : Type := mk {
  pending : list CancelableRead.t;
  completed : list (option bytes);
  short_response_at : option Z;
  first_status_error : option Z;
  cancelled : bool;
  received : Z
}.
Definition new (pending : list CancelableRead.t) (cancelled : bool) : t :=
  mk pending (replicate (length pending) None) None None cancelled 0.
Definition set_pending (w : t) (pending : list CancelableRead.t) : t :=
  mk pending (completed w) (short_response_at w) (first_status_error w) (cancelled w) (received w).
Definition set_cancelled (w : t) : t :=
  mk (pending w) (completed w) (short_response_at w) (first_status_error w) true (received w).
End Wave.

Definition validate_options (options : PipelinedReadOptions.t) : client unit :=
  if PipelinedReadOptions.chunk_size options =? 0
  then Err (Protocol "pipelined READ chunk_size must be greater than zero") else
  if PipelinedReadOptions.max_in_flight options =? 0
  then Err (Protocol "pipelined READ max_in_flight must be greater than zero") else Ok tt.

(** [read_credit_charge] of this file, which has no case for zero bytes. *)
Definition cancelable_credit_charge (supports_multi_credit : bool) (length_ : Z) : client Z :=
  if negb supports_multi_credit then Ok 0 else
  let! last := sub_or_panic length_ 1 in
  ok_or (try_from u16_max (last / CREDIT_UNIT_BYTES + 1)) (Protocol "READ CreditCharge exceeds u16").

(** The slot of a final response, with what it says of the wave: a short read, a
    status error, a cancellation. *)
Definition slot_outcome (response_message : bytes) (header : Smb2Header) (position : Z)
    (chunk_len : Z) (w : Wave.t) : client (bytes * option Z * option Z * bool) :=
  match status header with
  | Status s =>
      if s =? 0 then
        let! response := from_wire (ReadResponse.decode_message response_message) in
        if chunk_len <? len (ReadResponse.data response)
        then Err (Protocol "READ response returned more data than requested") else
        Ok (ReadResponse.data response,
            if len (ReadResponse.data response) <? chunk_len
            then short_at (Wave.short_response_at w) position else Wave.short_response_at w,
            Wave.first_status_error w, Wave.cancelled w)
      else if s =? STATUS_CANCELLED then
        Ok ([], Wave.short_response_at w, Wave.first_status_error w, true)
      else if s =? STATUS_END_OF_FILE then
        Ok ([], short_at (Wave.short_response_at w) position, Wave.first_status_error w,
            Wave.cancelled w)
      else
        Ok ([], Wave.short_response_at w,
            Some (default s (Wave.first_status_error w)), Wave.cancelled w)
  | ChannelSequence _ _ => Err (Protocol "READ response used request header form")
  end.

(** [pending.iter().position(..)]. *)
Fixpoint position_of (message : Z) (pending : list CancelableRead.t) : option nat :=
  match pending with
  | [] => None
  | r :: pending =>
      if CancelableRead.message_id r =? message then Some 0%nat
      else S <$> position_of message pending
  end.

(** The loop over the slots of a complete wave: the data so far, and whether it
    ended with a short response. *)
Fixpoint collect (slots : list (option bytes)) (position : Z) (short_response_at : option Z)
    (out : bytes) : client (bytes * bool) :=
  match slots with
  | [] => Ok (out, false)
  | slot :: slots =>
      let! data := ok_or slot
        (Protocol "pipelined READ did not receive every outstanding response") in
      let out := out ++ data in
      if bool_decide (short_response_at = Some position) then Ok (out, true)
      else collect slots (position + 1) short_response_at out
  end.

Section cancel.
Context {T : Type} `{Transport T} `{Crypto}.
#[local] Abbreviation session := (SessionConnection.t T).
#[local] Abbreviation world := (SessionConnection.t T * ReadCancellationToken.t)%type.

Definition on_session {A} (m : st session A) : st world A := zoom fst (fun w s => (s, snd w)) m.
Definition on_token {A} (m : st ReadCancellationToken.t A) : st world A :=
  zoom snd (fun w t => (fst w, t)) m.

(** [sign_request] of this file: the command names the error. *)
Definition sign_named (s : session) (message : bytes) (command_ : string) : client bytes :=
  if SessionConnection.signing_required s then
    let! signing := ok_or (SessionConnection.signing s)
                          (Protocol "signed request requires a session signing key") in
    match sign signing message with
    | (Ok _, message) => Ok message
    | (Err (Protocol _), _) => Err (Protocol (command_ ++ " signing failed"))
    | (Err e, _) => Err e
    | (Panic, _) => Panic
    | (OutOfFuel, _) => OutOfFuel
    end
  else Ok message.

Definition verify_read (s : session) (message : bytes) (header : Smb2Header) (phase : ResponsePhase) :
    client unit :=
  verify_response s header (requires_signature phase (SessionConnection.signing_required s))
    "server signed READ without an available signing key"
    "server omitted a required READ signature" message.

Definition send_cancel_for_message_id (message_id : Z) (async_id : option Z) : st session unit :=
  do! s := sget id in
  do! message := slift (from_wire
    (match async_id with
     | Some async_id =>
         CancelRequest.encode_async_message message_id (SessionConnection.session_id s) async_id
     | None => CancelRequest.encode_sync_message message_id (SessionConnection.session_id s)
     end)) in
  do! message := slift (sign_named s message "CANCEL") in
  connected (Connection.send message).

(** The loop over the requests that were not answered yet. *)
Fixpoint send_cancel_requests (pending : list CancelableRead.t) (completed : list (option bytes)) :
    st session (list CancelableRead.t) :=
  match pending, completed with
  | request :: pending, result :: completed =>
      match result with
      | Some _ =>
          do! pending := send_cancel_requests pending completed in sret (request :: pending)
      | None =>
          let async_id := CancelableRead.async_state request in
          do! _ := send_cancel_for_message_id (CancelableRead.message_id request) async_id in
          let request := CancelableRead.set_cancel_sent request (bool_decide (is_Some async_id)) in
          do! pending := send_cancel_requests pending completed in sret (request :: pending)
      end
  | _, _ => sret pending
  end.

Section wave.
Context (file : FileHandle.t) (offset : Z) (options : PipelinedReadOptions.t) (generation : Z).

Definition is_current : st world bool := on_token (ReadCancellationToken.is_current generation).

(** Cancels the wave: its CANCELs are sent. *)
Definition cancel_wave (w : Wave.t) : st world Wave.t :=
  do! pending := on_session (send_cancel_requests (Wave.pending w) (Wave.completed w)) in
  sret (Wave.set_pending (Wave.set_cancelled w) pending).

(** The request of the next [chunk_len] bytes: signed before it is sent. *)
Definition cancelable_request (s : session)
    (out_len scheduled chunk_len charge message_id credit_request : Z) : client bytes :=
  let! done_ := add_or_panic usize_max out_len scheduled in
  let! done_ := ok_or (try_from u64_max done_) (Protocol "READ offset conversion overflow") in
  let! request_offset := ok_or (checked_add u64_max offset done_) (Protocol "READ offset overflow") in
  let! message := read_request s file request_offset chunk_len charge message_id credit_request in
  sign_named s message "READ".

(** The scheduling loop of a wave. A turn schedules at least one byte. *)
Fixpoint schedule_wave (fuel : nat) (supports_multi_credit : bool)
    (max_read_size out_len remaining : Z) (pending : list CancelableRead.t) (scheduled : Z) :
    st world (list CancelableRead.t) :=
  if (len pending <? PipelinedReadOptions.max_in_flight options) && (scheduled <? remaining) then
    match fuel with
    | O => slift Panic
    | S fuel =>
        do! current := is_current in
        if negb current then sret pending else
        do! s := sget fst in
        match Connection.available_credits (SessionConnection.connection s) with
        | None => slift (Err (Protocol "SMB credit window is not initialized"))
        | Some available =>
            if available =? 0 then sret pending else
            let credit_limited := credit_limited_payload supports_multi_credit available in
            let chunk_len :=
              Z.min (Z.min (Z.min (remaining - scheduled) (PipelinedReadOptions.chunk_size options))
                           max_read_size) credit_limited in
            if chunk_len =? 0 then sret pending else
            do! charge := slift (cancelable_credit_charge supports_multi_credit chunk_len) in
            do! message_id := on_session (send_request charge
              (PipelinedReadOptions.credit_request options)
              (cancelable_request s out_len scheduled chunk_len charge) false "") in
            let request := CancelableRead.mk message_id chunk_len AsyncResponseState.default false in
            do! scheduled := slift (add_or_panic usize_max scheduled chunk_len) in
            schedule_wave fuel supports_multi_credit max_read_size out_len remaining
              (pending ++ [request]) scheduled
        end
    end
  else sret pending.

(** Looks at the token before a response is awaited, at the top of the loop and
    again in the [select!]: either may find that the wave is to be cancelled. *)
Definition look (w : Wave.t) : st world Wave.t :=
  if Wave.cancelled w then sret w else
  do! current := is_current in
  if current then sret w else cancel_wave w.

(** One turn of the receiving loop behind the looks. *)
Definition receive_read (w : Wave.t) : st session Wave.t :=
  do! response_message := connected Connection.receive in
  do! header := slift (from_wire (decode_header response_message)) in
  do! position := slift (ok_or (position_of (message_id header) (Wave.pending w))
    (Protocol "pipelined READ response MessageId is not outstanding")) in
  match Wave.pending w !! position, Wave.completed w !! position with
  | Some request, Some slot =>
      if bool_decide (is_Some slot)
      then slift (Err (Protocol "pipelined READ received a duplicate final response")) else
      let request_message_id := CancelableRead.message_id request in
      do! s := sget id in
      let '(phase, state) :=
        AsyncResponseState.validate Command.Read (FileHandle.tree_id file)
          (SessionConnection.session_id s) request_message_id header
          (CancelableRead.async_state request) in
      do! phase := slift phase in
      let request := CancelableRead.set_async_state request state in
      let pending := <[position := request]> (Wave.pending w) in
      do! _ := connected (Connection.grant_credits (credits header)) in
      do! _ := slift (verify_read s response_message header phase) in
      match phase with
      | InterimPending =>
          if Wave.cancelled w && negb (CancelableRead.async_cancel_sent request) then
            do! async_id := slift (ok_or state
              (Protocol "STATUS_PENDING READ did not record an AsyncId")) in
            do! _ := send_cancel_for_message_id request_message_id (Some async_id) in
            sret (Wave.set_pending w
                    (<[position := CancelableRead.set_cancel_sent request true]> pending))
          else sret (Wave.set_pending w pending)
      | Final =>
          do! '(data, short, error, cancelled) := slift (slot_outcome response_message header
            (Z.of_nat position) (CancelableRead.chunk_len request) w) in
          do! received := slift (add_or_panic usize_max (Wave.received w) 1) in
          sret (Wave.mk pending (<[position := Some data]> (Wave.completed w)) short error
                  cancelled received)
      end
  | _, _ => slift Panic
  end.

(** The receiving loop, for at most [patience] responses. *)
Fixpoint receive_wave (patience : nat) (w : Wave.t) : st world Wave.t :=
  if Wave.received w <? len (Wave.pending w) then
    match patience with
    | O => slift OutOfFuel
    | S patience =>
        do! w := look w in
        do! w := look w in
        do! w := on_session (receive_read w) in
        receive_wave patience w
    end
  else sret w.

(** A wave, and how the loop goes on: [inl] is the result. *)
Definition run_wave (patience : nat) (target : Z) (out : bytes) : st world (bytes + bytes) :=
  do! current := is_current in
  if negb current then slift (Err Cancelled) else
  do! s := sget fst in
  do! '(supports_multi_credit, max_read_size) := slift (read_limits s) in
  let remaining := target - len out in
  do! pending := schedule_wave (Z.to_nat remaining) supports_multi_credit max_read_size (len out)
                   remaining [] 0 in
  if is_empty pending then
    do! current := is_current in
    if negb current then slift (Err Cancelled)
    else slift (Err (Protocol "SMB connection has no credits available for pipelined READ"))
  else
  do! current := is_current in
  let w := Wave.new pending (negb current) in
  do! w := (if Wave.cancelled w then cancel_wave w else sret w) in
  do! w := receive_wave patience w in
  do! current := (if Wave.cancelled w then sret false else is_current) in
  if negb current then slift (Err Cancelled) else
  match Wave.first_status_error w with
  | Some status => slift (Err (ServerStatus status))
  | None =>
      do! '(out, ended) := slift (collect (Wave.completed w) 0 (Wave.short_response_at w) out) in
      sret (if ended : bool then inl out else inr out)
  end.

(** The loop over the waves: one that is not short adds at least one byte. *)
Fixpoint wave_loop (fuel patience : nat) (target : Z) (out : bytes) : st world bytes :=
  if len out <? target then
    match fuel with
    | O => slift Panic
    | S fuel =>
        do! next := run_wave patience target out in
        match next with
        | inl out => sret out
        | inr out => wave_loop fuel patience target out
        end
    end
  else sret out.

End wave.

Definition read_at_pipelined_cancelable_with_options (patience : nat) (file : FileHandle.t)
    (offset length_ : Z) (options : PipelinedReadOptions.t) (generation : Z) : st world bytes :=
  if (length_ =? 0) || (FileHandle.length_ file <=? offset) then sret [] else
  do! _ := slift (validate_options options) in
  do! s := sget fst in
  do! _ := slift (ensure_session s) in
  do! current := is_current generation in
  if negb current then slift (Err Cancelled) else
  do! target := slift (read_target_len file offset length_) in
  wave_loop file offset options generation (Z.to_nat target) patience target [].

End cancel.

(** ** Errors that are not a cancellation *)

(** The computation does not say [Cancelled] of itself. *)
Definition honest {A} (m : client A) : Prop := m <> Err Cancelled.

Lemma honest_bind {A B} (m : client A) (k : A -> client B) :
  honest m -> (forall a, m = Ok a -> honest (k a)) -> honest (obind m k).
Proof. unfold honest. destruct m; cbn; naive_solver. Qed.
Lemma honest_from_wire {A} (m : wire A) : honest (from_wire m).
Proof. by destruct m. Qed.
Lemma honest_protocol {A} (o : option A) text : honest (ok_or o (Protocol text)).
Proof. by destruct o. Qed.
Lemma honest_slice (l : bytes) a b : honest (slice l a b : client bytes).
Proof. unfold slice. by destruct (_ && _). Qed.
Lemma honest_copy (l : bytes) a b src : honest (copy_from_slice l a b src : client bytes).
Proof. unfold copy_from_slice. by repeat case_match. Qed.
Create HintDb honest discriminated.
#[local] Hint Resolve honest_from_wire honest_protocol honest_slice honest_copy : honest.

(** Steps of [st] that are honest whatever the state. *)
Definition honest_st {S A} (m : st S A) : Prop := forall s, honest (m s).1.

Lemma honest_sbind {S A B} (m : st S A) (k : A -> st S B) :
  honest_st m -> (forall a s s', m s = (Ok a, s') -> honest_st (k a)) -> honest_st (sbind m k).
Proof.
  intros Hm Hk s. specialize (Hm s). unfold sbind, honest in *.
  destruct (m s) as [[a|e| |] s'] eqn:E; cbn in *; [by eapply Hk|congruence|done|done].
Qed.
Lemma honest_swith {A} (f : bytes -> client A) : (forall m, honest (f m)) -> honest_st (swith f).
Proof. intros Hf m. apply Hf. Qed.
Lemma honest_smessage (f : bytes -> client bytes) : (forall m, honest (f m)) -> honest_st (smessage f).
Proof.
  intros Hf m. specialize (Hf m). unfold smessage, honest in *.
  destruct (f m) as [|e| |]; cbn; [done|congruence|done|done].
Qed.
Lemma honest_zoom {S T A} (get : S -> T) (set : S -> T -> S) (m : st T A) :
  honest_st m -> honest_st (zoom get set m).
Proof. intros Hm s. specialize (Hm (get s)). unfold zoom. by destruct (m (get s)). Qed.
Lemma honest_slift {S A} (m : client A) : honest m -> honest_st (slift m : st S A).
Proof. by intros Hm s. Qed.

(** An error of an honest computation, whatever else is known of its end. *)
Lemma runs_honest {S A} (m : st S A) s (Q : client A -> S -> Prop) :
  honest_st m -> runs m s (fun r s' => r <> Err Cancelled -> Q r s') -> runs m s Q.
Proof. intros Hm. specialize (Hm s). unfold runs, honest in *. destruct (m s) as [[] s']; cbn in *; auto. Qed.

Section honest.
Context {T : Type} `{Transport T} `{Crypto}.
#[local] Abbreviation session := (SessionConnection.t T).

Lemma honest_compute sg m : honest (compute_signature sg m).
Proof.
  unfold compute_signature. destruct (SigningState.algorithm sg); [| |done];
    apply honest_bind; auto with honest.
Qed.
Lemma honest_ensure_message m : honest (ensure_smb2_message m).
Proof. unfold ensure_smb2_message. case_match; [done|]. apply honest_bind; [auto with honest|done]. Qed.
Lemma honest_set_flag m b : honest (set_signed_flag m b).
Proof.
  unfold set_signed_flag, get_le, put_le. apply honest_bind; [|auto with honest].
  apply honest_bind; [auto with honest|done].
Qed.
Lemma honest_put sg m : honest (put_signature sg m).
Proof. apply honest_copy. Qed.
#[local] Hint Resolve honest_compute honest_ensure_message honest_set_flag honest_put : honest.

Lemma honest_sign sg : honest_st (sign sg).
Proof.
  unfold sign. repeat (apply honest_sbind; [|intros ? ? ? _]);
    first [apply honest_smessage|apply honest_swith]; auto with honest.
Qed.
Lemma honest_verify sg : honest_st (verify sg).
Proof.
  unfold verify. apply honest_sbind; [apply honest_swith; auto with honest|intros ? ? ? _].
  apply honest_sbind; [apply honest_swith; auto with honest|intros h ? ? _].
  case_match; [by apply honest_slift|].
  apply honest_sbind; [apply honest_swith; auto with honest|intros received ? ? _].
  apply honest_sbind; [apply honest_smessage; auto with honest|intros ? ? ? _].
  apply honest_sbind; [done|intros expected m ? [= <- _]].
  apply honest_sbind; [apply honest_smessage; auto with honest|intros ? ? ? _].
  apply honest_sbind; [apply honest_slift, honest_compute|intros ? ? ? _]. by case_match.
Qed.

Lemma honest_sign_named (s : session) m command_ : honest (sign_named s m command_).
Proof.
  unfold sign_named. destruct (SessionConnection.signing_required s); [|done].
  apply honest_bind; [auto with honest|intros sg _]. pose proof (honest_sign sg m) as Hs.
  unfold honest in *. destruct (sign sg m) as [[|[]| |] ?]; cbn in *; congruence.
Qed.
Lemma honest_verify_response (s : session) h required no_key missing m :
  honest (verify_response s h required no_key missing m).
Proof.
  unfold verify_response. destruct (has_flag _ _); [|by destruct required].
  apply honest_bind; [auto with honest|intros sg _]. apply honest_verify.
Qed.
Lemma honest_validate cmd tree session_ message h state :
  honest (AsyncResponseState.validate cmd tree session_ message h state).1.
Proof. unfold AsyncResponseState.validate, honest. by repeat case_match. Qed.

Lemma honest_connected {A} (m : st (Connection.t T) A) : honest_st m -> honest_st (connected m).
Proof. apply honest_zoom. Qed.
Lemma honest_with_credits {A} (m : st CreditManager.t A) :
  honest_st m -> honest_st (Connection.with_credits (T := T) m).
Proof.
  intros Hm c. unfold Connection.with_credits. destruct (Connection.credits c) as [w|]; [|done].
  specialize (Hm w). by destruct (m w).
Qed.
Lemma honest_grant response : honest_st (Connection.grant_credits (T := T) response).
Proof. apply honest_with_credits. intros w. unfold CreditManager.grant. by case_match. Qed.
Lemma honest_reserve charge minimum : honest_st (Connection.reserve_credits (T := T) charge minimum).
Proof.
  apply honest_with_credits, honest_sbind; [|done].
  intros w. unfold CreditManager.reserve, sub_or_panic. repeat case_match; done.
Qed.
Lemma honest_allocate charge : honest_st (Connection.allocate (T := T) charge).
Proof. apply honest_zoom. intros n. unfold MessageIds.allocate, exhausted. by repeat case_match. Qed.
End honest.
