(* ===== verification/CancelSafety.v ===== *)
(** * Cancelable READs leave nothing behind

    The laws of [CancelRead]: the invariant of a wave of requests, how each part
    of the call ends, and that [Cancelled] comes only after every READ of the
    call has got its final response. *)
From S2P Require Import Prelude WireError Utf16 Frame Header Create ReadWrite FileControl Negotiate.
From S2P Require Import Client Credits MessageIds AsyncResponse Transport Signing Connection.
From S2P Require Import Auth Session Exchange Tree Files Write Read PipelinedRead Cancellation.
From S2P Require Import CancelRead.

(** ** The laws of a cancelable read *)

Section cancel_laws.
Context {T : Type} `{TransportSafe T} `{CryptoLaws}.
#[local] Abbreviation session := (SessionConnection.t T).
#[local] Abbreviation world := (SessionConnection.t T * ReadCancellationToken.t)%type.

Section call.
Context (s : session) (file : FileHandle.t) (generation : Z).

(** The transport itself said [Cancelled]. *)
Definition broken (es : list event) : Prop :=
  exists e, e ∈ es /\ (e = EReceive (Err Cancelled) \/ exists m, e = ESend m (Err Cancelled)).

(** [m] is a READ of the file under MessageId [id]. *)
Definition read_sent (m : bytes) (id : Z) : Prop := exists o n charge,
  request_sent s (chunk_read_request s file o n charge) (SessionConnection.signing_required s) id m.

(** [m] is the CANCEL of a READ that was sent. *)
Definition cancel_message (id : Z) (async_id : option Z) : client bytes :=
  from_wire
    (match async_id with
     | Some async_id =>
         CancelRequest.encode_async_message id (SessionConnection.session_id s) async_id
     | None => CancelRequest.encode_sync_message id (SessionConnection.session_id s)
     end).
Definition cancel_sent (es : list event) (m : bytes) : Prop := exists id o n async_id plain no_key,
  requested s file es o n id /\ cancel_message id async_id = Ok plain /\
  sign_request s (SessionConnection.signing_required s) no_key plain = Ok m.

(** All that was sent are READs, each of them answered or one of [ids], and
    CANCELs for READs that were sent. *)
Definition traffic (es : list event) (ids : list Z) : Prop := forall m r, ESend m r ∈ es ->
  (exists id, read_sent m id /\ (id ∈ ids \/ exists response h, answered s file es id response h)) \/
  cancel_sent es m.

(** No READ is left without its final response. *)
Definition settled (es : list event) : Prop := traffic es [].

(** What a cancellation comes from: the token moved on, or the server said so. *)
Definition moved (tok : ReadCancellationToken.t) : Prop :=
  generation < ReadCancellationToken.counter tok.
Definition server_cancelled (es : list event) : Prop := exists id response h,
  answered s file es id response h /\ status h = Status STATUS_CANCELLED.
Definition cause (es : list event) (tok : ReadCancellationToken.t) : Prop :=
  moved tok \/ server_cancelled es.

Definition token_ok (tok : ReadCancellationToken.t) : Prop :=
  ReadCancellationToken.wf tok /\ generation <= ReadCancellationToken.counter tok.

(** The end of a part of the call that starts after [es]: a result is described
    by [P]; [Cancelled] has a cause and leaves nothing to come, or the transport
    is broken. *)
Definition ends {A} (es : list event)
    (P : A -> list event -> session -> ReadCancellationToken.t -> Prop)
    (r : client A) (w : world) : Prop :=
  exists es', token_ok (snd w) /\ advances s (es ++ es') (fst w) /\
  match r with
  | Ok a => P a (es ++ es') (fst w) (snd w)
  | Err e => e = Cancelled ->
      broken (es ++ es') \/ settled (es ++ es') /\ cause (es ++ es') (snd w)
  | _ => True
  end.

Lemma ends_bind {A B} (m : st world A) (k : A -> st world B) es P Q w :
  runs m w (ends es P) ->
  (forall a es' s' tok, token_ok tok -> advances s es' s' -> P a es' s' tok ->
     runs (k a) (s', tok) (ends es' Q)) ->
  runs (sbind m k) w (ends es Q).
Proof.
  intros Hm Hk. apply runs_bind. eapply runs_mono; [exact Hm|].
  intros r [s' tok] (es' & Ht & Ha & Hr). cbn in *. destruct r as [a|e| |]; [|by exists es'|done..].
  eapply runs_mono; [by eapply Hk|]. intros r w' (es'' & Ht' & Ha' & Hr').
  exists (es' ++ es''). rewrite app_assoc. done.
Qed.

Lemma ends_mono {A} (m : st world A) es
    (P P' : A -> list event -> session -> ReadCancellationToken.t -> Prop) w :
  (forall a es' s' tok, P a es' s' tok -> P' a es' s' tok) ->
  runs m w (ends es P) -> runs m w (ends es P').
Proof.
  intros HP Hm. eapply runs_mono; [exact Hm|]. intros r w' (es' & Ht & Ha & Hr).
  exists es'. split; [done|]. split; [done|]. destruct r; auto.
Qed.

(** What follows extends the traffic so far. *)
Lemma ends_extends {A} (m : st world A) es P w :
  runs m w (ends es P) ->
  runs m w (ends es (fun a es' s' tok => P a es' s' tok /\ exists es0, es' = es ++ es0)).
Proof.
  intros Hm. eapply runs_mono; [exact Hm|]. intros r w' (es' & Ht & Ha & Hr).
  exists es'. split; [done|]. split; [done|]. destruct r; try done. split; [done|by exists es'].
Qed.

Lemma ends_ret {A} (a : A) es (P : A -> list event -> session -> ReadCancellationToken.t -> Prop) s' tok :
  token_ok tok -> advances s es s' -> P a es s' tok -> runs (sret a) (s', tok) (ends es P).
Proof. intros. unfold runs, sret. exists []. by rewrite app_nil_r. Qed.

Lemma ends_lift {A} (m : client A) es (P : A -> list event -> session -> ReadCancellationToken.t -> Prop) s' tok :
  token_ok tok -> advances s es s' -> returns m ->
  (m = Err Cancelled -> settled es /\ cause es tok) ->
  (forall a, m = Ok a -> P a es s' tok) -> runs (slift m) (s', tok) (ends es P).
Proof.
  intros Ht Ha Hr He HP. apply runs_returns; [done|]. exists []. rewrite app_nil_r. split; [done|].
  split; [done|]. destruct m as [a|e| |]; [auto| |done..]. cbn. intros ->. right. by apply He.
Qed.

Lemma ends_bind_lift {A B} (m : client A) (k : A -> st world B) es Q s' tok :
  token_ok tok -> advances s es s' -> returns m -> honest m ->
  (forall a, m = Ok a -> runs (k a) (s', tok) (ends es Q)) ->
  runs (sbind (slift m) k) (s', tok) (ends es Q).
Proof.
  intros Ht Ha Hr Hh Hk. apply runs_bind_lift; [done| |done].
  intros e -> . exists []. rewrite app_nil_r. split; [done|]. split; [done|]. intros ->. by destruct Hh.
Qed.

(** ** Facts about the traffic *)

Lemma broken_app es es' : broken es -> broken (es ++ es').
Proof. intros (e & He & Hb). exists e. split; [apply elem_of_app; by left|done]. Qed.
Lemma broken_app_r es es' : broken es' -> broken (es ++ es').
Proof. intros (e & He & Hb). exists e. split; [apply elem_of_app; by right|done]. Qed.
Lemma cancel_sent_app es es' m : cancel_sent es m -> cancel_sent (es ++ es') m.
Proof.
  intros (id & o & n & a & plain & nk & Hr & Hc). exists id, o, n, a, plain, nk.
  split; [by apply requested_app|done].
Qed.
Lemma server_cancelled_app es es' : server_cancelled es -> server_cancelled (es ++ es').
Proof. intros (id & m & h & Ha & Hs). exists id, m, h. split; [by apply answered_app|done]. Qed.

Lemma traffic_app es es' ids ids' : traffic es ids -> ids ⊆ ids' ->
  (forall m r, ESend m r ∈ es' ->
     (exists id, read_sent m id /\ id ∈ ids') \/ cancel_sent (es ++ es') m) ->
  traffic (es ++ es') ids'.
Proof.
  intros Ht Hi Hnew m r [Hm|Hm]%elem_of_app.
  - destruct (Ht m r Hm) as [(id & Hr & Hin)|Hc]; [left|right; by apply cancel_sent_app].
    exists id. split; [done|]. destruct Hin as [Hin|(response & h & Ha)]; [left; by apply Hi|right].
    exists response, h. by apply answered_app.
  - destruct (Hnew m r Hm) as [(id & Hr & Hin)|Hc]; [left|by right]. exists id. auto.
Qed.

Lemma traffic_receive es ids e : traffic es ids -> is_send e = false -> traffic (es ++ [e]) ids.
Proof.
  intros Ht He. apply (traffic_app _ _ ids); [done|done|].
  intros m r <-%list_elem_of_singleton. done.
Qed.

Lemma traffic_answered es ids ids' : traffic es ids ->
  (forall id, id ∈ ids -> id ∈ ids' \/ exists response h, answered s file es id response h) ->
  traffic es ids'.
Proof.
  intros Ht Hi m r Hm. destruct (Ht m r Hm) as [(id & Hr & [Hin|Ha])|Hc]; [|left; eauto|by right].
  left. exists id. eauto.
Qed.

(** ** The token *)

Lemma is_current_runs es s' tok :
  token_ok tok -> advances s es s' ->
  runs (is_current generation) (s', tok) (ends es (fun current es' s'' tok' =>
    es' = es /\ s'' = s' /\ (moved tok -> moved tok') /\ (current = false -> moved tok'))).
Proof.
  intros [Hw Hg] Ha. unfold is_current, on_token, zoom, ReadCancellationToken.is_current, runs. cbn.
  destruct (ReadCancellationToken.interfere_wf tok Hw) as [Hw' Hle].
  exists []. rewrite app_nil_r. cbn. split; [split; [done|lia]|]. split; [done|].
  split; [done|]. split; [done|]. unfold moved. split; [lia|]. intros ?%Z.eqb_neq. lia.
Qed.

(** ** Sending *)

Lemma on_session_ends {A} (m : st session A) es (P : A -> list event -> session -> ReadCancellationToken.t -> Prop) s' tok :
  token_ok tok ->
  runs m s' (fun r s'' => exists es', advances s (es ++ es') s'' /\
    match r with
    | Ok a => P a (es ++ es') s'' tok
    | Err e => e = Cancelled -> broken (es ++ es')
    | _ => True
    end) ->
  runs (on_session m) (s', tok) (ends es P).
Proof.
  intros Ht Hm. apply runs_zoom. cbn. eapply runs_mono; [exact Hm|].
  intros r s'' (es' & Ha & Hr). exists es'. split; [done|]. split; [done|].
  destruct r; [done| |done..]. intros E. left. by apply Hr.
Qed.

(** A request whose message [encode] has signed already. *)
Lemma send_signed_runs charge minimum encode no_key es s1 (Q : client Z -> session -> Prop) :
  advances s es s1 -> 0 <= charge ->
  (forall id hint, returns (encode id hint) /\ honest (encode id hint)) ->
  (forall id m s', advances s (es ++ [ESend m (Ok tt)]) s' ->
     (exists hint, encode id hint = Ok m) -> Q (Ok id) s') ->
  (forall e es' s', advances s (es ++ es') s' -> (e = Cancelled -> broken (es ++ es')) -> Q (Err e) s') ->
  runs (send_request charge minimum encode false no_key) s1 Q.
Proof.
  intros Ha Hc Henc Hok Herr. unfold send_request.
  assert (forall e s', advances s es s' -> e <> Cancelled -> Q (Err e) s') as Herr0.
  { intros e s' Ha' Hne. apply (Herr e []); [by rewrite app_nil_r|done]. }
  apply runs_bind, runs_honest; [apply honest_connected, honest_reserve|].
  eapply reserve_step; [exact Ha|done| |intros e He; apply Herr0; congruence].
  intros hint s2 Ha2 _ _. apply runs_bind, runs_honest; [apply honest_connected, honest_allocate|].
  eapply allocate_step; [exact Ha2|done| |intros; by apply Herr0].
  intros s3 Ha3 _ _. set (mid := Connection.message_ids _).
  destruct (Henc mid hint) as [Hret Hhon].
  apply runs_bind_lift; [done|intros e He; apply Herr0; [done|congruence]|intros m Hm].
  run_step. cbn [Datatypes.id sign_request]. apply runs_bind_lift; [done|done|intros ? [= <-]].
  apply runs_bind. eapply send_step; [exact Ha3|]. intros [[]|e| |] s4 Ha4 _; try exact I.
  - unfold runs, sret. eapply Hok; [exact Ha4|eauto].
  - apply (Herr e [ESend m (Err e)]); [done|]. intros ->. apply broken_app_r.
    eexists. split; [by apply list_elem_of_singleton|eauto].
Qed.

Lemma sign_named_ok (s1 : session) es m command_ m' :
  advances s es s1 -> sign_named s1 m command_ = Ok m' ->
  exists no_key, sign_request s (SessionConnection.signing_required s) no_key m = Ok m'.
Proof.
  intros Ha. destruct (advances_fields _ _ _ Ha) as (_ & _ & _ & Hsig & Hreq).
  unfold sign_named, sign_request. rewrite Hsig, Hreq.
  destruct (SessionConnection.signing_required s); [|by exists ""].
  destruct (SessionConnection.signing s) as [sg|]; [|done]. cbn [ok_or obind].
  destruct (sign sg m) as [[|[]| |] ?]; intros [= <-]. by exists "".

Qed.

Lemma returns_sign_named (s1 : session) m command_ : returns (sign_named s1 m command_).
Proof.
  unfold sign_named. destruct (SessionConnection.signing_required s1); [|done].
  destruct (SessionConnection.signing s1) as [sg|]; [|done]. cbn [ok_or obind].
  pose proof (sign_returns sg m). by destruct (sign sg m) as [[|[]| |] ?].
Qed.

Lemma returns_cancel_message id async_id : returns (cancel_message id async_id).
Proof.
  unfold cancel_message. apply returns_from_wire. destruct async_id.
  - by rewrite CancelRequest.encode_async_ok.
  - by rewrite CancelRequest.encode_sync_ok.
Qed.

(** Sending a CANCEL for a READ. *)
Lemma send_cancel_runs id o n async_id es s1 (Q : client unit -> session -> Prop) :
  advances s es s1 -> requested s file es o n id ->
  (forall m s', advances s (es ++ [ESend m (Ok tt)]) s' -> cancel_sent es m -> Q (Ok tt) s') ->
  (forall e es' s', advances s (es ++ es') s' -> (e = Cancelled -> broken (es ++ es')) -> Q (Err e) s') ->
  (forall s', Q Panic s' /\ Q OutOfFuel s') ->
  runs (send_cancel_for_message_id id async_id) s1 Q.
Proof.
  intros Ha Hreq Hok Herr Hend. unfold send_cancel_for_message_id. run_step. cbn [Datatypes.id].
  destruct (advances_fields _ _ _ Ha) as (Hsid & _). rewrite Hsid.
  change (from_wire _) with (cancel_message id async_id).
  assert (forall e, e <> Cancelled -> Q (Err e) s1) as Herr0.
  { intros e Hne. apply (Herr e []); [by rewrite app_nil_r|done]. }
  apply runs_bind_lift; [apply returns_cancel_message| |intros plain Hp].
  { intros e He. apply Herr0. pose proof (honest_from_wire (match async_id with
      | Some a => CancelRequest.encode_async_message id (SessionConnection.session_id s) a
      | None => CancelRequest.encode_sync_message id (SessionConnection.session_id s) end)) as Hh.
    unfold cancel_message in He. rewrite He in Hh. congruence. }
  apply runs_bind_lift; [apply returns_sign_named| |intros m Hm].
  { intros e He. apply Herr0. pose proof (honest_sign_named s1 plain "CANCEL") as Hh.
    rewrite He in Hh. congruence. }
  eapply send_step; [exact Ha|]. intros [[]|e| |] s2 Ha2 _; [| |apply Hend..].
  - apply (Hok m); [done|]. destruct (sign_named_ok _ _ _ _ _ Ha Hm) as [nk Hs].
    by exists id, o, n, async_id, plain, nk.
  - apply (Herr e [ESend m (Err e)]); [done|]. intros ->. apply broken_app_r.
    eexists. split; [by apply list_elem_of_singleton|eauto].
Qed.

(** ** A wave *)

Definition entry (r : CancelableRead.t) : Z * Z :=
  (CancelableRead.message_id r, CancelableRead.chunk_len r).

Fixpoint missing (slots : list (option bytes)) : nat :=
  match slots with
  | [] => 0
  | None :: slots => S (missing slots)
  | Some _ :: slots => missing slots
  end.

Lemma missing_fill slots i data : slots !! i = Some None ->
  missing slots = S (missing (<[i := Some data]> slots)).
Proof.
  revert i. induction slots as [|slot slots IH]; intros [|i] Hi; try done; cbn in *.
  - by injection Hi as ->.
  - specialize (IH i Hi). by destruct slot; [exact IH|exact (f_equal S IH)].
Qed.

Lemma missing_none slots i : missing slots = 0%nat -> slots !! i <> Some None.
Proof.
  intros Hz Hi. pose proof (missing_fill slots i [] Hi) as Hf. by rewrite Hz in Hf.
Qed.

Lemma position_of_some id pending i : position_of id pending = Some i ->
  exists r, pending !! i = Some r /\ CancelableRead.message_id r = id.
Proof.
  revert i. induction pending as [|r pending IH]; intros i; cbn [position_of]; [done|].
  destruct (Z.eqb_spec (CancelableRead.message_id r) id) as [<-|]; [intros [= <-]; by exists r|].
  destruct (position_of id pending) as [j|]; [|done]. intros [= <-]. by apply IH.
Qed.

Section wave_laws.
Context (offset base remaining : Z).

(** The requests of the wave: MessageId and length of each, in file order. *)
Record planned (plan : list (Z * Z)) (es : list event) : Prop := {
  planned_bytes : plan_bytes plan <= remaining;
  planned_positive : Forall (fun q => 0 < q.2) plan;
  planned_requested : forall i id n, plan !! i = Some (id, n) ->
    requested s file es (offset + base + plan_bytes (take i plan)) n id
}.

Lemma planned_app plan es es' : planned plan es -> planned plan (es ++ es').
Proof. intros [? ? Hr]. split; [done|done|]. intros. by apply requested_app, Hr. Qed.

Lemma planned_entry plan es i r pending :
  planned plan es -> entry <$> pending = plan -> pending !! i = Some r ->
  plan !! i = Some (entry r) /\ 0 < CancelableRead.chunk_len r /\
  exists o, requested s file es o (CancelableRead.chunk_len r) (CancelableRead.message_id r).
Proof.
  intros [_ Hpos Hreq] <- Hi.
  assert ((entry <$> pending) !! i = Some (entry r)) as Hp by by rewrite list_lookup_fmap, Hi.
  split; [done|]. split.
  - rewrite Forall_forall in Hpos. apply (Hpos (entry r)). by eapply list_elem_of_lookup_2.
  - eexists. exact (Hreq _ _ _ Hp).
Qed.

(** The wave after the traffic [es]. A slot that is filled was answered; while
    nothing went wrong its data is what the answer holds, and a short answer is
    remembered. *)
Record wave_inv (plan : list (Z * Z)) (w : Wave.t) (es : list event) (tok : ReadCancellationToken.t) :
    Prop := {
  wave_planned : planned plan es;
  wave_plan : entry <$> Wave.pending w = plan;
  wave_traffic : traffic es plan.*1;
  wave_length : length (Wave.completed w) = length plan;
  wave_received : Wave.received w + Z.of_nat (missing (Wave.completed w)) = len plan;
  wave_slots : forall i id n data, plan !! i = Some (id, n) ->
    Wave.completed w !! i = Some (Some data) ->
    exists response h, answered s file es id response h /\
      (Wave.first_status_error w = None -> Wave.cancelled w = false ->
         response_data response h n data /\
         (len data < n -> exists k, Wave.short_response_at w = Some k /\ k <= Z.of_nat i));
  wave_short : forall k, Wave.short_response_at w = Some k -> 0 <= k /\ exists id n data,
    plan !! Z.to_nat k = Some (id, n) /\ Wave.completed w !! Z.to_nat k = Some (Some data) /\
    len data < n;
  wave_cancelled : Wave.cancelled w = true -> cause es tok
}.

Lemma cause_app es es' tok tok' : (moved tok -> moved tok') -> cause es tok -> cause (es ++ es') tok'.
Proof. intros Hm [Hc|Hc]; [left; auto|right; by apply server_cancelled_app]. Qed.

Lemma wave_inv_app plan w es es' tok tok' :
  wave_inv plan w es tok -> (moved tok -> moved tok') -> traffic (es ++ es') plan.*1 ->
  wave_inv plan w (es ++ es') tok'.
Proof.
  intros [] Hm Ht. split; try done.
  - by apply planned_app.
  - intros i id n data Hp Hc. destruct (wave_slots0 i id n data Hp Hc) as (m & h & Ha & Hd).
    exists m, h. split; [by apply answered_app|done].
  - intros Hc. by eapply cause_app; eauto.
Qed.

Lemma wave_inv_set_pending plan w es tok pending :
  wave_inv plan w es tok -> entry <$> pending = plan -> wave_inv plan (Wave.set_pending w pending) es tok.
Proof. intros [] Hp. by split. Qed.

Lemma wave_inv_new plan pending es tok (cancelled : bool) :
  planned plan es -> entry <$> pending = plan -> traffic es plan.*1 ->
  (cancelled = true -> cause es tok) -> wave_inv plan (Wave.new pending cancelled) es tok.
Proof.
  intros Hpl <- Ht Hc. split; cbn; try done.
  - by rewrite length_replicate, length_fmap.
  - unfold len. rewrite length_fmap. clear.
    induction pending as [|r pending IH]; cbn in *; [done|lia].
  - intros i id n data _ Hi. by apply lookup_replicate_1 in Hi as [? _].
Qed.

(** A wave all of whose answers came. *)
Lemma wave_inv_drained plan w es tok :
  wave_inv plan w es tok -> len plan <= Wave.received w -> settled es.
Proof.
  intros [] Hr. assert (missing (Wave.completed w) = 0%nat) as Hz by lia.
  eapply traffic_answered; [exact wave_traffic0|]. intros id Hid. right.
  apply list_elem_of_fmap in Hid as ([id' n] & -> & [i Hi]%list_elem_of_lookup_1).
  destruct (lookup_lt_is_Some_2 (Wave.completed w) i) as [slot Hslot].
  { rewrite wave_length0. by eapply lookup_lt_Some. }
  destruct slot as [data|]; [|by destruct (missing_none _ i Hz)].
  destruct (wave_slots0 i id' n data Hi Hslot) as (m & h & Ha & _). by exists m, h.
Qed.

(** The CANCELs of a wave. *)
Lemma send_cancels_runs pending : forall completed es s1 ids,
  advances s es s1 -> traffic es ids ->
  Forall (fun r => exists o n, requested s file es o n (CancelableRead.message_id r)) pending ->
  runs (send_cancel_requests pending completed) s1 (fun r s2 => exists es',
    advances s (es ++ es') s2 /\
    match r with
    | Ok pending' => entry <$> pending' = entry <$> pending /\ traffic (es ++ es') ids
    | Err e => e = Cancelled -> broken (es ++ es')
    | _ => True
    end).
Proof.
  induction pending as [|r pending IH]; intros completed es s1 ids Ha Ht Hreq; cbn [send_cancel_requests].
  { unfold runs, sret. exists []. by rewrite app_nil_r. }
  apply Forall_cons in Hreq as [(o & n & Hr) Hreq].
  assert (forall es0 s2 r0, advances s (es ++ es0) s2 -> traffic (es ++ es0) ids ->
    CancelableRead.message_id r0 = CancelableRead.message_id r ->
    CancelableRead.chunk_len r0 = CancelableRead.chunk_len r ->
    forall completed, runs (do! pending := send_cancel_requests pending completed in sret (r0 :: pending)) s2
      (fun res s3 => exists es', advances s (es ++ es') s3 /\
         match res with
         | Ok pending' => entry <$> pending' = entry <$> r :: pending /\ traffic (es ++ es') ids
         | Err e => e = Cancelled -> broken (es ++ es')
         | _ => True
         end)) as Hrest.
  { intros es0 s2 r0 Ha0 Ht0 Hid Hn completed'. apply runs_bind.
    eapply runs_mono; [eapply IH; [exact Ha0|exact Ht0|]|].
    { eapply Forall_impl; [exact Hreq|]. intros r1 (o1 & n1 & Hr1). exists o1, n1.
      by apply requested_app. }
    intros res s3 (es' & Ha3 & Hres). rewrite <- app_assoc in Ha3, Hres.
    destruct res as [p'|e| |]; [|by exists (es0 ++ es')|done..].
    unfold runs, sret. exists (es0 ++ es'). split; [done|]. destruct Hres as [Hp Ht'].
    split; [|done]. cbn. by rewrite Hp; unfold entry; rewrite Hid, Hn. }
  destruct completed as [|[data|] completed].
  { unfold runs, sret. exists []. by rewrite app_nil_r. }
  { apply (Hrest []); rewrite ?app_nil_r; done. }
  cbv zeta. apply runs_bind. eapply (send_cancel_runs _ o n); [exact Ha|exact Hr| | |done].
  - intros m s2 Ha2 Hc. apply (Hrest [ESend m (Ok tt)]); [done| |done|done].
    eapply traffic_app; [exact Ht|done|]. intros m' r' [= -> ->]%list_elem_of_singleton.
    right. by apply cancel_sent_app.
  - intros e es' s2 Ha2 He. by exists es'.
Qed.

Lemma wave_requests plan w es tok : wave_inv plan w es tok ->
  Forall (fun r => exists o n, requested s file es o n (CancelableRead.message_id r)) (Wave.pending w).
Proof.
  intros []. apply Forall_forall. intros r [i Hi]%list_elem_of_lookup_1.
  destruct (planned_entry _ _ _ _ _ wave_planned0 wave_plan0 Hi) as (_ & _ & o & Ho). by exists o, (CancelableRead.chunk_len r).
Qed.

Lemma cancel_wave_runs plan w es s1 tok :
  token_ok tok -> advances s es s1 -> wave_inv plan w es tok -> moved tok ->
  runs (cancel_wave w) (s1, tok) (ends es (fun w' es' _ tok' => wave_inv plan w' es' tok')).
Proof.
  intros Ht Ha Hw Hm. unfold cancel_wave. eapply ends_bind.
  - apply (on_session_ends _ _ (fun pending' es' _ tok' =>
      wave_inv plan (Wave.set_pending (Wave.set_cancelled w) pending') es' tok')); [done|].
    eapply runs_mono; [by eapply send_cancels_runs; [|by apply (wave_traffic _ _ _ _ Hw)|by eapply wave_requests]|].
    intros r s2 (es' & Ha2 & Hr). exists es'. split; [done|]. destruct r as [p'|e| |]; try done.
    destruct Hr as [Hp Ht2]. pose proof (wave_inv_app _ _ _ es' tok tok Hw id Ht2) as [].
    split; cbn; try done; [congruence| |by left].
    intros i id n data Hi Hd. destruct (wave_slots0 i id n data Hi Hd) as (m & h & Hans & _).
    by exists m, h.
  - intros p' es' s2 tok' Ht2 Ha2 Hw2. by apply ends_ret.
Qed.

Lemma look_runs plan w es s1 tok :
  token_ok tok -> advances s es s1 -> wave_inv plan w es tok ->
  runs (look generation w) (s1, tok) (ends es (fun w' es' _ tok' => wave_inv plan w' es' tok')).
Proof.
  intros Ht Ha Hw. unfold look. destruct (Wave.cancelled w) eqn:Hc; [by apply ends_ret|].
  eapply ends_bind; [by apply is_current_runs|].
  intros current es' s2 tok' Ht2 Ha2 (-> & -> & Hmove & Hno).
  assert (wave_inv plan w es tok') as Hw'.
  { rewrite <- (app_nil_r es). eapply wave_inv_app; [done|done|]. rewrite app_nil_r. apply Hw. }
  destruct current; [by apply ends_ret|]. by apply cancel_wave_runs; auto.
Qed.

(** ** Scheduling *)

Context (options : PipelinedReadOptions.t) (multi : bool) (max_read : Z).
Context (Hread : 0 < max_read) (Hchunk : 0 < PipelinedReadOptions.chunk_size options).
Context (Hoffset : 0 <= offset) (Hbase : 0 <= base) (Hmax : base + remaining <= usize_max).

Definition scheduled (pending : list CancelableRead.t) (es : list event) : Prop :=
  planned (entry <$> pending) es /\ traffic es (entry <$> pending).*1.

Lemma cancelable_credit_charge_eq n : 0 < n ->
  cancelable_credit_charge multi n = read_credit_charge multi n.
Proof.
  intros ?. unfold cancelable_credit_charge, read_credit_charge, credit_charge, sub_or_panic.
  destruct multi; [|done]. cbn [negb].
  rewrite (proj2 (Z.eqb_neq _ _)), (proj2 (Z.leb_le _ _)) by lia. done.
Qed.

Lemma honest_credit_charge op n : honest (credit_charge op multi n).
Proof. unfold credit_charge. by repeat case_match; try apply honest_protocol. Qed.

Lemma cancelable_request_ok es s1 done_ n charge id hint :
  advances s es s1 -> 0 <= done_ <= remaining ->
  returns (cancelable_request file offset s1 base done_ n charge id hint) /\
  honest (cancelable_request file offset s1 base done_ n charge id hint) /\
  forall m, cancelable_request file offset s1 base done_ n charge id hint = Ok m ->
    request_sent s (chunk_read_request s file (offset + base + done_) n charge)
      (SessionConnection.signing_required s) id m.
Proof.
  intros Ha Hd. unfold cancelable_request, add_or_panic.
  rewrite (proj2 (Z.leb_le _ _)) by lia. cbn [obind].
  rewrite try_from_ok by (unfold u64_max, usize_max in *; lia). cbn [ok_or obind].
  destruct (checked_add u64_max offset (base + done_)) as [o|] eqn:Eo; [|done].
  apply checked_add_some in Eo as [-> _]. cbn [ok_or obind].
  destruct (read_request_eq s1 file (offset + (base + done_)) n charge id hint) as [Hret Heq].
  split; [by apply returns_bind; [done|intros; apply returns_sign_named]|]. split.
  { apply honest_bind; [|intros; apply honest_sign_named]. unfold read_request.
    apply honest_bind; [apply honest_protocol|intros; apply honest_from_wire]. }
  intros m (plain & Hp & Hm)%obind_ok. apply Heq in Hp.
  destruct (sign_named_ok _ _ _ _ _ Ha Hm) as [nk Hs]. exists hint, plain, nk.
  split; [|done]. rewrite <- Z.add_assoc. revert Hp.
  by rewrite (advances_session _ _ _ Ha).
Qed.

Lemma scheduled_snoc pending es m id n :
  scheduled pending es -> 0 < n -> plan_bytes (entry <$> pending) + n <= remaining ->
  (exists charge, request_sent s
     (chunk_read_request s file (offset + base + plan_bytes (entry <$> pending)) n charge)
     (SessionConnection.signing_required s) id m) ->
  scheduled (pending ++ [CancelableRead.mk id n AsyncResponseState.default false])
    (es ++ [ESend m (Ok tt)]).
Proof.
  intros [[Hb Hpos Hreq] Ht] Hn Hfit [charge Hm]. unfold scheduled. rewrite !fmap_app. cbn. split.
  - split.
    + rewrite plan_bytes_app. cbn. lia.
    + apply Forall_app. split; [done|by constructor].
    + intros i id' n' [Hi|[Hge Hi]]%lookup_app_Some.
      * rewrite take_app_le by (apply lookup_lt_Some in Hi; lia). by apply requested_app, Hreq.
      * apply list_lookup_singleton_Some in Hi as [Hz [= -> ->]].
        rewrite take_app_length' by lia. exists charge, m. split; [|done].
        apply elem_of_app. right. by apply list_elem_of_singleton.
  - eapply traffic_app; [exact Ht|by apply list_subseteq_app_l|].
    intros m' r [= -> ->]%list_elem_of_singleton. left. exists id.
    split; [eexists _, _, charge; exact Hm|]. apply elem_of_app. right. by apply list_elem_of_singleton.
Qed.

Lemma schedule_wave_runs fuel : forall pending es s1 tok,
  token_ok tok -> advances s es s1 -> scheduled pending es ->
  remaining - plan_bytes (entry <$> pending) <= Z.of_nat fuel ->
  runs (schedule_wave file offset options generation fuel multi max_read base remaining pending
          (plan_bytes (entry <$> pending))) (s1, tok)
    (ends es (fun pending' es' _ _ => scheduled pending' es')).
Proof.
  induction fuel as [|fuel IH]; intros pending es s1 tok Ht Ha Hsch Hfuel; cbn [schedule_wave].
  all: destruct (_ && _) eqn:Hmore; [|by apply ends_ret].
  { bool_facts. lia. }
  apply andb_true_iff in Hmore as [_ Hmore%Z.ltb_lt].
  eapply ends_bind; [by apply is_current_runs|].
  intros current es' s2 tok' Ht2 Ha2 (-> & -> & _ & Hno).
  destruct current; cbn [negb]; [|by apply ends_ret]. run_step. cbn [fst].
  destruct (Connection.available_credits _) as [available|] eqn:Hav; [|by apply ends_lift].
  destruct (Z.eqb_spec available 0) as [|Hav0]; [by apply ends_ret|]. cbv zeta.
  assert (u32 available) as Hu.
  { revert Hav. unfold Connection.available_credits.
    destruct (Connection.credits _) as [w|] eqn:Hw; [|done]. intros [= <-].
    by apply (Connection.wf_credits _ (advances_wf _ _ _ Ha2)) in Hw as [? _]. }
  pose proof (credit_limited_payload_pos multi available Hu ltac:(unfold uint in Hu; lia)).
  pose proof (plan_bytes_length _ (planned_positive _ _ (proj1 Hsch))) as Hpb.
  set (n := Z.min _ _). assert (0 < n /\ n <= remaining - plan_bytes (entry <$> pending) /\
    n <= credit_limited_payload multi available) as (Hn & Hfit & Hcl) by lia.
  assert (0 <= plan_bytes (entry <$> pending) <= remaining) as Hbounds by lia.
  destruct (Z.eqb_spec n 0); [lia|]. rewrite cancelable_credit_charge_eq by done.
  apply ends_bind_lift; [done..|apply returns_credit_charge|apply honest_credit_charge|].
  intros charge Ech. apply (credit_charge_affordable _ _ available) in Ech as (Hch & _); [|done|lia].
  apply ends_bind with (P := fun id es2 _ _ =>
    scheduled (pending ++ [CancelableRead.mk id n AsyncResponseState.default false]) es2).
  { apply on_session_ends; [done|]. eapply send_signed_runs; [exact Ha2|lia| | |].
    - intros id hint.
      destruct (cancelable_request_ok es s1 (plan_bytes (entry <$> pending)) n charge id hint Ha2 Hbounds)
        as (? & ? & _). done.
    - intros id m s3 Ha3 [hint Hm]. exists [ESend m (Ok tt)]. split; [done|].
      apply scheduled_snoc; [done..|lia|]. exists charge.
      by apply (cancelable_request_ok es s1 (plan_bytes (entry <$> pending)) n charge id hint Ha2 Hbounds).
    - intros e es3 s3 Ha3 He. by exists es3. }
  intros id es2 s3 tok3 Ht3 Ha3 Hs3. unfold add_or_panic.
  assert (plan_bytes (entry <$> (pending ++ [CancelableRead.mk id n AsyncResponseState.default false]))
          = plan_bytes (entry <$> pending) + n) as Hpn
    by (rewrite fmap_app, plan_bytes_app; cbn; lia).
  rewrite (proj2 (Z.leb_le _ _)) by lia. apply ends_bind_lift; [done..|]. intros ? [= <-].
  rewrite <- Hpn. apply IH; [done..|lia].
Qed.

(** ** Receiving *)

Lemma slot_outcome_meets m h position n w : 0 < n ->
  honest (slot_outcome m h position n w) /\
  meets (slot_outcome m h position n w) (fun '(data, short', error', cancelled') =>
    (error' = None -> Wave.first_status_error w = None) /\
    (cancelled' = false -> Wave.cancelled w = false) /\
    (cancelled' = true -> Wave.cancelled w = true \/ status h = Status STATUS_CANCELLED) /\
    (error' = None -> cancelled' = false -> response_data m h n data /\
       (len data < n -> short' = short_at (Wave.short_response_at w) position)) /\
    (short' = Wave.short_response_at w \/
     short' = short_at (Wave.short_response_at w) position /\ len data < n)).
Proof.
  intros Hn. unfold slot_outcome. destruct (status h) as [?|v] eqn:Est; [done|].
  destruct (Z.eqb_spec v 0) as [->|Hv0].
  - split.
    { apply honest_bind; [apply honest_from_wire|intros r _]. by case_match. }
    apply meets_returns_bind; [apply returns_from_wire, ReadResponse.read_response_returns_decode_message|].
    intros r Hr%from_wire_ok.
    pose proof (ReadResponse.read_response_decode_message_inv _ _ Hr)
      as (_ & _ & _ & _ & _ & _ & Hlen & _).
    destruct (Z.ltb_spec n (len (ReadResponse.data r))); [done|]. cbn.
    split_and!; try done; try auto.
    + intros _ _. split; [left; split; [done|]; split; [lia|by exists r]|].
      intros Hlt. by rewrite (proj2 (Z.ltb_lt _ _)).
    + destruct (Z.ltb_spec (len (ReadResponse.data r)) n); auto.
  - split; [by repeat case_match|].
    destruct (Z.eqb_spec v STATUS_CANCELLED) as [->|Hvc]; [cbn; split_and!; auto; done|].
    destruct (Z.eqb_spec v STATUS_END_OF_FILE) as [->|Hve]; cbn.
    + split_and!; auto. intros _ _. split; [by right|done].
    + split_and!; auto; done.
Qed.

(** An answered request's slot is filled. *)
Lemma wave_inv_complete plan w es tok i r m h data short error cancelled :
  wave_inv plan w es tok -> Wave.pending w !! i = Some r -> Wave.completed w !! i = Some None ->
  answered s file es (CancelableRead.message_id r) m h ->
  slot_outcome m h (Z.of_nat i) (CancelableRead.chunk_len r) w = Ok (data, short, error, cancelled) ->
  wave_inv plan (Wave.mk (Wave.pending w) (<[i := Some data]> (Wave.completed w)) short error cancelled
                   (Wave.received w + 1)) es tok.
Proof.
  intros [] Hr Hslot Hans Hout.
  destruct (planned_entry _ _ _ _ _ wave_planned0 wave_plan0 Hr) as (Hpi & Hn & _).
  destruct (slot_outcome_meets m h (Z.of_nat i) (CancelableRead.chunk_len r) w Hn) as [_ Hm].
  rewrite Hout in Hm. destruct Hm as (Herr & Hcan & Hcan' & Hdata & Hshort).
  assert (i < length (Wave.completed w))%nat as Hil by by eapply lookup_lt_Some.
  split; cbn; try done.
  - by rewrite length_insert.
  - pose proof (missing_fill _ i data Hslot). lia.
  - intros j id n d Hj Hd. destruct (decide (j = i)) as [->|Hji].
    + rewrite list_lookup_insert_eq in Hd by lia. injection Hd as <-.
      rewrite Hpi in Hj. injection Hj as <- <-. exists m, h. split; [done|].
      intros He Hc. destruct (Hdata He Hc) as [Hrd Hs]. split; [done|]. intros Hlt.
      rewrite (Hs Hlt). unfold short_at. eexists. split; [done|].
      destruct (Wave.short_response_at w); lia.
    + rewrite list_lookup_insert_ne in Hd by done.
      destruct (wave_slots0 j id n d Hj Hd) as (m' & h' & Ha' & Hd'). exists m', h'. split; [done|].
      intros He Hc. destruct (Hd' (Herr He) (Hcan Hc)) as [Hrd Hk]. split; [done|]. intros Hlt.
      destruct (Hk Hlt) as (k & Hks & Hkj). destruct Hshort as [->|[-> _]]; [by exists k|].
      rewrite Hks. unfold short_at. eexists. split; [done|]. lia.
  - assert (forall k, Wave.short_response_at w = Some k -> 0 <= k /\ exists id n d,
      plan !! Z.to_nat k = Some (id, n) /\
      <[i := Some data]> (Wave.completed w) !! Z.to_nat k = Some (Some d) /\ len d < n) as Hold.
    { intros k Hk. destruct (wave_short0 k Hk) as (? & id & n & d & Hp & Hc & Hlt).
      split; [done|]. exists id, n, d. split; [done|]. split; [|done].
      rewrite list_lookup_insert_ne; [done|]. intros E. rewrite <- E in Hc. congruence. }
    intros k Hk. destruct Hshort as [->|[-> Hlt]]; [by apply Hold|]. unfold short_at in Hk.
    assert (k = Z.of_nat i \/ Wave.short_response_at w = Some k) as [->|Hk']; [|split; [lia|]|by apply Hold].
    { destruct (Wave.short_response_at w) as [k'|]; injection Hk as <-; [|by left].
      destruct (Z.min_spec k' (Z.of_nat i)) as [[_ ->]|[_ ->]]; [by right|by left]. }
    exists (CancelableRead.message_id r), (CancelableRead.chunk_len r), data.
    rewrite Nat2Z.id. split; [done|]. split; [|done]. by rewrite list_lookup_insert_eq by lia.
  - intros Hc. destruct (Hcan' Hc) as [Hw|Hst]; [by apply wave_cancelled0|].
    right. by exists (CancelableRead.message_id r), m, h.
Qed.

Lemma wave_inv_interim plan w es tok i r st :
  wave_inv plan w es tok -> Wave.pending w !! i = Some r ->
  CancelableRead.message_id st = CancelableRead.message_id r ->
  CancelableRead.chunk_len st = CancelableRead.chunk_len r ->
  wave_inv plan (Wave.set_pending w (<[i := st]> (Wave.pending w))) es tok.
Proof.
  intros Hw Hr Hid Hn. apply wave_inv_set_pending; [done|].
  rewrite list_fmap_insert, <- (wave_plan _ _ _ _ Hw). apply list_insert_id.
  rewrite list_lookup_fmap, Hr. unfold entry. cbn. by rewrite Hid, Hn.
Qed.

(** What one turn of the receiving loop comes to. *)
Definition took (plan : list (Z * Z)) (es : list event) (tok : ReadCancellationToken.t)
    (r : client Wave.t) (s' : session) : Prop :=
  exists es', advances s (es ++ es') s' /\
  match r with
  | Ok w => wave_inv plan w (es ++ es') tok
  | Err e => e = Cancelled -> broken (es ++ es')
  | _ => True
  end.

Lemma took_error plan es es' tok e s' :
  advances s (es ++ es') s' -> e <> Cancelled -> took plan es tok (Err e) s'.
Proof. intros. by exists es'. Qed.

Lemma took_lift {A} (m : client A) (k : A -> st session Wave.t) plan es es' tok s' :
  advances s (es ++ es') s' -> returns m -> honest m ->
  (forall a, m = Ok a -> runs (k a) s' (took plan es tok)) ->
  runs (sbind (slift m) k) s' (took plan es tok).
Proof.
  intros Ha Hr Hh Hk. apply runs_bind_lift; [done| |done].
  intros e He. eapply took_error; [done|]. intros ->. by destruct Hh.
Qed.

Lemma answered_final es m h s1 st st' id :
  advances s es s1 -> EReceive (Ok m) ∈ es -> decode_header m = Ok h ->
  AsyncResponseState.validate Command.Read (FileHandle.tree_id file)
    (SessionConnection.session_id s1) id h st = (Ok Final, st') ->
  verify_read s1 m h Final = Ok tt ->
  answered s file es id m h.
Proof.
  intros Ha Hin Hh Hv Hsig. destruct (advances_fields _ _ _ Ha) as (Hsid & _ & _ & Hsg & Hreq).
  split; [done|]. split; [done|]. split; [exists st, st'; by rewrite <- Hsid|].
  apply verify_response_ok in Hsig. revert Hsig. unfold signature_accepted, requires_signature.
  by rewrite bool_decide_true, andb_true_r, Hsg, Hreq.
Qed.

Lemma receive_read_runs plan w es s1 tok :
  advances s es s1 -> wave_inv plan w es tok ->
  runs (receive_read file w) s1 (took plan es tok).
Proof.
  intros Ha Hw. unfold receive_read. apply runs_bind. eapply receive_step; [exact Ha|].
  intros [m|e| |] s2 Ha2; try exact I.
  2:{ exists [EReceive (Err e)]. split; [done|]. intros ->. apply broken_app_r.
      eexists. split; [by apply list_elem_of_singleton|by left]. }
  pose proof (wave_inv_app _ _ _ [EReceive (Ok m)] tok tok Hw (fun x => x)
    (traffic_receive es _ (EReceive (Ok m)) (wave_traffic _ _ _ _ Hw) eq_refl)) as Hw2.
  eapply took_lift; [exact Ha2|auto with returns|apply honest_from_wire|intros h Hh%from_wire_ok].
  eapply took_lift; [exact Ha2|apply returns_ok_or|apply honest_protocol|].
  intros i (r & Hr & Hid)%ok_or_ok%position_of_some. rewrite Hr.
  destruct (planned_entry _ _ _ _ _ (wave_planned _ _ _ _ Hw2) (wave_plan _ _ _ _ Hw2) Hr)
    as (Hpi & Hn & o & Ho).
  destruct (lookup_lt_is_Some_2 (Wave.completed w) i) as [slot Hslot].
  { rewrite (wave_length _ _ _ _ Hw). by eapply lookup_lt_Some. }
  rewrite Hslot. destruct (bool_decide (is_Some slot)) eqn:Hfull.
  { apply runs_returns; [done|]. by eapply took_error. }
  apply bool_decide_eq_false, eq_None_not_Some in Hfull as ->. cbv zeta. run_step. cbn [Datatypes.id].
  destruct (AsyncResponseState.validate _ _ _ _ _ _) as [phase state] eqn:Hv.
  pose proof (async_returns_validate Command.Read (FileHandle.tree_id file)
    (SessionConnection.session_id s2) (CancelableRead.message_id r) h (CancelableRead.async_state r)) as Hvr.
  pose proof (honest_validate Command.Read (FileHandle.tree_id file)
    (SessionConnection.session_id s2) (CancelableRead.message_id r) h (CancelableRead.async_state r)) as Hvh.
  rewrite Hv in Hvr, Hvh. eapply took_lift; [exact Ha2|done|done|intros ph ->]. cbv zeta.
  apply runs_bind, runs_honest; [apply honest_connected, honest_grant|].
  eapply grant_step; [exact Ha2| | |intros e He; eapply took_error; [exact Ha2|congruence]].
  { apply decode_header_inv in Hh as (_ & Hwf & _). apply Hwf. }
  intros s3 Ha3 _.
  eapply took_lift; [exact Ha3|apply returns_verify_response|apply honest_verify_response|intros [] Hsig].
  set (r' := CancelableRead.set_async_state r state).
  assert (wave_inv plan (Wave.set_pending w (<[i := r']> (Wave.pending w)))
            (es ++ [EReceive (Ok m)]) tok) as Hw3 by (by eapply wave_inv_interim).
  destruct ph.
  - destruct (Wave.cancelled w && _); [|unfold runs, sret; by exists [EReceive (Ok m)]].
    eapply took_lift; [exact Ha3|apply returns_ok_or|apply honest_protocol|intros a _].
    apply runs_bind. eapply (send_cancel_runs _ o); [exact Ha3|exact Ho| | |done].
    + intros cm s4 Ha4 Hc. unfold runs, sret. exists ([EReceive (Ok m)] ++ [ESend cm (Ok tt)]).
      rewrite app_assoc. split; [done|].
      assert (wave_inv plan (Wave.set_pending w (<[i := CancelableRead.set_cancel_sent r' true]>
        (<[i := r']> (Wave.pending w)))) (es ++ [EReceive (Ok m)]) tok) as Hw4.
      { rewrite list_insert_insert_eq. by eapply wave_inv_interim. }
      eapply wave_inv_app; [exact Hw4|done|].
      eapply traffic_app; [apply (wave_traffic _ _ _ _ Hw4)|done|].
      intros m' x [= -> ->]%list_elem_of_singleton. right. by apply cancel_sent_app.
    + intros e es' s4 Ha4 He. exists ([EReceive (Ok m)] ++ es'). by rewrite app_assoc.
  - assert (answered s file (es ++ [EReceive (Ok m)]) (CancelableRead.message_id r) m h) as Hans.
    { eapply answered_final; [exact Ha2| |done|exact Hv|exact Hsig].
      apply elem_of_app. right. by apply list_elem_of_singleton. }
    destruct (slot_outcome_meets m h (Z.of_nat i) (CancelableRead.chunk_len r) w Hn) as [Hsh Hsm].
    eapply took_lift; [exact Ha3|by eapply meets_returns|exact Hsh|].
    intros [[[data short] error] cancelled] Hout.
    pose proof (wave_inv_complete plan (Wave.set_pending w (<[i := r']> (Wave.pending w))) _ tok i r' m h
      data short error cancelled Hw3 ltac:(cbn; apply list_lookup_insert_eq; by eapply lookup_lt_Some)
      Hslot Hans Hout) as Hdone.
    pose proof (wave_received _ _ _ _ Hdone) as Hcount. cbn in Hcount.
    pose proof (planned_bytes _ _ (wave_planned _ _ _ _ Hw)).
    pose proof (plan_bytes_length plan (planned_positive _ _ (wave_planned _ _ _ _ Hw))).
    unfold len in Hcount. unfold add_or_panic. rewrite (proj2 (Z.leb_le _ _)) by lia.
    eapply took_lift; [exact Ha3|done|done|intros ? [= <-]].
    unfold runs, sret. exists [EReceive (Ok m)]. split; [done|]. exact Hdone.
Qed.

Lemma receive_wave_runs patience : forall plan w es s1 tok,
  token_ok tok -> advances s es s1 -> wave_inv plan w es tok ->
  runs (receive_wave file generation patience w) (s1, tok) (ends es (fun w' es' _ tok' =>
    wave_inv plan w' es' tok' /\ len plan <= Wave.received w')).
Proof.
  induction patience as [|patience IH]; intros plan w es s1 tok Ht Ha Hw; cbn [receive_wave].
  all: assert (len (Wave.pending w) = len plan) as Hlen
    by (rewrite <- (wave_plan _ _ _ _ Hw); unfold len; by rewrite length_fmap).
  all: destruct (Z.ltb_spec (Wave.received w) (len (Wave.pending w)));
    [|apply ends_ret; [done..|split; [done|lia]]].
  { done. }
  eapply ends_bind; [by eapply look_runs|]. intros w1 es1 s2 tok1 Ht1 Ha1 Hw1. cbn beta in Hw1.
  eapply ends_bind; [by eapply look_runs|]. intros w2 es2 s3 tok2 Ht2 Ha2 Hw2. cbn beta in Hw2.
  eapply ends_bind; [apply (on_session_ends _ _ (fun w3 es3 _ tok3 => wave_inv plan w3 es3 tok3)); [done|by apply (receive_read_runs plan)]|].
  intros w3 es3 s4 tok3 Ht3 Ha3 Hw3. cbn beta in Hw3. by apply IH.
Qed.
End wave_laws.

(** ** The loop over the waves *)

Lemma assembled_mono es es' off data ended :
  assembled s file es off data ended -> assembled s file (es ++ es') off data ended.
Proof.
  induction 1.
  - constructor.
  - eapply assembled_full; [by apply requested_app|by apply answered_app|done..].
  - eapply assembled_short; [by apply requested_app|by apply answered_app|done..].
Qed.

Lemma assembled_app es off data1 e1 data2 ended :
  assembled s file es off data1 e1 -> e1 = false ->
  assembled s file es (off + len data1) data2 ended -> assembled s file es off (data1 ++ data2) ended.
Proof.
  induction 1 as [off|off id n response h data rest e Hr Ha Hd Hn Hrest IH|]; intros He Hsnd; [| |done].
  - by rewrite len_nil, Z.add_0_r in Hsnd.
  - rewrite <- app_assoc. eapply assembled_full; [done..|]. apply IH; [done|].
    rewrite len_app in Hsnd. by rewrite <- Hn, <- Z.add_assoc.
Qed.

Lemma collect_eq slots : Forall is_Some slots -> forall position short out,
  (forall k, short = Some k -> 0 <= k < len slots) ->
  exists o,
    assemble (take (match short with Some k => Z.to_nat (k + 1) | None => length slots end) slots) out
    = Ok o /\
    collect slots position (Z.add position <$> short) out = Ok (o, bool_decide (is_Some short)).
Proof.
  induction 1 as [|slot slots [data ->] Hall IH]; intros position short out Hk.
  { destruct short as [k|]; [|by exists out]. specialize (Hk k eq_refl). unfold len in Hk. cbn in Hk. lia. }
  assert (forall k, short = Some k -> 0 <= k < 1 + len slots) as Hk'
    by (intros k E; specialize (Hk k E); unfold len in *; cbn [length] in Hk; lia).
  clear Hk. rename Hk' into Hk. cbn [collect ok_or obind]. destruct (decide (short = Some 0)) as [->|Hne].
  { exists (out ++ data). cbn. by rewrite Z.add_0_r, bool_decide_true. }
  destruct (IH (position + 1) (Z.pred <$> short) (out ++ data)) as (o & Ho & Hc).
  { intros k. destruct short as [k'|]; [|done]. intros [= <-]. specialize (Hk k' eq_refl).
    assert (k' <> 0) by congruence. lia. }
  exists o. split.
  - destruct short as [k|]; [|exact Ho]. specialize (Hk k eq_refl). assert (k <> 0) by congruence.
    cbn [fmap option_fmap option_map] in Ho.
    replace (Z.to_nat (k + 1)) with (S (Z.to_nat (Z.pred k + 1))) by lia. exact Ho.
  - rewrite bool_decide_false.
    2:{ destruct short as [k|]; [|done]. intros [= E]. destruct Hne. f_equal. lia. }
    destruct short as [k|]; [|exact Hc]. cbn [fmap option_fmap option_map] in *.
    replace (position + k) with (position + 1 + Z.pred k) by lia. exact Hc.
Qed.

(** The slots of a wave that nothing went wrong with. *)
Lemma wave_inv_slots offset base remaining plan w es tok :
  wave_inv offset base remaining plan w es tok -> len plan <= Wave.received w ->
  Wave.cancelled w = false -> Wave.first_status_error w = None ->
  Forall is_Some (Wave.completed w) /\
  slots_answered s file es (offset + base) plan (Wave.completed w) (Wave.short_response_at w).
Proof.
  intros [] Hr Hc He. assert (missing (Wave.completed w) = 0%nat) as Hz by lia.
  assert (forall i, (i < length plan)%nat -> exists data, Wave.completed w !! i = Some (Some data)) as Hall.
  { intros i Hi. destruct (lookup_lt_is_Some_2 (Wave.completed w) i) as [[data|] Hslot]; [lia|eauto|].
    by destruct (missing_none _ i Hz). }
  split.
  { apply Forall_forall. intros slot [i Hi]%list_elem_of_lookup_1. destruct slot; [done|].
    by destruct (missing_none _ i Hz). }
  split; [done|]. split; [|done]. intros j id n Hj.
  destruct (Hall j ltac:(by eapply lookup_lt_Some)) as [data Hd].
  destruct (wave_slots0 j id n data Hj Hd) as (m & h & Hans & Hgood).
  destruct (Hgood He Hc) as [Hrd Hk]. exists data, m, h. destruct wave_planned0 as [_ Hpos Hreq].
  split_and!; [done|by apply Hreq|done|done| |done].
  rewrite Forall_forall in Hpos. apply (Hpos (id, n)). by eapply list_elem_of_lookup_2.
Qed.

Context (offset target : Z) (options : PipelinedReadOptions.t).
Context (Hchunk : 0 < PipelinedReadOptions.chunk_size options).
Context (Hoffset : 0 <= offset) (Htarget : target <= usize_max).

(** How far a wave gets. *)
Definition wave_result (out : bytes) (next : bytes + bytes) (es : list event) : Prop :=
  settled es /\ exists data,
  match next with
  | inl out' => out' = out ++ data /\ assembled s file es (offset + len out) data true
  | inr out' => out' = out ++ data /\ assembled s file es (offset + len out) data false /\ 0 < len data
  end /\ len out + len data <= target.

Lemma collect_runs plan w out es s1 tok :
  token_ok tok -> advances s es s1 -> wave_inv offset (len out) (target - len out) plan w es tok ->
  plan <> [] -> len plan <= Wave.received w ->
  Wave.cancelled w = false -> Wave.first_status_error w = None ->
  runs (do! '(out, ended) := slift (collect (Wave.completed w) 0 (Wave.short_response_at w) out) in
        sret (if ended : bool then inl out else inr out)) (s1, tok)
    (ends (A := bytes + bytes) es (fun next es' _ _ => wave_result out next es')).
Proof.
  intros Ht Ha Hw Hne Hr Hc He.
  destruct (wave_inv_slots _ _ _ _ _ _ _ Hw Hr Hc He) as [Hsome Hslots].
  pose proof (planned_bytes _ _ _ _ _ (wave_planned _ _ _ _ _ _ _ Hw)) as Hfit.
  pose proof (plan_bytes_length plan (planned_positive _ _ _ _ _ (wave_planned _ _ _ _ _ _ _ Hw))) as Hpl.
  destruct (collect_eq _ Hsome 0 (Wave.short_response_at w) out) as (o & Ho & Hcol).
  { intros k Hk. destruct Hslots as (Hl & _ & Hsh). destruct (Hsh k Hk) as (? & id & n & d & Hp & _).
    apply lookup_lt_Some in Hp. unfold len. lia. }
  replace (Z.add 0 <$> Wave.short_response_at w) with (Wave.short_response_at w) in Hcol
    by (by destruct (Wave.short_response_at w)).
  rewrite Hcol. apply ends_bind_lift; [done..|]. intros ? [= <-].
  pose proof (assemble_meets s file es plan (offset + len out) (Wave.completed w)
    (Wave.short_response_at w) out Hslots) as Hm.
  rewrite Ho in Hm. destruct Hm as (data & ended & -> & Hdata & Hl & Hfull & Hnone).
  apply ends_ret; [done..|]. split; [by eapply wave_inv_drained|]. exists data.
  destruct (Wave.short_response_at w) as [k|].
  - rewrite bool_decide_true by by eexists. split; [|lia]. split; [done|].
    destruct ended; [done|by destruct (Hfull eq_refl)].
  - rewrite bool_decide_false by by intros []. rewrite (Hnone eq_refl) in *. split; [|lia].
    split; [done|]. split; [done|]. destruct (Hfull eq_refl) as [-> _]. destruct plan; [done|].
    cbn [length] in Hpl. lia.
Qed.

Lemma run_wave_runs patience out es s1 tok :
  token_ok tok -> advances s es s1 -> settled es -> len out < target ->
  runs (run_wave file offset options generation patience target out) (s1, tok)
    (ends es (fun next es' _ _ => wave_result out next es')).
Proof.
  intros Ht Ha Hset Hlt. unfold run_wave. pose proof (len_nonneg out).
  eapply ends_bind; [by apply is_current_runs|].
  intros current es' s' tok1 Ht1 Ha1 (-> & -> & _ & Hno).
  destruct current; cbn [negb]; [|apply ends_lift; [done..|split; [done|left; by apply Hno]|done]].
  run_step. cbn [fst]. pose proof (read_limits_meets s1 (advances_wf _ _ _ Ha1)) as Hlim.
  apply ends_bind_lift; [done..|by eapply meets_returns| |].
  { unfold read_limits. repeat (apply honest_bind; [apply honest_protocol|intros]). done. }
  intros [multi max_read] Elim. eapply meets_ok in Hlim; [|exact Elim]. cbn in Hlim.
  eapply ends_bind.
  { apply (schedule_wave_runs offset (len out) (target - len out) options multi max_read) with (pending := []);
      try done; try (cbn; lia). split; [split; [cbn; lia|done|done]|exact Hset]. }
  intros pending es2 s2 tok2 Ht2 Ha2 [Hplan Htr]. destruct (is_empty pending) eqn:Hempty.
  { destruct pending; [|done]. eapply ends_bind; [by apply is_current_runs|].
    intros current es' s' tok3 Ht3 Ha3 (-> & -> & _ & Hno3).
    destruct current; cbn [negb]; apply ends_lift; try done. split; [done|left; by apply Hno3]. }
  eapply ends_bind; [by apply is_current_runs|].
  intros current es' s' tok3 Ht3 Ha3 (-> & -> & _ & Hno3). cbv zeta.
  apply ends_bind with (P := fun w es3 _ tok3 =>
    wave_inv offset (len out) (target - len out) (entry <$> pending) w es3 tok3).
  { destruct current; cbn [negb Wave.cancelled Wave.new].
    - apply ends_ret; [done..|]. by apply wave_inv_new.
    - apply cancel_wave_runs; [done..| |by apply Hno3]. apply wave_inv_new; try done.
      intros _. left. by apply Hno3. }
  intros w1 es4 s4 tok4 Ht4 Ha4 Hw1. cbn beta in Hw1.
  eapply ends_bind.
  { eapply (receive_wave_runs offset (len out) (target - len out)); [lia..| | |exact Hw1]; done. }
  intros w2 es5 s5 tok5 Ht5 Ha5 [Hw2 Hr2].
  apply ends_bind with (P := fun current es6 s6 tok6 => es6 = es5 /\ s6 = s5 /\
    (current = false -> cause es5 tok6) /\ (current = true -> Wave.cancelled w2 = false) /\
    (moved tok5 -> moved tok6)).
  { destruct (Wave.cancelled w2) eqn:Hc2.
    - apply ends_ret; [done..|]. split_and!; try done. intros _. by apply (wave_cancelled _ _ _ _ _ _ _ Hw2).
    - eapply runs_mono; [by apply is_current_runs|]. intros r [s6 tok6] (es6 & Ht6 & Ha6 & Hr6).
      exists es6. split; [done|]. split; [done|]. destruct r; try done. cbn in *.
      destruct Hr6 as (-> & -> & Hmv & Hno6). split_and!; try done. intros Hf. left. by apply Hno6. }
  intros current' es6 s6 tok6 Ht6 Ha6 (-> & -> & Hcause & Hcur & Hmv).
  assert (wave_inv offset (len out) (target - len out) (entry <$> pending) w2 es5 tok6) as Hw6.
  { rewrite <- (app_nil_r es5). eapply wave_inv_app; [exact Hw2|done|]. rewrite app_nil_r. apply Hw2. }
  destruct current'; cbn [negb].
  2:{ apply ends_lift; [done..| |done]. intros _. split; [by eapply wave_inv_drained|by apply Hcause]. }
  destruct (Wave.first_status_error w2) as [status|] eqn:He; [by apply ends_lift|].
  eapply collect_runs; [done|done|exact Hw6| |done|by apply Hcur|done].
  by destruct pending.
Qed.

Lemma wave_loop_runs patience fuel : forall out es s1 tok,
  token_ok tok -> advances s es s1 -> settled es -> assembled s file es offset out false ->
  len out <= target -> target - len out <= Z.of_nat fuel ->
  runs (wave_loop file offset options generation fuel patience target out) (s1, tok)
    (ends es (fun out' es' _ _ => settled es' /\ exists ended, assembled s file es' offset out' ended /\
       len out' <= target /\ (ended = false -> len out' = target))).
Proof.
  induction fuel as [|fuel IH]; intros out es s1 tok Ht Ha Hset Hout Hle Hfuel; cbn [wave_loop].
  all: destruct (Z.ltb_spec (len out) target);
    [|apply ends_ret; [done..|]; split; [done|]; exists false; split; [done|]; split; [done|lia]].
  { lia. }
  eapply ends_bind; [by apply ends_extends, run_wave_runs|].
  intros next es' s' tok' Ht' Ha' [(Hset' & data & Hnext & Hlen) [es0 ->]].
  assert (assembled s file (es ++ es0) offset out false) as Hout' by by apply assembled_mono.
  destruct next as [out'|out'].
  - destruct Hnext as [-> Hdata]. apply ends_ret; [done..|]. split; [done|]. exists true.
    rewrite len_app. split; [by eapply assembled_app|]. split; [lia|done].
  - destruct Hnext as (-> & Hdata & Hpos). apply IH; [done..| | |]; rewrite ?len_app; try lia.
    by eapply assembled_app.
Qed.

End call.

(** What a call comes to that returned [out] after the traffic [es]. *)
Definition cancelable_result (s : session) (file : FileHandle.t) (offset length_ : Z) (out : bytes)
    (es : list event) : Prop :=
  settled s file es /\ exists ended, assembled s file es offset out ended /\
    let target := Z.max 0 (Z.min length_ (FileHandle.length_ file - offset)) in
    len out <= target /\ (ended = false -> len out = target).

Lemma cancelable_runs (s : session) (tok : ReadCancellationToken.t) (patience : nat)
    (file : FileHandle.t) (offset length_ : Z) (options : PipelinedReadOptions.t) (generation : Z) :
  session_wf s -> token_ok generation tok -> 0 <= offset -> 0 <= length_ ->
  0 <= PipelinedReadOptions.chunk_size options ->
  runs (read_at_pipelined_cancelable_with_options patience file offset length_ options generation)
    (s, tok)
    (ends s file generation [] (fun out es _ _ => cancelable_result s file offset length_ out es)).
Proof.
  intros Hs Ht Hoffset Hlength Hchunk. unfold read_at_pipelined_cancelable_with_options.
  pose proof (advances_refl s Hs) as Ha. assert (settled s file []) as Hset by (intros m r Hm; by inversion Hm).
  destruct (_ || _) eqn:Hz.
  { apply ends_ret; [done..|]. split; [done|]. exists false. split; [constructor|]. cbv zeta. change (len []) with 0.
    apply orb_true_iff in Hz as [?|?]; bool_facts; lia. }
  bool_facts. apply ends_bind_lift; [done..| | |].
  { unfold validate_options. by repeat case_match. }
  { unfold validate_options. by repeat case_match. }
  intros [] Hv. assert (0 < PipelinedReadOptions.chunk_size options) as Hpos.
  { unfold validate_options in Hv. case_match; [done|]. bool_facts. lia. }
  run_step. cbn [fst]. apply ends_bind_lift; [done..|apply returns_ensure_session| |intros _ _].
  { unfold ensure_session. by case_match. }
  eapply ends_bind; [by apply is_current_runs|].
  intros current es' s' tok1 Ht1 Ha1 (-> & -> & _ & Hno).
  destruct current; cbn [negb]; [|apply ends_lift; [done..|split; [done|left; by apply Hno]|done]].
  pose proof (read_target_len_meets file offset length_ ltac:(by apply Z.leb_gt)) as Hm.
  apply ends_bind_lift; [done..|by eapply meets_returns| |].
  { unfold read_target_len. apply honest_bind; [apply honest_protocol|intros].
    apply honest_bind; [unfold sub_or_panic; by case_match|intros; apply honest_protocol]. }
  intros target En. eapply meets_ok in Hm as Htarget; [|exact En].
  assert (target <= usize_max) as Hmax.
  { unfold read_target_len in En. repeat (apply obind_ok in En as (? & _ & En)).
    by apply ok_or_ok, try_from_some in En as [-> ?]. }
  eapply ends_mono; [|apply (wave_loop_runs s file generation offset target options);
    try done; rewrite ?len_nil; try lia; constructor].
  intros out es s2 tok2 (Hset2 & ended & Hdata & Hle & Hend). split; [done|]. exists ended.
  cbv zeta. rewrite Z.max_r, <- Htarget by lia. done.
Qed.
End cancel_laws.

(** ** Properties *)

(** C9: a cancelled read leaves nothing behind. Against any server, whatever the
    other holders of the token do and whenever they do it, a cancelable read
    does not panic. When it returns data, the data is pieced together in file
    order from accepted answers, is as long as asked or ends with a short
    answer, and every READ sent was answered. When it returns [Cancelled] while
    the transport works, the token had moved on or the server said
    STATUS_CANCELLED, everything sent was a READ of the file or the CANCEL of
    one, and each of those READs has got its final response, so that no late
    response can be taken for the answer to the next request. *)
Theorem cancelable_read_sound {T} `{TransportSafe T} `{CryptoLaws} (s : SessionConnection.t T)
    (tok : ReadCancellationToken.t) (patience : nat) (file : FileHandle.t) (offset length_ : Z)
    (options : PipelinedReadOptions.t) (generation : Z)
    (Hs : session_wf s) (Htok : token_ok generation tok)
    (Hoffset : 0 <= offset) (Hlength : 0 <= length_)
    (Hchunk : 0 <= PipelinedReadOptions.chunk_size options) :
  runs (read_at_pipelined_cancelable_with_options patience file offset length_ options generation)
    (s, tok) (fun r w =>
    exists es, advances s es (fst w) /\ token_ok generation (snd w) /\
    match r with
    | Ok out => settled s file es /\ exists ended, assembled s file es offset out ended /\
        let target := Z.max 0 (Z.min length_ (FileHandle.length_ file - offset)) in
        len out <= target /\ (ended = false -> len out = target)
    | Err e => e = Cancelled ->
        broken es \/ settled s file es /\ (moved generation (snd w) \/ server_cancelled s file es)
    | _ => True
    end).
Proof.
  eapply runs_mono; [by apply cancelable_runs|].
  intros r w (es & Ht & Ha & Hr). exists es. split; [done|]. split; [done|]. by destruct r.
Qed.

(** The token of the first run is left alone; that of the second is advanced
    when both READs are out, after which the server cancels one of them and
    answers the other. *)
Definition cancelled_response (id : Z) : bytes :=
  sample_header Command.Read STATUS_CANCELLED id (Sync 0 5) ++ replicate 9 x00.
Definition undisturbed : ReadCancellationToken.t := ReadCancellationToken.new [].
Definition seeking : ReadCancellationToken.t := ReadCancellationToken.new [0; 0; 0; 0; 1]%nat.
Definition cancelling_server : list bytes :=
  [cancelled_response 2; read_response 1 [x0a; x0b; x0c]].
Definition written_by (w : SessionConnection.t TcpTransport.t * ReadCancellationToken.t) : bytes :=
  written (TcpTransport.stream (Connection.transport (SessionConnection.connection (fst w)))).

(** A computation evaluated to an error that passes a test. *)
Definition failed {S A} (test : ClientError -> S -> bool) (x : client A * S) : bool :=
  match x with (Err e, s) => test e s | _ => false end.

Lemma runs_failed {S A} (m : st S A) s Q test :
  runs m s Q -> failed test (m s) = true -> exists e s', Q (Err e) s' /\ test e s' = true.
Proof. unfold runs, failed. destruct (m s) as [[a|e| |] s']; [done|eauto|done..]. Qed.

(** Two READs and two CANCELs were written, and [Cancelled] came after both
    responses; undisturbed, the same call returns the data of a short answer. *)
Lemma cancelable_read_sound_witness :
  (exists (w : SessionConnection.t TcpTransport.t * ReadCancellationToken.t) es,
     len (written_by w) = 2 * 117 + 2 * 72 /\
     advances (sample_session cancelling_server) es (fst w) /\
     (broken es \/ @settled _ toy_crypto (sample_session cancelling_server) sample_file es)) /\
  exists (s' : SessionConnection.t TcpTransport.t) es,
    advances (sample_session sample_answers) es s' /\
    @assembled _ toy_crypto (sample_session sample_answers) sample_file es 994
      [x0a; x0b; x0c; x0d; x0e] true.
Proof.
  split.
  - destruct (runs_failed _ _ _ (fun e w =>
        bool_decide (e = Cancelled) && (len (written_by w) =? 2 * 117 + 2 * 72))
      (@cancelable_read_sound _ _ _ toy_crypto toy_laws (sample_session cancelling_server) seeking 4
         sample_file 994 10 sample_pipeline 0 (sample_session_wf _) ltac:(done) ltac:(done)
         ltac:(done) ltac:(done)))
      as (e & w & (es & Ha & _ & Hr) & Ht); [vm_compute; reflexivity|].
    apply andb_true_iff in Ht as [He%bool_decide_eq_true Hw%Z.eqb_eq].
    exists w, es. split; [exact Hw|]. split; [exact Ha|].
    destruct (Hr He) as [Hb|[Hset _]]; [by left|by right].
  - destruct (runs_ended _ _ _ (fun out _ => bool_decide (out = [x0a; x0b; x0c; x0d; x0e]))
      (@cancelable_read_sound _ _ _ toy_crypto toy_laws (sample_session sample_answers) undisturbed
         4 sample_file 994 10 sample_pipeline 0 (sample_session_wf _) ltac:(done) ltac:(done)
         ltac:(done) ltac:(done)))
      as (out & w' & (es & Ha & _ & _ & ended & Hdata & Hl & He) & Ht%bool_decide_eq_true);
      [vm_compute; reflexivity|].
    subst out. exists (fst w'), es. split; [exact Ha|].
    destruct ended; [exact Hdata|by specialize (He eq_refl)].
Defined.
