(* ===== verification/Spnego.v ===== *)
(** * SPNEGO

    [crates/smb-auth/src/spnego.rs]: the DER wrapping of NTLM tokens and the
    search for an NTLM message inside a server's token. *)
From S2P Require Import Prelude WireError Client.

Definition NTLMSSP_SIGNATURE : bytes := [x4e; x54; x4c; x4d; x53; x53; x50; x00].
Definition SPNEGO_OID : bytes := [x06; x06; x2b; x06; x01; x05; x05; x02].
Definition NTLMSSP_OID : bytes := [x06; x0a; x2b; x06; x01; x04; x01; x82; x37; x02; x02; x0a].
Definition MAX_DER_DEPTH : Z := 12.

Abbreviation auth := (outcome AuthError.t).

(** [token.starts_with(NTLMSSP_SIGNATURE)]. *)
Definition is_ntlm (token : bytes) : bool :=
  bool_decide (take (length NTLMSSP_SIGNATURE) token = NTLMSSP_SIGNATURE).

Definition encode_der_length (length_ : Z) (out : bytes) : bytes :=
  if length_ <? 128 then out ++ [byte_of_Z length_] else
  let octets := be_bytes 8 length_ in
  let first_non_zero :=
    match list_find (fun b => b <> x00) octets with
    | Some (position, _) => position
    | None => (length octets - 1)%nat
    end in
  let encoded := drop first_non_zero octets in
  out ++ [byte_of_Z (Z.lor 0x80 (len encoded mod 2 ^ 8))] ++ encoded.

Definition der_tlv (tag : byte) (content : bytes) : bytes :=
  encode_der_length (len content) [tag] ++ content.

Definition encode_neg_token_init_ntlm (ntlm_token : bytes) : bytes :=
  let mech_list := der_tlv x30 NTLMSSP_OID in
  let mech_types := der_tlv xa0 mech_list in
  let mech_token := der_tlv xa2 (der_tlv x04 ntlm_token) in
  let sequence_body := mech_types ++ mech_token in
  let neg_token_init := der_tlv xa0 (der_tlv x30 sequence_body) in
  der_tlv x60 (SPNEGO_OID ++ neg_token_init).

Definition encode_neg_token_resp_ntlm (ntlm_token : bytes) : bytes :=
  let response_token := der_tlv xa2 (der_tlv x04 ntlm_token) in
  der_tlv xa1 (der_tlv x30 response_token).

(** The big-endian length octets of a long-form length. *)
Fixpoint der_length (value : Z) (octets : bytes) : auth Z :=
  match octets with
  | [] => Ok value
  | octet :: octets =>
      let! value := ok_or (v ← checked_mul usize_max value 256;
                           checked_add usize_max v (Z_of_byte octet))
                          (AuthError.InvalidToken "DER length overflow") in
      der_length value octets
  end.

Definition parse_tlv (input : bytes) : auth (Z * bytes * Z) :=
  if len input <? 2 then Err (AuthError.InvalidToken "truncated DER TLV") else
  let! tag := get_le 1 input 0 in
  let! first := get_le 1 input 1 in
  let! '(length_, length_octets) :=
    if negb (has_flag first 0x80) then Ok (first, 1) else
    let count := Z.land first 0x7f in
    if (count =? 0) || (8 <? count) || (len input <? 2 + count)
    then Err (AuthError.InvalidToken "invalid DER length") else
    let! third := get_le 1 input 2 in
    if third =? 0 then Err (AuthError.InvalidToken "non-minimal DER length") else
    let! octets := slice input 2 (2 + count) in
    let! value := der_length 0 octets in
    if value <? 128 then Err (AuthError.InvalidToken "non-minimal DER long-form length") else
    Ok (value, 1 + count) in
  let! header_len := ok_or (checked_add usize_max 1 length_octets)
                           (AuthError.InvalidToken "DER header length overflow") in
  let! end_ := ok_or (checked_add usize_max header_len length_)
                     (AuthError.InvalidToken "DER content length overflow") in
  if len input <? end_ then Err (AuthError.InvalidToken "truncated DER content") else
  let! content := slice input header_len end_ in
  Ok (tag, content, end_).

(** The [while] loop over the elements of one level; [nested] searches the
    content of a constructed one. An element takes two bytes or more, so the
    length of the input is fuel enough. *)
Fixpoint find_loop (nested : bytes -> auth (option bytes)) (fuel : nat) (input : bytes)
    (offset : Z) : auth (option bytes) :=
  if offset <? len input then
    match fuel with
    | O => OutOfFuel
    | S fuel =>
        let! rest := slice_from input offset in
        let! '(tag, content, consumed) := parse_tlv rest in
        if is_ntlm content then Ok (Some content) else
        let! found := if has_flag tag 0x20 then nested content else Ok None in
        match found with
        | Some found => Ok (Some found)
        | None =>
            let! offset := ok_or (checked_add usize_max offset consumed)
                                 (AuthError.InvalidToken "SPNEGO length overflow") in
            find_loop nested fuel input offset
        end
    end
  else Ok None.

(** The recursion is refused below [MAX_DER_DEPTH], so fourteen levels of fuel
    are enough. *)
Fixpoint find_levels (fuel : nat) (input : bytes) (depth : Z) : auth (option bytes) :=
  if MAX_DER_DEPTH <? depth
  then Err (AuthError.InvalidToken "SPNEGO nesting is too deep") else
  match fuel with
  | O => OutOfFuel
  | S fuel =>
      find_loop (fun content => find_levels fuel content (depth + 1)) (length input) input 0
  end.

Definition find_ntlm_in_der (input : bytes) (depth : Z) : auth (option bytes) :=
  find_levels 14 input depth.

Definition extract_ntlm_token (token : bytes) : auth bytes :=
  if is_ntlm token then Ok token else
  let! found := find_ntlm_in_der token 0 in
  ok_or found (AuthError.InvalidToken "SPNEGO token does not contain an NTLMSSP message").

(** ** The encoder's lengths, read back *)

Lemma is_ntlm_true token : is_ntlm token = true <-> exists rest, token = NTLMSSP_SIGNATURE ++ rest.
Proof.
  unfold is_ntlm. rewrite bool_decide_eq_true. split.
  - intros Ht. exists (drop 8 token). rewrite <- Ht. by rewrite take_drop.
  - intros [rest ->]. by rewrite take_app_length'.
Qed.

Lemma der_length_ok octets : forall value, 0 <= value ->
  value * 256 ^ len octets + le_value (rev octets) <= usize_max ->
  der_length value octets = Ok (value * 256 ^ len octets + le_value (rev octets)).
Proof.
  induction octets as [|b octets IH]; intros value Hv Hmax; cbn [der_length rev] in *.
  { f_equal. unfold len. cbn. lia. }
  pose proof (Z_of_byte_range b). pose proof (le_value_range (rev octets)).
  pose proof (len_nonneg octets). pose proof (Z.pow_pos_nonneg 256 (len octets) ltac:(lia) ltac:(lia)).
  rewrite le_value_app, len_rev, len_cons, Z.pow_add_r in * by lia. cbn [le_value] in *.
  rewrite (proj2 (checked_mul_some _ _ _ (value * 256))) by (split; [done|nia]).
  cbn [mbind option_bind]. rewrite (proj2 (checked_add_some _ _ _ (value * 256 + Z_of_byte b)))
    by (split; [done|nia]).
  cbn [ok_or obind]. rewrite IH by nia. f_equal. lia.
Qed.

Lemma returns_der_length octets : forall value, returns (der_length value octets).
Proof.
  induction octets as [|b octets IH]; intros value; cbn [der_length]; [done|].
  apply returns_bind; [auto with returns|auto].
Qed.

Lemma le_value_zeros n : le_value (replicate n x00) = 0.
Proof. induction n as [|n IH]; [done|]. cbn. by rewrite IH. Qed.

(** The long form has between one and eight octets, the first not zero, and
    they read back as the length. *)
Lemma encode_der_length_long n out : 128 <= n < 2 ^ 64 ->
  exists x octets, x <> x00 /\ 1 <= len (x :: octets) <= 8 /\ le_value (rev (x :: octets)) = n /\
    encode_der_length n out
    = out ++ [byte_of_Z (Z.lor 0x80 (len (x :: octets)))] ++ x :: octets.
Proof.
  intros Hn. unfold encode_der_length. rewrite (proj2 (Z.ltb_ge _ _)) by lia. cbv zeta.
  assert (le_value (rev (be_bytes 8 n)) = n) as Hval.
  { unfold be_bytes. rewrite rev_involutive, le_value_bytes.
    change (8 * Z.of_nat 8) with 64. apply Z.mod_small. lia. }
  assert (len (be_bytes 8 n) = 8) as Hlen by done. revert Hval Hlen.
  generalize (be_bytes 8 n) as l. intros l Hval Hlen.
  destruct (list_find (fun b => b <> x00) l) as [[i x]|] eqn:Hf.
  - apply list_find_Some in Hf as (Hi & Hx & Hz).
    assert (l = replicate i x00 ++ x :: drop (S i) l) as Hl.
    { rewrite <- (take_drop_middle l i x Hi) at 1. f_equal. apply list_eq. intros j.
      destruct (decide (j < i)%nat) as [Hj|Hj].
      - rewrite lookup_take_lt by done. rewrite lookup_replicate_2 by done.
        destruct (l !! j) as [y|] eqn:Hy.
        + f_equal. destruct (decide (y = x00)) as [|Hne]; [done|]. by destruct (Hz j y Hy).
        + apply lookup_ge_None in Hy. apply lookup_lt_Some in Hi. lia.
      - rewrite lookup_take_ge by lia. symmetry. apply lookup_replicate_None. lia. }
    exists x, (drop (S i) l). rewrite (drop_S l x i) by done.
    assert (1 <= len (x :: drop (S i) l) <= 8) as Hb.
    { rewrite Hl in Hlen. revert Hlen. rewrite len_app, len_replicate. len_lia. }
    split; [done|]. split; [done|]. split.
    + rewrite <- Hval. rewrite Hl at 2. rewrite rev_app_distr, (rev_alt (replicate i x00)).
      change (rev_append (replicate i x00) []) with (reverse (replicate i x00)).
      rewrite reverse_replicate, le_value_app, le_value_zeros. lia.
    + by rewrite Z.mod_small by lia.
  - apply list_find_None in Hf. exfalso.
    assert (le_value (rev l) = 0); [|lia]. clear Hval Hlen. induction Hf as [|b l Hb _ IH]; [done|].
    cbn [rev]. rewrite le_value_app, IH.
    destruct (decide (b = x00)) as [->|Hne]; [change (le_value [x00]) with 0; lia|].
    by destruct (Hb Hne).
Qed.

(** ** One element *)

(** The length octets of a length; their first byte tells short and long form
    apart. *)
Lemma der_tlv_forms tag content : len content < 2 ^ 63 ->
  (len content < 128 /\ der_tlv tag content = [tag; byte_of_Z (len content)] ++ content) \/
  (exists x octets, x <> x00 /\ 1 <= len (x :: octets) <= 8 /\
     le_value (rev (x :: octets)) = len content /\ 128 <= len content /\
     der_tlv tag content
     = [tag; byte_of_Z (Z.lor 0x80 (len (x :: octets)))] ++ (x :: octets) ++ content).
Proof.
  intros Hl. unfold der_tlv. destruct (Z.ltb_spec (len content) 128) as [Hs|Hs].
  - left. split; [done|]. unfold encode_der_length. by rewrite (proj2 (Z.ltb_lt _ _)) by done.
  - right. destruct (encode_der_length_long (len content) [tag]) as (x & octets & ? & ? & ? & ->);
      [lia|]. exists x, octets. by rewrite <- !app_assoc.
Qed.

Lemma der_tlv_len tag content : len content < 2 ^ 63 ->
  len content + 2 <= len (der_tlv tag content) <= len content + 10.
Proof.
  intros Hl. destruct (der_tlv_forms tag content Hl) as [[_ ->]|(x & o & _ & ? & _ & _ & ->)]; len_lia.
Qed.

(** The two fields of the first length octet, over its eight long forms. *)
Lemma long_form_octet n : 1 <= n <= 8 ->
  has_flag (Z_of_byte (byte_of_Z (Z.lor 0x80 n))) 0x80 = true /\
  Z.land (Z_of_byte (byte_of_Z (Z.lor 0x80 n))) 0x7f = n.
Proof.
  intros Hn.
  assert (n = 1 \/ n = 2 \/ n = 3 \/ n = 4 \/ n = 5 \/ n = 6 \/ n = 7 \/ n = 8) as Hc by lia.
  by repeat (destruct Hc as [->|Hc]; [split; reflexivity|]); subst.
Qed.

Lemma short_form_octet n : 0 <= n < 128 ->
  Z_of_byte (byte_of_Z n) = n /\ has_flag n 0x80 = false.
Proof.
  intros Hn. rewrite Z_of_byte_of_Z, Z.mod_small by lia. split; [done|].
  unfold has_flag. apply negb_false_iff, Z.eqb_eq.
  apply Z.bits_inj'. intros k Hk. rewrite Z.land_spec, Z.bits_0, andb_false_iff.
  destruct (decide (k = 7)) as [->|Hne].
  - left. apply Z.bits_above_log2; [lia|]. destruct (decide (n = 0)) as [->|]; [done|].
    apply Z.log2_lt_pow2; lia.
  - right. change 0x80 with (2 ^ 7). by apply Z.pow2_bits_false.
Qed.

Lemma get_byte {E} (pre : bytes) b rest o :
  o = len pre -> get_le (E := E) 1 (pre ++ b :: rest) o = Ok (Z_of_byte b).
Proof.
  intros ->. pose proof (len_nonneg pre). rewrite get_le_ok by len_lia. f_equal.
  rewrite le_at_app_r, Z.sub_diag by lia. change (Z_of_byte b + 256 * 0 = Z_of_byte b). lia.
Qed.

Lemma get_byte_0 {E} a l : get_le (E := E) 1 (a :: l) 0 = Ok (Z_of_byte a).
Proof. by apply (get_byte []). Qed.
Lemma get_byte_1 {E} a b l : get_le (E := E) 1 (a :: b :: l) 1 = Ok (Z_of_byte b).
Proof. by apply (get_byte [a]). Qed.
Lemma get_byte_2 {E} a b c l : get_le (E := E) 1 (a :: b :: c :: l) 2 = Ok (Z_of_byte c).
Proof. by apply (get_byte [a; b]). Qed.

Lemma parse_tlv_der tag content rest : len content < 2 ^ 63 ->
  parse_tlv (der_tlv tag content ++ rest)
  = Ok (Z_of_byte tag, content, len (der_tlv tag content)).
Proof.
  intros Hl. pose proof (der_tlv_len tag content Hl) as Htl.
  pose proof (len_nonneg content). pose proof (len_nonneg rest).
  unfold parse_tlv. rewrite (proj2 (Z.ltb_ge _ _)) by len_lia.
  destruct (der_tlv_forms tag content Hl) as [[Hs Ht]|(x & o & Hx & Ho & Hv & Hlong & Ht)];
    rewrite Ht in *; rewrite <- app_assoc; cbn [app];
    rewrite get_byte_0; cbn [obind]; rewrite get_byte_1; cbn [obind].
  - destruct (short_form_octet (len content)) as [-> ->]; [lia|]. cbn [negb obind].
    rewrite (proj2 (checked_add_some _ _ _ 2)) by done. cbn [ok_or obind].
    rewrite (proj2 (checked_add_some _ _ _ (2 + len content))) by (unfold usize_max; lia).
    cbn [ok_or obind]. rewrite (proj2 (Z.ltb_ge _ _)) by len_lia.
    rewrite slice_ok by len_lia. cbn [obind].
    change (tag :: byte_of_Z (len content) :: content ++ rest)
      with ([tag; byte_of_Z (len content)] ++ content ++ rest).
    do 2 f_equal; [|len_lia]. f_equal. sub_at.
  - destruct (long_form_octet (len (x :: o))) as [-> ->]; [done|]. cbn [negb].
    rewrite (proj2 (Z.eqb_neq _ _)), (proj2 (Z.ltb_ge 8 _)) by lia. cbn [orb].
    rewrite (proj2 (Z.ltb_ge _ _)) by len_lia.
    rewrite get_byte_2. cbn [obind].
    rewrite (proj2 (Z.eqb_neq _ _)) by
      (intros Hz; apply Hx, Z_of_byte_inj; by rewrite Hz).
    set (head := byte_of_Z _). rewrite <- app_assoc.
    change (tag :: head :: x :: o ++ content ++ rest)
      with ([tag; head] ++ (x :: o) ++ content ++ rest).
    rewrite slice_ok by len_lia. cbn [obind].
    assert (sub ([tag; head] ++ (x :: o) ++ content ++ rest) 2 (2 + len (x :: o) - 2) = x :: o)
      as -> by sub_at.
    rewrite der_length_ok by (rewrite ?Hv; unfold usize_max; lia). rewrite Hv. cbn [obind].
    rewrite Z.mul_0_l, Z.add_0_l, (proj2 (Z.ltb_ge _ 128)) by lia. cbn [obind].
    rewrite (proj2 (checked_add_some _ _ _ (2 + len (x :: o)))) by (unfold usize_max; lia).
    cbn [ok_or obind].
    rewrite (proj2 (checked_add_some _ _ _ (2 + len (x :: o) + len content)))
      by (unfold usize_max; lia).
    cbn [ok_or obind]. rewrite (proj2 (Z.ltb_ge _ _)) by len_lia.
    rewrite slice_ok by len_lia. cbn [obind]. do 2 f_equal; [|len_lia]. f_equal. sub_at.
Qed.

(** [m] lies inside [token]. *)
Definition inside (m token : bytes) : Prop := exists pre post, token = pre ++ m ++ post.

Lemma inside_refl m : inside m m.
Proof. exists [], []. by rewrite app_nil_r. Qed.
Lemma inside_trans a b c : inside a b -> inside b c -> inside a c.
Proof.
  intros (p & q & ->) (p' & q' & ->). exists (p' ++ p), (q ++ q'). by rewrite <- !app_assoc.
Qed.
Lemma inside_drop a (l : bytes) n : inside a (drop n l) -> inside a l.
Proof.
  intros Ha. eapply inside_trans; [exact Ha|]. exists (take n l), [].
  by rewrite app_nil_r, take_drop.
Qed.

Lemma parse_tlv_meets input :
  meets (parse_tlv input) (fun '(_, content, consumed) =>
    2 <= consumed <= len input /\ inside content input).
Proof.
  unfold parse_tlv. destruct (Z.ltb_spec (len input) 2); [done|].
  rewrite !get_le_ok by lia. cbn [obind].
  pose proof (le_at_bound 1 input 0). pose proof (le_at_bound 1 input 1).
  change (2 ^ (8 * Z.of_nat 1)) with 256 in *.
  apply meets_bind, (meets_mono _ (fun p => 0 <= p.1 /\ 1 <= p.2)).
  { destruct (negb _); [cbn; lia|]. cbv zeta. set (count := Z.land _ _).
    assert (0 <= count) by (apply Z.land_nonneg; lia).
    destruct (_ || _) eqn:Hc; [done|]. apply orb_false_iff in Hc as [[Hc0 _]%orb_false_iff Hc].
    bool_facts. rewrite get_le_ok by lia. cbn [obind]. destruct (_ =? 0); [done|].
    rewrite slice_ok by lia. cbn [obind]. apply meets_returns_bind; [apply returns_der_length|].
    intros v _. destruct (Z.ltb_spec v 128); [done|]. cbn. lia. }
  intros [l o] [? ?]. cbn in *. apply meets_returns_bind; [auto with returns|].
  intros h Hh%ok_or_ok%checked_add_some. destruct Hh as [-> _].
  apply meets_returns_bind; [auto with returns|]. intros e He%ok_or_ok%checked_add_some.
  destruct He as [-> _]. destruct (Z.ltb_spec (len input) (1 + o + l)); [done|].
  rewrite slice_ok by lia. cbn. split; [lia|].
  exists (take (Z.to_nat (1 + o)) input), (drop (Z.to_nat (1 + o + l)) input).
  rewrite <- drop_sub by lia. by rewrite take_drop.
Qed.

(** What a search returns: an NTLM message inside its input. *)
Definition found_in (input : bytes) (found : option bytes) : Prop :=
  forall m, found = Some m -> is_ntlm m = true /\ inside m input.

Lemma find_loop_meets nested input fuel : forall offset,
  (forall content, meets (nested content) (found_in content)) ->
  0 <= offset -> len input - offset <= Z.of_nat fuel ->
  meets (find_loop nested fuel input offset) (found_in input).
Proof.
  induction fuel as [|fuel IH]; intros offset Hn Ho Hf; cbn [find_loop];
    (destruct (Z.ltb_spec offset (len input)); [|by intros ? [=]]); [lia|].
  rewrite slice_from_ok by lia. cbn [obind].
  pose proof (parse_tlv_meets (drop (Z.to_nat offset) input)) as Hp.
  apply meets_bind. eapply meets_mono; [exact Hp|]. intros [[tag content] consumed] [Hc Hin].
  apply inside_drop in Hin. destruct (is_ntlm content) eqn:Hnt.
  { cbn. intros m [= <-]. by split. }
  apply meets_bind, (meets_mono _ (found_in input)).
  { destruct (has_flag tag 32); [|by intros ? [=]]. eapply meets_mono; [apply Hn|].
    intros found Hfound m Hm. destruct (Hfound m Hm). split; [done|]. by eapply inside_trans. }
  intros [m|] Hfound; [done|]. apply meets_returns_bind; [auto with returns|].
  intros o Ho'%ok_or_ok%checked_add_some. destruct Ho' as [-> _]. apply IH; [done|lia|].
  lia.
Qed.

Lemma find_levels_meets fuel : forall input depth,
  MAX_DER_DEPTH + 1 < depth + Z.of_nat fuel ->
  meets (find_levels fuel input depth) (found_in input).
Proof.
  induction fuel as [|fuel IH]; intros input depth Hd; cbn [find_levels];
    (destruct (Z.ltb_spec MAX_DER_DEPTH depth); [done|]); [unfold MAX_DER_DEPTH in *; lia|].
  apply find_loop_meets; [intros content; apply IH; lia|lia|unfold len; lia].
Qed.

Lemma extract_ntlm_token_meets token :
  meets (extract_ntlm_token token) (fun m => is_ntlm m = true /\ inside m token).
Proof.
  unfold extract_ntlm_token. destruct (is_ntlm token) eqn:Hn; [split; [done|apply inside_refl]|].
  apply meets_bind. eapply meets_mono; [apply find_levels_meets; done|].
  intros [m|] Hf; [by apply Hf|done].
Qed.

(** ** The client's own tokens *)

(** One step of the search over an element that is not the message itself. *)
Lemma find_loop_tlv nested fuel pre tag content rest :
  len content < 2 ^ 63 -> len pre + len content < 2 ^ 63 ->
  find_loop nested (S fuel) (pre ++ der_tlv tag content ++ rest) (len pre)
  = if is_ntlm content then Ok (Some content) else
    let! found := if has_flag (Z_of_byte tag) 0x20 then nested content else Ok None in
    match found with
    | Some found => Ok (Some found)
    | None => find_loop nested fuel ((pre ++ der_tlv tag content) ++ rest)
                (len (pre ++ der_tlv tag content))
    end.
Proof.
  intros Hl Hp. pose proof (der_tlv_len tag content Hl). pose proof (len_nonneg pre).
  pose proof (len_nonneg content). pose proof (len_nonneg rest).
  cbn [find_loop]. rewrite (proj2 (Z.ltb_lt _ _)) by len_lia.
  rewrite slice_from_ok by len_lia. cbn [obind]. rewrite drop_app_here by done.
  rewrite parse_tlv_der by done. cbn [obind]. destruct (is_ntlm content); [done|].
  destruct (if has_flag _ _ then _ else _) as [[m|]|e| |]; try done. cbn [obind].
  rewrite (proj2 (checked_add_some _ _ _ (len pre + len (der_tlv tag content))))
    by (unfold usize_max; lia).
  cbn [ok_or obind]. by rewrite len_app, <- app_assoc.
Qed.

(** The search goes into a constructed element that is the whole input. *)
Lemma find_levels_into fuel tag content depth :
  len content < 2 ^ 63 -> is_ntlm content = false -> depth <= MAX_DER_DEPTH ->
  has_flag (Z_of_byte tag) 0x20 = true ->
  forall m, find_levels fuel content (depth + 1) = Ok (Some m) ->
  find_levels (S fuel) (der_tlv tag content) depth = Ok (Some m).
Proof.
  intros Hl Hn Hd Ht m Hm. cbn [find_levels]. rewrite (proj2 (Z.ltb_ge _ _)) by lia.
  pose proof (der_tlv_len tag content Hl) as Htl. pose proof (len_nonneg content).
  destruct (length (der_tlv tag content)) as [|n] eqn:El; [unfold len in Htl; lia|].
  pose proof (find_loop_tlv (fun content => find_levels fuel content (depth + 1)) n [] tag content []
    Hl ltac:(rewrite len_nil; lia)) as Hstep.
  rewrite app_nil_r in Hstep. cbn [app] in Hstep. rewrite len_nil in Hstep. rewrite Hstep.
  by rewrite Hn, Ht, Hm.
Qed.

(** ... and finds a message that is the content of the last element. *)
Lemma find_levels_message fuel tag m depth :
  len m < 2 ^ 63 -> is_ntlm m = true -> depth <= MAX_DER_DEPTH ->
  find_levels (S fuel) (der_tlv tag m) depth = Ok (Some m).
Proof.
  intros Hl Hn Hd. cbn [find_levels]. rewrite (proj2 (Z.ltb_ge _ _)) by lia.
  pose proof (der_tlv_len tag m Hl) as Htl. pose proof (len_nonneg m).
  destruct (length (der_tlv tag m)) as [|n] eqn:El; [unfold len in Htl; lia|].
  pose proof (find_loop_tlv (fun content => find_levels fuel content (depth + 1)) n [] tag m []
    Hl ltac:(rewrite len_nil; lia)) as Hstep.
  rewrite app_nil_r in Hstep. cbn [app] in Hstep. rewrite len_nil in Hstep. rewrite Hstep.
  by rewrite Hn.
Qed.

(** No wrapped element looks like an NTLM message itself. *)
Lemma is_ntlm_der_tlv tag content : tag <> x4e -> is_ntlm (der_tlv tag content) = false.
Proof.
  intros Ht. unfold is_ntlm, der_tlv, encode_der_length. apply bool_decide_eq_false. cbv zeta.
  destruct (len content <? 128); intros Heq; by injection Heq.
Qed.

(** Two elements, the message being in the second. *)
Lemma find_levels_second fuel tag1 c1 tag2 c2 depth m :
  len c1 < 2 ^ 32 -> len c2 < 2 ^ 62 -> is_ntlm c1 = false -> is_ntlm c2 = false ->
  depth <= MAX_DER_DEPTH ->
  (if has_flag (Z_of_byte tag1) 0x20 then find_levels fuel c1 (depth + 1) else Ok None) = Ok None ->
  has_flag (Z_of_byte tag2) 0x20 = true -> find_levels fuel c2 (depth + 1) = Ok (Some m) ->
  find_levels (S fuel) (der_tlv tag1 c1 ++ der_tlv tag2 c2) depth = Ok (Some m).
Proof.
  intros Hl1 Hl2 Hn1 Hn2 Hd Hnone Ht2 Hm. cbn [find_levels]. rewrite (proj2 (Z.ltb_ge _ _)) by lia.
  pose proof (der_tlv_len tag1 c1 ltac:(lia)) as Htl1. pose proof (len_nonneg c1).
  pose proof (der_tlv_len tag2 c2 ltac:(lia)) as Htl2. pose proof (len_nonneg c2).
  destruct (length (der_tlv tag1 c1 ++ der_tlv tag2 c2)) as [|[|n]] eqn:El;
    [rewrite length_app in El; unfold len in *; lia..|].
  set (nested := fun content => find_levels fuel content (depth + 1)).
  pose proof (find_loop_tlv nested (S n) [] tag1 c1 (der_tlv tag2 c2)
    ltac:(lia) ltac:(rewrite len_nil; lia)) as Hstep.
  cbn [app] in Hstep. rewrite len_nil in Hstep. rewrite Hstep, Hn1. clear Hstep.
  replace (if has_flag _ _ then nested c1 else Ok None) with (Ok None : auth (option bytes))
    by (symmetry; exact Hnone).
  cbn [obind]. pose proof (find_loop_tlv nested n (der_tlv tag1 c1) tag2 c2 []
    ltac:(lia) ltac:(lia)) as Hstep.
  rewrite app_nil_r in Hstep. rewrite Hstep, Hn2, Ht2. unfold nested. by rewrite Hm.
Qed.

Lemma find_in_response m : len m < 2 ^ 32 -> is_ntlm m = true ->
  find_ntlm_in_der (encode_neg_token_resp_ntlm m) 0 = Ok (Some m).
Proof.
  intros Hl Hn. unfold find_ntlm_in_der, encode_neg_token_resp_ntlm.
  pose proof (der_tlv_len x04 m ltac:(lia)).
  pose proof (der_tlv_len xa2 (der_tlv x04 m) ltac:(lia)).
  pose proof (der_tlv_len x30 (der_tlv xa2 (der_tlv x04 m)) ltac:(lia)).
  repeat (apply find_levels_into; [lia|by apply is_ntlm_der_tlv|done|done|]).
  by apply find_levels_message; [lia|..].
Qed.

Lemma find_in_initial m : len m < 2 ^ 32 -> is_ntlm m = true ->
  find_ntlm_in_der (encode_neg_token_init_ntlm m) 0 = Ok (Some m).
Proof.
  intros Hl Hn. unfold find_ntlm_in_der, encode_neg_token_init_ntlm. cbv zeta.
  set (types := der_tlv xa0 (der_tlv x30 NTLMSSP_OID)).
  pose proof (der_tlv_len x04 m ltac:(lia)).
  pose proof (der_tlv_len xa2 (der_tlv x04 m) ltac:(lia)).
  assert (len types = 16) by done.
  assert (len (types ++ der_tlv xa2 (der_tlv x04 m)) < 2 ^ 33) by len_lia.
  pose proof (der_tlv_len x30 (types ++ der_tlv xa2 (der_tlv x04 m)) ltac:(lia)).
  pose proof (der_tlv_len xa0 (der_tlv x30 (types ++ der_tlv xa2 (der_tlv x04 m))) ltac:(lia)).
  apply find_levels_into; [rewrite len_app; change (len SPNEGO_OID) with 8; lia|done|done|done|].
  change SPNEGO_OID with (der_tlv x06 [x2b; x06; x01; x05; x05; x02]).
  apply find_levels_second; [done|lia|done|by apply is_ntlm_der_tlv|done|done|done|].
  apply find_levels_into; [lia| |done|done|].
  { unfold types, der_tlv at 1. done. }
  subst types.
  apply find_levels_second; [done|lia|done|by apply is_ntlm_der_tlv|done|vm_compute; done|done|].
  by apply find_levels_message; [lia|..].
Qed.

Lemma extract_wrapped m : is_ntlm m = true -> len m < 2 ^ 32 ->
  extract_ntlm_token (encode_neg_token_init_ntlm m) = Ok m /\
  extract_ntlm_token (encode_neg_token_resp_ntlm m) = Ok m.
Proof.
  intros Hn Hl. unfold extract_ntlm_token. rewrite find_in_initial, find_in_response by done.
  assert (is_ntlm (encode_neg_token_init_ntlm m) = false) as -> by by apply is_ntlm_der_tlv.
  assert (is_ntlm (encode_neg_token_resp_ntlm m) = false) as -> by by apply is_ntlm_der_tlv.
  done.
Qed.

(** ** The wrapping of an answer *)

(** A DER element: its tag, its length in the short or the shortest long form, and
    its content. *)
Definition element (tag : byte) (content token : bytes) : Prop :=
  (len content < 128 /\ token = [tag; byte_of_Z (len content)] ++ content) \/
  exists x octets, x <> x00 /\ 1 <= len (x :: octets) <= 8 /\ 128 <= len content /\
    le_value (rev (x :: octets)) = len content /\
    token = [tag; byte_of_Z (Z.lor 0x80 (len (x :: octets)))] ++ (x :: octets) ++ content.

(** A NegTokenResp whose one field is this response token. *)
Definition response_token (m token : bytes) : Prop :=
  exists octet_string field sequence,
    element x04 m octet_string /\ element xa2 octet_string field /\
    element x30 field sequence /\ element xa1 sequence token.

Lemma der_tlv_element tag content : len content < 2 ^ 63 -> element tag content (der_tlv tag content).
Proof.
  intros Hl. destruct (der_tlv_forms tag content Hl) as [[Hs ->]|(x & octets & Hx & Ho & Hv & Hc & ->)].
  - by left.
  - right. by exists x, octets.
Qed.

Lemma encode_response_token m : len m < 2 ^ 32 -> response_token m (encode_neg_token_resp_ntlm m).
Proof.
  intros Hl. unfold encode_neg_token_resp_ntlm.
  pose proof (der_tlv_len x04 m ltac:(lia)). pose proof (der_tlv_len xa2 (der_tlv x04 m) ltac:(lia)).
  pose proof (der_tlv_len x30 (der_tlv xa2 (der_tlv x04 m)) ltac:(lia)).
  exists (der_tlv x04 m), (der_tlv xa2 (der_tlv x04 m)), (der_tlv x30 (der_tlv xa2 (der_tlv x04 m))).
  split_and!; apply der_tlv_element; lia.
Qed.

(** ** Properties *)

(** The search for an NTLM message in a server token is total and honest,
    and finds what the client wraps. On any bytes it returns, within its fuel,
    without overflowing or indexing out of range; what it returns starts with
    the NTLMSSP signature and lies inside the token; and an NTLM message comes
    back unchanged from both wrappings, the NegTokenInit and the NegTokenResp. *)
Theorem extract_ntlm_token_sound (token : bytes) :
  returns (extract_ntlm_token token) /\
  (forall m, extract_ntlm_token token = Ok m -> is_ntlm m = true /\ inside m token) /\
  (is_ntlm token = true -> len token < 2 ^ 32 ->
   extract_ntlm_token (encode_neg_token_init_ntlm token) = Ok token /\
   extract_ntlm_token (encode_neg_token_resp_ntlm token) = Ok token).
Proof.
  split; [|split].
  - eapply meets_returns, extract_ntlm_token_meets.
  - intros m Hm. by apply (meets_ok _ _ _ (extract_ntlm_token_meets token)).
  - by apply extract_wrapped.
Qed.

Lemma extract_ntlm_token_sound_witness :
  is_ntlm (NTLMSSP_SIGNATURE ++ [x01]) = true /\
  extract_ntlm_token (encode_neg_token_resp_ntlm (NTLMSSP_SIGNATURE ++ [x01]))
  = Ok (NTLMSSP_SIGNATURE ++ [x01]).
Proof.
  split; [reflexivity|].
  apply (extract_ntlm_token_sound (NTLMSSP_SIGNATURE ++ [x01])); reflexivity.
Defined.
