(* ===== verification/Ntlm.v ===== *)
(** * NTLMv2

    [crates/smb-auth/src/ntlm.rs]: the NTLM NEGOTIATE, CHALLENGE and
    AUTHENTICATE messages, the AV pairs of a challenge's target information, the
    NTLMv2 response and the provider that carries them through SPNEGO. MD4 and
    HMAC-MD5 (crates [md4], [hmac], [md5]), the random source ([getrandom]), the
    system clock and Unicode upper-casing are parameters. *)
From S2P Require Import Prelude WireError Utf16 Client Auth Spnego.

Definition NEGOTIATE_MESSAGE_TYPE : Z := 1.
Definition CHALLENGE_MESSAGE_TYPE : Z := 2.
Definition AUTHENTICATE_MESSAGE_TYPE : Z := 3.
Definition WINDOWS_EPOCH_OFFSET_100NS : Z := 116444736000000000.

Module ntlm_flags.
Definition NEGOTIATE_UNICODE : Z := 0x00000001.
Definition REQUEST_TARGET : Z := 0x00000004.
Definition NEGOTIATE_SIGN : Z := 0x00000010.
Definition NEGOTIATE_SEAL : Z := 0x00000020.
Definition NEGOTIATE_NTLM : Z := 0x00000200.
Definition NEGOTIATE_ALWAYS_SIGN : Z := 0x00008000.
Definition NEGOTIATE_EXTENDED_SESSIONSECURITY : Z := 0x00080000.
Definition NEGOTIATE_TARGET_INFO : Z := 0x00800000.
Definition NEGOTIATE_VERSION : Z := 0x02000000.
Definition NEGOTIATE_128 : Z := 0x20000000.
Definition NEGOTIATE_KEY_EXCH : Z := 0x40000000.
Definition NEGOTIATE_56 : Z := 0x80000000.
End ntlm_flags.

Module av_id.
Definition EOL : Z := 0.
Definition FLAGS : Z := 6.
Definition TIMESTAMP : Z := 7.
End av_id.

Definition MSV_AV_FLAGS_MIC_PRESENT : Z := 0x00000002.
Definition CLIENT_NEGOTIATE_FLAGS : Z :=
  Z.lor (Z.lor (Z.lor (Z.lor (Z.lor (Z.lor (Z.lor
    ntlm_flags.NEGOTIATE_UNICODE ntlm_flags.REQUEST_TARGET) ntlm_flags.NEGOTIATE_NTLM)
    ntlm_flags.NEGOTIATE_ALWAYS_SIGN) ntlm_flags.NEGOTIATE_EXTENDED_SESSIONSECURITY)
    ntlm_flags.NEGOTIATE_TARGET_INFO) ntlm_flags.NEGOTIATE_128) ntlm_flags.NEGOTIATE_56.
Definition REQUIRED_CHALLENGE_FLAGS : Z :=
  Z.lor (Z.lor ntlm_flags.NEGOTIATE_UNICODE ntlm_flags.NEGOTIATE_NTLM)
    ntlm_flags.NEGOTIATE_EXTENDED_SESSIONSECURITY.

(** The primitives and the environment: [now] is the time since the Unix epoch
    in seconds and nanoseconds, [None] when the clock predates it; [random] is
    what filling 8 bytes gives, [None] when the source fails. *)
Class NtlmEnvironment : Type := {
  md4 : bytes -> bytes;
  hmac_md5_digest : bytes -> bytes -> option bytes;
  to_uppercase : rust_string -> rust_string;
  now : option (Z * Z);
  random : option bytes
}.

(** What they document: digests of 16 bytes, HMAC for any key, 8 random bytes,
    a sub-second part in nanoseconds. *)
Class NtlmEnvironmentLaws `{NtlmEnvironment} : Prop := {
  md4_len m : len (md4 m) = 16;
  hmac_md5_len key m : exists d, hmac_md5_digest key m = Some d /\ len d = 16;
  random_len r : random = Some r -> len r = 8;
  now_range secs nanos : now = Some (secs, nanos) -> u64 secs /\ 0 <= nanos < 1000000000
}.

(** ** Fields and security buffers *)

Definition read_u32 (input : bytes) (offset : Z) : auth Z :=
  if offset + 4 <=? len input then Ok (le_at 4 input offset)
  else Err (AuthError.InvalidToken "truncated NTLM u32 field").

Definition put_u32 (output : bytes) (offset value : Z) : auth bytes := put_le 4 output offset value.

(** [is_none_or(|end| end > message.len())]. *)
Definition header_truncated (message : bytes) (field_offset : Z) : bool :=
  match checked_add usize_max field_offset 8 with
  | Some end_ => len message <? end_
  | None => true
  end.

Definition read_security_buffer (message : bytes) (field_offset : Z) : auth bytes :=
  if header_truncated message field_offset
  then Err (AuthError.InvalidToken "truncated NTLM security buffer") else
  let! length_ := get_le 2 message field_offset in
  let! max_length := get_le 2 message (field_offset + 2) in
  if max_length <? length_
  then Err (AuthError.InvalidToken "NTLM security buffer max length is smaller than its length") else
  if length_ =? 0 then Ok [] else
  let! start := read_u32 message (field_offset + 4) in
  let! start := ok_or (try_from usize_max start)
                      (AuthError.InvalidToken "NTLM security buffer offset overflow") in
  let! end_ := ok_or (checked_add usize_max start length_)
                     (AuthError.InvalidToken "NTLM security buffer length overflow") in
  if len message <? end_
  then Err (AuthError.InvalidToken "NTLM security buffer points outside message")
  else Ok (sub message start (end_ - start)).

Definition set_security_buffer (message : bytes) (field_offset length_ payload_offset : Z) :
    auth bytes :=
  let! length_ := ok_or (try_from u16_max length_)
                        (AuthError.Failed "NTLM payload field exceeds 65535 bytes") in
  let! payload_offset := ok_or (try_from u32_max payload_offset)
                               (AuthError.Failed "NTLM message exceeds 4 GiB") in
  if header_truncated message field_offset
  then Err (AuthError.Failed "NTLM security-buffer header is truncated") else
  let! message := put_le 2 message field_offset length_ in
  let! message := put_le 2 message (field_offset + 2) length_ in
  put_le 4 message (field_offset + 4) payload_offset.

Definition append_security_buffer (message : bytes) (field_offset : Z) (value : bytes) :
    auth bytes :=
  let payload_offset := len message in
  let! message := set_security_buffer message field_offset (len value) payload_offset in
  Ok (message ++ value).

(** ** Target information *)

Module TargetInfoMeta.
Record t : Type := mk { timestamp : option Z; mic_required : bool }.
Definition default : t := mk None false.
#[global] Instance eq_dec : EqDecision t.
Proof. solve_decision. Defined.
End TargetInfoMeta.

(** The [match id] of the loop, for any pair but the last. *)
Definition av_pair (id : Z) (value : bytes) (meta : TargetInfoMeta.t) : auth TargetInfoMeta.t :=
  if (id =? av_id.FLAGS) && (len value =? 4) then
    let! v := get_le 4 value 0 in
    Ok (TargetInfoMeta.mk (TargetInfoMeta.timestamp meta) (has_flag v MSV_AV_FLAGS_MIC_PRESENT))
  else if (id =? av_id.TIMESTAMP) && (len value =? 8) then
    let! v := get_le 8 value 0 in
    Ok (TargetInfoMeta.mk (Some v) (TargetInfoMeta.mic_required meta))
  else if id =? av_id.FLAGS then Err (AuthError.InvalidToken "MsvAvFlags has invalid length")
  else if id =? av_id.TIMESTAMP
  then Err (AuthError.InvalidToken "MsvAvTimestamp has invalid length")
  else Ok meta.

(** The [while] loop. A pair takes four bytes or more, so the length of the
    input is fuel enough. *)
Fixpoint target_info_loop (fuel : nat) (target_info : bytes) (offset : Z)
    (meta : TargetInfoMeta.t) : auth TargetInfoMeta.t :=
  if offset <? len target_info then
    match fuel with
    | O => OutOfFuel
    | S fuel =>
        if len target_info - offset <? 4
        then Err (AuthError.InvalidToken "truncated NTLM TargetInfo AV pair") else
        let! id := get_le 2 target_info offset in
        let! length_ := get_le 2 target_info (offset + 2) in
        let offset := offset + 4 in
        let! end_ := ok_or (checked_add usize_max offset length_)
                           (AuthError.InvalidToken "NTLM TargetInfo length overflow") in
        if len target_info <? end_
        then Err (AuthError.InvalidToken "NTLM TargetInfo AV pair is truncated") else
        let! value := slice target_info offset end_ in
        if id =? av_id.EOL then
          if negb (length_ =? 0)
          then Err (AuthError.InvalidToken "MsvAvEOL must have zero length") else
          if negb (end_ =? len target_info)
          then Err (AuthError.InvalidToken "data follows MsvAvEOL") else Ok meta
        else
          let! meta := av_pair id value meta in
          target_info_loop fuel target_info end_ meta
    end
  else Err (AuthError.InvalidToken "NTLM TargetInfo is missing MsvAvEOL").

Definition validate_target_info (target_info : bytes) : auth TargetInfoMeta.t :=
  if is_empty target_info then Ok TargetInfoMeta.default
  else target_info_loop (length target_info) target_info 0 TargetInfoMeta.default.

(** ** Messages *)

Definition build_negotiate_message : auth bytes :=
  let message := replicate 32 x00 in
  let! message := copy_from_slice message 0 8 NTLMSSP_SIGNATURE in
  let! message := put_u32 message 8 NEGOTIATE_MESSAGE_TYPE in
  put_u32 message 12 CLIENT_NEGOTIATE_FLAGS.

Module ChallengeMessage.
Record t : Type := mk { flags : Z; server_challenge : bytes; target_info : bytes }.
End ChallengeMessage.

Definition parse_challenge_message (message : bytes) : auth ChallengeMessage.t :=
  if len message <? 48 then Err (AuthError.InvalidToken "NTLM CHALLENGE is truncated") else
  let! signature := slice message 0 8 in
  if negb (bool_decide (signature = NTLMSSP_SIGNATURE))
  then Err (AuthError.InvalidToken "invalid NTLMSSP signature") else
  let! message_type := read_u32 message 8 in
  if negb (message_type =? CHALLENGE_MESSAGE_TYPE)
  then Err (AuthError.InvalidToken "expected NTLM CHALLENGE message") else
  let! challenge_flags := read_u32 message 20 in
  if negb (Z.land challenge_flags REQUIRED_CHALLENGE_FLAGS =? REQUIRED_CHALLENGE_FLAGS)
  then Err (AuthError.Unsupported
    "server NTLM challenge lacks Unicode, NTLM, or extended-session-security support") else
  let! server_challenge := slice message 24 32 in
  let! target_info := read_security_buffer message 40 in
  let! _ := validate_target_info target_info in
  Ok (ChallengeMessage.mk challenge_flags server_challenge target_info).

Module NtlmCredentials.
Record t : Type := mk {
  username : rust_string; domain : rust_string; workstation : rust_string; password : rust_string
}.
Definition new (username password : rust_string) : t := mk username [] [] password.
Definition with_domain (c : t) (domain : rust_string) : t :=
  mk (username c) domain (workstation c) (password c).
Definition with_workstation (c : t) (workstation : rust_string) : t :=
  mk (username c) (domain c) workstation (password c).
End NtlmCredentials.

Module ComputedResponse.
Record t : Type := mk { lm_response : bytes; nt_response : bytes; session_base_key : bytes }.
End ComputedResponse.

Section ntlm.
Context `{NtlmEnvironment}.

Definition current_filetime : auth Z :=
  let! '(secs, nanos) := ok_or now (AuthError.Failed "system clock predates the Unix epoch") in
  let! ticks_from_unix := ok_or (ticks ← checked_mul u64_max secs 10000000;
                                 checked_add u64_max ticks (nanos / 100))
                                (AuthError.Failed "system time overflow") in
  ok_or (checked_add u64_max WINDOWS_EPOCH_OFFSET_100NS ticks_from_unix)
        (AuthError.Failed "Windows FILETIME overflow").

Definition hmac_md5 (key input : bytes) : auth bytes :=
  let! digest := ok_or (hmac_md5_digest key input)
                       (AuthError.Failed "failed to initialize HMAC-MD5") in
  copy_from_slice (replicate 16 x00) 0 16 digest.

(** The part of an NTLMv2 response after its proof. *)
Definition response_temp (timestamp : Z) (client_challenge target_info : bytes) : bytes :=
  [x01; x01; x00; x00; x00; x00; x00; x00] ++ le_bytes 8 timestamp ++ client_challenge
  ++ replicate 4 x00 ++ target_info ++ replicate 4 x00.

Definition compute_ntlmv2_response (credentials : NtlmCredentials.t)
    (challenge : ChallengeMessage.t) (timestamp : Z) (client_challenge : bytes) :
    auth ComputedResponse.t :=
  let password_utf16 := utf16_bytes (NtlmCredentials.password credentials) in
  let nt_digest := md4 password_utf16 in
  let! nt_hash := copy_from_slice (replicate 16 x00) 0 16 nt_digest in
  let identity := to_uppercase (NtlmCredentials.username credentials)
                  ++ NtlmCredentials.domain credentials in
  let identity_utf16 := utf16_bytes identity in
  let! response_key := hmac_md5 nt_hash identity_utf16 in
  let temp := response_temp timestamp client_challenge (ChallengeMessage.target_info challenge) in
  let! nt_proof := hmac_md5 response_key (ChallengeMessage.server_challenge challenge ++ temp) in
  let nt_response := nt_proof ++ temp in
  let! lm_response :=
    if is_empty (ChallengeMessage.target_info challenge) then
      let! input := copy_from_slice (replicate 16 x00) 0 8
                      (ChallengeMessage.server_challenge challenge) in
      let! input := copy_from_slice input 8 16 client_challenge in
      let! proof := hmac_md5 response_key input in
      Ok (proof ++ client_challenge)
    else Ok (replicate 24 x00) in
  let! session_base_key := hmac_md5 response_key nt_proof in
  Ok (ComputedResponse.mk lm_response nt_response session_base_key).

(** The AUTHENTICATE message before its MIC. *)
Definition authenticate_fields (credentials : NtlmCredentials.t) (computed : ComputedResponse.t)
    (negotiated_flags : Z) (include_mic : bool) : auth bytes :=
  let header_len := if include_mic then 88 else 72 in
  let message := replicate (Z.to_nat header_len) x00 in
  let! message := copy_from_slice message 0 8 NTLMSSP_SIGNATURE in
  let! message := put_u32 message 8 AUTHENTICATE_MESSAGE_TYPE in
  let! message := put_u32 message 60 negotiated_flags in
  let domain := utf16_bytes (NtlmCredentials.domain credentials) in
  let username := utf16_bytes (NtlmCredentials.username credentials) in
  let workstation := utf16_bytes (NtlmCredentials.workstation credentials) in
  let! message := append_security_buffer message 12 (ComputedResponse.lm_response computed) in
  let! message := append_security_buffer message 20 (ComputedResponse.nt_response computed) in
  let! message := append_security_buffer message 28 domain in
  let! message := append_security_buffer message 36 username in
  let! message := append_security_buffer message 44 workstation in
  let session_key_offset := len message in
  set_security_buffer message 52 0 session_key_offset.

Definition build_authenticate_message (credentials : NtlmCredentials.t)
    (negotiate_message challenge_message : bytes) (challenge : ChallengeMessage.t) :
    auth (bytes * bytes) :=
  let! meta := validate_target_info (ChallengeMessage.target_info challenge) in
  let! timestamp :=
    match TargetInfoMeta.timestamp meta with
    | Some value => Ok value
    | None => current_filetime
    end in
  let! client_challenge :=
    ok_or random (AuthError.Failed "operating-system random source failed") in
  let! computed := compute_ntlmv2_response credentials challenge timestamp client_challenge in
  let negotiated_flags := Z.land (ChallengeMessage.flags challenge) CLIENT_NEGOTIATE_FLAGS in
  let include_mic := TargetInfoMeta.mic_required meta in
  let! message := authenticate_fields credentials computed negotiated_flags include_mic in
  let! session_key := copy_from_slice (replicate 16 x00) 0 16
                        (ComputedResponse.session_base_key computed) in
  let! message :=
    if include_mic then
      let transcript := negotiate_message ++ challenge_message ++ message in
      let! mic := hmac_md5 session_key transcript in
      copy_from_slice message 72 88 mic
    else Ok message in
  Ok (message, session_key).

(** ** The provider *)

Inductive ProviderState : Type := New | NegotiateSent (message : bytes) | Completed.

Record NtlmV2Provider : Type := mkNtlmV2Provider {
  credentials : NtlmCredentials.t;
  state : ProviderState;
  session_key : option bytes
}.

Definition ntlm_new (credentials : NtlmCredentials.t) : NtlmV2Provider :=
  mkNtlmV2Provider credentials New None.

Definition ntlm_initial_token (self : NtlmV2Provider) :
    outcome AuthError.t AuthStep.t * NtlmV2Provider :=
  match state self with
  | New =>
      if is_empty (NtlmCredentials.username (credentials self))
      then (Err (AuthError.Failed "NTLM username must not be empty"), self) else
      match build_negotiate_message with
      | Ok negotiate =>
          let token := encode_neg_token_init_ntlm negotiate in
          (Ok (AuthStep.mk token Continue),
           mkNtlmV2Provider (credentials self) (NegotiateSent negotiate) (session_key self))
      | Err e => (Err e, self)
      | Panic => (Panic, self)
      | OutOfFuel => (OutOfFuel, self)
      end
  | _ => (Err (AuthError.InvalidState "NTLM NEGOTIATE token has already been emitted"), self)
  end.

(** The answer to a challenge, and the session key it leads to. *)
Definition answer_challenge (credentials : NtlmCredentials.t) (negotiate server_token : bytes) :
    auth (bytes * bytes) :=
  let! challenge_bytes := extract_ntlm_token server_token in
  let! challenge := parse_challenge_message challenge_bytes in
  build_authenticate_message credentials negotiate challenge_bytes challenge.

Definition ntlm_next_token (server_token : bytes) (self : NtlmV2Provider) :
    outcome AuthError.t AuthStep.t * NtlmV2Provider :=
  match state self with
  | NegotiateSent negotiate =>
      match answer_challenge (credentials self) negotiate server_token with
      | Ok (authenticate, session_key) =>
          (Ok (AuthStep.mk (encode_neg_token_resp_ntlm authenticate) Complete),
           mkNtlmV2Provider (credentials self) Completed (Some session_key))
      | Err e => (Err e, self)
      | Panic => (Panic, self)
      | OutOfFuel => (OutOfFuel, self)
      end
  | New =>
      (Err (AuthError.InvalidState "NTLM CHALLENGE arrived before NEGOTIATE was sent"), self)
  | Completed => (Ok (AuthStep.mk [] Complete), self)
  end.

Definition ntlm_take_session_key (self : NtlmV2Provider) : option bytes * NtlmV2Provider :=
  (session_key self, mkNtlmV2Provider (credentials self) (state self) None).

#[export] Instance NtlmV2_provider : AuthProvider NtlmV2Provider := {|
  mechanism := fun _ => NtlmV2;
  initial_token := ntlm_initial_token;
  next_token := ntlm_next_token;
  take_session_key := ntlm_take_session_key
|}.

End ntlm.

(** ** Buffers written in place *)

Lemma sub_app_l {A} (a b : list A) o n :
  0 <= o -> 0 <= n -> o + n <= len a -> sub (a ++ b) o n = sub a o n.
Proof.
  intros. unfold sub, len in *. rewrite drop_app_le by lia. apply take_app_le.
  rewrite length_drop. lia.
Qed.

(** [b] is [a] with at most the bytes of [lo, hi) changed, possibly longer. *)
Definition keeps (lo hi : Z) (a b : bytes) : Prop :=
  len a <= len b /\
  forall o n, 0 <= o -> 0 <= n -> o + n <= len a -> o + n <= lo \/ hi <= o ->
  sub b o n = sub a o n.

Lemma keeps_app lo hi a b t : keeps lo hi a b -> keeps lo hi a (b ++ t).
Proof.
  intros [Hl Hs]. split; [len_lia|]. intros o n ????. rewrite <- Hs by done.
  apply sub_app_l; lia.
Qed.

(** A chain of writes inside [lo, hi). *)
Lemma keeps_then lo hi lo' hi' a b c :
  keeps lo hi a b -> keeps lo' hi' b c -> lo <= lo' -> hi' <= hi -> keeps lo hi a c.
Proof.
  intros [Hl Hs] [Hl' Hs'] ??. split; [lia|]. intros o n ????.
  rewrite Hs' by lia. apply Hs; lia.
Qed.

Lemma keeps_widen lo hi lo' hi' a b : keeps lo' hi' a b -> lo <= lo' -> hi' <= hi -> keeps lo hi a b.
Proof. intros [Hl Hs] ??. split; [done|]. intros; apply Hs; lia. Qed.

Lemma keeps_le lo hi a b n o :
  keeps lo hi a b -> 0 <= o -> o + Z.of_nat n <= len a -> o + Z.of_nat n <= lo \/ hi <= o ->
  le_at n b o = le_at n a o.
Proof. intros [_ Hs] ???. unfold le_at. rewrite Hs by lia. done. Qed.

Lemma copy_from_slice_keeps {E} (out : bytes) a b src :
  0 <= a <= b -> b <= len out -> len src = b - a ->
  meets (copy_from_slice (E := E) out a b src) (fun r =>
    len r = len out /\ sub r a (b - a) = src /\ keeps a b out r).
Proof.
  intros Ha Hb Hs. rewrite copy_from_slice_ok by done. cbn [meets].
  assert (len (take (Z.to_nat a) out) = a) as Hta by len_lia.
  split; [len_lia|]. split; [rewrite sub_app_r, Hta, Z.sub_diag by lia; by apply sub_app_here|].
  split; [len_lia|]. intros o n Ho Hn Hl [Hlo|Hhi].
  - rewrite sub_app_l by lia. unfold sub. rewrite <- (take_drop (Z.to_nat a) out) at 2.
    rewrite drop_app_le by (unfold len in *; lia). symmetry. apply take_app_le.
    rewrite length_drop. unfold len in *. lia.
  - rewrite !sub_app_r by lia. rewrite sub_drop by lia. f_equal. lia.
Qed.

Lemma put_le_keeps {E} n (out : bytes) o v :
  0 <= o -> o + Z.of_nat n <= len out -> uint (8 * Z.of_nat n) v ->
  meets (put_le (E := E) n out o v) (fun r =>
    len r = len out /\ le_at n r o = v /\ keeps o (o + Z.of_nat n) out r).
Proof.
  intros Ho Hl Hv. unfold put_le.
  eapply meets_mono; [apply copy_from_slice_keeps; len_lia|]. cbv beta.
  intros r (Hr & Hsub & Hk). split; [done|]. split; [|done]. unfold le_at.
  replace (o + Z.of_nat n - o) with (Z.of_nat n) in Hsub by lia.
  rewrite Hsub, le_value_bytes. by apply Z.mod_small.
Qed.

(** [v] is the value of the security buffer at [fo], its payload past [body]. *)
Definition holds (body : Z) (m : bytes) (fo : Z) (v : bytes) : Prop :=
  exists o, le_at 2 m fo = len v /\ le_at 2 m (fo + 2) = len v /\ le_at 4 m (fo + 4) = o /\
  body <= o /\ o + len v <= len m /\ sub m o (len v) = v.

Lemma set_security_buffer_meets message fo length_ payload_offset :
  0 <= fo -> fo + 8 <= len message -> len message <= usize_max ->
  0 <= length_ -> 0 <= payload_offset ->
  meets (set_security_buffer message fo length_ payload_offset) (fun r =>
    len r = len message /\ keeps fo (fo + 8) message r /\ payload_offset <= u32_max /\
    le_at 2 r fo = length_ /\ le_at 2 r (fo + 2) = length_ /\ le_at 4 r (fo + 4) = payload_offset).
Proof.
  intros Hfo Hl Hm Hn Hp. unfold set_security_buffer, header_truncated.
  repeat meets_step. rewrite (proj2 (checked_add_some _ _ _ (fo + 8))) in * by lia. bool_facts.
  assert (uint 16 length_ /\ uint 32 payload_offset) as [? ?]
    by (unfold u16_max, u32_max in *; split; unfold uint; lia).
  apply meets_bind. eapply meets_mono; [apply (put_le_keeps 2); [lia..|done]|].
  intros m1 (L1 & V1 & K1). apply meets_bind.
  eapply meets_mono; [apply (put_le_keeps 2); [lia..|done]|]. intros m2 (L2 & V2 & K2).
  eapply meets_mono; [apply (put_le_keeps 4); [lia..|done]|]. intros m3 (L3 & V3 & K3).
  split; [lia|]. split; [|split; [lia|]].
  - eapply keeps_then; [eapply keeps_then; [eapply keeps_widen; [exact K1|lia..]|exact K2|lia..]
                       |exact K3|lia..].
  - split; [|split; [|done]].
    + rewrite (keeps_le _ _ _ _ _ _ K3), (keeps_le _ _ _ _ _ _ K2) by lia. done.
    + rewrite (keeps_le _ _ _ _ _ _ K3) by lia. done.
Qed.

Lemma meets_eq {E A} (m : outcome E A) (Q : A -> Prop) :
  meets m Q -> meets m (fun a => m = Ok a /\ Q a).
Proof. by destruct m. Qed.

Lemma append_security_buffer_meets body message fo v :
  0 <= fo -> fo + 8 <= body -> body <= len message -> len message <= usize_max ->
  meets (append_security_buffer message fo v) (fun r =>
    holds body r fo v /\ keeps fo (fo + 8) message r /\
    len message <= len r /\ len r <= u32_max + u16_max).
Proof.
  intros Hfo Hb Hl Hm. unfold append_security_buffer. cbv zeta. pose proof (len_nonneg v).
  apply meets_bind. eapply meets_mono; [apply meets_eq, set_security_buffer_meets; lia|].
  cbv beta. intros r (Heq & Hr & Hk & Ho & V1 & V2 & V3).
  assert (len v <= u16_max).
  { unfold set_security_buffer in Heq. accept Heq. lia. }
  assert (0 <= fo + 4) by lia.
  split; [|split; [by apply keeps_app|len_lia]]. exists (len message).
  unfold le_at in *. rewrite !sub_app_l by lia. repeat split; try done; [len_lia|].
  rewrite sub_app_r, Hr, Z.sub_diag by lia. by apply sub_full.
Qed.

Lemma holds_keeps lo hi body m m' fo v :
  holds body m fo v -> keeps lo hi m m' -> fo + 8 <= lo \/ hi <= fo -> hi <= body ->
  0 <= fo -> fo + 8 <= body -> holds body m' fo v.
Proof.
  intros (o & V1 & V2 & V3 & Ho & Hl & Hs) Hk Hout Hhi Hfo Hb. pose proof (len_nonneg v).
  exists o. rewrite !(keeps_le _ _ _ _ _ _ Hk) by lia.
  repeat split; [done..|destruct Hk; lia|]. destruct Hk as [_ Hk]. by rewrite Hk by lia.
Qed.

Lemma read_security_buffer_holds body m fo v :
  holds body m fo v -> 0 <= fo -> fo + 8 <= body -> len m <= usize_max ->
  read_security_buffer m fo = Ok v.
Proof.
  intros (o & V1 & V2 & V3 & Ho & Hl & Hs) Hfo Hb Hm. pose proof (len_nonneg v).
  unfold read_security_buffer, header_truncated.
  rewrite (proj2 (checked_add_some _ _ _ (fo + 8))), (proj2 (Z.ltb_ge _ _)) by lia.
  rewrite !get_le_ok by lia. cbn [obind]. rewrite V1, V2, Z.ltb_irrefl.
  destruct (Z.eqb_spec (len v) 0) as [He|He]; [by destruct v; [|rewrite len_cons in He; len_lia]|].
  unfold read_u32. rewrite (proj2 (Z.leb_le _ _)) by lia. cbn [obind]. rewrite V3.
  rewrite try_from_ok by (unfold usize_max in *; lia). cbn [ok_or obind].
  rewrite (proj2 (checked_add_some _ _ _ (o + len v))) by lia. cbn [ok_or obind].
  rewrite (proj2 (Z.ltb_ge _ _)) by lia. f_equal. rewrite <- Hs at 2. f_equal. lia.
Qed.

(** An AUTHENTICATE message under construction: the header [m0] it started from,
    of which only the security-buffer headers changed, and the security buffers
    it holds so far. *)
Definition authenticate_form (m0 : bytes) (fields : list (Z * bytes)) (m : bytes) : Prop :=
  keeps 12 60 m0 m /\ len m <= u32_max + u16_max /\
  Forall (fun '(fo, v) => holds (len m0) m fo v) fields.

(** The header of a field, after the message type and before the flags. *)
Definition header_at (fo : Z) : Prop := 12 <= fo /\ fo + 8 <= 60.

(** [fo] is not the header of any of [fields]. *)
Definition free (fo : Z) (fields : list (Z * bytes)) : Prop :=
  Forall (fun '(fo', _) => header_at fo' /\ (fo' + 8 <= fo \/ fo + 8 <= fo')) fields.

Lemma form_step m0 fields fo v m r :
  72 <= len m0 -> authenticate_form m0 fields m -> header_at fo -> free fo fields ->
  keeps fo (fo + 8) m r -> len r <= u32_max + u16_max -> holds (len m0) r fo v ->
  authenticate_form m0 ((fo, v) :: fields) r.
Proof.
  intros H0 (Hk0 & Hl & Hh) [Hfo Hfo'] Hd Hk Hr Hnew. pose proof Hk0 as [Hlen _].
  split; [eapply keeps_then; [done..|lia|lia]|].
  split; [done|]. constructor; [done|].
  apply Forall_forall. intros [fo' v'] Hin. unfold free in Hd. rewrite Forall_forall in Hh, Hd.
  destruct (Hd _ Hin) as [[??]?]. eapply holds_keeps; [by apply (Hh _ Hin)|exact Hk|lia..].
Qed.

Lemma append_form m0 fields fo v m :
  72 <= len m0 -> authenticate_form m0 fields m -> header_at fo -> free fo fields ->
  meets (append_security_buffer m fo v) (authenticate_form m0 ((fo, v) :: fields)).
Proof.
  intros H0 Hform Hfo Hd. pose proof Hform as ([Hlen _] & Hl & _).
  eapply meets_mono; [apply (append_security_buffer_meets (len m0));
    unfold header_at, u32_max, u16_max, usize_max in *; lia|].
  cbv beta. intros r (Hnew & Hk & Hlr & Hr). by eapply form_step.
Qed.

Ltac free_header := repeat (apply Forall_cons_2; [unfold header_at; lia|]); apply Forall_nil_2.

(** ** Target information as a list of AV pairs *)

Definition av_bytes (pair : Z * bytes) : bytes :=
  le_bytes 2 pair.1 ++ le_bytes 2 (len pair.2) ++ pair.2.
Definition av_list_bytes (pairs : list (Z * bytes)) : bytes :=
  (pairs ≫= av_bytes) ++ replicate 4 x00.
(** MsvAvEOL is 0, MsvAvFlags 6, with the bit of the MIC at 2, and
    MsvAvTimestamp 7. *)
Definition av_ok (pair : Z * bytes) : Prop :=
  uint 16 pair.1 /\ pair.1 <> 0 /\ len pair.2 <= u16_max /\
  (pair.1 = 6 -> len pair.2 = 4) /\ (pair.1 = 7 -> len pair.2 = 8).
Definition av_meta (meta : TargetInfoMeta.t) (pair : Z * bytes) : TargetInfoMeta.t :=
  if pair.1 =? 6
  then TargetInfoMeta.mk (TargetInfoMeta.timestamp meta) (has_flag (le_value pair.2) 2)
  else if pair.1 =? 7
  then TargetInfoMeta.mk (Some (le_value pair.2)) (TargetInfoMeta.mic_required meta)
  else meta.

Lemma get_le_all {E} n (v : bytes) : len v = Z.of_nat n -> get_le (E := E) n v 0 = Ok (le_value v).
Proof. intros Hv. rewrite get_le_ok by lia. unfold le_at. by rewrite sub_full by done. Qed.

Lemma av_pair_iff id value meta meta' :
  av_pair id value meta = Ok meta' <->
  (id = 6 -> len value = 4) /\ (id = 7 -> len value = 8) /\ meta' = av_meta meta (id, value).
Proof.
  unfold av_pair, av_meta. cbn [fst snd]. change av_id.FLAGS with 6. change av_id.TIMESTAMP with 7.
  change MSV_AV_FLAGS_MIC_PRESENT with 2.
  destruct (Z.eqb_spec id 6) as [->|Hf]; cbn [andb].
  - change (6 =? 7) with false. cbn [andb].
    destruct (Z.eqb_spec (len value) 4) as [Hl|Hl]; [|by split; [|intros (Hv & _); destruct (Hl (Hv eq_refl))]].
    rewrite (get_le_all 4) by done. cbn [obind]. split; [intros [= <-]|intros (_ & _ & ->)]; done.
  - destruct (Z.eqb_spec id 7) as [->|Ht]; cbn [andb];
      [|by split; [intros [= ->]|intros (_ & _ & ->)]].
    destruct (Z.eqb_spec (len value) 8) as [Hl|Hl];
      [|by split; [|intros (_ & Hv & _); destruct (Hl (Hv eq_refl))]].
    rewrite (get_le_all 8) by done. cbn [obind]. split; [intros [= <-]|intros (_ & _ & ->)]; done.
Qed.

Lemma av_list_cons p pairs : av_list_bytes (p :: pairs) = av_bytes p ++ av_list_bytes pairs.
Proof. unfold av_list_bytes. cbn. by rewrite <- app_assoc. Qed.

Lemma av_head (ti : bytes) o : 0 <= o -> 4 <= len ti - o ->
  drop (Z.to_nat o) ti
  = le_bytes 2 (le_at 2 ti o) ++ le_bytes 2 (le_at 2 ti (o + 2)) ++ drop (Z.to_nat (o + 4)) ti.
Proof.
  intros. rewrite !le_bytes_le_at by lia. by rewrite (drop_sub ti o 2 (o + 2)), (drop_sub ti (o + 2) 2 (o + 4)) by lia.
Qed.

Lemma target_info_loop_sound fuel : forall ti offset meta meta',
  0 <= offset -> target_info_loop fuel ti offset meta = Ok meta' ->
  exists pairs, Forall av_ok pairs /\ drop (Z.to_nat offset) ti = av_list_bytes pairs /\
                meta' = foldl av_meta meta pairs.
Proof.
  induction fuel as [|fuel IH]; intros ti offset meta meta' Ho Hm; cbn [target_info_loop] in Hm;
    (destruct (Z.ltb_spec offset (len ti)); [|done]); [done|].
  accept Hm. bool_facts. pose proof (le_at_bound 2 ti offset). pose proof (le_at_bound 2 ti (offset + 2)).
  pose proof (av_head ti offset ltac:(lia) ltac:(lia)) as Hhead.
  destruct (Z.eqb_spec (le_at 2 ti offset) av_id.EOL) as [He|He].
  - accept Hm. bool_facts. apply Ok_inj in Hm as <-. exists [].
    split; [constructor|]. split; [|done]. rewrite Hhead, He.
    replace (le_at 2 ti (offset + 2)) with 0 in * by lia. rewrite drop_ge by (unfold len in *; lia).
    done.
  - apply obind_ok in Hm as (meta1 & Hp & Hm). apply av_pair_iff in Hp as (Hf & Ht & ->).
    set (n := le_at 2 ti (offset + 2)) in *.
    apply IH in Hm as (pairs & Hok & Hd & ->); [|lia].
    assert (len (sub ti (offset + 4) n) = n) as Hn by (apply len_sub; lia).
    exists ((le_at 2 ti offset, sub ti (offset + 4) n) :: pairs). split; [|split; [|done]].
    + constructor; [|done]. unfold av_ok, uint, u16_max. cbn [fst snd]. rewrite Hn.
      repeat split; try done; lia.
    + rewrite Hhead, av_list_cons. unfold av_bytes. cbn [fst snd]. rewrite Hn, <- !app_assoc. do 2 f_equal. rewrite <- Hd. by rewrite (drop_sub ti (offset + 4) n (offset + 4 + n)) by lia.
Qed.

Lemma target_info_loop_complete pairs : forall fuel pre meta,
  Forall av_ok pairs -> len (av_list_bytes pairs) <= Z.of_nat fuel ->
  len (pre ++ av_list_bytes pairs) <= usize_max ->
  target_info_loop fuel (pre ++ av_list_bytes pairs) (len pre) meta = Ok (foldl av_meta meta pairs).
Proof.
  induction pairs as [|[id v] pairs IH]; intros fuel pre meta Hok Hf Hl; pose proof (len_nonneg pre).
  - change (av_list_bytes []) with (le_bytes 2 0 ++ le_bytes 2 0 ++ []) in *.
    destruct fuel as [|fuel]; [exfalso; len_lia|]. cbn [target_info_loop].
    rewrite (proj2 (Z.ltb_lt _ _)), (proj2 (Z.ltb_ge _ 4)) by len_lia.
    by follow.
  - apply Forall_cons in Hok as [(Hid & Hne & Hv & Hfl & Hts) Hok]. cbn [fst snd] in *.
    rewrite av_list_cons in *. unfold av_bytes in *. cbn [fst snd] in *.
    rewrite <- !app_assoc in *.
    pose proof (len_nonneg v). pose proof (len_nonneg (av_list_bytes pairs)).
    destruct fuel as [|fuel]; [exfalso; len_lia|]. cbn [target_info_loop].
    rewrite (proj2 (Z.ltb_lt _ _)), (proj2 (Z.ltb_ge _ 4)) by len_lia.
    assert (uint 16 (len v)) as Hlv by (unfold uint, u16_max in *; lia).
    follow.
    match goal with |- context [sub ?l ?o ?n] =>
      replace (sub l o n) with v by (symmetry; sub_at) end.
    rewrite (proj2 (av_pair_iff id v meta _)) by done. cbn [obind].
    pose proof (IH fuel (pre ++ le_bytes 2 id ++ le_bytes 2 (len v) ++ v)
      (av_meta meta (id, v)) Hok ltac:(len_lia)) as IH'.
    rewrite <- !app_assoc in IH'. cbn [foldl]. rewrite <- IH' by done. f_equal. len_lia.
Qed.

Lemma target_info_loop_returns fuel : forall ti offset meta,
  0 <= offset -> len ti - offset <= Z.of_nat fuel -> returns (target_info_loop fuel ti offset meta).
Proof.
  induction fuel as [|fuel IH]; intros ti offset meta Ho Hf; cbn [target_info_loop];
    (destruct (Z.ltb_spec offset (len ti)); [|done]); [lia|].
  repeat returns_step. apply returns_bind; [unfold av_pair; repeat returns_step|].
  intros; apply IH; facts_lia.
Qed.

Lemma returns_validate_target_info ti : returns (validate_target_info ti).
Proof.
  unfold validate_target_info. destruct (is_empty ti); [done|].
  apply target_info_loop_returns; [done|unfold len; lia].
Qed.

(** Appends the next security buffer, whose header is free. *)
Ltac append_next :=
  apply meets_bind;
  match goal with Hform : authenticate_form _ _ _ |- _ =>
    eapply meets_mono;
    [eapply append_form; [|exact Hform|..]; [lia|unfold header_at; lia|free_header]|];
    clear Hform; cbv beta; intros ? Hform
  end.

Section ntlm_laws.
Context `{NtlmEnvironmentLaws}.

(** HMAC-MD5 as a total function: the primitive does not fail. *)
Definition hmac (key input : bytes) : bytes := default [] (hmac_md5_digest key input).

Lemma len_hmac key input : len (hmac key input) = 16.
Proof. unfold hmac. by destruct (hmac_md5_len key input) as (d & -> & ?). Qed.

Lemma copy_all {E} n (src : bytes) :
  len src = Z.of_nat n -> copy_from_slice (E := E) (replicate n x00) 0 (Z.of_nat n) src = Ok src.
Proof.
  intros Hs. pose proof (copy_at (E := E) [] (replicate n x00) [] src 0 (Z.of_nat n)) as Hc.
  cbn [app] in Hc. rewrite !app_nil_r in Hc. apply Hc; by rewrite ?len_replicate.
Qed.

Lemma hmac_md5_ok key input : hmac_md5 key input = Ok (hmac key input).
Proof.
  unfold hmac_md5, hmac. destruct (hmac_md5_len key input) as (d & -> & Hd). cbn.
  by apply (copy_all 16).
Qed.

Lemma returns_current_filetime : returns current_filetime.
Proof. unfold current_filetime. repeat returns_step. destruct p. repeat returns_step. Qed.

(** The keys of an account: the NT hash of its password and the NTLMv2 response
    key of its name and domain ([NTOWFv2] of MS-NLMP). *)
Definition response_key (c : NtlmCredentials.t) : bytes :=
  hmac (md4 (utf16_bytes (NtlmCredentials.password c)))
       (utf16_bytes (to_uppercase (NtlmCredentials.username c) ++ NtlmCredentials.domain c)).

Definition ntlmv2_response (c : NtlmCredentials.t) (challenge : ChallengeMessage.t)
    (timestamp : Z) (client_challenge : bytes) : ComputedResponse.t :=
  let key := response_key c in
  let temp := response_temp timestamp client_challenge (ChallengeMessage.target_info challenge) in
  let proof := hmac key (ChallengeMessage.server_challenge challenge ++ temp) in
  ComputedResponse.mk
    (if is_empty (ChallengeMessage.target_info challenge)
     then hmac key (ChallengeMessage.server_challenge challenge ++ client_challenge)
          ++ client_challenge
     else replicate 24 x00)
    (proof ++ temp) (hmac key proof).

(** The security buffers of an answer, last one first. *)
Definition answer_fields (c : NtlmCredentials.t) (computed : ComputedResponse.t) :
    list (Z * bytes) :=
  [(52, []); (44, utf16_bytes (NtlmCredentials.workstation c));
   (36, utf16_bytes (NtlmCredentials.username c)); (28, utf16_bytes (NtlmCredentials.domain c));
   (20, ComputedResponse.nt_response computed); (12, ComputedResponse.lm_response computed)].

(** The fixed part of an AUTHENTICATE message of [n] bytes. *)
Definition authenticate_header (flags : Z) (n : nat) : bytes :=
  NTLMSSP_SIGNATURE ++ le_bytes 4 AUTHENTICATE_MESSAGE_TYPE ++ replicate 48 x00
  ++ le_bytes 4 flags ++ replicate n x00.

Lemma len_authenticate_header flags n : len (authenticate_header flags n) = 64 + Z.of_nat n.
Proof. unfold authenticate_header. change NTLMSSP_SIGNATURE with (le_bytes 8 0x0050_5353_4d4c_544e). len_lia. Qed.

Lemma authenticate_header_ok {B} flags n (k : bytes -> auth B) :
  (let! message := copy_from_slice (replicate (64 + n) x00) 0 8 NTLMSSP_SIGNATURE in
   let! message := put_u32 message 8 AUTHENTICATE_MESSAGE_TYPE in
   let! message := put_u32 message 60 flags in k message)
  = k (authenticate_header flags n).
Proof.
  unfold put_u32.
  replace (64 + n)%nat with (8 + (4 + (48 + (4 + n))))%nat by lia. rewrite !replicate_add.
  pose proof (copy_at (E := AuthError.t) [] (replicate 8 x00)
    (replicate 4 x00 ++ replicate 48 x00 ++ replicate 4 x00 ++ replicate n x00)
    NTLMSSP_SIGNATURE 0 8) as Hc. cbn [app] in Hc. rewrite Hc by done. cbn [obind]. clear Hc.
  rewrite put_at by done. cbn [obind].
  rewrite (app_assoc NTLMSSP_SIGNATURE), (app_assoc (_ ++ _)). rewrite put_at by done. cbn [obind].
  unfold authenticate_header. by rewrite <- !app_assoc.
Qed.

Lemma authenticate_fields_meets c computed flags (mic : bool) :
  meets (authenticate_fields c computed flags mic) (fun m =>
    authenticate_form (authenticate_header flags (if mic then 24 else 8))
      (answer_fields c computed) m /\ len m <= u32_max).
Proof.
  unfold authenticate_fields. cbv zeta.
  replace (Z.to_nat (if mic then 88 else 72)) with (64 + (if mic then 24 else 8))%nat
    by by destruct mic.
  rewrite authenticate_header_ok. set (m0 := authenticate_header _ _).
  assert (72 <= len m0 <= 88) as Hm0
    by (subst m0; rewrite len_authenticate_header; destruct mic; lia).
  assert (authenticate_form m0 [] m0) as Hform by (split; [by split|split; [unfold u32_max, u16_max; lia|constructor]]).
  clearbody m0. unfold answer_fields. do 5 append_next.
  pose proof Hform as ([Hlen _] & Hl & _).
  eapply meets_mono; [apply set_security_buffer_meets; unfold u32_max, u16_max, usize_max in *; lia|].
  cbv beta. intros r (Hr & Hk & Hu & V1 & V2 & V3).
  split; [|lia]. eapply form_step; [|exact Hform|..]; [lia|unfold header_at; lia|free_header|done|lia|].
  exists (len a3). by repeat split; [done..|lia|len_lia].
Qed.

Lemma compute_ntlmv2_response_ok c challenge timestamp client_challenge :
  len (ChallengeMessage.server_challenge challenge) = 8 -> len client_challenge = 8 ->
  compute_ntlmv2_response c challenge timestamp client_challenge
  = Ok (ntlmv2_response c challenge timestamp client_challenge).
Proof.
  intros Hs Hc. unfold compute_ntlmv2_response, ntlmv2_response, response_key. cbv zeta.
  rewrite (copy_all 16) by apply md4_len. cbn [obind]. rewrite !hmac_md5_ok. cbn [obind].
  rewrite hmac_md5_ok. cbn [obind]. destruct (is_empty _); cbn [obind].
  - pose proof (copy_at (E := AuthError.t) [] (replicate 8 x00) (replicate 8 x00)
      (ChallengeMessage.server_challenge challenge) 0 8) as Hc1. cbn [app] in Hc1.
    change (replicate 16 x00) with (replicate 8 x00 ++ replicate 8 x00).
    rewrite Hc1 by len_lia. cbn [obind].
    pose proof (copy_at (E := AuthError.t) (ChallengeMessage.server_challenge challenge)
      (replicate 8 x00) [] client_challenge 8 16) as Hc2. rewrite !app_nil_r in Hc2.
    rewrite Hc2 by len_lia. cbn [obind].
    by rewrite !hmac_md5_ok.
  - by rewrite !hmac_md5_ok.
Qed.


Lemma read_u32_ok input offset :
  0 <= offset -> offset + 4 <= len input -> read_u32 input offset = Ok (le_at 4 input offset).
Proof. intros. unfold read_u32. by rewrite (proj2 (Z.leb_le _ _)) by lia. Qed.

Lemma read_security_buffer_meets message fo : 0 <= fo ->
  meets (read_security_buffer message fo) (fun v => len v <= u16_max).
Proof.
  intros Hfo. unfold read_security_buffer, header_truncated.
  destruct (checked_add usize_max fo 8) as [e|] eqn:He; [|done].
  apply checked_add_some in He as [-> _]. destruct (Z.ltb_spec (len message) (fo + 8)); [done|].
  repeat meets_step; [done|]. rewrite read_u32_ok by lia. cbn [obind].
  pose proof (le_at_bound 2 message fo).
  repeat meets_step. cbn [meets]. unfold u16_max in *. unfold sub. len_lia.
Qed.

(** What a parsed CHALLENGE satisfies. *)
Definition challenge_ok (challenge : ChallengeMessage.t) : Prop :=
  len (ChallengeMessage.server_challenge challenge) = 8 /\
  uint 32 (ChallengeMessage.flags challenge) /\
  is_ok (validate_target_info (ChallengeMessage.target_info challenge)) = true.

Lemma parse_challenge_message_meets message :
  meets (parse_challenge_message message) challenge_ok.
Proof.
  unfold parse_challenge_message. repeat meets_step. bool_facts.
  rewrite !read_u32_ok by lia. repeat meets_step.
  apply meets_bind. eapply meets_mono; [by apply read_security_buffer_meets|]. cbv beta. intros ti _.
  apply meets_returns_bind; [apply returns_validate_target_info|]. intros meta Hmeta.
  pose proof (le_at_bound 4 message 20).
  split; [|split]; cbn; [rewrite len_sub by lia; lia|by unfold uint|by rewrite Hmeta].
Qed.

(** The time a response carries: the server's, or this clock's. *)
Definition stamped (meta : TargetInfoMeta.t) (timestamp : Z) : Prop :=
  match TargetInfoMeta.timestamp meta with
  | Some value => timestamp = value
  | None => current_filetime = Ok timestamp
  end.

(** The MIC of a finished message: that of the three messages with its own
    place zeroed. *)
Definition message_mic (key negotiate challenge m : bytes) : bytes :=
  hmac key (negotiate ++ challenge ++ take 72 m ++ replicate 16 x00 ++ drop 88 m).

Definition answer_of (c : NtlmCredentials.t) (negotiate challenge_message : bytes)
    (challenge : ChallengeMessage.t) (answer : bytes * bytes) : Prop :=
  let '(m, key) := answer in
  exists meta timestamp client_challenge,
    validate_target_info (ChallengeMessage.target_info challenge) = Ok meta /\
    random = Some client_challenge /\ stamped meta timestamp /\
    let computed := ntlmv2_response c challenge timestamp client_challenge in
    let flags := Z.land (ChallengeMessage.flags challenge) CLIENT_NEGOTIATE_FLAGS in
    key = ComputedResponse.session_base_key computed /\ len m <= u32_max /\
    is_ntlm m = true /\ read_u32 m 8 = Ok AUTHENTICATE_MESSAGE_TYPE /\ read_u32 m 60 = Ok flags /\
    Forall (fun '(fo, v) => read_security_buffer m fo = Ok v) (answer_fields c computed) /\
    (TargetInfoMeta.mic_required meta = true ->
     sub m 72 16 = message_mic key negotiate challenge_message m).

Lemma uint_land w a b : 0 <= w -> uint w a -> uint w (Z.land a b).
Proof.
  intros Hw Ha. rewrite <- (Z.mod_small a (2 ^ w)) by exact Ha. rewrite <- Z.land_ones by done.
  rewrite <- Z.land_assoc, (Z.land_comm (Z.ones w)), Z.land_assoc, Z.land_ones by done.
  unfold uint. apply Z.mod_pos_bound. lia.
Qed.

(** What a finished message shows its reader. *)
Lemma finished_form flags n fields m r :
  (8 <= n)%nat -> uint 32 flags ->
  authenticate_form (authenticate_header flags n) fields m -> free 100 fields ->
  keeps 72 (64 + Z.of_nat n) m r -> len r = len m -> len m <= u32_max ->
  is_ntlm r = true /\ read_u32 r 8 = Ok AUTHENTICATE_MESSAGE_TYPE /\ read_u32 r 60 = Ok flags /\
  Forall (fun '(fo, v) => read_security_buffer r fo = Ok v) fields.
Proof.
  intros Hn Hflags (Hk0 & _ & Hh) Hfree Hk Hlr Hl.
  rewrite len_authenticate_header in Hh. pose proof (len_authenticate_header flags n) as Hl0.
  pose proof Hk0 as [Hlm Hs0]. pose proof Hk as [_ Hs].
  split; [|split; [|split]].
  - unfold is_ntlm. apply bool_decide_eq_true. change (length NTLMSSP_SIGNATURE) with (Z.to_nat 8).
    rewrite take_sub, Hs, Hs0 by lia. unfold authenticate_header. by apply sub_app_here.
  - rewrite read_u32_ok by lia. f_equal.
    rewrite (keeps_le _ _ _ _ _ _ Hk), (keeps_le _ _ _ _ _ _ Hk0) by lia.
    unfold authenticate_header. rewrite le_at_app_r by done. by apply (le_at_here 4 _ _ 32).
  - rewrite read_u32_ok by lia. f_equal.
    rewrite (keeps_le _ _ _ _ _ _ Hk), (keeps_le _ _ _ _ _ _ Hk0) by lia.
    unfold authenticate_header. rewrite 3!le_at_app_r by done. by apply (le_at_here 4 _ _ 32).
  - apply Forall_forall. intros [fo v] Hin. unfold free in Hfree. rewrite Forall_forall in Hh, Hfree.
    destruct (Hfree _ Hin) as [[??] _]. pose proof (Hh _ Hin) as Hheld. cbn in Hheld.
    eapply read_security_buffer_holds; [eapply holds_keeps; [exact Hheld|exact Hk|lia..]|lia..|].
    unfold u32_max, usize_max in *. lia.
Qed.

Lemma mic_place flags fields m : authenticate_form (authenticate_header flags 24) fields m ->
  88 <= len m /\ m = take 72 m ++ replicate 16 x00 ++ drop 88 m.
Proof.
  intros ([Hl Hs] & _). rewrite len_authenticate_header in *. split; [lia|].
  rewrite <- (take_drop 72 m) at 1. f_equal. change 72%nat with (Z.to_nat 72).
  rewrite (drop_sub m 72 16 88) by lia. f_equal. rewrite Hs by lia.
  unfold authenticate_header. rewrite !app_assoc. change (Z.of_nat 24) with 24 in *.
  by rewrite sub_app_r by done.
Qed.

Lemma build_authenticate_message_meets c negotiate challenge_message challenge :
  challenge_ok challenge ->
  meets (build_authenticate_message c negotiate challenge_message challenge)
    (answer_of c negotiate challenge_message challenge).
Proof.
  intros (Hsc & Hflags & Hti). unfold build_authenticate_message.
  destruct (validate_target_info _) as [meta|e| |] eqn:Hmeta; try done. cbn [obind].
  apply meets_returns_bind; [case_match; [done|apply returns_current_filetime]|].
  intros timestamp Ht. destruct random as [cc|] eqn:Hr; [|done]. cbn [ok_or obind].
  rewrite compute_ntlmv2_response_ok by (try done; by apply random_len). cbn [obind]. cbv zeta.
  set (computed := ntlmv2_response c challenge timestamp cc).
  set (flags := Z.land _ _). set (mic := TargetInfoMeta.mic_required meta).
  assert (uint 32 flags) as Hf by (by apply uint_land).
  assert (stamped meta timestamp) as Hst.
  { unfold stamped. destruct (TargetInfoMeta.timestamp meta); [by injection Ht|done]. }
  assert (len (ComputedResponse.session_base_key computed) = 16) as Hkey by apply len_hmac.
  apply meets_bind. eapply meets_mono; [apply authenticate_fields_meets|].
  cbv beta. intros m (Hform & Hl). rewrite (copy_all 16) by done. cbn [obind].
  assert (free 100 (answer_fields c computed)) as Hfree by (unfold answer_fields; free_header).
  destruct mic eqn:Hmic; subst mic.
  - rewrite hmac_md5_ok. cbn [obind]. pose proof (mic_place _ _ _ Hform) as (Hlm & Hm).
    pose proof (len_hmac (ComputedResponse.session_base_key computed)
                         (negotiate ++ challenge_message ++ m)) as Hd.
    set (d := hmac _ _) in *. apply meets_bind.
    eapply meets_mono; [apply meets_eq, copy_from_slice_keeps; lia|].
    cbv beta. intros r (Hr' & Hlr & Hd' & Hk).
    cbn. exists meta, timestamp, cc. do 3 (split; [done|]). split; [done|]. split; [lia|].
    destruct (finished_form flags 24 _ m r ltac:(lia) Hf Hform Hfree) as (?&?&?&?); [done..|].
    do 4 (split; [done|]). intros _. rewrite copy_from_slice_ok in Hr' by lia.
    change (88 - 72) with 16 in Hd'.
    apply Ok_inj in Hr' as <-. rewrite Hd'. unfold message_mic. subst d. do 3 f_equal.
    rewrite Hm at 1. rewrite take_app_length' by (rewrite length_take; unfold len in *; lia).
    do 2 f_equal. rewrite app_assoc. symmetry. apply drop_app_length'.
    rewrite length_app, length_take. unfold len in *. lia.
  - cbn. exists meta, timestamp, cc. do 3 (split; [done|]). split; [done|]. split; [done|].
    destruct (finished_form flags 8 _ m m ltac:(lia) Hf Hform Hfree) as (?&?&?&?);
      [by split|done..|].
    do 4 (split; [done|]). by rewrite Hmic.
Qed.

Lemma answer_challenge_meets c negotiate server_token :
  meets (answer_challenge c negotiate server_token) (fun answer =>
    exists challenge_message challenge,
      extract_ntlm_token server_token = Ok challenge_message /\
      parse_challenge_message challenge_message = Ok challenge /\
      answer_of c negotiate challenge_message challenge answer).
Proof.
  unfold answer_challenge.
  apply meets_bind. eapply meets_mono; [apply meets_eq, extract_ntlm_token_meets|].
  intros challenge_message [Hex _].
  apply meets_bind. eapply meets_mono; [apply meets_eq, parse_challenge_message_meets|].
  intros challenge [Hp Hok]. eapply meets_mono; [by apply build_authenticate_message_meets|].
  intros answer Ha. by exists challenge_message, challenge.
Qed.

#[export] Instance NtlmV2_safe : AuthProviderSafe NtlmV2Provider.
Proof.
  assert (exists m, build_negotiate_message = Ok m) as [negotiate Hneg] by (eexists; vm_compute; reflexivity).
  split; [intros p|intros token p]; cbn; unfold ntlm_initial_token, ntlm_next_token.
  - rewrite Hneg. by repeat case_match.
  - destruct (state p); [done| |done].
    pose proof (meets_returns _ _ (answer_challenge_meets (credentials p) message token)) as Hr.
    by destruct (answer_challenge _ _ _) as [[]| | |].
Qed.

(** ** The messages as MS-NLMP lays them out *)

(** A security buffer: the length, the room for it, and the offset of a value that
    is inside the message. *)
Definition buffer_at (m : bytes) (fo : Z) (v : bytes) : Prop :=
  fo + 8 <= len m /\ le_at 2 m fo = len v /\ len v <= le_at 2 m (fo + 2) /\
  (v = [] \/ le_at 4 m (fo + 4) + len v <= len m /\ v = sub m (le_at 4 m (fo + 4)) (len v)).

(** ["NTLMSSP\0"] and the type of a message. *)
Definition message_of_type (type : Z) (m : bytes) : Prop :=
  take 8 m = [x4e; x54; x4c; x4d; x53; x53; x50; x00] /\ le_at 4 m 8 = type.

(** The NEGOTIATE message, of type 1: Unicode, the target, NTLM, signatures,
    extended session security, target information, and 128- and 56-bit keys. *)
Definition negotiate_layout (m : bytes) : Prop :=
  message_of_type 1 m /\ le_at 4 m 12 = 0xA0888205 /\ len m = 32 /\ sub m 16 16 = replicate 16 x00.

(** A CHALLENGE message, of type 2: flags with Unicode, NTLM and extended session
    security, the server's challenge and its target information. *)
Record challenge_layout (m : bytes) (flags : Z) (server_challenge target_info : bytes) : Prop := {
  challenge_type : message_of_type 2 m;
  challenge_long : 48 <= len m;
  challenge_flags : flags = le_at 4 m 20;
  challenge_capable : Z.land flags 0x80201 = 0x80201;
  challenge_nonce : server_challenge = sub m 24 8;
  challenge_target : buffer_at m 40 target_info
}.

Definition target_info_layout (target_info : bytes) (meta : TargetInfoMeta.t) : Prop :=
  target_info = [] /\ meta = TargetInfoMeta.default \/
  exists pairs, Forall av_ok pairs /\ target_info = av_list_bytes pairs /\
                meta = foldl av_meta TargetInfoMeta.default pairs.

(** ** A server that knows the account

    It has the challenge and the target information it sent. It reads the names,
    the NTLMv2 proof and the blob from the AUTHENTICATE message, of type 3;
    recomputes the proof from its challenge, the blob and the keys of the account;
    checks that the blob has its target information, its own timestamp if it sent
    one, and the challenge of the client; and, if it asked for a MIC, that the
    three messages are the ones it saw. The session key follows from the proof. *)
Record server_accepts (c : NtlmCredentials.t) (negotiate challenge_message m : bytes) (flags : Z)
    (server_challenge target_info : bytes) (meta : TargetInfoMeta.t) (client_challenge : bytes)
    (timestamp : Z) (key : bytes) : Prop := {
  accepts_type : message_of_type 3 m;
  accepts_flags : le_at 4 m 60 = Z.land flags 0xA0888205;
  accepts_domain : buffer_at m 28 (utf16_bytes (NtlmCredentials.domain c));
  accepts_username : buffer_at m 36 (utf16_bytes (NtlmCredentials.username c));
  accepts_workstation : buffer_at m 44 (utf16_bytes (NtlmCredentials.workstation c));
  accepts_no_key : buffer_at m 52 [];
  accepts_time : forall t, TargetInfoMeta.timestamp meta = Some t -> timestamp = t;
  accepts_clock : TargetInfoMeta.timestamp meta = None -> exists secs nanos, now = Some (secs, nanos) /\
    timestamp = 116444736000000000 + secs * 10000000 + nanos / 100;
  accepts_proof :
    let blob := [x01; x01; x00; x00; x00; x00; x00; x00] ++ le_bytes 8 timestamp ++ client_challenge
                ++ replicate 4 x00 ++ target_info ++ replicate 4 x00 in
    let proof := hmac (response_key c) (server_challenge ++ blob) in
    buffer_at m 20 (proof ++ blob) /\ key = hmac (response_key c) proof;
  accepts_lm : buffer_at m 12
    (if decide (target_info = [])
     then hmac (response_key c) (server_challenge ++ client_challenge) ++ client_challenge
     else replicate 24 x00);
  accepts_mic : TargetInfoMeta.mic_required meta = true ->
    sub m 72 16 = hmac key (negotiate ++ challenge_message ++ take 72 m ++ replicate 16 x00 ++ drop 88 m)
}.

(** What comes before the NEGOTIATE message: the OID of SPNEGO, a NegTokenInit, the
    OID of NTLMSSP in its list of mechanisms, and the head of the mechanism token
    of 32 bytes. *)
Definition initial_prefix : bytes :=
  [x60; x40; x06; x06; x2b; x06; x01; x05; x05; x02; xa0; x36; x30; x34;
   xa0; x0e; x30; x0c; x06; x0a; x2b; x06; x01; x04; x01; x82; x37; x02; x02; x0a;
   xa2; x22; x04; x20].

Lemma build_negotiate_message_ok :
  exists m, build_negotiate_message = Ok m /\ negotiate_layout m /\
    encode_neg_token_init_ntlm m = initial_prefix ++ m.
Proof. eexists. split; [vm_compute; reflexivity|]. by repeat split. Qed.

Lemma read_security_buffer_at m fo v : 0 <= fo -> read_security_buffer m fo = Ok v -> buffer_at m fo v.
Proof.
  intros Hfo. unfold read_security_buffer, header_truncated, buffer_at.
  destruct (checked_add usize_max fo 8) as [e|] eqn:He; [|done]. apply checked_add_some in He as [-> _].
  intros Hr. accept Hr. bool_facts.
  pose proof (le_at_bound 2 m fo). pose proof (le_at_bound 2 m (fo + 2)). pose proof (le_at_bound 4 m (fo + 4)).
  destruct (Z.eqb_spec (le_at 2 m fo) 0) as [Hz|Hz].
  { apply Ok_inj in Hr as <-. rewrite Hz in *. split_and!; [lia|done|done|by left]. }
  rewrite read_u32_ok in Hr by lia. accept Hr. bool_facts. apply Ok_inj in Hr as <-.
  set (o := le_at 4 m (fo + 4)) in *. replace (o + le_at 2 m fo - o) with (le_at 2 m fo) by lia.
  rewrite len_sub by lia. split_and!; [lia|done|done|]. right. split; [lia|done].
Qed.

Lemma is_ntlm_type m t : is_ntlm m = true -> read_u32 m 8 = Ok t -> message_of_type t m.
Proof.
  intros Hn Ht. unfold is_ntlm in Hn. apply bool_decide_eq_true in Hn. split; [exact Hn|].
  unfold read_u32 in Ht. destruct (_ <=? _); [by apply Ok_inj in Ht|done].
Qed.

Lemma current_filetime_at t : current_filetime = Ok t ->
  exists secs nanos, now = Some (secs, nanos) /\ t = 116444736000000000 + secs * 10000000 + nanos / 100.
Proof.
  unfold current_filetime. destruct now as [[secs nanos]|]; [|done]. cbn [ok_or obind].
  destruct (checked_mul u64_max secs 10000000) as [x|] eqn:Hx; [|done].
  apply checked_mul_some in Hx as [-> _]. cbn [mbind option_bind].
  destruct (checked_add u64_max _ _) as [y|] eqn:Hy; [|done].
  apply checked_add_some in Hy as [-> _]. cbn [ok_or obind]. intros Ht%ok_or_ok%checked_add_some.
  exists secs, nanos. split; [done|]. destruct Ht as [-> _]. unfold WINDOWS_EPOCH_OFFSET_100NS. lia.
Qed.

Lemma validated_layout target_info meta : len target_info <= usize_max ->
  validate_target_info target_info = Ok meta <-> target_info_layout target_info meta.
Proof.
  intros Hl. unfold validate_target_info, target_info_layout. destruct target_info as [|b ti]; cbn [is_empty].
  - split; [intros [= <-]; by left|]. intros [[_ ->]|([|p pairs] & _ & Hti & _)]; [done|..].
    + by cbn in Hti.
    + rewrite av_list_cons in Hti. by cbn in Hti.
  - split.
    + intros Hm%target_info_loop_sound; [|lia]. right. by rewrite drop_0 in Hm.
    + intros [[??]|(pairs & Hok & Hti & ->)]; [done|]. rewrite Hti in *.
      apply (target_info_loop_complete pairs _ [] _ Hok); [unfold len; lia|done].
Qed.

Lemma parsed_layout m challenge : parse_challenge_message m = Ok challenge ->
  challenge_layout m (ChallengeMessage.flags challenge) (ChallengeMessage.server_challenge challenge)
    (ChallengeMessage.target_info challenge) /\
  exists meta, target_info_layout (ChallengeMessage.target_info challenge) meta /\
    validate_target_info (ChallengeMessage.target_info challenge) = Ok meta.
Proof.
  unfold parse_challenge_message. intros Hp. accept Hp. bool_facts.
  rewrite read_u32_ok in Hp by lia. accept Hp. rewrite read_u32_ok in Hp by lia. accept Hp. bool_facts.
  apply obind_ok in Hp as (ti & Hti & Hp). apply obind_ok in Hp as (meta & Hmeta & Hp).
  apply Ok_inj in Hp as <-. cbn [ChallengeMessage.flags ChallengeMessage.server_challenge ChallengeMessage.target_info].
  pose proof (read_security_buffer_meets m 40 ltac:(lia)) as Hlen. eapply meets_ok in Hlen; [|exact Hti].
  split; [split; try done|].
  - by apply read_security_buffer_at.
  - exists meta. split; [|done]. apply validated_layout; [unfold u16_max, usize_max in *; lia|done].
Qed.

Lemma answer_accepted c negotiate challenge_message challenge meta m key :
  validate_target_info (ChallengeMessage.target_info challenge) = Ok meta ->
  answer_of c negotiate challenge_message challenge (m, key) ->
  exists client_challenge timestamp, random = Some client_challenge /\
    server_accepts c negotiate challenge_message m (ChallengeMessage.flags challenge)
      (ChallengeMessage.server_challenge challenge) (ChallengeMessage.target_info challenge) meta
      client_challenge timestamp key.
Proof.
  intros Hmeta0 (meta' & timestamp & cc & Hmeta & Hr & Hst & Hkey & _ & Hn & Htype & Hfl & Hf & Hmic).
  rewrite Hmeta0 in Hmeta. apply Ok_inj in Hmeta as <-. exists cc, timestamp. split; [done|].
  unfold answer_fields in Hf. rewrite !Forall_cons in Hf.
  destruct Hf as (H52 & H44 & H36 & H28 & H20 & H12 & _).
  unfold ntlmv2_response, response_temp in *. cbv zeta in *.
  cbn [ComputedResponse.nt_response ComputedResponse.session_base_key ComputedResponse.lm_response] in *.
  split; try by apply read_security_buffer_at.
  - by apply is_ntlm_type.
  - unfold read_u32 in Hfl. destruct (_ <=? _); [by apply Ok_inj in Hfl|done].
  - intros t Ht. unfold stamped in Hst. by rewrite Ht in Hst.
  - intros Ht. unfold stamped in Hst. rewrite Ht in Hst. by apply current_filetime_at.
  - split; [by apply read_security_buffer_at|exact Hkey].
  - apply read_security_buffer_at; [lia|]. rewrite H12.
    by destruct (ChallengeMessage.target_info challenge).
  - exact Hmic.
Qed.

End ntlm_laws.

(** ** Properties *)

(** Target information is read as MS-NLMP writes it. It is accepted when it
    is empty or is, byte for byte, a list of AV pairs, none of them MsvAvEOL,
    flags of four bytes and timestamps of eight, closed by one empty MsvAvEOL
    at the very end; and what is read from it is the last timestamp and whether
    the last flags ask for a MIC. *)
Theorem target_info_iff (target_info : bytes) (meta : TargetInfoMeta.t) :
  len target_info <= usize_max ->
  validate_target_info target_info = Ok meta <->
  target_info = [] /\ meta = TargetInfoMeta.default \/
  exists pairs, Forall av_ok pairs /\ target_info = av_list_bytes pairs /\
                meta = foldl av_meta TargetInfoMeta.default pairs.
Proof. apply validated_layout. Qed.

(** The target information of the tests of the source, then a timestamp and the
    flag that asks for a MIC. *)
Definition sample_target_info : bytes :=
  av_list_bytes [(2, [x44; x00; x6f; x00]); (av_id.TIMESTAMP, le_bytes 8 132000000000000000);
                 (av_id.FLAGS, [x02; x00; x00; x00])].

Lemma target_info_iff_witness :
  len sample_target_info = 32 /\
  validate_target_info sample_target_info
  = Ok (TargetInfoMeta.mk (Some 132000000000000000) true).
Proof.
  split; [reflexivity|]. apply target_info_iff; [by vm_compute|]. right.
  exists [(2, [x44; x00; x6f; x00]); (av_id.TIMESTAMP, le_bytes 8 132000000000000000);
          (av_id.FLAGS, [x02; x00; x00; x00])].
  split; [|split; [reflexivity|by vm_compute]].
  repeat constructor; by vm_compute.
Defined.

(** C33: the NTLMv2 provider authenticates, message by message as MS-NLMP and
    RFC 4178 lay them out. From a fresh provider with a user name, the first call
    emits the NegTokenInit with NTLMSSP as its one mechanism around a NEGOTIATE
    message (type 1, the client's flags), and remembers exactly that message.
    Whatever token then comes back, the second call returns: either it fails and
    leaves the provider as it was, or there was a CHALLENGE message inside the
    token (type 2, Unicode, NTLM and extended session security on, its target
    information well formed), and the answer is a NegTokenResp around an
    AUTHENTICATE message (type 3) that a server which knows the account accepts: the
    names, the flags both sides have, the LM response, the NTLMv2 proof over the
    challenge at bytes 24 to 32 of the server's message and over a blob with the
    server's target information and time, and the MIC over the three messages when
    the server asked for one. The session key this server derives is the one the
    provider then gives out, once. *)
Theorem ntlm_provider_sound `{NtlmEnvironmentLaws} (c : NtlmCredentials.t) (server_token : bytes) :
  NtlmCredentials.username c <> [] ->
  exists negotiate token,
    ntlm_initial_token (ntlm_new c)
    = (Ok (AuthStep.mk token Continue), mkNtlmV2Provider c (NegotiateSent negotiate) None) /\
    negotiate_layout negotiate /\ token = initial_prefix ++ negotiate /\
    let '(r, p) := ntlm_next_token server_token (mkNtlmV2Provider c (NegotiateSent negotiate) None) in
    match r with
    | Ok (AuthStep.mk answer state) =>
        state = Complete /\
        exists challenge_message flags server_challenge target_info meta m client_challenge timestamp key,
          inside challenge_message server_token /\
          extract_ntlm_token server_token = Ok challenge_message /\
          challenge_layout challenge_message flags server_challenge target_info /\
          target_info_layout target_info meta /\
          random = Some client_challenge /\
          response_token m answer /\
          server_accepts c negotiate challenge_message m flags server_challenge target_info meta
            client_challenge timestamp key /\
          ntlm_take_session_key p = (Some key, mkNtlmV2Provider c Completed None)
    | Err _ => p = mkNtlmV2Provider c (NegotiateSent negotiate) None
    | _ => False
    end.
Proof.
  intros Hu. destruct build_negotiate_message_ok as (negotiate & Hneg & Hlayout & Htoken).
  exists negotiate, (encode_neg_token_init_ntlm negotiate). split; [|split; [done|split; [done|]]].
  - unfold ntlm_initial_token, ntlm_new. cbn. rewrite Hneg.
    by destruct (NtlmCredentials.username c).
  - unfold ntlm_next_token. cbn [state credentials].
    pose proof (answer_challenge_meets c negotiate server_token) as Ha.
    destruct (answer_challenge _ _ _) as [[m key]|e| |]; try done.
    destruct Ha as (challenge_message & challenge & Hex & Hp & Ha).
    destruct (parsed_layout _ _ Hp) as [Hch (meta & Hti & Hmeta)].
    destruct (answer_accepted _ _ _ _ _ _ _ Hmeta Ha) as (cc & timestamp & Hr & Hacc).
    split; [done|]. do 9 eexists. split_and!; [|exact Hex|exact Hch|exact Hti|exact Hr| |exact Hacc|done].
    + pose proof (extract_ntlm_token_meets server_token) as Hin. by eapply meets_ok in Hin as [_ Hin].
    + destruct Ha as (? & ? & ? & _ & _ & _ & _ & Hlm & _).
      apply encode_response_token. unfold u32_max in *. lia.
Qed.

(** An environment with toy digests: the length and sum of the input, in 16
    bytes. *)
Definition toy_digest (input : bytes) : bytes :=
  le_bytes 16 (foldl (fun acc b => (acc * 31 + Z_of_byte b) mod 2 ^ 128) 7 input).

#[local] Instance toy_environment : NtlmEnvironment := {|
  md4 := toy_digest;
  hmac_md5_digest := fun key input => Some (toy_digest (key ++ input));
  to_uppercase := map (fun c => if (97 <=? c) && (c <=? 122) then c - 32 else c);
  now := Some (1700000000, 0);
  random := Some [x01; x02; x03; x04; x05; x06; x07; x08]
|}.

#[local] Instance toy_environment_laws : NtlmEnvironmentLaws.
Proof.
  split; cbn.
  - intros m. apply len_le_bytes.
  - intros key input. eexists. split; [done|]. apply len_le_bytes.
  - by intros r [= <-].
  - intros secs nanos [= <- <-]. by vm_compute.
Qed.

(** A CHALLENGE that asks for a MIC. *)
Definition sample_challenge : bytes :=
  NTLMSSP_SIGNATURE ++ le_bytes 4 CHALLENGE_MESSAGE_TYPE ++ replicate 8 x00
  ++ le_bytes 4 CLIENT_NEGOTIATE_FLAGS ++ [x11; x12; x13; x14; x15; x16; x17; x18]
  ++ replicate 8 x00 ++ le_bytes 2 (len sample_target_info) ++ le_bytes 2 (len sample_target_info)
  ++ le_bytes 4 48 ++ sample_target_info.

Definition sample_credentials : NtlmCredentials.t :=
  NtlmCredentials.with_domain (NtlmCredentials.new [85; 115; 101; 114] [80; 119]) [68].

Lemma ntlm_provider_sound_witness :
  NtlmCredentials.username sample_credentials <> [] /\
  exists negotiate m flags meta client_challenge timestamp key,
    server_accepts sample_credentials negotiate sample_challenge m flags
      [x11; x12; x13; x14; x15; x16; x17; x18] sample_target_info meta client_challenge timestamp key.
Proof.
  split; [done|].
  destruct (ntlm_provider_sound sample_credentials (encode_neg_token_resp_ntlm sample_challenge))
    as (negotiate & token & Hi & _ & _ & Hr); [done|].
  assert (extract_ntlm_token (encode_neg_token_resp_ntlm sample_challenge) = Ok sample_challenge)
    as Hs by by vm_compute.
  assert (is_ok (ntlm_next_token (encode_neg_token_resp_ntlm sample_challenge)
    (ntlm_initial_token (ntlm_new sample_credentials)).2).1 = true) as Hok by by vm_compute.
  rewrite Hi in Hok. cbn [snd] in Hok.
  destruct (ntlm_next_token _ _) as [[[answer state_]| | |] p]; try discriminate Hok.
  destruct Hr as (_ & challenge_message & flags & sc & ti & meta & m & cc & timestamp & key
    & _ & Hc & Hl & _ & _ & _ & Hk & _).
  rewrite Hs in Hc. injection Hc as <-. destruct Hl as [_ _ _ _ -> (_ & Hlen & _ & Hti)].
  change (le_at 2 sample_challenge 40) with 32 in Hlen.
  destruct Hti as [Hti|[_ Hti]]; [by subst ti|]. rewrite <- Hlen in Hti. subst ti.
  exists negotiate, m, flags, meta, cc, timestamp, key. exact Hk.
Defined.
