(* ===== verification/Anonymous.v ===== *)
(** * Anonymous NTLM

    [crates/smb-auth/src/anonymous.rs]: the provider of a null session, an
    AUTHENTICATE message with an empty user, an empty NT response and a one-byte
    LM response, and no session key. *)
From S2P Require Import Prelude WireError Utf16 Client Auth Spnego Ntlm.

Definition NEGOTIATE_ANONYMOUS : Z := 0x00000800.
Definition CLIENT_FLAGS : Z :=
  Z.lor (Z.lor (Z.lor (Z.lor (Z.lor (Z.lor (Z.lor (Z.lor
    ntlm_flags.NEGOTIATE_UNICODE ntlm_flags.REQUEST_TARGET) ntlm_flags.NEGOTIATE_NTLM)
    ntlm_flags.NEGOTIATE_ALWAYS_SIGN) ntlm_flags.NEGOTIATE_EXTENDED_SESSIONSECURITY)
    ntlm_flags.NEGOTIATE_TARGET_INFO) ntlm_flags.NEGOTIATE_128) ntlm_flags.NEGOTIATE_56)
    NEGOTIATE_ANONYMOUS.

Module NullSession.

Inductive ProviderState : Type := New | NegotiateSent | Completed.
#[global] Instance ProviderState_eq_dec : EqDecision ProviderState.
Proof. solve_decision. Defined.

Definition read_u32 (input : bytes) (offset : Z) : auth Z :=
  if offset + 4 <=? len input then Ok (le_at 4 input offset)
  else Err (AuthError.InvalidToken "truncated anonymous NTLM u32 field").

Definition build_negotiate_message : auth bytes :=
  let message := replicate 32 x00 in
  let! message := copy_from_slice message 0 8 NTLMSSP_SIGNATURE in
  let! message := put_u32 message 8 NEGOTIATE_MESSAGE_TYPE in
  put_u32 message 12 CLIENT_FLAGS.

Definition parse_challenge_flags (message : bytes) : auth Z :=
  if len message <? 24
  then Err (AuthError.InvalidToken "anonymous NTLM CHALLENGE is truncated") else
  let! signature := slice message 0 8 in
  if negb (bool_decide (signature = NTLMSSP_SIGNATURE))
  then Err (AuthError.InvalidToken "invalid NTLMSSP signature") else
  let! message_type := read_u32 message 8 in
  if negb (message_type =? CHALLENGE_MESSAGE_TYPE)
  then Err (AuthError.InvalidToken "expected NTLM CHALLENGE message") else
  let! challenge_flags := read_u32 message 20 in
  if negb (Z.land challenge_flags REQUIRED_CHALLENGE_FLAGS =? REQUIRED_CHALLENGE_FLAGS)
  then Err (AuthError.Unsupported
    "server NTLM challenge lacks Unicode, NTLM, or extended-session-security support")
  else Ok challenge_flags.

Definition append_security_buffer (message : bytes) (field_offset : Z) (value : bytes) :
    auth bytes :=
  let payload_offset := len message in
  let! length_ := ok_or (try_from u16_max (len value))
                        (AuthError.Failed "anonymous NTLM payload exceeds 65535 bytes") in
  let! payload_offset := ok_or (try_from u32_max payload_offset)
                               (AuthError.Failed "anonymous NTLM message exceeds 4 GiB") in
  let! end_ := ok_or (checked_add usize_max field_offset 8)
                     (AuthError.Failed "anonymous NTLM security-buffer offset overflow") in
  if len message <? end_
  then Err (AuthError.Failed "anonymous NTLM security-buffer header is truncated") else
  let! message := put_le 2 message field_offset length_ in
  let! message := put_le 2 message (field_offset + 2) length_ in
  let! message := put_le 4 message (field_offset + 4) payload_offset in
  Ok (message ++ value).

Definition build_authenticate_message (challenge_flags : Z) : auth bytes :=
  let message := replicate 72 x00 in
  let! message := copy_from_slice message 0 8 NTLMSSP_SIGNATURE in
  let! message := put_u32 message 8 AUTHENTICATE_MESSAGE_TYPE in
  let! message := put_u32 message 60 (Z.land challenge_flags CLIENT_FLAGS) in
  let! message := append_security_buffer message 12 [x00] in
  let! message := append_security_buffer message 20 [] in
  let! message := append_security_buffer message 28 [] in
  let! message := append_security_buffer message 36 [] in
  let! message := append_security_buffer message 44 [] in
  append_security_buffer message 52 [].

Record AnonymousNtlmProvider : Type := mkAnonymousNtlmProvider { state : ProviderState }.

Definition new : AnonymousNtlmProvider := mkAnonymousNtlmProvider New.

Definition initial_token (self : AnonymousNtlmProvider) :
    outcome AuthError.t AuthStep.t * AnonymousNtlmProvider :=
  if negb (bool_decide (state self = New))
  then (Err (AuthError.InvalidState "anonymous NTLM NEGOTIATE token has already been emitted"), self)
  else
    (let! negotiate := build_negotiate_message in
     Ok (AuthStep.mk (encode_neg_token_init_ntlm negotiate) Continue),
     mkAnonymousNtlmProvider NegotiateSent).

(** The provider is complete before its answer is built. *)
Definition next_token (server_token : bytes) (self : AnonymousNtlmProvider) :
    outcome AuthError.t AuthStep.t * AnonymousNtlmProvider :=
  match state self with
  | New =>
      (Err (AuthError.InvalidState "anonymous NTLM CHALLENGE arrived before NEGOTIATE was sent"),
       self)
  | Completed => (Ok (AuthStep.mk [] Complete), self)
  | NegotiateSent =>
      match (let! challenge := extract_ntlm_token server_token in parse_challenge_flags challenge) with
      | Ok challenge_flags =>
          (let! authenticate := build_authenticate_message challenge_flags in
           Ok (AuthStep.mk (encode_neg_token_resp_ntlm authenticate) Complete),
           mkAnonymousNtlmProvider Completed)
      | Err e => (Err e, self)
      | Panic => (Panic, self)
      | OutOfFuel => (OutOfFuel, self)
      end
  end.

Definition take_session_key (self : AnonymousNtlmProvider) :
    option bytes * AnonymousNtlmProvider := (None, self).

#[global] Instance Anonymous_provider : AuthProvider AnonymousNtlmProvider := {|
  mechanism := fun _ => Anonymous;
  Auth.initial_token := initial_token;
  Auth.next_token := next_token;
  Auth.take_session_key := take_session_key
|}.

(** ** The messages *)

Lemma read_u32_at input offset :
  0 <= offset -> offset + 4 <= len input -> read_u32 input offset = Ok (le_at 4 input offset).
Proof. intros. unfold read_u32. by rewrite (proj2 (Z.leb_le _ _)) by lia. Qed.

Lemma parse_challenge_flags_meets message : meets (parse_challenge_flags message) (uint 32).
Proof.
  unfold parse_challenge_flags. repeat meets_step. bool_facts.
  rewrite !read_u32_at by lia. repeat meets_step. apply (le_at_bound 4).
Qed.

(** The message of a null session. *)
Definition null_authenticate (flags : Z) : bytes :=
  NTLMSSP_SIGNATURE ++ le_bytes 4 AUTHENTICATE_MESSAGE_TYPE
  ++ le_bytes 2 1 ++ le_bytes 2 1 ++ le_bytes 4 72
  ++ mjoin (replicate 5 (replicate 4 x00 ++ le_bytes 4 73))
  ++ le_bytes 4 flags ++ replicate 9 x00.

Lemma build_authenticate_message_ok flags :
  build_authenticate_message flags = Ok (null_authenticate (Z.land flags CLIENT_FLAGS)).
Proof.
  unfold build_authenticate_message. cbv zeta.
  change 72%nat with (64 + 8)%nat. rewrite authenticate_header_ok.
  generalize (Z.land flags CLIENT_FLAGS). intros f.
  unfold authenticate_header, null_authenticate. change (le_bytes 4 f) with
    [byte_of_Z f; byte_of_Z (f / 256); byte_of_Z (f / 256 / 256); byte_of_Z (f / 256 / 256 / 256)].
  generalize (byte_of_Z f), (byte_of_Z (f / 256)), (byte_of_Z (f / 256 / 256)),
    (byte_of_Z (f / 256 / 256 / 256)). intros b0 b1 b2 b3. by vm_compute.
Qed.
Lemma build_negotiate_ok :
  exists m, build_negotiate_message = Ok m /\ is_ntlm m = true /\ len m = 32 /\
    read_u32 m 8 = Ok NEGOTIATE_MESSAGE_TYPE /\ read_u32 m 12 = Ok CLIENT_FLAGS.
Proof. eexists. split; [vm_compute; reflexivity|]. by repeat split. Qed.

Lemma returns_answer server_token :
  returns (let! challenge := extract_ntlm_token server_token in parse_challenge_flags challenge).
Proof.
  apply returns_bind; [eapply meets_returns, extract_ntlm_token_meets|].
  intros m _. eapply meets_returns, parse_challenge_flags_meets.
Qed.

#[global] Instance Anonymous_safe : AuthProviderSafe AnonymousNtlmProvider.
Proof.
  destruct build_negotiate_ok as (negotiate & Hneg & _).
  split; [intros p|intros token p]; cbn; unfold initial_token, next_token.
  - rewrite Hneg. by destruct (negb _).
  - destruct (state p); [done| |done].
    pose proof (returns_answer token) as Hr.
    by destruct (obind _ _) as [flags|e| |]; [cbn; rewrite build_authenticate_message_ok|..].
Qed.

(** What a server reads in the AUTHENTICATE message of a null session: no names,
    no NT response, one zero byte for the LM response, no session key, and the
    flags. *)
Definition null_session_answer (m : bytes) (flags : Z) : Prop :=
  is_ntlm m = true /\ read_u32 m 8 = Ok AUTHENTICATE_MESSAGE_TYPE /\ read_u32 m 60 = Ok flags /\
  read_security_buffer m 12 = Ok [x00] /\
  Forall (fun fo => read_security_buffer m fo = Ok []) [20; 28; 36; 44; 52].

Lemma null_authenticate_read flags : uint 32 flags ->
  null_session_answer (null_authenticate flags) flags /\ len (null_authenticate flags) = 73.
Proof.
  intros Hf. assert (le_at 4 (null_authenticate flags) 60 = flags) as H60.
  { unfold null_authenticate. rewrite 6!le_at_app_r by done. by apply (le_at_here 4 _ _ 32). }
  assert (len (null_authenticate flags) = 73) as Hl by done.
  split; [|done]. split; [done|]. split; [done|].
  split; [rewrite read_u32_at by lia; by f_equal|].
  unfold null_authenticate. generalize (le_bytes 4 flags) (len_le_bytes 4 flags). intros l Hl4.
  destruct l as [|b0 [|b1 [|b2 [|b3 [|]]]]]; try (exfalso; len_lia).
  split; [by vm_compute|]. repeat constructor; by vm_compute.
Qed.
End NullSession.

(** ** Properties *)

(** The anonymous provider opens a null session and nothing else. From a
    fresh provider, the first call wraps a NEGOTIATE message with the anonymous
    flag. Whatever token comes back, the second call returns: either it fails
    and leaves the provider waiting, or the token held an NTLM message whose
    flags are those of an acceptable CHALLENGE, and the answer wraps an
    AUTHENTICATE message that names no user, proves nothing and keeps only the
    flags both sides offered. No session key ever comes out. *)
Theorem anonymous_provider_sound (server_token : bytes) :
  exists negotiate token,
    NullSession.initial_token NullSession.new
    = (Ok (AuthStep.mk token Continue),
       NullSession.mkAnonymousNtlmProvider NullSession.NegotiateSent) /\
    extract_ntlm_token token = Ok negotiate /\
    NullSession.read_u32 negotiate 12 = Ok CLIENT_FLAGS /\
    let '(r, p) := NullSession.next_token server_token
                     (NullSession.mkAnonymousNtlmProvider NullSession.NegotiateSent) in
    (NullSession.take_session_key p).1 = None /\
    match r with
    | Ok (AuthStep.mk answer state) =>
        state = Complete /\ NullSession.state p = NullSession.Completed /\
        exists challenge flags m,
          extract_ntlm_token server_token = Ok challenge /\
          NullSession.parse_challenge_flags challenge = Ok flags /\
          extract_ntlm_token answer = Ok m /\
          NullSession.null_session_answer m (Z.land flags CLIENT_FLAGS)
    | Err _ => p = NullSession.mkAnonymousNtlmProvider NullSession.NegotiateSent
    | _ => False
    end.
Proof.
  destruct NullSession.build_negotiate_ok as (negotiate & Hneg & Hn & Hl & _ & Hflags).
  exists negotiate, (encode_neg_token_init_ntlm negotiate). split; [|split; [|split; [done|]]].
  - unfold NullSession.initial_token. by rewrite Hneg.
  - apply extract_wrapped; [done|lia].
  - unfold NullSession.next_token. cbn [NullSession.state].
    pose proof (extract_ntlm_token_meets server_token) as Hex.
    destruct (extract_ntlm_token server_token) as [challenge|e| |]; [|done..]. cbn [obind].
    pose proof (NullSession.parse_challenge_flags_meets challenge) as Hp.
    destruct (NullSession.parse_challenge_flags challenge) as [flags|e| |] eqn:Hflag; [|done..].
    rewrite NullSession.build_authenticate_message_ok. cbn [obind].
    do 3 (split; [reflexivity|]). exists challenge, flags.
    destruct (NullSession.null_authenticate_read (Z.land flags CLIENT_FLAGS))
      as [Ha Hla]; [by apply uint_land|].
    eexists. split; [reflexivity|]. split; [exact Hflag|]. split; [|exact Ha].
    apply extract_wrapped; [apply Ha|lia].
Qed.
