(* ===== verification/QueryOps.v ===== *)
(** * QUERY_INFO and QUERY_DIRECTORY on an open file

    [crates/smb-client/src/query.rs]: one query and its one synchronous answer,
    limited by MaxTransactSize and paid for by the payload. *)
From S2P Require Import Prelude WireError Utf16 Frame Header Create Query SessionMessages.
From S2P Require Import Client Credits MessageIds AsyncResponse Transport Signing Connection.
From S2P Require Import Auth Session Exchange Tree Files.

Definition CREDIT_UNIT_BYTES : Z := 65536.
Definition STATUS_NO_MORE_FILES : Z := 0x80000006.

Module QueryInfoOptions.
Record t : Type := mk {
  info_type : Z;
  file_info_class : Z;
  output_buffer_length : Z;
  input_buffer : bytes;
  additional_information : Z;
  flags : Z;
  credit_request : Z
}.
Definition file (file_info_class output_buffer_length : Z) : t :=
  {| info_type := info_type.FILE;
     file_info_class := file_info_class;
     output_buffer_length := output_buffer_length;
     input_buffer := [];
     additional_information := 0;
     flags := query_info_flags.NONE;
     credit_request := 16 |}.
Definition filesystem (file_info_class output_buffer_length : Z) : t :=
  let options := file file_info_class output_buffer_length in
  {| info_type := info_type.FILESYSTEM;
     file_info_class := QueryInfoOptions.file_info_class options;
     output_buffer_length := QueryInfoOptions.output_buffer_length options;
     input_buffer := input_buffer options;
     additional_information := additional_information options;
     flags := flags options;
     credit_request := credit_request options |}.
End QueryInfoOptions.

Module QueryDirectoryOptions.
Record t : Type := mk {
  file_information_class : Z;
  flags : Z;
  file_index : Z;
  file_name : rust_string;
  output_buffer_length : Z;
  credit_request : Z
}.
Definition new (file_information_class : Z) (file_name : rust_string)
    (output_buffer_length : Z) : t :=
  {| file_information_class := file_information_class;
     flags := query_directory_flags.NONE;
     file_index := 0;
     file_name := file_name;
     output_buffer_length := output_buffer_length;
     credit_request := 16 |}.
End QueryDirectoryOptions.

(** The requests the operations build. *)
Definition info_request (file : FileHandle.t) (options : QueryInfoOptions.t) :
    QueryInfoRequest.t :=
  {| QueryInfoRequest.info_type := QueryInfoOptions.info_type options;
     QueryInfoRequest.file_info_class := QueryInfoOptions.file_info_class options;
     QueryInfoRequest.output_buffer_length := QueryInfoOptions.output_buffer_length options;
     QueryInfoRequest.input_buffer := QueryInfoOptions.input_buffer options;
     QueryInfoRequest.additional_information := QueryInfoOptions.additional_information options;
     QueryInfoRequest.flags := QueryInfoOptions.flags options;
     QueryInfoRequest.file_id := FileHandle.file_id file |}.

Definition directory_request (file : FileHandle.t) (options : QueryDirectoryOptions.t) :
    QueryDirectoryRequest.t :=
  {| QueryDirectoryRequest.file_information_class :=
       QueryDirectoryOptions.file_information_class options;
     QueryDirectoryRequest.flags := QueryDirectoryOptions.flags options;
     QueryDirectoryRequest.file_index := QueryDirectoryOptions.file_index options;
     QueryDirectoryRequest.file_id := FileHandle.file_id file;
     QueryDirectoryRequest.file_name := QueryDirectoryOptions.file_name options;
     QueryDirectoryRequest.output_buffer_length :=
       QueryDirectoryOptions.output_buffer_length options |}.

Section query.
Context {T : Type} `{Transport T} `{Crypto}.
Abbreviation session := (SessionConnection.t T).

Definition query_parameters (s : session) : client NegotiatedParameters.t :=
  ok_or (SessionConnection.negotiated s) (Protocol "SMB query requires negotiated parameters").

Definition validate_query_output_length (s : session) (output_buffer_length : Z) : client unit :=
  if output_buffer_length =? 0
  then Err (Protocol "SMB query output buffer length must be greater than zero") else
  let! negotiated := query_parameters s in
  if NegotiatedParameters.max_transact_size negotiated <? output_buffer_length
  then Err (Protocol "SMB query output buffer exceeds negotiated MaxTransactSize") else Ok tt.

Definition validate_single_credit_payload (s : session) (payload_length : Z) (operation : string) :
    client unit :=
  let! negotiated := query_parameters s in
  if negb (NegotiatedParameters.supports_multi_credit negotiated)
     && (CREDIT_UNIT_BYTES <? payload_length)
  then Err (Protocol (operation ++ " payload exceeds single-credit 64 KiB limit")) else Ok tt.

Definition query_credit_charge (s : session) (payload_length : Z) : client Z :=
  let! negotiated := query_parameters s in
  if negb (NegotiatedParameters.supports_multi_credit negotiated) then Ok 0 else
  let units := saturating_sub payload_length 1 / CREDIT_UNIT_BYTES + 1 in
  ok_or (try_from u16_max units) (Protocol "SMB query CreditCharge exceeds u16").

(** [sign_query_request], [validate_query_response_header] and
    [verify_query_response] are the steps of the other operations, with the
    texts of the queries. *)
Definition query_info (file : FileHandle.t) (options : QueryInfoOptions.t) : st session bytes :=
  do! s := sget id in
  do! _ := slift (ensure_session s) in
  do! input_buffer_length :=
    slift (ok_or (try_from u32_max (len (QueryInfoOptions.input_buffer options)))
                 (Protocol "QUERY_INFO input buffer exceeds u32 length")) in
  do! _ := slift (validate_query_output_length s (QueryInfoOptions.output_buffer_length options)) in
  let payload := Z.max (QueryInfoOptions.output_buffer_length options) input_buffer_length in
  do! _ := slift (validate_single_credit_payload s payload "QUERY_INFO") in
  do! credit_charge := slift (query_credit_charge s payload) in
  let request := info_request file options in
  do! message_id := send_request credit_charge (QueryInfoOptions.credit_request options)
    (fun message_id credit_request => from_wire (QueryInfoRequest.encode_message request
       message_id (SessionConnection.session_id s) (FileHandle.tree_id file) credit_charge
       credit_request))
    (SessionConnection.signing_required s)
    "SMB query requires signing but the session has no signing key" in
  do! '(response_message, header) := receive_response Command.QueryInfo "QUERY_INFO" message_id
    (Some (FileHandle.tree_id file, " response TreeId does not match tree"%string)) in
  do! _ := slift (verify_response s header (SessionConnection.signing_required s)
    "server signed SMB query without an available signing key"
    "server omitted a required QUERY_INFO signature" response_message) in
  do! _ := slift (check_status header "QUERY_INFO response used request header form") in
  do! response := slift (from_wire (QueryInfoResponse.decode_message response_message)) in
  if QueryInfoOptions.output_buffer_length options
     <? len (QueryInfoResponse.output_buffer response)
  then slift (Err (Protocol "QUERY_INFO response exceeded requested output buffer length"))
  else sret (QueryInfoResponse.output_buffer response).

Definition query_directory (file : FileHandle.t) (options : QueryDirectoryOptions.t) :
    st session bytes :=
  do! s := sget id in
  do! _ := slift (ensure_session s) in
  let output_buffer_length := QueryDirectoryOptions.output_buffer_length options in
  do! _ := slift (validate_query_output_length s output_buffer_length) in
  do! _ := slift (validate_single_credit_payload s output_buffer_length "QUERY_DIRECTORY") in
  do! credit_charge := slift (query_credit_charge s output_buffer_length) in
  let request := directory_request file options in
  do! message_id := send_request credit_charge (QueryDirectoryOptions.credit_request options)
    (fun message_id credit_request => from_wire (QueryDirectoryRequest.encode_message request
       message_id (SessionConnection.session_id s) (FileHandle.tree_id file) credit_charge
       credit_request))
    (SessionConnection.signing_required s)
    "SMB query requires signing but the session has no signing key" in
  do! '(response_message, header) := receive_response Command.QueryDirectory "QUERY_DIRECTORY"
    message_id (Some (FileHandle.tree_id file, " response TreeId does not match tree"%string)) in
  do! _ := slift (verify_response s header (SessionConnection.signing_required s)
    "server signed SMB query without an available signing key"
    "server omitted a required QUERY_DIRECTORY signature" response_message) in
  if bool_decide (status header = Status STATUS_NO_MORE_FILES) then sret [] else
  do! _ := slift (check_status header "QUERY_DIRECTORY response used request header form") in
  do! response := slift (from_wire (QueryDirectoryResponse.decode_message response_message)) in
  if output_buffer_length <? len (QueryDirectoryResponse.output_buffer response)
  then slift (Err (Protocol "QUERY_DIRECTORY response exceeded requested output buffer length"))
  else sret (QueryDirectoryResponse.output_buffer response).

End query.

Section query_laws.
Context {T : Type} `{TransportSafe T} `{CryptoLaws}.
Abbreviation session := (SessionConnection.t T).

Lemma returns_query_info_encode r mid sid tid charge credit :
  returns (QueryInfoRequest.encode_message r mid sid tid charge credit).
Proof.
  rewrite QueryInfoRequest.query_info_request_encode_message_ok.
  apply returns_bind; [|done]. unfold QueryInfoRequest.validate. repeat returns_step.
Qed.

Lemma returns_query_directory_encode r mid sid tid charge credit :
  returns (QueryDirectoryRequest.encode_message r mid sid tid charge credit).
Proof.
  rewrite QueryDirectoryRequest.query_directory_request_encode_message_ok.
  apply returns_bind; [|done]. unfold QueryDirectoryRequest.validate. repeat returns_step.
Qed.

(** The charge of a query within its limits: it fits the field, and with
    multi-credit operations it pays for every started 64 KiB. *)
Definition query_charged (s : session) (output payload charge : Z) : Prop :=
  0 <= charge <= u16_max /\
  exists p, SessionConnection.negotiated s = Some p /\
    0 < output <= NegotiatedParameters.max_transact_size p /\
    if NegotiatedParameters.supports_multi_credit p
    then 1 <= charge /\ payload <= charge * CREDIT_UNIT_BYTES < payload + 2 * CREDIT_UNIT_BYTES
    else charge = 0 /\ payload <= CREDIT_UNIT_BYTES.

(** The guards of a query: an error before anything is sent, or a charge. *)
Lemma query_guards {A} (s : session) output payload op (k : Z -> st session A)
    (Q : client A -> session -> Prop) :
  0 <= output -> 0 <= payload -> (forall e, Q (Err e) s) ->
  (forall charge, query_charged s output payload charge -> runs (k charge) s Q) ->
  runs (do! _ := slift (validate_query_output_length s output) in
        do! _ := slift (validate_single_credit_payload s payload op) in
        do! charge := slift (query_credit_charge s payload) in k charge) s Q.
Proof.
  intros Ho Hp Herr Hk.
  unfold validate_query_output_length, validate_single_credit_payload, query_credit_charge,
    query_parameters.
  destruct (SessionConnection.negotiated s) as [p|] eqn:Hn; cbn [ok_or obind].
  2:{ apply runs_bind_lift; [by case_match|by intros|by intros; case_match]. }
  apply runs_bind_lift; [by repeat case_match|by intros|intros [] Hu].
  apply runs_bind_lift; [by repeat case_match|by intros|intros [] Hv].
  apply runs_bind_lift; [apply returns_if; [done|intros _; apply returns_ok_or]|by intros|intros charge Hc].
  destruct (output =? 0) eqn:E0; [done|]. destruct (_ <? output) eqn:E1; [done|]. bool_facts.
  apply Hk. unfold query_charged, CREDIT_UNIT_BYTES, saturating_sub, u16_max in *.
  destruct (NegotiatedParameters.supports_multi_credit p) eqn:Em; cbn [negb andb] in *.
  - apply ok_or_ok, try_from_some in Hc as [-> Hc]. split; [div_lia|].
    exists p. split; [done|]. split; [lia|]. rewrite Em. div_lia.
  - destruct (_ <? payload) eqn:E2; [done|]. bool_facts. apply Ok_inj in Hc as <-.
    split; [lia|]. exists p. rewrite Em. by repeat split; try lia.
Qed.

(** What a query that succeeded returns: the buffer of a successful, accepted
    response, within what was asked for; an empty one at the end of a
    directory. *)
Definition info_queried (s : session) (limit : Z) (response : bytes) (h : Smb2Header)
    (result : bytes) : Prop :=
  signature_accepted s (SessionConnection.signing_required s) response h /\
  status h = Status 0 /\ len result <= limit /\
  exists r, QueryInfoResponse.decode_message response = Ok r /\
            result = QueryInfoResponse.output_buffer r.

Definition directory_queried (s : session) (limit : Z) (response : bytes) (h : Smb2Header)
    (result : bytes) : Prop :=
  signature_accepted s (SessionConnection.signing_required s) response h /\
  (status h = Status STATUS_NO_MORE_FILES /\ result = [] \/
   status h = Status 0 /\ len result <= limit /\
   exists r, QueryDirectoryResponse.decode_message response = Ok r /\
             result = QueryDirectoryResponse.output_buffer r).

Lemma query_info_runs (s : session) file options (Hs : session_wf s) :
  u32 (QueryInfoOptions.output_buffer_length options) ->
  runs (query_info file options) s (fun r s' => exists charge,
    (is_ok r = true -> query_charged s (QueryInfoOptions.output_buffer_length options)
       (Z.max (QueryInfoOptions.output_buffer_length options)
              (len (QueryInfoOptions.input_buffer options))) charge) /\
    one_request s (fun id hint => from_wire (QueryInfoRequest.encode_message
        (info_request file options) id (SessionConnection.session_id s)
        (FileHandle.tree_id file) charge hint))
      (SessionConnection.signing_required s)
      (sync_answer s Command.QueryInfo (Some (FileHandle.tree_id file)))
      (info_queried s (QueryInfoOptions.output_buffer_length options)) r s').
Proof.
  intros Hout. unfold query_info. run_step. cbn [id].
  match goal with |- runs _ _ ?Q => assert (forall e, Q (Err e) s) as Herr end.
  { intros e. exists 0. split; [done|]. by apply one_request_err, advances_refl. }
  apply runs_bind_lift; [apply returns_ensure_session|by intros|intros _ _].
  apply runs_bind_lift; [apply returns_ok_or|by intros|intros n Hn].
  apply ok_or_ok, try_from_some in Hn as [-> Hn].
  apply query_guards; [apply Hout|destruct Hout; lia|exact Herr|intros charge Hc].
  eapply runs_mono; [|intros r s' Hone; exists charge; split; [intros _; exact Hc|exact Hone]].
  apply (sync_request_runs s _ _ (info_queried s _) _ _ _ _ _ Hs (proj1 (proj1 Hc))
           (fun id hint => returns_from_wire _ (returns_query_info_encode _ _ _ _ _ _))).
  intros response h id s' Hacc.
  run_bind v Hv; [apply returns_verify_response|]. apply verify_response_ok in Hv.
  run_bind u Hst%check_status_ok.
  run_bind r Hr. apply from_wire_ok in Hr. run_step; [done|]. bool_facts.
  unfold runs, sret. split; [done|]. split; [done|]. split; [done|]. split; [lia|]. by exists r.
Qed.

(** One query of a directory, whatever it comes to. *)
Definition one_directory_query (s : session) (file : FileHandle.t)
    (options : QueryDirectoryOptions.t) (r : client bytes) (s' : session) : Prop :=
  exists charge,
    (is_ok r = true -> query_charged s (QueryDirectoryOptions.output_buffer_length options)
       (QueryDirectoryOptions.output_buffer_length options) charge) /\
    one_request s (fun id hint => from_wire (QueryDirectoryRequest.encode_message
        (directory_request file options) id (SessionConnection.session_id s)
        (FileHandle.tree_id file) charge hint))
      (SessionConnection.signing_required s)
      (sync_answer s Command.QueryDirectory (Some (FileHandle.tree_id file)))
      (directory_queried s (QueryDirectoryOptions.output_buffer_length options)) r s'.

Lemma query_directory_runs (s : session) file options (Hs : session_wf s) :
  u32 (QueryDirectoryOptions.output_buffer_length options) ->
  runs (query_directory file options) s (one_directory_query s file options).
Proof.
  intros Hout. unfold query_directory, one_directory_query. run_step. cbn [id].
  match goal with |- runs _ _ ?Q => assert (forall e, Q (Err e) s) as Herr end.
  { intros e. exists 0. split; [done|]. by apply one_request_err, advances_refl. }
  apply runs_bind_lift; [apply returns_ensure_session|by intros|intros _ _].
  apply query_guards; [apply Hout..|exact Herr|intros charge Hc].
  eapply runs_mono; [|intros r s' Hone; exists charge; split; [intros _; exact Hc|exact Hone]].
  apply (sync_request_runs s _ _ (directory_queried s _) _ _ _ _ _ Hs (proj1 (proj1 Hc))
           (fun id hint => returns_from_wire _ (returns_query_directory_encode _ _ _ _ _ _))).
  intros response h id s' Hacc.
  run_bind v Hv; [apply returns_verify_response|]. apply verify_response_ok in Hv.
  run_step.
  { apply bool_decide_eq_true in Htest. unfold runs, sret. split; [done|]. split; [done|].
    by left. }
  run_bind u Hst%check_status_ok.
  run_bind r Hr. apply from_wire_ok in Hr. run_step; [done|]. bool_facts.
  unfold runs, sret. split; [done|]. split; [done|]. right. split; [done|]. split; [lia|].
  by exists r.
Qed.
End query_laws.

(** ** Properties *)

(** A query sends at most one request and returns only what the server's
    one synchronous, accepted answer carries. On success the request sent is
    the one the options describe, charged for the larger of its two buffers and
    never above MaxTransactSize; the response is the answer to it, verified, and
    its buffer is returned whole and no longer than was asked for. The end of a
    directory is an empty result. *)
Theorem query_sound {T} `{TransportSafe T} `{CryptoLaws} (s : SessionConnection.t T)
    (file : FileHandle.t) (info : QueryInfoOptions.t) (directory : QueryDirectoryOptions.t)
    (Hs : session_wf s) :
  u32 (QueryInfoOptions.output_buffer_length info) ->
  u32 (QueryDirectoryOptions.output_buffer_length directory) ->
  runs (query_info file info) s (fun r s' => exists charge,
    (is_ok r = true -> query_charged s (QueryInfoOptions.output_buffer_length info)
       (Z.max (QueryInfoOptions.output_buffer_length info)
              (len (QueryInfoOptions.input_buffer info))) charge) /\
    one_request s (fun id hint => from_wire (QueryInfoRequest.encode_message
        (info_request file info) id (SessionConnection.session_id s)
        (FileHandle.tree_id file) charge hint))
      (SessionConnection.signing_required s)
      (sync_answer s Command.QueryInfo (Some (FileHandle.tree_id file)))
      (info_queried s (QueryInfoOptions.output_buffer_length info)) r s') /\
  runs (query_directory file directory) s (fun r s' => exists charge,
    (is_ok r = true -> query_charged s (QueryDirectoryOptions.output_buffer_length directory)
       (QueryDirectoryOptions.output_buffer_length directory) charge) /\
    one_request s (fun id hint => from_wire (QueryDirectoryRequest.encode_message
        (directory_request file directory) id (SessionConnection.session_id s)
        (FileHandle.tree_id file) charge hint))
      (SessionConnection.signing_required s)
      (sync_answer s Command.QueryDirectory (Some (FileHandle.tree_id file)))
      (directory_queried s (QueryDirectoryOptions.output_buffer_length directory)) r s').
Proof. intros. split; [by apply query_info_runs|by apply query_directory_runs]. Qed.

(** A server that answers a query with 24 bytes, and one at the end of its
    directory. *)
Definition sample_query_response : bytes :=
  sample_header Command.QueryInfo 0 1 (Sync 0 5)
  ++ le_bytes 2 9 ++ le_bytes 2 72 ++ le_bytes 4 24 ++ replicate 24 x2a.
Definition sample_no_more_files : bytes :=
  sample_header Command.QueryDirectory STATUS_NO_MORE_FILES 1 (Sync 0 5)
  ++ le_bytes 2 9 ++ replicate 7 x00.

Lemma query_sound_witness :
  exists (s1 s2 : SessionConnection.t TcpTransport.t) (info directory : bytes),
    info = replicate 24 x2a /\ directory = [] /\
    (exists es, advances (sample_session [sample_query_response]) es s1 /\
                length (sends es) = 1%nat) /\
    exists es, advances (sample_session [sample_no_more_files]) es s2 /\
               length (sends es) = 1%nat.
Proof.
  destruct (runs_ended _ _ _ (fun info _ => bool_decide (info = replicate 24 x2a))
      (proj1 (@query_sound _ _ _ toy_crypto toy_laws (sample_session [sample_query_response])
         sample_file (QueryInfoOptions.file 5 24) (QueryDirectoryOptions.new 37 [42] 4096)
         (sample_session_wf _) ltac:(by vm_compute) ltac:(by vm_compute))))
    as (info & s1 & (c1 & _ & es1 & Ha1 & Hl1 & id1 & m1 & ms1 & r1 & h1 & He1 & _)
        & Ht%bool_decide_eq_true); [vm_compute; reflexivity|].
  destruct (runs_ended _ _ _ (fun directory _ => bool_decide (directory = []))
      (proj2 (@query_sound _ _ _ toy_crypto toy_laws (sample_session [sample_no_more_files])
         sample_file (QueryInfoOptions.file 5 24) (QueryDirectoryOptions.new 37 [42] 4096)
         (sample_session_wf _) ltac:(by vm_compute) ltac:(by vm_compute))))
    as (directory & s2 & (c2 & _ & es2 & Ha2 & Hl2 & id2 & m2 & ms2 & r2 & h2 & He2 & _)
        & Ht2%bool_decide_eq_true); [vm_compute; reflexivity|].
  exists s1, s2, info, directory. split; [exact Ht|]. split; [exact Ht2|].
  split; [exists es1; split; [exact Ha1|]|exists es2; split; [exact Ha2|]];
    subst; cbn; by rewrite ?sends_received.
Defined.
