(* ===== verification/SetInfoOps.v ===== *)
(** * SET_INFO on an open file

    [crates/smb-client/src/set_info.rs]: one mutation of an open handle, sent
    exactly once, whose answer may come after interim responses. *)
From S2P Require Import Prelude WireError Frame Header Create Query SetInfo SessionMessages.
From S2P Require Import Client Credits MessageIds AsyncResponse Transport Signing Connection.
From S2P Require Import Auth Session Exchange Tree Files Write.

Module SetInfoOptions.
Record t : Type := mk {
  info_type : Z;
  file_info_class : Z;
  buffer : bytes;
  additional_information : Z;
  credit_request : Z
}.
Definition file (file_info_class : Z) (buffer : bytes) : t :=
  {| info_type := info_type.FILE;
     file_info_class := file_info_class;
     buffer := buffer;
     additional_information := 0;
     credit_request := 16 |}.
End SetInfoOptions.

(** The charge of a payload, as [write_credit_charge] computes it. *)
Definition set_info_credit_charge : bool -> Z -> client Z := credit_charge "SET_INFO".

Definition set_info_request (file : FileHandle.t) (options : SetInfoOptions.t) : SetInfoRequest.t :=
  {| SetInfoRequest.info_type := SetInfoOptions.info_type options;
     SetInfoRequest.file_info_class := SetInfoOptions.file_info_class options;
     SetInfoRequest.buffer := SetInfoOptions.buffer options;
     SetInfoRequest.additional_information := SetInfoOptions.additional_information options;
     SetInfoRequest.file_id := FileHandle.file_id file |}.

Section set_info.
Context {T : Type} `{Transport T} `{Crypto}.
Abbreviation session := (SessionConnection.t T).

Definition set_info_limits (s : session) : client (bool * Z) :=
  let! negotiated := ok_or (SessionConnection.negotiated s)
    (Protocol "SET_INFO requires negotiated parameters") in
  let! max_transact_size :=
    ok_or (try_from usize_max (NegotiatedParameters.max_transact_size negotiated))
          (Protocol "MaxTransactSize does not fit in usize") in
  if max_transact_size =? 0 then Err (Protocol "MaxTransactSize must be greater than zero") else
  Ok (NegotiatedParameters.supports_multi_credit negotiated, max_transact_size).

Definition set_info (patience : nat) (file : FileHandle.t) (options : SetInfoOptions.t) :
    st session unit :=
  do! s := sget id in
  do! _ := slift (ensure_session s) in
  let buffer := SetInfoOptions.buffer options in
  if is_empty buffer then slift (Err (Protocol "SET_INFO input buffer must not be empty")) else
  do! '(supports_multi_credit, max_transact_size) := slift (set_info_limits s) in
  if max_transact_size <? len buffer
  then slift (Err (Protocol "SET_INFO input buffer exceeds negotiated MaxTransactSize")) else
  if negb supports_multi_credit && (CREDIT_UNIT_BYTES <? len buffer)
  then slift (Err (Protocol "SET_INFO payload exceeds single-credit 64 KiB limit")) else
  do! credit_charge := slift (set_info_credit_charge supports_multi_credit (len buffer)) in
  do! message_id := send_request credit_charge (SetInfoOptions.credit_request options)
    (fun message_id credit_request => from_wire (SetInfoRequest.encode_message
       (set_info_request file options) message_id (SessionConnection.session_id s)
       (FileHandle.tree_id file) credit_charge credit_request))
    (SessionConnection.signing_required s)
    "SET_INFO requires signing but the session has no signing key" in
  do! '(response_message, header) :=
    receive_final patience Command.SetInfo "SET_INFO" message_id (FileHandle.tree_id file) None in
  do! _ := slift (check_status header "SET_INFO response used request header form") in
  do! _ := slift (from_wire (SetInfoResponse.decode_message response_message)) in
  sret tt.

Definition set_end_of_file (patience : nat) (file : FileHandle.t) (length_ : Z) :
    st session unit :=
  do! information := slift (from_wire (FileEndOfFileInformation.new length_)) in
  let payload := FileEndOfFileInformation.encode information in
  set_info patience file
    (SetInfoOptions.file set_info_class.FILE_END_OF_FILE_INFORMATION payload).

End set_info.

Section set_info_laws.
Context {T : Type} `{TransportSafe T} `{CryptoLaws}.
Abbreviation session := (SessionConnection.t T).

Lemma returns_set_info_encode r mid sid tid charge credit :
  returns (SetInfoRequest.encode_message r mid sid tid charge credit).
Proof.
  rewrite SetInfoRequest.set_info_request_encode_message_ok.
  apply returns_bind; [|done]. unfold SetInfoRequest.validate. repeat returns_step.
Qed.

(** The buffer of a mutation is within MaxTransactSize and paid for. *)
Definition mutation_charged (s : session) (length_ charge : Z) : Prop :=
  0 <= charge <= u16_max /\
  exists p, SessionConnection.negotiated s = Some p /\
    0 < length_ <= NegotiatedParameters.max_transact_size p /\
    if NegotiatedParameters.supports_multi_credit p
    then (charge - 1) * CREDIT_UNIT_BYTES < length_ <= charge * CREDIT_UNIT_BYTES
    else charge = 0 /\ length_ <= CREDIT_UNIT_BYTES.

(** What a mutation that succeeded went by. *)
Definition mutated (response : bytes) (h : Smb2Header) (_ : unit) : Prop :=
  status h = Status 0 /\ exists r, SetInfoResponse.decode_message response = Ok r.

Definition one_mutation (s : session) (file : FileHandle.t) (options : SetInfoOptions.t)
    (r : client unit) (s' : session) : Prop :=
  exists charge,
    (is_ok r = true -> mutation_charged s (len (SetInfoOptions.buffer options)) charge) /\
    one_request s (fun id hint => from_wire (SetInfoRequest.encode_message
        (set_info_request file options) id (SessionConnection.session_id s)
        (FileHandle.tree_id file) charge hint))
      (SessionConnection.signing_required s)
      (async_answer s Command.SetInfo (FileHandle.tree_id file)) mutated r s'.

Lemma returns_set_info_limits (s : session) : returns (set_info_limits s).
Proof. unfold set_info_limits. repeat returns_step. Qed.

Lemma set_info_limits_ok (s : session) multi size : set_info_limits s = Ok (multi, size) ->
  exists p, SessionConnection.negotiated s = Some p /\
    multi = NegotiatedParameters.supports_multi_credit p /\
    size = NegotiatedParameters.max_transact_size p.
Proof. unfold set_info_limits. intros Hl. accept Hl. injection Hl as <- <-. eauto. Qed.

Lemma mutation_charge_ok (s : session) p length_ charge :
  SessionConnection.negotiated s = Some p ->
  0 < length_ <= NegotiatedParameters.max_transact_size p ->
  negb (NegotiatedParameters.supports_multi_credit p) && (CREDIT_UNIT_BYTES <? length_) = false ->
  set_info_credit_charge (NegotiatedParameters.supports_multi_credit p) length_ = Ok charge ->
  mutation_charged s length_ charge.
Proof.
  intros Hp Hl Hsingle Hc. unfold mutation_charged, set_info_credit_charge, credit_charge in *.
  destruct (NegotiatedParameters.supports_multi_credit p) eqn:Em; cbn [negb andb] in *.
  - destruct (Z.eqb_spec length_ 0); [lia|]. apply ok_or_ok, try_from_some in Hc as [-> Hc].
    unfold u16_max, CREDIT_UNIT_BYTES in *.
    split; [div_lia|]. exists p. rewrite Em. split; [done|]. split; [done|]. div_lia.
  - bool_facts. apply Ok_inj in Hc as <-. unfold u16_max. split; [lia|]. exists p. rewrite Em. done.
Qed.

Lemma set_info_runs (s : session) patience file options (Hs : session_wf s) :
  runs (set_info patience file options) s (one_mutation s file options).
Proof.
  unfold set_info. run_step. cbn [id].
  assert (forall e, one_mutation s file options (Err e) s) as Herr.
  { intros e. exists 0. split; [done|]. by apply one_request_err, advances_refl. }
  apply runs_bind_lift; [apply returns_ensure_session|by intros|intros _ _].
  run_step; [by apply runs_returns|].
  apply runs_bind_lift; [apply returns_set_info_limits|by intros|intros [multi size] Hl].
  apply set_info_limits_ok in Hl as (p & Hp & -> & ->).
  run_step; [by apply runs_returns|]. run_step; [by apply runs_returns|].
  apply runs_bind_lift; [apply returns_credit_charge|by intros|intros charge Hc].
  apply (mutation_charge_ok s p) in Hc as Hcharge; [|done| |done].
  2:{ bool_facts. rewrite is_empty_len in *. bool_facts. len_lia. }
  eapply runs_mono;
    [|intros r s' Hone; exists charge; split; [intros _; exact Hcharge|exact Hone]].
  apply (async_request_runs s _ _ mutated _ _ _ _ _ Hs (proj1 (proj1 Hcharge))
           (fun id hint => returns_from_wire _ (returns_set_info_encode _ _ _ _ _ _))).
  intros response h s' _. run_bind u Hst%check_status_ok.
  run_bind r Hr.
  apply from_wire_ok in Hr. unfold runs, sret. split; [done|]. split; [done|]. by exists r.
Qed.

(** Setting the end of a file. *)
Definition end_of_file_options (length_ : Z) : SetInfoOptions.t :=
  SetInfoOptions.file set_info_class.FILE_END_OF_FILE_INFORMATION (le_bytes 8 length_).

Lemma set_end_of_file_runs (s : session) patience file length_ (Hs : session_wf s) : 0 <= length_ ->
  runs (set_end_of_file patience file length_) s (fun r s' =>
    if length_ <? 2 ^ 63 then one_mutation s file (end_of_file_options length_) r s'
    else s' = s /\ exists e, r = Err e).
Proof.
  intros Hl.
  unfold set_end_of_file, FileEndOfFileInformation.new.
  destruct (Z.ltb_spec length_ (2 ^ 63)) as [Hlt|Hge].
  - rewrite try_from_ok by lia. apply runs_bind_lift; [done|done|intros i Hi]. injection Hi as <-.
    by apply set_info_runs.
  - assert (try_from (2 ^ 63 - 1) length_ = None) as ->.
    { unfold try_from. by rewrite (proj2 (Z.leb_gt _ _)) by lia. }
    split; [done|eauto].
Qed.
End set_info_laws.

(** ** Properties *)

(** A mutation of an open handle is sent exactly once or not at all. The
    operation sends at most one message whatever happens; it succeeds only after
    a conforming sequence of responses to that one request whose final response
    is verified and reports success; the request is the one the options
    describe, its buffer within MaxTransactSize and paid for. Setting the end of
    a file is the mutation whose buffer is that length; a length that is not a
    signed 64-bit number is refused before anything is sent. *)
Theorem set_info_sound {T} `{TransportSafe T} `{CryptoLaws} (s : SessionConnection.t T)
    (patience : nat) (file : FileHandle.t) (options : SetInfoOptions.t) (length_ : Z)
    (Hs : session_wf s) :
  0 <= length_ ->
  runs (set_info patience file options) s (one_mutation s file options) /\
  runs (set_end_of_file patience file length_) s (fun r s' =>
    if length_ <? 2 ^ 63
    then one_mutation s file (end_of_file_options length_) r s'
    else s' = s /\ exists e, r = Err e).
Proof.
  intros Hl. split; [by apply set_info_runs|by apply set_end_of_file_runs].
Qed.

(** A server that first goes asynchronous, then confirms. *)
Definition sample_set_info_pending : bytes :=
  sample_header Command.SetInfo 0x103 1 (Async 9) ++ le_bytes 2 9 ++ replicate 7 x00.
Definition sample_set_info_response : bytes :=
  sample_header Command.SetInfo 0 1 (Async 9) ++ le_bytes 2 2.

Lemma set_info_sound_witness :
  exists (s' : SessionConnection.t TcpTransport.t) es,
    advances (sample_session [sample_set_info_pending; sample_set_info_response]) es s' /\
    length (sends es) = 1%nat.
Proof.
  destruct (runs_ended _ _ _ (fun _ _ => true)
      (proj2 (@set_info_sound _ _ _ toy_crypto toy_laws
         (sample_session [sample_set_info_pending; sample_set_info_response]) 2 sample_file
         (SetInfoOptions.file 20 []) 4096 (sample_session_wf _) ltac:(lia))))
    as (u & s' & (c & _ & es & Ha & Hl & id & m & ms & r & h & He & _) & _);
    [vm_compute; reflexivity|].
  exists s', es. split; [exact Ha|]. rewrite He. cbn. by rewrite sends_received.
Defined.
