(* ===== verification/DurableOpen.v ===== *)
(** * Durable opens

    [crates/smb-client/src/durable_open.rs]: opening a file with a durable
    handle (DH2Q), giving it up when the server does not grant one, and
    reconnecting to it (DH2C). *)
From S2P Require Import Prelude WireError Utf16 Frame Header Create CreateContext Durable.
From S2P Require Import Negotiate SessionMessages FileControl.
From S2P Require Import Client Credits MessageIds AsyncResponse Transport Signing Connection.
From S2P Require Import Auth Session Exchange Tree Files.

Module DurableHandleV2Options.
Record t : Type := mk { timeout_ms : Z; persistent : bool }.
Definition default : t := mk 0 false.
End DurableHandleV2Options.

Module DurableFileHandle.
Record t : Type := mk {
  file : FileHandle.t;
  create_guid : bytes;
  open_options : FileOpenOptions.t;
  server_timeout_ms : Z;
  server_flags : Z
}.
Definition persistent (d : t) : bool := has_flag (server_flags d) durable_handle_flags.PERSISTENT.
End DurableFileHandle.

(** [a < b] of the derived order. *)
Definition dialect_lt (a b : Dialect) : bool := dialect_value a <? dialect_value b.

(** The loop over the response's contexts. *)
Fixpoint durable_response_loop (matched : option DurableHandleResponseV2.t)
    (contexts : list CreateContext) : client (option DurableHandleResponseV2.t) :=
  match contexts with
  | [] => Ok matched
  | context :: contexts =>
      if negb (bool_decide (CreateContext.name context = DURABLE_HANDLE_REQUEST_V2_NAME))
      then durable_response_loop matched contexts else
      if bool_decide (is_Some matched)
      then Err (Protocol "CREATE response contained duplicate DH2Q contexts") else
      let! response := from_wire (DurableHandleResponseV2.from_context context) in
      durable_response_loop (Some response) contexts
  end.

Definition optional_durable_response (contexts : list CreateContext) :
    client (option DurableHandleResponseV2.t) := durable_response_loop None contexts.

Definition required_durable_response (contexts : list CreateContext) :
    client DurableHandleResponseV2.t :=
  let! response := optional_durable_response contexts in
  ok_or response (Capability "server did not grant SMB2 Durable Handle V2").

Definition requested_flags (persistent : bool) : Z :=
  if persistent then durable_handle_flags.PERSISTENT else 0.

(** [requested_oplock_level] and [impersonation_level] of an option set. *)
Definition with_oplock (o : FileOpenOptions.t) (level : Z) : FileOpenOptions.t :=
  FileOpenOptions.mk level (FileOpenOptions.impersonation o) (FileOpenOptions.access o)
    (FileOpenOptions.file_attributes o) (FileOpenOptions.share o) (FileOpenOptions.disposition o)
    (FileOpenOptions.options o) (FileOpenOptions.credit_request o).
Definition with_impersonation (o : FileOpenOptions.t) (level : Z) : FileOpenOptions.t :=
  FileOpenOptions.mk (FileOpenOptions.requested_oplock_level o) level (FileOpenOptions.access o)
    (FileOpenOptions.file_attributes o) (FileOpenOptions.share o) (FileOpenOptions.disposition o)
    (FileOpenOptions.options o) (FileOpenOptions.credit_request o).

Definition effective_options (o : FileOpenOptions.t) (persistent : bool) : FileOpenOptions.t :=
  if persistent then o else with_oplock o oplock_level.BATCH.

Definition durable_request (create_guid : bytes) (options : DurableHandleV2Options.t) :
    DurableHandleRequestV2.t :=
  DurableHandleRequestV2.mk (DurableHandleV2Options.timeout_ms options)
    (requested_flags (DurableHandleV2Options.persistent options)) create_guid.

Definition durable_reconnect (durable : DurableFileHandle.t) : DurableHandleReconnectV2.t :=
  DurableHandleReconnectV2.mk (FileHandle.file_id (DurableFileHandle.file durable))
    (DurableFileHandle.create_guid durable) (requested_flags (DurableFileHandle.persistent durable)).

Definition reconnect_options (durable : DurableFileHandle.t) : FileOpenOptions.t :=
  with_impersonation (with_oplock (DurableFileHandle.open_options durable)
    (FileHandle.granted_oplock_level (DurableFileHandle.file durable))) 0.

Section durable_open.
Context {T : Type} `{Transport T} `{Crypto}.
Abbreviation session := (SessionConnection.t T).

Definition ensure_durable_v2_supported (s : session) (tree : TreeHandle.t) (persistent : bool) :
    client unit :=
  let! negotiated := ok_or (SessionConnection.negotiated s)
    (Protocol "durable handle requires negotiated SMB parameters") in
  if dialect_lt (NegotiatedParameters.dialect negotiated) Smb300
  then Err (Capability "Durable Handle V2 requires SMB 3.x") else
  if persistent then
    if negb (has_flag (NegotiatedParameters.capabilities negotiated) capabilities.PERSISTENT_HANDLES)
    then Err (Capability "server did not negotiate persistent-handle capability") else
    if negb (has_flag (TreeHandle.capabilities tree) share_capabilities.CONTINUOUS_AVAILABILITY)
    then Err (Capability "persistent durable handles require a continuously available share")
    else Ok tt
  else Ok tt.

Definition open_file_durable_v2 (tree : TreeHandle.t) (path : rust_string)
    (open_options : FileOpenOptions.t) (create_guid : bytes)
    (durable_options : DurableHandleV2Options.t) : st session DurableFileHandle.t :=
  let persistent := DurableHandleV2Options.persistent durable_options in
  do! s := sget id in
  do! _ := slift (ensure_durable_v2_supported s tree persistent) in
  let effective_open_options := effective_options open_options persistent in
  let request := durable_request create_guid durable_options in
  do! request_context := slift (from_wire (DurableHandleRequestV2.into_context request)) in
  do! result := open_file_with_contexts tree path effective_open_options [request_context] in
  let file := FileOpenResult.file result in
  match required_durable_response (FileOpenResult.response_contexts result) with
  | Ok response =>
      if persistent
         && negb (has_flag (DurableHandleResponseV2.flags response) durable_handle_flags.PERSISTENT)
      then
        do! _ := close_file file CloseOptions.default in
        slift (Err (Capability "server did not grant the requested persistent durable handle"))
      else
        sret (DurableFileHandle.mk file create_guid effective_open_options
                (DurableHandleResponseV2.timeout_ms response)
                (DurableHandleResponseV2.flags response))
  | Err (Capability e) =>
      do! _ := close_file file CloseOptions.default in
      slift (Err (Capability e))
  | Err e => slift (Err e)
  | Panic => slift Panic
  | OutOfFuel => slift OutOfFuel
  end.

Definition reconnect_file_durable_v2 (tree : TreeHandle.t) (durable : DurableFileHandle.t) :
    st session DurableFileHandle.t :=
  let persistent := DurableFileHandle.persistent durable in
  do! s := sget id in
  do! _ := slift (ensure_durable_v2_supported s tree persistent) in
  let reconnect := durable_reconnect durable in
  do! reconnect_context := slift (from_wire (DurableHandleReconnectV2.into_context reconnect)) in
  do! result := open_file_with_contexts tree (FileHandle.path (DurableFileHandle.file durable))
                  (reconnect_options durable) [reconnect_context] in
  do! refreshed := slift (optional_durable_response (FileOpenResult.response_contexts result)) in
  let '(server_timeout_ms, server_flags) :=
    match refreshed with
    | None => (DurableFileHandle.server_timeout_ms durable, DurableFileHandle.server_flags durable)
    | Some response =>
        (DurableHandleResponseV2.timeout_ms response, DurableHandleResponseV2.flags response)
    end in
  if persistent && negb (has_flag server_flags durable_handle_flags.PERSISTENT)
  then slift (Err (Protocol "durable reconnect lost persistent-handle state")) else
  sret (DurableFileHandle.mk (FileOpenResult.file result) (DurableFileHandle.create_guid durable)
          (DurableFileHandle.open_options durable) server_timeout_ms server_flags).

End durable_open.

(** ** The contexts *)

Lemma requested_flags_ok p : validate_flags (requested_flags p) = Ok tt.
Proof. by destruct p. Qed.

Definition request_context (guid : bytes) (options : DurableHandleV2Options.t) : CreateContext :=
  mkCreateContext DURABLE_HANDLE_REQUEST_V2_NAME
    (DurableHandleRequestV2.data_bytes (durable_request guid options)).
Definition reconnect_context (durable : DurableFileHandle.t) : CreateContext :=
  mkCreateContext DURABLE_HANDLE_RECONNECT_V2_NAME
    (DurableHandleReconnectV2.data_bytes (durable_reconnect durable)).

Lemma request_into_context guid options :
  len guid = 16 -> u32 (DurableHandleV2Options.timeout_ms options) ->
  DurableHandleRequestV2.into_context (durable_request guid options)
  = Ok (request_context guid options).
Proof.
  intros Hg Ht. unfold DurableHandleRequestV2.into_context.
  rewrite DurableHandleRequestV2.durable_handle_request_v2_encode_data_ok
    by (split; [done|split; [by destruct options as [? []]|done]]).
  unfold durable_request. cbn [DurableHandleRequestV2.flags]. rewrite requested_flags_ok. cbn [obind].
  assert (len (DurableHandleRequestV2.data_bytes (durable_request guid options)) = 32) as Hl
    by (unfold DurableHandleRequestV2.data_bytes;
        cbn [DurableHandleRequestV2.create_guid durable_request]; len_lia).
  unfold CreateContext_.new, CreateContext_.validate. cbn [CreateContext.name CreateContext.data].
  unfold durable_request in Hl. by rewrite Hl.
Qed.

Lemma reconnect_into_context durable :
  len (DurableFileHandle.create_guid durable) = 16 ->
  file_id_wf (FileHandle.file_id (DurableFileHandle.file durable)) ->
  DurableHandleReconnectV2.into_context (durable_reconnect durable)
  = Ok (reconnect_context durable).
Proof.
  intros Hg Hf. unfold DurableHandleReconnectV2.into_context.
  rewrite DurableHandleReconnectV2.durable_handle_reconnect_v2_encode_data_ok
    by (split; [done|split; [by unfold durable_reconnect; cbn; destruct (DurableFileHandle.persistent _)|done]]).
  unfold durable_reconnect. cbn [DurableHandleReconnectV2.flags].
  rewrite requested_flags_ok. cbn [obind].
  assert (len (DurableHandleReconnectV2.data_bytes (durable_reconnect durable)) = 36) as Hl
    by (unfold DurableHandleReconnectV2.data_bytes, file_id_bytes;
        cbn [DurableHandleReconnectV2.create_guid durable_reconnect]; len_lia).
  unfold CreateContext_.new, CreateContext_.validate. cbn [CreateContext.name CreateContext.data].
  unfold durable_reconnect in Hl. by rewrite Hl.
Qed.

(** The DH2Q contexts of a response. *)
Definition durable_contexts (contexts : list CreateContext) : list CreateContext :=
  filter (fun c => CreateContext.name c = DURABLE_HANDLE_REQUEST_V2_NAME) contexts.

(** What the client makes of them: none is no grant, one is decoded, more are an
    error. *)
Lemma durable_response_loop_spec contexts : forall matched,
  durable_response_loop matched contexts
  = match matched, durable_contexts contexts with
    | _, [] => Ok matched
    | Some _, _ :: _ => Err (Protocol "CREATE response contained duplicate DH2Q contexts")
    | None, c :: rest =>
        let! response := from_wire (DurableHandleResponseV2.from_context c) in
        match rest with
        | [] => Ok (Some response)
        | _ :: _ => Err (Protocol "CREATE response contained duplicate DH2Q contexts")
        end
    end.
Proof.
  unfold durable_contexts.
  induction contexts as [|c contexts IH]; intros matched; cbn [durable_response_loop]; [by destruct matched|].
  rewrite filter_cons. case_bool_decide as Hname; cbn [negb].
  - rewrite decide_True by done. destruct matched as [m|].
    + by rewrite bool_decide_true.
    + rewrite bool_decide_false by (by intros [? ?]).
      destruct (from_wire _) as [r|e| |]; [|done..]. cbn [obind]. rewrite IH.
      by destruct (filter _ contexts).
  - rewrite decide_False by done. apply IH.
Qed.

Lemma returns_optional_durable_response contexts : returns (optional_durable_response contexts).
Proof.
  unfold optional_durable_response. rewrite durable_response_loop_spec.
  destruct (durable_contexts contexts) as [|c rest]; [done|].
  apply returns_bind; [apply returns_from_wire, DurableHandleResponseV2.returns_from_context|].
  by destruct rest.
Qed.
#[export] Hint Resolve returns_optional_durable_response : returns.

Lemma returns_required_durable_response contexts : returns (required_durable_response contexts).
Proof. unfold required_durable_response. apply returns_bind; auto with returns. Qed.

Section durable_laws.
Context {T : Type} `{TransportSafe T} `{CryptoLaws}.
Abbreviation session := (SessionConnection.t T).

Lemma returns_ensure_durable (s : session) tree persistent :
  returns (ensure_durable_v2_supported s tree persistent).
Proof. unfold ensure_durable_v2_supported. repeat returns_step. Qed.

(** What must have been negotiated. *)
Definition durable_supported (s : session) (tree : TreeHandle.t) (persistent : bool) : Prop :=
  exists p, SessionConnection.negotiated s = Some p /\
    NegotiatedParameters.dialect p <> Smb202 /\ NegotiatedParameters.dialect p <> Smb210 /\
    (persistent = true ->
     has_flag (NegotiatedParameters.capabilities p) capabilities.PERSISTENT_HANDLES = true /\
     has_flag (TreeHandle.capabilities tree) share_capabilities.CONTINUOUS_AVAILABILITY = true).

Lemma ensure_durable_iff (s : session) tree persistent :
  ensure_durable_v2_supported s tree persistent = Ok tt <-> durable_supported s tree persistent.
Proof.
  unfold ensure_durable_v2_supported, durable_supported.
  destruct (SessionConnection.negotiated s) as [p|]; cbn [ok_or obind];
    [|split; [done|by intros (? & ? & _)]].
  assert (dialect_lt (NegotiatedParameters.dialect p) Smb300 = false <->
          NegotiatedParameters.dialect p <> Smb202 /\ NegotiatedParameters.dialect p <> Smb210) as Hd.
  { destruct (NegotiatedParameters.dialect p); split; first [done|by intros []]. }
  destruct (dialect_lt _ _).
  { split; [done|]. intros (? & [= <-] & H1' & H2' & _). discriminate (proj2 Hd (conj H1' H2')). }
  destruct (proj1 Hd eq_refl) as [Hd1 Hd2]. destruct persistent.
  - destruct (has_flag (NegotiatedParameters.capabilities p) _) eqn:E1;
      destruct (has_flag (TreeHandle.capabilities tree) _) eqn:E2; cbn [negb].
    1: split; [|done]; intros _; exists p; by rewrite E1.
    all: split; [done|]; intros (q & [= <-] & _ & _ & Hc);
      rewrite ?E1, ?E2 in Hc; by destruct (Hc eq_refl).
  - split; [|done]. intros _. by exists p.
Qed.

(** What opening a durable handle comes to. On success the CREATE carried the
    request, the response granted it, and persistently if that was asked for.
    On failure no handle stays open unknown to the caller, but for a response
    whose DH2Q contexts are malformed: nothing was opened, or what was opened
    was not granted and its close was attempted. *)
Definition durable_opened (s : session) (tree : TreeHandle.t) (path : rust_string)
    (options : FileOpenOptions.t) (guid : bytes) (durable : DurableHandleV2Options.t)
    (r : client DurableFileHandle.t) (s' : session) : Prop :=
  let persistent := DurableHandleV2Options.persistent durable in
  let effective := effective_options options persistent in
  let contexts := [request_context guid durable] in
  match r with
  | Ok handle => exists result granted,
      durable_supported s tree persistent /\
      one_open s tree path effective contexts (Ok result) s' /\
      optional_durable_response (FileOpenResult.response_contexts result) = Ok (Some granted) /\
      handle = DurableFileHandle.mk (FileOpenResult.file result) guid effective
                 (DurableHandleResponseV2.timeout_ms granted)
                 (DurableHandleResponseV2.flags granted) /\
      (persistent = true -> DurableFileHandle.persistent handle = true)
  | Err e =>
      s' = s \/ one_open s tree path effective contexts (Err e) s' \/
      exists result s1,
        one_open s tree path effective contexts (Ok result) s1 /\
        let offered := FileOpenResult.response_contexts result in
        (s' = s1 /\ optional_durable_response offered = Err e \/
         (exists closing, one_close s1 (FileOpenResult.file result) CloseOptions.default closing s') /\
         forall granted, optional_durable_response offered = Ok (Some granted) ->
           persistent = true /\
           has_flag (DurableHandleResponseV2.flags granted) durable_handle_flags.PERSISTENT = false)
  | _ => False
  end.

Lemma surrender {A} (s s1 : session) file e (Q : client A -> session -> Prop) : session_wf s1 ->
  (forall closing s', one_close s1 file CloseOptions.default closing s' -> forall e, Q (Err e) s') ->
  runs (do! _ := close_file file CloseOptions.default in slift (Err e)) s1 Q.
Proof.
  intros Hw HQ. apply runs_bind. eapply runs_mono; [by apply close_file_runs|].
  intros r s' Hclose. destruct r as [info|e'| |]; [apply runs_returns; [done|]|..]; try done;
    by eapply HQ.
Qed.

(** The response's contexts, or an error that is not about what is offered. *)
Lemma optional_not_capability contexts e :
  optional_durable_response contexts = Err e -> forall m, e <> Capability m.
Proof.
  unfold optional_durable_response. rewrite durable_response_loop_spec.
  destruct (durable_contexts contexts) as [|c rest]; [done|].
  destruct (DurableHandleResponseV2.from_context c) as [g|e'| |]; cbn; [|by intros [= <-]..].
  destruct rest; [done|by intros [= <-]].
Qed.

Lemma open_file_durable_runs (s : session) tree path options guid durable (Hs : session_wf s) :
  len guid = 16 -> u32 (DurableHandleV2Options.timeout_ms durable) ->
  runs (open_file_durable_v2 tree path options guid durable) s
    (durable_opened s tree path options guid durable).
Proof.
  intros Hg Ht. unfold open_file_durable_v2. cbv zeta. run_step. cbn [id].
  apply runs_bind_lift; [apply returns_ensure_durable|by left|intros [] Hsup].
  apply ensure_durable_iff in Hsup. rewrite request_into_context by done.
  apply runs_bind_lift; [done|done|intros c [= <-]].
  apply runs_bind. eapply runs_mono; [by apply open_file_runs|].
  intros r s1 Hopen. destruct r as [result|e| |]; [|by right; left|done|done].
  assert (session_wf s1) as Hs1.
  { destruct (one_open_traffic _ _ _ _ _ _ _ Hs Hopen) as (es & Ha & _). apply Ha. }
  pose proof (returns_optional_durable_response (FileOpenResult.response_contexts result)) as Hret.
  unfold required_durable_response.
  destruct (optional_durable_response _) as [granted|e| |] eqn:Hopt; try done; cbn [obind].
  2:{ pose proof (optional_not_capability _ _ Hopt) as Hcap. 
      assert (forall e', e' = e -> durable_opened s tree path options guid durable (Err e') s1) as Hq.
      { intros e' ->. right; right. exists result, s1. split; [done|]. by left. }
      destruct e; try (exfalso; exact (Hcap _ eq_refl)); by apply runs_returns, Hq. }
  destruct granted as [granted|]; cbn [ok_or].
  - run_step.
    + bool_facts. apply (surrender s); [done|]. intros closing s' Hclose e. right; right.
      exists result, s1. split; [done|]. right. split; [by exists closing|].
      rewrite Hopt. by intros g [= <-].
    + unfold runs, sret. exists result, granted. split; [done|]. split; [done|]. split; [done|].
      split; [done|]. intros Hp. rewrite Hp in Htest. cbn [andb] in Htest.
      unfold DurableFileHandle.persistent. cbn. by destruct (has_flag _ _).
  - apply (surrender s); [done|]. intros closing s' Hclose e. right; right.
    exists result, s1. split; [done|]. right. split; [by exists closing|]. by rewrite Hopt.
Qed.

(** What reconnecting to one comes to: the same open, named by its FileId and
    CreateGuid, with the parameters it was made with; a persistent handle stays
    persistent. *)
Definition durable_reconnected (s : session) (tree : TreeHandle.t) (durable : DurableFileHandle.t)
    (r : client DurableFileHandle.t) (s' : session) : Prop :=
  let persistent := DurableFileHandle.persistent durable in
  let reopened := one_open s tree (FileHandle.path (DurableFileHandle.file durable))
                    (reconnect_options durable) [reconnect_context durable] in
  match r with
  | Ok handle => exists result refreshed,
      durable_supported s tree persistent /\ reopened (Ok result) s' /\
      optional_durable_response (FileOpenResult.response_contexts result) = Ok refreshed /\
      DurableFileHandle.file handle = FileOpenResult.file result /\
      DurableFileHandle.create_guid handle = DurableFileHandle.create_guid durable /\
      DurableFileHandle.open_options handle = DurableFileHandle.open_options durable /\
      (refreshed = None ->
       DurableFileHandle.server_flags handle = DurableFileHandle.server_flags durable) /\
      (persistent = true -> DurableFileHandle.persistent handle = true)
  | Err e =>
      s' = s \/ reopened (Err e) s' \/
      exists result, reopened (Ok result) s' /\
        forall refreshed,
          optional_durable_response (FileOpenResult.response_contexts result) = Ok refreshed ->
          persistent = true /\ exists granted, refreshed = Some granted /\
          has_flag (DurableHandleResponseV2.flags granted) durable_handle_flags.PERSISTENT = false
  | _ => False
  end.

Lemma reconnect_file_durable_runs (s : session) tree durable (Hs : session_wf s) :
  len (DurableFileHandle.create_guid durable) = 16 ->
  file_id_wf (FileHandle.file_id (DurableFileHandle.file durable)) ->
  runs (reconnect_file_durable_v2 tree durable) s (durable_reconnected s tree durable).
Proof.
  intros Hg Hf. unfold reconnect_file_durable_v2. cbv zeta. run_step. cbn [id].
  apply runs_bind_lift; [apply returns_ensure_durable|by left|intros [] Hsup].
  apply ensure_durable_iff in Hsup. rewrite reconnect_into_context by done.
  apply runs_bind_lift; [done|done|intros c [= <-]].
  apply runs_bind. eapply runs_mono; [by apply open_file_runs|].
  intros r s1 Hopen. destruct r as [result|e| |]; [|by right; left|done|done].
  apply runs_bind_lift; [apply returns_optional_durable_response| |].
  { intros e He. right; right. exists result. split; [done|]. intros g Hg'. congruence. }
  intros refreshed Hopt.
  destruct refreshed as [granted|]; (run_step; [apply runs_returns; [done|]|unfold runs, sret]).
  - bool_facts. right; right. exists result. split; [done|]. rewrite Hopt. intros g [= <-].
    split; [done|]. by exists granted.
  - exists result, (Some granted). repeat (split; [done|]). intros Hp. rewrite Hp in Htest.
    unfold DurableFileHandle.persistent. cbn in *. by destruct (has_flag _ _).
  - exfalso. unfold DurableFileHandle.persistent in *. by destruct (has_flag _ _).
  - exists result, None. repeat (split; [done|]). intros Hp.
    by unfold DurableFileHandle.persistent in *.
Qed.

(** A handle that was opened is one. *)
Lemma durable_reconnected_wf (s : session) tree durable r s' : session_wf s ->
  durable_reconnected s tree durable r s' ->
  session_wf s' /\ forall handle, r = Ok handle ->
    FileHandle.wf (DurableFileHandle.file handle) /\
    DurableFileHandle.create_guid handle = DurableFileHandle.create_guid durable.
Proof.
  intros Hs Hd. destruct r as [handle|e| |]; try done.
  - destruct Hd as (result & refreshed & _ & Hopen & _ & Hfile & Hguid & _).
    split; [by eapply one_open_wf|]. intros ? [= <-]. rewrite Hfile.
    split; [by eapply one_open_handle|done].
  - split; [|done]. destruct Hd as [->|[Hopen|(result & Hopen & _)]]; [done|..]; by eapply one_open_wf.
Qed.

Lemma durable_opened_wf (s : session) tree path options guid durable r s' : session_wf s ->
  durable_opened s tree path options guid durable r s' ->
  session_wf s' /\ forall handle, r = Ok handle ->
    FileHandle.wf (DurableFileHandle.file handle) /\ DurableFileHandle.create_guid handle = guid.
Proof.
  intros Hs Hd. destruct r as [handle|e| |]; try done.
  - destruct Hd as (result & granted & _ & Hopen & _ & -> & _).
    split; [by eapply one_open_wf|]. intros ? [= <-]. split; [by eapply one_open_handle|done].
  - split; [|done]. destruct Hd as [->|[Hopen|(result & s1 & Hopen & Hd)]]; [done|by eapply one_open_wf|].
    destruct Hd as [[-> _]|[(closing & Hclose) _]]; [by eapply one_open_wf|by eapply one_close_wf].
Qed.

Lemma durable_opened_traffic (s : session) tree path options guid durable r s' : session_wf s ->
  durable_opened s tree path options guid durable r s' ->
  exists es, advances s es s' /\ (length (sends es) <= 2)%nat.
Proof.
  intros Hs Hd. destruct r as [handle|e| |]; try done.
  - destruct Hd as (result & g & _ & Hopen & _).
    destruct (one_open_traffic _ _ _ _ _ _ _ Hs Hopen) as (es & Ha & Hl & _). exists es.
    split; [done|lia].
  - destruct Hd as [->|[Hopen|(result & s1 & Hopen & Hd)]].
    + exists []. split; [by apply advances_refl|cbn; lia].
    + destruct (one_open_traffic _ _ _ _ _ _ _ Hs Hopen) as (es & Ha & Hl & _). exists es.
      split; [done|lia].
    + destruct (one_open_traffic _ _ _ _ _ _ _ Hs Hopen) as (es & Ha & Hl & _).
      destruct Hd as [[-> _]|[(closing & charge & Hclose) _]]; [exists es; split; [done|lia]|].
      apply one_request_traffic in Hclose as (es' & Ha' & Hl' & _). exists (es ++ es').
      split; [by eapply advances_app|]. rewrite sends_app, length_app. lia.
Qed.
End durable_laws.

(** ** Properties *)

(** C27: durable opens keep their contract. A durable open is only asked for
    where SMB 3 (and, for a persistent one, the server's capability and the
    share's continuous availability) was negotiated; its CREATE carries the DH2Q
    request with the CreateGuid, and success means that the response's one DH2Q
    context granted it, persistently if that was asked. When the grant is
    missing or too weak the file just opened is closed before the error is
    returned, and at most the CREATE and that CLOSE are ever sent. A reconnect
    sends one CREATE with the DH2C context of the same FileId and CreateGuid
    and never returns a persistent handle that lost its persistence. *)
Theorem durable_open_sound {T} `{TransportSafe T} `{CryptoLaws} (s : SessionConnection.t T)
    (tree : TreeHandle.t) (path : rust_string) (options : FileOpenOptions.t) (guid : bytes)
    (durable_options : DurableHandleV2Options.t) (durable : DurableFileHandle.t)
    (Hs : session_wf s) :
  len guid = 16 -> u32 (DurableHandleV2Options.timeout_ms durable_options) ->
  len (DurableFileHandle.create_guid durable) = 16 ->
  file_id_wf (FileHandle.file_id (DurableFileHandle.file durable)) ->
  runs (open_file_durable_v2 tree path options guid durable_options) s (fun r s' =>
    durable_opened s tree path options guid durable_options r s' /\
    exists es, advances s es s' /\ (length (sends es) <= 2)%nat) /\
  runs (reconnect_file_durable_v2 tree durable) s (durable_reconnected s tree durable).
Proof.
  intros. split; [|by apply reconnect_file_durable_runs].
  eapply runs_mono; [by apply open_file_durable_runs|]. intros r s' Hd. split; [done|].
  by eapply durable_opened_traffic.
Qed.

(** An SMB 3.0 session, and a server that grants a durable handle for a minute. *)
Definition sample_session_smb300 (responses : list bytes) : SessionConnection.t TcpTransport.t :=
  set_connection (sample_session responses)
    (Connection.mk (Connection.transport (SessionConnection.connection (sample_session responses))) 1
      (Some (NegotiatedParameters.mk Smb300 3 capabilities.LARGE_MTU (replicate 16 x05) 65536 65536
               65536 8 AesCmac true)) None (Some (CreditManager.mk 8 128))).

Lemma sample_session_smb300_wf responses : session_wf (sample_session_smb300 responses).
Proof. split; [uint_solve|done|by intros s [= <-]|by intros p [= <-]]. Qed.

Definition sample_grant : bytes :=
  match encode_create_contexts
          [mkCreateContext DURABLE_HANDLE_REQUEST_V2_NAME (le_bytes 4 60000 ++ le_bytes 4 0)] with
  | Ok list => list
  | _ => []
  end.
Definition sample_durable_response : bytes :=
  sample_header Command.Create 0 1 (Sync 0 5)
  ++ le_bytes 2 89 ++ [x09; x00] ++ le_bytes 4 1 ++ le_bytes 8 0 ++ le_bytes 8 0 ++ le_bytes 8 0
  ++ le_bytes 8 0 ++ le_bytes 8 4096 ++ le_bytes 8 1000 ++ le_bytes 4 32 ++ le_bytes 4 0
  ++ file_id_bytes sample_file_id ++ le_bytes 4 152 ++ le_bytes 4 (len sample_grant) ++ sample_grant.

Definition sample_durable : DurableFileHandle.t :=
  DurableFileHandle.mk sample_file (replicate 16 x07) FileOpenOptions.default 60000 0.

Lemma durable_open_sound_witness :
  exists (handle : DurableFileHandle.t) (s' : SessionConnection.t TcpTransport.t),
    DurableFileHandle.server_timeout_ms handle = 60000 /\
    (exists es, advances (sample_session_smb300 [sample_durable_response]) es s' /\
                (length (sends es) <= 2)%nat) /\
    durable_supported (sample_session_smb300 [sample_durable_response]) sample_tree false.
Proof.
  destruct (runs_ended _ _ _ (fun handle _ => DurableFileHandle.server_timeout_ms handle =? 60000)
      (proj1 (@durable_open_sound _ _ _ toy_crypto toy_laws
         (sample_session_smb300 [sample_durable_response]) sample_tree sample_path
         FileOpenOptions.default (replicate 16 x07) DurableHandleV2Options.default sample_durable
         (sample_session_smb300_wf _) ltac:(reflexivity) ltac:(by vm_compute) ltac:(reflexivity)
         ltac:(by vm_compute))))
    as (handle & s' & [(result & granted & Hsup & _) Htraffic] & Ht%Z.eqb_eq);
    [vm_compute; reflexivity|].
  exists handle, s'. split; [exact Ht|]. split; [exact Htraffic|exact Hsup].
Defined.
