(* ===== verification/Reconnect.v ===== *)
(** * Restoring a read-only file

    [crates/smb-client/src/reconnect.rs]: a recipe that opens a file through a
    fresh transport, session and tree, and the file identity that guards a later
    reopen. The network, the random source and SHA-256 (crate [sha2]) are
    parameters. The [OnceLock] and [Mutex] cells of a recipe are fields of its
    state, threaded from one use to the next. The cancelable form may drop the work
    at any wait: [wait] is what happens at each [.await]. *)
From stdpp Require Import sorting.
From S2P Require Import Prelude WireError Utf16 Frame Header Create CreateContext Durable.
From S2P Require Import Negotiate SessionMessages FileControl.
From S2P Require Import Client Effects Credits MessageIds AsyncResponse Transport Signing Connection.
From S2P Require Import Auth Session Exchange Tree Files Write Read DurableOpen Spnego Ntlm Anonymous Cancellation.

Definition STATUS_OBJECT_NAME_NOT_FOUND : Z := 0xC0000034.
Definition STATUS_NETWORK_NAME_DELETED : Z := 0xC00000C9.
Definition STATUS_USER_SESSION_DELETED : Z := 0xC0000203.
Definition STATUS_NETWORK_SESSION_EXPIRED : Z := 0xC000035C.
Definition IDENTITY_SAMPLE_BYTES : Z := 16 * 1024.

Inductive ReconnectError : Type :=
  | FromClient (error : ClientError)
  | ReconnectCancelled
  | RandomSource.

(** [ReconnectError::from]. *)
Definition from_client {A} (m : client A) : outcome ReconnectError A := omap_err FromClient m.

Definition is_retryable_client_error (error : ClientError) : bool :=
  match error with
  | Io _ | Timeout_ _ => true
  | ServerStatus status =>
      (status =? STATUS_NETWORK_NAME_DELETED) || (status =? STATUS_USER_SESSION_DELETED)
      || (status =? STATUS_NETWORK_SESSION_EXPIRED)
  | Wire _ | Auth _ | Cancelled | Capability _ | Protocol _ => false
  end.

(** The world a recipe is used in: connecting to a host, and [getrandom::fill]
    of so many bytes. *)
Class Host (T W : Type) : Type := {
  sha256 : bytes -> bytes;
  tcp_connect : rust_string -> Z -> W -> client T * W;
  fill_random : Z -> W -> option bytes * W
}.

Class HostLaws (T W : Type) `{Host T W} : Prop := {
  sha256_len m : len (sha256 m) = 32;
  tcp_connect_returns host port w : returns (tcp_connect host port w).1;
  fill_random_len n w r : 0 <= n -> (fill_random n w).1 = Some r -> len r = n
}.

(** ** File identity *)

Module FileIdentity.
Record t : Type := mk { length_ : Z; last_write_time : Z; fingerprint : bytes }.
#[global] Instance eq_dec : EqDecision t.
Proof. solve_decision. Defined.
End FileIdentity.

Definition timestamp_matches (original reopened : Z) : bool :=
  (original =? 0) || (reopened =? 0) || (original =? reopened).

Definition is_compatible_with (self reopened : FileIdentity.t) : bool :=
  (FileIdentity.length_ self =? FileIdentity.length_ reopened)
  && timestamp_matches (FileIdentity.last_write_time self) (FileIdentity.last_write_time reopened)
  && bool_decide (FileIdentity.fingerprint self = FileIdentity.fingerprint reopened).

Definition validate_file_identity (original reopened : FileIdentity.t) : client unit :=
  if is_compatible_with original reopened then Ok tt
  else Err (Protocol "SMB file changed while reconnecting by path").

(** [Vec::dedup]: equal neighbours become one. *)
Fixpoint dedup (l : list Z) : list Z :=
  match l with
  | x :: (y :: _) as rest => if x =? y then dedup rest else x :: dedup rest
  | _ => l
  end.

Definition identity_sample_offsets (len_ : Z) : list Z :=
  if len_ =? 0 then [] else
  let sample := Z.min len_ IDENTITY_SAMPLE_BYTES in
  let last_start := len_ - sample in
  let middle_start := Z.min (saturating_sub (len_ / 2) (sample / 2)) last_start in
  dedup (merge_sort Z.le [0; middle_start; last_start]).

(** [b"smb-io-rs:file-identity:v1"]. *)
Definition identity_label : bytes :=
  [x73; x6d; x62; x2d; x69; x6f; x2d; x72; x73; x3a; x66; x69; x6c; x65; x2d; x69; x64; x65; x6e;
   x74; x69; x74; x79; x3a; x76; x31].

Section identity.
Context {T W : Type} `{Transport T} `{Crypto} `{Host T W}.

(** The loop over the samples; [hashed] is what the hasher was fed. *)
Fixpoint hash_samples (patience : nat) (file : FileHandle.t) (offsets : list Z) (hashed : bytes) :
    st (SessionConnection.t T) bytes :=
  match offsets with
  | [] => sret hashed
  | offset :: offsets =>
      do! remaining := slift (sub_or_panic (FileHandle.length_ file) offset) in
      do! sample_len := slift (ok_or (try_from usize_max (Z.min remaining IDENTITY_SAMPLE_BYTES))
                                 (Protocol "SMB identity sample length overflow")) in
      do! sample := read_at patience file offset sample_len in
      if negb (len sample =? sample_len)
      then slift (Err (Protocol "SMB identity sample returned an unexpected length")) else
      hash_samples patience file offsets
        (hashed ++ le_bytes 8 offset ++ le_bytes 8 sample_len ++ sample)
  end.

Definition capture_file_identity (patience : nat) (file : FileHandle.t) :
    st (SessionConnection.t T) FileIdentity.t :=
  let length_ := FileHandle.length_ file in
  do! hashed := hash_samples patience file (identity_sample_offsets length_)
                  (identity_label ++ le_bytes 8 length_) in
  do! fingerprint := slift (copy_from_slice (replicate 32 x00) 0 32 (sha256 hashed)) in
  sret (FileIdentity.mk length_ (FileHandle.last_write_time file) fingerprint).

End identity.

(** ** The recipe *)

Module DurableRecoveryState.
Record t : Type := mk { handle : option DurableFileHandle.t; unavailable : bool }.
Definition default : t := mk None false.
End DurableRecoveryState.

(** What a recipe is told. *)
Module Target.
Record t : Type := mk {
  host : rust_string; port : Z; share : rust_string; path : rust_string;
  username : rust_string; password : rust_string; domain : rust_string;
  workstation : rust_string; durable_v2_enabled : bool
}.
End Target.

(** ... and what it remembers. *)
Module Recipe.
Record t : Type := mk {
  target : Target.t;
  identity : option FileIdentity.t;
  client_guid : option bytes;
  durable : DurableRecoveryState.t
}.

Definition new (host : rust_string) (port : Z)
    (share path username password domain workstation : rust_string) : t :=
  mk (Target.mk host port share path username password domain workstation false)
    None None DurableRecoveryState.default.

Definition with_durable_v2 (r : t) (enabled : bool) : t :=
  let g := target r in
  mk (Target.mk (Target.host g) (Target.port g) (Target.share g) (Target.path g)
        (Target.username g) (Target.password g) (Target.domain g) (Target.workstation g) enabled)
    (identity r) (client_guid r) (durable r).

Definition set_identity (r : t) (x : FileIdentity.t) : t :=
  mk (target r) (Some x) (client_guid r) (durable r).
Definition set_client_guid (r : t) (x : bytes) : t :=
  mk (target r) (identity r) (Some x) (durable r).
Definition set_handle (r : t) (x : option DurableFileHandle.t) : t :=
  mk (target r) (identity r) (client_guid r)
    (DurableRecoveryState.mk x (DurableRecoveryState.unavailable (durable r))).
Definition set_unavailable (r : t) : t :=
  mk (target r) (identity r) (client_guid r)
    (DurableRecoveryState.mk (DurableRecoveryState.handle (durable r)) true).
End Recipe.

Abbreviation rst := (est ReconnectError).

Section reconnect.
Context {T W : Type} `{Transport T} `{Crypto} `{NtlmEnvironment} `{Host T W}.

(** The recipe in its world, and a session beside them. *)
#[local] Abbreviation place := (Recipe.t * W)%type.
#[local] Abbreviation session := (SessionConnection.t T).
#[local] Abbreviation restoring := (place * session)%type.

Definition random_bytes (n : Z) : rst place bytes := fun '(recipe, w) =>
  let '(r, w) := fill_random n w in (ok_or r RandomSource, (recipe, w)).

Definition random_guid : rst place bytes := random_bytes 16.

Definition on_recipe (f : Recipe.t -> Recipe.t) : place -> place := fun '(recipe, w) => (f recipe, w).

Definition client_guid : rst place bytes :=
  rec! known := eget (fun p : place => Recipe.client_guid p.1) in
  match known with
  | Some guid => eret guid
  | None =>
      rec! guid := random_guid in
      rec! _ := emodify (on_recipe (fun r => Recipe.set_client_guid r guid)) in
      eret guid
  end.

(** The providers of the recipe: anonymous without a user name, else NTLMv2. *)
Definition ntlm_credentials (g : Target.t) : NtlmCredentials.t :=
  let credentials := NtlmCredentials.new (Target.username g) (Target.password g) in
  let credentials :=
    if is_empty (Target.domain g) then credentials
    else NtlmCredentials.with_domain credentials (Target.domain g) in
  if is_empty (Target.workstation g) then credentials
  else NtlmCredentials.with_workstation credentials (Target.workstation g).

Definition authenticate (g : Target.t) (connection : Connection.t T) : client session :=
  if is_empty (Target.username g)
  then (session_setup SessionSetupConfig.default (connection, NullSession.new)).1
  else (session_setup SessionSetupConfig.default (connection, ntlm_new (ntlm_credentials g))).1.

Definition open_session (g : Target.t) (guid preauth_salt : bytes) (transport : T) : client session :=
  match Connection.negotiate (NegotiateConfig.modern guid preauth_salt) (Connection.new transport) with
  | (Ok _, connection) => authenticate g connection
  | (Err e, _) => Err e
  | (Panic, _) => Panic
  | (OutOfFuel, _) => OutOfFuel
  end.

(** What happens at a wait, before what is waited for. To be dropped there is an
    error that no code handles; what an operation of the session had done by then
    is lost with the session. *)
Context (wait : rst place unit).

Definition establish_session : rst place session :=
  rec! guid := client_guid in
  rec! preauth_salt := random_bytes 32 in
  rec! g := eget (fun p : place => Recipe.target p.1) in
  rec! _ := wait in
  rec! transport := (fun '(recipe, w) =>
    let '(r, w) := tcp_connect (Target.host g) (Target.port g) w in (from_client r, (recipe, w))) in
  rec! _ := wait in
  fun p => (from_client (open_session g guid preauth_salt transport), p).

(** Steps of the part that has a session. *)
Definition in_session {A} (m : st session A) : rst restoring A :=
  client_on FromClient snd (fun p s => (fst p, s)) m.
Definition try_session {A} (m : st session A) : rst restoring (ClientError + A) :=
  attempt snd (fun p s => (fst p, s)) m.
Definition in_place {A} (m : rst place A) : rst restoring A := fun '(p, s) =>
  let '(r, p) := m p in (r, (p, s)).
Definition update_recipe (f : Recipe.t -> Recipe.t) : rst restoring unit :=
  emodify (fun '(p, s) => (on_recipe f p, s)).

Definition remember_or_validate_file (patience : nat) (file : FileHandle.t) :
    rst restoring (ClientError + unit) :=
  rec! _ := in_place wait in
  rec! reopened := try_session (capture_file_identity patience file) in
  match reopened with
  | inl e => eret (inl e)
  | inr reopened =>
      rec! original := eget (fun p : restoring => Recipe.identity p.1.1) in
      match original with
      | Some original =>
          try_session (slift (validate_file_identity original reopened))
      | None =>
          rec! _ := update_recipe (fun r => Recipe.set_identity r reopened) in
          eret (inr tt)
      end
  end.

(** [let _ = session.close_file(..).await]. *)
Definition close_quietly (file : FileHandle.t) : rst restoring unit :=
  rec! _ := in_place wait in
  rec! _ := try_session (close_file file CloseOptions.default) in eret tt.

(** A durable handle just opened or reconnected: it is kept if its file is the
    one the recipe knows. *)
Definition adopt_durable (patience : nat) (opened : DurableFileHandle.t) (forget : bool) :
    rst restoring FileHandle.t :=
  let file := DurableFileHandle.file opened in
  rec! checked := remember_or_validate_file patience file in
  match checked with
  | inl error =>
      rec! _ := (if forget then update_recipe (fun r => Recipe.set_handle r None) else eret tt) in
      rec! _ := close_quietly file in
      efail (FromClient error)
  | inr _ =>
      rec! _ := update_recipe (fun r => Recipe.set_handle r (Some opened)) in
      eret file
  end.

(** The first half of the durable part: a remembered handle. [None] is falling
    through. *)
Definition reconnect_remembered (patience : nat) (tree : TreeHandle.t) :
    rst restoring (option FileHandle.t) :=
  rec! remembered := eget (fun p : restoring => DurableRecoveryState.handle (Recipe.durable p.1.1)) in
  match remembered with
  | None => eret None
  | Some existing =>
      rec! _ := in_place wait in
      rec! reconnected := try_session (reconnect_file_durable_v2 tree existing) in
      match reconnected with
      | inr refreshed =>
          rec! file := adopt_durable patience refreshed true in eret (Some file)
      | inl (ServerStatus status) =>
          if status =? STATUS_OBJECT_NAME_NOT_FOUND then
            rec! _ := update_recipe (fun r => Recipe.set_handle r None) in eret None
          else efail (FromClient (ServerStatus status))
      | inl (Capability _) =>
          rec! _ := update_recipe (fun r => Recipe.set_unavailable (Recipe.set_handle r None)) in
          eret None
      | inl error => efail (FromClient error)
      end
  end.

(** ... and the second: a new durable open. *)
Definition open_durable (patience : nat) (tree : TreeHandle.t) :
    rst restoring (option FileHandle.t) :=
  rec! recipe := eget (fun p : restoring => p.1.1) in
  if DurableRecoveryState.unavailable (Recipe.durable recipe) then eret None else
  rec! create_guid := in_place random_guid in
  rec! _ := in_place wait in
  rec! opened := try_session (open_file_durable_v2 tree (Target.path (Recipe.target recipe))
                    FileOpenOptions.read_existing_random create_guid DurableHandleV2Options.default) in
  match opened with
  | inr opened => rec! file := adopt_durable patience opened false in eret (Some file)
  | inl (Capability _) => rec! _ := update_recipe Recipe.set_unavailable in eret None
  | inl error => efail (FromClient error)
  end.

Definition restore_file (patience : nat) : rst restoring FileHandle.t :=
  rec! g := eget (fun p : restoring => Recipe.target p.1.1) in
  let unc_share := [92; 92] ++ Target.host g ++ [92] ++ Target.share g in
  rec! _ := in_place wait in
  rec! tree := in_session (tree_connect unc_share TreeConnectOptions.default) in
  rec! durable :=
    (if Target.durable_v2_enabled g then
       rec! file := reconnect_remembered patience tree in
       match file with
       | Some file => eret (Some file)
       | None => open_durable patience tree
       end
     else eret None) in
  match durable with
  | Some file => eret file
  | None =>
      rec! _ := in_place wait in
      rec! file := in_session (open_file tree (Target.path g) FileOpenOptions.read_existing_random) in
      rec! checked := remember_or_validate_file patience file in
      match checked with
      | inl error => efail (FromClient error)
      | inr _ => eret file
      end
  end.

Definition connect_waiting (patience : nat) : rst place (session * FileHandle.t) :=
  rec! s := establish_session in
  fun p =>
    match restore_file patience (p, s) with
    | (Ok file, (p, s)) => (Ok (s, file), p)
    | (Err e, (p, _)) => (Err e, p)
    | (Panic, (p, _)) => (Panic, p)
    | (OutOfFuel, (p, _)) => (OutOfFuel, p)
    end.

End reconnect.

(** Nothing comes between. *)
Definition no_wait {T W} `{Transport T} : rst (Recipe.t * W) unit := eret tt.

Definition connect_read_only_file {T W} `{Transport T} `{Crypto} `{NtlmEnvironment} `{Host T W}
    (patience : nat) : rst (Recipe.t * W) (SessionConnection.t T * FileHandle.t) :=
  connect_waiting no_wait patience.

(** A world beside which a cancellation token is watched. *)
#[local] Instance watched_host {T W} `{Host T W} : Host T (W * ReadCancellationToken.t) := {|
  sha256 := sha256;
  tcp_connect := fun host port '(w, token) => let '(r, w) := tcp_connect host port w in (r, (w, token));
  fill_random := fun n '(w, token) => let '(r, w) := fill_random n w in (r, (w, token))
|}.

(** [select!] of the connection and [cancellation.wait_for_change(generation)]:
    whenever the one waits, the other has a look. *)
Definition wait_current {W} (generation : Z) : rst (Recipe.t * (W * ReadCancellationToken.t)) unit :=
  fun '(recipe, (w, token)) =>
    let '(r, token) := ReadCancellationToken.changed generation token in
    (let! new := r in match new with None => Ok tt | Some _ => Err ReconnectCancelled end,
     (recipe, (w, token))).

Definition connect_read_only_file_cancelable {T W} `{Transport T} `{Crypto} `{NtlmEnvironment}
    `{Host T W} (patience : nat) (generation : Z) :
    rst (Recipe.t * (W * ReadCancellationToken.t)) (SessionConnection.t T * FileHandle.t) :=
  rec! _ := wait_current generation in connect_waiting (wait_current generation) patience.

(** ** The samples *)

Lemma dedup_cons x y l : dedup (x :: y :: l) = if x =? y then dedup (y :: l) else x :: dedup (y :: l).
Proof. done. Qed.

Lemma dedup_in x l : x ∈ dedup l -> x ∈ l.
Proof.
  induction l as [|y [|z l] IH]; [done|done|]. rewrite dedup_cons, !elem_of_cons in *.
  destruct (y =? z); [by right; apply IH|]. rewrite elem_of_cons. intros [->|Hx]; [by left|].
  right. by apply IH.
Qed.

Lemma dedup_sorted l : Sorted Z.le l -> Sorted Z.lt (dedup l).
Proof.
  induction l as [|y [|z l] IH]; intros Hs; [done|by repeat constructor|]. rewrite dedup_cons.
  inversion Hs as [|? ? Hs' Hy]; subst. inversion Hy; subst. specialize (IH Hs').
  destruct (Z.eqb_spec y z); [done|]. constructor; [exact IH|].
  pose proof (fun x => dedup_in x (z :: l)) as Hin.
  destruct (dedup (z :: l)) as [|w l']; [constructor|]. constructor.
  assert (w ∈ z :: l) as Hw by (apply Hin; by left).
  apply Sorted_StronglySorted in Hs'; [|apply _]. inversion Hs' as [|? ? _ Hall]; subst.
  rewrite Forall_forall in Hall. apply elem_of_cons in Hw as [->|Hw]; [lia|].
  specialize (Hall w Hw). lia.
Qed.

Lemma offsets_in len_ o : 0 <= len_ -> o ∈ identity_sample_offsets len_ -> 0 <= o < len_.
Proof.
  unfold identity_sample_offsets, IDENTITY_SAMPLE_BYTES, saturating_sub. intros Hl Ho.
  destruct (Z.eqb_spec len_ 0); [set_solver|]. apply dedup_in in Ho. cbv zeta in Ho.
  rewrite merge_sort_Permutation in Ho.
  assert (len_ / 2 <= len_) by div_lia.
  rewrite !elem_of_cons in Ho. destruct Ho as [->|[->|[->|Ho]]]; [lia..|set_solver].
Qed.

Section reconnect_laws.
Context {T W : Type} `{TransportSafe T} `{CryptoLaws} `{NtlmEnvironmentLaws} `{HostLaws T W}.
#[local] Abbreviation place := (Recipe.t * W)%type.
#[local] Abbreviation session := (SessionConnection.t T).
#[local] Abbreviation restoring := (place * session)%type.

(** Every sample was read from the server in this session: [samples] are what
    the file held at [offsets], from one state of the session to another. *)
Fixpoint sampled (s : session) (file : FileHandle.t) (offsets : list Z) (samples : list bytes)
    (s' : session) : Prop :=
  match offsets, samples with
  | [], [] => s' = s
  | offset :: offsets, data :: samples =>
      let n := Z.min (FileHandle.length_ file - offset) IDENTITY_SAMPLE_BYTES in
      len data = n /\
      exists s1, read_result s file offset n [] (Ok data) s1 /\ sampled s1 file offsets samples s'
  | _, _ => False
  end.

Definition samples_bytes (file : FileHandle.t) (offsets : list Z) (samples : list bytes) : bytes :=
  zip offsets samples ≫= fun '(offset, data) => le_bytes 8 offset ++ le_bytes 8 (len data) ++ data.

(** The identity of a file that was seen with these samples. *)
Definition identity_of (file : FileHandle.t) (samples : list bytes) : FileIdentity.t :=
  FileIdentity.mk (FileHandle.length_ file) (FileHandle.last_write_time file)
    (sha256 (identity_label ++ le_bytes 8 (FileHandle.length_ file)
             ++ samples_bytes file (identity_sample_offsets (FileHandle.length_ file)) samples)).

Definition captured (s : session) (file : FileHandle.t) (id : FileIdentity.t) (s' : session) : Prop :=
  u64 (FileHandle.length_ file) /\ exists samples,
    sampled s file (identity_sample_offsets (FileHandle.length_ file)) samples s' /\
    id = identity_of file samples.

Lemma read_result_wf (s : session) file offset n r s' :
  read_result s file offset n [] r s' -> session_wf s'.
Proof. intros (es & Ha & _). apply Ha. Qed.

Lemma hash_samples_runs patience file offsets : forall (s : session) hashed,
  session_wf s -> u64 (FileHandle.length_ file) ->
  (forall o, o ∈ offsets -> 0 <= o < FileHandle.length_ file) ->
  runs (hash_samples patience file offsets hashed) s (fun r s' => session_wf s' /\
    match r with
    | Ok out => exists samples, sampled s file offsets samples s' /\
                  out = hashed ++ samples_bytes file offsets samples
    | _ => True
    end).
Proof.
  induction offsets as [|o offsets IH]; intros s hashed Hs Hl Ho; cbn [hash_samples].
  { unfold runs, sret. split; [done|]. exists []. by rewrite app_nil_r. }
  pose proof (Ho o ltac:(by left)) as Hoo. unfold sub_or_panic.
  assert (0 < Z.min (FileHandle.length_ file - o) IDENTITY_SAMPLE_BYTES) as Hn
    by (unfold IDENTITY_SAMPLE_BYTES; lia).
  rewrite (proj2 (Z.leb_le _ _)) by lia.
  apply runs_bind_lift; [done|done|intros ? [= <-]].
  apply runs_bind_lift; [auto with returns|by intros|intros n Hn'%ok_or_ok%try_from_some].
  destruct Hn' as [-> _]. set (n := Z.min _ _) in Hn |- *.
  apply runs_bind. eapply runs_mono; [by apply read_at_runs; [|lia]|].
  intros r s1 Hr. pose proof (read_result_wf _ _ _ _ _ _ Hr) as Hs1.
  destruct r as [data|e| |]; [|by split|done..].
  replace (Z.max 0 _) with n in Hr by lia.
  run_step; [by apply runs_returns|]. bool_facts.
  eapply runs_mono; [apply IH; [done|done|intros o' Hin; apply Ho; by right]|].
  intros r s' [Hw Hr']. split; [done|]. destruct r as [out|e| |]; try done.
  destruct Hr' as (samples & Hsam & ->). exists (data :: samples).
  split; [cbn [sampled]; split; [done|]; by exists s1|].
  unfold samples_bytes. cbn. rewrite <- !app_assoc. subst n. by rewrite Htest.
Qed.

Lemma capture_runs patience file (s : session) : session_wf s -> u64 (FileHandle.length_ file) ->
  runs (capture_file_identity patience file) s (fun r s' => session_wf s' /\
    match r with Ok id => captured s file id s' | _ => True end).
Proof.
  intros Hs Hl. unfold capture_file_identity. apply runs_bind.
  eapply runs_mono; [apply hash_samples_runs; [done|done|intros o; apply offsets_in, Hl]|].
  intros r s' [Hw Hr]. destruct r as [out|e| |]; [|by split|done..].
  destruct Hr as (samples & Hsam & ->). rewrite (copy_all 32) by apply sha256_len.
  apply runs_bind_lift; [done|done|intros f Hf; apply Ok_inj in Hf as <-]. unfold runs, sret.
  split; [done|]. split; [done|]. exists samples. split; [done|]. unfold identity_of. by rewrite <- app_assoc.
Qed.

(** ** The recipe across a connection *)

Record recipe_wf (r : Recipe.t) : Prop := {
  recipe_guid : forall guid, Recipe.client_guid r = Some guid -> len guid = 16;
  recipe_handle : forall d, DurableRecoveryState.handle (Recipe.durable r) = Some d ->
    len (DurableFileHandle.create_guid d) = 16 /\ FileHandle.wf (DurableFileHandle.file d)
}.

(** What no use of a recipe changes: its target, and an identity it knows. *)
Record kept (r r' : Recipe.t) : Prop := {
  kept_wf : recipe_wf r';
  kept_target : Recipe.target r' = Recipe.target r;
  kept_identity : forall o, Recipe.identity r = Some o -> Recipe.identity r' = Some o
}.

(** ... and what changes before a file was looked at. *)
Record moved (r r' : Recipe.t) : Prop := {
  moved_wf : recipe_wf r';
  moved_target : Recipe.target r' = Recipe.target r;
  moved_identity : Recipe.identity r' = Recipe.identity r
}.

Lemma moved_refl r : recipe_wf r -> moved r r.
Proof. by split. Qed.
Lemma moved_kept r r' : moved r r' -> kept r r'.
Proof. intros [? ? Hi]. split; [done|done|by rewrite Hi]. Qed.
Lemma moved_trans r1 r2 r3 : moved r1 r2 -> moved r2 r3 -> moved r1 r3.
Proof. intros [? ? ?] [? ? ?]. split; [done|congruence..]. Qed.
Lemma moved_kept_trans r1 r2 r3 : moved r1 r2 -> kept r2 r3 -> kept r1 r3.
Proof. intros [? ? Hi] [? ? Hk]. split; [done|congruence|]. intros o Ho. apply Hk. by rewrite Hi. Qed.

(** The file was seen through this session, and it is the file the recipe knew,
    or the recipe knew none and remembers this one. *)
Definition validated (r r' : Recipe.t) (file : FileHandle.t) (s' : session) : Prop :=
  exists s id, captured s file id s' /\
    match Recipe.identity r with
    | Some original => is_compatible_with original id = true
    | None => Recipe.identity r' = Some id
    end.

(** The durable handle kept, if any, is that of the file that was restored. *)
Definition durable_kept (r : Recipe.t) (file : FileHandle.t) : Prop :=
  match DurableRecoveryState.handle (Recipe.durable r) with
  | Some d => DurableFileHandle.file d = file
  | None => DurableRecoveryState.unavailable (Recipe.durable r) = true
  end.

Lemma moved_validated r r1 r' file s : moved r r1 -> validated r1 r' file s -> validated r r' file s.
Proof. intros [_ _ Hi] (s0 & id & Hc & Hv). exists s0, id. split; [done|]. by rewrite <- Hi. Qed.

Lemma recipe_wf_identity r id : recipe_wf r -> recipe_wf (Recipe.set_identity r id).
Proof. by intros [? ?]. Qed.
Lemma moved_unavailable r : recipe_wf r -> moved r (Recipe.set_unavailable r).
Proof. intros [? ?]. by split. Qed.
Lemma moved_handle r d : recipe_wf r ->
  (forall h, d = Some h ->
     len (DurableFileHandle.create_guid h) = 16 /\ FileHandle.wf (DurableFileHandle.file h)) ->
  moved r (Recipe.set_handle r d).
Proof. intros [Hg _] Hd. by split. Qed.

(** A wait leaves the recipe alone, and goes on or is where the work is dropped. *)
Definition waits (wait : rst place unit) : Prop := forall p,
  match wait p with
  | (Ok _, p') => p'.1 = p.1
  | (Err e, p') => e = ReconnectCancelled /\ p'.1 = p.1
  | _ => False
  end.

Context (wait : rst place unit) (Hwait : waits wait).

Lemma wait_runs {B} (k : unit -> rst place B) (p : place) (Q : outcome ReconnectError B -> place -> Prop) :
  (forall w, eruns (k tt) (p.1, w) Q) -> (forall w, Q (Err ReconnectCancelled) (p.1, w)) ->
  eruns (ebind wait k) p Q.
Proof.
  intros Hk He. pose proof (Hwait p) as Hw. apply eruns_bind. unfold eruns at 1.
  destruct (wait p) as [[[]|e| |] [recipe w]]; cbn [fst] in Hw; [subst; apply Hk| |done..].
  by destruct Hw as [-> ->].
Qed.

Lemma wait_in_place_runs {B} (k : unit -> rst restoring B) (p : place) (s : session)
    (Q : outcome ReconnectError B -> restoring -> Prop) :
  (forall w, eruns (k tt) ((p.1, w), s) Q) -> (forall w, Q (Err ReconnectCancelled) ((p.1, w), s)) ->
  eruns (ebind (in_place wait) k) (p, s) Q.
Proof.
  intros Hk He. pose proof (Hwait p) as Hw. apply eruns_bind. unfold eruns at 1, in_place.
  destruct (wait p) as [[[]|e| |] [recipe w]]; cbn [fst] in Hw; [subst; apply Hk| |done..].
  by destruct Hw as [-> ->].
Qed.

Lemma remember_runs patience file (p : place) (s : session) :
  session_wf s -> recipe_wf p.1 -> u64 (FileHandle.length_ file) ->
  eruns (remember_or_validate_file wait patience file) (p, s) (fun r '(p', s') =>
    session_wf s' /\ kept p.1 p'.1 /\ Recipe.durable p'.1 = Recipe.durable p.1 /\
    match r with
    | Ok (inr _) => validated p.1 p'.1 file s'
    | _ => True
    end).
Proof.
  intros Hs Hr Hl. unfold remember_or_validate_file.
  apply wait_in_place_runs; [|intros w'; by split_and!; [|apply moved_kept, moved_refl|..]].
  intros w'. apply eruns_bind, eruns_attempt.
  eapply runs_mono; [by apply capture_runs|]. cbn [fst snd].
  intros [id|e| |] s' [Hw Hc]; [|unfold eruns, eret; by split_and!; [|apply moved_kept, moved_refl|..]|done..].
  apply eruns_get. cbn [fst snd]. destruct (Recipe.identity p.1) as [original|] eqn:Hid.
  - apply eruns_attempt, runs_returns; [unfold validate_file_identity; by case_match|].
    cbn [fst snd]. unfold validate_file_identity. destruct (is_compatible_with original id) eqn:Hcomp.
    + split_and!; [done|by apply moved_kept, moved_refl|done|].
      exists s, id. split; [done|]. by rewrite Hid.
    + by split_and!; [|apply moved_kept, moved_refl|..].
  - apply eruns_modify. destruct p as [recipe w]. unfold eruns, eret. cbn [fst snd on_recipe] in *.
    split_and!; [done| |done|].
    + split; [by apply recipe_wf_identity|done|by rewrite Hid].
    + exists s, id. split; [done|]. by rewrite Hid.
Qed.

Lemma close_quietly_runs file (p : place) (s : session) : session_wf s ->
  eruns (close_quietly wait file) (p, s) (fun r '(p', s') => p'.1 = p.1 /\ session_wf s').
Proof.
  intros Hs. unfold close_quietly. apply wait_in_place_runs; [|done]. intros w'.
  apply eruns_bind, eruns_attempt.
  eapply runs_mono; [by apply close_file_runs|]. cbn [fst snd]. intros r s' Hc.
  apply one_close_wf in Hc. by destruct r.
Qed.

(** What a durable attempt comes to. *)
Definition durable_attempt (p : place) (r : outcome ReconnectError (option FileHandle.t))
    (x : restoring) : Prop :=
  let '(p', s') := x in
  session_wf s' /\ kept p.1 p'.1 /\
  match r with
  | Ok (Some file) => validated p.1 p'.1 file s' /\ durable_kept p'.1 file
  | Ok None => moved p.1 p'.1 /\ DurableRecoveryState.handle (Recipe.durable p'.1) = None
  | _ => True
  end.

Lemma adopt_runs patience opened forget (p : place) (s : session) :
  session_wf s -> recipe_wf p.1 -> len (DurableFileHandle.create_guid opened) = 16 ->
  FileHandle.wf (DurableFileHandle.file opened) ->
  eruns (rec! file := adopt_durable wait patience opened forget in eret (Some file)) (p, s)
    (fun r x => durable_attempt p r x /\ r <> Ok None).
Proof.
  intros Hs Hr Hg Hf. apply eruns_bind. unfold adopt_durable. apply eruns_bind.
  eapply eruns_mono; [apply remember_runs; [done|done|apply Hf]|].
  intros r [p1 s1] (Hw & Hk & Hd & Hv). destruct r as [[e|u]|e| |]; try done.
  - apply eruns_bind.
    assert (forall p2 : place, kept p.1 p2.1 -> eruns (rec! _ := close_quietly wait (DurableFileHandle.file opened) in
        efail (FromClient e)) (p2, s1) (fun r s2 =>
      match r with
      | Ok file => eruns (eret (Some file)) s2 (fun r x => durable_attempt p r x /\ r <> Ok None)
      | Err e => durable_attempt p (Err e) s2 /\
                 Err e <> (Ok None : outcome ReconnectError (option FileHandle.t))
      | _ => True
      end)) as Hclose.
    { intros p2 Hk2. apply eruns_bind. eapply eruns_mono; [by apply close_quietly_runs|].
      intros r [p3 s3] (Hp3 & Hw3). rewrite <- Hp3 in Hk2. destruct r; [by split|by split|done..]. }
    destruct forget; [apply eruns_mono with (P := fun r '(p2, s2) => r = Ok tt /\ s2 = s1 /\ kept p.1 p2.1)|].
    + destruct p1 as [recipe w]. unfold eruns, update_recipe, emodify. cbn. split; [done|]. split; [done|].
      destruct Hk as [Hkw Hkt Hki]. split; [by apply moved_handle|done|done].
    + intros r [p2 s2] (-> & -> & Hk2). by apply Hclose.
    + by apply Hclose.
  - apply eruns_modify. destruct p1 as [recipe w]. unfold eruns, eret. cbn.
    split; [|done]. split; [done|]. destruct Hk as [Hkw Hkt Hki]. split.
    + split; [apply moved_handle; [done|by intros h [= <-]]|done|done].
    + split; [|done]. destruct Hv as (s0 & id & Hc & Hv). exists s0, id. split; [done|].
      by destruct (Recipe.identity p.1).
Qed.

Lemma remembered_runs patience tree (p : place) (s : session) :
  session_wf s -> recipe_wf p.1 ->
  eruns (reconnect_remembered wait patience tree) (p, s) (durable_attempt p).
Proof.
  intros Hs Hr. unfold reconnect_remembered. apply eruns_get. cbn [fst snd].
  destruct (DurableRecoveryState.handle (Recipe.durable p.1)) as [existing|] eqn:Hex.
  2:{ unfold eruns, eret, durable_attempt. split; [done|].
      by split; [apply moved_kept, moved_refl|split; [apply moved_refl|]]. }
  destruct (recipe_handle _ Hr _ Hex) as [Hg Hf].
  apply wait_in_place_runs; [|intros w'; by split_and!; [|apply moved_kept, moved_refl|]].
  intros w'. change (durable_attempt p) with (durable_attempt (p.1, w')).
  change p.1 with (fst (p.1, w')) in Hr, Hex. generalize dependent (p.1, w'). clear p w'. intros p Hr Hex.
  apply eruns_bind, eruns_attempt. cbn [fst snd].
  eapply runs_mono; [by apply reconnect_file_durable_runs; [|done|apply Hf]|].
  intros r s1 Hd. apply durable_reconnected_wf in Hd as [Hs1 Hh]; [|done].
  assert (forall e, eruns (efail (FromClient e)) (p, s1) (durable_attempt p)) as Herr.
  { intros e. unfold eruns, efail, durable_attempt. by split_and!; [|apply moved_kept, moved_refl|]. }
  assert (moved p.1 (Recipe.set_handle p.1 None)) as Hnone by by apply moved_handle.
  destruct r as [refreshed|e| |]; try done.
  - destruct (Hh refreshed eq_refl) as [Hrf Hrg]. eapply eruns_mono; [apply adopt_runs; [done|done|by rewrite Hrg|done]|].
    by intros ? ? [? _].
  - destruct p as [recipe w]. cbn [fst snd] in *. destruct e; try apply Herr.
    + destruct (status =? STATUS_OBJECT_NAME_NOT_FOUND); [|apply Herr].
      apply eruns_modify. unfold eruns, eret, durable_attempt. cbn [on_recipe fst snd].
      by split_and!; [|apply moved_kept|..].
    + apply eruns_modify. unfold eruns, eret, durable_attempt. cbn [on_recipe fst snd].
      assert (moved recipe (Recipe.set_unavailable (Recipe.set_handle recipe None))).
      { eapply moved_trans; [exact Hnone|]. apply moved_unavailable, Hnone. }
      by split_and!; [|apply moved_kept|..].
Qed.

Lemma random_runs n (p : place) (Q : outcome ReconnectError bytes -> place -> Prop) :
  0 <= n -> (forall r w, len r = n -> Q (Ok r) (p.1, w)) -> (forall w, Q (Err RandomSource) (p.1, w)) ->
  eruns (random_bytes n) p Q.
Proof.
  intros Hn Hok Herr. unfold eruns, random_bytes. destruct p as [recipe w]. cbn [fst] in *.
  pose proof (fill_random_len n w) as Hl. destruct (fill_random n w) as [[r|] w']; cbn in *; [|done].
  apply Hok. by apply Hl.
Qed.

(** What a new durable open comes to: when it falls through, durable handles are
    out of use. *)
Definition durable_open_attempt (p : place) (r : outcome ReconnectError (option FileHandle.t))
    (x : restoring) : Prop :=
  durable_attempt p r x /\
  (r = Ok None -> DurableRecoveryState.unavailable (Recipe.durable x.1.1) = true).

Lemma open_durable_runs patience tree (p : place) (s : session) :
  session_wf s -> recipe_wf p.1 -> DurableRecoveryState.handle (Recipe.durable p.1) = None ->
  eruns (open_durable wait patience tree) (p, s) (durable_open_attempt p).
Proof.
  intros Hs Hr Hnone. unfold open_durable. apply eruns_get. cbn [fst snd].
  destruct (DurableRecoveryState.unavailable _) eqn:Hun.
  { unfold eruns, eret. split; [|done]. split; [done|].
    by split; [apply moved_kept, moved_refl|split; [apply moved_refl|]]. }
  apply eruns_bind. unfold in_place, eruns at 1.
  pose proof (random_runs 16 p (fun r p' => p'.1 = p.1 /\
    match r with Ok g => len g = 16 | _ => True end)) as Hrand.
  unfold random_guid. unfold eruns in Hrand.
  destruct (random_bytes 16 p) as [r [recipe w]]. 
  assert (match r with Panic => False | OutOfFuel => True | _ => recipe = p.1 /\
    match r with Ok g => len g = 16 | _ => True end end) as Hr'.
  { destruct r; apply Hrand; by try lia. }
  clear Hrand. destruct r as [guid|e| |]; [|..]; [|destruct Hr' as [-> _]|done..].
  2:{ split; [|done]. by split_and!; [|apply moved_kept, moved_refl|]. }
  destruct Hr' as [-> Hg].
  apply wait_in_place_runs; [|intros w'; split; [|done]; by split_and!; [|apply moved_kept, moved_refl|]].
  cbn [fst]. clear w. intros w. apply eruns_bind, eruns_attempt. cbn [fst snd].
  eapply runs_mono; [apply open_file_durable_runs; [done|done|by vm_compute]|].
  intros r s1 Hd. apply durable_opened_wf in Hd as [Hs1 Hh]; [|done].
  destruct r as [opened|e| |]; try done.
  - destruct (Hh opened eq_refl) as [Hof Hog].
    eapply eruns_mono; [apply (adopt_runs patience opened false (p.1, w)); [done|done|by rewrite Hog|done]|].
    intros r x [Ha Hno]. by split.
  - assert (forall e, eruns (efail (FromClient e)) (p.1, w, s1) (durable_open_attempt p)) as Herr.
    { intros e'. unfold eruns, efail. split; [|done]. by split_and!; [|apply moved_kept, moved_refl|]. }
    destruct e; try apply Herr. apply eruns_modify. unfold eruns, eret.
    split; [|done]. cbn. split_and!; [done|by apply moved_kept, moved_unavailable|
      by apply moved_unavailable|done].
Qed.

(** What restoring the file comes to. *)
Definition restored (r : Recipe.t) (o : outcome ReconnectError FileHandle.t) (x : restoring) : Prop :=
  session_wf x.2 /\ kept r x.1.1 /\
  match o with
  | Ok file => validated r x.1.1 file x.2 /\
      (Target.durable_v2_enabled (Recipe.target r) = true -> durable_kept x.1.1 file)
  | _ => True
  end.

(** By path, once durable handles are out of the way. *)
Lemma reopen_runs patience tree r (p : place) (s : session) :
  session_wf s -> moved r p.1 ->
  (Target.durable_v2_enabled (Recipe.target r) = true ->
   DurableRecoveryState.handle (Recipe.durable p.1) = None /\
   DurableRecoveryState.unavailable (Recipe.durable p.1) = true) ->
  eruns (rec! _ := in_place wait in
         rec! file := in_session (open_file tree (Target.path (Recipe.target r))
                                    FileOpenOptions.read_existing_random) in
         rec! checked := remember_or_validate_file wait patience file in
         match checked with
         | inl error => efail (FromClient error)
         | inr _ => eret file
         end) (p, s) (restored r).
Proof.
  intros Hs Hm Hdur.
  apply wait_in_place_runs; [|intros w'; by split_and!; [|apply moved_kept|]]. intros w'.
  apply eruns_bind, eruns_client_on. cbn [fst snd]. unfold open_file.
  apply runs_bind. eapply runs_mono; [by apply open_file_runs|].
  intros o s1 Hopen. apply one_open_wf in Hopen as Hs1; [|done].
  destruct o as [result|e| |]; [|by split_and!; [|apply moved_kept|]|done..].
  apply one_open_handle in Hopen as Hf. unfold runs, sret. cbn.
  apply eruns_bind. eapply eruns_mono; [apply remember_runs; [done|apply Hm|apply Hf]|].
  intros o [p2 s2] (Hs2 & Hk & Hd & Hv). destruct o as [[e|u]|e| |]; try done.
  - unfold eruns, efail. split_and!; [done|by eapply moved_kept_trans|done].
  - unfold eruns, eret. split_and!; [done|by eapply moved_kept_trans|by eapply moved_validated|].
    intros He. unfold durable_kept. cbn [fst snd] in *. rewrite Hd. destruct (Hdur He) as [-> ->]. done.
  - split_and!; [done|by eapply moved_kept_trans|done].
Qed.

Lemma restore_runs patience (p : place) (s : session) : session_wf s -> recipe_wf p.1 ->
  eruns (restore_file wait patience) (p, s) (restored p.1).
Proof.
  intros Hs Hr. unfold restore_file. apply eruns_get. cbn [fst snd].
  apply wait_in_place_runs; [|intros w'; by split_and!; [|apply moved_kept, moved_refl|]].
  intros w'. apply eruns_bind, eruns_client_on. cbn [fst snd].
  eapply runs_mono; [by apply tree_connect_runs|].
  intros o s1 (charge & required & _ & es & Ha & _).
  assert (session_wf s1) as Hs1 by apply Ha.
  destruct o as [tree|e| |]; [|by split_and!; [|apply moved_kept, moved_refl|]|done..].
  apply eruns_bind. destruct (Target.durable_v2_enabled _) eqn:Hen; cbn [negb].
  2:{ unfold eruns at 1, eret at 1. cbn [from_client omap_err].
      apply reopen_runs; [done|by apply moved_refl|by rewrite Hen]. }
  apply eruns_bind. eapply eruns_mono; [by apply remembered_runs|].
  intros o [p2 s2] (Hs2 & Hk2 & Ho). destruct o as [[file|]|e| |]; try done.
  - unfold eruns, eret. cbn. destruct Ho. by split_and!.
  - destruct Ho as [Hm Hnone].
    eapply eruns_mono; [apply open_durable_runs; [done|apply Hm|done]|].
    intros o [p3 s3] ((Hs3 & Hk3 & Ho) & Hun). destruct o as [[file|]|e| |]; try done.
    + unfold eruns, eret. destruct Ho as [Hv Hd].
      split_and!; [done|by eapply moved_kept_trans|by eapply moved_validated|done].
    + destruct Ho as [Hm3 Hnone3].
      apply reopen_runs; [done|by eapply moved_trans|]. intros _. split; [done|by apply Hun].
    + split_and!; [done|by eapply moved_kept_trans|done].
Qed.

Lemma client_guid_runs (p : place) (Q : outcome ReconnectError bytes -> place -> Prop) :
  recipe_wf p.1 -> (forall guid p', len guid = 16 -> moved p.1 p'.1 -> Q (Ok guid) p') ->
  (forall w, Q (Err RandomSource) (p.1, w)) -> eruns client_guid p Q.
Proof.
  intros Hr Hok Herr. unfold client_guid. apply eruns_get.
  destruct (Recipe.client_guid p.1) as [guid|] eqn:Hg.
  - unfold eruns, eret. apply Hok; [by apply (recipe_guid _ Hr)|by apply moved_refl].
  - apply eruns_bind, random_runs; [lia| |done]. intros guid w Hl. apply eruns_modify.
    unfold eruns, eret. apply Hok; [done|]. cbn. split; [|done|done].
    split; [by intros ? [= <-]|apply (recipe_handle _ Hr)].
Qed.

Lemma authenticate_runs g (c : Connection.t T) : Connection.wf c ->
  meets (authenticate g c) session_wf \/ authenticate g c = OutOfFuel.
Proof.
  intros Hc. unfold authenticate.
  destruct (is_empty _).
  - pose proof (session_setup_runs SessionSetupConfig.default (c, NullSession.new) Hc) as Hr.
    unfold runs in Hr. destruct (session_setup _ _) as [[s|e| |] w']; cbn; [left|by left|done|by right].
    by apply set_up_wf in Hr.
  - pose proof (session_setup_runs SessionSetupConfig.default
      (c, ntlm_new (ntlm_credentials g)) Hc) as Hr.
    unfold runs in Hr. destruct (session_setup _ _) as [[s|e| |] w']; cbn; [left|by left|done|by right].
    by apply set_up_wf in Hr.
Qed.

Lemma open_session_runs g guid salt t : len guid = 16 ->
  meets (open_session g guid salt t) session_wf \/ open_session g guid salt t = OutOfFuel.
Proof.
  intros Hg. unfold open_session.
  pose proof (Connection.negotiate_runs (NegotiateConfig.modern guid salt) (Connection.new t) Hg) as Hn.
  assert (Connection.wf (Connection.new t)) as Hwf by (split; [uint_solve|done..]).
  specialize (Hn Hwf). unfold runs in Hn.
  destruct (Connection.negotiate _ _) as [[n|e| |] c]; [|by left|done|by right].
  destruct Hn as [Hwc _]. by apply authenticate_runs.
Qed.

Lemma establish_session_runs (p : place) : recipe_wf p.1 ->
  eruns (establish_session wait) p (fun r p' => moved p.1 p'.1 /\
    match r with Ok s => session_wf s | _ => True end).
Proof.
  intros Hr. unfold establish_session. apply eruns_bind, client_guid_runs; [done| |].
  2:{ intros w. split; [by apply moved_refl|done]. }
  intros guid p1 Hg Hm1. apply eruns_bind, random_runs; [lia| |by intros w].
  intros salt w0 Hsalt. apply eruns_get. cbn [fst snd]. apply wait_runs; [|done]. cbn [fst]. intros w.
  apply eruns_bind.
  pose proof (tcp_connect_returns (Target.host (Recipe.target p1.1)) (Target.port (Recipe.target p1.1)) w)
    as Hc. unfold eruns at 1. destruct (tcp_connect _ _ w) as [[t|e| |] w2]; [|done..].
  cbn [from_client omap_err]. apply wait_runs; [|done]. cbn [fst]. intros w3. unfold eruns.
  destruct (open_session_runs (Recipe.target p1.1) guid salt t Hg) as [Ha| ->]; [|done].
  by destruct (open_session _ _ _ _).
Qed.

(** What connecting through a recipe comes to. *)
Definition connected (recipe : Recipe.t) (r : outcome ReconnectError (session * FileHandle.t))
    (recipe' : Recipe.t) : Prop :=
  kept recipe recipe' /\
  match r with
  | Ok (s, file) => session_wf s /\ validated recipe recipe' file s /\
      (Target.durable_v2_enabled (Recipe.target recipe) = true -> durable_kept recipe' file)
  | _ => True
  end.

Lemma connect_waiting_runs patience (p : place) : recipe_wf p.1 ->
  eruns (connect_waiting wait patience) p (fun r p' => connected p.1 r p'.1).
Proof.
  intros Hr. unfold connect_waiting. apply eruns_bind.
  eapply eruns_mono; [by apply establish_session_runs|]. intros r p1 [Hm Hs].
  destruct r as [s|e| |]; [|split; [by apply moved_kept|done]|done..].
  pose proof (restore_runs patience p1 s Hs (moved_wf _ _ Hm)) as Hrest.
  unfold eruns in *. destruct (restore_file wait patience (p1, s)) as [[file|e| |] [p2 s2]]; try done;
    destruct Hrest as (Hs2 & Hk & Hv); (split; [by eapply moved_kept_trans|]); [|done].
  destruct Hv as [Hv Hd]. cbn [fst snd] in *.
  split; [done|]. split; [by eapply moved_validated|]. intros He. apply Hd.
  by rewrite (moved_target _ _ Hm).
Qed.
End reconnect_laws.

Lemma connect_runs {T W} `{TransportSafe T} `{CryptoLaws} `{NtlmEnvironmentLaws} `{HostLaws T W}
    patience (p : Recipe.t * W) : recipe_wf p.1 ->
  eruns (connect_read_only_file patience) p (fun r p' => connected p.1 r p'.1).
Proof. intros Hp. by apply connect_waiting_runs. Qed.

#[local] Instance watched_host_laws {T W} `{HostLaws T W} : HostLaws T (W * ReadCancellationToken.t).
Proof.
  split.
  - intros m. apply (sha256_len (T:=T) (W:=W)).
  - intros host port [w token]. cbn. pose proof (tcp_connect_returns host port w).
    by destruct (tcp_connect host port w).
  - intros n [w token] r Hn. cbn. pose proof (fill_random_len n w r Hn).
    by destruct (fill_random n w).
Qed.

Lemma wait_current_waits {W} generation : waits (W := W * ReadCancellationToken.t) (wait_current generation).
Proof.
  intros [recipe [w token]]. unfold wait_current, ReadCancellationToken.changed.
  by destruct (ReadCancellationToken.counter _ =? generation).
Qed.

Lemma connect_cancelable_runs {T W} `{TransportSafe T} `{CryptoLaws} `{NtlmEnvironmentLaws}
    `{HostLaws T W} patience generation (p : Recipe.t * (W * ReadCancellationToken.t)) : recipe_wf p.1 ->
  eruns (connect_read_only_file_cancelable patience generation) p (fun r p' => connected p.1 r p'.1).
Proof.
  intros Hp. unfold connect_read_only_file_cancelable.
  apply wait_runs; [apply wait_current_waits| |].
  - intros w. eapply eruns_mono; [apply connect_waiting_runs; [apply wait_current_waits|exact Hp]|].
    intros r p' Hr. exact Hr.
  - intros w. split; [by apply moved_kept, moved_refl|done].
Qed.

(** ** What connecting leaves of the world *)

Section world.
Context {T W : Type} `{Transport T} `{Crypto} `{NtlmEnvironment} `{Host T W}.
#[local] Abbreviation place := (Recipe.t * W)%type.
#[local] Abbreviation restoring := (place * SessionConnection.t T)%type.
(** [safe n] is what holds after [n] waits at least; the work between two waits
    keeps it, a wait takes it one further, and to be dropped at one means
    [dropped]. *)
Context (safe : nat -> W -> Prop) (dropped : W -> Prop) (wait : rst place unit).
Context (Hless : forall n m w, (m <= n)%nat -> safe n w -> safe m w).
Context (Hfill : forall n i w, safe n w -> safe n (snd (fill_random i w))).
Context (Htcp : forall n host port w, safe n w -> safe n (snd (tcp_connect host port w))).

(** How far a result is. *)
Definition left_safe {A} (N : A -> nat) (r : outcome ReconnectError A) (w : W) : Prop :=
  match r with
  | Ok a => safe (N a) w
  | Err ReconnectCancelled => dropped w
  | _ => safe 0 w
  end.
Definition safe_place {A} (n : nat) (m : rst place A) (N : A -> nat) : Prop :=
  forall p, safe n (snd p) -> left_safe N (fst (m p)) (snd (snd (m p))).
Definition safe_restoring {A} (n : nat) (m : rst restoring A) (N : A -> nat) : Prop :=
  forall x, safe n (snd (fst x)) -> left_safe N (fst (m x)) (snd (fst (snd (m x)))).
Context (Hwaits : forall n, safe_place n wait (fun _ => S n)).

Lemma safe_place_bind {A B} n (m : rst place A) N (k : A -> rst place B) N' :
  safe_place n m N -> (forall a, safe_place (N a) (k a) N') -> safe_place n (ebind m k) N'.
Proof.
  intros Hm Hk p Hp. specialize (Hm p Hp). unfold ebind, left_safe in *.
  destruct (m p) as [[a|[]| |] p']; cbn [fst snd] in *; [by apply Hk|done..].
Qed.
Lemma safe_restoring_bind {A B} n (m : rst restoring A) N (k : A -> rst restoring B) N' :
  safe_restoring n m N -> (forall a, safe_restoring (N a) (k a) N') -> safe_restoring n (ebind m k) N'.
Proof.
  intros Hm Hk p Hp. specialize (Hm p Hp). unfold ebind, left_safe in *.
  destruct (m p) as [[a|[]| |] p']; cbn [fst snd] in *; [by apply Hk|done..].
Qed.

(** Further than is needed. *)
Lemma safe_restoring_less {A} n m (x : rst restoring A) N N' : (m <= n)%nat ->
  (forall a, N' a <= N a)%nat -> safe_restoring m x N -> safe_restoring n x N'.
Proof.
  intros Hn HN Hx p Hp. specialize (Hx p (Hless _ _ _ Hn Hp)). unfold left_safe in *.
  destruct (fst (x p)) as [a|[]| |]; try done. eapply Hless; [apply HN|exact Hx].
Qed.

Lemma safe_eret {A} n (a : A) : safe_restoring n (eret a) (fun _ => n).
Proof. by intros p Hp. Qed.
Lemma safe_efail {A} n e (N : A -> nat) : e <> ReconnectCancelled -> safe_restoring n (efail e) N.
Proof. intros He p Hp. destruct e; try done; cbn; by eapply Hless, Hp; lia. Qed.
Lemma safe_eget {A} n (f : restoring -> A) : safe_restoring n (eget f) (fun _ => n).
Proof. by intros p Hp. Qed.
Lemma safe_in_place {A} n (m : rst place A) N : safe_place n m N -> safe_restoring n (in_place m) N.
Proof. intros Hm [p s] Hp. specialize (Hm p Hp). unfold in_place. by destruct (m p). Qed.
Lemma safe_try {A} n (m : st (SessionConnection.t T) A) : safe_restoring n (try_session m) (fun _ => n).
Proof.
  intros [p s] Hp. unfold try_session, attempt. cbn.
  destruct (m s) as [[] s']; try done; cbn; by eapply Hless, Hp; lia.
Qed.
Lemma safe_session {A} n (m : st (SessionConnection.t T) A) : safe_restoring n (in_session m) (fun _ => n).
Proof.
  intros [p s] Hp. unfold in_session, client_on. cbn.
  destruct (m s) as [[] s']; try done; cbn; by eapply Hless, Hp; lia.
Qed.
Lemma safe_update n f : safe_restoring n (update_recipe f) (fun _ => n).
Proof. by intros [[recipe w] s] Hp. Qed.
Lemma safe_random n i : safe_place n (random_bytes i) (fun _ => n).
Proof.
  intros [recipe w] Hp. unfold random_bytes. specialize (Hfill n i w Hp).
  destruct (fill_random i w) as [[] w']; cbn in *; [done|]. eapply Hless, Hfill; lia.
Qed.
Lemma safe_wait n : safe_restoring n (in_place wait) (fun _ => S n).
Proof. apply safe_in_place, Hwaits. Qed.
Lemma safe_guid n : safe_restoring n (in_place random_guid) (fun _ => n).
Proof. apply safe_in_place, safe_random. Qed.

#[local] Hint Resolve safe_eret safe_eget safe_try safe_session safe_update safe_wait safe_guid : safe.
#[local] Hint Extern 1 (safe_restoring _ (efail _) _) => apply safe_efail; done : safe.

(** Takes the steps of a part one by one. *)
Ltac safe_steps :=
  repeat first
    [ progress cbv beta zeta
    | eapply safe_restoring_bind; [solve [auto with safe]|intros]
    | lazymatch goal with |- safe_restoring _ (match ?x with _ => _ end) _ => destruct x end
    | solve [auto with safe]
    | solve [eapply safe_restoring_less; [| |solve [auto with safe]]; [lia|intros; cbn; lia]] ].

Lemma safe_remember n patience file :
  safe_restoring n (remember_or_validate_file wait patience file) (fun _ => S n).
Proof. unfold remember_or_validate_file. safe_steps. Qed.
Lemma safe_close n file : safe_restoring n (close_quietly wait file) (fun _ => S n).
Proof. unfold close_quietly. safe_steps. Qed.
#[local] Hint Resolve safe_remember safe_close : safe.
Lemma safe_adopt n patience opened forget :
  safe_restoring n (adopt_durable wait patience opened forget) (fun _ => S n).
Proof.
  unfold adopt_durable. eapply safe_restoring_bind; [apply safe_remember|]. intros [e|u].
  - eapply safe_restoring_bind with (N := fun _ => S n); [by destruct forget; auto with safe|]. intros _. safe_steps.
  - safe_steps.
Qed.
#[local] Hint Resolve safe_adopt : safe.

(** A durable handle takes two waits; without one it may have been none. *)
Definition durable_level (n : nat) (file : option FileHandle.t) : nat :=
  match file with Some _ => 2 + n | None => n end.
Lemma safe_some n m (file : FileHandle.t) : (2 + n <= m)%nat ->
  safe_restoring m (eret (Some file)) (durable_level n).
Proof. intros Hl p Hp. by eapply Hless, Hp. Qed.
Lemma safe_none n m : (n <= m)%nat -> safe_restoring m (eret None) (durable_level n).
Proof. intros Hl p Hp. by eapply Hless, Hp. Qed.
#[local] Hint Extern 1 (safe_restoring _ (eret (Some _)) (durable_level _)) => apply safe_some; lia : safe.
#[local] Hint Extern 1 (safe_restoring _ (eret None) (durable_level _)) => apply safe_none; lia : safe.

Lemma safe_remembered n patience tree :
  safe_restoring n (reconnect_remembered wait patience tree) (durable_level n).
Proof. unfold reconnect_remembered. safe_steps. Qed.
Lemma safe_open_durable n patience tree :
  safe_restoring n (open_durable wait patience tree) (durable_level n).
Proof. unfold open_durable. safe_steps. Qed.
#[local] Hint Resolve safe_remembered safe_open_durable : safe.

(** Restoring the file waits three times at least. *)
Lemma safe_restore n patience : safe_restoring n (restore_file wait patience) (fun _ => 3 + n)%nat.
Proof.
  unfold restore_file. do 3 (eapply safe_restoring_bind; [solve [auto with safe]|intros]). cbn beta.
  eapply safe_restoring_bind with (N := durable_level (S n)).
  - destruct (Target.durable_v2_enabled _); [|auto with safe].
    eapply safe_restoring_bind; [apply safe_remembered|]. intros [file|]; cbn [durable_level]; auto with safe.
  - intros [file|]; cbn [durable_level]; safe_steps.
Qed.

Lemma safe_establish n : safe_place n (establish_session wait) (fun _ => 2 + n)%nat.
Proof.
  unfold establish_session. eapply safe_place_bind with (N := fun _ => n).
  { unfold client_guid. eapply safe_place_bind with (N := fun _ => n); [by intros p Hp|]. intros [guid|].
    - by intros p Hp.
    - eapply safe_place_bind; [apply safe_random|]. intros guid.
      eapply safe_place_bind with (N := fun _ => n); [by intros [recipe w] Hp|by intros _ p Hp]. }
  intros guid. eapply safe_place_bind; [apply safe_random|]. intros salt.
  eapply safe_place_bind with (N := fun _ => n); [by intros p Hp|]. intros g.
  eapply safe_place_bind; [apply Hwaits|]. intros [].
  eapply safe_place_bind with (N := fun _ => S n).
  { intros [recipe w] Hp. pose proof (Htcp (S n) (Target.host g) (Target.port g) w Hp) as Hw.
    destruct (tcp_connect _ _ w) as [[] w']; cbn in *; [done|eapply Hless, Hw; lia..]. }
  intros transport. eapply safe_place_bind; [apply Hwaits|]. intros [] p Hp.
  destruct (open_session _ _ _ _); try done; cbn; by eapply Hless, Hp; lia.
Qed.

(** A connection that was made waited five times at least. *)
Lemma connect_waiting_safe n patience :
  safe_place n (connect_waiting wait patience) (fun _ => 5 + n)%nat.
Proof.
  unfold connect_waiting. eapply safe_place_bind; [apply safe_establish|]. intros s p Hp.
  pose proof (safe_restore (2 + n) patience (p, s) Hp) as Hr. unfold left_safe in *.
  by destruct (restore_file wait patience (p, s)) as [[|[]| |] [p' s']].
Qed.
End world.

(** ** Properties *)

(** C25: a restored file is the file the recipe knew. Whatever the servers
    behind the host answer, connecting through a recipe does not panic and keeps
    the recipe well formed with its target, and an identity it has learnt is
    never replaced. When it yields a file, the file's length, time and samples
    were read through the very session that is returned, and either they are
    compatible with the identity the recipe knew, or it knew none and now
    remembers this one. With durable handles enabled, the durable handle kept is
    that of the returned file, and without one durable handles are out of use.
    All this holds of the cancelable form, too, at whatever wait it is dropped. *)
Theorem reconnect_sound {T W} `{TransportSafe T} `{CryptoLaws} `{NtlmEnvironmentLaws}
    `{HostLaws T W} (patience : nat) (recipe : Recipe.t) (w : W) (token : ReadCancellationToken.t)
    (generation : Z) (Hrecipe : recipe_wf recipe) :
  let sound (r : outcome ReconnectError (SessionConnection.t T * FileHandle.t)) recipe' :=
    recipe_wf recipe' /\ Recipe.target recipe' = Recipe.target recipe /\
    (forall o, Recipe.identity recipe = Some o -> Recipe.identity recipe' = Some o) /\
    match r with
    | Ok (s, file) => session_wf s /\ validated recipe recipe' file s /\
        (Target.durable_v2_enabled (Recipe.target recipe) = true -> durable_kept recipe' file)
    | _ => True
    end in
  eruns (connect_read_only_file patience) (recipe, w) (fun r p' => sound r (fst p')) /\
  eruns (connect_read_only_file_cancelable patience generation) (recipe, (w, token))
    (fun r p' => sound r (fst p')).
Proof.
  split.
  - eapply eruns_mono; [by apply connect_runs|]. intros r p' [[Hw Ht Hi] Hr]. by split_and!.
  - eapply eruns_mono; [by apply connect_cancelable_runs|]. intros r p' [[Hw Ht Hi] Hr]. by split_and!.
Qed.

(** A host whose world is a queue of the responses of each connection to come,
    after which the server hangs up, and whose random bytes are all alike. *)
#[local] Instance toy_host : Host TcpTransport.t (list (list bytes)) := {|
  sha256 := fun m => toy_digest m ++ toy_digest (x00 :: m);
  tcp_connect := fun _ _ w =>
    match w with
    | [] => (TcpTransport.connect TcpTransportConfig.default (Err (Io (OtherIo 111))), [])
    | responses :: w =>
        (TcpTransport.connect TcpTransportConfig.default
           (Ok (mkTcpStream ((ReadData <$> map frame_of responses) ++ [ReadData []])
                  (replicate 8 WriteDone) [])), w)
    end;
  fill_random := fun n w => (Some (replicate (Z.to_nat n) x2a), w)
|}.

#[local] Existing Instance toy_environment.
#[local] Existing Instance toy_environment_laws.
#[local] Existing Instance toy_crypto.
#[local] Existing Instance toy_laws.

#[local] Instance toy_host_laws : HostLaws TcpTransport.t (list (list bytes)).
Proof.
  split; cbn; [intros m; unfold toy_digest; by rewrite len_app, !len_le_bytes|by intros _ _ [|]|].
  intros n w r Hn [= <-]. by rewrite len_replicate, Z2Nat.id.
Qed.

(** A server that negotiates SMB 3.1.1, accepts a null session and holds a file
    of three bytes. *)
Definition reply (cmd : Command.t) (st id session_id : Z) (body : bytes) : bytes :=
  header_bytes (mkSmb2Header 1 (Status st) cmd 4 flags.SERVER_TO_REDIR 0 id (Sync 0 5) session_id
                  (replicate 16 x00)) ++ body.
Definition setup_reply (id st session_flags : Z) (blob : bytes) : bytes :=
  reply Command.SessionSetup st id 77
    (le_bytes 2 9 ++ le_bytes 2 session_flags ++ le_bytes 2 72 ++ le_bytes 2 (len blob) ++ blob).
Definition create_reply (id : Z) : bytes :=
  reply Command.Create 0 id 77
    (le_bytes 2 89 ++ [x00; x00] ++ le_bytes 4 1 ++ le_bytes 8 0 ++ le_bytes 8 0 ++ le_bytes 8 0
     ++ le_bytes 8 0 ++ le_bytes 8 4096 ++ le_bytes 8 3 ++ le_bytes 4 32 ++ le_bytes 4 0
     ++ file_id_bytes sample_file_id ++ le_bytes 4 0 ++ le_bytes 4 0).
Definition read_reply (id : Z) (data : bytes) : bytes :=
  reply Command.Read 0 id 77
    (le_bytes 2 17 ++ [x50; x00] ++ le_bytes 4 (len data) ++ le_bytes 4 0 ++ le_bytes 4 0 ++ data).
Definition file_server (data : bytes) : list bytes :=
  [ sample_response;
    setup_reply 1 STATUS_MORE_PROCESSING_REQUIRED 0 (encode_neg_token_resp_ntlm sample_challenge);
    setup_reply 2 0 2 [];
    reply Command.TreeConnect 0 3 77 (le_bytes 2 16 ++ [x01; x00] ++ le_bytes 4 0 ++ le_bytes 4 0
                                      ++ le_bytes 4 0x1F01FF);
    create_reply 4;
    read_reply 5 data ].

Definition sample_recipe : Recipe.t :=
  Recipe.new [115] 445 [118] sample_path [] [] [] [].

(** The recipe after a first connection. *)
Definition restored_once : Recipe.t * list (list bytes) :=
  (connect_read_only_file 4 (sample_recipe, [file_server [x01; x02; x03]; file_server [x01; x02; x03]])).2.

(** It comes back to the same file; had the file's contents changed, it would
    not. *)
Lemma reconnect_sound_witness :
  exists s (file : FileHandle.t) p', validated restored_once.1 p' file s /\
    is_Some (Recipe.identity restored_once.1) /\ FileHandle.length_ file = 3 /\
    (connect_read_only_file 4 (restored_once.1, [file_server [x01; x02; x04]])).1
    = Err (FromClient (Protocol "SMB file changed while reconnecting by path")).
Proof.
  assert (recipe_wf restored_once.1) as Hw.
  { split; intros x E; vm_compute in E; [by injection E as <-|discriminate E]. }
  destruct (eruns_ended _ _ _ (fun x _ => FileHandle.length_ x.2 =? 3)
      (proj1 (reconnect_sound 4 restored_once.1 restored_once.2 (ReadCancellationToken.new []) 0 Hw)))
    as ([s file] & [p' w] & (_ & _ & _ & _ & Hv & _) & Hl%Z.eqb_eq);
    [vm_compute; reflexivity|].
  exists s, file, p'. split; [exact Hv|]. split; [eexists; vm_compute; reflexivity|].
  split; [exact Hl|vm_compute; reflexivity].
Defined.
