(* ===== verification/RecoveringRead.v ===== *)
(** * Reads that survive a lost connection

    [crates/smb-client/src/recovering_read.rs]: a long-lived read-only file whose
    reads are replayed at most once, after the recipe has restored the file. What
    the delay between connection attempts takes is not modelled. The cancelable
    reads are in [RecoveringCancel]. *)
From S2P Require Import Prelude WireError Utf16 Frame Header Create CreateContext Durable.
From S2P Require Import Negotiate SessionMessages FileControl.
From S2P Require Import Client Effects Credits MessageIds AsyncResponse Transport Signing Connection.
From S2P Require Import Auth Session Exchange Tree Files Write Read PipelinedRead DurableOpen.
From S2P Require Import Spnego Ntlm Anonymous Reconnect.

Module ReadReconnectPolicy.
Record t : Type := mk { max_connect_attempts : Z; backoff : Z }.
Definition default : t := mk 1 0.
End ReadReconnectPolicy.

Definition is_retryable_reconnect_error (error : ReconnectError) : bool :=
  match error with
  | FromClient error => is_retryable_client_error error
  | _ => false
  end.

Definition map_client_error (error : ClientError) : ReconnectError :=
  match error with
  | Cancelled => ReconnectCancelled
  | other => FromClient other
  end.

Section recovering_read.
Context {T W : Type} `{Transport T} `{Crypto} `{NtlmEnvironment} `{Host T W}.

(** The file, with the world its recipe is used in. *)
Record RecoveringReadOnlyFile : Type := mkRecoveringReadOnlyFile {
  recipe : Recipe.t;
  world : W;
  policy : ReadReconnectPolicy.t;
  session : SessionConnection.t T;
  file : FileHandle.t
}.

Definition set_session (f : RecoveringReadOnlyFile) (s : SessionConnection.t T) :
    RecoveringReadOnlyFile :=
  mkRecoveringReadOnlyFile (recipe f) (world f) (policy f) s (file f).
Definition set_place (f : RecoveringReadOnlyFile) (p : Recipe.t * W) : RecoveringReadOnlyFile :=
  mkRecoveringReadOnlyFile p.1 p.2 (policy f) (session f) (file f).
Definition set_open (f : RecoveringReadOnlyFile) (s : SessionConnection.t T) (h : FileHandle.t) :
    RecoveringReadOnlyFile :=
  mkRecoveringReadOnlyFile (recipe f) (world f) (policy f) s h.

(** The world is left behind also when the first connection fails. *)
Definition connect_with_policy (patience : nat) (policy : ReadReconnectPolicy.t)
    (p : Recipe.t * W) : outcome ReconnectError RecoveringReadOnlyFile * (Recipe.t * W) :=
  match connect_read_only_file patience p with
  | (Ok (session, file), p) => (Ok (mkRecoveringReadOnlyFile p.1 p.2 policy session file), p)
  | (Err e, p) => (Err e, p)
  | (Panic, p) => (Panic, p)
  | (OutOfFuel, p) => (OutOfFuel, p)
  end.

Definition connect (patience : nat) :
    Recipe.t * W -> outcome ReconnectError RecoveringReadOnlyFile * (Recipe.t * W) :=
  connect_with_policy patience ReadReconnectPolicy.default.

Definition should_recover (self : RecoveringReadOnlyFile) (error : ClientError) : bool :=
  (0 <? ReadReconnectPolicy.max_connect_attempts (policy self)) && is_retryable_client_error error.

(** The loop over the attempts that are left. *)
Fixpoint reconnect_loop (attempts patience : nat) (last_retryable : option ReconnectError) :
    rst RecoveringReadOnlyFile unit := fun self =>
  match attempts with
  | O => (Err (default (FromClient (Protocol "SMB reconnect attempts exhausted without an error"))
                       last_retryable), self)
  | S attempts =>
      match connect_read_only_file patience (recipe self, world self) with
      | (Ok (session, file), p) => (Ok tt, set_open (set_place self p) session file)
      | (Err error, p) =>
          if is_retryable_reconnect_error error
          then reconnect_loop attempts patience (Some error) (set_place self p)
          else (Err error, set_place self p)
      | (Panic, p) => (Panic, set_place self p)
      | (OutOfFuel, p) => (OutOfFuel, set_place self p)
      end
  end.

Definition reconnect (patience : nat) : rst RecoveringReadOnlyFile unit := fun self =>
  let attempts := ReadReconnectPolicy.max_connect_attempts (policy self) in
  if negb (0 <? attempts) then (Panic, self) else
  reconnect_loop (Z.to_nat attempts) patience None self.

Definition on_file {A} (op : FileHandle.t -> st (SessionConnection.t T) A) :
    rst RecoveringReadOnlyFile (ClientError + A) := fun self =>
  attempt session set_session (op (file self)) self.

(** The episode that [read_at] and [read_at_pipelined_with_options] share. *)
Definition with_recovery (patience : nat) (op : FileHandle.t -> st (SessionConnection.t T) bytes) :
    rst RecoveringReadOnlyFile bytes :=
  rec! first := on_file op in
  match first with
  | inr data => eret data
  | inl error =>
      rec! recover := eget (fun self => should_recover self error) in
      if recover then
        rec! _ := reconnect patience in
        rec! second := on_file op in
        match second with
        | inr data => eret data
        | inl error => efail (map_client_error error)
        end
      else efail (map_client_error error)
  end.

Definition recovering_read_at (patience : nat) (offset length : Z) :
    rst RecoveringReadOnlyFile bytes :=
  with_recovery patience (fun file => Read.read_at patience file offset length).

Definition recovering_read_at_pipelined_with_options (patience : nat) (offset length : Z)
    (options : PipelinedReadOptions.t) : rst RecoveringReadOnlyFile bytes :=
  with_recovery patience (fun file =>
    PipelinedRead.read_at_pipelined_with_options patience file offset length options).

Definition recovering_read_at_pipelined (patience : nat) (offset length : Z) :
    rst RecoveringReadOnlyFile bytes :=
  recovering_read_at_pipelined_with_options patience offset length PipelinedReadOptions.default.

(** [close], which consumes the file. *)
Definition recovering_close (self : RecoveringReadOnlyFile) : client CloseInfo.t :=
  (close_file (file self) CloseOptions.default (session self)).1.

End recovering_read.
Arguments RecoveringReadOnlyFile : clear implicits.

(** ** What a read episode comes to *)

Section recovering_read_laws.
Context {T W : Type} `{TransportSafe T} `{CryptoLaws} `{NtlmEnvironmentLaws} `{HostLaws T W}.
#[local] Abbreviation recovering := (RecoveringReadOnlyFile T W).
#[local] Abbreviation session_of := (SessionConnection.t T).
#[local] Abbreviation reading := (session_of -> FileHandle.t -> client bytes -> session_of -> Prop).

(** A file that was connected once: its recipe knows which file it is. *)
Record recovering_wf (f : recovering) : Prop := {
  recovering_session : session_wf (session f);
  recovering_recipe : recipe_wf (recipe f);
  recovering_known : is_Some (Recipe.identity (recipe f))
}.

Lemma kept_trans r1 r2 r3 : kept r1 r2 -> kept r2 r3 -> kept r1 r3.
Proof. intros [? ? Hi] [? ? Hk]. split; [done|congruence|]. intros o Ho. by apply Hk, Hi. Qed.

Lemma kept_validated r r1 r' file (s : session_of) : is_Some (Recipe.identity r) ->
  kept r r1 -> validated r1 r' file s -> validated r r' file s.
Proof.
  intros [o Ho] [_ _ Hi] (s0 & id & Hc & Hv). exists s0, id. split; [done|]. rewrite Ho.
  by rewrite (Hi _ Ho) in Hv.
Qed.

Lemma kept_known r r' : kept r r' -> is_Some (Recipe.identity r) -> is_Some (Recipe.identity r').
Proof. intros [_ _ Hi] [o Ho]. exists o. by apply Hi. Qed.

(** What a reconnection leaves: the recipe's identity, and either the old
    session and file or a session whose file was seen to be the original one. *)
Definition reconnected (f : recovering) (r : outcome ReconnectError unit) (f' : recovering) : Prop :=
  kept (recipe f) (recipe f') /\ policy f' = policy f /\
  match r with
  | Ok _ => session_wf (session f') /\
      validated (recipe f) (recipe f') (file f') (session f')
  | _ => session f' = session f /\ file f' = file f
  end.

Lemma reconnect_loop_runs attempts patience : forall last (f : recovering), recovering_wf f ->
  eruns (reconnect_loop attempts patience last) f (reconnected f).
Proof.
  induction attempts as [|attempts IH]; intros last f Hf; unfold eruns; cbn [reconnect_loop].
  { by split; [apply moved_kept, moved_refl, Hf|]. }
  destruct f as [rec w pol ses h0], Hf as [Hs Hr Hk]. cbn [recipe world session] in *.
  pose proof (connect_runs patience (rec, w) Hr) as Hc. unfold eruns in Hc.
  destruct (connect_read_only_file patience (rec, w)) as [[[s h]|e| |] [rec' w']]; [| |done..];
    destruct Hc as [Hkept Hc]; cbn [fst] in *.
  - destruct Hc as (Hs' & Hv & _). by split_and!.
  - destruct (is_retryable_reconnect_error e); [|by split_and!].
    assert (recovering_wf (mkRecoveringReadOnlyFile rec' w' pol ses h0)) as Hf'.
    { split; [done|apply Hkept|by eapply kept_known]. }
    eapply eruns_mono; [by apply IH|]. intros r f' (Hk' & Hp & Hr').
    split; [by eapply kept_trans|]. split; [done|]. destruct r; [|done..].
    destruct Hr' as [? Hv]. split; [done|]. by eapply kept_validated.
Qed.

Lemma reconnect_runs patience (f : recovering) : recovering_wf f ->
  0 < ReadReconnectPolicy.max_connect_attempts (policy f) ->
  eruns (reconnect patience) f (reconnected f).
Proof.
  intros Hf Hp. unfold reconnect, eruns at 1. rewrite (proj2 (Z.ltb_lt _ _)) by done.
  by apply reconnect_loop_runs.
Qed.

(** One read, and at most one replay. The error of the first read is the
    caller's unless recovery applies; with recovery the file is the original
    one, seen through the new session, before the read is replayed on it. *)
Definition replayed (reads : reading) (f : recovering) (r : outcome ReconnectError bytes)
    (f' : recovering) : Prop :=
  exists first s1, reads (session f) (file f) first s1 /\
  match first with
  | Err e =>
      if should_recover f e then
        (exists f1 second s2, reconnected (set_session f s1) (Ok tt) f1 /\
           reads (session f1) (file f1) second s2 /\
           r = omap_err map_client_error second /\ f' = set_session f1 s2)
        \/ (exists e', reconnected (set_session f s1) (Err e') f' /\ r = Err e')
      else r = Err (map_client_error e) /\ f' = set_session f s1
  | _ => r = omap_err map_client_error first /\ f' = set_session f s1
  end.

Lemma on_file_runs {A B} (op : FileHandle.t -> st session_of A) (k : ClientError + A -> rst recovering B)
    (reads : client A -> session_of -> Prop) f Q :
  runs (op (file f)) (session f) reads ->
  (forall a s, reads (Ok a) s -> eruns (k (inr a)) (set_session f s) Q) ->
  (forall e s, reads (Err e) s -> eruns (k (inl e)) (set_session f s) Q) ->
  eruns (ebind (on_file op) k) f Q.
Proof.
  intros Hop Hok Herr. apply eruns_bind. unfold on_file, eruns at 1.
  apply (eruns_attempt session set_session). eapply runs_mono; [exact Hop|].
  intros [] s Hr; [by apply Hok|by apply Herr|done..].
Qed.

Lemma with_recovery_runs patience op (reads : reading) (f : recovering) : recovering_wf f ->
  (forall s h, session_wf s -> runs (op h) s (reads s h)) ->
  (forall s h r s', reads s h r s' -> session_wf s') ->
  eruns (with_recovery patience op) f (fun r f' => recovering_wf f' /\ replayed reads f r f').
Proof.
  intros Hf Hop Hwf.
  assert (forall f2 s, recovering_wf f2 -> session_wf s -> recovering_wf (set_session f2 s)) as Hset
    by (intros f2 s [? ? ?] ?; by split).
  unfold with_recovery. eapply on_file_runs; [apply Hop, Hf|intros data s1 Hr|intros e s1 Hr].
  { unfold eruns, eret. split; [by apply Hset; [|eapply Hwf]|]. by exists (Ok data), s1. }
  apply eruns_get. change (should_recover (set_session f s1) e) with (should_recover f e).
  destruct (should_recover f e) eqn:Hrec.
  2:{ unfold eruns, efail. split; [by apply Hset; [|eapply Hwf]|]. exists (Err e), s1.
      split; [done|]. by rewrite Hrec. }
  assert (recovering_wf (set_session f s1)) as Hf1 by (by apply Hset; [|eapply Hwf]).
  apply eruns_bind. eapply eruns_mono; [apply reconnect_runs; [done|]|].
  { unfold should_recover in Hrec. apply andb_true_iff in Hrec as [Hp _]. by apply Z.ltb_lt. }
  intros [[]|e'| |] f1 Hc; [| |done..].
  2:{ destruct Hc as (Hk & Hp & Hs & Hh). split.
      - split; [by rewrite Hs; apply Hf1|apply Hk|by eapply kept_known; [|apply Hf1]].
      - exists (Err e), s1. split; [done|]. rewrite Hrec. right. exists e'. by split. }
  assert (recovering_wf f1) as Hf2.
  { destruct Hc as (Hk & _ & Hs & _). split; [done|apply Hk|by eapply kept_known; [|apply Hf1]]. }
  eapply on_file_runs; [apply Hop, Hf2|intros data s2 Hr2|intros e2 s2 Hr2]; unfold eruns, eret, efail.
  - split; [by apply Hset; [|eapply Hwf]|]. exists (Err e), s1. split; [done|]. rewrite Hrec. left.
    by exists f1, (Ok data), s2.
  - split; [by apply Hset; [|eapply Hwf]|]. exists (Err e), s1. split; [done|]. rewrite Hrec. left.
    by exists f1, (Err e2), s2.
Qed.

(** A read of the file as far as the handle says it goes, and its pipelined
    form. *)
Definition read_from (offset length : Z) : reading := fun s file r s' =>
  read_result s file offset (Z.max 0 (Z.min length (FileHandle.length_ file - offset))) [] r s'.

Definition pipelined_from (offset length : Z) (options : PipelinedReadOptions.t) : reading :=
  fun s file r s' => exists r', pipelined_result s file offset length options r' s' /\
    match r, r' with
    | Ok data, Ok res => data = PipelinedReadResult.data res
    | Err e, Err e' => e = e'
    | _, _ => False
    end.

Lemma recovering_read_runs patience offset length (f : recovering) : recovering_wf f -> 0 <= length ->
  eruns (recovering_read_at patience offset length) f (fun r f' =>
    recovering_wf f' /\ replayed (read_from offset length) f r f').
Proof.
  intros Hf Hl. apply with_recovery_runs; [done| |].
  - intros s h Hs. by apply read_at_runs.
  - intros s h r s' (es & Ha & _). apply Ha.
Qed.

Lemma recovering_pipelined_runs patience offset length options (f : recovering) :
  recovering_wf f -> 0 <= offset -> 0 <= length ->
  0 <= PipelinedReadOptions.chunk_size options -> 0 <= PipelinedReadOptions.max_in_flight options ->
  Z.of_nat patience < usize_max ->
  eruns (recovering_read_at_pipelined_with_options patience offset length options) f (fun r f' =>
    recovering_wf f' /\ replayed (pipelined_from offset length options) f r f').
Proof.
  intros Hf Ho Hl Hc Hm Hp. apply with_recovery_runs; [done| |].
  - intros s h Hs. unfold read_at_pipelined_with_options. apply runs_bind.
    eapply runs_mono; [by apply pipelined_read_runs|].
    intros [res|e| |] s' Hr; [exists (Ok res)|exists (Err e)|done..]; done.
  - intros s h r s' (r' & (es & Ha & _) & _). apply Ha.
Qed.

Lemma connected_runs patience policy (p : Recipe.t * W) : recipe_wf p.1 ->
  match connect_with_policy patience policy p with
  | (Ok f, p') => recovering_wf f /\ p' = (recipe f, world f) /\
      kept p.1 (recipe f) /\ validated p.1 (recipe f) (file f) (session f)
  | (Err _, p') => kept p.1 p'.1
  | (r, _) => r = OutOfFuel
  end.
Proof.
  intros Hp. pose proof (connect_runs patience p Hp) as Hc. unfold connect_with_policy, eruns in *.
  destruct (connect_read_only_file patience p) as [[[s h]|e| |] [recipe' w']]; try done;
    destruct Hc as [Hk Hc]; [|done].
  destruct Hc as (Hs & Hv & _). cbn [fst snd recipe world file session] in *.
  split; [|done]. split; [done|apply Hk|]. cbn [recipe].
  destruct Hv as (s0 & id & _ & Hv). destruct (Recipe.identity p.1) as [o|] eqn:Ho; [|by exists id].
  exists o. by apply Hk.
Qed.
End recovering_read_laws.

(** ** Properties *)

(** A read survives a lost connection without ever reading another file.
    Whatever the servers do, a recovering read does not panic and leaves the file
    usable. Its result is that of one read through the current session, unless
    that failed with a retryable error and the policy allows recovery; then it is
    either the error of the reconnection, with session and file as they were, or
    the result of exactly one more read through a new session, through which the
    reopened file was first seen to be compatible with the identity the recipe
    had kept. Both the sequential and the pipelined form. *)
Theorem recovering_read_sound {T W} `{TransportSafe T} `{CryptoLaws} `{NtlmEnvironmentLaws}
    `{HostLaws T W} (patience : nat) (offset length : Z) (options : PipelinedReadOptions.t)
    (f : RecoveringReadOnlyFile T W) (Hf : recovering_wf f) (Hoffset : 0 <= offset)
    (Hlength : 0 <= length) (Hchunk : 0 <= PipelinedReadOptions.chunk_size options)
    (Hflight : 0 <= PipelinedReadOptions.max_in_flight options)
    (Hpatience : Z.of_nat patience < usize_max) :
  eruns (recovering_read_at patience offset length) f (fun r f' =>
    recovering_wf f' /\ replayed (read_from offset length) f r f') /\
  eruns (recovering_read_at_pipelined_with_options patience offset length options) f (fun r f' =>
    recovering_wf f' /\ replayed (pipelined_from offset length options) f r f').
Proof. split; [by apply recovering_read_runs|by apply recovering_pipelined_runs]. Qed.

#[local] Existing Instance toy_environment.
#[local] Existing Instance toy_environment_laws.
#[local] Existing Instance toy_crypto.
#[local] Existing Instance toy_laws.
#[local] Existing Instance toy_host.
#[local] Existing Instance toy_host_laws.

(** The first server hangs up after the open; the second one also answers a
    READ. *)
Definition two_servers : Recipe.t * list (list bytes) :=
  (sample_recipe, [file_server [x01; x02; x03];
                   file_server [x01; x02; x03] ++ [read_reply 6 [x02; x03]]]).

Lemma recovering_read_sound_witness :
  exists f f' : RecoveringReadOnlyFile TcpTransport.t (list (list bytes)),
    (connect 4 two_servers).1 = Ok f /\ world f <> [] /\ world f' = [] /\
    recovering_wf f' /\ replayed (read_from 1 2) f (Ok [x02; x03]) f'.
Proof.
  assert (recipe_wf two_servers.1) as Hr by (split; [by intros ? [=]|by intros ? [=]]).
  pose proof (connected_runs 4 ReadReconnectPolicy.default two_servers Hr) as Hc.
  assert (match connect 4 two_servers with
          | (Ok f, _) => negb (is_empty (world f)) &&
              eended (fun data f' => bool_decide (data = [x02; x03]) && is_empty (world f'))
                (recovering_read_at 4 1 2 f)
          | _ => false
          end = true) as Ht by (vm_compute; reflexivity).
  unfold connect in *. destruct (connect_with_policy _ _ _) as [[f|e| |] p']; try discriminate Ht.
  destruct Hc as [Hf _]. apply andb_true_iff in Ht as [Hw Ht].
  destruct (eruns_ended _ _ _ _ (proj1 (recovering_read_sound 4 1 2 PipelinedReadOptions.default f Hf
    ltac:(lia) ltac:(lia) ltac:(by vm_compute) ltac:(by vm_compute) ltac:(by vm_compute))) Ht)
    as (data & f' & [Hf' Hrep] & [->%bool_decide_eq_true Hw']%andb_true_iff).
  exists f, f'. split; [done|]. split; [by destruct (world f)|].
  split; [by destruct (world f')|]. by split.
Defined.
