(* ===== verification/RecoveringCancel.v ===== *)
(** * Cancelable reads that survive a lost connection

    [crates/smb-client/src/recovering_read.rs]: the cancelable forms of
    reconnecting and of the pipelined read, which a seek or a close ends at the
    next wait, and what becomes of the file then. *)
From S2P Require Import Prelude WireError Utf16 Frame Header Create CreateContext Durable.
From S2P Require Import Negotiate SessionMessages FileControl.
From S2P Require Import Client Effects Credits MessageIds AsyncResponse Transport Signing Connection.
From S2P Require Import Auth Session Exchange Tree Files Write Read PipelinedRead Cancellation.
From S2P Require Import DurableOpen Spnego Ntlm Anonymous CancelRead CancelSafety Reconnect RecoveringRead.

#[local] Existing Instance watched_host.
#[local] Existing Instance watched_host_laws.

Section recovering_cancel.
Context {T W : Type} `{Transport T} `{Crypto} `{NtlmEnvironment} `{Host T W}.

(** The file, and the token that is watched meanwhile. *)
#[local] Abbreviation watched := (RecoveringReadOnlyFile T W * ReadCancellationToken.t)%type.

Definition on_token {A} (m : rst ReadCancellationToken.t A) : rst watched A := fun '(self, token) =>
  let '(r, token) := m token in (r, (self, token)).

Definition ensure_current (generation : Z) : rst ReadCancellationToken.t unit :=
  rec! current := ReadCancellationToken.is_current generation in
  if current : bool then eret tt else efail ReconnectCancelled.

(** The [select!] of a delay, after which the token is looked at, and of a change
    of the token: cancelled if it has changed. *)
Definition reconnect_backoff_cancelable (duration generation : Z) : rst ReadCancellationToken.t unit :=
  rec! _ := ensure_current generation in
  if duration =? 0 then eret tt else ensure_current generation.

(** One attempt, on the recipe of the file: the file goes on with the new session
    only if there is one. *)
Definition connect_again (patience : nat) (generation : Z) : rst watched unit := fun '(self, token) =>
  match connect_read_only_file_cancelable patience generation (recipe self, (world self, token)) with
  | (Ok (session, file), (recipe, (w, token))) =>
      (Ok tt, (set_open (set_place self (recipe, w)) session file, token))
  | (Err error, (recipe, (w, token))) => (Err error, (set_place self (recipe, w), token))
  | (Panic, (recipe, (w, token))) => (Panic, (set_place self (recipe, w), token))
  | (OutOfFuel, (recipe, (w, token))) => (OutOfFuel, (set_place self (recipe, w), token))
  end.

(** The loop over the attempts that are left; [again] is [attempt > 0]. *)
Fixpoint reconnect_cancelable_loop (attempts patience : nat) (generation : Z) (again : bool)
    (last_retryable : option ReconnectError) : rst watched unit :=
  match attempts with
  | O => efail (default (FromClient (Protocol "SMB reconnect attempts exhausted without an error"))
                  last_retryable)
  | S attempts =>
      rec! _ := on_token (ensure_current generation) in
      rec! duration := eget (fun w : watched => ReadReconnectPolicy.backoff (policy (fst w))) in
      rec! _ := (if again then on_token (reconnect_backoff_cancelable duration generation) else eret tt) in
      rec! connected := caught (connect_again patience generation) in
      match connected with
      | inr _ => eret tt
      | inl ReconnectCancelled => efail ReconnectCancelled
      | inl error =>
          if is_retryable_reconnect_error error
          then reconnect_cancelable_loop attempts patience generation true (Some error)
          else efail error
      end
  end.

Definition reconnect_cancelable (patience : nat) (generation : Z) : rst watched unit :=
  rec! attempts := eget (fun w : watched => ReadReconnectPolicy.max_connect_attempts (policy (fst w))) in
  if negb (0 <? attempts) then elift Panic else
  reconnect_cancelable_loop (Z.to_nat attempts) patience generation false None.

(** The read of the session, and its error if it has one. *)
Definition read_watched (patience : nat) (offset length : Z) (options : PipelinedReadOptions.t)
    (generation : Z) : rst watched (ClientError + bytes) := fun w =>
  attempt (fun w : watched => (session (fst w), snd w))
    (fun (w : watched) x => (set_session (fst w) (fst x), snd x))
    (CancelRead.read_at_pipelined_cancelable_with_options patience (file (fst w)) offset length options
       generation) w.

Definition recovering_read_at_pipelined_cancelable_with_options (patience : nat) (offset length : Z)
    (options : PipelinedReadOptions.t) (generation : Z) : rst watched bytes :=
  rec! current := on_token (ReadCancellationToken.is_current generation) in
  if negb current then efail ReconnectCancelled else
  rec! first := read_watched patience offset length options generation in
  match first with
  | inr data => eret data
  | inl Cancelled => efail ReconnectCancelled
  | inl error =>
      rec! recover := eget (fun w : watched => should_recover (fst w) error) in
      if recover : bool then
        rec! _ := reconnect_cancelable patience generation in
        rec! second := read_watched patience offset length options generation in
        match second with
        | inr data => eret data
        | inl error => efail (map_client_error error)
        end
      else efail (map_client_error error)
  end.
End recovering_cancel.

(** ** What the token was *)

Section tokens.
Context {T W : Type} `{Transport T} `{Crypto} `{NtlmEnvironment} `{Host T W}.

Lemma look_ok generation (token : ReadCancellationToken.t) : token_ok generation token ->
  token_ok generation (ReadCancellationToken.interfere token) /\
  (ReadCancellationToken.counter (ReadCancellationToken.interfere token) <> generation ->
   CancelSafety.moved generation (ReadCancellationToken.interfere token)).
Proof.
  intros [Hw Hg]. destruct (ReadCancellationToken.interfere_wf token Hw). unfold token_ok, CancelSafety.moved.
  split; [split; [done|lia]|lia].
Qed.

(** The token after [k] looks, and what they saw: the generation was the current
    one at every one of them, or at all but the last. *)
Definition after_looks (k : nat) (token : ReadCancellationToken.t) : ReadCancellationToken.t :=
  Nat.iter k ReadCancellationToken.interfere token.
Definition current_at (generation : Z) (token : ReadCancellationToken.t) (k : nat) : Prop :=
  ReadCancellationToken.counter (after_looks k token) = generation.
Definition all_current (generation : Z) (token : ReadCancellationToken.t) (k : nat)
    (token' : ReadCancellationToken.t) : Prop :=
  token' = after_looks k token /\ forall i, (0 < i <= k)%nat -> current_at generation token i.
Definition found_moved (generation : Z) (token token' : ReadCancellationToken.t) : Prop :=
  exists k, token' = after_looks (S k) token /\ ~ current_at generation token (S k) /\
    forall i, (0 < i <= k)%nat -> current_at generation token i.

Lemma after_looks_add j k token : after_looks (j + k) token = after_looks k (after_looks j token).
Proof. unfold after_looks. rewrite Nat.add_comm. apply Nat.iter_add. Qed.

Lemma all_current_refl generation token : all_current generation token 0 token.
Proof. split; [done|]. intros i Hi. lia. Qed.

Lemma current_at_after generation token j i : current_at generation (after_looks j token) i <->
  current_at generation token (j + i).
Proof. unfold current_at. by rewrite after_looks_add. Qed.

Lemma all_current_trans generation t0 j t1 k t2 :
  all_current generation t0 j t1 -> all_current generation t1 k t2 -> all_current generation t0 (j + k) t2.
Proof.
  intros [-> Hj] [-> Hk]. split; [by rewrite after_looks_add|]. intros i Hi.
  destruct (decide (i <= j)%nat); [apply Hj; lia|].
  replace i with (j + (i - j))%nat by lia. apply current_at_after, Hk. lia.
Qed.

Lemma all_current_moved generation t0 j t1 t2 :
  all_current generation t0 j t1 -> found_moved generation t1 t2 -> found_moved generation t0 t2.
Proof.
  intros Hj (k & -> & Hmoved & Hk). exists (j + k)%nat. rewrite plus_n_Sm.
  destruct (all_current_trans _ _ _ _ _ (after_looks k t1) Hj ltac:(by split)) as [_ Hall].
  destruct Hj as [-> _]. split; [by rewrite after_looks_add|]. split; [|done].
  by rewrite <- current_at_after.
Qed.

(** One look. *)
Lemma look_cases generation token : let token' := ReadCancellationToken.interfere token in
  if ReadCancellationToken.counter token' =? generation
  then all_current generation token 1 token' else found_moved generation token token'.
Proof.
  cbn zeta. destruct (Z.eqb_spec (ReadCancellationToken.counter (ReadCancellationToken.interfere token)) generation)
    as [Hc|Hc].
  - split; [done|]. intros i Hi. by replace i with 1%nat by lia.
  - exists 0%nat. split; [done|]. split; [done|]. intros i Hi. lia.
Qed.

Lemma after_looks_ok generation k token : token_ok generation token -> token_ok generation (after_looks k token).
Proof.
  intros Ht. induction k as [|k IH]; [done|]. by apply (look_ok generation (after_looks k token)).
Qed.
Lemma all_current_ok generation k token token' : token_ok generation token ->
  all_current generation token k token' -> token_ok generation token'.
Proof. intros Ht [-> _]. by apply after_looks_ok. Qed.
Lemma found_moved_ok generation token token' : token_ok generation token ->
  found_moved generation token token' -> token_ok generation token' /\ CancelSafety.moved generation token'.
Proof.
  intros Ht (k & -> & Hm & _). pose proof (after_looks_ok generation k token Ht) as Hk.
  destruct (look_ok generation _ Hk) as [Hok Hmoved]. split; [done|]. by apply Hmoved.
Qed.

(** What the watched parts leave of the token: at least [n] looks before a
    result, none of which saw it moved; or the first that did, and no more. *)
Definition looked_out {A} (generation : Z) (n : nat) (token : ReadCancellationToken.t)
    (r : outcome ReconnectError A) (token' : ReadCancellationToken.t) : Prop :=
  match r with
  | Ok _ => exists k, (n <= k)%nat /\ all_current generation token k token'
  | Err ReconnectCancelled => found_moved generation token token'
  | _ => exists k, all_current generation token k token'
  end.

Lemma ensure_current_runs generation token :
  eruns (ensure_current generation) token (fun r token' => looked_out generation 1 token r token' /\
    match r with Ok _ => True | Err e => e = ReconnectCancelled | _ => False end).
Proof.
  pose proof (look_cases generation token) as Hlook. cbn zeta in Hlook.
  unfold eruns, ensure_current, ebind, ReadCancellationToken.is_current, eret, efail.
  destruct (ReadCancellationToken.counter (ReadCancellationToken.interfere token) =? generation); cbn.
  - split; [|done]. by exists 1%nat.
  - done.
Qed.

(** From here, and then further. *)
Lemma looked_out_trans {A} generation t0 k n m t1 (r : outcome ReconnectError A) t2 :
  all_current generation t0 k t1 -> (n <= k + m)%nat -> looked_out generation m t1 r t2 ->
  looked_out generation n t0 r t2.
Proof.
  intros Hk Hn Hr. destruct r as [a|[]| |]; cbn in *; try (by eapply all_current_moved);
    destruct Hr as (j & Hj); try destruct Hj as [? Hj]; exists (k + j)%nat;
    try split; try lia; by eapply all_current_trans.
Qed.

Lemma backoff_runs duration generation token :
  eruns (reconnect_backoff_cancelable duration generation) token (fun r token' =>
    looked_out generation 1 token r token' /\
    match r with Ok _ => True | Err e => e = ReconnectCancelled | _ => False end).
Proof.
  unfold reconnect_backoff_cancelable. apply eruns_bind.
  eapply eruns_mono; [apply ensure_current_runs|]. intros [[]|e| |] token' [Hl Hr]; [|done..].
  destruct (duration =? 0); [done|]. destruct Hl as (k & Hk & Hall).
  eapply eruns_mono; [apply ensure_current_runs|]. intros r t2 [Hl2 Hr2]. split; [|done].
  eapply looked_out_trans; [exact Hall| |exact Hl2]. lia.
Qed.

(** A connection looks at the token six times at least, before anything, before
    and after the dial, before the share, the file and its identity; and being
    dropped means that a look found it moved on. *)
Lemma connect_cancelable_looks patience generation (p : Recipe.t * (W * ReadCancellationToken.t)) :
  let '(r, (_, (_, token'))) := connect_read_only_file_cancelable (T := T) (W := W) patience generation p in
  looked_out generation 6 (snd (snd p)) r token'.
Proof.
  set (token := snd (snd p)).
  pose (safe (n : nat) (w : W * ReadCancellationToken.t) :=
    exists k, (n <= k)%nat /\ all_current generation token k (snd w)).
  pose (dropped (w : W * ReadCancellationToken.t) := found_moved generation token (snd w)).
  assert (forall n, safe_place safe dropped n (wait_current generation) (fun _ => S n)) as Hwait.
  { intros n [recipe [w t1]] (k & Hk & Hall). cbn in Hall. unfold wait_current, ReadCancellationToken.changed.
    pose proof (look_cases generation t1) as Hlook. cbn zeta in Hlook.
    destruct (ReadCancellationToken.counter (ReadCancellationToken.interfere t1) =? generation); cbn.
    - exists (k + 1)%nat. split; [lia|]. by eapply all_current_trans.
    - by eapply all_current_moved. }
  assert (safe_place safe dropped 0
    (connect_read_only_file_cancelable (T := T) (W := W) patience generation) (fun _ => 6)%nat) as Hsafe.
  { unfold connect_read_only_file_cancelable. eapply safe_place_bind; [apply Hwait|]. intros [].
    apply connect_waiting_safe; [| | |exact Hwait].
    - intros n m w Hm (k & Hk & Hall). exists k. split; [lia|done].
    - intros n i [w t] Ht. cbn. by destruct (fill_random i w).
    - intros n host port [w t] Ht. cbn. by destruct (tcp_connect host port w). }
  specialize (Hsafe p ltac:(exists 0%nat; split; [lia|apply all_current_refl])).
  unfold left_safe in Hsafe.
  destruct (connect_read_only_file_cancelable _ _ _) as [[a|[]| |] [rec' [w' t']]]; cbn in *; try done;
    destruct Hsafe as (k & _ & Hall); by exists k.
Qed.
End tokens.

Section recovering_cancel_laws.
Context {T W : Type} `{TransportSafe T} `{CryptoLaws} `{NtlmEnvironmentLaws} `{HostLaws T W}.
#[local] Abbreviation recovering := (RecoveringReadOnlyFile T W).
#[local] Abbreviation watched := (RecoveringReadOnlyFile T W * ReadCancellationToken.t)%type.

(** What a cancelable reconnection, of at least [n] looks, leaves. *)
Definition reconnected_watched (n : nat) (generation : Z) (f : recovering) (token : ReadCancellationToken.t)
    (r : outcome ReconnectError unit) (w : watched) : Prop :=
  reconnected f r (fst w) /\ looked_out generation n token r (snd w).

Lemma connect_again_runs patience generation (f : recovering) token : recovering_wf f ->
  eruns (connect_again patience generation) (f, token) (reconnected_watched 6 generation f token).
Proof.
  intros Hf. destruct f as [rec w pol ses h0], Hf as [Hs Hr Hk]. cbn [recipe session] in *.
  pose proof (connect_cancelable_runs patience generation (rec, (w, token)) Hr) as Hc.
  pose proof (connect_cancelable_looks (T:=T) patience generation (rec, (w, token))) as Hlooks.
  unfold eruns, connect_again in *. cbn [recipe world] in *.
  destruct (connect_read_only_file_cancelable _ _ _) as [[[s h]|e| |] [rec' [w' token']]]; [| |done..];
    cbn [fst snd] in *; destruct Hc as [Hkept Hc].
  - destruct Hc as (Hs' & Hv & _). split; [|exact Hlooks]. by split_and!.
  - split; [by split_and!|exact Hlooks].
Qed.

(** The recipe went on, but the file is the same. *)
Definition same_file (f f' : recovering) : Prop :=
  kept (recipe f) (recipe f') /\ policy f' = policy f /\ session f' = session f /\ file f' = file f.

Lemma same_file_refl f : recovering_wf f -> same_file f f.
Proof. intros Hf. by split; [apply moved_kept, moved_refl, Hf|]. Qed.

Lemma same_file_wf f f' : recovering_wf f -> same_file f f' -> recovering_wf f'.
Proof.
  intros Hf (Hk & Hp & Hs & Hh). split; [rewrite Hs; apply Hf|apply Hk|].
  by eapply kept_known; [|apply Hf].
Qed.

Lemma same_file_reconnected f f1 r f' : recovering_wf f -> same_file f f1 -> reconnected f1 r f' ->
  reconnected f r f'.
Proof.
  intros Hf (Hk & Hp & Hs & Hh) (Hk' & Hp' & Hr). split; [by eapply kept_trans|].
  split; [congruence|]. destruct r; [|destruct Hr; split; congruence..].
  destruct Hr as [Hs' Hv]. split; [done|]. eapply kept_validated; [apply Hf|exact Hk|exact Hv].
Qed.

Lemma on_token_runs {A B} (m : rst ReadCancellationToken.t A) (k : A -> rst watched B) (f : recovering) token
    (P : outcome ReconnectError A -> ReadCancellationToken.t -> Prop) Q :
  eruns m token P ->
  (forall r token', P r token' ->
     match r with Ok a => eruns (k a) (f, token') Q | Err e => Q (Err e) (f, token') | _ => True end) ->
  eruns (ebind (on_token m) k) (f, token) Q.
Proof.
  intros Hm Hk. apply eruns_bind. unfold eruns at 1, on_token. unfold eruns at 1 in Hm.
  destruct (m token) as [r token']. specialize (Hk r token').
  destruct r; [exact (Hk Hm)|exact (Hk Hm)|done|done].
Qed.

Lemma reconnected_watched_trans n m k generation (f f1 : recovering) t0 t1 r w : recovering_wf f ->
  same_file f f1 -> all_current generation t0 k t1 -> (n <= k + m)%nat ->
  reconnected_watched m generation f1 t1 r w -> reconnected_watched n generation f t0 r w.
Proof.
  intros Hf Hsame Hk Hn [Hr Hl]. split; [by eapply same_file_reconnected|by eapply looked_out_trans].
Qed.

Lemma reconnect_cancelable_loop_runs attempts patience generation : forall again last (f : recovering) token,
  recovering_wf f -> last <> Some ReconnectCancelled ->
  eruns (reconnect_cancelable_loop attempts patience generation again last) (f, token)
    (reconnected_watched 7 generation f token).
Proof.
  induction attempts as [|attempts IH]; intros again last f token Hf Hlast; cbn [reconnect_cancelable_loop].
  { unfold eruns, efail. split; [by apply same_file_refl|].
    destruct last as [[]|]; cbn; try (by exists 0%nat; apply all_current_refl). by destruct Hlast. }
  assert (forall token', found_moved generation token token' ->
    reconnected_watched 7 generation f token (Err ReconnectCancelled) (f, token')) as Hcancel.
  { intros token' Hm. split; [by apply same_file_refl|done]. }
  eapply on_token_runs; [apply ensure_current_runs|].
  intros [[]|e| |] t1 [Hl1 Hr1]; [|subst e; by apply Hcancel|done..].
  destruct Hl1 as (k1 & Hk1 & Hall1). apply eruns_get. apply eruns_bind.
  assert (forall k2 t2, (1 <= k2)%nat -> all_current generation token k2 t2 -> eruns
    (rec! connected := caught (connect_again patience generation) in
     match connected with
     | inr _ => eret tt
     | inl ReconnectCancelled => efail ReconnectCancelled
     | inl error =>
         if is_retryable_reconnect_error error
         then reconnect_cancelable_loop attempts patience generation true (Some error)
         else efail error
     end) (f, t2) (reconnected_watched 7 generation f token)) as Hconnect.
  { intros k2 t2 Hk2 Hall2. apply eruns_caught. eapply eruns_mono; [by apply connect_again_runs|].
    pose proof (same_file_refl f Hf) as Hsame0.
    intros [[]|e| |] [f' t3] Hr; [| |done..].
    { apply (reconnected_watched_trans 7 6 k2 generation f f token t2); [done..|lia|exact Hr]. }
    assert (same_file f f') as Hsame by apply Hr.
    assert (forall e', e = e' -> eruns (efail e') (f', t3) (reconnected_watched 7 generation f token)) as Hfail.
    { intros e' <-. unfold eruns, efail.
      apply (reconnected_watched_trans 7 6 k2 generation f f token t2); [done..|lia|exact Hr]. }
    destruct e as [c| |]; [|by apply Hfail..].
    destruct (is_retryable_reconnect_error (FromClient c)); [|by apply Hfail].
    eapply eruns_mono; [apply IH; [by eapply same_file_wf|done]|].
    destruct Hr as [_ (k3 & Hall3)]. cbn [fst snd] in *. intros r w Hr'.
    eapply reconnected_watched_trans; [done|exact Hsame| | |exact Hr'];
      [by eapply all_current_trans|lia]. }
  destruct again; [|unfold eruns at 1; by eapply Hconnect].
  unfold eruns at 1, on_token. pose proof (backoff_runs (ReadReconnectPolicy.backoff (policy f)) generation t1) as Hb.
  unfold eruns in Hb. cbn [fst].
  destruct (reconnect_backoff_cancelable _ _ t1) as [[[]|e| |] t2]; [| |done..]; destruct Hb as [Hl2 Hr2].
  - destruct Hl2 as (k2 & Hk2 & Hall2). eapply (Hconnect (k1 + k2)%nat); [lia|by eapply all_current_trans].
  - subst e. apply Hcancel. by eapply all_current_moved.
Qed.

Lemma reconnect_cancelable_runs patience generation (f : recovering) token : recovering_wf f ->
  0 < ReadReconnectPolicy.max_connect_attempts (policy f) ->
  eruns (reconnect_cancelable patience generation) (f, token) (reconnected_watched 7 generation f token).
Proof.
  intros Hf Hp. unfold reconnect_cancelable. apply eruns_get. cbn [fst].
  rewrite (proj2 (Z.ltb_lt _ _)) by done. cbn [negb]. by apply reconnect_cancelable_loop_runs.
Qed.

(** A reconnection that is over before it starts. *)
Lemma reconnect_cancelable_stale patience generation (f : recovering) token :
  0 < ReadReconnectPolicy.max_connect_attempts (policy f) -> ~ current_at generation token 1 ->
  reconnect_cancelable patience generation (f, token)
  = (Err ReconnectCancelled, (f, ReadCancellationToken.interfere token)).
Proof.
  intros Hp Hm. change (ReadCancellationToken.counter (ReadCancellationToken.interfere token) <> generation) in Hm.
  unfold reconnect_cancelable, ebind, eget. cbn [fst].
  rewrite (proj2 (Z.ltb_lt _ _)) by done. cbn [negb].
  destruct (Z.to_nat (ReadReconnectPolicy.max_connect_attempts (policy f))) as [|n] eqn:Hn; [lia|].
  cbn [reconnect_cancelable_loop]. unfold ebind, on_token, ensure_current, ReadCancellationToken.is_current.
  cbv [ebind]. by rewrite (proj2 (Z.eqb_neq _ _) Hm).
Qed.

(** *** The read *)

(** One read through a session, as [CancelSafety] has it: on a result the bytes
    were received in answer to READs of the file, and none is outstanding; also
    when it was cancelled, unless the transport broke. *)
Definition cancelable_from (generation offset length : Z) (s : SessionConnection.t T) (file : FileHandle.t)
    (r : client bytes) (w : SessionConnection.t T * ReadCancellationToken.t) : Prop :=
  ends s file generation [] (fun out es _ _ => cancelable_result s file offset length out es) r w.

Lemma cancelable_from_ok generation offset length s file r w :
  cancelable_from generation offset length s file r w -> session_wf (fst w) /\ token_ok generation (snd w).
Proof. intros (es & Ht & Ha & _). split; [apply Ha|done]. Qed.

Lemma recovering_set (f : recovering) s : recovering_wf f -> session_wf s -> recovering_wf (set_session f s).
Proof. by intros [? ? ?] ?; split. Qed.

(** What a cancelable read of a recovering file comes to, from the first look on. *)
Definition recovered (generation offset length : Z) (f : recovering) (token : ReadCancellationToken.t)
    (r : outcome ReconnectError bytes) (w : watched) : Prop :=
  let '(f', token') := w in
  (r = Err ReconnectCancelled /\ f' = f /\ token' = ReadCancellationToken.interfere token /\
   ~ current_at generation token 1) \/
  current_at generation token 1 /\
  exists first s1 token1, cancelable_from generation offset length (session f) (file f) first (s1, token1) /\
  match first with
  | Err Cancelled => r = Err ReconnectCancelled /\ f' = set_session f s1 /\ token' = token1
  | Err e =>
      if should_recover f e then
        (exists f1 token2 second s2, reconnected (set_session f s1) (Ok tt) f1 /\
           looked_out generation 7 token1 (Ok tt) token2 /\
           cancelable_from generation offset length (session f1) (file f1) second (s2, token') /\
           r = omap_err map_client_error second /\ f' = set_session f1 s2)
        \/ (exists e', reconnected (set_session f s1) (Err e') f' /\ r = Err e' /\
              looked_out (A := unit) generation 7 token1 (Err e') token')
      else r = Err (map_client_error e) /\ f' = set_session f s1 /\ token' = token1
  | _ => r = omap_err map_client_error first /\ f' = set_session f s1 /\ token' = token1
  end.

Lemma read_watched_runs {B} patience offset length options generation (f : recovering) token
    (k : ClientError + bytes -> rst watched B) Q :
  session_wf (session f) -> token_ok generation token -> 0 <= offset -> 0 <= length ->
  0 <= PipelinedReadOptions.chunk_size options ->
  (forall first s1 token1, cancelable_from generation offset length (session f) (file f) first (s1, token1) ->
     match first with
     | Ok data => eruns (k (inr data)) (set_session f s1, token1) Q
     | Err e => eruns (k (inl e)) (set_session f s1, token1) Q
     | _ => True
     end) ->
  eruns (ebind (read_watched patience offset length options generation) k) (f, token) Q.
Proof.
  intros Hs Ht Ho Hl Hc Hk. apply eruns_bind. unfold eruns at 1, read_watched.
  pose proof (cancelable_runs (session f) token patience (file f) offset length options generation
    Hs Ht Ho Hl Hc) as Hr. unfold runs in Hr. unfold attempt. cbn [fst snd].
  destruct (CancelRead.read_at_pipelined_cancelable_with_options _ _ _ _ _ _ _) as [r [s1 t1]].
  destruct r as [data|e| |]; [exact (Hk (Ok data) s1 t1 Hr)|exact (Hk (Err e) s1 t1 Hr)|done..].
Qed.

Lemma read_stale patience offset length options generation (f : recovering) token :
  ~ current_at generation token 1 ->
  recovering_read_at_pipelined_cancelable_with_options patience offset length options generation (f, token)
  = (Err ReconnectCancelled, (f, ReadCancellationToken.interfere token)).
Proof.
  intros Hm. change (ReadCancellationToken.counter (ReadCancellationToken.interfere token) <> generation) in Hm.
  unfold recovering_read_at_pipelined_cancelable_with_options, ebind at 1, on_token,
    ReadCancellationToken.is_current. cbv zeta. by rewrite (proj2 (Z.eqb_neq _ _) Hm).
Qed.

Lemma reconnected_ok (f : recovering) r (f' : recovering) : recovering_wf f -> reconnected f r f' ->
  match r with Ok _ | Err _ => recovering_wf f' | _ => True end.
Proof.
  intros Hf (Hk & Hp & Hr). destruct r; [| |done..].
  - destruct Hr as [Hs Hv]. split; [done|apply Hk|by eapply kept_known; [|apply Hf]].
  - destruct Hr as [Hs Hh]. split; [rewrite Hs; apply Hf|apply Hk|by eapply kept_known; [|apply Hf]].
Qed.

(** The part after a read that failed with an error to recover from. *)
Lemma recover_runs patience offset length options generation (f : recovering) token e :
  recovering_wf f -> token_ok generation token -> 0 <= offset -> 0 <= length ->
  0 <= PipelinedReadOptions.chunk_size options -> should_recover f e = true ->
  eruns (rec! _ := reconnect_cancelable patience generation in
         rec! second := read_watched patience offset length options generation in
         match second with
         | inr data => eret data
         | inl error => efail (map_client_error error)
         end) (f, token) (fun r w => recovering_wf (fst w) /\ token_ok generation (snd w) /\
    ((exists f1 token2 second s2, reconnected f (Ok tt) f1 /\ looked_out generation 7 token (Ok tt) token2 /\
        cancelable_from generation offset length (session f1) (file f1) second (s2, snd w) /\
        r = omap_err map_client_error second /\ fst w = set_session f1 s2) \/
     exists e', reconnected f (Err e') (fst w) /\ r = Err e' /\
       looked_out (A := unit) generation 7 token (Err e') (snd w))).
Proof.
  intros Hf Ht Ho Hl Hc Hrec. apply eruns_bind. eapply eruns_mono; [apply reconnect_cancelable_runs; [done|]|].
  { unfold should_recover in Hrec. apply andb_true_iff in Hrec as [Hp _]. by apply Z.ltb_lt. }
  intros [[]|e'| |] [f1 token2] [Hr Hlook]; [| |done..]; cbn [fst snd] in *;
    pose proof (reconnected_ok _ _ _ Hf Hr) as Hf1; cbn in Hf1.
  2:{ split; [done|]. split; [|right; by exists e'].
      destruct e'; cbn in Hlook; [destruct Hlook as (k & Hall)|by eapply found_moved_ok|
        destruct Hlook as (k & Hall)]; by eapply all_current_ok. }
  assert (token_ok generation token2) as Ht2 by (destruct Hlook as (k & _ & Hall); by eapply all_current_ok).
  apply read_watched_runs; [apply Hf1|done..|]. intros second s2 token3 Hread2.
  destruct (cancelable_from_ok _ _ _ _ _ _ _ Hread2) as [Hs2 Ht3]. cbn [fst snd] in *.
  destruct second as [data|e2| |]; [| |done..]; unfold eruns, eret, efail;
    (split; [by apply recovering_set|]; split; [done|]; left).
  - by exists f1, token2, (Ok data), s2.
  - by exists f1, token2, (Err e2), s2.
Qed.

Lemma recovering_cancelable_runs patience offset length options generation (f : recovering) token :
  recovering_wf f -> token_ok generation token -> 0 <= offset -> 0 <= length ->
  0 <= PipelinedReadOptions.chunk_size options ->
  eruns (recovering_read_at_pipelined_cancelable_with_options patience offset length options generation)
    (f, token) (fun r w => recovering_wf (fst w) /\ token_ok generation (snd w) /\
      recovered generation offset length f token r w).
Proof.
  intros Hf Ht Ho Hl Hc. pose proof (look_ok generation token Ht) as [Ht1 _].
  destruct (Z.eq_dec (ReadCancellationToken.counter (ReadCancellationToken.interfere token)) generation)
    as [Hcur|Hne].
  2:{ unfold eruns. rewrite read_stale by done. split; [done|]. split; [done|]. by left. }
  unfold recovering_read_at_pipelined_cancelable_with_options. apply eruns_bind.
  unfold eruns at 1, on_token, ReadCancellationToken.is_current. cbv zeta.
  rewrite (proj2 (Z.eqb_eq _ _) Hcur). cbn [negb].
  apply read_watched_runs; [apply Hf|done..|]. intros first s1 token1 Hread.
  destruct (cancelable_from_ok _ _ _ _ _ _ _ Hread) as [Hs1 Ht2]. cbn [fst snd] in *.
  pose proof (recovering_set f s1 Hf Hs1) as Hf1.
  destruct first as [data|e| |]; [| |done..].
  { unfold eruns, eret. split; [done|]. split; [done|]. right. split; [done|]. by exists (Ok data), s1, token1. }
  assert (forall r w, recovering_wf (fst w) -> token_ok generation (snd w) ->
    match e with
    | Cancelled => r = Err ReconnectCancelled /\ fst w = set_session f s1 /\ snd w = token1
    | _ => if should_recover f e then
        (exists f1 token2 second s2, reconnected (set_session f s1) (Ok tt) f1 /\
           looked_out generation 7 token1 (Ok tt) token2 /\
           cancelable_from generation offset length (session f1) (file f1) second (s2, snd w) /\
           r = omap_err map_client_error second /\ fst w = set_session f1 s2)
        \/ (exists e', reconnected (set_session f s1) (Err e') (fst w) /\ r = Err e' /\
              looked_out (A := unit) generation 7 token1 (Err e') (snd w))
      else r = Err (map_client_error e) /\ fst w = set_session f s1 /\ snd w = token1
    end -> recovering_wf (fst w) /\ token_ok generation (snd w) /\
      recovered generation offset length f token r w) as Hrest.
  { intros r [f' token'] Hwf Htok Hr. split; [done|]. split; [done|]. right. split; [done|].
    exists (Err e), s1, token1. split; [done|]. exact Hr. }
  assert (e <> Cancelled -> eruns
    (rec! recover := eget (fun w : watched => should_recover (fst w) e) in
     if recover : bool then
       rec! _ := reconnect_cancelable patience generation in
       rec! second := read_watched patience offset length options generation in
       match second with
       | inr data => eret data
       | inl error => efail (map_client_error error)
       end
     else efail (map_client_error e)) (set_session f s1, token1) (fun r w =>
       recovering_wf (fst w) /\ token_ok generation (snd w) /\ recovered generation offset length f token r w))
    as Hrecover.
  2:{ destruct e; try (by apply Hrecover). unfold eruns, efail.
      by apply (Hrest (Err ReconnectCancelled) (set_session f s1, token1)). }
  intros He. apply eruns_get. cbn [fst]. change (should_recover (set_session f s1) e) with (should_recover f e).
  destruct (should_recover f e) eqn:Hrec.
  - eapply eruns_mono; [by apply (recover_runs patience offset length options generation (set_session f s1) token1 e)|].
    intros r w (Hwf & Htok & Hr). apply Hrest; [done..|]. by destruct e.
  - unfold eruns, efail. apply (Hrest (Err (map_client_error e)) (set_session f s1, token1)); [done..|]. by destruct e.
Qed.
End recovering_cancel_laws.

(** ** Properties *)

(** C26: a seek ends a recovering read at the next look, and the file stays usable.
    Whatever the servers do and whenever the token is advanced, a cancelable read
    does not panic, and the file it leaves is well formed. A generation that is
    over at the first look is refused with nothing sent: file and world are as
    they were. Else there is one read through the current session; if it failed
    with a retryable error and the policy allows, a reconnection. The reconnection
    looks at the token before each of its steps (seven times at least before there
    is a new session: at the attempt, at the start of the race with the
    cancellation, before and after the dial, before the share, the file and its
    identity); the first look that finds the token moved ends it with
    [ReconnectCancelled], at that token and with session and file as they were;
    and whenever it ends otherwise, all its looks found the generation current. If
    its first look already finds the token moved, nothing is dialled and nothing
    at all has changed. A reconnection that fails leaves session and file as they
    were, too; one that succeeds yields a session in which the file was seen to be
    the one the recipe knew, and then there is exactly one more read, through that
    session. A cancelled read leaves no READ without its response. *)
Theorem recovering_cancelable_sound {T W} `{TransportSafe T} `{CryptoLaws} `{NtlmEnvironmentLaws}
    `{HostLaws T W} (patience : nat) (offset length : Z) (options : PipelinedReadOptions.t)
    (generation : Z) (f : RecoveringReadOnlyFile T W) (token : ReadCancellationToken.t)
    (Hf : recovering_wf f) (Htoken : token_ok generation token) (Hoffset : 0 <= offset)
    (Hlength : 0 <= length) (Hchunk : 0 <= PipelinedReadOptions.chunk_size options) :
  (ReadCancellationToken.counter (ReadCancellationToken.interfere token) <> generation ->
     recovering_read_at_pipelined_cancelable_with_options patience offset length options generation (f, token)
     = (Err ReconnectCancelled, (f, ReadCancellationToken.interfere token)) /\
     (0 < ReadReconnectPolicy.max_connect_attempts (policy f) ->
      reconnect_cancelable patience generation (f, token)
      = (Err ReconnectCancelled, (f, ReadCancellationToken.interfere token)))) /\
  (0 < ReadReconnectPolicy.max_connect_attempts (policy f) ->
     eruns (reconnect_cancelable patience generation) (f, token) (fun r w =>
       reconnected f r (fst w) /\ looked_out generation 7 token r (snd w))) /\
  eruns (recovering_read_at_pipelined_cancelable_with_options patience offset length options generation)
    (f, token) (fun r w => recovering_wf (fst w) /\ token_ok generation (snd w) /\
      recovered generation offset length f token r w).
Proof.
  split; [|split].
  - intros Hm. split; [by apply read_stale|]. intros Hp. by apply reconnect_cancelable_stale.
  - intros Hp. by apply reconnect_cancelable_runs.
  - by apply recovering_cancelable_runs.
Qed.

#[local] Existing Instance toy_environment.
#[local] Existing Instance toy_environment_laws.
#[local] Existing Instance toy_crypto.
#[local] Existing Instance toy_laws.
#[local] Existing Instance toy_host.
#[local] Existing Instance toy_host_laws.

(** The first server hangs up; with the second one the read is replayed; and a seek
    that comes while it is being reconnected to, after the TCP connection, ends the
    read. *)
Lemma recovering_cancelable_sound_witness :
  exists f w w' : RecoveringReadOnlyFile TcpTransport.t (list (list bytes)) * ReadCancellationToken.t,
    (connect 4 two_servers).1 = Ok (fst f) /\ recovered 0 1 2 (fst f) (snd f) (Ok [x02; x03]) w /\
    (exists seek, recovered 0 1 2 (fst f) seek (Err ReconnectCancelled) w') /\ world (fst w') = [].
Proof.
  assert (recipe_wf two_servers.1) as Hr by (split; [by intros ? [=]|by intros ? [=]]).
  pose proof (connected_runs 4 ReadReconnectPolicy.default two_servers Hr) as Hc.
  set (read := recovering_read_at_pipelined_cancelable_with_options (T := TcpTransport.t)
    (W := list (list bytes)) 4 1 2 PipelinedReadOptions.default 0).
  set (quiet := ReadCancellationToken.new []). set (seek := ReadCancellationToken.new (replicate 11 0%nat ++ [1%nat])).
  assert (match connect 4 two_servers with
          | (Ok f, _) =>
              eended (fun data _ => bool_decide (data = [x02; x03])) (read (f, quiet))
              && match read (f, seek) with (Err ReconnectCancelled, w) => is_empty (world (fst w)) | _ => false end
          | _ => false
          end = true) as Ht by (vm_compute; reflexivity).
  unfold connect in *. destruct (connect_with_policy _ _ _) as [[f|e| |] p']; try discriminate Ht.
  destruct Hc as [Hf _]. apply andb_true_iff in Ht as [Ht1 Ht2].
  assert (token_ok 0 quiet /\ token_ok 0 seek) as [Hquiet Hseeking] by (vm_compute; repeat split; discriminate).
  assert (forall token, token_ok 0 token -> eruns read (f, token) (fun r w => recovering_wf (fst w) /\
    token_ok 0 (snd w) /\ recovered 0 1 2 f token r w)) as Hread.
  { intros token Htok. apply (proj2 (recovering_cancelable_sound 4 1 2 PipelinedReadOptions.default 0 f token Hf
      Htok ltac:(lia) ltac:(lia) ltac:(by vm_compute))). }
  destruct (eruns_ended _ _ _ _ (Hread quiet Hquiet) Ht1)
    as (data & w & (_ & _ & Hw) & ->%bool_decide_eq_true).
  pose proof (Hread seek Hseeking) as Hseek. unfold eruns in Hseek.
  destruct (read (f, seek)) as [[d|[c| |]| |] w']; try discriminate Ht2.
  exists (f, quiet), w, w'. split; [done|]. split; [exact Hw|].
  split; [exists seek; apply Hseek|]. by destruct (world (fst w')).
Defined.
