(* ===== verification/VideoReader.v ===== *)
(** * The video reader

    [crates/smb-stream/src/video.rs]: one contiguous window of read-ahead data
    over a source of positional reads. A seek drops the window and moves to a new
    generation; a prefetch extends the window behind the playback cursor. What a
    source promises is the class [ReadSource]; its cancelable form, which also
    looks at a token, is [CancelableSource]. A [Duration] is its nanoseconds, and
    the clock is the list of the durations the next fetches will take. *)
From S2P Require Import Prelude WireError Utf16 Frame Header Create CreateContext Durable.
From S2P Require Import Client Effects Credits MessageIds AsyncResponse Transport Signing Connection.
From S2P Require Import Auth Session Exchange Tree Files Write Read PipelinedRead Cancellation.
From S2P Require Import Ntlm CancelRead Reconnect RecoveringRead RecoveringCancel.

(** [Duration]. *)
Definition as_micros (duration : Z) : Z := duration / 1000.
Definition from_secs (seconds : Z) : Z := seconds * 1000000000.

Module VideoReaderConfig.
Record t : Type := mk {
  read_ahead_bytes : Z;
  target_buffer_duration : Z;
  max_cache_bytes : Z;
  pipeline : PipelinedReadOptions.t
}.
Definition default : t :=
  {| read_ahead_bytes := 2 * 1024 * 1024; target_buffer_duration := from_secs 1;
     max_cache_bytes := 8 * 1024 * 1024; pipeline := PipelinedReadOptions.default |}.
End VideoReaderConfig.

Inductive StreamError : Type :=
  | StreamClient (error : ClientError)
  | StreamReconnect (error : ReconnectError)
  | InvalidConfig (message : string)
  | OffsetOverflow.

Definition is_cancelled (error : StreamError) : bool :=
  match error with
  | StreamClient Cancelled | StreamReconnect ReconnectCancelled => true
  | _ => false
  end.

#[local] Abbreviation stream := (outcome StreamError).

(** ** Times and throughput *)

Definition duration_micros (duration : Z) : Z :=
  match try_from u64_max (as_micros duration) with Some v => v | None => u64_max end.

Definition throughput_bytes_per_second (bytes micros : Z) : option Z :=
  if (bytes =? 0) || (micros =? 0) then None else
  let per_second := saturating_mul u128_max bytes 1000000 / micros in
  Some (match try_from u64_max per_second with Some v => v | None => u64_max end).

Module VideoReaderMetrics.
Record t : Type := mk {
  cache_hits : Z;
  cache_misses : Z;
  foreground_fetches : Z;
  foreground_fetch_bytes : Z;
  foreground_fetch_micros : Z;
  prefetch_fetches : Z;
  prefetch_fetch_bytes : Z;
  prefetch_fetch_micros : Z
}.
Definition default : t := mk 0 0 0 0 0 0 0 0.

Definition foreground_throughput_bytes_per_second (self : t) : option Z :=
  throughput_bytes_per_second (foreground_fetch_bytes self) (foreground_fetch_micros self).

Definition prefetch_throughput_bytes_per_second (self : t) : option Z :=
  throughput_bytes_per_second (prefetch_fetch_bytes self) (prefetch_fetch_micros self).

Definition total_throughput_bytes_per_second (self : t) : option Z :=
  throughput_bytes_per_second
    (saturating_add u64_max (foreground_fetch_bytes self) (prefetch_fetch_bytes self))
    (saturating_add u64_max (foreground_fetch_micros self) (prefetch_fetch_micros self)).

Definition hit (self : t) : t :=
  mk (saturating_add u64_max (cache_hits self) 1) (cache_misses self) (foreground_fetches self)
    (foreground_fetch_bytes self) (foreground_fetch_micros self) (prefetch_fetches self)
    (prefetch_fetch_bytes self) (prefetch_fetch_micros self).

Definition miss (self : t) : t :=
  mk (cache_hits self) (saturating_add u64_max (cache_misses self) 1) (foreground_fetches self)
    (foreground_fetch_bytes self) (foreground_fetch_micros self) (prefetch_fetches self)
    (prefetch_fetch_bytes self) (prefetch_fetch_micros self).

Definition record_foreground_fetch (self : t) (bytes elapsed : Z) : t :=
  mk (cache_hits self) (cache_misses self)
    (saturating_add u64_max (foreground_fetches self) 1)
    (saturating_add u64_max (foreground_fetch_bytes self)
       (match try_from u64_max bytes with Some v => v | None => u64_max end))
    (saturating_add u64_max (foreground_fetch_micros self) (duration_micros elapsed))
    (prefetch_fetches self) (prefetch_fetch_bytes self) (prefetch_fetch_micros self).

Definition record_prefetch_fetch (self : t) (bytes elapsed : Z) : t :=
  mk (cache_hits self) (cache_misses self) (foreground_fetches self)
    (foreground_fetch_bytes self) (foreground_fetch_micros self)
    (saturating_add u64_max (prefetch_fetches self) 1)
    (saturating_add u64_max (prefetch_fetch_bytes self)
       (match try_from u64_max bytes with Some v => v | None => u64_max end))
    (saturating_add u64_max (prefetch_fetch_micros self) (duration_micros elapsed)).
End VideoReaderMetrics.

(** ** The window *)

Definition request_end (offset length_ : Z) : stream Z :=
  let! length_ := ok_or (try_from u64_max length_) OffsetOverflow in
  ok_or (checked_add u64_max offset length_) OffsetOverflow.

Definition target_len (file_len offset length_ : Z) : stream Z :=
  let! requested := ok_or (try_from u64_max length_) OffsetOverflow in
  let! available := sub_or_panic file_len offset in
  ok_or (try_from usize_max (Z.min requested available)) OffsetOverflow.

Module CachedWindow.
Record t : Type := mk { generation : Z; start : Z; data : bytes }.

Definition end_ (self : t) : stream Z :=
  let! n := ok_or (try_from u64_max (len (data self))) OffsetOverflow in
  ok_or (checked_add u64_max (start self) n) OffsetOverflow.

Definition contains (self : t) (offset length_ : Z) : stream bool :=
  let! requested_end := request_end offset length_ in
  if negb (start self <=? offset) then Ok false else
  let! end_ := end_ self in
  Ok (requested_end <=? end_).

Definition slice (self : t) (offset length_ : Z) : stream (option bytes) :=
  let! inside := contains self offset length_ in
  if negb inside then Ok None else
  let! distance := sub_or_panic offset (start self) in
  let! relative := ok_or (try_from usize_max distance) OffsetOverflow in
  let! end_ := ok_or (checked_add usize_max relative length_) OffsetOverflow in
  let! part := Prelude.slice (data self) relative end_ in
  Ok (Some part).
End CachedWindow.

Module PreparedRead.
Inductive t : Type :=
  | Empty
  | Cached (data : bytes)
  | Fetch (target fetch_len reader_generation : Z).
End PreparedRead.

Module PrefetchExtension.
Record t : Type := mk {
  offset : Z;
  fetch_len : Z;
  reader_generation : Z;
  expected_cache_start : Z;
  expected_cache_len : Z;
  drop_prefix : Z
}.
End PrefetchExtension.

Definition validate_config (config : VideoReaderConfig.t) : stream unit :=
  if VideoReaderConfig.read_ahead_bytes config =? 0
  then Err (InvalidConfig "read_ahead_bytes must be greater than zero") else
  if VideoReaderConfig.target_buffer_duration config =? 0
  then Err (InvalidConfig "target_buffer_duration must be greater than zero") else
  if VideoReaderConfig.max_cache_bytes config =? 0
  then Err (InvalidConfig "max_cache_bytes must be greater than zero") else
  if PipelinedReadOptions.chunk_size (VideoReaderConfig.pipeline config) =? 0
  then Err (InvalidConfig "pipeline chunk_size must be greater than zero") else
  if PipelinedReadOptions.max_in_flight (VideoReaderConfig.pipeline config) =? 0
  then Err (InvalidConfig "pipeline max_in_flight must be greater than zero") else
  Ok tt.

(** [v.clamp(min, max)], which asserts that the bounds are in order. *)
Definition clamp (v min max : Z) : stream Z :=
  if min <=? max then Ok (Z.max min (Z.min v max)) else Panic.

(** ** The state of the reader *)

Module VideoReader.
Record t : Type := mk {
  config : VideoReaderConfig.t;
  generation : Z;
  last_request_end : option Z;
  cache : option CachedWindow.t;
  metrics : VideoReaderMetrics.t;
  smoothed_throughput : option Z
}.

Definition new (config : VideoReaderConfig.t) : stream t :=
  let! _ := validate_config config in
  Ok (mk config 0 None None VideoReaderMetrics.default None).

Definition is_current_generation (self : t) (generation_ : Z) : bool := generation self =? generation_.

Definition cached_bytes (self : t) : Z :=
  match cache self with Some window => len (CachedWindow.data window) | None => 0 end.

Definition read_ahead_target_bytes (self : t) : stream Z :=
  let bootstrap := Z.min (VideoReaderConfig.read_ahead_bytes (config self))
                         (VideoReaderConfig.max_cache_bytes (config self)) in
  match smoothed_throughput self with
  | None => Ok bootstrap
  | Some throughput =>
      let target :=
        saturating_mul u128_max throughput
          (as_micros (VideoReaderConfig.target_buffer_duration (config self))) / 1000000 in
      let minimum :=
        Z.max (Z.min (PipelinedReadOptions.chunk_size (VideoReaderConfig.pipeline (config self)))
                     (VideoReaderConfig.max_cache_bytes (config self))) 1 in
      clamp (match try_from usize_max target with Some v => v | None => usize_max end)
        minimum (VideoReaderConfig.max_cache_bytes (config self))
  end.

Definition cached_range (self : t) : stream (option (Z * Z)) :=
  match cache self with
  | None => Ok None
  | Some window =>
      let! end_ := CachedWindow.end_ window in Ok (Some (CachedWindow.start window, end_))
  end.

Definition automatic_prefetch_hint (self : t) (file_len : Z) : stream (option (Z * Z)) :=
  match last_request_end self with
  | None => Ok None
  | Some cursor =>
      if file_len <=? cursor then Ok None else
      match cache self with
      | None => Ok None
      | Some window =>
          if negb (CachedWindow.generation window =? generation self) then Ok None else
          let! cache_end := CachedWindow.end_ window in
          if (cursor <? CachedWindow.start window) || (cache_end <? cursor) then Ok None else
          let! distance := sub_or_panic cache_end cursor in
          let ahead := match try_from usize_max distance with Some v => v | None => usize_max end in
          let! read_ahead_target := read_ahead_target_bytes self in
          let low_water := Z.max (read_ahead_target / 2) 1 in
          if low_water <? ahead then Ok None else Ok (Some (cursor, read_ahead_target))
      end
  end.

Definition bump_generation (self : t) : t :=
  mk (config self) (wrapping_add 64 (generation self) 1) (last_request_end self) (cache self)
    (metrics self) (smoothed_throughput self).
Definition set_cache (self : t) (cache : option CachedWindow.t) : t :=
  mk (config self) (generation self) (last_request_end self) cache (metrics self)
    (smoothed_throughput self).
Definition set_last (self : t) (last : option Z) : t :=
  mk (config self) (generation self) last (cache self) (metrics self) (smoothed_throughput self).
Definition set_metrics (self : t) (metrics : VideoReaderMetrics.t) : t :=
  mk (config self) (generation self) (last_request_end self) (cache self) metrics
    (smoothed_throughput self).
Definition set_throughput (self : t) (throughput : option Z) : t :=
  mk (config self) (generation self) (last_request_end self) (cache self) (metrics self) throughput.

Definition seek (self : t) (offset : Z) : t :=
  set_last (set_cache (bump_generation self) None) (Some offset).

Definition invalidate (self : t) : t := set_last (set_cache (bump_generation self) None) None.

Definition is_seek_miss (self : t) (offset : Z) : stream bool :=
  match last_request_end self with
  | None => Ok false
  | Some last_end =>
      if offset =? last_end then Ok false else
      match cache self with
      | Some window =>
          if CachedWindow.generation window =? generation self then
            let! cache_end := CachedWindow.end_ window in
            Ok (negb ((CachedWindow.start window <=? offset) && (offset <=? cache_end)))
          else Ok true
      | None => Ok true
      end
  end.

Definition record_throughput_sample (self : t) (bytes elapsed : Z) : t :=
  match throughput_bytes_per_second
          (match try_from u64_max bytes with Some v => v | None => u64_max end)
          (duration_micros elapsed) with
  | None => self
  | Some sample =>
      set_throughput self
        (Some (match smoothed_throughput self with
               | None => sample
               | Some previous =>
                   match try_from u64_max ((previous + sample) / 2) with
                   | Some v => v
                   | None => u64_max
                   end
               end))
  end.

Definition record_foreground_fetch (self : t) (bytes elapsed : Z) : t :=
  record_throughput_sample
    (set_metrics self (VideoReaderMetrics.record_foreground_fetch (metrics self) bytes elapsed))
    bytes elapsed.

Definition record_prefetch_fetch (self : t) (bytes elapsed : Z) : t :=
  record_throughput_sample
    (set_metrics self (VideoReaderMetrics.record_prefetch_fetch (metrics self) bytes elapsed))
    bytes elapsed.
End VideoReader.

(** ** The steps between the fetches *)

#[local] Abbreviation view := (VideoReader.t * ReadCancellationToken.t)%type.
#[local] Abbreviation step := (est StreamError view).

Definition on_reader (f : VideoReader.t -> VideoReader.t) : step unit :=
  emodify (fun v => (f (fst v), snd v)).

(** [cancellation] is the generation the call belongs to, if it is cancelable. *)
Definition ensure_not_cancelled (cancellation : option Z) : step unit :=
  match cancellation with
  | None => eret tt
  | Some generation =>
      rec! current :=
        client_on StreamClient snd (fun v token => (fst v, token))
          (ReadCancellationToken.is_current generation) in
      if current : bool then eret tt else efail (StreamClient Cancelled)
  end.

Definition prepare_read (file_len offset length_ : Z) (cancellation : option Z) :
    step PreparedRead.t :=
  rec! _ := ensure_not_cancelled cancellation in
  if (length_ =? 0) || (file_len <=? offset) then eret PreparedRead.Empty else
  rec! target := elift (target_len file_len offset length_) in
  rec! self := eget fst in
  rec! cached := elift
    (match VideoReader.cache self with
     | Some window =>
         if CachedWindow.generation window =? VideoReader.generation self
         then CachedWindow.slice window offset target else Ok None
     | None => Ok None
     end) in
  match cached with
  | Some data =>
      rec! _ := ensure_not_cancelled cancellation in
      rec! last := elift (request_end offset (len data)) in
      rec! _ := on_reader (fun self => VideoReader.set_last self (Some last)) in
      rec! _ := on_reader (fun self =>
        VideoReader.set_metrics self (VideoReaderMetrics.hit (VideoReader.metrics self))) in
      eret (PreparedRead.Cached data)
  | None =>
      rec! _ := on_reader (fun self =>
        VideoReader.set_metrics self (VideoReaderMetrics.miss (VideoReader.metrics self))) in
      rec! self := eget fst in
      rec! seek_miss := elift (VideoReader.is_seek_miss self offset) in
      rec! _ := on_reader (fun self =>
        if seek_miss : bool
        then VideoReader.set_cache (VideoReader.bump_generation self) None else self) in
      rec! self := eget fst in
      rec! rest := elift (sub_or_panic file_len offset) in
      let remaining := match try_from usize_max rest with Some v => v | None => usize_max end in
      rec! read_ahead_target := elift (VideoReader.read_ahead_target_bytes self) in
      let config := VideoReader.config self in
      let foreground_read_ahead :=
        Z.min (saturating_mul usize_max
                 (PipelinedReadOptions.chunk_size (VideoReaderConfig.pipeline config))
                 (PipelinedReadOptions.max_in_flight (VideoReaderConfig.pipeline config)))
              read_ahead_target in
      let fetch_len :=
        if VideoReaderConfig.max_cache_bytes config <? target then target
        else Z.min (Z.min (Z.max target foreground_read_ahead)
                          (VideoReaderConfig.max_cache_bytes config)) remaining in
      eret (PreparedRead.Fetch target fetch_len (VideoReader.generation self))
  end.

(** What of the window a refill may drop: what lies behind the cursor by more
    than the read-ahead target. *)
Definition prefetch_plan (self : VideoReader.t) (window : CachedWindow.t) (cache_end file_len : Z) :
    stream (option PrefetchExtension.t) :=
  let max_cache_bytes := VideoReaderConfig.max_cache_bytes (VideoReader.config self) in
  let start := CachedWindow.start window in
  let cursor := default start (VideoReader.last_request_end self) in
  let! read_ahead_target := VideoReader.read_ahead_target_bytes self in
  let! retain_back :=
    ok_or (try_from u64_max (Z.min read_ahead_target max_cache_bytes)) OffsetOverflow in
  let keep_from := Z.max (saturating_sub cursor retain_back) start in
  let! distance := sub_or_panic keep_from start in
  let! drop_prefix := ok_or (try_from usize_max distance) OffsetOverflow in
  let! retained_len := ok_or (checked_sub (len (CachedWindow.data window)) drop_prefix) OffsetOverflow in
  let! available_capacity := ok_or (checked_sub max_cache_bytes retained_len) OffsetOverflow in
  if available_capacity =? 0 then Ok None else
  let! rest := sub_or_panic file_len cache_end in
  let file_remaining := match try_from usize_max rest with Some v => v | None => usize_max end in
  let! read_ahead_target := VideoReader.read_ahead_target_bytes self in
  let fetch_len := Z.min (Z.min read_ahead_target available_capacity) file_remaining in
  if fetch_len =? 0 then Ok None else
  Ok (Some {| PrefetchExtension.offset := cache_end;
              PrefetchExtension.fetch_len := fetch_len;
              PrefetchExtension.reader_generation := VideoReader.generation self;
              PrefetchExtension.expected_cache_start := start;
              PrefetchExtension.expected_cache_len := len (CachedWindow.data window);
              PrefetchExtension.drop_prefix := drop_prefix |}).

Definition prepare_prefetch_extension (file_len hint_offset hint_length : Z)
    (cancellation : option Z) : step (option PrefetchExtension.t) :=
  rec! _ := ensure_not_cancelled cancellation in
  if (hint_length =? 0) || (file_len <=? hint_offset) then eret None else
  rec! self := eget fst in
  match VideoReader.cache self with
  | None => eret None
  | Some window =>
      if negb (CachedWindow.generation window =? VideoReader.generation self) then eret None else
      rec! cache_end := elift (CachedWindow.end_ window) in
      if (hint_offset <? CachedWindow.start window) || (cache_end <? hint_offset)
         || (file_len <=? cache_end) then eret None
      else elift (prefetch_plan self window cache_end file_len)
  end.

Definition finish_fetch (offset target reader_generation : Z) (fetched : bytes)
    (cancellation : option Z) : step bytes :=
  rec! _ := ensure_not_cancelled cancellation in
  rec! self := eget fst in
  if negb (reader_generation =? VideoReader.generation self) then eret [] else
  let returned_len := Z.min target (len fetched) in
  rec! result := elift (slice fetched 0 returned_len) in
  rec! last := elift (request_end offset returned_len) in
  rec! _ := on_reader (fun self => VideoReader.set_last self (Some last)) in
  rec! _ := on_reader (fun self =>
    VideoReader.set_cache self
      (if len fetched <=? VideoReaderConfig.max_cache_bytes (VideoReader.config self)
       then Some (CachedWindow.mk reader_generation offset fetched) else None)) in
  eret result.

(** The guard of [finish_prefetch_extension]: the window is the one the plan was
    made for. *)
Definition plan_is_current (plan : PrefetchExtension.t) (window : CachedWindow.t) : stream bool :=
  if negb (CachedWindow.generation window =? PrefetchExtension.reader_generation plan)
     || negb (CachedWindow.start window =? PrefetchExtension.expected_cache_start plan)
     || negb (len (CachedWindow.data window) =? PrefetchExtension.expected_cache_len plan)
  then Ok false else
  let! end_ := CachedWindow.end_ window in
  Ok (negb (negb (end_ =? PrefetchExtension.offset plan)
            || (len (CachedWindow.data window) <? PrefetchExtension.drop_prefix plan))).

Definition set_window (window : CachedWindow.t) : step unit :=
  on_reader (fun self => VideoReader.set_cache self (Some window)).

(** [cache.data.drain(..dropped)], and then the new start. *)
Definition drop_front (window : CachedWindow.t) (dropped : Z) : step CachedWindow.t :=
  if 0 <? dropped then
    rec! dropped_u64 := elift (ok_or (try_from u64_max dropped) OffsetOverflow) in
    rec! rest := elift (slice_from (CachedWindow.data window) dropped) in
    let window := CachedWindow.mk (CachedWindow.generation window) (CachedWindow.start window) rest in
    rec! _ := set_window window in
    rec! start := elift (ok_or (checked_add u64_max (CachedWindow.start window) dropped_u64)
                               OffsetOverflow) in
    let window := CachedWindow.mk (CachedWindow.generation window) start (CachedWindow.data window) in
    rec! _ := set_window window in
    eret window
  else eret window.

Definition finish_prefetch_extension (plan : PrefetchExtension.t) (fetched : bytes)
    (cancellation : option Z) : step Z :=
  rec! _ := ensure_not_cancelled cancellation in
  rec! self := eget fst in
  if negb (PrefetchExtension.reader_generation plan =? VideoReader.generation self) then eret 0 else
  match VideoReader.cache self with
  | None => eret 0
  | Some window =>
      rec! current := elift (plan_is_current plan window) in
      if negb current then eret 0 else
      rec! window := drop_front window (PrefetchExtension.drop_prefix plan) in
      rec! capacity := elift
        (sub_or_panic (VideoReaderConfig.max_cache_bytes (VideoReader.config self))
                      (len (CachedWindow.data window))) in
      let append_len := Z.min (len fetched) capacity in
      rec! part := elift (slice fetched 0 append_len) in
      rec! _ := set_window (CachedWindow.mk (CachedWindow.generation window)
        (CachedWindow.start window) (CachedWindow.data window ++ part)) in
      eret append_len
  end.

(** ** Reading through a source *)

(** What the reader needs of a source of positional reads, and of one whose
    reads a token can cancel. *)
Class ReadSource (S : Type) : Type := {
  source_len : S -> Z;
  fetch : nat -> Z -> Z -> PipelinedReadOptions.t -> est StreamError S bytes
}.
Class CancelableSource (S : Type) : Type := {
  fetch_cancelable :
    nat -> Z -> Z -> PipelinedReadOptions.t -> Z -> est StreamError (S * ReadCancellationToken.t) bytes
}.

Module Player.
Record t (S : Type) : Type := mk {
  reader : VideoReader.t;
  source : S;
  token : ReadCancellationToken.t;
  clock : list Z
}.
End Player.
Arguments Player.mk {S}.
Arguments Player.reader {S}.
Arguments Player.source {S}.
Arguments Player.token {S}.
Arguments Player.clock {S}.

Section player.
Context {S : Type} `{ReadSource S}.
#[local] Abbreviation player := (Player.t S).

(** A step of the reader, and a fetch by the source. *)
Definition with_view {A} (m : step A) : est StreamError player A := fun p =>
  let '(r, (reader, token)) := m (Player.reader p, Player.token p) in
  (r, Player.mk reader (Player.source p) token (Player.clock p)).
Definition with_source {A} (m : est StreamError (S * ReadCancellationToken.t) A) :
    est StreamError player A := fun p =>
  let '(r, (source, token)) := m (Player.source p, Player.token p) in
  (r, Player.mk (Player.reader p) source token (Player.clock p)).

(** [Instant::now()] before a fetch and [started.elapsed()] after it. *)
Definition elapsed : est StreamError player Z := fun p =>
  match Player.clock p with
  | [] => (Ok 0, p)
  | t :: clock => (Ok t, Player.mk (Player.reader p) (Player.source p) (Player.token p) clock)
  end.

Definition uncancelable {A} (m : est StreamError S A) : est StreamError (S * ReadCancellationToken.t) A :=
  fun s => let '(r, source) := m (fst s) in (r, (source, snd s)).

(** [read_impl] and [read_recovering_impl], over the [get] of the source. *)
Definition read_with (cancellation : option Z)
    (get : Z -> Z -> PipelinedReadOptions.t -> est StreamError (S * ReadCancellationToken.t) bytes)
    (offset length_ : Z) : est StreamError player bytes :=
  rec! file_len := eget (fun p => source_len (Player.source p)) in
  rec! prepared := with_view (prepare_read file_len offset length_ cancellation) in
  match prepared with
  | PreparedRead.Empty => eret []
  | PreparedRead.Cached data => eret data
  | PreparedRead.Fetch target fetch_len reader_generation =>
      rec! options := eget (fun p =>
        VideoReaderConfig.pipeline (VideoReader.config (Player.reader p))) in
      rec! fetched := with_source (get offset fetch_len options) in
      rec! elapsed := elapsed in
      rec! _ := with_view (on_reader (fun self =>
        VideoReader.record_foreground_fetch self (len fetched) elapsed)) in
      with_view (finish_fetch offset target reader_generation fetched cancellation)
  end.

(** [read] and [read_recovering]. *)
Definition read (patience : nat) : Z -> Z -> est StreamError player bytes :=
  read_with None (fun offset n options => uncancelable (fetch patience offset n options)).

Context `{CancelableSource S}.

(** [read_cancelable], also over a file that reconnects. *)
Definition read_cancelable (patience : nat) (offset length_ generation : Z) :
    est StreamError player bytes :=
  read_with (Some generation)
    (fun offset n options => fetch_cancelable patience offset n options generation) offset length_.

(** [prefetch_cancelable], also over a file that reconnects. *)
Definition prefetch_cancelable (patience : nat) (hint_offset hint_length generation : Z) :
    est StreamError player Z :=
  rec! file_len := eget (fun p => source_len (Player.source p)) in
  rec! plan := with_view
    (prepare_prefetch_extension file_len hint_offset hint_length (Some generation)) in
  match plan with
  | None => eret 0
  | Some plan =>
      rec! options := eget (fun p =>
        VideoReaderConfig.pipeline (VideoReader.config (Player.reader p))) in
      rec! fetched := with_source
        (fetch_cancelable patience (PrefetchExtension.offset plan) (PrefetchExtension.fetch_len plan)
           options generation) in
      rec! elapsed := elapsed in
      rec! _ := with_view (on_reader (fun self =>
        VideoReader.record_prefetch_fetch self (len fetched) elapsed)) in
      with_view (finish_prefetch_extension plan fetched (Some generation))
  end.
End player.

(** ** The sources of the library *)

Section sources.
Context {T : Type} `{Transport T} `{Crypto}.

(** A session and an open file, which the reader does not change. *)
#[export] Instance session_source : ReadSource (SessionConnection.t T * FileHandle.t) := {
  source_len s := FileHandle.length_ (snd s);
  fetch patience offset n options := fun s =>
    client_on StreamClient fst (fun s session => (session, snd s))
      (read_at_pipelined_with_options patience (snd s) offset n options) s
}.

#[export] Instance session_cancelable : CancelableSource (SessionConnection.t T * FileHandle.t) := {
  fetch_cancelable patience offset n options generation := fun s =>
    client_on StreamClient (fun s => (fst (fst s), snd s))
      (fun s w => ((fst w, snd (fst s)), snd w))
      (read_at_pipelined_cancelable_with_options patience (snd (fst s)) offset n options generation) s
}.

Context {W : Type} `{NtlmEnvironment} `{Host T W}.

Definition stream_reconnect {S A} (m : est ReconnectError S A) : est StreamError S A := fun s =>
  let '(r, s) := m s in (omap_err StreamReconnect r, s).

(** A file that reconnects. *)
#[export] Instance recovering_source : ReadSource (RecoveringReadOnlyFile T W) := {
  source_len f := FileHandle.length_ (file f);
  fetch patience offset n options :=
    stream_reconnect (recovering_read_at_pipelined_with_options patience offset n options)
}.

#[export] Instance recovering_cancelable : CancelableSource (RecoveringReadOnlyFile T W) := {
  fetch_cancelable patience offset n options generation :=
    stream_reconnect (recovering_read_at_pipelined_cancelable_with_options patience offset n options generation)
}.

(** A player over such a file. *)
#[local] Abbreviation recovering_player := (Player.t (RecoveringReadOnlyFile T W)).

Definition read_recovering_impl (patience : nat) (offset length_ : Z) (cancellation : option Z) :
    est StreamError recovering_player bytes :=
  match cancellation with
  | None => read patience offset length_
  | Some generation => read_cancelable patience offset length_ generation
  end.

Definition read_recovering (patience : nat) (offset length_ : Z) : est StreamError recovering_player bytes :=
  read_recovering_impl patience offset length_ None.

Definition read_recovering_cancelable (patience : nat) (offset length_ generation : Z) :
    est StreamError recovering_player bytes :=
  read_recovering_impl patience offset length_ (Some generation).

Definition prefetch_recovering_cancelable (patience : nat) (hint_offset hint_length generation : Z) :
    est StreamError recovering_player Z :=
  prefetch_cancelable patience hint_offset hint_length generation.
End sources.
