(* ===== verification/VideoSafety.v ===== *)
(** * The video reader shows the file

    The laws of [VideoReader], proved against the interface of a source: what
    [SourceLaws] and [CancelableLaws] promise is what the reader's theorems rest
    on, and sessions and a file in memory are shown to keep the promise. *)
From S2P Require Import Prelude WireError Utf16 Frame Header Create CreateContext Durable.
From S2P Require Import Client Effects Credits MessageIds AsyncResponse Transport Signing Connection.
From S2P Require Import Auth Session Exchange Tree Files Write Read PipelinedRead Cancellation.
From S2P Require Import Ntlm CancelRead CancelSafety Reconnect RecoveringRead VideoReader.

(** ** Interfaces *)

Definition options_wf (options : PipelinedReadOptions.t) : Prop :=
  0 < PipelinedReadOptions.chunk_size options <= usize_max /\
  0 < PipelinedReadOptions.max_in_flight options <= usize_max.

(** The bytes [data] are what [served] says of the positions from [offset] on. *)
Definition good (served : Z -> byte -> Prop) (offset : Z) (data : bytes) : Prop :=
  forall i b, data !! i = Some b -> served (offset + Z.of_nat i) b.

(** What a fetch of [n] bytes returned: at most as many, and all of them if the
    source is [whole]. *)
Definition fetched_ok (served : Z -> byte -> Prop) (whole : Prop) (offset n : Z) (data : bytes) : Prop :=
  good served offset data /\ len data <= n /\ (whole -> len data = n).

Definition source_error (e : StreamError) : Prop :=
  match e with StreamClient _ | StreamReconnect _ => True | _ => False end.

Definition fetch_result (served : Z -> byte -> Prop) (whole : Prop) (offset n : Z)
    (r : outcome StreamError bytes) : Prop :=
  match r with
  | Ok data => fetched_ok served whole offset n data
  | Err e => source_error e
  | _ => True
  end.

(** What a fetch leaves of the source. *)
Definition source_kept {S} `{ReadSource S} (inv : S -> Prop) (served : S -> Z -> byte -> Prop)
    (whole : Prop) (s s' : S) : Prop :=
  inv s' /\ (forall p b, served s p b -> served s' p b) /\ (whole -> source_len s' = source_len s).

(** A source that stays within [inv] only returns bytes that are [served], and
    what it served stays so. *)
Class SourceLaws (S : Type) `{ReadSource S} (inv : S -> Prop) (served : S -> Z -> byte -> Prop)
    (whole : Prop) : Prop := {
  source_len_ok s : inv s -> u64 (source_len s);
  fetch_ok patience offset n options s : inv s -> options_wf options ->
    Z.of_nat patience < usize_max -> 0 <= offset < source_len s -> 0 < n ->
    eruns (fetch patience offset n options) s (fun r s' =>
      source_kept inv served whole s s' /\
      fetch_result (served s') whole offset (Z.min n (source_len s - offset)) r)
}.
Class CancelableLaws (S : Type) `{ReadSource S} `{CancelableSource S} (inv : S -> Prop)
    (served : S -> Z -> byte -> Prop) (whole : Prop) : Prop := {
  fetch_cancelable_ok patience offset n options generation s tok : inv s -> options_wf options ->
    token_ok generation tok -> 0 <= offset < source_len s -> 0 < n ->
    eruns (fetch_cancelable patience offset n options generation) (s, tok) (fun r w =>
      source_kept inv served whole s (fst w) /\ token_ok generation (snd w) /\
      fetch_result (served (fst w)) whole offset (Z.min n (source_len s - offset)) r)
}.

(** ** The invariant of the reader *)

Definition config_wf (config : VideoReaderConfig.t) : Prop :=
  0 < VideoReaderConfig.read_ahead_bytes config <= usize_max /\
  0 < VideoReaderConfig.target_buffer_duration config /\
  0 < VideoReaderConfig.max_cache_bytes config <= usize_max /\
  options_wf (VideoReaderConfig.pipeline config).

Definition window_end (window : CachedWindow.t) : Z :=
  CachedWindow.start window + len (CachedWindow.data window).

(** The window is of this generation, within the budget, holds what was served,
    and the cursor is in it. *)
Record window_ok (served : Z -> byte -> Prop) (self : VideoReader.t) (window : CachedWindow.t) : Prop := {
  window_generation : CachedWindow.generation window = VideoReader.generation self;
  window_start : 0 <= CachedWindow.start window;
  window_fits : window_end window <= u64_max;
  window_size : len (CachedWindow.data window)
                <= VideoReaderConfig.max_cache_bytes (VideoReader.config self);
  window_good : good served (CachedWindow.start window) (CachedWindow.data window);
  window_cursor : exists cursor, VideoReader.last_request_end self = Some cursor /\
    CachedWindow.start window <= cursor <= window_end window
}.

Record reader_wf (served : Z -> byte -> Prop) (self : VideoReader.t) : Prop := {
  reader_config : config_wf (VideoReader.config self);
  reader_generation : u64 (VideoReader.generation self);
  reader_last : forall e, VideoReader.last_request_end self = Some e -> u64 e;
  reader_throughput : forall v, VideoReader.smoothed_throughput self = Some v -> u64 v;
  reader_window : forall window, VideoReader.cache self = Some window -> window_ok served self window
}.

Definition cancellation_ok (cancellation : option Z) (tok : ReadCancellationToken.t) : Prop :=
  match cancellation with Some generation => token_ok generation tok | None => True end.

(** A pure step that does not fail. *)
Definition yields {A} (m : outcome StreamError A) (Q : A -> Prop) : Prop := exists a, m = Ok a /\ Q a.

Lemma yields_ok {A} (a : A) (Q : A -> Prop) : Q a -> yields (Ok a) Q.
Proof. by exists a. Qed.
Lemma yields_bind {A B} (m : outcome StreamError A) (k : A -> outcome StreamError B) P Q :
  yields m P -> (forall a, P a -> yields (k a) Q) -> yields (obind m k) Q.
Proof. intros (a & -> & Ha) Hk. by apply Hk. Qed.
Lemma yields_mono {A} (m : outcome StreamError A) (P Q : A -> Prop) :
  yields m P -> (forall a, P a -> Q a) -> yields m Q.
Proof. intros (a & -> & Ha) HQ. exists a. auto. Qed.

Lemma eruns_yields {S A B} (m : outcome StreamError A) (k : A -> est StreamError S B) s P
    (Q : outcome StreamError B -> S -> Prop) :
  yields m P -> (forall a, P a -> eruns (k a) s Q) -> eruns (ebind (elift m) k) s Q.
Proof. intros (a & -> & Ha) Hk. by apply Hk. Qed.

Section laws.
Context (served : Z -> byte -> Prop).
#[local] Abbreviation good := (good served).
#[local] Abbreviation wf := (reader_wf served).
#[local] Abbreviation view := (VideoReader.t * ReadCancellationToken.t)%type.

Lemma good_nil offset : good offset [].
Proof. by intros i b. Qed.

Lemma good_app offset d1 d2 : good offset d1 -> good (offset + len d1) d2 -> good offset (d1 ++ d2).
Proof.
  intros H1 H2 i b [Hi|[Hge Hi]]%lookup_app_Some; [by apply H1|].
  specialize (H2 _ _ Hi). unfold len in H2. by replace (offset + Z.of_nat i)
    with (offset + Z.of_nat (length d1) + Z.of_nat (i - length d1)) by lia.
Qed.

Lemma good_drop offset data n : 0 <= n -> good offset data -> good (offset + n) (drop (Z.to_nat n) data).
Proof.
  intros Hn Hg i b Hi. rewrite lookup_drop in Hi. specialize (Hg _ _ Hi).
  by replace (offset + n + Z.of_nat i) with (offset + Z.of_nat (Z.to_nat n + i)) by lia.
Qed.

Lemma good_take offset data n : good offset data -> good offset (take n data).
Proof. intros Hg i b Hi. apply Hg. by apply lookup_take_Some in Hi as [? _]. Qed.

(** ** Numbers *)

Lemma default_u64 v : 0 <= v -> u64 (match try_from u64_max v with Some v => v | None => u64_max end).
Proof.
  intros ?. unfold try_from. destruct (Z.leb_spec v u64_max); unfold uint, u64_max in *; lia.
Qed.

Lemma throughput_u64 n micros v : 0 <= n -> 0 <= micros ->
  throughput_bytes_per_second n micros = Some v -> u64 v.
Proof.
  intros ? ?. unfold throughput_bytes_per_second, saturating_mul. destruct (_ || _) eqn:Hz; [done|].
  intros [= <-]. apply orb_false_iff in Hz as [_ Hz%Z.eqb_neq].
  apply default_u64, Z.div_pos; unfold u128_max; lia.
Qed.

Lemma read_ahead_target_yields (self : VideoReader.t) : wf self ->
  yields (VideoReader.read_ahead_target_bytes self) (fun v =>
    1 <= v <= VideoReaderConfig.max_cache_bytes (VideoReader.config self)).
Proof.
  intros [(Hr & Hd & Hm & Hc & Hf) _ _ Ht _]. unfold VideoReader.read_ahead_target_bytes.
  destruct (VideoReader.smoothed_throughput self) as [v|]; [|apply yields_ok; lia].
  unfold clamp. rewrite (proj2 (Z.leb_le _ _)) by lia. apply yields_ok. lia.
Qed.

(** ** The window *)

Lemma request_end_ok offset n : 0 <= offset -> offset + n <= u64_max ->
  request_end offset n = Ok (offset + n).
Proof.
  intros ? ?. unfold request_end, checked_add. rewrite try_from_ok by lia. cbn [ok_or obind].
  by rewrite (proj2 (Z.leb_le _ _)) by lia.
Qed.

Lemma target_len_yields file_len offset length_ : 0 <= length_ <= usize_max -> offset < file_len ->
  target_len file_len offset length_ = Ok (Z.min length_ (file_len - offset)).
Proof.
  intros ? ?. unfold target_len, sub_or_panic.
  rewrite try_from_ok by (unfold u64_max, usize_max in *; lia). cbn [ok_or obind].
  rewrite (proj2 (Z.leb_le _ _)) by lia. cbn [obind].
  by rewrite try_from_ok by lia.
Qed.

Lemma window_end_ok self window : window_ok served self window ->
  CachedWindow.end_ window = Ok (window_end window).
Proof.
  intros []. unfold CachedWindow.end_, window_end in *. pose proof (len_nonneg (CachedWindow.data window)).
  rewrite try_from_ok by lia. cbn [ok_or obind]. unfold checked_add.
  by rewrite (proj2 (Z.leb_le _ _)) by lia.
Qed.

(** A cached range is returned as it was served. *)
Lemma window_slice_yields self window offset n : window_ok served self window ->
  0 <= n -> 0 <= offset -> offset + n <= u64_max ->
  yields (CachedWindow.slice window offset n) (fun r =>
    match r with
    | Some data => good offset data /\ len data = n /\
        CachedWindow.start window <= offset /\ offset + n <= window_end window
    | None => True
    end).
Proof.
  intros Hw Hn Ho Hfit. pose proof (window_end_ok _ _ Hw) as He. destruct Hw.
  unfold CachedWindow.slice, CachedWindow.contains, request_end, checked_add.
  rewrite try_from_ok by lia. cbn [ok_or obind]. rewrite (proj2 (Z.leb_le _ _)) by lia. cbn [ok_or obind].
  destruct (Z.leb_spec (CachedWindow.start window) offset); [|by apply yields_ok]. cbn [negb]. rewrite He. cbn [obind].
  destruct (Z.leb_spec (offset + n) (window_end window)) as [Hin|]; [|by apply yields_ok]. cbn [negb].
  unfold window_end, sub_or_panic in *. rewrite (proj2 (Z.leb_le _ _)) by lia. cbn [obind].
  rewrite try_from_ok by (unfold usize_max, u64_max in *; lia). cbn [ok_or obind].
  rewrite (proj2 (Z.leb_le _ _)) by (unfold usize_max, u64_max in *; lia). cbn [ok_or obind].
  rewrite slice_ok by lia. apply yields_ok. split; [|split; [|lia]].
  - unfold sub. apply good_take.
    pose proof (good_drop (CachedWindow.start window) (CachedWindow.data window)
      (offset - CachedWindow.start window) ltac:(lia) window_good0) as Hg.
    by replace (CachedWindow.start window + (offset - CachedWindow.start window)) with offset in Hg by lia.
  - unfold len, sub in *. rewrite length_take, length_drop. lia.
Qed.

(** ** Changes of the reader that keep the invariant *)

Lemma set_metrics_wf self m : wf self -> wf (VideoReader.set_metrics self m).
Proof. intros [? ? ? ? Hw]. split; try done. intros w Hc. by destruct (Hw w Hc). Qed.

Lemma set_throughput_wf self v : wf self -> (forall x, v = Some x -> u64 x) ->
  wf (VideoReader.set_throughput self v).
Proof. intros [? ? ? ? Hw] Hv. split; try done. intros w Hc. by destruct (Hw w Hc). Qed.

Lemma sample_wf self n elapsed : 0 <= n -> 0 <= elapsed -> wf self ->
  wf (VideoReader.record_throughput_sample self n elapsed).
Proof.
  intros ? He Hw. unfold VideoReader.record_throughput_sample.
  assert (0 <= duration_micros elapsed).
  { unfold duration_micros, as_micros. apply default_u64, Z.div_pos; lia. }
  destruct (throughput_bytes_per_second _ _) as [v|] eqn:Ev; [|done].
  apply throughput_u64 in Ev; [|by apply default_u64|done].
  apply set_throughput_wf; [done|]. intros x [= <-].
  destruct (VideoReader.smoothed_throughput self) as [prev|] eqn:Ep; [|done].
  apply (reader_throughput _ _ Hw) in Ep. apply default_u64.
  unfold uint in *. apply Z.div_pos; lia.
Qed.

Lemma record_foreground_wf self n elapsed : 0 <= n -> 0 <= elapsed -> wf self ->
  wf (VideoReader.record_foreground_fetch self n elapsed).
Proof. intros. by apply sample_wf, set_metrics_wf. Qed.
Lemma record_prefetch_wf self n elapsed : 0 <= n -> 0 <= elapsed -> wf self ->
  wf (VideoReader.record_prefetch_fetch self n elapsed).
Proof. intros. by apply sample_wf, set_metrics_wf. Qed.

(** What the measurements leave alone. *)
Lemma sample_same self n elapsed :
  let self' := VideoReader.record_throughput_sample self n elapsed in
  VideoReader.config self' = VideoReader.config self /\
  VideoReader.generation self' = VideoReader.generation self /\
  VideoReader.cache self' = VideoReader.cache self /\
  VideoReader.last_request_end self' = VideoReader.last_request_end self.
Proof. unfold VideoReader.record_throughput_sample. by case_match. Qed.

Lemma bump_wf self last : wf self -> (forall e, last = Some e -> u64 e) ->
  wf (VideoReader.set_last (VideoReader.set_cache (VideoReader.bump_generation self) None) last).
Proof.
  intros [? ? ? ? _] Hlast. split; cbn; try done. unfold wrapping_add, uint. apply Z.mod_pos_bound. lia.
Qed.

Lemma seek_wf self offset : wf self -> u64 offset -> wf (VideoReader.seek self offset).
Proof. intros. apply bump_wf; [done|]. by intros e [= <-]. Qed.
Lemma invalidate_wf self : wf self -> wf (VideoReader.invalidate self).
Proof. intros. by apply bump_wf. Qed.
Lemma drop_cache_wf self : wf self ->
  wf (VideoReader.set_cache (VideoReader.bump_generation self) None).
Proof.
  intros Hw. apply (bump_wf self (VideoReader.last_request_end self)) in Hw as Hw'; [exact Hw'|].
  apply Hw.
Qed.

Lemma new_wf config self : VideoReader.new config = Ok self ->
  VideoReaderConfig.read_ahead_bytes config <= usize_max ->
  0 <= VideoReaderConfig.read_ahead_bytes config ->
  0 <= VideoReaderConfig.target_buffer_duration config ->
  0 <= VideoReaderConfig.max_cache_bytes config <= usize_max ->
  0 <= PipelinedReadOptions.chunk_size (VideoReaderConfig.pipeline config) <= usize_max ->
  0 <= PipelinedReadOptions.max_in_flight (VideoReaderConfig.pipeline config) <= usize_max ->
  wf self.
Proof.
  unfold VideoReader.new, validate_config. intros Hn. repeat case_match; try discriminate Hn.
  cbn [obind] in Hn. injection Hn as <-. bool_facts. intros. split; cbn; try done.
  unfold config_wf, options_wf. split_and!; lia.
Qed.

(** ** The steps *)

Lemma ensure_runs cancellation self tok :
  cancellation_ok cancellation tok ->
  eruns (ensure_not_cancelled cancellation) (self, tok) (fun r v =>
    fst v = self /\ cancellation_ok cancellation (snd v) /\
    match r with Err e => e = StreamClient Cancelled | _ => True end).
Proof.
  destruct cancellation as [g|]; [|done]. intros [Hw Hg]. unfold ensure_not_cancelled.
  apply eruns_bind, eruns_client_on. unfold runs, ReadCancellationToken.is_current. cbn.
  destruct (ReadCancellationToken.interfere_wf tok Hw) as [Hw' Hle].
  assert (token_ok g (ReadCancellationToken.interfere tok)) by (split; [done|lia]).
  by destruct (_ =? _).
Qed.

Lemma ensure_bind {A} cancellation (k : unit -> est StreamError view A) self tok
    (Q : outcome StreamError A -> view -> Prop) :
  cancellation_ok cancellation tok ->
  (forall tok', cancellation_ok cancellation tok' -> Q (Err (StreamClient Cancelled)) (self, tok')) ->
  (forall tok', cancellation_ok cancellation tok' -> eruns (k tt) (self, tok') Q) ->
  eruns (ebind (ensure_not_cancelled cancellation) k) (self, tok) Q.
Proof.
  intros Hc Herr Hk. apply eruns_bind. eapply eruns_mono; [by apply ensure_runs|].
  intros r [self' tok'] (Hs & Hc' & Hr). cbn in *. subst self'. destruct r as [[]|e| |]; try done.
  - by apply Hk.
  - subst e. by apply Herr.
Qed.

(** The plan of a read. *)
Definition prepared (file_len offset length_ : Z) (self : VideoReader.t)
    (r : outcome StreamError PreparedRead.t) (self' : VideoReader.t) : Prop :=
  match r with
  | Ok PreparedRead.Empty => self' = self /\ (length_ = 0 \/ file_len <= offset)
  | Ok (PreparedRead.Cached data) => offset < file_len /\ good offset data /\
      len data = Z.min length_ (file_len - offset)
  | Ok (PreparedRead.Fetch target fetch_len generation) => 0 < length_ /\ offset < file_len /\
      target = Z.min length_ (file_len - offset) /\ target <= fetch_len <= file_len - offset /\
      generation = VideoReader.generation self'
  | Err e => e = StreamClient Cancelled
  | _ => True
  end.

Lemma seek_miss_yields self offset : wf self -> yields (VideoReader.is_seek_miss self offset) (fun _ => True).
Proof.
  intros [_ _ _ _ Hw]. unfold VideoReader.is_seek_miss.
  destruct (VideoReader.last_request_end self) as [e|]; [|by apply yields_ok].
  case_match; [by apply yields_ok|].
  destruct (VideoReader.cache self) as [w|] eqn:Hc; [|by apply yields_ok].
  case_match; [|by apply yields_ok].
  rewrite (window_end_ok _ _ (Hw w eq_refl)). by apply yields_ok.
Qed.

Lemma hit_wf self window offset n : wf self -> VideoReader.cache self = Some window ->
  CachedWindow.start window <= offset -> 0 <= n -> offset + n <= window_end window ->
  wf (VideoReader.set_metrics (VideoReader.set_last self (Some (offset + n)))
        (VideoReaderMetrics.hit (VideoReader.metrics self))).
Proof.
  intros Hw Hc Hs Hn He. pose proof (reader_window _ _ Hw _ Hc) as []. destruct Hw.
  split; cbn; try done.
  - intros e [= <-]. unfold uint, u64_max in *. lia.
  - rewrite Hc. intros w [= <-]. split; cbn; try done. exists (offset + n). split; [done|lia].
Qed.

Lemma prepare_read_runs file_len offset length_ cancellation self tok :
  wf self -> cancellation_ok cancellation tok -> u64 file_len -> u64 offset -> 0 <= length_ <= usize_max ->
  eruns (prepare_read file_len offset length_ cancellation) (self, tok) (fun r v =>
    wf (fst v) /\ cancellation_ok cancellation (snd v) /\
    VideoReader.config (fst v) = VideoReader.config self /\
    prepared file_len offset length_ self r (fst v)).
Proof.
  intros Hw Hc Hf Ho Hl. unfold prepare_read. apply ensure_bind; [done|by intros|intros tok1 Hc1].
  destruct (_ || _) eqn:Hz.
  { unfold eruns, eret. cbn. split_and!; try done. apply orb_true_iff in Hz as [?|?]; bool_facts; lia. }
  bool_facts. assert (offset < file_len /\ 0 < length_) as [Hof Hpos] by (destruct Ho; lia).
  rewrite target_len_yields by lia. set (target := Z.min length_ (file_len - offset)).
  apply eruns_bind_lift; [done..|intros ? [= <-]]. apply eruns_get. cbn [fst].
  assert (offset + target <= u64_max) as Hfit by (unfold uint, u64_max in *; lia).
  assert (yields (match VideoReader.cache self with
     | Some window => if CachedWindow.generation window =? VideoReader.generation self
         then CachedWindow.slice window offset target else Ok None
     | None => Ok None
     end) (fun r => match r with
       | Some data => good offset data /\ len data = target /\ exists window,
           VideoReader.cache self = Some window /\ CachedWindow.start window <= offset /\
           offset + target <= window_end window
       | None => True end)) as Hm.
  { destruct (VideoReader.cache self) as [w|] eqn:Ecache; [|by apply yields_ok].
    case_match; [|by apply yields_ok].
    eapply yields_mono; [apply (window_slice_yields self); [by apply (reader_window _ _ Hw)|..];
      destruct Ho; lia|].
    intros [data|]; [|done]. intros (? & ? & ? & ?). split; [done|]. split; [done|]. by exists w. }
  eapply eruns_yields; [exact Hm|]. clear Hm. intros cached Hm.
  destruct cached as [data|].
  - destruct Hm as (Hgood & Hlen & window & Hwin & Hst & Hend).
    apply ensure_bind; [done|by intros|intros tok2 Hc2]. rewrite Hlen, request_end_ok by (destruct Ho; lia).
    apply eruns_bind_lift; [done..|intros ? [= <-]]. do 2 apply eruns_modify.
    unfold eruns, eret. cbn. split; [eapply hit_wf; [done|done|done|lia|done]|]. by split_and!.
  - apply eruns_modify. cbn [fst snd]. apply eruns_get. cbn [fst].
    set (self1 := VideoReader.set_metrics _ _). assert (wf self1) as Hw1 by by apply set_metrics_wf.
    eapply eruns_yields; [by apply seek_miss_yields|]. intros seek_miss _. apply eruns_modify. cbn [fst snd]. apply eruns_get. cbn [fst].
    set (self2 := if seek_miss then _ else _).
    assert (wf self2 /\ VideoReader.config self2 = VideoReader.config self) as [Hw2 Hcfg].
    { subst self2. destruct seek_miss; [|done]. split; [by apply drop_cache_wf|done]. }
    unfold sub_or_panic. rewrite (proj2 (Z.leb_le _ _)) by lia.
    apply eruns_bind_lift; [done..|intros ? [= <-]].
    rewrite try_from_ok by (unfold uint, usize_max in *; lia).
    eapply eruns_yields; [by apply read_ahead_target_yields|]. intros read_ahead Hra.
    unfold eruns, eret. cbn [fst snd]. split; [done|]. split; [done|]. split; [done|].
    cbn [prepared]. split; [done|]. split; [done|]. split; [done|]. split; [|done].
    destruct (Z.ltb_spec (VideoReaderConfig.max_cache_bytes (VideoReader.config self2)) target); lia.
Qed.

(** What comes back of a fetch; the rest of it becomes the window. *)
Lemma finish_fetch_runs offset target fetched cancellation self tok :
  wf self -> cancellation_ok cancellation tok -> 0 <= offset -> 0 <= target ->
  offset + len fetched <= u64_max -> good offset fetched ->
  eruns (finish_fetch offset target (VideoReader.generation self) fetched cancellation) (self, tok)
    (fun r v => wf (fst v) /\ cancellation_ok cancellation (snd v) /\
       VideoReader.config (fst v) = VideoReader.config self /\
       match r with
       | Ok data => good offset data /\ len data = Z.min target (len fetched)
       | Err e => e = StreamClient Cancelled
       | _ => True
       end).
Proof.
  intros Hw Hc Ho Ht Hfit Hg. unfold finish_fetch. apply ensure_bind; [done|by intros|intros tok1 Hc1].
  apply eruns_get. cbn [fst]. rewrite Z.eqb_refl. cbn [negb]. pose proof (len_nonneg fetched).
  rewrite slice_ok by lia. apply eruns_bind_lift; [done..|intros ? [= <-]].
  rewrite request_end_ok by lia. apply eruns_bind_lift; [done..|intros ? [= <-]].
  do 2 apply eruns_modify. unfold eruns, eret. cbn [fst snd].
  split; [|split; [done|split; [done|]]].
  - destruct Hw. split; cbn; try done.
    + intros e [= <-]. unfold uint, u64_max in *. lia.
    + destruct (Z.leb_spec (len fetched) (VideoReaderConfig.max_cache_bytes (VideoReader.config self)));
        [|done].
      intros w [= <-]. unfold window_end. split; cbn; try done.
      exists (offset + Z.min target (len fetched)). split; [done|]. unfold window_end. cbn. lia.
  - unfold sub. cbn [Z.to_nat drop]. split; [by apply good_take|].
    rewrite Z.sub_0_r. unfold len in *. rewrite length_take, length_drop. lia.
Qed.

(** ** Prefetching *)

(** A plan is for the window it was made for, fetches right behind it, and drops
    nothing at or after the cursor. *)
Record plan_ok (self : VideoReader.t) (window : CachedWindow.t) (file_len : Z)
    (plan : PrefetchExtension.t) : Prop := {
  plan_offset : PrefetchExtension.offset plan = window_end window;
  plan_generation : PrefetchExtension.reader_generation plan = VideoReader.generation self;
  plan_start : PrefetchExtension.expected_cache_start plan = CachedWindow.start window;
  plan_len : PrefetchExtension.expected_cache_len plan = len (CachedWindow.data window);
  plan_drop : 0 <= PrefetchExtension.drop_prefix plan <= len (CachedWindow.data window);
  plan_cursor : forall cursor, VideoReader.last_request_end self = Some cursor ->
    CachedWindow.start window + PrefetchExtension.drop_prefix plan <= cursor;
  plan_fetch : 0 < PrefetchExtension.fetch_len plan <= file_len - window_end window;
  plan_room : len (CachedWindow.data window) - PrefetchExtension.drop_prefix plan
              + PrefetchExtension.fetch_len plan
              <= VideoReaderConfig.max_cache_bytes (VideoReader.config self)
}.

Lemma prefetch_plan_yields self window file_len :
  wf self -> VideoReader.cache self = Some window -> window_end window < file_len -> u64 file_len ->
  yields (prefetch_plan self window (window_end window) file_len) (fun r =>
    forall plan, r = Some plan -> plan_ok self window file_len plan).
Proof.
  intros Hw Hc Hlt Hf. unfold prefetch_plan.
  pose proof (reader_window _ _ Hw _ Hc) as [Hgen Hst Hfit Hsize _ (cursor & Hcur & Hin)].
  destruct (reader_config _ _ Hw) as (_ & _ & Hmax & _). unfold window_end in *.
  pose proof (len_nonneg (CachedWindow.data window)).
  rewrite Hcur. change (default (CachedWindow.start window) (Some cursor)) with cursor.
  destruct (read_ahead_target_yields self Hw) as (v & Hv & Hvb).
  rewrite Hv. cbn [obind]. rewrite try_from_ok by (unfold u64_max, usize_max in *; lia). cbn [ok_or obind].
  unfold sub_or_panic, saturating_sub. rewrite (proj2 (Z.leb_le _ _)) by lia. cbn [obind].
  rewrite try_from_ok by (unfold usize_max, u64_max in *; lia). cbn [ok_or obind]. cbv zeta.
  set (dropped := Z.max (Z.max 0 (cursor - Z.min v _)) (CachedWindow.start window) - CachedWindow.start window).
  assert (0 <= dropped <= cursor - CachedWindow.start window) as Hd by lia.
  unfold checked_sub. rewrite (proj2 (Z.leb_le _ _)) by lia. cbn [ok_or obind].
  rewrite (proj2 (Z.leb_le _ _)) by lia. cbn [ok_or obind].
  case_match; [by apply yields_ok|]. rewrite (proj2 (Z.leb_le _ _)) by lia. cbn [obind].
  rewrite try_from_ok by (unfold uint, usize_max in *; lia).
  case_match; [by apply yields_ok|]. bool_facts. apply yields_ok. intros plan [= <-].
  split; cbn; unfold window_end; try done; try lia. rewrite Hcur. intros ? [= <-]. lia.
Qed.

Lemma prepare_prefetch_runs file_len hint_offset hint_length cancellation self tok :
  wf self -> cancellation_ok cancellation tok -> u64 file_len ->
  eruns (prepare_prefetch_extension file_len hint_offset hint_length cancellation) (self, tok)
    (fun r v => fst v = self /\ cancellation_ok cancellation (snd v) /\
       match r with
       | Ok (Some plan) => exists window, VideoReader.cache self = Some window /\
           plan_ok self window file_len plan
       | Err e => e = StreamClient Cancelled
       | _ => True
       end).
Proof.
  intros Hw Hc Hf. unfold prepare_prefetch_extension.
  apply ensure_bind; [done|by intros|intros tok1 Hc1]. case_match; [done|]. apply eruns_get. cbn [fst].
  destruct (VideoReader.cache self) as [window|] eqn:Hwin; [|done].
  pose proof (reader_window _ _ Hw _ Hwin) as Hok. case_match; [done|].
  rewrite (window_end_ok _ _ Hok). apply eruns_bind_lift; [done..|intros ? [= <-]].
  destruct (_ || (file_len <=? window_end window)) eqn:Hout; [done|].
  apply orb_false_iff in Hout as [_ Hlt%Z.leb_gt].
  destruct (prefetch_plan_yields self window file_len Hw Hwin Hlt Hf) as (r & Hr & Hplan).
  unfold eruns, elift. rewrite Hr. destruct r as [plan|]; [|done]. cbn. split; [done|]. split; [done|].
  exists window. auto.
Qed.

(** The window after a refill: what it held from some point before the cursor
    on, and more behind it. *)
Definition extended (before after : CachedWindow.t) (dropped : Z) (more : bytes) : Prop :=
  CachedWindow.start after = CachedWindow.start before + dropped /\
  CachedWindow.data after = drop (Z.to_nat dropped) (CachedWindow.data before) ++ more.

Lemma drop_front_runs window dropped self tok (Q : outcome StreamError CachedWindow.t -> view -> Prop) :
  0 <= dropped <= len (CachedWindow.data window) -> 0 <= CachedWindow.start window ->
  window_end window <= u64_max ->
  (forall window' cache, extended window window' dropped [] ->
     CachedWindow.generation window' = CachedWindow.generation window ->
     (cache = VideoReader.cache self \/ cache = Some window') ->
     Q (Ok window') (VideoReader.set_cache self cache, tok)) ->
  eruns (drop_front window dropped) (self, tok) Q.
Proof.
  intros Hd Hs Hfit HQ. unfold drop_front, window_end in *. destruct (Z.ltb_spec 0 dropped).
  - rewrite try_from_ok by lia. apply eruns_bind_lift; [done..|intros ? [= <-]].
    rewrite slice_from_ok by lia. apply eruns_bind_lift; [done..|intros ? [= <-]].
    apply eruns_modify. cbn [CachedWindow.start]. unfold checked_add.
    rewrite (proj2 (Z.leb_le _ _)) by lia.
    apply eruns_bind_lift; [done..|intros ? [= <-]]. apply eruns_modify. unfold eruns, eret. cbn.
    apply (HQ (CachedWindow.mk _ _ _)); [|done|by right]. split; cbn; [done|by rewrite app_nil_r].
  - assert (dropped = 0) as -> by lia. unfold eruns, eret.
    replace self with (VideoReader.set_cache self (VideoReader.cache self)) at 1 by by destruct self.
    apply HQ; [|done|by left]. split; [lia|]. by rewrite app_nil_r.
Qed.

Lemma extended_wf self window window' dropped more cache :
  wf self -> VideoReader.cache self = Some window ->
  CachedWindow.generation window' = CachedWindow.generation window ->
  extended window window' dropped more ->
  0 <= dropped <= len (CachedWindow.data window) ->
  (forall cursor, VideoReader.last_request_end self = Some cursor ->
     CachedWindow.start window + dropped <= cursor) ->
  good (window_end window) more -> window_end window + len more <= u64_max ->
  len (CachedWindow.data window) - dropped + len more
    <= VideoReaderConfig.max_cache_bytes (VideoReader.config self) ->
  wf (VideoReader.set_cache (VideoReader.set_cache self cache) (Some window')).
Proof.
  intros Hw Hc Hgen [Hst Hdata] Hd Hcur Hg Hfit Hroom.
  pose proof (reader_window _ _ Hw _ Hc) as [Hgen' Hst' Hfit' Hsize Hgood (cursor & Hlast & Hin)].
  destruct Hw. specialize (Hcur cursor Hlast). pose proof (len_nonneg more).
  assert (len (CachedWindow.data window') = len (CachedWindow.data window) - dropped + len more) as Hlen.
  { rewrite Hdata, len_app. unfold len in *. rewrite length_drop. lia. }
  split; cbn; try done. intros w [= <-].
  split; cbn; unfold window_end in *; rewrite ?Hlen, ?Hst; try lia.
  - rewrite Hdata. apply good_app; [apply good_drop; [lia|done]|].
    replace (CachedWindow.start window + dropped + _) with (CachedWindow.start window
      + len (CachedWindow.data window)); [done|]. unfold len in *. rewrite length_drop. lia.
  - exists cursor. split; [done|lia].
Qed.

(** A refill keeps the invariant, and the window from before the cursor on. *)
Lemma finish_prefetch_runs plan window fetched cancellation self tok file_len :
  wf self -> cancellation_ok cancellation tok -> u64 file_len ->
  VideoReader.cache self = Some window -> plan_ok self window file_len plan ->
  good (window_end window) fetched -> len fetched <= PrefetchExtension.fetch_len plan ->
  eruns (finish_prefetch_extension plan fetched cancellation) (self, tok) (fun r v =>
    wf (fst v) /\ cancellation_ok cancellation (snd v) /\
    VideoReader.config (fst v) = VideoReader.config self /\
    VideoReader.last_request_end (fst v) = VideoReader.last_request_end self /\
    VideoReader.generation (fst v) = VideoReader.generation self /\
    match r with
    | Ok n => n = len fetched /\ exists window', VideoReader.cache (fst v) = Some window' /\
        extended window window' (PrefetchExtension.drop_prefix plan) fetched
    | Err e => e = StreamClient Cancelled /\ fst v = self
    | _ => True
    end).
Proof.
  intros Hw Hc Hf Hwin [Hpo Hpg Hps Hpl Hpd Hpc Hpf Hpr] Hg Hlen. unfold finish_prefetch_extension.
  pose proof (reader_window _ _ Hw _ Hwin) as Hok. pose proof (len_nonneg fetched).
  apply ensure_bind; [done|by intros|intros tok1 Hc1]. apply eruns_get. cbn [fst].
  rewrite Hpg, Z.eqb_refl, Hwin. cbn [negb].
  apply eruns_yields with (P := fun b => b = true).
  { unfold plan_is_current. rewrite Hpg, Hps, Hpl, (window_generation _ _ _ Hok), !Z.eqb_refl.
    cbn [negb orb]. rewrite (window_end_ok _ _ Hok). cbn [obind]. rewrite Hpo, Z.eqb_refl.
    rewrite (proj2 (Z.ltb_ge _ _)) by lia. by apply yields_ok. }
  intros ? ->. cbn [negb]. apply eruns_bind. destruct Hok.
  apply drop_front_runs; [done..|]. intros window' cache [Hst Hdata] Hgen _. rewrite app_nil_r in Hdata.
  assert (len (CachedWindow.data window') = len (CachedWindow.data window) - PrefetchExtension.drop_prefix plan)
    as Hl by (rewrite Hdata; unfold len in *; rewrite length_drop; lia).
  unfold sub_or_panic. rewrite (proj2 (Z.leb_le _ _)) by lia.
  apply eruns_bind_lift; [done..|intros ? [= <-]]. rewrite Z.min_l by lia.
  rewrite slice_ok by lia. apply eruns_bind_lift; [done..|intros ? [= <-]].
  apply eruns_modify. unfold eruns, eret. cbn [fst snd].
  replace (sub fetched 0 (len fetched - 0)) with fetched.
  2:{ unfold sub, len. change (Z.to_nat 0) with O. rewrite drop_0, take_ge; [done|lia]. }
  assert (extended window (CachedWindow.mk (CachedWindow.generation window') (CachedWindow.start window')
    (CachedWindow.data window' ++ fetched)) (PrefetchExtension.drop_prefix plan) fetched) as Hext
    by (split; cbn; [done|by rewrite Hdata]).
  split; [|split_and!; try done; eexists; split; [done|exact Hext]].
  eapply extended_wf; [exact Hw|exact Hwin|exact Hgen|exact Hext|done..|unfold uint, u64_max in *; lia|lia].
Qed.
End laws.

Lemma window_ok_mono (served served' : Z -> byte -> Prop) self window :
  (forall p b, served p b -> served' p b) -> window_ok served self window -> window_ok served' self window.
Proof. intros Hs [? ? ? ? Hg ?]. split; try done. intros i b Hi. by apply Hs, Hg. Qed.

Lemma reader_wf_mono (served served' : Z -> byte -> Prop) self :
  (forall p b, served p b -> served' p b) -> reader_wf served self -> reader_wf served' self.
Proof.
  intros Hs [? ? ? ? Hw]. split; try done. intros window Hc. by eapply window_ok_mono; [|apply Hw].
Qed.

(** ** The reader over a source *)

Section players.
Context {S : Type} `{ReadSource S} (inv : S -> Prop) (served : S -> Z -> byte -> Prop)
  (whole : Prop).
#[local] Abbreviation player := (Player.t S).

Record player_wf (p : player) : Prop := {
  player_reader : reader_wf (served (Player.source p)) (Player.reader p);
  player_source : inv (Player.source p);
  player_clock : Forall (fun t => 0 <= t) (Player.clock p)
}.

(** The bytes of the file from [offset] on, [length_] of them or what is left. *)
Definition read_ok (source : S) (file_len offset length_ : Z) (r : outcome StreamError bytes) : Prop :=
  let wanted := Z.max 0 (Z.min length_ (file_len - offset)) in
  match r with
  | Ok data => good (served source) offset data /\ len data <= wanted /\ (whole -> len data = wanted)
  | Err e => source_error e
  | _ => True
  end.

(** What the calls of the reader leave of the player. *)
Definition kept_by (cancellation : option Z) (p p' : player) : Prop :=
  player_wf p' /\ cancellation_ok cancellation (Player.token p') /\
  VideoReader.config (Player.reader p') = VideoReader.config (Player.reader p) /\
  source_kept inv served whole (Player.source p) (Player.source p').

Definition gets (cancellation : option Z)
    (get : Z -> Z -> PipelinedReadOptions.t -> est StreamError (S * ReadCancellationToken.t) bytes) : Prop :=
  forall offset n options s tok, inv s -> options_wf options -> cancellation_ok cancellation tok ->
    0 <= offset < source_len s -> 0 < n ->
    eruns (get offset n options) (s, tok) (fun r w =>
      source_kept inv served whole s (fst w) /\ cancellation_ok cancellation (snd w) /\
      fetch_result (served (fst w)) whole offset (Z.min n (source_len s - offset)) r).

Lemma with_view_runs {A B} (m : est StreamError (VideoReader.t * ReadCancellationToken.t) A)
    (k : A -> est StreamError player B) p P Q :
  eruns m (Player.reader p, Player.token p) P ->
  (forall r v, P r v ->
     let p' := Player.mk (fst v) (Player.source p) (snd v) (Player.clock p) in
     match r with Ok a => eruns (k a) p' Q | Err e => Q (Err e) p' | _ => True end) ->
  eruns (ebind (with_view m) k) p Q.
Proof.
  intros Hm HQ. apply eruns_bind. unfold eruns, with_view in *.
  destruct (m _) as [[a|e| |] [reader token]]; [|by apply (HQ (Err e) _ Hm)|done..]. by apply (HQ (Ok a) _ Hm).
Qed.

Lemma with_view_last {A} (m : est StreamError (VideoReader.t * ReadCancellationToken.t) A) p P
    (Q : outcome StreamError A -> player -> Prop) :
  eruns m (Player.reader p, Player.token p) P ->
  (forall r v, P r v -> Q r (Player.mk (fst v) (Player.source p) (snd v) (Player.clock p))) ->
  eruns (with_view m) p Q.
Proof.
  intros Hm HQ. unfold eruns, with_view in *.
  destruct (m _) as [[a|e| |] [reader token]]; [..|done|done]; by apply (HQ _ _ Hm).
Qed.

Lemma on_reader_runs {B} f (k : unit -> est StreamError player B) p Q :
  eruns (k tt) (Player.mk (f (Player.reader p)) (Player.source p) (Player.token p) (Player.clock p)) Q ->
  eruns (ebind (with_view (on_reader f)) k) p Q.
Proof. done. Qed.

Lemma with_source_runs {A B} (m : est StreamError (S * ReadCancellationToken.t) A)
    (k : A -> est StreamError player B) p P Q :
  eruns m (Player.source p, Player.token p) P ->
  (forall r w, P r w ->
     let p' := Player.mk (Player.reader p) (fst w) (snd w) (Player.clock p) in
     match r with Ok a => eruns (k a) p' Q | Err e => Q (Err e) p' | _ => True end) ->
  eruns (ebind (with_source m) k) p Q.
Proof.
  intros Hm HQ. apply eruns_bind. unfold eruns, with_source in *.
  destruct (m _) as [[a|e| |] [source token]]; [|by apply (HQ (Err e) _ Hm)|done..]. by apply (HQ (Ok a) _ Hm).
Qed.

Lemma elapsed_runs {B} (k : Z -> est StreamError player B) p Q :
  Forall (fun t => 0 <= t) (Player.clock p) ->
  (forall t clock, 0 <= t -> Forall (fun t => 0 <= t) clock ->
     eruns (k t) (Player.mk (Player.reader p) (Player.source p) (Player.token p) clock) Q) ->
  eruns (ebind elapsed k) p Q.
Proof.
  intros Hc Hk. unfold eruns, ebind, elapsed. destruct p as [reader source token [|t clock]]; cbn in *.
  - by apply (Hk 0 []).
  - apply Forall_cons in Hc as [? ?]. by apply Hk.
Qed.

Context {Hlaws : SourceLaws S inv served whole}.

(** Every read through a source that keeps the laws returns what was served for
    its positions, and keeps the invariant. *)
Lemma read_with_runs cancellation get p offset length_ :
  player_wf p -> cancellation_ok cancellation (Player.token p) -> gets cancellation get ->
  u64 offset -> 0 <= length_ <= usize_max ->
  eruns (read_with cancellation get offset length_) p (fun r p' =>
    kept_by cancellation p p' /\ read_ok (Player.source p') (source_len (Player.source p)) offset length_ r).
Proof.
  intros [Hw Hs Hclk] Hc Hget Ho Hl. unfold read_with. apply eruns_get.
  pose proof (source_len_ok _ Hs) as Hlen. set (file_len := source_len (Player.source p)) in *.
  eapply with_view_runs; [by apply (prepare_read_runs (served (Player.source p)) file_len)|]. cbn zeta.
  intros r [reader tok] (Hw1 & Hc1 & Hcfg & Hp). cbn [fst snd] in *.
  assert (forall m, kept_by cancellation p (Player.mk reader (Player.source p) tok m) <->
    Forall (fun t => 0 <= t) m) as Hkeep.
  { intros m. split; [by intros [[] _]|]. intros ?. by split_and!. }
  destruct r as [plan|e| |]; [|by cbn in Hp; subst e; split; [apply Hkeep|]|done..].
  destruct plan as [|data|target n generation]; cbn [prepared] in Hp.
  - unfold eruns, eret. split; [by apply Hkeep|]. destruct Hp as [_ Hz]. unfold read_ok.
    change (len []) with 0. split; [apply good_nil|]. destruct Hl. lia.
  - unfold eruns, eret. split; [by apply Hkeep|]. destruct Hp as (Hlt & Hg & Hd). unfold read_ok.
    split; [done|]. destruct Hl. lia.
  - destruct Hp as (Hpos & Hlt & -> & Hn & ->). apply eruns_get. cbn [Player.reader].
    destruct Ho. eapply with_source_runs; cbn [Player.source Player.token];
      [apply Hget; [done|apply Hw1|done|split; done|lia]|]. cbn zeta.
    intros r [source tok2] (Hs2 & Hc2 & Hr). cbn [fst snd Player.reader Player.clock] in *.
    assert (reader_wf (served source) reader) as Hw1' by (eapply reader_wf_mono; [apply Hs2|done]).
    destruct r as [fetched|e| |]; [|by split; [split; [split; [|apply Hs2|]|]|]|done..].
    destruct Hr as (Hg & Hfl & Hfw). apply elapsed_runs; [done|]. intros t clock Ht Hclk'.
    apply on_reader_runs. cbn [Player.reader Player.source Player.token Player.clock].
    set (reader2 := VideoReader.record_foreground_fetch reader (len fetched) t).
    pose proof (len_nonneg fetched).
    assert (reader_wf (served source) reader2) as Hw2 by by apply record_foreground_wf.
    destruct (sample_same (VideoReader.set_metrics reader (VideoReaderMetrics.record_foreground_fetch
      (VideoReader.metrics reader) (len fetched) t)) (len fetched) t) as (Hcfg2 & Hgen2 & _).
    fold (VideoReader.record_foreground_fetch reader (len fetched) t) in Hcfg2, Hgen2. fold reader2 in Hcfg2, Hgen2.
    cbn in Hcfg2, Hgen2. rewrite <- Hgen2.
    eapply with_view_last; [apply (finish_fetch_runs (served source)); try done; unfold uint, u64_max in *; lia|].
    intros r [reader3 tok3] (Hw3 & Hc3 & Hcfg3 & Hr). cbn [fst snd Player.source Player.clock] in *.
    split; [split; [split; [done|apply Hs2|done]|split_and!; cbn in *; (done || congruence)]|].
    unfold read_ok. destruct r as [data|e| |]; [|by subst e|done..]. destruct Hr as [? Hd].
    split; [done|]. rewrite Hd. split; [lia|]. intros Hwh. specialize (Hfw Hwh). lia.
Qed.

Lemma read_runs patience p offset length_ : player_wf p -> Z.of_nat patience < usize_max ->
  u64 offset -> 0 <= length_ <= usize_max ->
  eruns (read patience offset length_) p (fun r p' =>
    kept_by None p p' /\ read_ok (Player.source p') (source_len (Player.source p)) offset length_ r).
Proof.
  intros. apply read_with_runs; [done..| |done|done].
  intros o n options s tok Hs Hopt _ Ho Hn. unfold eruns, uncancelable. cbn [fst snd].
  pose proof (fetch_ok patience o n options s Hs Hopt ltac:(done) Ho Hn) as Hf. unfold eruns in Hf.
  destruct (fetch _ _ _ _ s) as [[| | |] source]; [..|done|done]; destruct Hf as (? & ?); by split_and!.
Qed.

Context `{CS : CancelableSource S} {Hclaws : CancelableLaws S inv served whole}.

Lemma fetch_cancelable_gets patience generation :
  gets (Some generation) (fun o n options => fetch_cancelable patience o n options generation).
Proof. intros o n options s tok Hs Hopt Hc Ho Hn. by apply fetch_cancelable_ok. Qed.

Lemma read_cancelable_runs patience p offset length_ generation :
  player_wf p -> token_ok generation (Player.token p) -> u64 offset -> 0 <= length_ <= usize_max ->
  eruns (read_cancelable patience offset length_ generation) p (fun r p' =>
    kept_by (Some generation) p p' /\ read_ok (Player.source p') (source_len (Player.source p)) offset length_ r).
Proof. intros. apply read_with_runs; [done..|apply fetch_cancelable_gets|done|done]. Qed.

(** A prefetch leaves the cursor and the generation alone, and appends what it
    fetched to the window, which keeps everything from the cursor on. *)
Definition prefetched (before after : VideoReader.t) (r : outcome StreamError Z) : Prop :=
  VideoReader.last_request_end after = VideoReader.last_request_end before /\
  VideoReader.generation after = VideoReader.generation before /\
  match r with
  | Ok n => n = 0 /\ VideoReader.cache after = VideoReader.cache before \/
      exists w w' dropped more cursor,
        VideoReader.cache before = Some w /\ VideoReader.cache after = Some w' /\
        VideoReader.last_request_end before = Some cursor /\
        extended w w' dropped more /\ n = len more /\
        0 <= dropped /\ CachedWindow.start w + dropped <= cursor <= window_end w
  | Err e => source_error e /\ VideoReader.cache after = VideoReader.cache before
  | _ => True
  end.

Lemma prefetch_cancelable_runs patience p hint_offset hint_length generation :
  player_wf p -> token_ok generation (Player.token p) ->
  eruns (prefetch_cancelable patience hint_offset hint_length generation) p (fun r p' =>
    kept_by (Some generation) p p' /\ prefetched (Player.reader p) (Player.reader p') r).
Proof.
  intros [Hw Hs Hclk] Hc. unfold prefetch_cancelable. apply eruns_get.
  pose proof (source_len_ok _ Hs) as Hlen. set (file_len := source_len (Player.source p)) in *.
  eapply with_view_runs; [by apply (prepare_prefetch_runs (served (Player.source p)) file_len)|]. cbn zeta.
  intros r [reader tok] (Hsame & Hc1 & Hp). cbn [fst snd] in *. subst reader.
  destruct r as [[plan|]|e| |]; [|by split; [|split_and!; try done; left]|by subst e|done..].
  destruct Hp as (window & Hwin & Hplan). apply eruns_get. cbn [Player.reader].
  pose proof (reader_window _ _ Hw _ Hwin) as Hok.
  pose proof (plan_offset _ _ _ _ Hplan) as Hpo. pose proof (plan_fetch _ _ _ _ Hplan) as Hpf.
  pose proof (len_nonneg (CachedWindow.data window)). pose proof (window_start _ _ _ Hok).
  assert (0 <= PrefetchExtension.offset plan < file_len) as Ho by (unfold window_end in *; lia).
  eapply with_source_runs; cbn [Player.source Player.token];
    [apply fetch_cancelable_gets; [done|apply Hw|done|exact Ho|lia]|]. cbn zeta.
  intros r [source tok2] (Hs2 & Hc2 & Hr). cbn [fst snd Player.reader Player.clock] in *.
  assert (reader_wf (served source) (Player.reader p)) as Hws by (eapply reader_wf_mono; [apply Hs2|done]).
  destruct r as [fetched|e| |]; [|by split; [split; [split; [|apply Hs2|]|]|]|done..].
  destruct Hr as (Hg & Hfl & _). apply elapsed_runs; [done|]. intros t clock Ht Hclk'.
  apply on_reader_runs. cbn [Player.reader Player.source Player.token Player.clock].
  set (reader2 := VideoReader.record_prefetch_fetch (Player.reader p) (len fetched) t).
  pose proof (len_nonneg fetched).
  assert (reader_wf (served source) reader2) as Hw2 by by apply record_prefetch_wf.
  destruct (sample_same (VideoReader.set_metrics (Player.reader p) (VideoReaderMetrics.record_prefetch_fetch
      (VideoReader.metrics (Player.reader p)) (len fetched) t)) (len fetched) t)
    as (Hcfg2 & Hgen2 & Hcache2 & Hlast2).
  change (VideoReader.record_throughput_sample _ _ _) with reader2 in Hcfg2, Hgen2, Hcache2, Hlast2.
  cbn in Hcfg2, Hgen2, Hcache2, Hlast2.
  assert (plan_ok reader2 window file_len plan) as Hplan2.
  { destruct Hplan. split; rewrite ?Hgen2, ?Hlast2, ?Hcfg2; done. }
  eapply with_view_last.
  { apply (finish_prefetch_runs (served source) plan window) with (file_len := file_len); try done.
    - cbn. congruence.
    - by rewrite <- Hpo.
    - lia. }
  intros r [reader3 tok3] (Hw3 & Hc3 & Hcfg3 & Hlast3 & Hgen3 & Hr). cbn in *.
  split; [split; [split; [done|apply Hs2|done]|split_and!; cbn; (done || congruence)]|].
  split; [congruence|]. split; [congruence|].
  destruct r as [n|e| |]; [|by destruct Hr as [-> ->]|done..].
  destruct Hr as (-> & w' & Hw' & Hext). right. destruct (window_cursor _ _ _ Hok) as (cursor & Hcur & Hin).
  exists window, w', (PrefetchExtension.drop_prefix plan), fetched, cursor.
  pose proof (plan_cursor _ _ _ _ Hplan _ Hcur). pose proof (plan_drop _ _ _ _ Hplan).
  split_and!; try done; lia.
Qed.
End players.
