(* ===== verification/VideoPlayback.v ===== *)
(** * Playback through the video reader

    Sessions keep the promise of a source, so what the reader shows is what the
    server sent for exactly those positions; and over a source that holds a file
    any sequence of reads, prefetches and seeks refines reading that file. *)
From S2P Require Import Prelude WireError Utf16 Frame Header Create CreateContext Durable.
From S2P Require Import Client Effects Credits MessageIds AsyncResponse Transport Signing Connection.
From S2P Require Import Auth Session Exchange Tree Files Write Read PipelinedRead Cancellation.
From S2P Require Import Ntlm CancelRead CancelSafety Reconnect RecoveringRead VideoReader VideoSafety.

Lemma eruns_at {E S A} (m m' : est E S A) s Q : m s = m' s -> eruns m' s Q -> eruns m s Q.
Proof. unfold eruns. by intros ->. Qed.

(** ** A session and an open file as a source *)

Section sessions.
Context {T : Type} `{TransportSafe T} `{CryptoLaws}.
#[local] Abbreviation session := (SessionConnection.t T).

(** [b] is the byte that an accepted answer gives for position [p]. *)
Definition answered_byte (s : session) (file : FileHandle.t) (es : list event) (p : Z) (b : byte) : Prop :=
  exists offset n id response h data i,
    requested s file es offset n id /\ answered s file es id response h /\
    response_data response h n data /\ data !! i = Some b /\ p = offset + Z.of_nat i.

Lemma answered_byte_app s file es es' p b :
  answered_byte s file es p b -> answered_byte s file (es ++ es') p b.
Proof.
  intros (o & n & id & m & h & data & i & Hr & Ha & ?). exists o, n, id, m, h, data, i.
  split; [by apply requested_app|]. split; [by apply answered_app|done].
Qed.

Lemma assembled_byte s file es offset data ended : assembled s file es offset data ended ->
  good (answered_byte s file es) offset data.
Proof.
  induction 1 as [|offset n id response h data rest ended Hr Ha Hd Hn _ IH|offset n id response h data Hr Ha Hd _].
  - apply good_nil.
  - apply good_app; [|by rewrite Hn]. intros i b Hi. by exists offset, n, id, response, h, data, i.
  - intros i b Hi. by exists offset, n, id, response, h, data, i.
Qed.

(** What a session says of a byte, the one that it follows says as well. *)
Lemma answered_byte_advances s0 es0 s file es p b : advances s0 es0 s ->
  answered_byte s file es p b -> answered_byte s0 file (es0 ++ es) p b.
Proof.
  intros [_ _ Hs _ _]. rewrite Hs.
  intros (o & n & id & m & h & data & i & (charge & q & Hq & Hreq) & (Hin & Hdec & Hval & Hsig) & ?).
  exists o, n, id, m, h, data, i. split; [|split; [|done]].
  - exists charge, q. split; [apply elem_of_app; by right|exact Hreq].
  - split; [apply elem_of_app; by right|]. split; [done|]. split; [exact Hval|exact Hsig].
Qed.

Section source.
Context (s0 : session) (file : FileHandle.t).

(** The session came from [s0], and the bytes it has shown are those of the
    answers on the way. *)
Definition session_inv (w : session * FileHandle.t) : Prop :=
  snd w = file /\ u64 (FileHandle.length_ file) /\ exists es, advances s0 es (fst w).
Definition session_served (w : session * FileHandle.t) (p : Z) (b : byte) : Prop :=
  exists es, advances s0 es (fst w) /\ answered_byte s0 file es p b.

Lemma session_kept s es s' : session_inv (s, file) -> advances s es s' ->
  source_kept session_inv session_served False (s, file) (s', file).
Proof.
  intros (_ & Hl & es0 & Ha0) Ha. split; [|split; [|done]].
  - split; [done|]. split; [done|]. exists (es0 ++ es). by eapply advances_app.
  - intros p b (es1 & Ha1 & Hb). exists (es1 ++ es). split; [by eapply advances_app|].
    by apply answered_byte_app.
Qed.

Lemma session_good s es s' offset data ended : session_inv (s, file) -> advances s es s' ->
  assembled s file es offset data ended -> good (session_served (s', file)) offset data.
Proof.
  intros (_ & _ & es0 & Ha0) Ha Hd i b Hi. exists (es0 ++ es). split; [by eapply advances_app|].
  eapply answered_byte_advances; [done|]. by eapply assembled_byte.
Qed.

Lemma session_fetch_runs s patience offset n options : session_inv (s, file) -> options_wf options ->
  Z.of_nat patience < usize_max -> 0 <= offset -> 0 < n ->
  runs (read_at_pipelined_with_options patience file offset n options) s (fun r s' =>
    source_kept session_inv session_served False (s, file) (s', file) /\
    fetch_result (session_served (s', file)) False offset (Z.max 0 (Z.min n (FileHandle.length_ file - offset)))
      (omap_err StreamClient r)).
Proof.
  intros Hinv [Hc Hm] Hp Ho Hn. destruct (Hinv) as (_ & Hl & es0 & Ha0). apply runs_bind.
  eapply runs_mono; [apply pipelined_read_runs; [exact (advances_wf _ _ _ Ha0)|lia..]|].
  intros r s' (es & Ha & Hr). pose proof (session_kept s es s' Hinv Ha).
  destruct r as [res|e| |]; [|by split|done..].
  destruct Hr as (ended & Hd & Hle & _). split; [done|]. split; [by eapply session_good|]. by split.
Qed.

Lemma session_cancelable_runs s tok patience offset n options generation : session_inv (s, file) ->
  options_wf options -> token_ok generation tok -> 0 <= offset -> 0 < n ->
  runs (read_at_pipelined_cancelable_with_options patience file offset n options generation) (s, tok)
    (fun r w => source_kept session_inv session_served False (s, file) (fst w, file) /\
       token_ok generation (snd w) /\
       fetch_result (session_served (fst w, file)) False offset
         (Z.max 0 (Z.min n (FileHandle.length_ file - offset))) (omap_err StreamClient r)).
Proof.
  intros Hinv [Hc Hm] Ht Ho Hn. destruct (Hinv) as (_ & Hl & es0 & Ha0).
  eapply runs_mono; [apply cancelable_runs; [exact (advances_wf _ _ _ Ha0)|done|lia..]|].
  intros r [s' tok'] (es & Ht' & Ha & Hr). cbn [app fst snd] in *.
  pose proof (session_kept s es s' Hinv Ha).
  destruct r as [data|e| |]; [|by split_and!|done..].
  destruct Hr as (_ & ended & Hd & Hle & _). split; [done|]. split; [done|].
  split; [by eapply session_good|]. by split.
Qed.

Lemma session_wanted offset n : 0 <= offset < FileHandle.length_ file -> 0 < n ->
  Z.max 0 (Z.min n (FileHandle.length_ file - offset)) = Z.min n (FileHandle.length_ file - offset).
Proof. lia. Qed.

#[export] Instance session_laws :
  SourceLaws (SessionConnection.t T * FileHandle.t) session_inv session_served False.
Proof.
  split.
  - intros [s f] Hinv. destruct Hinv as (Hf & ? & _). cbn in Hf. by subst f.
  - intros patience offset n options [s f] Hinv ? ? Ho ?. pose proof (proj1 Hinv) as Hf. cbn in Hf. subst f.
    change (source_len (s, file)) with (FileHandle.length_ file) in *.
    apply (eruns_at _ (client_on StreamClient fst (fun s session => (session, snd s))
      (read_at_pipelined_with_options patience file offset n options))); [done|]. apply eruns_client_on.
    rewrite <- session_wanted by done. apply session_fetch_runs; (done || lia).
Qed.

#[export] Instance session_cancelable_laws :
  CancelableLaws (SessionConnection.t T * FileHandle.t) session_inv session_served False.
Proof.
  split. intros patience offset n options generation [s f] tok Hinv ? ? Ho ?.
  pose proof (proj1 Hinv) as Hf. cbn in Hf. subst f.
  change (source_len (s, file)) with (FileHandle.length_ file) in *.
  apply (eruns_at _ (client_on StreamClient (fun s => (fst (fst s), snd s))
      (fun s w => ((fst w, snd (fst s)), snd w))
      (read_at_pipelined_cancelable_with_options patience file offset n options generation))); [done|].
  apply eruns_client_on. rewrite <- session_wanted by done. apply session_cancelable_runs; (done || lia).
Qed.
End source.
End sessions.

(** ** Playback *)

(** What is asked of the reader, and how far an answer is waited for. *)
Inductive action : Type :=
  | Watch (patience : nat) (offset length_ : Z)
  | WatchCancelable (patience : nat) (offset length_ generation : Z)
  | Prefetch (patience : nat) (hint_offset hint_length generation : Z)
  | SeekTo (offset : Z)
  | Invalidate.

Section playback.
Context {S : Type} `{ReadSource S} `{CancelableSource S}.
#[local] Abbreviation player := (Player.t S).

Definition perform (a : action) : est StreamError player bytes :=
  match a with
  | Watch patience offset length_ => read patience offset length_
  | WatchCancelable patience offset length_ generation =>
      read_cancelable patience offset length_ generation
  | Prefetch patience hint_offset hint_length generation =>
      rec! _ := prefetch_cancelable patience hint_offset hint_length generation in eret []
  | SeekTo offset =>
      rec! _ := with_view (on_reader (fun self => VideoReader.seek self offset)) in eret []
  | Invalidate => rec! _ := with_view (on_reader VideoReader.invalidate) in eret []
  end.

(** The arguments are of their types, and a generation is one the token has had. *)
Definition callable (p : player) (a : action) : Prop :=
  match a with
  | Watch patience offset length_ =>
      Z.of_nat patience < usize_max /\ u64 offset /\ 0 <= length_ <= usize_max
  | WatchCancelable _ offset length_ generation =>
      token_ok generation (Player.token p) /\ u64 offset /\ 0 <= length_ <= usize_max
  | Prefetch _ _ _ generation => token_ok generation (Player.token p)
  | SeekTo offset => u64 offset
  | Invalidate => True
  end.

(** A playback: the actions with what they came to, a failed one included. *)
Inductive plays : player -> list (action * outcome StreamError bytes) -> player -> Prop :=
  | plays_nil p : plays p [] p
  | plays_step p a r p1 answers p2 :
      callable p a -> perform a p = (r, p1) -> r <> OutOfFuel -> plays p1 answers p2 ->
      plays p ((a, r) :: answers) p2.

Context (inv : S -> Prop) (served : S -> Z -> byte -> Prop) (whole : Prop).
Context `{!SourceLaws S inv served whole} `{!CancelableLaws S inv served whole}.
#[local] Abbreviation wf := (player_wf inv served).

(** What an action may come to, for a file of [file_len] bytes. *)
Definition action_ok (file_len : Z) (source : S) (a : action) (r : outcome StreamError bytes) : Prop :=
  match a with
  | Watch _ offset length_ | WatchCancelable _ offset length_ _ =>
      read_ok served whole source file_len offset length_ r
  | _ =>
      match r with Ok data => data = [] | Err e => source_error e | _ => True end
  end.

Lemma perform_runs p a : wf p -> callable p a ->
  eruns (perform a) p (fun r p' =>
    wf p' /\ source_kept inv served whole (Player.source p) (Player.source p') /\
    action_ok (source_len (Player.source p)) (Player.source p') a r).
Proof.
  intros Hp Hc. destruct a as [patience offset length_|patience offset length_ generation|
    patience ho hl generation|offset|]; cbn [perform callable action_ok] in *.
  - destruct Hc as (? & ? & ?).
    eapply eruns_mono; [by apply (read_runs inv served whole)|]. by intros r p' ((? & ? & ? & ?) & ?).
  - destruct Hc as (? & ? & ?).
    eapply eruns_mono; [by apply (read_cancelable_runs inv served whole)|].
    by intros r p' ((? & ? & ? & ?) & ?).
  - apply eruns_bind. eapply eruns_mono; [by apply (prefetch_cancelable_runs inv served whole)|].
    intros r p' ((? & ? & ? & ?) & _ & _ & Hr). destruct r; try done. by destruct Hr.
  - apply on_reader_runs. destruct Hp. split; [split; [|done..]|]; [by apply seek_wf|].
    split; [|done]. by split_and!.
  - apply on_reader_runs. destruct Hp. split; [split; [|done..]|]; [by apply invalidate_wf|].
    split; [|done]. by split_and!.
Qed.

Lemma action_ok_mono n s s' a r : (forall p b, served s p b -> served s' p b) ->
  action_ok n s a r -> action_ok n s' a r.
Proof.
  intros Hs. destruct a; cbn; try done; destruct r; cbn; try done; intros (Hg & ?);
    (split; [|done]); intros i b Hi; by apply Hs, Hg.
Qed.

(** A source over a file of a fixed length. *)
Lemma plays_runs n : (forall s, inv s -> source_len s = n) ->
  forall p answers p', plays p answers p' -> wf p ->
    wf p' /\ (forall q b, served (Player.source p) q b -> served (Player.source p') q b) /\
    Forall (fun ar => snd ar <> Panic /\ action_ok n (Player.source p') (fst ar) (snd ar)) answers.
Proof.
  intros Hlen. induction 1 as [p|p a r p1 answers p2 Hc Hr Hfuel _ IH]; intros Hp; [by split_and!|].
  pose proof (perform_runs p a Hp Hc) as Hruns. unfold eruns in Hruns. rewrite Hr in Hruns.
  rewrite (Hlen _ (player_source _ _ _ Hp)) in Hruns.
  assert (r <> Panic) as Hpanic by by destruct r.
  assert (wf p1 /\ source_kept inv served whole (Player.source p) (Player.source p1) /\
    action_ok n (Player.source p1) a r) as (Hp1 & (_ & Hmono & _) & Hok) by by destruct r.
  destruct (IH Hp1) as (Hp2 & Hmono2 & Hall). split; [done|]. split; [auto|].
  constructor; [|done]. split; [done|]. by eapply action_ok_mono.
Qed.
End playback.

(** The byte of a file at a position, and the answer that reading the file gives. *)
Definition byte_at (contents : bytes) (p : Z) (b : byte) : Prop :=
  0 <= p /\ contents !! Z.to_nat p = Some b.
Definition file_answer (contents : bytes) (a : action) : bytes :=
  match a with
  | Watch _ offset length_ | WatchCancelable _ offset length_ _ =>
      take (Z.to_nat length_) (drop (Z.to_nat offset) contents)
  | _ => []
  end.

Lemma good_file contents offset data n : 0 <= offset -> good (byte_at contents) offset data ->
  len data = Z.max 0 (Z.min n (len contents - offset)) ->
  data = take (Z.to_nat n) (drop (Z.to_nat offset) contents).
Proof.
  intros Ho Hg Hl. apply list_eq_same_length with (n := length data); [|done|].
  - unfold len in Hl. rewrite length_take, length_drop. lia.
  - intros i x y Hi Hx Hy. apply Hg in Hx as [_ Hx]. apply lookup_take_Some in Hy as [Hy _].
    rewrite lookup_drop in Hy.
    replace (Z.to_nat (offset + Z.of_nat i)) with (Z.to_nat offset + i)%nat in Hx by lia. congruence.
Qed.

(** C3: the video reader refines reading the file. Whatever is played through
    it (reads of any range, cancelable or not, prefetches, seeks and
    invalidations, in any order), over a source that returns the requested bytes
    of a file or fails, every read that succeeds returns exactly the bytes of
    the file in that range, clipped to its end, as if there were no window, no
    generations and no read-ahead; an action fails only with an error of the
    source or a cancellation, nothing panics or overflows, and the reader's
    invariant holds at the end. *)
Theorem video_reader_refines {S : Type} `{ReadSource S} `{CancelableSource S} (inv : S -> Prop) (contents : bytes)
    `{!SourceLaws S inv (fun _ => byte_at contents) True}
    `{!CancelableLaws S inv (fun _ => byte_at contents) True}
    (Hlen : forall s, inv s -> source_len s = len contents)
    (p p' : Player.t S) (answers : list (action * outcome StreamError bytes))
    (Hp : player_wf inv (fun _ => byte_at contents) p) (Hplays : plays p answers p') :
  player_wf inv (fun _ => byte_at contents) p' /\
  Forall (fun '(a, r) =>
    match r with
    | Ok data => data = file_answer contents a
    | Err e => source_error e
    | _ => False
    end) answers.
Proof.
  destruct (plays_runs inv (fun _ => byte_at contents) True _ Hlen _ _ _ Hplays Hp) as (Hp' & _ & Hall).
  split; [done|]. clear Hp Hp' Hlen. induction Hplays as [|p a r p1 answers p2 Hc _ Hfuel _ IH]; [constructor|].
  apply Forall_cons in Hall as [[Hpanic Hok] Hall]. constructor; [|by apply IH].
  destruct r as [data|e| |]; [| |done..].
  - destruct a; cbn in *; try done; destruct Hok as (Hg & _ & Hw);
      (apply good_file; [unfold uint in *; lia|done|by apply Hw]).
  - destruct a; cbn in *; done.
Qed.

(** A file in memory. *)
#[export] Instance memory_source : ReadSource bytes := {
  source_len contents := len contents;
  fetch _ offset n _ := fun contents =>
    (Ok (take (Z.to_nat n) (drop (Z.to_nat offset) contents)), contents)
}.
#[export] Instance memory_cancelable : CancelableSource bytes := {
  fetch_cancelable _ offset n _ generation := fun s =>
    let '(current, token) := ReadCancellationToken.is_current (E := StreamError) generation (snd s) in
    (match current with
     | Ok true => Ok (take (Z.to_nat n) (drop (Z.to_nat offset) (fst s)))
     | _ => Err (StreamClient Cancelled)
     end, (fst s, token))
}.

Definition in_memory (contents : bytes) (s : bytes) : Prop := s = contents /\ u64 (len contents).

Lemma memory_fetched contents offset n : 0 <= offset < len contents -> 0 < n ->
  fetched_ok (byte_at contents) True offset (Z.min n (len contents - offset))
    (take (Z.to_nat n) (drop (Z.to_nat offset) contents)).
Proof.
  intros Ho Hn. unfold fetched_ok, len in *. rewrite length_take, length_drop.
  split; [|split; [lia|intros; lia]]. intros i b Hi. apply lookup_take_Some in Hi as [Hi _].
  rewrite lookup_drop in Hi. split; [lia|].
  by replace (Z.to_nat (offset + Z.of_nat i)) with (Z.to_nat offset + i)%nat by lia.
Qed.

#[export] Instance memory_laws contents : SourceLaws bytes (in_memory contents) (fun _ => byte_at contents) True.
Proof.
  split; [by intros s [-> ?]|]. intros patience offset n options s [-> ?] _ _ ? ?.
  split; [by split_and!|]. by apply memory_fetched.
Qed.

#[export] Instance memory_cancelable_laws contents :
  CancelableLaws bytes (in_memory contents) (fun _ => byte_at contents) True.
Proof.
  split. intros patience offset n options generation s tok [-> ?] _ [Hw Hg] Ho Hn.
  destruct (ReadCancellationToken.interfere_wf tok Hw) as [Hw' Hle].
  assert (token_ok generation (ReadCancellationToken.interfere tok)) by (split; [done|lia]).
  unfold eruns. cbn. destruct (_ =? _); (split; [by split_and!|split; [done|]]); [|done].
  by apply memory_fetched.
Qed.

(** Ten bytes, a window of eight, and a seek into what the window has lost. *)
Definition small_video : VideoReaderConfig.t :=
  VideoReaderConfig.mk 4 (from_secs 1) 8 sample_pipeline.
Definition ten_bytes : bytes := [x00; x01; x02; x03; x04; x05; x06; x07; x08; x09].
Definition small_reader : VideoReader.t :=
  VideoReader.mk small_video 0 None None VideoReaderMetrics.default None.
Definition memory_player : Player.t bytes := Player.mk small_reader ten_bytes undisturbed [1000000; 1000000].

Lemma small_reader_wf served : reader_wf served small_reader.
Proof. apply (new_wf _ small_video); done. Qed.
Lemma memory_player_wf : player_wf (in_memory ten_bytes) (fun _ => byte_at ten_bytes) memory_player.
Proof. split; [apply small_reader_wf|done|by repeat constructor]. Qed.

Definition small_playback : list action :=
  [Watch 0 0 2; Prefetch 0 2 8 0; WatchCancelable 0 2 5 0; Prefetch 0 7 8 0; Watch 0 7 9; SeekTo 1;
   Watch 0 1 3].

Ltac play_on :=
  eapply plays_step;
    [cbn; unfold token_ok, ReadCancellationToken.wf, uint, u64_max, usize_max; cbn; lia
    |vm_compute; reflexivity|done|].

(** Hits, misses, a prefetch, a full window and a seek show the file. *)
Lemma video_reader_refines_witness :
  let answers := map (fun a => (a, Ok (file_answer ten_bytes a))) small_playback in
  exists p', plays memory_player answers p' /\
    player_wf (in_memory ten_bytes) (fun _ => byte_at ten_bytes) p'.
Proof.
  intros answers. assert (exists p', plays memory_player answers p') as [p' Hplays].
  { eexists. unfold answers, small_playback, map. do 7 play_on. apply plays_nil. }
  exists p'. split; [exact Hplays|].
  apply (video_reader_refines (in_memory ten_bytes) ten_bytes) with (2 := memory_player_wf) (3 := Hplays).
  by intros s [-> _].
Defined.

(** What the video reader shows over a session is what the server sent for
    exactly those positions. Against any server, for any reads, cancelable reads,
    prefetches, seeks and invalidations in any order: every byte returned for a
    position was given for that position by an accepted answer (matched by
    MessageId, its signature checked where one is required) to a READ of the file
    sent in this session, however many windows, refills and seeks lie between;
    a read returns at most what was asked for and lies before the end of the
    file; an action fails only with an error of the client, never with an
    overflow of the reader, and nothing panics. *)
Theorem video_session_sound {T} `{TransportSafe T} `{CryptoLaws} (s0 : SessionConnection.t T)
    (file : FileHandle.t) (p p' : Player.t (SessionConnection.t T * FileHandle.t))
    (answers : list (action * outcome StreamError bytes))
    (Hp : player_wf (session_inv s0 file) (session_served s0 file) p) (Hplays : plays p answers p') :
  player_wf (session_inv s0 file) (session_served s0 file) p' /\
  Forall (fun '(a, r) =>
    match r with
    | Ok data =>
        match a with
        | Watch _ offset length_ | WatchCancelable _ offset length_ _ =>
            len data <= Z.max 0 (Z.min length_ (FileHandle.length_ file - offset)) /\
            forall i b, data !! i = Some b -> exists es,
              advances s0 es (fst (Player.source p')) /\
              answered_byte s0 file es (offset + Z.of_nat i) b
        | _ => data = []
        end
    | Err e => source_error e
    | _ => False
    end) answers.
Proof.
  assert (forall w, session_inv s0 file w -> source_len w = FileHandle.length_ file) as Hlen.
  { intros w [Hf _]. cbn. by rewrite Hf. }
  destruct (plays_runs (session_inv s0 file) (session_served s0 file) False _ Hlen _ _ _ Hplays Hp)
    as (Hp' & _ & Hall).
  split; [done|]. set (w := Player.source p') in *. clearbody w. clear Hp Hp' Hlen.
  induction Hplays as [|p a r p1 answers p2 Hc _ Hfuel _ IH]; [constructor|].
  apply Forall_cons in Hall as [[Hpanic Hok] Hall]. constructor; [|by apply IH].
  destruct r as [data|e| |]; [| |done..].
  - destruct a; cbn in *; try done; destruct Hok as (Hg & Hl & _); by split.
  - destruct a; cbn in *; done.
Qed.

#[local] Existing Instance toy_crypto.
#[local] Existing Instance toy_laws.
Definition session_player : Player.t (SessionConnection.t TcpTransport.t * FileHandle.t) :=
  Player.mk small_reader (sample_session sample_answers, sample_file) undisturbed [].
Lemma session_player_wf :
  player_wf (session_inv (sample_session sample_answers) sample_file)
    (session_served (sample_session sample_answers) sample_file) session_player.
Proof.
  split; [apply small_reader_wf|split; [done|split; [done|]]|constructor].
  exists []. apply advances_refl, sample_session_wf.
Qed.

(** Two chunks that came in the other order; then out of the window. *)
Definition session_playback : list (action * outcome StreamError bytes) :=
  [(Watch 4 994 10, Ok [x0a; x0b; x0c; x0d; x0e]); (Watch 4 996 2, Ok [x0c; x0d]); (SeekTo 0, Ok [])].

Lemma video_session_sound_witness :
  exists p', plays session_player session_playback p' /\
    exists es, advances (sample_session sample_answers) es (fst (Player.source p')) /\
      answered_byte (sample_session sample_answers) sample_file es 997 x0d.
Proof.
  assert (exists p', plays session_player session_playback p') as [p' Hplays].
  { eexists. unfold session_playback. do 3 play_on. apply plays_nil. }
  exists p'. split; [exact Hplays|].
  destruct (video_session_sound (sample_session sample_answers) sample_file _ _ _ session_player_wf Hplays)
    as [_ Hall].
  apply Forall_cons in Hall as [_ Hall]. apply Forall_cons in Hall as [[_ Hbytes] _].
  exact (Hbytes 1%nat x0d eq_refl).
Defined.

(** C10: a prefetch never takes away what is about to be watched. Over any source
    that keeps the laws, a cancelable prefetch leaves the playback cursor and the
    generation alone; it either leaves the window as it is or appends the bytes
    it fetched right behind it, dropping only bytes before the cursor, and
    reports how many it appended; what it appended was served for those
    positions (the invariant), and the window stays within [max_cache_bytes].
    If it fails, with an error of the source or a cancellation, the window is
    untouched; nothing panics or overflows. *)
Theorem video_prefetch_sound {S : Type} `{ReadSource S} `{CancelableSource S} (inv : S -> Prop)
    (served : S -> Z -> byte -> Prop) (whole : Prop)
    `{!SourceLaws S inv served whole} `{!CancelableLaws S inv served whole}
    (patience : nat) (p : Player.t S) (hint_offset hint_length generation : Z)
    (Hp : player_wf inv served p) (Htok : token_ok generation (Player.token p)) :
  eruns (prefetch_cancelable patience hint_offset hint_length generation) p (fun r p' =>
    player_wf inv served p' /\
    let before := Player.reader p in
    let after := Player.reader p' in
    VideoReader.cached_bytes after <= VideoReaderConfig.max_cache_bytes (VideoReader.config after) /\
    VideoReader.last_request_end after = VideoReader.last_request_end before /\
    VideoReader.generation after = VideoReader.generation before /\
    match r with
    | Ok n => n = 0 /\ VideoReader.cache after = VideoReader.cache before \/
        exists w w' dropped more cursor,
          VideoReader.cache before = Some w /\ VideoReader.cache after = Some w' /\
          VideoReader.last_request_end before = Some cursor /\
          CachedWindow.start w' = CachedWindow.start w + dropped /\
          CachedWindow.data w' = drop (Z.to_nat dropped) (CachedWindow.data w) ++ more /\
          n = len more /\ 0 <= dropped /\ CachedWindow.start w + dropped <= cursor <= window_end w
    | Err e => source_error e /\ VideoReader.cache after = VideoReader.cache before
    | _ => True
    end).
Proof.
  eapply eruns_mono; [by apply (prefetch_cancelable_runs inv served whole)|].
  intros r p' ((Hp' & _) & Hlast & Hgen & Hr). split; [done|]. cbv zeta. split.
  - unfold VideoReader.cached_bytes. destruct (player_reader _ _ _ Hp') as [(_ & _ & Hm & _) _ _ _ Hw].
    destruct (VideoReader.cache _) as [w|]; [|lia]. by destruct (Hw w eq_refl).
  - split; [done|]. split; [done|]. destruct r as [n| | |]; [|done..]. destruct Hr as [Hr|Hr]; [by left|].
    right. destruct Hr as (w & w' & dropped & more & cursor & Hw & Hw' & Hc & [Hst Hd] & Hr).
    by exists w, w', dropped, more, cursor.
Qed.

(** After the first read, a prefetch appends four bytes; and with the cursor at
    the end of a full window it drops what lies behind. *)
Definition watched : Player.t bytes := snd (perform (Watch 0 0 2) memory_player).

Lemma video_prefetch_sound_witness :
  exists p', player_wf (in_memory ten_bytes) (fun _ => byte_at ten_bytes) p' /\
    VideoReader.cached_bytes (Player.reader p') = 8 /\
    VideoReader.last_request_end (Player.reader p') = Some 2.
Proof.
  assert (player_wf (in_memory ten_bytes) (fun _ => byte_at ten_bytes) watched) as Hp.
  { pose proof (perform_runs (in_memory ten_bytes) (fun _ => byte_at ten_bytes) True memory_player
      (Watch 0 0 2) memory_player_wf) as Hruns. destruct Hruns as [Hp _]; [|exact Hp]. by split_and!. }
  destruct (eruns_ended _ _ _ (fun n p' => (n =? 4) && (VideoReader.cached_bytes (Player.reader p') =? 8))
    (video_prefetch_sound (in_memory ten_bytes) (fun _ => byte_at ten_bytes) True 0 watched 2 8 0 Hp
       ltac:(done))) as (n & p' & (Hp' & _ & Hlast & _) & Ht); [vm_compute; reflexivity|].
  apply andb_true_iff in Ht as [_ Hc%Z.eqb_eq].
  exists p'. split; [exact Hp'|]. split; [exact Hc|]. rewrite Hlast. reflexivity.
Defined.
