(* ===== verification/Broker.v ===== *)
(** * The video broker

    [crates/smb-stream/src/broker.rs]: a runner owns the source and the reader;
    cloneable handles send it commands. Reads and the shutdown go through a queue,
    speculative prefetch hints through a slot that keeps the newest. Two tokens,
    shared by all, say which reads and which prefetches are still wanted.

    What the handles do while the runner works is explicit: the looks at a token
    follow its schedule ([Cancellation]), and the [script] of a runner says what
    arrives before each of the looks at its queue to come. A command arrives with
    any generations, so a script covers every interleaving of the handles. A
    sender that waits for room in the channel is served in the order of waiting,
    so the queue stands for the channel and those behind it. *)
From S2P Require Import Prelude WireError Utf16 Frame Header Create CreateContext Durable.
From S2P Require Import Client Effects Credits MessageIds AsyncResponse Transport Signing Connection.
From S2P Require Import Auth Session Exchange Tree Files Write Read PipelinedRead Cancellation.
From S2P Require Import Ntlm CancelRead Reconnect RecoveringRead VideoReader.

(** [Duration::from_millis(5)]. *)
Definition PREFETCH_IDLE_GRACE : Z := 5 * 1000000.

Module VideoBrokerConfig.
Record t : Type := mk { reader : VideoReaderConfig.t; queue_capacity : Z }.
Definition default : t := mk VideoReaderConfig.default 32.
End VideoBrokerConfig.

Inductive BrokerError : Type :=
  | BrokerStream (error : StreamError)
  | Closed
  | StaleGeneration
  | BrokerInvalidConfig (message : string).

(** A command names the channel that its caller waits on. *)
Module InteractiveCommand.
Inductive t : Type :=
  | Read (generation prefetch_generation offset length_ : Z) (reply : nat)
  | Shutdown (reply : nat).
End InteractiveCommand.

Module PrefetchCommand.
Record t : Type := mk {
  playback_generation : Z;
  prefetch_generation : Z;
  offset : Z;
  length_ : Z
}.
End PrefetchCommand.

#[local] Abbreviation broker := (outcome BrokerError).

(** ** What the handles and the runner share *)

(** The two tokens: of the playback position, and of the speculative work. *)
Inductive Which : Type := Playback | Speculative.

(** [background_changed]: the slot holds a value the runner has not seen;
    [senders]: a handle is left; [receivers]: the runner is there. *)
Module Shared.
Record t : Type := mk {
  cancellation : ReadCancellationToken.t;
  prefetch_cancellation : ReadCancellationToken.t;
  interactive_commands : list InteractiveCommand.t;
  background_command : option PrefetchCommand.t;
  background_changed : bool;
  senders : bool;
  receivers : bool
}.
Definition token (w : Which) (self : t) : ReadCancellationToken.t :=
  match w with Playback => cancellation self | Speculative => prefetch_cancellation self end.
Definition set_token (w : Which) (self : t) (token : ReadCancellationToken.t) : t :=
  match w with
  | Playback => mk token (prefetch_cancellation self) (interactive_commands self)
      (background_command self) (background_changed self) (senders self) (receivers self)
  | Speculative => mk (cancellation self) token (interactive_commands self)
      (background_command self) (background_changed self) (senders self) (receivers self)
  end.
Definition set_queue (self : t) (queue : list InteractiveCommand.t) : t :=
  mk (cancellation self) (prefetch_cancellation self) queue (background_command self)
    (background_changed self) (senders self) (receivers self).
Definition set_background (self : t) (command : option PrefetchCommand.t) (changed : bool) : t :=
  mk (cancellation self) (prefetch_cancellation self) (interactive_commands self) command
    changed (senders self) (receivers self).
Definition drop_senders (self : t) : t :=
  mk (cancellation self) (prefetch_cancellation self) (interactive_commands self)
    (background_command self) (background_changed self) false (receivers self).
Definition drop_receivers (self : t) : t :=
  mk (cancellation self) (prefetch_cancellation self) [] (background_command self)
    (background_changed self) (senders self) false.

(** [interactive_commands.send] and [background_command.send]. *)
Definition push (self : t) (command : InteractiveCommand.t) : t :=
  set_queue self (interactive_commands self ++ [command]).
Definition publish (self : t) (command : PrefetchCommand.t) : t :=
  set_background self (Some command) true.
End Shared.

Definition on_token {A} (w : Which) (m : est BrokerError ReadCancellationToken.t A) :
    est BrokerError Shared.t A := fun s =>
  let '(r, token) := m (Shared.token w s) in (r, Shared.set_token w s token).

(** ** The handle *)

Module VideoBrokerHandle.
#[local] Abbreviation handle := (est BrokerError Shared.t).

Definition generation : handle Z := on_token Playback ReadCancellationToken.generation.

Definition seek : handle Z :=
  rec! _ := on_token Speculative ReadCancellationToken.advance in
  on_token Playback ReadCancellationToken.advance.

Definition send (command : InteractiveCommand.t) : handle unit := fun s =>
  if Shared.receivers s then (Ok tt, Shared.push s command) else (Err Closed, s).

(** [reply_rx.await]: a reply, or a channel that was dropped. *)
Definition awaited {A} (reply : option (BrokerError + A)) : broker A :=
  match reply with
  | Some (inr a) => Ok a
  | Some (inl e) => Err e
  | None => Err Closed
  end.

(** [read] up to its wait for the reply. *)
Definition read (offset length_ : Z) (reply : nat) : handle unit :=
  rec! prefetch_generation := on_token Speculative ReadCancellationToken.advance in
  rec! generation := generation in
  send (InteractiveCommand.Read generation prefetch_generation offset length_ reply).

Definition prefetch (offset length_ : Z) : handle unit :=
  rec! playback_generation := generation in
  rec! prefetch_generation := on_token Speculative ReadCancellationToken.generation in
  fun s =>
    if Shared.receivers s
    then (Ok tt, Shared.publish s
                   (PrefetchCommand.mk playback_generation prefetch_generation offset length_))
    else (Err Closed, s).

(** [close] up to its wait for the reply. *)
Definition close (reply : nat) : handle unit :=
  rec! _ := on_token Speculative ReadCancellationToken.advance in
  rec! _ := on_token Playback ReadCancellationToken.advance in
  send (InteractiveCommand.Shutdown reply).
End VideoBrokerHandle.

(** ** The runner *)

Inductive Answer : Type :=
  | ReadReply (result : BrokerError + bytes)
  | CloseReply (result : BrokerError + CloseInfo.t)
  | Unanswered.

(** What the handles do while the runner is elsewhere. *)
Inductive Happening : Type :=
  | Arrive (command : InteractiveCommand.t)
  | Hint (command : PrefetchCommand.t)
  | HandlesDropped.

Definition happen (s : Shared.t) (h : Happening) : Shared.t :=
  if negb (Shared.senders s) then s else
  match h with
  | Arrive command => Shared.push s command
  | Hint command => Shared.publish s command
  | HandlesDropped => Shared.drop_senders s
  end.

(** Closing consumes the source. *)
Class CloseSource (S : Type) : Type := { close_file_of : S -> outcome StreamError CloseInfo.t }.

Module VideoBrokerRunner.
Record t (S : Type) : Type := mk {
  shared : Shared.t;
  background_sender : bool;
  source : option S;
  file_len : Z;
  reader : VideoReader.t;
  active_generation : Z;
  clock : list Z;
  script : list (list Happening);
  replies : list (InteractiveCommand.t * Answer)
}.
End VideoBrokerRunner.
Arguments VideoBrokerRunner.mk {S}.
Arguments VideoBrokerRunner.shared {S}.
Arguments VideoBrokerRunner.background_sender {S}.
Arguments VideoBrokerRunner.source {S}.
Arguments VideoBrokerRunner.file_len {S}.
Arguments VideoBrokerRunner.reader {S}.
Arguments VideoBrokerRunner.active_generation {S}.
Arguments VideoBrokerRunner.clock {S}.
Arguments VideoBrokerRunner.script {S}.
Arguments VideoBrokerRunner.replies {S}.

(** The variables of [run]. *)
Module Loop.
Record t : Type := mk {
  interactive_open : bool;
  background_open : bool;
  deferred_interactive : option InteractiveCommand.t
}.
Definition start : t := mk true true None.
End Loop.

Inductive SelectedCommand : Type :=
  | Interactive (command : option InteractiveCommand.t)
  | Background (changed : bool).

(** How a turn of the loop ends; [Blocked]: nothing more happens. *)
Inductive Turn : Type := Continue (l : Loop.t) | Break | Blocked.
Inductive RunEnd : Type := Ended | Waiting | OutOfTurns.

Section runner.
Context {S : Type} `{ReadSource S} `{CancelableSource S} `{CloseSource S}.
#[local] Abbreviation runner := (VideoBrokerRunner.t S).
#[local] Abbreviation run_step := (est BrokerError (VideoBrokerRunner.t S)).

Definition set_shared (self : runner) (shared : Shared.t) : runner :=
  VideoBrokerRunner.mk shared (VideoBrokerRunner.background_sender self)
    (VideoBrokerRunner.source self) (VideoBrokerRunner.file_len self) (VideoBrokerRunner.reader self)
    (VideoBrokerRunner.active_generation self) (VideoBrokerRunner.clock self)
    (VideoBrokerRunner.script self) (VideoBrokerRunner.replies self).
Definition set_reader (self : runner) (reader : VideoReader.t) (active_generation : Z) : runner :=
  VideoBrokerRunner.mk (VideoBrokerRunner.shared self) (VideoBrokerRunner.background_sender self)
    (VideoBrokerRunner.source self) (VideoBrokerRunner.file_len self) reader active_generation
    (VideoBrokerRunner.clock self) (VideoBrokerRunner.script self) (VideoBrokerRunner.replies self).
Definition set_script (self : runner) (script : list (list Happening)) : runner :=
  VideoBrokerRunner.mk (VideoBrokerRunner.shared self) (VideoBrokerRunner.background_sender self)
    (VideoBrokerRunner.source self) (VideoBrokerRunner.file_len self) (VideoBrokerRunner.reader self)
    (VideoBrokerRunner.active_generation self) (VideoBrokerRunner.clock self) script
    (VideoBrokerRunner.replies self).
Definition set_replies (self : runner) (replies : list (InteractiveCommand.t * Answer)) : runner :=
  VideoBrokerRunner.mk (VideoBrokerRunner.shared self) (VideoBrokerRunner.background_sender self)
    (VideoBrokerRunner.source self) (VideoBrokerRunner.file_len self) (VideoBrokerRunner.reader self)
    (VideoBrokerRunner.active_generation self) (VideoBrokerRunner.clock self)
    (VideoBrokerRunner.script self) replies.
Definition take_source (self : runner) : runner :=
  VideoBrokerRunner.mk (VideoBrokerRunner.shared self) (VideoBrokerRunner.background_sender self)
    None (VideoBrokerRunner.file_len self) (VideoBrokerRunner.reader self)
    (VideoBrokerRunner.active_generation self) (VideoBrokerRunner.clock self)
    (VideoBrokerRunner.script self) (VideoBrokerRunner.replies self).

(** The reader with the source and a token, and back. *)
Definition player_of (w : Which) (self : runner) (source : S) : Player.t S :=
  Player.mk (VideoBrokerRunner.reader self) source (Shared.token w (VideoBrokerRunner.shared self))
    (VideoBrokerRunner.clock self).
Definition set_player (w : Which) (self : runner) (p : Player.t S) : runner :=
  VideoBrokerRunner.mk (Shared.set_token w (VideoBrokerRunner.shared self) (Player.token p))
    (VideoBrokerRunner.background_sender self) (Some (Player.source p))
    (VideoBrokerRunner.file_len self) (Player.reader p) (VideoBrokerRunner.active_generation self)
    (Player.clock p) (VideoBrokerRunner.script self) (VideoBrokerRunner.replies self).

Definition on_shared {A} (m : est BrokerError Shared.t A) : run_step A := fun self =>
  let '(r, shared) := m (VideoBrokerRunner.shared self) in (r, set_shared self shared).
Definition is_current (w : Which) (generation : Z) : run_step bool :=
  on_shared (on_token w (ReadCancellationToken.is_current generation)).

(** [self.source.as_mut().ok_or(Closed)?], and then the reader. *)
Definition on_player {A} (w : Which) (m : est StreamError (Player.t S) A) : run_step A := fun self =>
  match VideoBrokerRunner.source self with
  | None => (Err Closed, self)
  | Some source =>
      let '(r, p) := m (player_of w self source) in (omap_err BrokerStream r, set_player w self p)
  end.

Definition invalidate : run_step unit :=
  emodify (fun self => set_reader self (VideoReader.invalidate (VideoBrokerRunner.reader self))
                         (VideoBrokerRunner.active_generation self)).

Definition prepare_generation (generation offset : Z) : run_step unit :=
  rec! current := is_current Playback generation in
  if negb current then efail StaleGeneration else
  emodify (fun self =>
    if generation =? VideoBrokerRunner.active_generation self then self
    else set_reader self (VideoReader.seek (VideoBrokerRunner.reader self) offset) generation).

Definition read_source (patience : nat) (offset length_ generation : Z) : run_step bytes :=
  on_player Playback (read_cancelable patience offset length_ generation).
Definition prefetch_source (patience : nat) (hint_offset hint_length generation : Z) : run_step Z :=
  on_player Speculative (prefetch_cancelable patience hint_offset hint_length generation).

(** [automatic_prefetch_hint(..).ok()??]. *)
Definition automatic_prefetch_command (playback_generation prefetch_generation : Z) :
    run_step (option PrefetchCommand.t) :=
  rec! current := is_current Playback playback_generation in
  if negb current then eret None else
  rec! current := is_current Speculative prefetch_generation in
  if negb current then eret None else
  rec! self := eget id in
  match VideoReader.automatic_prefetch_hint (VideoBrokerRunner.reader self)
          (VideoBrokerRunner.file_len self) with
  | Ok (Some (offset, length_)) =>
      eret (Some (PrefetchCommand.mk playback_generation prefetch_generation offset length_))
  | Ok None | Err _ => eret None
  | Panic => elift Panic
  | OutOfFuel => elift OutOfFuel
  end.

Definition process_read (patience : nat) (generation offset length_ : Z) : run_step bytes :=
  rec! _ := prepare_generation generation offset in
  rec! result := caught (read_source patience offset length_ generation) in
  match result with
  | inr data =>
      rec! current := is_current Playback generation in
      if current : bool then eret data else
      rec! _ := invalidate in efail StaleGeneration
  | inl (BrokerStream error) =>
      if is_cancelled error then rec! _ := invalidate in efail StaleGeneration
      else efail (BrokerStream error)
  | inl error => efail error
  end.

Definition process_prefetch (patience : nat) (command : PrefetchCommand.t) : run_step unit :=
  rec! current := is_current Speculative (PrefetchCommand.prefetch_generation command) in
  if negb current then efail StaleGeneration else
  rec! _ := prepare_generation (PrefetchCommand.playback_generation command)
              (PrefetchCommand.offset command) in
  rec! result := caught (prefetch_source patience (PrefetchCommand.offset command)
    (PrefetchCommand.length_ command) (PrefetchCommand.prefetch_generation command)) in
  match result with
  | inr _ =>
      rec! playback := is_current Playback (PrefetchCommand.playback_generation command) in
      if negb playback then efail StaleGeneration else
      rec! prefetch := is_current Speculative (PrefetchCommand.prefetch_generation command) in
      if prefetch : bool then eret tt else efail StaleGeneration
  | inl (BrokerStream error) =>
      if is_cancelled error then efail StaleGeneration else efail (BrokerStream error)
  | inl error => efail error
  end.

Definition close_source : run_step CloseInfo.t := fun self =>
  match VideoBrokerRunner.source self with
  | None => (Err Closed, self)
  | Some source => (omap_err BrokerStream (close_file_of source), take_source self)
  end.

(** ** The loop *)

Definition reply (command : InteractiveCommand.t) (answer : Answer) : run_step unit :=
  emodify (fun self => set_replies self (VideoBrokerRunner.replies self ++ [(command, answer)])).

(** A command of the queue; [true] ends the loop. *)
Definition serve (patience : nat) (command : InteractiveCommand.t) : run_step bool :=
  match command with
  | InteractiveCommand.Read generation prefetch_generation offset length_ _ =>
      rec! result := caught (process_read patience generation offset length_) in
      rec! auto_prefetch :=
        match result with
        | inr _ => automatic_prefetch_command generation prefetch_generation
        | inl _ => eret None
        end in
      rec! _ := reply command (ReadReply result) in
      rec! _ :=
        match auto_prefetch with
        | Some command =>
            emodify (fun self => set_shared self (Shared.publish (VideoBrokerRunner.shared self) command))
        | None => eret tt
        end in
      eret false
  | InteractiveCommand.Shutdown _ =>
      rec! result := caught close_source in
      rec! _ := reply command (CloseReply result) in
      eret true
  end.

(** A look at the two channels, the queue first. The slot is closed when every
    handle is gone and so is the sender the runner keeps. *)
Definition poll_background (l : Loop.t) (s : Shared.t) (background_sender : bool) :
    option (SelectedCommand * Shared.t) :=
  if negb (Loop.background_open l) then None else
  if Shared.background_changed s
  then Some (Background true, Shared.set_background s (Shared.background_command s) false)
  else if negb (Shared.senders s) && negb background_sender then Some (Background false, s)
  else None.

Definition poll (l : Loop.t) (s : Shared.t) (background_sender : bool) :
    option (SelectedCommand * Shared.t) :=
  if Loop.interactive_open l then
    match Shared.interactive_commands s with
    | command :: rest => Some (Interactive (Some command), Shared.set_queue s rest)
    | [] =>
        if negb (Shared.senders s) then Some (Interactive None, s)
        else poll_background l s background_sender
    end
  else poll_background l s background_sender.

(** [select!]: looks again after each part of the script; [None] if nothing
    more happens. *)
Fixpoint await_command (l : Loop.t) (s : Shared.t) (background_sender : bool)
    (script : list (list Happening)) :
    option SelectedCommand * (Shared.t * list (list Happening)) :=
  match script with
  | [] =>
      match poll l s background_sender with
      | Some (selected, s) => (Some selected, (s, []))
      | None => (None, (s, []))
      end
  | happenings :: script =>
      let s := foldl happen s happenings in
      match poll l s background_sender with
      | Some (selected, s) => (Some selected, (s, script))
      | None => await_command l s background_sender script
      end
  end.

Definition select (l : Loop.t) : run_step (option SelectedCommand) := fun self =>
  let '(selected, (s, script)) :=
    await_command l (VideoBrokerRunner.shared self) (VideoBrokerRunner.background_sender self)
      (VideoBrokerRunner.script self) in
  (Ok selected, set_script (set_shared self s) script).

(** [timeout(PREFETCH_IDLE_GRACE, recv())], of which the next part of the script
    says what happens; [None] if the time is over. *)
Definition idle_grace : run_step (option (option InteractiveCommand.t)) := fun self =>
  let s := foldl happen (VideoBrokerRunner.shared self) (default [] (head (VideoBrokerRunner.script self))) in
  let self := set_script self (tail (VideoBrokerRunner.script self)) in
  match Shared.interactive_commands s with
  | command :: rest => (Ok (Some (Some command)), set_shared self (Shared.set_queue s rest))
  | [] => (Ok (if negb (Shared.senders s) then Some None else None), set_shared self s)
  end.

(** [borrow_and_update], and the prefetch. *)
Definition background (patience : nat) : run_step unit :=
  rec! command := eget (fun self => Shared.background_command (VideoBrokerRunner.shared self)) in
  rec! _ := emodify (fun self => set_shared self
    (Shared.set_background (VideoBrokerRunner.shared self) command false)) in
  match command with
  | Some command => rec! _ := caught (process_prefetch patience command) in eret tt
  | None => eret tt
  end.

Definition close_interactive (l : Loop.t) : Loop.t := Loop.mk false (Loop.background_open l) None.

(** One turn of the loop. *)
Definition turn (patience : nat) (l : Loop.t) : run_step Turn :=
  rec! selected :=
    match Loop.deferred_interactive l with
    | Some command => eret (Some (Interactive (Some command)))
    | None => select l
    end in
  let l := Loop.mk (Loop.interactive_open l) (Loop.background_open l) None in
  match selected with
  | None => eret Blocked
  | Some (Interactive (Some command)) =>
      rec! stop := serve patience command in eret (if stop : bool then Break else Continue l)
  | Some (Interactive None) => eret (Continue (close_interactive l))
  | Some (Background true) =>
      if Loop.interactive_open l then
        rec! arrived := idle_grace in
        match arrived with
        | Some (Some command) =>
            eret (Continue (Loop.mk (Loop.interactive_open l) (Loop.background_open l) (Some command)))
        | Some None => rec! _ := background patience in eret (Continue (close_interactive l))
        | None => rec! _ := background patience in eret (Continue l)
        end
      else rec! _ := background patience in eret (Continue l)
  | Some (Background false) => eret (Continue (Loop.mk (Loop.interactive_open l) false None))
  end.

(** The end of [run] drops the runner: those in the queue are not answered. *)
Definition drop_runner : run_step unit :=
  emodify (fun self =>
    set_shared (set_replies self (VideoBrokerRunner.replies self ++
                  map (fun command => (command, Unanswered))
                    (Shared.interactive_commands (VideoBrokerRunner.shared self))))
      (Shared.drop_receivers (VideoBrokerRunner.shared self))).

Fixpoint run_loop (turns patience : nat) (l : Loop.t) : run_step RunEnd :=
  if negb (Loop.interactive_open l || Loop.background_open l)
  then rec! _ := drop_runner in eret Ended else
  match turns with
  | O => eret OutOfTurns
  | Datatypes.S turns =>
      rec! next := turn patience l in
      match next with
      | Continue l => run_loop turns patience l
      | Break => rec! _ := drop_runner in eret Ended
      | Blocked => eret Waiting
      end
  end.

Definition run (turns patience : nat) : run_step RunEnd := run_loop turns patience Loop.start.

(** ** Construction *)

Definition validate_queue_capacity (queue_capacity : Z) : broker unit :=
  if queue_capacity =? 0
  then Err (BrokerInvalidConfig "queue_capacity must be greater than zero") else Ok tt.

(** The tokens are new but for what the handles will do with them. *)
Definition broker_from_source (source : S) (reader : VideoReader.t) (file_len : Z)
    (tokens : list nat * list nat) (clock : list Z) (script : list (list Happening)) : runner :=
  VideoBrokerRunner.mk
    (Shared.mk (ReadCancellationToken.new (fst tokens)) (ReadCancellationToken.new (snd tokens))
       [] None false true true)
    true (Some source) file_len reader 0 clock script [].
End runner.

(** ** The sources *)

Section sources.
Context {T : Type} `{Transport T} `{Crypto}.

#[export] Instance direct_close : CloseSource (SessionConnection.t T * FileHandle.t) := {
  close_file_of s := omap_err StreamClient (close_file (snd s) CloseOptions.default (fst s)).1
}.

Definition video_broker (session : SessionConnection.t T) (file : FileHandle.t)
    (config : VideoBrokerConfig.t) (tokens : list nat * list nat) (clock : list Z)
    (script : list (list Happening)) :
    broker (VideoBrokerRunner.t (SessionConnection.t T * FileHandle.t)) :=
  let! _ := validate_queue_capacity (VideoBrokerConfig.queue_capacity config) in
  let! reader := omap_err BrokerStream (VideoReader.new (VideoBrokerConfig.reader config)) in
  Ok (broker_from_source (session, file) reader (FileHandle.length_ file) tokens clock script).

Context {W : Type} `{NtlmEnvironment} `{Host T W}.

#[export] Instance recovering_close_source : CloseSource (RecoveringReadOnlyFile T W) := {
  close_file_of f := omap_err StreamClient (recovering_close f)
}.

Definition recovering_video_broker_with_policy (patience : nat) (policy : ReadReconnectPolicy.t)
    (config : VideoBrokerConfig.t) (tokens : list nat * list nat) (clock : list Z)
    (script : list (list Happening)) :
    est BrokerError (Recipe.t * W) (VideoBrokerRunner.t (RecoveringReadOnlyFile T W)) :=
  rec! _ := elift (validate_queue_capacity (VideoBrokerConfig.queue_capacity config)) in
  rec! reader := elift (omap_err BrokerStream (VideoReader.new (VideoBrokerConfig.reader config))) in
  rec! source := (fun p =>
    let '(r, p) := connect_with_policy patience policy p in
    (omap_err (fun e => BrokerStream (StreamReconnect e)) r, p)) in
  eret (broker_from_source source reader (FileHandle.length_ (file source)) tokens clock script).

Definition recovering_video_broker (patience : nat) (config : VideoBrokerConfig.t)
    (tokens : list nat * list nat) (clock : list Z) (script : list (list Happening)) :
    est BrokerError (Recipe.t * W) (VideoBrokerRunner.t (RecoveringReadOnlyFile T W)) :=
  recovering_video_broker_with_policy patience ReadReconnectPolicy.default config tokens clock script.
End sources.
