(* ===== verification/BrokerSafety.v ===== *)
(** * The broker keeps its promises

    The laws of [Broker]: what each step of the runner keeps, proved against the
    interface of a source; that every command is answered, in the order of the
    queue; that an answer is never stale; and what a seek does to older work. *)
From S2P Require Import Prelude WireError Utf16 Frame Header Create CreateContext Durable.
From S2P Require Import Client Effects Credits MessageIds AsyncResponse Transport Signing Connection.
From S2P Require Import Auth Session Exchange Tree Files Write Read PipelinedRead Cancellation.
From S2P Require Import Ntlm CancelRead CancelSafety Reconnect RecoveringRead VideoReader VideoSafety.
From S2P Require Import VideoPlayback Broker.

(** ** The tokens *)

Definition tokens_ok (s : Shared.t) : Prop :=
  ReadCancellationToken.wf (Shared.cancellation s) /\
  ReadCancellationToken.wf (Shared.prefetch_cancellation s).
Definition counter (w : Which) (s : Shared.t) : Z := ReadCancellationToken.counter (Shared.token w s).

Lemma tokens_token w s : tokens_ok s -> ReadCancellationToken.wf (Shared.token w s).
Proof. by intros []; destruct w. Qed.
Lemma tokens_set w s tok : tokens_ok s -> ReadCancellationToken.wf tok ->
  tokens_ok (Shared.set_token w s tok).
Proof. by intros []; destruct w. Qed.
Lemma token_set w s tok : Shared.token w (Shared.set_token w s tok) = tok.
Proof. by destruct w. Qed.

(** ** What arrives *)

Definition command_wf (c : InteractiveCommand.t) : Prop :=
  match c with
  | InteractiveCommand.Read _ _ offset length_ _ => u64 offset /\ 0 <= length_ <= usize_max
  | InteractiveCommand.Shutdown _ => True
  end.
Definition happening_wf (h : Happening) : Prop :=
  match h with
  | Arrive c => command_wf c
  | Hint p => u64 (PrefetchCommand.offset p)
  | HandlesDropped => True
  end.

(** The commands that will arrive: those of the script up to the end of the
    last handle. *)
Fixpoint arrivals (senders : bool) (hs : list Happening) : list InteractiveCommand.t :=
  match hs with
  | [] => []
  | h :: hs =>
      if negb senders then [] else
      match h with
      | Arrive c => c :: arrivals true hs
      | Hint _ => arrivals true hs
      | HandlesDropped => []
      end
  end.
Definition pending (s : Shared.t) (hs : list Happening) : list InteractiveCommand.t :=
  Shared.interactive_commands s ++ arrivals (Shared.senders s) hs.

(** A bound for the turns that are left: a command takes up to three, its
    prefetch among them. *)
Definition happening_weight (h : Happening) : nat :=
  match h with Arrive _ => 3 | Hint _ => 1 | HandlesDropped => 0 end%nat.
Definition weight (s : Shared.t) (hs : list Happening) : nat :=
  (3 * length (Shared.interactive_commands s) + (if Shared.background_changed s then 1 else 0)
   + sum_list (map happening_weight hs))%nat.

Arguments pending : simpl never.
Arguments weight : simpl never.

Record work_ok (s : Shared.t) (hs : list Happening) : Prop := {
  work_queue : Forall command_wf (Shared.interactive_commands s);
  work_slot : forall p, Shared.background_command s = Some p -> u64 (PrefetchCommand.offset p);
  work_script : Forall happening_wf hs
}.

(** What the arrival of some of the script keeps. *)
Record fares (s : Shared.t) (hs : list Happening) (s' : Shared.t) (hs' : list Happening) : Prop := {
  fares_pending : pending s' hs' = pending s hs;
  fares_weight : (weight s' hs' <= weight s hs)%nat;
  fares_work : work_ok s hs -> work_ok s' hs';
  fares_tokens : tokens_ok s -> tokens_ok s';
  fares_senders : Shared.senders s = false ->
    Shared.senders s' = false /\ Shared.interactive_commands s' = Shared.interactive_commands s
}.

Lemma fares_refl s hs : fares s hs s hs.
Proof. by split. Qed.
Lemma fares_trans s1 hs1 s2 hs2 s3 hs3 : fares s1 hs1 s2 hs2 -> fares s2 hs2 s3 hs3 -> fares s1 hs1 s3 hs3.
Proof.
  intros [Hp Hw Hk Ht Hs] [Hp' Hw' Hk' Ht' Hs']. split; [congruence|lia|auto|auto|].
  intros Hf. destruct (Hs Hf) as [Hf1 Hq1]. destruct (Hs' Hf1). split; congruence.
Qed.

Lemma arrivals_nobody hs : arrivals false hs = [].
Proof. by destruct hs. Qed.

Lemma happen_fares s h hs : fares s (h :: hs) (happen s h) hs.
Proof.
  unfold happen. destruct s as [c p queue slot changed senders receivers]. destruct senders; cbn [negb Shared.senders].
  - split.
    + unfold pending. destruct h; cbn; rewrite ?arrivals_nobody, ?app_nil_r; [by rewrite <- app_assoc|done..].
    + unfold weight. destruct h; cbn; rewrite ?length_app; cbn; [|destruct changed|]; lia.
    + intros [Hq Hs [Hh Hhs]%Forall_cons]. destruct h; split; cbn in *; try done.
      * apply Forall_app. by split; [|constructor].
      * by intros ? [= <-].
    + intros [? ?]. by destruct h.
    + done.
  - split; try done.
    + unfold pending. cbn. by rewrite arrivals_nobody.
    + unfold weight. cbn. lia.
    + intros [Hq Hs [Hh Hhs]%Forall_cons]. by split.
Qed.

Lemma happens_fares hs : forall s rest, fares s (hs ++ rest) (foldl happen s hs) rest.
Proof.
  induction hs as [|h hs IH]; intros s rest; cbn; [apply fares_refl|].
  eapply fares_trans; [apply happen_fares|apply IH].
Qed.

(** What the [select!] finds. *)
Lemma await_command_fares l background_sender script : forall s,
  match await_command l s background_sender script with
  | (None, (s', script')) =>
      script' = [] /\ fares s (concat script) s' [] /\ poll l s' background_sender = None
  | (Some selected, (s', script')) => exists s1, fares s (concat script) s1 (concat script') /\
      poll l s1 background_sender = Some (selected, s')
  end.
Proof.
  induction script as [|hs script IH]; intros s; cbn.
  - destruct (poll _ _ _) as [[selected s']|] eqn:Hp; [by exists s; split; [apply fares_refl|]|].
    split; [done|]. split; [apply fares_refl|done].
  - pose proof (happens_fares hs s (concat script)) as Hf.
    destruct (poll l _ _) as [[selected s']|] eqn:Hp; [by eexists|].
    specialize (IH (foldl happen s hs)). destruct (await_command _ _ _ _) as [[selected|] [s' script']].
    + destruct IH as (s1 & Hf1 & Hp1). exists s1. split; [by eapply fares_trans|done].
    + destruct IH as (-> & Hf1 & Hp1). split; [done|]. split; [by eapply fares_trans|done].
Qed.

Section broker_laws.
Context {S : Type} `{ReadSource S} `{CancelableSource S} `{CloseSource S}.
Context (inv : S -> Prop) (served : S -> Z -> byte -> Prop) (whole : Prop) (n : Z).
Context `{!SourceLaws S inv served whole} `{!CancelableLaws S inv served whole}.
#[local] Abbreviation runner := (VideoBrokerRunner.t S).

(** The source is what it was last, or was given up; its reader shows what it
    has served. *)
Record core_ok (last : S) (self : runner) : Prop := {
  core_inv : inv last;
  core_source : forall s, VideoBrokerRunner.source self = Some s -> s = last;
  core_reader : reader_wf (served last) (VideoBrokerRunner.reader self);
  core_tokens : tokens_ok (VideoBrokerRunner.shared self);
  core_clock : Forall (fun t => 0 <= t) (VideoBrokerRunner.clock self)
}.

(** What the work on a command leaves alone: the queue, the slot, the script and
    the replies. *)
Record same_work (self self' : runner) : Prop := {
  same_queue : Shared.interactive_commands (VideoBrokerRunner.shared self')
               = Shared.interactive_commands (VideoBrokerRunner.shared self);
  same_slot : Shared.background_command (VideoBrokerRunner.shared self')
              = Shared.background_command (VideoBrokerRunner.shared self);
  same_changed : Shared.background_changed (VideoBrokerRunner.shared self')
                 = Shared.background_changed (VideoBrokerRunner.shared self);
  same_senders : Shared.senders (VideoBrokerRunner.shared self') = Shared.senders (VideoBrokerRunner.shared self);
  same_sender : VideoBrokerRunner.background_sender self' = VideoBrokerRunner.background_sender self;
  same_script : VideoBrokerRunner.script self' = VideoBrokerRunner.script self;
  same_replies : VideoBrokerRunner.replies self' = VideoBrokerRunner.replies self
}.

Lemma same_work_refl self : same_work self self.
Proof. by split. Qed.
Lemma same_work_trans a b c : same_work a b -> same_work b c -> same_work a c.
Proof. intros [] []. split; congruence. Qed.

Lemma set_token_work w self tok :
  same_work self (set_shared self (Shared.set_token w (VideoBrokerRunner.shared self) tok)).
Proof. split; by destruct w. Qed.

Lemma core_set_token last w self tok : core_ok last self -> ReadCancellationToken.wf tok ->
  core_ok last (set_shared self (Shared.set_token w (VideoBrokerRunner.shared self) tok)).
Proof. intros [] Ht. split; try done. by apply tokens_set. Qed.

(** The runner with another token, as a look at it leaves it. *)
Definition looked (w : Which) (self : runner) (tok : ReadCancellationToken.t) : runner :=
  set_shared self (Shared.set_token w (VideoBrokerRunner.shared self) tok).

Lemma is_current_bind {A} w generation (k : bool -> est BrokerError runner A) last self
    (Q : outcome BrokerError A -> runner -> Prop) :
  core_ok last self ->
  (forall tok, ReadCancellationToken.wf tok ->
     counter w (VideoBrokerRunner.shared self) <= ReadCancellationToken.counter tok ->
     core_ok last (looked w self tok) ->
     eruns (k (ReadCancellationToken.counter tok =? generation)) (looked w self tok) Q) ->
  eruns (ebind (is_current w generation) k) self Q.
Proof.
  intros Hc Hk. apply eruns_bind. pose proof (tokens_token w _ (core_tokens _ _ Hc)) as Hw.
  destruct (ReadCancellationToken.interfere_wf _ Hw) as [Hw' Hle].
  apply (Hk (ReadCancellationToken.interfere (Shared.token w (VideoBrokerRunner.shared self))));
    [done|done|]. by apply core_set_token.
Qed.

Lemma core_set_reader last self reader active : core_ok last self -> reader_wf (served last) reader ->
  core_ok last (set_reader self reader active).
Proof. intros [] ?. by split. Qed.
Lemma set_reader_work self reader active : same_work self (set_reader self reader active).
Proof. by split. Qed.

Lemma invalidate_ok last self : core_ok last self ->
  core_ok last (set_reader self (VideoReader.invalidate (VideoBrokerRunner.reader self))
                  (VideoBrokerRunner.active_generation self)).
Proof. intros Hc. apply core_set_reader; [done|]. apply invalidate_wf, Hc. Qed.

Lemma prepare_generation_bind {A} generation offset (k : unit -> est BrokerError runner A) last self
    (Q : outcome BrokerError A -> runner -> Prop) :
  core_ok last self -> u64 offset ->
  (forall tok, core_ok last (looked Playback self tok) -> Q (Err StaleGeneration) (looked Playback self tok)) ->
  (forall self', core_ok last self' -> same_work self self' ->
     VideoBrokerRunner.source self' = VideoBrokerRunner.source self ->
     counter Playback (VideoBrokerRunner.shared self') = generation ->
     Shared.prefetch_cancellation (VideoBrokerRunner.shared self')
     = Shared.prefetch_cancellation (VideoBrokerRunner.shared self) ->
     eruns (k tt) self' Q) ->
  eruns (ebind (prepare_generation generation offset) k) self Q.
Proof.
  intros Hc Ho Hstale Hk. apply eruns_bind. unfold prepare_generation.
  eapply is_current_bind; [exact Hc|]. intros tok Hw _ Hc'.
  destruct (Z.eqb_spec (ReadCancellationToken.counter tok) generation) as [Hg|Hg]; cbn [negb];
    [|by apply Hstale].
  unfold eruns, emodify. destruct (generation =? _).
  - by apply Hk; [|apply set_token_work|..].
  - apply Hk; [|by apply (same_work_trans _ _ _ (set_token_work Playback self tok)), set_reader_work|done..].
    apply core_set_reader; [done|]. apply seek_wf; [apply Hc'|done].
Qed.

(** The work of the reader, on the source and a token. *)
Lemma on_player_caught {A B} w (m : est StreamError (Player.t S) A)
    (k : BrokerError + A -> est BrokerError runner B) last self
    (P : outcome StreamError A -> Player.t S -> Prop) (Q : outcome BrokerError B -> runner -> Prop) :
  core_ok last self ->
  (player_wf inv served (player_of w self last) -> eruns m (player_of w self last) P) ->
  (VideoBrokerRunner.source self = None -> eruns (k (inl Closed)) self Q) ->
  (forall r p, P r p -> let self' := set_player w self p in
     match r with
     | Ok a => eruns (k (inr a)) self' Q
     | Err e => eruns (k (inl (BrokerStream e))) self' Q
     | _ => True
     end) ->
  eruns (ebind (caught (on_player w m)) k) self Q.
Proof.
  intros [Hi Hs Hr Ht Hclk] Hm Hnone HQ. apply eruns_caught. unfold eruns at 1, on_player.
  destruct (VideoBrokerRunner.source self) as [s|]; [|by apply Hnone].
  rewrite (Hs s eq_refl). specialize (Hm ltac:(by split)). unfold eruns in Hm.
  destruct (m _) as [[a|e| |] p]; cbn [omap_err]; [by apply (HQ (Ok a))|by apply (HQ (Err e))|done..].
Qed.

Lemma core_set_player w self p cancellation last : core_ok last self ->
  kept_by inv served whole cancellation (player_of w self last) p ->
  ReadCancellationToken.wf (Player.token p) ->
  core_ok (Player.source p) (set_player w self p).
Proof.
  intros [] ([Hr Hs Hc] & _) Hw. split; try done.
  - by intros s [= <-].
  - by apply tokens_set.
Qed.
Lemma set_player_work w self p : same_work self (set_player w self p).
Proof. split; by destruct w. Qed.

(** What a source becomes, with all it has served. *)
Definition grew (last last' : S) : Prop := forall p b, served last p b -> served last' p b.

Lemma grew_refl last : grew last last.
Proof. by intros p b. Qed.
Lemma grew_trans a b c : grew a b -> grew b c -> grew a c.
Proof. unfold grew. auto. Qed.

Context (Hlen : forall s, inv s -> source_len s = n).

(** What a read may come to: data of the file, while the generation is current;
    or an error that is not a cancellation. *)
Definition read_answer (last : S) (offset length_ : Z) (r : outcome BrokerError bytes) : Prop :=
  match r with
  | Ok data => read_ok served whole last n offset length_ (Ok data)
  | Err (BrokerStream e) => source_error e /\ is_cancelled e = false
  | Err (BrokerInvalidConfig _) => False
  | _ => True
  end.

Lemma process_read_runs patience generation offset length_ last self :
  core_ok last self -> u64 offset -> 0 <= length_ <= usize_max ->
  eruns (process_read patience generation offset length_) self (fun r self' => exists last',
    core_ok last' self' /\ grew last last' /\ same_work self self' /\
    read_answer last' offset length_ r /\
    (VideoBrokerRunner.source self <> None -> r <> Err Closed) /\
    match r with
    | Ok _ => counter Playback (VideoBrokerRunner.shared self') = generation
    | _ => True
    end).
Proof.
  intros Hc Ho Hl. unfold process_read. eapply prepare_generation_bind; [exact Hc|done| |].
  { intros tok Hc'. exists last. by split_and!; [|apply grew_refl|apply set_token_work|..]. }
  intros self1 Hc1 Hw1 Hs1 Hgen _. unfold read_source.
  assert (token_ok generation (Player.token (player_of Playback self1 last))) as Htok.
  { split; [apply Hc1|]. cbn. unfold counter in Hgen. cbn in Hgen. lia. }
  eapply on_player_caught; [exact Hc1| | |].
  { intros Hp. by apply (read_cancelable_runs inv served whole). }
  { intros Hnone. exists last. split_and!; try done; [apply grew_refl|]. by rewrite <- Hs1, Hnone. }
  intros r p (Hkept & Hok). cbn zeta. pose proof (Hkept) as (Hwf & Htok' & _ & (Hi & Hgrew & _)).
  assert (core_ok (Player.source p) (set_player Playback self1 p)) as Hc2
    by (eapply core_set_player; [exact Hc1|exact Hkept|apply Htok']).
  pose proof (same_work_trans _ _ _ Hw1 (set_player_work Playback self1 p)) as Hw2.
  pose proof (Hlen last (core_inv _ _ Hc1)) as Hn. cbn [player_of Player.source] in *. rewrite Hn in Hok.
  pose proof (invalidate_ok _ _ Hc2) as Hc3.
  set (self3 := set_reader _ _ _) in Hc3.
  assert (same_work self self3) as Hw3 by (eapply same_work_trans; [exact Hw2|apply set_reader_work]).
  destruct r as [data|e| |]; [| |done..].
  - eapply is_current_bind; [exact Hc2|]. intros tok _ _ Hc4.
    destruct (Z.eqb_spec (ReadCancellationToken.counter tok) generation) as [Hg|Hg].
    + exists (Player.source p). split_and!; try done.
      eapply same_work_trans; [exact Hw2|apply set_token_work].
    + apply eruns_modify. exists (Player.source p). split_and!; try done.
      * by apply invalidate_ok.
      * eapply same_work_trans; [exact Hw2|]. eapply same_work_trans; [apply set_token_work|apply set_reader_work].
  - cbn [read_ok] in Hok. destruct (is_cancelled e) eqn:Hcan.
    + apply eruns_modify. exists (Player.source p). by split_and!.
    + exists (Player.source p). by split_and!.
Qed.

Lemma process_prefetch_runs patience command last self :
  core_ok last self -> u64 (PrefetchCommand.offset command) ->
  eruns (process_prefetch patience command) self (fun _ self' => exists last',
    core_ok last' self' /\ grew last last' /\ same_work self self').
Proof.
  intros Hc Ho. unfold process_prefetch. eapply is_current_bind; [exact Hc|]. intros tok0 Hw0 _ Hc0.
  pose proof (set_token_work Speculative self tok0) as Hsw0. fold (looked Speculative self tok0) in Hsw0.
  destruct (Z.eqb_spec (ReadCancellationToken.counter tok0) (PrefetchCommand.prefetch_generation command))
    as [Hg0|Hg0]; cbn [negb]; [|by exists last; split_and!; [|apply grew_refl|]].
  eapply prepare_generation_bind; [exact Hc0|done| |].
  { intros tok Hc'. exists last. split_and!; [done|apply grew_refl|].
    eapply same_work_trans; [exact Hsw0|apply set_token_work]. }
  intros self1 Hc1 Hw1 Hs1 _ Hspec. pose proof (same_work_trans _ _ _ Hsw0 Hw1) as Hsw1. unfold prefetch_source.
  assert (token_ok (PrefetchCommand.prefetch_generation command)
    (Player.token (player_of Speculative self1 last))) as Htok.
  { split; [apply Hc1|]. cbn. rewrite Hspec. cbn. lia. }
  eapply on_player_caught; [exact Hc1| | |].
  { intros Hp. by apply (prefetch_cancelable_runs inv served whole). }
  { intros Hnone. exists last. by split_and!; [|apply grew_refl|]. }
  intros r p (Hkept & _). cbn zeta. pose proof (Hkept) as (Hwf & Htok' & _ & (Hi & Hgrew & _)).
  assert (core_ok (Player.source p) (set_player Speculative self1 p)) as Hc2
    by (eapply core_set_player; [exact Hc1|exact Hkept|apply Htok']).
  pose proof (same_work_trans _ _ _ Hsw1 (set_player_work Speculative self1 p)) as Hw2.
  destruct r as [count|e| |]; [| |done..].
  - eapply is_current_bind; [exact Hc2|]. intros tok _ _ Hc3.
    pose proof (same_work_trans _ _ _ Hw2 (set_token_work Playback _ tok)) as Hw3.
    destruct (negb _); [by exists (Player.source p); split_and!|].
    eapply is_current_bind; [exact Hc3|]. intros tok' _ _ Hc4.
    pose proof (same_work_trans _ _ _ Hw3 (set_token_work Speculative _ tok')) as Hw4.
    destruct (_ =? _); by exists (Player.source p); split_and!.
  - destruct (is_cancelled e); by exists (Player.source p); split_and!.
Qed.

Lemma automatic_hint_yields sv reader file_len : reader_wf sv reader ->
  yields (VideoReader.automatic_prefetch_hint reader file_len) (fun r =>
    forall offset length_, r = Some (offset, length_) -> u64 offset).
Proof.
  intros Hw. unfold VideoReader.automatic_prefetch_hint.
  destruct (VideoReader.last_request_end reader) as [cursor|] eqn:Hcur; [|by apply yields_ok].
  case_match; [by apply yields_ok|].
  destruct (VideoReader.cache reader) as [window|] eqn:Hwin; [|by apply yields_ok].
  pose proof (reader_window _ _ Hw _ Hwin) as Hok. case_match; [by apply yields_ok|].
  rewrite (window_end_ok _ _ _ Hok). cbn [obind]. destruct (_ || _) eqn:Hout; [by apply yields_ok|].
  bool_facts. unfold sub_or_panic. rewrite (proj2 (Z.leb_le _ _)) by lia. cbn [obind].
  eapply yields_bind; [by apply (read_ahead_target_yields sv)|]. intros v _.
  case_match; [by apply yields_ok|]. apply yields_ok. intros ? ? [= <- <-]. by apply (reader_last _ _ Hw).
Qed.

Lemma automatic_command_bind {A} g p (k : option PrefetchCommand.t -> est BrokerError runner A) last self
    (Q : outcome BrokerError A -> runner -> Prop) :
  core_ok last self ->
  (forall r self', core_ok last self' -> same_work self self' ->
     (forall command, r = Some command -> u64 (PrefetchCommand.offset command)) -> eruns (k r) self' Q) ->
  eruns (ebind (automatic_prefetch_command g p) k) self Q.
Proof.
  intros Hc Hk. apply eruns_bind. unfold automatic_prefetch_command.
  eapply is_current_bind; [exact Hc|]. intros tok _ _ Hc1. pose proof (set_token_work Playback self tok) as Hw1.
  destruct (negb _); [by apply Hk|].
  eapply is_current_bind; [exact Hc1|]. intros tok' _ _ Hc2.
  pose proof (same_work_trans _ _ _ Hw1 (set_token_work Speculative _ tok')) as Hw2.
  destruct (negb _); [by apply Hk|]. apply eruns_get.
  set (self2 := looked Speculative _ tok') in *. change (id self2) with self2.
  destruct (automatic_hint_yields _ _ (VideoBrokerRunner.file_len self2) (core_reader _ _ Hc2)) as (r & -> & Hr).
  destruct r as [[offset length_]|]; apply Hk; try done. intros ? [= <-]. by apply (Hr _ length_).
Qed.

(** ** The loop *)

Definition to_outcome {A} (r : BrokerError + A) : outcome BrokerError A :=
  match r with inr a => Ok a | inl e => Err e end.

(** What a logged reply says of its command. *)
Definition reply_ok (last : S) (entry : InteractiveCommand.t * Answer) : Prop :=
  match entry with
  | (InteractiveCommand.Read _ _ offset length_ _, ReadReply r) =>
      read_answer last offset length_ (to_outcome r)
  | (InteractiveCommand.Shutdown _, CloseReply _) => True
  | (_, Unanswered) => True
  | _ => False
  end.

Lemma reply_ok_grew last last' entry : grew last last' -> reply_ok last entry -> reply_ok last' entry.
Proof.
  destruct entry as [[g p o l id|id] [[e|data]|[]|]]; cbn; try done.
  intros Hs (Hg & ?). split; [|done]. intros i b Hi. by apply Hs, Hg.
Qed.

Record runner_ok (last : S) (self : runner) : Prop := {
  runner_core : core_ok last self;
  runner_work : work_ok (VideoBrokerRunner.shared self) (concat (VideoBrokerRunner.script self));
  runner_replies : Forall (reply_ok last) (VideoBrokerRunner.replies self)
}.

Record loop_ok (l : Loop.t) (self : runner) : Prop := {
  loop_background : Loop.background_open l = true;
  loop_sender : VideoBrokerRunner.background_sender self = true;
  loop_interactive : Loop.interactive_open l = false ->
    Shared.senders (VideoBrokerRunner.shared self) = false /\
    Shared.interactive_commands (VideoBrokerRunner.shared self) = [] /\
    Loop.deferred_interactive l = None;
  loop_deferred : Forall command_wf (option_list (Loop.deferred_interactive l))
}.

(** Every command there has been and will be, in the order of the queue. *)
Definition commands (deferred : option InteractiveCommand.t) (self : runner) : list InteractiveCommand.t :=
  (VideoBrokerRunner.replies self).*1 ++ option_list deferred
  ++ pending (VideoBrokerRunner.shared self) (concat (VideoBrokerRunner.script self)).
Definition turns_left (l : Loop.t) (self : runner) : nat :=
  (3 * length (option_list (Loop.deferred_interactive l))
   + weight (VideoBrokerRunner.shared self) (concat (VideoBrokerRunner.script self))
   + (if Loop.interactive_open l then 1 else 0))%nat.

Lemma runner_same_work last self last' self' : runner_ok last self -> core_ok last' self' ->
  grew last last' -> same_work self self' -> runner_ok last' self'.
Proof.
  intros [_ [Hq Hs Hh] Hr] Hc Hg []. split; [done| |].
  - split; rewrite ?same_queue0, ?same_script0; try done. by rewrite same_slot0.
  - rewrite same_replies0. eapply Forall_impl; [exact Hr|]. intros entry. by apply reply_ok_grew.
Qed.

Lemma runner_reply last self command answer : runner_ok last self -> reply_ok last (command, answer) ->
  runner_ok last (set_replies self (VideoBrokerRunner.replies self ++ [(command, answer)])).
Proof.
  intros [Hc Hw Hr] Ha. split; [by destruct Hc|done|]. apply Forall_app. by split; [|constructor].
Qed.

Lemma runner_shared last self s script : runner_ok last self -> tokens_ok s ->
  work_ok s (concat script) -> runner_ok last (set_script (set_shared self s) script).
Proof. intros [[] _ Hr] ? ?. by split; [split|..]. Qed.

(** What a command leaves: one more reply, and at most a prefetch to do. *)
Record served_command (command : InteractiveCommand.t) (self self' : runner) : Prop := {
  served_reply : exists answer, answer <> Unanswered /\
    VideoBrokerRunner.replies self' = VideoBrokerRunner.replies self ++ [(command, answer)];
  served_queue : Shared.interactive_commands (VideoBrokerRunner.shared self')
                 = Shared.interactive_commands (VideoBrokerRunner.shared self);
  served_senders : Shared.senders (VideoBrokerRunner.shared self')
                   = Shared.senders (VideoBrokerRunner.shared self);
  served_sender : VideoBrokerRunner.background_sender self' = VideoBrokerRunner.background_sender self;
  served_script : VideoBrokerRunner.script self' = VideoBrokerRunner.script self
}.

Context (Hclose : forall s, inv s -> close_file_of s <> Panic).

Lemma serve_runs patience command last self :
  runner_ok last self -> command_wf command ->
  eruns (serve patience command) self (fun r self' => exists last',
    runner_ok last' self' /\ grew last last' /\ served_command command self self' /\
    match command with
    | InteractiveCommand.Read _ _ _ _ _ => r = Ok false
    | InteractiveCommand.Shutdown _ => r = Ok true
    end).
Proof.
  intros Hok Hwf. destruct command as [g p offset length_ id|id]; cbn [serve command_wf] in *.
  - destruct Hwf as [Ho Hl]. apply eruns_caught.
    eapply eruns_mono; [by apply (process_read_runs patience g offset length_ last); [apply Hok|..]|].
    intros r self1 (last1 & Hc1 & Hg1 & Hw1 & Hans & _ & _).
    pose proof (runner_same_work _ _ _ _ Hok Hc1 Hg1 Hw1) as Hok1.
    assert (forall r' command' self2, to_outcome r' = r -> core_ok last1 self2 -> same_work self1 self2 ->
      (forall c, command' = Some c -> u64 (PrefetchCommand.offset c)) ->
      eruns (rec! _ := reply (InteractiveCommand.Read g p offset length_ id) (ReadReply r') in
             rec! _ := match command' with
                       | Some c => emodify (fun self => set_shared self (Shared.publish (VideoBrokerRunner.shared self) c))
                       | None => eret tt
                       end in eret false) self2
        (fun r self' => exists last', runner_ok last' self' /\ grew last last' /\
           served_command (InteractiveCommand.Read g p offset length_ id) self self' /\ r = Ok false)) as Hend.
    { intros r' command' self2 <- Hc2 Hw2 Hcmd. apply eruns_modify.
      pose proof (runner_same_work _ _ _ _ Hok1 Hc2 (grew_refl last1) Hw2) as Hok2.
      pose proof (runner_reply _ _ (InteractiveCommand.Read g p offset length_ id) (ReadReply r') Hok2 Hans) as Hok3.
      pose proof (same_work_trans _ _ _ Hw1 Hw2) as [].
      destruct command' as [c|]; [apply eruns_modify|apply eruns_bind; unfold eruns at 1, eret]; unfold eruns, eret;
        exists last1; (split; [|split; [done|split; [|done]]]).
      - destruct Hok3 as [[] [Hq Hs Hh] Hr]. split; [by split| |done]. split; [done| |done].
        cbn. intros ? [= <-]. by apply Hcmd.
      - split; cbn; try done. exists (ReadReply r'). by rewrite same_replies0.
      - done.
      - split; cbn; try done. exists (ReadReply r'). by rewrite same_replies0. }
    destruct r as [data|e| |]; [| |done..].
    + eapply automatic_command_bind; [exact Hc1|]. intros r' self2 Hc2 Hw2 Hcmd.
      by apply (Hend (inr data) r').
    + apply eruns_bind. unfold eruns at 1, eret. by apply (Hend (inl e) None).
  - apply eruns_caught. unfold eruns at 1, close_source. pose proof Hok as [[Hi Hs Hr Ht Hclk] Hw Hreplies].
    destruct (VideoBrokerRunner.source self) as [source|] eqn:Hsrc.
    + rewrite (Hs source eq_refl). specialize (Hclose last Hi).
      destruct (close_file_of last) as [info|e| |]; cbn [omap_err]; [| |done..]; apply eruns_modify;
        unfold eruns, eret; exists last; (split; [|split; [apply grew_refl|split; [|done]]]).
      * apply (runner_reply last (take_source self)); [|done]. by split; [split|..].
      * split; cbn; try done. by exists (CloseReply (inr info)).
      * apply (runner_reply last (take_source self)); [|done]. by split; [split|..].
      * split; cbn; try done. by exists (CloseReply (inl (BrokerStream e))).
    + apply eruns_modify. unfold eruns, eret. exists last. split; [by apply runner_reply|].
      split; [apply grew_refl|]. split; [|done]. split; cbn; try done. by exists (CloseReply (inl Closed)).
Qed.

(** A prefetch that was tried. *)
Record tried (self self' : runner) : Prop := {
  tried_queue : Shared.interactive_commands (VideoBrokerRunner.shared self')
                = Shared.interactive_commands (VideoBrokerRunner.shared self);
  tried_changed : Shared.background_changed (VideoBrokerRunner.shared self') = false;
  tried_senders : Shared.senders (VideoBrokerRunner.shared self') = Shared.senders (VideoBrokerRunner.shared self);
  tried_sender : VideoBrokerRunner.background_sender self' = VideoBrokerRunner.background_sender self;
  tried_script : VideoBrokerRunner.script self' = VideoBrokerRunner.script self;
  tried_replies : VideoBrokerRunner.replies self' = VideoBrokerRunner.replies self
}.

Lemma background_bind {A} patience (k : unit -> est BrokerError runner A) last self
    (Q : outcome BrokerError A -> runner -> Prop) :
  runner_ok last self ->
  (forall last' self', runner_ok last' self' -> grew last last' -> tried self self' -> eruns (k tt) self' Q) ->
  eruns (ebind (background patience) k) self Q.
Proof.
  intros Hok Hk. apply eruns_bind. unfold background. apply eruns_get, eruns_modify.
  set (self1 := set_shared _ _).
  assert (runner_ok last self1) as Hok1.
  { destruct Hok as [[] [] Hr]. by split; [split|split|]. }
  destruct (Shared.background_command _) as [command|] eqn:Hcmd.
  - apply eruns_caught. eapply eruns_mono.
    { apply (process_prefetch_runs patience command last self1 (runner_core _ _ Hok1)).
      by apply (work_slot _ _ (runner_work _ _ Hok)). }
    intros r self2 (last2 & Hc2 & Hg2 & Hw2). pose proof (runner_same_work _ _ _ _ Hok1 Hc2 Hg2 Hw2) as Hok2.
    assert (tried self self2) as Ht by (destruct Hw2; split; try done).
    destruct r; try done; unfold eruns at 1, eret; by apply (Hk last2).
  - unfold eruns at 1, eret. by apply (Hk last); [|apply grew_refl|].
Qed.

Lemma select_bind {A} l (k : option SelectedCommand -> est BrokerError runner A) last self
    (Q : outcome BrokerError A -> runner -> Prop) :
  runner_ok last self ->
  (forall selected s1 s' script',
     fares (VideoBrokerRunner.shared self) (concat (VideoBrokerRunner.script self)) s1 (concat script') ->
     poll l s1 (VideoBrokerRunner.background_sender self) = Some (selected, s') ->
     eruns (k (Some selected)) (set_script (set_shared self s') script') Q) ->
  (forall s',
     fares (VideoBrokerRunner.shared self) (concat (VideoBrokerRunner.script self)) s' [] ->
     poll l s' (VideoBrokerRunner.background_sender self) = None ->
     eruns (k None) (set_script (set_shared self s') []) Q) ->
  eruns (ebind (select l) k) self Q.
Proof.
  intros Hok Hsome Hnone. apply eruns_bind. unfold eruns at 1, select.
  pose proof (await_command_fares l (VideoBrokerRunner.background_sender self)
    (VideoBrokerRunner.script self) (VideoBrokerRunner.shared self)) as Ha.
  destruct (await_command _ _ _ _) as [[selected|] [s' script']].
  - destruct Ha as (s1 & Hf & Hp). by eapply Hsome.
  - destruct Ha as (-> & Hf & Hp). by apply Hnone.
Qed.

(** What [poll] takes. *)
Lemma poll_some l s selected s' : Loop.background_open l = true ->
  poll l s true = Some (selected, s') ->
  match selected with
  | Interactive (Some command) => Loop.interactive_open l = true /\
      Shared.interactive_commands s = command :: Shared.interactive_commands s' /\
      s' = Shared.set_queue s (Shared.interactive_commands s')
  | Interactive None => Loop.interactive_open l = true /\ s' = s /\
      Shared.interactive_commands s = [] /\ Shared.senders s = false
  | Background true => Shared.background_changed s = true /\
      s' = Shared.set_background s (Shared.background_command s) false /\
      (Loop.interactive_open l = true -> Shared.interactive_commands s = [])
  | Background false => False
  end.
Proof.
  intros Hb. unfold poll, poll_background. rewrite Hb. cbn [negb]. rewrite andb_false_r.
  destruct (Loop.interactive_open l).
  - destruct (Shared.interactive_commands s) as [|command rest] eqn:Hq.
    + destruct (Shared.senders s) eqn:Hs; cbn [negb].
      * by destruct (Shared.background_changed s) eqn:Hc; intros [= <- <-].
      * by intros [= <- <-].
    + by intros [= <- <-].
  - by destruct (Shared.background_changed s) eqn:Hc; intros [= <- <-].
Qed.

Lemma poll_none l s : Loop.background_open l = true -> poll l s true = None ->
  (Loop.interactive_open l = true -> Shared.interactive_commands s = []).
Proof.
  intros Hb Hp Hi. unfold poll in Hp. rewrite Hi in Hp. by destruct (Shared.interactive_commands s).
Qed.

Definition answered (entry : InteractiveCommand.t * Answer) : Prop := snd entry <> Unanswered.

(** The command that ended the loop, after the others were answered. *)
Definition shut_down (self : runner) : Prop := exists earlier id r,
  VideoBrokerRunner.replies self = earlier ++ [(InteractiveCommand.Shutdown id, CloseReply r)] /\
  Forall answered earlier.

(** How a turn may end, for a runner that has so far got to [deferred] and [self]
    with [left] turns to go. *)
Definition turned (deferred : option InteractiveCommand.t) (left : nat) (last : S) (self : runner)
    (r : outcome BrokerError Turn) (self' : runner) : Prop :=
  exists last', runner_ok last' self' /\ grew last last' /\
  match r with
  | Ok (Continue l) => loop_ok l self' /\ commands (Loop.deferred_interactive l) self' = commands deferred self /\
      (turns_left l self' < left)%nat /\ Forall answered (VideoBrokerRunner.replies self')
  | Ok Break => commands None self' = commands deferred self /\ shut_down self'
  | Ok Blocked => commands None self' = commands deferred self /\
      Shared.interactive_commands (VideoBrokerRunner.shared self') = [] /\
      VideoBrokerRunner.script self' = [] /\ Forall answered (VideoBrokerRunner.replies self')
  | Err _ => False
  | _ => True
  end.

Lemma served_commands command self self' : served_command command self self' ->
  commands None self' = commands (Some command) self.
Proof.
  intros [(answer & _ & Hr) Hq Hs _ Hsc]. unfold commands, pending.
  rewrite Hr, Hq, Hs, Hsc, fmap_app, <- !app_assoc. done.
Qed.

Lemma serve_turn patience command l left last self :
  Forall answered (VideoBrokerRunner.replies self) -> runner_ok last self -> loop_ok l self -> Loop.deferred_interactive l = None -> command_wf command ->
  (turns_left l self + 1 < left)%nat ->
  eruns (rec! stop := serve patience command in eret (if stop : bool then Break else Continue l)) self
    (turned (Some command) left last self).
Proof.
  intros Hdone Hok [Hb Hsd Hi Hd] Hnone Hwf Hleft. apply eruns_bind.
  eapply eruns_mono; [by apply (serve_runs patience command last)|].
  intros r self' (last' & Hok' & Hg & Hs & Hr). pose proof (served_commands _ _ _ Hs) as Hcmd.
  destruct Hs as [(answer & Hans & Hrep) Hq Hse Hse' Hsc].
  destruct command as [g p o len_ id|id]; subst r; unfold eruns, eret; exists last'; (split; [done|]);
    (split; [done|]).
  - split; [split; try done; rewrite ?Hse', ?Hse, ?Hq; done|]. rewrite Hnone. split; [done|].
    unfold turns_left, weight in *. rewrite Hq, Hsc, Hnone in *. cbn in *.
    split; [destruct (Shared.background_changed (VideoBrokerRunner.shared self')); lia|].
    rewrite Hrep. apply Forall_app. by split; [|constructor].
  - split; [done|]. pose proof (runner_replies _ _ Hok') as Hall. rewrite Hrep in Hall.
    apply Forall_app in Hall as [_ [Ha _]%Forall_cons]. destruct answer as [|r|]; [done| |done].
    by exists (VideoBrokerRunner.replies self), id, r.
Qed.

Lemma background_turn patience l left last self :
  Forall answered (VideoBrokerRunner.replies self) -> runner_ok last self -> loop_ok l self -> Loop.deferred_interactive l = None ->
  (turns_left l self < left)%nat ->
  eruns (rec! _ := background patience in eret (Continue l)) self (turned None left last self).
Proof.
  intros Hdone Hok [Hb Hsd Hi Hd] Hnone Hleft. eapply background_bind; [exact Hok|].
  intros last' self' Hok' Hg [Hq Hch Hse Hse' Hsc Hr]. unfold eruns, eret. exists last'.
  split; [done|]. split; [done|]. split; [split; try done; rewrite ?Hse', ?Hse, ?Hq; done|].
  rewrite Hnone. unfold commands, pending, turns_left, weight in *. rewrite Hq, Hse, Hsc, Hr, Hch.
  split; [done|]. split; [|done]. rewrite Hnone in *. destruct (Shared.background_changed _); lia.
Qed.

Lemma turned_from deferred0 deferred left last self0 self r self' :
  commands deferred self = commands deferred0 self0 ->
  turned deferred left last self r self' -> turned deferred0 left last self0 r self'.
Proof.
  intros Hc (last' & Hok & Hg & Hr). exists last'. split; [done|]. split; [done|].
  destruct r as [[l| |]| | |]; try done; by rewrite <- Hc.
Qed.

Lemma runner_fares last self s1 s' script' : runner_ok last self ->
  fares (VideoBrokerRunner.shared self) (concat (VideoBrokerRunner.script self)) s1 (concat script') ->
  (tokens_ok s1 -> tokens_ok s') -> (work_ok s1 (concat script') -> work_ok s' (concat script')) ->
  runner_ok last (set_script (set_shared self s') script').
Proof.
  intros Hok [_ _ Hw Ht _] Ht' Hw'. apply runner_shared; [done| |].
  - apply Ht', Ht, Hok.
  - apply Hw', Hw, Hok.
Qed.

(** The next command of the queue. *)
Lemma take_command command s s' hs : Shared.interactive_commands s = command :: Shared.interactive_commands s' ->
  s' = Shared.set_queue s (Shared.interactive_commands s') ->
  pending s hs = command :: pending s' hs /\ weight s hs = (3 + weight s' hs)%nat /\
  (work_ok s hs -> command_wf command /\ work_ok s' hs) /\ (tokens_ok s -> tokens_ok s').
Proof.
  intros Hq ->. unfold pending, weight. cbn. rewrite Hq. cbn. split; [done|]. split; [lia|]. split; [|done].
  intros [Hwf Hs Hh]. rewrite Hq in Hwf. apply Forall_cons in Hwf as [? ?]. by split; [|split].
Qed.

(** The grace period: a command, or the prefetch. *)
Lemma grace_turn patience l left last self :
  Forall answered (VideoBrokerRunner.replies self) -> runner_ok last self -> loop_ok l self -> Loop.interactive_open l = true ->
  Loop.deferred_interactive l = None -> (turns_left l self < left)%nat ->
  eruns (rec! arrived := idle_grace in
         match arrived with
         | Some (Some command) =>
             eret (Continue (Loop.mk (Loop.interactive_open l) (Loop.background_open l) (Some command)))
         | Some None => rec! _ := background patience in eret (Continue (close_interactive l))
         | None => rec! _ := background patience in eret (Continue l)
         end) self (turned None left last self).
Proof.
  intros Hdone Hok [Hb Hsd Hi Hd] Hopen Hnone Hleft. apply eruns_bind. unfold eruns at 1, idle_grace.
  set (hs := default [] (head (VideoBrokerRunner.script self))).
  set (script := tail (VideoBrokerRunner.script self)).
  assert (concat (VideoBrokerRunner.script self) = hs ++ concat script) as Hscript
    by (subst hs script; by destruct (VideoBrokerRunner.script self)).
  pose proof (happens_fares hs (VideoBrokerRunner.shared self) (concat script)) as Hf. rewrite <- Hscript in Hf.
  set (s := foldl happen _ hs) in *. pose proof Hf as [Hp Hw _ _ _].
  unfold turns_left in Hleft. rewrite Hnone, Hopen in Hleft. cbn in Hleft.
  destruct (Shared.interactive_commands s) as [|command rest] eqn:Hq.
  - assert (runner_ok last (set_shared (set_script self script) s)) as Hok'
      by by apply (runner_fares last self s s script).
    assert (commands None (set_shared (set_script self script) s) = commands None self) as Hcmd
      by (unfold commands; cbn; by rewrite Hp).
    destruct (Shared.senders s) eqn:Hs; cbn [negb]; (eapply eruns_mono; [|intros r self'; by apply turned_from]).
    + apply background_turn; [done|done|by split; try done; rewrite Hopen|done|]. unfold turns_left. cbn. rewrite Hnone, Hopen. cbn. lia.
    + apply background_turn; [done|done|split; cbn; try done|done|]. unfold turns_left. cbn. lia.
  - destruct (take_command command s (Shared.set_queue s rest) (concat script) Hq eq_refl)
      as (Hp' & Hw' & Hwf & Ht).
    pose proof Hf as [_ _ Hwork _ _]. specialize (Hwork (runner_work _ _ Hok)).
    exists last. split; [by apply (runner_fares last self s); [..|intros [_ ?]%Hwf]|].
    split; [apply grew_refl|]. split; [split; cbn; try done; [by rewrite Hopen|]|].
    + constructor; [|done]. by apply Hwf.
    + unfold commands, turns_left. cbn. rewrite Hopen. split; [|split; [lia|done]]. rewrite <- Hp. by rewrite Hp'.
Qed.

Lemma broker_turn_runs patience l last self : Forall answered (VideoBrokerRunner.replies self) -> loop_ok l self -> runner_ok last self ->
  eruns (turn patience l) self (turned (Loop.deferred_interactive l) (turns_left l self) last self).
Proof.
  intros Hdone [Hb Hsd Hi Hd] Hok. unfold turn.
  set (l1 := Loop.mk (Loop.interactive_open l) (Loop.background_open l) None).
  destruct (Loop.deferred_interactive l) as [command|] eqn:Hdef.
  - apply eruns_bind. unfold eruns at 1, eret. apply serve_turn; [done|done| |done|by apply Forall_cons in Hd as [? _]|].
    + split; cbn; try done. intros Hf. by destruct (Hi Hf) as (_ & _ & ?).
    + unfold turns_left. rewrite Hdef. cbn. lia.
  - eapply select_bind; [exact Hok| |].
    + intros selected s1 s' script' Hf Hp. rewrite Hsd in Hp. apply poll_some in Hp; [|done].
      pose proof Hf as [Hpend Hw Hwork _ Hsend]. specialize (Hwork (runner_work _ _ Hok)).
      assert (forall d s2, option_list d ++ pending s2 (concat script') = pending s1 (concat script') ->
        commands d (set_script (set_shared self s2) script') = commands None self) as Hcmd.
      { intros d s2 He. unfold commands. cbn. by rewrite He, Hpend. }
      destruct selected as [[command|]|[]]; [| | |done].
      * destruct Hp as (Hopen & Hq & Hs'). destruct (take_command _ _ _ (concat script') Hq Hs') as (Hp' & Hw' & Hwf & Ht).
        eapply eruns_mono; [|intros r self'; 
          apply (turned_from None (Some command) _ _ self (set_script (set_shared self s') script'));
          apply Hcmd; by rewrite Hp'].
        apply serve_turn; [done|by apply (runner_fares last self s1); [..|intros [_ ?]%Hwf]|split; cbn; [done|done|by rewrite ?Hopen|constructor]|done|by apply Hwf|].
        unfold turns_left. rewrite Hdef. cbn. lia.
      * destruct Hp as (Hopen & -> & Hq & Hs). exists last.
        split; [by apply (runner_fares last self s1)|]. split; [apply grew_refl|].
        split; [by split|]. split; [by apply Hcmd|]. split; [|done].
        unfold turns_left. rewrite Hdef, Hopen. cbn. lia.
      * destruct Hp as (Hch & -> & Hq). set (s' := Shared.set_background _ _ _).
        assert (runner_ok last (set_script (set_shared self s') script')) as Hok'.
        { apply (runner_fares last self s1); [done..| |by intros [? ?]]. done. }
        assert (weight s1 (concat script') = Datatypes.S (weight s' (concat script'))) as Hw'
          by (unfold weight; cbn; rewrite Hch; lia).
        eapply eruns_mono; [|intros r self'; 
          apply (turned_from None None _ _ self (set_script (set_shared self s') script')); by apply Hcmd].
        cbn [Loop.interactive_open]. destruct (Loop.interactive_open l) eqn:Hopen.
        -- apply grace_turn; [done|done|split; cbn; [done|done|by rewrite ?Hopen|constructor]|done|done|]. unfold turns_left. rewrite Hdef, Hopen. cbn. lia.
        -- destruct (Hi eq_refl) as (Hnobody & Hempty & _). destruct (Hsend Hnobody) as [Hs1 Hq1].
           apply background_turn; [done|done|split; cbn; try done; rewrite Hq1; done|done|].
           unfold turns_left. rewrite Hdef, Hopen. cbn. lia.
    + intros s' Hf Hp. rewrite Hsd in Hp. pose proof Hf as [Hpend Hw Hwork _ Hsend]. exists last.
      split; [by apply (runner_fares last self s' s' [])|]. split; [apply grew_refl|].
      split; [unfold commands; cbn; by rewrite Hpend|]. split; [|by split].
      destruct (Loop.interactive_open l) eqn:Hopen; [by apply (poll_none l)|].
      destruct (Hi eq_refl) as (Hnobody & Hempty & _). destruct (Hsend Hnobody) as [_ Hq1]. cbn. by rewrite Hq1.
Qed.

(** ** The run *)

(** How a run may end: everything there was is answered, in the order of the
    queue; or a shutdown was served, and those after it are told. *)
Definition ran (all : list InteractiveCommand.t) (r : outcome BrokerError RunEnd) (self' : runner) : Prop :=
  match r with
  | Ok Waiting => (VideoBrokerRunner.replies self').*1 = all /\ Forall answered (VideoBrokerRunner.replies self')
  | Ok Ended => exists earlier id r rest late,
      VideoBrokerRunner.replies self' = earlier ++ (InteractiveCommand.Shutdown id, CloseReply r)
        :: map (fun command => (command, Unanswered)) rest /\
      Forall answered earlier /\ all = earlier.*1 ++ InteractiveCommand.Shutdown id :: rest ++ late
  | _ => False
  end.

Lemma run_loop_runs patience turns : forall l last self,
  Forall answered (VideoBrokerRunner.replies self) -> loop_ok l self -> runner_ok last self ->
  (turns_left l self < turns)%nat ->
  eruns (run_loop turns patience l) self (fun r self' => exists last',
    runner_ok last' self' /\ grew last last' /\
    ran (commands (Loop.deferred_interactive l) self) r self').
Proof.
  induction turns as [|turns IH]; intros l last self Hdone Hl Hok Hleft; [lia|]. cbn.
  rewrite (loop_background _ _ Hl), orb_true_r. cbn [negb]. apply eruns_bind.
  eapply eruns_mono; [by apply broker_turn_runs|]. intros r self1 (last1 & Hok1 & Hg1 & Hr).
  destruct r as [[l1| |]|e| |]; [| | |done..].
  - destruct Hr as (Hl1 & Hcmd & Hless & Hdone1). rewrite <- Hcmd.
    eapply eruns_mono; [apply IH; try done; lia|]. intros r self2 (last2 & Hok2 & Hg2 & Hr).
    exists last2. split; [done|]. split; [by eapply grew_trans|done].
  - destruct Hr as (Hcmd & earlier & id & r & Hrep & Hearlier). apply eruns_modify. unfold eruns, eret.
    exists last1. split; [|split; [done|]].
    + destruct Hok1 as [[] [Hq Hs Hh] Hr]. split; [by split|by split|]. apply Forall_app. split; [done|].
      apply Forall_map, Forall_forall. intros [|] ?; done.
    + cbn. exists earlier, id, r, (Shared.interactive_commands (VideoBrokerRunner.shared self1)),
        (arrivals (Shared.senders (VideoBrokerRunner.shared self1)) (concat (VideoBrokerRunner.script self1))).
      split; [by rewrite Hrep, <- app_assoc|]. split; [done|]. rewrite <- Hcmd. unfold commands, pending.
      rewrite Hrep, fmap_app, <- !app_assoc. done.
  - destruct Hr as (Hcmd & Hq & Hsc & Hdone1). exists last1. split; [done|]. split; [done|].
    split; [|done]. rewrite <- Hcmd. unfold commands, pending. rewrite Hq, Hsc. cbn.
    by rewrite app_nil_r.
Qed.
End broker_laws.
