(* ===== verification/BrokerPlayback.v ===== *)
(** * Playback through the broker

    What the handles of a broker can rely on: every command is answered in turn,
    what a read returns is the file, and older work is refused after a seek. *)
From S2P Require Import Prelude WireError Utf16 Frame Header Create CreateContext Durable.
From S2P Require Import Client Effects Credits MessageIds AsyncResponse Transport Signing Connection.
From S2P Require Import Auth Session Exchange Tree Files Write Read PipelinedRead Cancellation.
From S2P Require Import Ntlm CancelRead CancelSafety Reconnect RecoveringRead VideoReader VideoSafety.
From S2P Require Import VideoPlayback Broker BrokerSafety.

(** ** A new broker *)

Lemma new_yields config : config_wf config ->
  exists reader, VideoReader.new config = Ok reader /\ forall served, reader_wf served reader.
Proof.
  intros Hc. pose proof Hc as ([Hr _] & Hd & [Hm _] & [Hchunk _] & [Hflight _]).
  unfold VideoReader.new, validate_config. rewrite !(proj2 (Z.eqb_neq _ _)) by lia.
  eexists. split; [reflexivity|]. intros served. split; cbn; done.
Qed.

Lemma direct_close_returns {T} `{TransportSafe T} `{CryptoLaws} (s0 : SessionConnection.t T) file w :
  session_inv s0 file w -> close_file_of w <> Panic.
Proof.
  intros (_ & _ & es & Ha). unfold close_file_of, direct_close.
  pose proof (close_file_runs (fst w) (snd w) CloseOptions.default (advances_wf _ _ _ Ha)) as Hr.
  unfold runs in Hr. destruct (close_file _ _ _) as [[] ?]; cbn; [discriminate..|done|discriminate].
Qed.

Definition schedule_ok (schedule : list nat) : Prop := Z.of_nat (sum_list schedule) < 2 ^ 64.

(** The turns that a script may take. *)
Definition turns_enough (script : list (list Happening)) (turns : nat) : Prop :=
  (sum_list (map happening_weight (concat script)) + 1 < turns)%nat.

Section new_broker.
Context {S : Type} `{ReadSource S} `{CancelableSource S} `{CloseSource S}.
Context (inv : S -> Prop) (served : S -> Z -> byte -> Prop) (whole : Prop) (n : Z).
Context `{!SourceLaws S inv served whole} `{!CancelableLaws S inv served whole}.
Context (Hlen : forall s, inv s -> source_len s = n) (Hclose : forall s, inv s -> close_file_of s <> Panic).

Lemma new_broker_runs source reader file_len tokens clock script turns patience :
  inv source -> reader_wf (served source) reader ->
  schedule_ok (fst tokens) -> schedule_ok (snd tokens) -> Forall (fun t => 0 <= t) clock ->
  Forall happening_wf (concat script) -> turns_enough script turns ->
  eruns (run turns patience) (broker_from_source source reader file_len tokens clock script)
    (fun r self' => exists last,
       runner_ok inv served whole n last self' /\ ran (arrivals true (concat script)) r self').
Proof.
  intros Hi Hr Ht1 Ht2 Hc Hs Hturns.
  eapply eruns_mono.
  { apply (run_loop_runs inv served whole n Hlen Hclose patience turns Loop.start source); [constructor|..].
    - by split.
    - split; [|split; cbn; [constructor|done|done]|constructor]. split; try done.
      by intros s [= <-].
    - unfold turns_left, turns_enough, weight in *. cbn. lia. }
  intros r self' (last & Hok & _ & Hran). exists last. split; [done|]. exact Hran.
Qed.
End new_broker.

(** C4: no caller of the broker is left waiting. Whatever the handles do and when
    (any commands and hints, at any of the looks of the runner, while the tokens
    are advanced in any way), over any source that keeps the laws: the runner
    never panics and never spins, for the turns it takes are bounded by what
    arrives. When it comes to rest waiting for more, every command that arrived
    has been answered, each once and in the order of the queue; when it ends, it
    served a shutdown after answering everything before it, and the callers whose
    commands were still queued are told so (their reply channels are dropped). *)
Theorem broker_answers_everyone {S : Type} `{ReadSource S} `{CancelableSource S} `{CloseSource S}
    (inv : S -> Prop) (served : S -> Z -> byte -> Prop) (whole : Prop) (n : Z)
    `{!SourceLaws S inv served whole} `{!CancelableLaws S inv served whole}
    (Hlen : forall s, inv s -> source_len s = n) (Hclose : forall s, inv s -> close_file_of s <> Panic)
    (source : S) (reader : VideoReader.t) (file_len : Z) (tokens : list nat * list nat) (clock : list Z)
    (script : list (list Happening)) (turns patience : nat)
    (Hsource : inv source) (Hreader : reader_wf (served source) reader)
    (Hplayback : schedule_ok (fst tokens)) (Hspeculative : schedule_ok (snd tokens))
    (Hclock : Forall (fun t => 0 <= t) clock) (Hscript : Forall happening_wf (concat script))
    (Hturns : turns_enough script turns) :
  eruns (run turns patience) (broker_from_source source reader file_len tokens clock script)
    (fun r self' =>
     let asked := arrivals true (concat script) in
     let replies := VideoBrokerRunner.replies self' in
     match r with
     | Ok Waiting => map fst replies = asked /\ Forall (fun entry => snd entry <> Unanswered) replies
     | Ok Ended => exists earlier id closed rest late,
         asked = map fst earlier ++ InteractiveCommand.Shutdown id :: rest ++ late /\
         replies = earlier ++ (InteractiveCommand.Shutdown id, CloseReply closed)
           :: map (fun command => (command, Unanswered)) rest /\
         Forall (fun entry => snd entry <> Unanswered) earlier
     | _ => False
     end).
Proof.
  eapply eruns_mono; [by apply (new_broker_runs inv served whole n Hlen Hclose)|].
  intros r self' (last & _ & Hran). destruct r as [[| |]| | |]; try done.
  destruct Hran as (earlier & id & closed & rest & late & Hr & He & Ha). by exists earlier, id, closed, rest, late.
Qed.

(** C5: the broker refines reading the file. Over a source that returns the
    requested bytes of a file or fails, whatever the handles do and when, every
    read that is answered with data is answered with exactly the bytes of the
    file in the range its caller asked for, clipped to the end of the file; one
    that fails is stale, comes after the source was closed, or carries an error
    of the source that is not a cancellation. *)
Theorem broker_refines_file {S : Type} `{ReadSource S} `{CancelableSource S} `{CloseSource S}
    (inv : S -> Prop) (contents : bytes)
    `{!SourceLaws S inv (fun _ => byte_at contents) True}
    `{!CancelableLaws S inv (fun _ => byte_at contents) True}
    (Hlen : forall s, inv s -> source_len s = len contents)
    (Hclose : forall s, inv s -> close_file_of s <> Panic)
    (source : S) (reader : VideoReader.t) (file_len : Z) (tokens : list nat * list nat) (clock : list Z)
    (script : list (list Happening)) (turns patience : nat)
    (Hsource : inv source) (Hreader : reader_wf (byte_at contents) reader)
    (Hplayback : schedule_ok (fst tokens)) (Hspeculative : schedule_ok (snd tokens))
    (Hclock : Forall (fun t => 0 <= t) clock) (Hscript : Forall happening_wf (concat script))
    (Hturns : turns_enough script turns) :
  eruns (run turns patience) (broker_from_source source reader file_len tokens clock script)
    (fun _ self' => forall g p offset length_ id r,
       (InteractiveCommand.Read g p offset length_ id, ReadReply r) ∈ VideoBrokerRunner.replies self' ->
       0 <= offset ->
       match r with
       | inr data => data = take (Z.to_nat length_) (drop (Z.to_nat offset) contents)
       | inl (BrokerStream e) => source_error e /\ is_cancelled e = false
       | inl e => e = StaleGeneration \/ e = Closed
       end).
Proof.
  eapply eruns_mono.
  { by apply (new_broker_runs inv (fun _ => byte_at contents) True (len contents) Hlen Hclose). }
  intros r self' (last & Hok & _) g p offset length_ id reply Hin Ho.
  pose proof (runner_replies _ _ _ _ _ _ Hok) as Hall. rewrite Forall_forall in Hall.
  specialize (Hall _ Hin). destruct reply as [[e| | |]|data]; cbn in Hall; [done|by right|by left|done|].
  destruct Hall as (Hg & _ & Hl). by apply good_file; [..|apply Hl].
Qed.

(** What a video broker over a session returns is what the server sent.
    Against any server, and whatever the handles do and when: every byte that a
    read returns was given for that very position by an accepted answer to a
    READ of the file sent in this session; a read returns no more than was asked
    and none beyond the end of the file. Any valid configuration makes a broker. *)
Theorem broker_session_sound {T} `{TransportSafe T} `{CryptoLaws} (s0 : SessionConnection.t T)
    (file : FileHandle.t) (config : VideoBrokerConfig.t) (tokens : list nat * list nat) (clock : list Z)
    (script : list (list Happening)) (turns patience : nat)
    (Hs : session_wf s0) (Hfile : u64 (FileHandle.length_ file))
    (Hcapacity : VideoBrokerConfig.queue_capacity config <> 0)
    (Hconfig : config_wf (VideoBrokerConfig.reader config))
    (Hplayback : schedule_ok (fst tokens)) (Hspeculative : schedule_ok (snd tokens))
    (Hclock : Forall (fun t => 0 <= t) clock) (Hscript : Forall happening_wf (concat script))
    (Hturns : turns_enough script turns) :
  exists runner, video_broker s0 file config tokens clock script = Ok runner /\
  eruns (run turns patience) runner (fun _ self' => exists s',
    forall g p offset length_ id data,
      (InteractiveCommand.Read g p offset length_ id, ReadReply (inr data)) ∈ VideoBrokerRunner.replies self' ->
      len data <= Z.max 0 (Z.min length_ (FileHandle.length_ file - offset)) /\
      forall i b, data !! i = Some b ->
        exists es, advances s0 es s' /\ answered_byte s0 file es (offset + Z.of_nat i) b).
Proof.
  destruct (new_yields _ Hconfig) as (reader & Hnew & Hreader).
  eexists. split.
  { unfold video_broker, validate_queue_capacity. rewrite (proj2 (Z.eqb_neq _ _) Hcapacity), Hnew. done. }
  eapply eruns_mono.
  { apply (new_broker_runs (session_inv s0 file) (session_served s0 file) False (FileHandle.length_ file));
      try done.
    - intros w [Hf _]. cbn. by rewrite Hf.
    - intros w Hw. by apply direct_close_returns with s0 file.
    - split_and!; try done. exists []. by apply advances_refl. }
  intros r self' (last & Hok & _). exists (fst last). intros g p offset length_ id data Hin.
  pose proof (runner_replies _ _ _ _ _ _ Hok) as Hall. rewrite Forall_forall in Hall.
  specialize (Hall _ Hin). cbn in Hall. by destruct Hall as (Hg & Hl & _).
Qed.

(** ** Generations *)

(** A token that can still be advanced. *)
Definition has_room (w : Which) (s : Shared.t) : Prop :=
  let tok := Shared.token w s in
  0 <= ReadCancellationToken.counter tok /\
  ReadCancellationToken.counter tok + Z.of_nat (sum_list (ReadCancellationToken.schedule tok)) + 1 < 2 ^ 64.

Lemma advance_ok (tok : ReadCancellationToken.t) :
  0 <= ReadCancellationToken.counter tok ->
  ReadCancellationToken.counter tok + Z.of_nat (sum_list (ReadCancellationToken.schedule tok)) + 1 < 2 ^ 64 ->
  exists tok', ReadCancellationToken.advance (E := BrokerError) tok = (Ok (ReadCancellationToken.counter tok'), tok') /\
    ReadCancellationToken.wf tok' /\ ReadCancellationToken.counter tok < ReadCancellationToken.counter tok'.
Proof.
  intros H0 Hroom. destruct (ReadCancellationToken.interfere_wf tok) as [Hw Hle]; [by split; [|lia]|].
  exists (ReadCancellationToken.mk
    (ReadCancellationToken.bump (ReadCancellationToken.counter (ReadCancellationToken.interfere tok)) 1)
    (ReadCancellationToken.schedule (ReadCancellationToken.interfere tok))).
  split; [reflexivity|].
  assert (ReadCancellationToken.counter (ReadCancellationToken.interfere tok)
    + Z.of_nat (sum_list (ReadCancellationToken.schedule (ReadCancellationToken.interfere tok))) + 1 < 2 ^ 64) as Hlt.
  { destruct tok as [g [|k rest]]; [done|]. unfold ReadCancellationToken.interfere, ReadCancellationToken.bump, wrapping_add.
    cbn -[Z.pow] in *. rewrite Z.mod_small by lia. lia. }
  unfold ReadCancellationToken.wf, ReadCancellationToken.bump, wrapping_add in *. cbn -[Z.pow] in *.
  rewrite Z.mod_small by lia. lia.
Qed.

Section stale.
Context {S : Type} `{ReadSource S} `{CancelableSource S}.
#[local] Abbreviation runner := (VideoBrokerRunner.t S).

(** A look that finds the token moved on. *)
Lemma is_current_stale {A} w generation (k : bool -> est BrokerError runner A) (self : runner) :
  tokens_ok (VideoBrokerRunner.shared self) -> generation < counter w (VideoBrokerRunner.shared self) ->
  exists tok, ebind (is_current w generation) k self = k false (looked w self tok).
Proof.
  intros Ht Hg. destruct (ReadCancellationToken.interfere_wf _ (tokens_token w _ Ht)) as [_ Hle].
  exists (ReadCancellationToken.interfere (Shared.token w (VideoBrokerRunner.shared self))).
  unfold ebind, is_current, on_shared, on_token, ReadCancellationToken.is_current. cbn.
  unfold counter in Hg. by rewrite (proj2 (Z.eqb_neq _ _)) by lia.
Qed.

Lemma process_read_stale patience generation offset length_ (self : runner) :
  tokens_ok (VideoBrokerRunner.shared self) -> generation < counter Playback (VideoBrokerRunner.shared self) ->
  exists tok, process_read patience generation offset length_ self
              = (Err StaleGeneration, looked Playback self tok).
Proof.
  intros Ht Hg. unfold process_read, prepare_generation, ebind at 1.
  edestruct (is_current_stale (A := unit) Playback generation) as [tok Heq]; [exact Ht|exact Hg|].
  exists tok. by rewrite Heq.
Qed.

(** The runner after its first look at the playback token. *)
Definition first_look (self : runner) : runner :=
  looked Playback self
    (ReadCancellationToken.interfere (Shared.cancellation (VideoBrokerRunner.shared self))).

(** A read refused by that look. *)
Definition refused_read (generation : Z) (self self' : runner) : Prop :=
  self' = first_look self /\ counter Playback (VideoBrokerRunner.shared self') <> generation.

(** A read overtaken after it was begun: it had its data and the token had moved,
    or the source gave it up; the reader forgets its window and its cursor. *)
Record overtaken_read (patience : nat) (generation offset length_ : Z) (self self' : runner) : Prop := {
  overtaken_begun : counter Playback (VideoBrokerRunner.shared (first_look self)) = generation;
  overtaken_how : exists self1, prepare_generation generation offset self = (Ok tt, self1) /\
    match fst (read_source patience offset length_ generation self1) with
    | Ok _ => counter Playback (VideoBrokerRunner.shared self') <> generation
    | Err (BrokerStream e) => is_cancelled e = true
    | _ => False
    end;
  overtaken_window : VideoReader.cache (VideoBrokerRunner.reader self') = None;
  overtaken_cursor : VideoReader.last_request_end (VideoBrokerRunner.reader self') = None
}.

Lemma prepare_generation_cases generation offset (self : runner) :
  let self1 := first_look self in
  prepare_generation generation offset self =
    if negb (counter Playback (VideoBrokerRunner.shared self1) =? generation)
    then (Err StaleGeneration, self1)
    else (Ok tt, if generation =? VideoBrokerRunner.active_generation self1 then self1
                 else set_reader self1 (VideoReader.seek (VideoBrokerRunner.reader self1) offset) generation).
Proof. cbn zeta. cbv [prepare_generation ebind]. cbn. unfold counter. by destruct (_ =? _). Qed.

Lemma process_read_refused patience generation offset length_ (self : runner) :
  counter Playback (VideoBrokerRunner.shared (first_look self)) <> generation ->
  process_read patience generation offset length_ self = (Err StaleGeneration, first_look self).
Proof.
  intros Hg. unfold process_read, ebind at 1. rewrite prepare_generation_cases. cbn zeta.
  by rewrite (proj2 (Z.eqb_neq _ _) Hg).
Qed.

Lemma process_read_late patience generation offset length_ (self self' : runner) :
  process_read patience generation offset length_ self = (Err StaleGeneration, self') ->
  refused_read generation self self' \/ overtaken_read patience generation offset length_ self self'.
Proof.
  destruct (Z.eq_dec (counter Playback (VideoBrokerRunner.shared (first_look self))) generation) as [Hg|Hg].
  2: { rewrite process_read_refused by done. intros [= <-]. by left. }
  pose proof (prepare_generation_cases generation offset self) as Hprep. cbn zeta in Hprep.
  rewrite (proj2 (Z.eqb_eq _ _) Hg) in Hprep. cbn [negb] in Hprep.
  unfold process_read, ebind at 1. rewrite Hprep. set (self1 := if _ =? _ then _ else _) in *.
  unfold ebind at 1, caught.
  destruct (read_source patience offset length_ generation self1) as [r self2] eqn:Hread.
  assert (forall self3, VideoReader.cache (VideoBrokerRunner.reader self3) = None ->
    VideoReader.last_request_end (VideoBrokerRunner.reader self3) = None ->
    match r with
    | Ok _ => counter Playback (VideoBrokerRunner.shared self3) <> generation
    | Err (BrokerStream e) => is_cancelled e = true
    | _ => False
    end -> overtaken_read patience generation offset length_ self self3) as Hover.
  { intros self3 Hw Hl Hr. split; [done| |done..]. exists self1. by rewrite Hread. }
  destruct r as [data|[e| | |]| |]; try discriminate.
  - intros Heq. right. cbv [ebind is_current on_shared on_token ReadCancellationToken.is_current] in Heq.
    destruct (Z.eqb_spec (ReadCancellationToken.counter (ReadCancellationToken.interfere
      (Shared.token Playback (VideoBrokerRunner.shared self2)))) generation) as [Hs|Hs];
      [discriminate Heq|]. injection Heq as <-. by apply Hover.
  - destruct (is_cancelled e) eqn:Hc; [|discriminate]. intros [= <-]. right. by apply Hover.
  - exfalso. revert Hread. unfold read_source, on_player.
    destruct (VideoBrokerRunner.source self1); [|done]. by destruct (read_cancelable _ _ _ _ _) as [[]].
Qed.

Lemma process_prefetch_stale patience command (self : runner) :
  tokens_ok (VideoBrokerRunner.shared self) ->
  PrefetchCommand.prefetch_generation command < counter Speculative (VideoBrokerRunner.shared self) ->
  exists tok, process_prefetch patience command self = (Err StaleGeneration, looked Speculative self tok).
Proof.
  intros Ht Hg. unfold process_prefetch.
  edestruct (is_current_stale (A := unit) Speculative (PrefetchCommand.prefetch_generation command))
    as [tok Heq]; [exact Ht|exact Hg|]. exists tok. by rewrite Heq.
Qed.
End stale.

(** C7: a seek makes all older work stale, and a read makes older prefetches
    stale before it is even queued. [seek] returns a generation the playback
    token has not had before, and moves the token of the speculative work on as
    well; [read] moves that one on, reads the playback generation, and only then
    queues a command that carries both. From then on, whatever state the runner
    is in: a read issued under an older generation is answered [StaleGeneration],
    and so is a prefetch issued under an older generation of the speculative
    work, by one look at the token: the source, the window, the queue and the
    replies are untouched. *)
Theorem seek_makes_stale {S : Type} `{ReadSource S} `{CancelableSource S} (s : Shared.t)
    (offset length_ : Z) (reply : nat)
    (Hplayback : has_room Playback s) (Hspeculative : has_room Speculative s) :
  (exists s', VideoBrokerHandle.seek s = (Ok (counter Playback s'), s') /\
     counter Playback s < counter Playback s' /\ counter Speculative s < counter Speculative s' /\
     Shared.interactive_commands s' = Shared.interactive_commands s) /\
  (exists r s' g, VideoBrokerHandle.read offset length_ reply s = (r, s') /\
     counter Playback s <= g <= counter Playback s' /\ counter Speculative s < counter Speculative s' /\
     (Shared.receivers s = true -> r = Ok tt /\
        Shared.interactive_commands s' = Shared.interactive_commands s ++
          [InteractiveCommand.Read g (counter Speculative s') offset length_ reply]) /\
     (Shared.receivers s = false -> r = Err Closed /\
        Shared.interactive_commands s' = Shared.interactive_commands s)) /\
  forall (self : VideoBrokerRunner.t S) patience, tokens_ok (VideoBrokerRunner.shared self) ->
    (forall generation o n, generation < counter Playback (VideoBrokerRunner.shared self) ->
       exists tok, process_read patience generation o n self
                   = (Err StaleGeneration, looked Playback self tok)) /\
    (forall command,
       PrefetchCommand.prefetch_generation command < counter Speculative (VideoBrokerRunner.shared self) ->
       exists tok, process_prefetch patience command self
                   = (Err StaleGeneration, looked Speculative self tok)).
Proof.
  destruct (advance_ok _ (proj1 Hspeculative) (proj2 Hspeculative)) as (spec & Hspec & _ & Hslt).
  split; [|split].
  - destruct (advance_ok _ (proj1 Hplayback) (proj2 Hplayback)) as (play & Hplay & _ & Hplt).
    exists (Shared.set_token Playback (Shared.set_token Speculative s spec) play). split.
    { unfold VideoBrokerHandle.seek, ebind, on_token. rewrite Hspec. cbv beta iota.
      change (Shared.token Playback (Shared.set_token Speculative s spec)) with (Shared.token Playback s).
      rewrite Hplay. reflexivity. }
    by cbn.
  - destruct Hplayback as [Hp0 Hproom].
    destruct (ReadCancellationToken.interfere_wf (Shared.cancellation s)) as [_ Hle].
    { split; [done|]. cbn -[Z.pow] in *. lia. }
    unfold VideoBrokerHandle.read, VideoBrokerHandle.send, VideoBrokerHandle.generation, ebind, on_token.
    rewrite Hspec. cbv beta iota. cbn. destruct (Shared.receivers s); do 3 eexists; (split; [reflexivity|]); unfold counter; cbn;
      (split; [split; [exact Hle|done]|split; [exact Hslt|]]); by split.
  - intros self patience Ht. split; intros.
    + by apply process_read_stale.
    + by apply process_prefetch_stale.
Qed.

(** C8: an answered read was wanted to the end, and an overtaken one leaves
    nothing behind. Over any source that keeps the laws, and whatever advances the
    tokens meanwhile: if the first look finds the generation no longer current,
    the read is [StaleGeneration] with neither the source nor the reader touched.
    If a read is answered with data, its generation was still the current one at
    the last look, after the data was there, and the data was served for the range
    asked for. A read that is [StaleGeneration] later than the first look either
    had its data and found the token moved, or was cancelled in the source; either
    way its reader is left without window and without cursor, so nothing the
    overtaken read fetched is shown to a later one. Any other error is one of the
    source, never a cancellation, or says that the source was closed. *)
Theorem process_read_sound {S : Type} `{ReadSource S} `{CancelableSource S}
    (inv : S -> Prop) (served : S -> Z -> byte -> Prop) (whole : Prop) (n : Z)
    `{!SourceLaws S inv served whole} `{!CancelableLaws S inv served whole}
    (Hlen : forall s, inv s -> source_len s = n) (patience : nat) (generation offset length_ : Z)
    (last : S) (self : VideoBrokerRunner.t S)
    (Hok : core_ok inv served last self) (Hoffset : u64 offset) (Hlength : 0 <= length_ <= usize_max) :
  (counter Playback (VideoBrokerRunner.shared (first_look self)) <> generation ->
     process_read patience generation offset length_ self = (Err StaleGeneration, first_look self)) /\
  eruns (process_read patience generation offset length_) self (fun r self' => exists last',
    core_ok inv served last' self' /\
    match r with
    | Ok data =>
        ReadCancellationToken.counter (Shared.cancellation (VideoBrokerRunner.shared self')) = generation /\
        good (served last') offset data /\ len data <= Z.max 0 (Z.min length_ (n - offset))
    | Err StaleGeneration =>
        refused_read generation self self' \/ overtaken_read patience generation offset length_ self self'
    | Err (BrokerStream e) => source_error e /\ is_cancelled e = false
    | Err Closed => VideoBrokerRunner.source self = None
    | Err (BrokerInvalidConfig _) => False
    | _ => True
    end).
Proof.
  split; [apply process_read_refused|].
  pose proof (process_read_late patience generation offset length_ self) as Hlate.
  eapply eruns_run; [by apply (process_read_runs inv served whole n Hlen)|].
  intros r self' Hrun (last' & Hc & _ & _ & Hans & Hclosed & Hcur). exists last'. split; [done|].
  destruct r as [data|[e| | |]| |]; try done.
  - by destruct Hans as (Hg & Hl & _).
  - by destruct (VideoBrokerRunner.source self); [destruct (Hclosed ltac:(done))|].
  - by apply Hlate.
Qed.

(** ** A file in memory *)

#[export] Instance memory_close : CloseSource bytes := {
  close_file_of _ := Ok (CloseInfo.mk false 0 0 0 0 0 10 0)
}.
Definition memory_broker (script : list (list Happening)) : VideoBrokerRunner.t bytes :=
  broker_from_source ten_bytes small_reader 10 ([], []) [] script.
(** Reads in and beyond the window, an old one, a hint, and a shutdown with more
    reads behind it. *)
Definition watching : list (list Happening) :=
  [[Arrive (InteractiveCommand.Read 0 0 0 2 1)]; [Arrive (InteractiveCommand.Read 0 0 2 5 2)]; []; [];
   [Arrive (InteractiveCommand.Read 7 0 0 1 3); Hint (PrefetchCommand.mk 0 0 7 4)]; [];
   [Arrive (InteractiveCommand.Read 0 0 7 9 4); Arrive (InteractiveCommand.Shutdown 5);
    Arrive (InteractiveCommand.Read 0 0 0 1 6)]; [Arrive (InteractiveCommand.Read 0 0 0 1 7)]].

(** What the replies say, by the channels of their callers. *)
Definition reply_of (entry : InteractiveCommand.t * Answer) : nat * (BrokerError + bytes) :=
  match entry with
  | (InteractiveCommand.Read _ _ _ _ id, ReadReply r) => (id, r)
  | (InteractiveCommand.Read _ _ _ _ id, _) | (InteractiveCommand.Shutdown id, _) => (id, inl Closed)
  end.
Definition watched_replies : list (nat * (BrokerError + bytes)) :=
  [(1, inr [x00; x01]); (2, inr [x02; x03; x04; x05; x06]); (3, inl StaleGeneration);
   (4, inr [x07; x08; x09]); (5, inl Closed); (6, inl Closed); (7, inl Closed)]%nat.

(** The run ended by the shutdown, with these replies. *)
Fixpoint same_replies (entries : list (InteractiveCommand.t * Answer))
    (expected : list (nat * (BrokerError + bytes))) : bool :=
  match entries, expected with
  | [], [] => true
  | entry :: entries, (id, r) :: expected =>
      let '(id', r') := reply_of entry in
      (id =? id')%nat && match r, r' with
                         | inr data, inr data' => bool_decide (data = data')
                         | inl Closed, inl Closed | inl StaleGeneration, inl StaleGeneration => true
                         | _, _ => false
                         end && same_replies entries expected
  | _, _ => false
  end.
Definition ended_with (expected : list (nat * (BrokerError + bytes))) (e : RunEnd)
    (self : VideoBrokerRunner.t bytes) : bool :=
  match e with Ended => same_replies (VideoBrokerRunner.replies self) expected | _ => false end.

Lemma watching_wf : Forall happening_wf (concat watching).
Proof. repeat constructor; vm_compute; discriminate. Qed.

Lemma broker_answers_everyone_witness :
  exists self' earlier id closed rest late,
    ended_with watched_replies Ended self' = true /\
    arrivals true (concat watching) = map fst earlier ++ InteractiveCommand.Shutdown id :: rest ++ late /\
    VideoBrokerRunner.replies self' = earlier ++ (InteractiveCommand.Shutdown id, CloseReply closed)
      :: map (fun command => (command, Unanswered)) rest.
Proof.
  destruct (eruns_ended _ _ _ (ended_with watched_replies)
    (broker_answers_everyone (in_memory ten_bytes) (fun _ => byte_at ten_bytes) True 10
      ltac:(by intros s [-> _]) ltac:(done) ten_bytes small_reader 10 ([], []) [] watching 40 1
      ltac:(by split) (small_reader_wf _) ltac:(done) ltac:(done) ltac:(constructor) watching_wf
      ltac:(vm_compute; lia))) as (e & self' & Hrun & Ht); [vm_compute; reflexivity|].
  destruct e; [|discriminate Ht|discriminate Ht].
  destruct Hrun as (earlier & id & closed & rest & late & Ha & Hr & _).
  by exists self', earlier, id, closed, rest, late.
Defined.

Lemma broker_refines_file_witness :
  exists self', ended_with watched_replies Ended self' = true /\
    forall g p id r, (InteractiveCommand.Read g p 7 9 id, ReadReply (inr r)) ∈ VideoBrokerRunner.replies self' ->
      r = [x07; x08; x09].
Proof.
  destruct (eruns_ended _ _ _ (ended_with watched_replies)
    (broker_refines_file (in_memory ten_bytes) ten_bytes
      ltac:(by intros s [-> _]) ltac:(done) ten_bytes small_reader 10 ([], []) [] watching 40 1
      ltac:(by split) (small_reader_wf _) ltac:(done) ltac:(done) ltac:(constructor) watching_wf
      ltac:(vm_compute; lia))) as (e & self' & Hrun & Ht); [vm_compute; reflexivity|].
  destruct e; [|discriminate Ht|discriminate Ht].
  exists self'. split; [exact Ht|]. intros g p id data Hin. by apply (Hrun _ _ _ _ _ _ Hin).
Defined.

(** A read that is wanted, and one that is overtaken before its data is there. *)
Definition overtaken : VideoBrokerRunner.t bytes :=
  broker_from_source ten_bytes small_reader 10 ([0; 0; 0; 1]%nat, []) [] [].
Lemma memory_core tokens : schedule_ok (fst tokens) -> schedule_ok (snd tokens) ->
  core_ok (in_memory ten_bytes) (fun _ => byte_at ten_bytes) ten_bytes
    (broker_from_source ten_bytes small_reader 10 tokens [] []).
Proof. intros. split; try done. by intros s [= <-]. Qed.

Lemma process_read_sound_witness :
  (exists self', ReadCancellationToken.counter (Shared.cancellation (VideoBrokerRunner.shared self')) = 0 /\
     good (byte_at ten_bytes) 0 [x00; x01] /\
     core_ok (in_memory ten_bytes) (fun _ => byte_at ten_bytes) ten_bytes self') /\
  fst (process_read 1 0 0 2 overtaken) = Err StaleGeneration /\
  VideoReader.cache (VideoBrokerRunner.reader (snd (process_read 1 0 0 2 overtaken))) = None.
Proof.
  split; [|split; vm_compute; reflexivity].
  destruct (eruns_ended _ _ _ (fun data _ => bool_decide (data = [x00; x01]))
    (proj2 (process_read_sound (in_memory ten_bytes) (fun _ => byte_at ten_bytes) True 10
      ltac:(by intros s [-> _]) 1 0 0 2 ten_bytes (memory_broker [])
      (memory_core ([], []) ltac:(done) ltac:(done)) ltac:(done) ltac:(done))))
    as (data & self' & (last & Hc & Hcur & Hg & _) & Ht%bool_decide_eq_true); [vm_compute; reflexivity|].
  subst data. exists self'. split; [exact Hcur|]. split; [exact Hg|].
  destruct (core_inv _ _ _ _ Hc) as [-> _]. exact Hc.
Defined.

(** When every handle is gone without a shutdown, the runner waits for ever: the
    sender it keeps for its own hints leaves the slot open. *)
Lemma dropped_handles_leave_runner_waiting (script : list (list Happening)) :
  script = [[HandlesDropped]] -> fst (run 40 1 (memory_broker script)) = Ok Waiting.
Proof. by intros ->. Qed.

(** ** A session *)

#[local] Existing Instance toy_crypto.
#[local] Existing Instance toy_laws.
(** A read, after which the speculative work is no longer wanted. *)
Definition sample_broker_config : VideoBrokerConfig.t := VideoBrokerConfig.mk small_video 4.
Definition sample_script : list (list Happening) := [[Arrive (InteractiveCommand.Read 0 0 994 10 1)]].
Definition one_reply (self : VideoBrokerRunner.t (SessionConnection.t TcpTransport.t * FileHandle.t)) : bool :=
  match VideoBrokerRunner.replies self with
  | [(InteractiveCommand.Read _ _ offset length_ _, ReadReply (inr data))] =>
      (offset =? 994) && (length_ =? 10) && bool_decide (data = [x0a; x0b; x0c; x0d; x0e])
  | _ => false
  end.

Lemma broker_session_sound_witness :
  exists es (s' : SessionConnection.t TcpTransport.t),
    advances (sample_session sample_answers) es s' /\
    answered_byte (sample_session sample_answers) sample_file es 997 x0d.
Proof.
  destruct (broker_session_sound (sample_session sample_answers) sample_file sample_broker_config
    ([], [1%nat]) [] sample_script 9 4 (sample_session_wf _) ltac:(done) ltac:(done)
    ltac:(unfold config_wf, options_wf; vm_compute; intuition discriminate) ltac:(done) ltac:(done)
    ltac:(constructor) ltac:(repeat constructor; vm_compute; discriminate) ltac:(vm_compute; lia))
    as (runner & Hrunner & Hrun).
  vm_compute in Hrunner. injection Hrunner as <-.
  destruct (eruns_ended _ _ _ (fun _ self => one_reply self) Hrun) as (a & self' & (s' & Hall) & Ht);
    [vm_compute; reflexivity|].
  unfold one_reply in Ht. destruct (VideoBrokerRunner.replies self') as [|[[g p o n id|] [[|data]| |]] [|]] eqn:Hr;
    try discriminate Ht.
  apply andb_true_iff in Ht as [[->%Z.eqb_eq ->%Z.eqb_eq]%andb_true_iff ->%bool_decide_eq_true].
  destruct (Hall g p 994 10 id [x0a; x0b; x0c; x0d; x0e]) as [_ Hb]; [by left|].
  destruct (Hb 3%nat x0d eq_refl) as (es & Ha & Hbyte). exists es, s'. split; [exact Ha|exact Hbyte].
Defined.

(** A token that the others leave alone, and one they advance. *)
Lemma seek_makes_stale_witness :
  let s := VideoBrokerRunner.shared (memory_broker []) in
  exists s', VideoBrokerHandle.seek s = (Ok 1, s') /\
    exists tok, process_read 1 0 4 2 (set_shared (memory_broker []) s')
                = (Err StaleGeneration, looked Playback (set_shared (memory_broker []) s') tok).
Proof.
  destruct (seek_makes_stale (S := bytes) (VideoBrokerRunner.shared (memory_broker [])) 4 2 1)
    as ((s' & Hseek & Hplay & Hspec & _) & _ & Hstale); [by split|by split|].
  assert (s' = snd (VideoBrokerHandle.seek (VideoBrokerRunner.shared (memory_broker [])))) as Hs'
    by (rewrite Hseek; reflexivity).
  exists s'. split; [rewrite Hs'; reflexivity|].
  assert (tokens_ok s') as Ht by (rewrite Hs'; by split; split).
  apply (proj1 (Hstale (set_shared (memory_broker []) s') 1%nat Ht) 0 4 2). cbn. rewrite Hs'. reflexivity.
Defined.
