(* ===== verification/RecoveringPlayback.v ===== *)
(** * Playback through a file that reconnects

    A recovering file keeps the promise of a source: through every reconnection
    the bytes it shows are those that the servers gave for the file that the
    recipe knew. So a broker over it ([recovering_video_broker_with_policy] of
    crates/smb-stream/src/broker.rs) shows that file and no other. *)
From S2P Require Import Prelude WireError Utf16 Frame Header Create CreateContext Durable.
From S2P Require Import Client Effects Credits MessageIds AsyncResponse Transport Signing Connection.
From S2P Require Import Auth Session Exchange Tree Files Write Read PipelinedRead Cancellation.
From S2P Require Import Ntlm CancelRead CancelSafety Reconnect RecoveringRead RecoveringCancel.
From S2P Require Import VideoReader VideoSafety VideoPlayback Broker BrokerSafety BrokerPlayback.

Section recovering_source_laws.
Context {T W : Type} `{TransportSafe T} `{CryptoLaws} `{NtlmEnvironmentLaws} `{HostLaws T W}.
#[local] Abbreviation recovering := (RecoveringReadOnlyFile T W).
#[local] Abbreviation session_of := (SessionConnection.t T).

(** ** The sessions of a file *)

(** A session as it was when the file was opened in it, the handle, and what has
    happened in it since. *)
Record segment : Type := Segment {
  segment_session : session_of;
  segment_file : FileHandle.t;
  segment_events : list event
}.

(** How a file came from [f0]: the current session went on, or was replaced by
    one in which the reopened file was validated, or the recipe was used without
    success. The segments are those of all its sessions, the current one first. *)
Inductive history (f0 : recovering) : list segment -> recovering -> Prop :=
  | history_start : history f0 [Segment (session f0) (file f0) []] f0
  | history_exchange s h es past f es' s' :
      history f0 (Segment s h es :: past) f -> advances (session f) es' s' ->
      history f0 (Segment s h (es ++ es') :: past) (set_session f s')
  | history_reconnect past f f' :
      history f0 past f -> reconnected f (Ok tt) f' ->
      history f0 (Segment (session f') (file f') [] :: past) f'
  | history_retry past f f' : history f0 past f -> same_file f f' -> history f0 past f'.

(** The byte was given for this position by an accepted answer to a READ of the
    file, sent in one of its sessions. *)
Definition history_byte (past : list segment) (p : Z) (b : byte) : Prop :=
  exists segment, segment ∈ past /\
    answered_byte (segment_session segment) (segment_file segment) (segment_events segment) p b.
Definition recovering_served (f0 f : recovering) (p : Z) (b : byte) : Prop :=
  exists past, history f0 past f /\ history_byte past p b.

(** The recipe knows the length of the file. *)
Definition known_length (n : Z) (r : Recipe.t) : Prop :=
  exists o, Recipe.identity r = Some o /\ FileIdentity.length_ o = n.

Record recovering_inv (f0 : recovering) (n : Z) (f : recovering) : Prop := {
  recovering_inv_wf : recovering_wf f;
  recovering_inv_known : known_length n (recipe f);
  recovering_inv_length : FileHandle.length_ (file f) = n;
  recovering_inv_u64 : u64 n;
  recovering_inv_history : exists past, history f0 past f
}.

Lemma history_head f0 past f : session_wf (session f0) -> history f0 past f ->
  exists s es rest, past = Segment s (file f) es :: rest /\ advances s es (session f).
Proof.
  intros Hf0. induction 1 as [|s h es past f es' s' _ IH Ha|past f f' _ _ Hr|past f f' _ IH Hs].
  - exists (session f0), [], []. split; [done|by apply advances_refl].
  - destruct IH as (s2 & es2 & rest & [= -> -> -> ->] & Ha2). exists s2, (es2 ++ es'), rest.
    split; [done|]. by eapply advances_app.
  - exists (session f'), [], past. split; [done|]. apply advances_refl, Hr.
  - destruct IH as (s & es & rest & -> & Ha). destruct Hs as (_ & _ & Hs & Hh).
    exists s, es, rest. by rewrite Hs, Hh.
Qed.

Lemma history_byte_exchange s h es es' past p b :
  history_byte (Segment s h es :: past) p b -> history_byte (Segment s h (es ++ es') :: past) p b.
Proof.
  intros (seg & [->|Hin]%elem_of_cons & Hb).
  - exists (Segment s h (es ++ es')). split; [by left|]. by apply answered_byte_app.
  - exists seg. split; [by right|done].
Qed.

Context (f0 : recovering) (n : Z) (Hf0 : session_wf (session f0)).
#[local] Abbreviation inv := (recovering_inv f0 n).
#[local] Abbreviation served := (recovering_served f0).
#[local] Abbreviation kept := (source_kept inv served False).

Lemma recovering_kept_refl f : inv f -> kept f f.
Proof. intros. by split; [|split]. Qed.
Lemma recovering_kept_trans f1 f2 f3 : kept f1 f2 -> kept f2 f3 -> kept f1 f3.
Proof. intros (_ & H12 & _) (? & H23 & _). split; [done|]. split; [auto|done]. Qed.

(** ** The steps of a read *)

Lemma exchange_kept f es s' : inv f -> advances (session f) es s' -> kept f (set_session f s').
Proof.
  intros [Hwf Hk Hl Hu (past & Hh)] Ha. split; [split; try done|split; [|done]].
  - by apply recovering_set; [|apply Ha].
  - destruct (history_head _ _ _ Hf0 Hh) as (s & es0 & rest & -> & _). by eexists; eapply history_exchange.
  - intros p b (past' & Hh' & Hb).
    destruct (history_head _ _ _ Hf0 Hh') as (s & es0 & rest & -> & _).
    eexists. split; [by eapply history_exchange|]. by apply history_byte_exchange.
Qed.

Lemma reconnect_kept f f' : inv f -> reconnected f (Ok tt) f' -> kept f f'.
Proof.
  intros [Hwf Hk Hl Hu (past & Hh)] Hr. pose proof Hr as (Hkept & _ & Hs & s & id & [_ (samples & _ & ->)] & Hv).
  destruct Hk as (o & Ho & Hn). rewrite Ho in Hv.
  apply andb_true_iff in Hv as [[Hlen%Z.eqb_eq _]%andb_true_iff _]. cbn in Hlen.
  split; [split; try done|split; [|done]].
  - split; [done|apply Hkept|by eapply kept_known; [|apply Hwf]].
  - exists o. split; [|done]. by apply Hkept.
  - congruence.
  - eexists. by eapply history_reconnect.
  - intros p b (past' & Hh' & seg & Hin & Hb). eexists. split; [by eapply history_reconnect|].
    exists seg. split; [by right|done].
Qed.

Lemma retry_kept f f' : inv f -> same_file f f' -> kept f f'.
Proof.
  intros [Hwf Hk Hl Hu (past & Hh)] Hs. pose proof Hs as (Hkept & _ & _ & Hfile).
  split; [split; try done|split; [|done]].
  - by eapply same_file_wf.
  - destruct Hk as (o & Ho & Hn). exists o. split; [|done]. by apply Hkept.
  - congruence.
  - exists past. by eapply history_retry.
  - intros p b (past' & Hh' & Hb). exists past'. split; [by eapply history_retry|done].
Qed.

(** What a read through the current session comes to: as much of the range as the
    file has, or less, from the answers to its requests. *)
Definition fetching (offset length : Z) (s : session_of) (h : FileHandle.t) (r : client bytes)
    (s' : session_of) : Prop :=
  exists es, advances s es s' /\
  match r with
  | Ok data => exists ended, assembled s h es offset data ended /\
      len data <= Z.max 0 (Z.min length (FileHandle.length_ h - offset))
  | _ => True
  end.

Lemma exchange_good f es s' offset data ended : inv f -> advances (session f) es s' ->
  assembled (session f) (file f) es offset data ended -> good (served (set_session f s')) offset data.
Proof.
  intros [_ _ _ _ (past & Hh)] Ha Hd i b Hi.
  destruct (history_head _ _ _ Hf0 Hh) as (s & es0 & rest & -> & Ha0).
  eexists. split; [by eapply history_exchange|]. eexists. split; [by left|]. cbn.
  eapply answered_byte_advances; [done|]. by eapply assembled_byte.
Qed.

#[local] Abbreviation wanted offset length := (Z.max 0 (Z.min length (n - offset))).

Lemma fetching_kept offset length f r s' : inv f -> fetching offset length (session f) (file f) r s' ->
  kept f (set_session f s') /\
  match r with
  | Ok data => fetched_ok (served (set_session f s')) False offset (wanted offset length) data
  | _ => True
  end.
Proof.
  intros Hf (es & Ha & Hr). split; [by eapply exchange_kept|]. destruct r as [data| | |]; try done.
  destruct Hr as (ended & Hd & Hl). rewrite (recovering_inv_length _ _ _ Hf) in Hl.
  split; [by eapply exchange_good|]. by split.
Qed.

(** The last read of an episode, whose outcome is the caller's. *)
Lemma last_read_kept offset length f0' f r s' : kept f0' f -> inv f ->
  fetching offset length (session f) (file f) r s' ->
  kept f0' (set_session f s') /\
  fetch_result (served (set_session f s')) False offset (wanted offset length)
    (omap_err StreamReconnect (omap_err map_client_error r)).
Proof.
  intros Hk Hf Hr. destruct (fetching_kept _ _ _ _ _ Hf Hr) as [Hk' Hd].
  split; [by eapply recovering_kept_trans|]. by destruct r.
Qed.

Lemma failed_kept f s1 f' e' : kept f (set_session f s1) ->
  reconnected (set_session f s1) (Err e') f' -> kept f f'.
Proof.
  intros Hk Hr. eapply recovering_kept_trans; [exact Hk|]. apply retry_kept; [apply Hk|].
  destruct Hr as (? & ? & ? & ?). by split_and!.
Qed.

Lemma replayed_kept (reads : session_of -> FileHandle.t -> client bytes -> session_of -> Prop)
    offset length f r f' : inv f ->
  (forall s h x s', reads s h x s' -> fetching offset length s h x s') -> replayed reads f r f' ->
  kept f f' /\ fetch_result (served f') False offset (wanted offset length) (omap_err StreamReconnect r).
Proof.
  intros Hf Hreads (first & s1 & Hfirst & Hr). apply Hreads in Hfirst.
  pose proof (recovering_kept_refl f Hf) as Hrefl.
  destruct (fetching_kept _ _ _ _ _ Hf Hfirst) as [Hk1 _].
  destruct first as [data|e| |]; try by destruct Hr as [-> ->]; apply last_read_kept.
  destruct (should_recover f e); [|by destruct Hr as [-> ->]].
  destruct Hr as [(f1 & second & s2 & Hrec & Hsecond & -> & ->)|(e' & Hrec & ->)].
  - pose proof (reconnect_kept _ _ (proj1 Hk1) Hrec) as Hk2.
    apply last_read_kept; [by eapply recovering_kept_trans|apply Hk2|by apply Hreads].
  - split; [by eapply failed_kept|done].
Qed.

Lemma recovered_kept generation offset length f token r f' token' : inv f ->
  recovered generation offset length f token r (f', token') ->
  kept f f' /\ fetch_result (served f') False offset (wanted offset length) (omap_err StreamReconnect r).
Proof.
  intros Hf Hr.
  assert (forall (g : recovering) s t, cancelable_from generation offset length (session g) (file g) s t ->
    fetching offset length (session g) (file g) s (fst t)) as Hreads.
  { intros g x [s' t] (es & _ & Ha & Hx). exists es. split; [done|]. destruct x; try done.
    destruct Hx as (_ & ended & Hd & Hle & _). by exists ended. }
  pose proof (recovering_kept_refl f Hf) as Hrefl.
  destruct Hr as [(-> & -> & _)|(_ & first & s1 & token1 & Hfirst & Hr)]; [done|].
  apply Hreads in Hfirst. destruct (fetching_kept _ _ _ _ _ Hf Hfirst) as [Hk1 _].
  destruct first as [data|e| |]; try by destruct Hr as (-> & -> & _); apply last_read_kept.
  assert (e = Cancelled \/
     if should_recover f e then
        (exists f1 second s2 t3, reconnected (set_session f s1) (Ok tt) f1 /\
           cancelable_from generation offset length (session f1) (file f1) second (s2, t3) /\
           r = omap_err map_client_error second /\ f' = set_session f1 s2)
        \/ (exists e', reconnected (set_session f s1) (Err e') f' /\ r = Err e')
     else r = Err (map_client_error e) /\ f' = set_session f s1) as [->|Hr'].
  { assert (e = Cancelled \/ e <> Cancelled) as [->|He] by (destruct e; auto); [by left|right].
    destruct (should_recover f e); destruct e; naive_solver. }
  { by destruct Hr as (-> & -> & _). }
  clear Hr. destruct (should_recover f e); [|by destruct Hr' as [-> ->]].
  destruct Hr' as [(f1 & second & s2 & t3 & Hrec & Hsecond & -> & ->)|(e' & Hrec & ->)].
  - pose proof (reconnect_kept _ _ (proj1 Hk1) Hrec) as Hk2.
    apply last_read_kept; [by eapply recovering_kept_trans|apply Hk2|exact (Hreads _ _ _ Hsecond)].
  - split; [by eapply failed_kept|done].
Qed.

(** ** The laws of a source *)

Lemma recovering_wanted offset length f : inv f -> 0 <= offset < source_len f -> 0 < length ->
  wanted offset length = Z.min length (source_len f - offset).
Proof. intros [_ _ Hl _ _]. cbn. rewrite Hl. lia. Qed.

Lemma stream_reconnect_runs {S A} (m : est ReconnectError S A) s Q :
  eruns m s (fun r s' => Q (omap_err StreamReconnect r) s') -> eruns (stream_reconnect m) s Q.
Proof. unfold eruns, stream_reconnect. by destruct (m s) as [[] ?]. Qed.

Lemma recovering_laws : SourceLaws recovering inv served False.
Proof.
  split.
  - intros f [_ _ Hl Hu _]. cbn. by rewrite Hl.
  - intros patience offset length options f Hf [Hc Hm] Hp Ho Hl.
    apply (eruns_at _ (stream_reconnect
      (recovering_read_at_pipelined_with_options patience offset length options))); [done|].
    apply stream_reconnect_runs. rewrite <- recovering_wanted by done.
    eapply eruns_mono; [apply recovering_pipelined_runs; [apply Hf|lia..]|].
    intros r f' [_ Hr]. apply (replayed_kept (pipelined_from offset length options)); [done| |done].
    intros s h x s' (y & (es & Ha & Hy) & Hxy). exists es. split; [done|].
    destruct x, y; try done. subst. destruct Hy as (ended & Hd & Hle & _). by exists ended.
Qed.

Lemma recovering_cancelable_laws : CancelableLaws recovering inv served False.
Proof.
  split. intros patience offset length options generation f tok Hf [Hc Hm] Ht Ho Hl.
  apply (eruns_at _ (stream_reconnect
    (recovering_read_at_pipelined_cancelable_with_options patience offset length options generation))); [done|].
  apply stream_reconnect_runs. rewrite <- recovering_wanted by done.
  eapply eruns_mono; [apply recovering_cancelable_runs; [apply Hf|done|lia..]|].
  intros r [f' tok'] (_ & Htok & Hr). apply recovered_kept in Hr as [Hk Hr]; [|done]. by split_and!.
Qed.

Lemma recovering_close_returns f : inv f -> close_file_of f <> Panic.
Proof.
  intros Hf. unfold close_file_of, recovering_close_source, recovering_close.
  pose proof (close_file_runs (session f) (file f) CloseOptions.default
    (recovering_session _ (recovering_inv_wf _ _ _ Hf))) as Hr.
  unfold runs in Hr. destruct (close_file _ _ _) as [[] ?]; cbn; [discriminate..|done|discriminate].
Qed.
End recovering_source_laws.

(** What a player over a file that reconnects shows. *)
Section recovering_player.
Context {T W : Type} `{TransportSafe T} `{CryptoLaws} `{NtlmEnvironmentLaws} `{HostLaws T W}.
Context (f0 : RecoveringReadOnlyFile T W) (n : Z) (Hf0 : session_wf (session f0)).
#[local] Abbreviation wf := (player_wf (recovering_inv f0 n) (recovering_served f0)).

Lemma read_recovering_runs patience offset length_ cancellation (p : Player.t (RecoveringReadOnlyFile T W)) :
  wf p -> Z.of_nat patience < usize_max -> u64 offset -> 0 <= length_ <= usize_max ->
  cancellation_ok cancellation (Player.token p) ->
  eruns (read_recovering_impl patience offset length_ cancellation) p (fun r p' => wf p' /\
    read_ok (recovering_served f0) False (Player.source p') n offset length_ r).
Proof.
  pose proof (recovering_laws f0 n Hf0). pose proof (recovering_cancelable_laws f0 n Hf0).
  intros Hp Hpatience Ho Hl Hc. pose proof (player_source _ _ _ Hp) as Hsource.
  assert (source_len (Player.source p) = n) as Hn by apply Hsource.
  destruct cancellation as [generation|]; cbn [read_recovering_impl].
  - pose proof (perform_runs (recovering_inv f0 n) (recovering_served f0) False p
      (WatchCancelable patience offset length_ generation) Hp (conj Hc (conj Ho Hl))) as Hr.
    eapply eruns_mono; [exact Hr|]. intros r p' (Hp' & _ & Hok). rewrite Hn in Hok. by split.
  - pose proof (perform_runs (recovering_inv f0 n) (recovering_served f0) False p
      (Watch patience offset length_) Hp (conj Hpatience (conj Ho Hl))) as Hr.
    eapply eruns_mono; [exact Hr|]. intros r p' (Hp' & _ & Hok). rewrite Hn in Hok. by split.
Qed.
End recovering_player.

(** A file that was just connected is the start of its history. *)
Lemma connected_inv {T W} `{TransportSafe T} `{CryptoLaws} `{NtlmEnvironmentLaws} `{HostLaws T W}
    recipe0 (f : RecoveringReadOnlyFile T W) : recovering_wf f ->
  kept recipe0 (recipe f) -> validated recipe0 (recipe f) (file f) (session f) ->
  recovering_inv f (FileHandle.length_ (file f)) f.
Proof.
  intros Hf Hk (s & id & [Hu (samples & _ & ->)] & Hv). split; try done.
  - destruct (Recipe.identity recipe0) as [o|] eqn:Ho.
    + exists o. split; [by apply Hk|]. by apply andb_true_iff in Hv as [[Hlen%Z.eqb_eq _]%andb_true_iff _].
    + by eexists.
  - eexists. apply history_start.
Qed.

(** ** Properties *)

(** C6: a broker that survives lost connections never shows another file.
    Whatever the servers do, also when connections break and are made again at
    any read, and whatever the handles do and when: if the first connection
    succeeds, the file was seen to be the one the recipe knew, or is the one it
    now remembers. From then on the broker does not panic, and every byte that a
    read returns was given for that very position by an accepted answer to a READ
    of that file, sent in one of the sessions of its history; in each session
    after the first the reopened file was first seen to be compatible with the
    one the recipe knows. A read returns no more than was asked and none beyond
    the end of the file. *)
Theorem recovering_broker_sound {T W} `{TransportSafe T} `{CryptoLaws} `{NtlmEnvironmentLaws}
    `{HostLaws T W} (recipe0 : Recipe.t) (w : W) (policy : ReadReconnectPolicy.t)
    (config : VideoBrokerConfig.t) (tokens : list nat * list nat) (clock : list Z)
    (script : list (list Happening)) (turns connect_patience patience : nat)
    (Hrecipe : recipe_wf recipe0) (Hcapacity : VideoBrokerConfig.queue_capacity config <> 0)
    (Hconfig : config_wf (VideoBrokerConfig.reader config))
    (Hplayback : schedule_ok (fst tokens)) (Hspeculative : schedule_ok (snd tokens))
    (Hclock : Forall (fun t => 0 <= t) clock) (Hscript : Forall happening_wf (concat script))
    (Hturns : turns_enough script turns) :
  eruns (recovering_video_broker_with_policy connect_patience policy config tokens clock script) (recipe0, w)
    (fun made p' => kept recipe0 (fst p') /\
     match made with
     | Ok runner => exists f0, VideoBrokerRunner.source runner = Some f0 /\
         validated recipe0 (recipe f0) (file f0) (session f0) /\
         eruns (run turns patience) runner (fun _ self' => exists last,
           (forall f, VideoBrokerRunner.source self' = Some f -> f = last) /\
           forall g p offset length_ id data,
             (InteractiveCommand.Read g p offset length_ id, ReadReply (inr data))
               ∈ VideoBrokerRunner.replies self' ->
             len data <= Z.max 0 (Z.min length_ (FileHandle.length_ (file f0) - offset)) /\
             forall i b, data !! i = Some b ->
               exists past, history f0 past last /\ history_byte past (offset + Z.of_nat i) b)
     | _ => True
     end).
Proof.
  destruct (new_yields _ Hconfig) as (reader & Hnew & Hreader).
  pose proof (connected_runs connect_patience policy (recipe0, w) Hrecipe) as Hc.
  unfold eruns at 1, recovering_video_broker_with_policy, validate_queue_capacity, ebind, elift, eret.
  rewrite (proj2 (Z.eqb_neq _ _) Hcapacity), Hnew. cbn [omap_err].
  destruct (connect_with_policy _ _ _) as [[f0|e| |] p']; cbn [omap_err]; [|by split|done..].
  destruct Hc as (Hf0 & -> & Hkept & Hv). cbn [fst] in *. split; [done|]. exists f0. split; [done|]. split; [done|].
  pose proof (connected_inv recipe0 f0 Hf0 Hkept Hv) as Hinv. pose proof (recovering_session _ Hf0) as Hs.
  pose proof (recovering_laws f0 (FileHandle.length_ (file f0)) Hs) as Hlaws.
  pose proof (recovering_cancelable_laws f0 (FileHandle.length_ (file f0)) Hs) as Hcancelable.
  eapply eruns_mono.
  { apply (new_broker_runs (recovering_inv f0 (FileHandle.length_ (file f0))) (recovering_served f0) False
      (FileHandle.length_ (file f0))); try done.
    - by intros f [].
    - intros f Hf. by eapply recovering_close_returns. }
  intros r self' (last & Hok & _). exists last. split; [apply Hok|].
  intros g p offset length_ id data Hin.
  pose proof (runner_replies _ _ _ _ _ _ Hok) as Hall. rewrite Forall_forall in Hall.
  specialize (Hall _ Hin). cbn in Hall. by destruct Hall as (Hg & Hl & _).
Qed.

#[local] Existing Instance toy_environment.
#[local] Existing Instance toy_environment_laws.
#[local] Existing Instance toy_crypto.
#[local] Existing Instance toy_laws.
#[local] Existing Instance toy_host.
#[local] Existing Instance toy_host_laws.

(** The first server hangs up before the read of a player, which is answered by the
    second one. *)
Definition two_bytes_script : list (list Happening) := [[Arrive (InteractiveCommand.Read 0 0 1 2 1)]].
Definition two_bytes_reply (self : VideoBrokerRunner.t (RecoveringReadOnlyFile TcpTransport.t (list (list bytes)))) :
    bool :=
  match VideoBrokerRunner.replies self with
  | [(InteractiveCommand.Read _ _ offset length_ _, ReadReply (inr data))] =>
      (offset =? 1) && (length_ =? 2) && bool_decide (data = [x02; x03])
  | _ => false
  end.

Definition at_place (connected : bool) (self : VideoBrokerRunner.t (RecoveringReadOnlyFile TcpTransport.t (list (list bytes)))) :
    bool :=
  match VideoBrokerRunner.source self with
  | Some f => Bool.eqb (is_empty (world f)) connected
  | None => false
  end.

Lemma recovering_broker_sound_witness :
  exists (f0 last : RecoveringReadOnlyFile TcpTransport.t (list (list bytes))) past,
    world f0 <> [] /\ world last = [] /\ history f0 past last /\ history_byte past 2 x03.
Proof.
  destruct (eruns_ended _ _ _
    (fun runner _ => at_place false runner &&
       eended (fun _ self => two_bytes_reply self && at_place true self) (run 9 4 runner))
    (recovering_broker_sound (fst two_servers) (snd two_servers)
      ReadReconnectPolicy.default sample_broker_config ([], []) [] two_bytes_script 9 4 4
      ltac:(split; [by intros ? [=]|by intros ? [=]]) ltac:(done)
      ltac:(unfold config_wf, options_wf; vm_compute; intuition discriminate) ltac:(done) ltac:(done)
      ltac:(constructor) ltac:(repeat constructor; vm_compute; discriminate) ltac:(vm_compute; lia)))
    as (runner & p' & (_ & f0 & Hsource & _ & Hrun) & [Hw Ht]%andb_true_iff); [vm_compute; reflexivity|].
  destruct (eruns_ended _ _ _ _ Hrun Ht) as (a & self' & (last & Hlast & Hall) & [Hreply Hw']%andb_true_iff).
  unfold at_place in Hw, Hw'. rewrite Hsource in Hw.
  destruct (VideoBrokerRunner.source self') as [f|]; [|discriminate Hw']. rewrite (Hlast f eq_refl) in Hw'.
  unfold two_bytes_reply in Hreply.
  destruct (VideoBrokerRunner.replies self') as [|[[g p o n id|] [[|data]| |]] [|]]; try discriminate Hreply.
  apply andb_true_iff in Hreply as [[->%Z.eqb_eq ->%Z.eqb_eq]%andb_true_iff ->%bool_decide_eq_true].
  destruct (Hall g p 1 2 id [x02; x03]) as [_ Hb]; [by left|].
  destruct (Hb 1%nat x03 eq_refl) as (past & Hh & Hbyte).
  exists f0, last, past. split; [by destruct (world f0)|]. split; [by destruct (world last)|]. by split.
Defined.
