(* ===== verification/FsQuery.v ===== *)
(** * Filesystem queries

    [crates/smb-fs/src/query.rs]: the decoders of the query payloads, each
    compared with the layout it accepts, and the operations that fetch them. The
    pages of a directory are asked for until an empty one arrives; the model
    follows as many as [patience] allows. *)
From S2P Require Import Prelude WireError Utf16 Frame Header Create ReadWrite SessionMessages Query.
From S2P Require Import Client Effects Credits MessageIds AsyncResponse Transport Signing Connection.
From S2P Require Import Auth Session Exchange Tree Files Write QueryOps.

Definition FILE_STANDARD_INFORMATION_CLASS : Z := 0x05.
Definition FILE_ID_FULL_DIRECTORY_INFORMATION_CLASS : Z := 0x26.
Definition STANDARD_INFORMATION_SIZE : Z := 24.
Definition FILE_NAMES_INFORMATION_FIXED_SIZE : Z := 12.
Definition FILE_ID_FULL_DIRECTORY_INFORMATION_FIXED_SIZE : Z := 80.
Definition FILE_ID_FULL_DIRECTORY_INFORMATION_NAME_LENGTH_OFFSET : Z := 60.
Definition DEFAULT_QUERY_BUFFER_SIZE : Z := 65535.

Inductive FsQueryError : Type :=
  | QueryClient (error : ClientError)
  | InvalidData (field : string)
  | InvalidUtf16.

Abbreviation fs := (outcome FsQueryError).

(** [i64::from_le_bytes] of the eight bytes read as a [u64]. *)
Definition as_i64 (v : Z) : Z := if v <? 2 ^ 63 then v else v - 2 ^ 64.
Definition i64_max : Z := 9223372036854775807.

Definition get_i64 (buffer : bytes) (o : Z) : fs Z :=
  let! v := get_le 8 buffer o in Ok (as_i64 v).

(** ** File system sizes *)

Module FileFsFullSizeInformation.
Record t : Type := mk {
  total_units : Z; caller_available_units : Z; sectors_per_unit : Z; bytes_per_sector : Z
}.

Definition decode (buffer : bytes) : fs t :=
  if negb (len buffer =? 32)
  then Err (InvalidData "FileFsFullSizeInformation must be 32 bytes") else
  let! total := get_i64 buffer 0 in
  let! caller := get_i64 buffer 8 in
  let! actual := get_i64 buffer 16 in
  let! sectors := get_le 4 buffer 24 in
  let! bytes_ := get_le 4 buffer 28 in
  if (total <? 0) || (caller <? 0) || (actual <? 0) || (sectors =? 0) || (bytes_ =? 0)
  then Err (InvalidData "invalid FileFsFullSizeInformation units") else
  Ok (mk total caller sectors bytes_).

(** [u128] arithmetic that panics beyond its range. *)
Definition mul_u128 (a b : Z) : fs Z := if a * b <=? u128_max then Ok (a * b) else Panic.

Definition to_java (bytes_per_unit units : Z) : fs Z :=
  let! capacity := mul_u128 units bytes_per_unit in Ok (Z.min capacity i64_max).

Definition capacity_bytes (self : t) : fs (Z * Z) :=
  let! bytes_per_unit := mul_u128 (sectors_per_unit self) (bytes_per_sector self) in
  let! total := to_java bytes_per_unit (total_units self) in
  let! caller := to_java bytes_per_unit (caller_available_units self) in
  Ok (total, caller).
End FileFsFullSizeInformation.

(** ** File sizes *)

Module FileStandardInformation.
Record t : Type := mk {
  allocation_size : Z; end_of_file : Z; number_of_links : Z; delete_pending : bool; directory : bool
}.

Definition decode (buffer : bytes) : fs t :=
  if len buffer <? STANDARD_INFORMATION_SIZE
  then Err (InvalidData "FileStandardInformation is shorter than 24 bytes") else
  let! allocation_size := get_i64 buffer 0 in
  let! end_of_file := get_i64 buffer 8 in
  if allocation_size <? 0
  then Err (InvalidData "FileStandardInformation AllocationSize is negative") else
  if end_of_file <? 0
  then Err (InvalidData "FileStandardInformation EndOfFile is negative") else
  let! number_of_links := get_le 4 buffer 16 in
  let! delete_pending := get_le 1 buffer 20 in
  let! directory := get_le 1 buffer 21 in
  Ok (mk allocation_size end_of_file number_of_links (negb (delete_pending =? 0))
         (negb (directory =? 0))).
End FileStandardInformation.

(** ** Directory pages *)

Module DirectoryNameEntry.
Record t : Type := mk { file_index : Z; name : rust_string }.
End DirectoryNameEntry.

Module DirectoryMetadataEntry.
Record t : Type := mk {
  file_index : Z; name : rust_string; creation_time : Z; last_write_time : Z;
  end_of_file : Z; allocation_size : Z; file_attributes : Z
}.
#[global] Instance eq_dec : EqDecision t.
Proof. solve_decision. Defined.
End DirectoryMetadataEntry.

(** The name behind the fixed part of an entry: its end, and the name. *)
Definition entry_name (class_ : string) (remaining : bytes) (fixed file_name_length : Z) :
    fs (Z * rust_string) :=
  if negb (file_name_length mod 2 =? 0)
  then Err (InvalidData (class_ ++ " FileNameLength is not UTF-16 aligned")) else
  let! name_end := ok_or (checked_add usize_max fixed file_name_length)
                         (InvalidData (class_ ++ " FileNameLength overflow")) in
  if len remaining <? name_end
  then Err (InvalidData (class_ ++ " file name exceeds response buffer")) else
  let! name_bytes := slice remaining fixed name_end in
  let! name := ok_or (from_utf16 (utf16_units name_bytes)) InvalidUtf16 in
  Ok (name_end, name).

(** One turn of each loop up to the push: the entry, its NextEntryOffset and
    where its name ends. *)
Definition names_entry (remaining : bytes) : fs (DirectoryNameEntry.t * Z * Z) :=
  if len remaining <? FILE_NAMES_INFORMATION_FIXED_SIZE
  then Err (InvalidData "FileNamesInformation entry is shorter than 12 bytes") else
  let! next_entry_offset := get_le 4 remaining 0 in
  let! file_index := get_le 4 remaining 4 in
  let! file_name_length := get_le 4 remaining 8 in
  let! '(name_end, name) := entry_name "FileNamesInformation" remaining
                              FILE_NAMES_INFORMATION_FIXED_SIZE file_name_length in
  Ok (DirectoryNameEntry.mk file_index name, next_entry_offset, name_end).

Definition metadata_entry (remaining : bytes) : fs (DirectoryMetadataEntry.t * Z * Z) :=
  if len remaining <? FILE_ID_FULL_DIRECTORY_INFORMATION_FIXED_SIZE
  then Err (InvalidData "FileIdFullDirectoryInformation entry is shorter than 80 bytes") else
  let! next_entry_offset := get_le 4 remaining 0 in
  let! file_index := get_le 4 remaining 4 in
  let! creation_time := get_le 8 remaining 8 in
  let! last_write_time := get_le 8 remaining 24 in
  let! end_of_file := get_i64 remaining 40 in
  let! allocation_size := get_i64 remaining 48 in
  if (end_of_file <? 0) || (allocation_size <? 0)
  then Err (InvalidData "FileIdFullDirectoryInformation has negative file size or allocation") else
  let! file_attributes := get_le 4 remaining 56 in
  let! file_name_length :=
    get_le 4 remaining FILE_ID_FULL_DIRECTORY_INFORMATION_NAME_LENGTH_OFFSET in
  let! '(name_end, name) := entry_name "FileIdFullDirectoryInformation" remaining
                              FILE_ID_FULL_DIRECTORY_INFORMATION_FIXED_SIZE file_name_length in
  Ok (DirectoryMetadataEntry.mk file_index name creation_time last_write_time end_of_file
        allocation_size file_attributes, next_entry_offset, name_end).

(** The loop that the two decoders share, with at most one turn per byte. *)
Fixpoint entries_loop {A} (fuel : nat) (class_ : string) (entry : bytes -> fs (A * Z * Z))
    (buffer : bytes) (offset : Z) (entries : list A) : fs (list A) :=
  if negb (offset <? len buffer) then Ok entries else
  match fuel with
  | O => Panic
  | S fuel =>
      let! remaining := slice_from buffer offset in
      let! '(e, next_entry_offset, name_end) := entry remaining in
      let entries := entries ++ [e] in
      if next_entry_offset =? 0 then Ok entries else
      if (next_entry_offset <? name_end) || (len remaining <? next_entry_offset)
         || negb (next_entry_offset mod 8 =? 0)
      then Err (InvalidData (class_ ++ " NextEntryOffset is invalid")) else
      let! offset := ok_or (checked_add usize_max offset next_entry_offset)
                           (InvalidData (class_ ++ " NextEntryOffset overflow")) in
      entries_loop fuel class_ entry buffer offset entries
  end.

Definition decode_file_names_information (buffer : bytes) : fs (list DirectoryNameEntry.t) :=
  entries_loop (length buffer) "FileNamesInformation" names_entry buffer 0 [].

Definition decode_file_id_full_directory_metadata (buffer : bytes) :
    fs (list DirectoryMetadataEntry.t) :=
  entries_loop (length buffer) "FileIdFullDirectoryInformation" metadata_entry buffer 0 [].

Definition name_of (e : DirectoryMetadataEntry.t) : DirectoryNameEntry.t :=
  DirectoryNameEntry.mk (DirectoryMetadataEntry.file_index e) (DirectoryMetadataEntry.name e).

Definition decode_file_id_full_directory_information (buffer : bytes) :
    fs (list DirectoryNameEntry.t) :=
  let! entries := decode_file_id_full_directory_metadata buffer in Ok (name_of <$> entries).

(** ** Fetching *)

Section fs_query.
Context {T : Type} `{Transport T} `{Crypto}.
#[local] Abbreviation session := (SessionConnection.t T).
#[local] Abbreviation fsm := (est FsQueryError session).

(** [session.op(..).await?]. *)
Definition query {A} (m : st session A) : fsm A := client_on QueryClient id (fun _ s => s) m.

Definition query_standard_information (file : FileHandle.t) : fsm FileStandardInformation.t :=
  rec! buffer := query (query_info file
    (QueryInfoOptions.file FILE_STANDARD_INFORMATION_CLASS STANDARD_INFORMATION_SIZE)) in
  elift (FileStandardInformation.decode buffer).

(** The loop over the pages. *)
Fixpoint read_pages (patience : nat) (directory : FileHandle.t) (pattern : rust_string)
    (entries : list DirectoryMetadataEntry.t) : fsm (list DirectoryMetadataEntry.t) :=
  match patience with
  | O => fun s => (OutOfFuel, s)
  | S patience =>
      let options := QueryDirectoryOptions.new FILE_ID_FULL_DIRECTORY_INFORMATION_CLASS pattern
                       DEFAULT_QUERY_BUFFER_SIZE in
      rec! buffer := query (query_directory directory options) in
      if is_empty buffer then eret entries else
      rec! page := elift (decode_file_id_full_directory_metadata buffer) in
      read_pages patience directory pattern (entries ++ page)
  end.

Definition read_directory_metadata_matching (patience : nat) (directory : FileHandle.t)
    (pattern : rust_string) : fsm (list DirectoryMetadataEntry.t) :=
  if is_empty pattern
  then efail (InvalidData "directory search pattern must not be empty")
  else read_pages patience directory pattern [].

(** ["*"]. *)
Definition any_name : rust_string := [42].

Definition read_directory_metadata (patience : nat) (directory : FileHandle.t) :
    fsm (list DirectoryMetadataEntry.t) :=
  read_directory_metadata_matching patience directory any_name.

Definition read_directory_names_matching (patience : nat) (directory : FileHandle.t)
    (pattern : rust_string) : fsm (list DirectoryNameEntry.t) :=
  rec! entries := read_directory_metadata_matching patience directory pattern in
  eret (name_of <$> entries).

Definition read_directory_names (patience : nat) (directory : FileHandle.t) :
    fsm (list DirectoryNameEntry.t) :=
  read_directory_names_matching patience directory any_name.

End fs_query.

(** ** Names and signed fields *)

Lemma as_i64_nonneg v : uint 64 v -> 0 <= as_i64 v -> as_i64 v = v /\ v < 2 ^ 63.
Proof.
  unfold uint, as_i64. intros Hv Hn. destruct (Z.ltb_spec v (2 ^ 63)); [done|].
  change (2 ^ 64) with 18446744073709551616 in *. lia.
Qed.

Lemma as_i64_small v : 0 <= v < 2 ^ 63 -> as_i64 v = v.
Proof. intros. unfold as_i64. by rewrite (proj2 (Z.ltb_lt _ _)) by lia. Qed.

Lemma entry_name_ok class_ remaining fixed n name_end name : 0 <= fixed -> 0 <= n ->
  len remaining <= usize_max ->
  entry_name class_ remaining fixed n = Ok (name_end, name) <->
  n = len (utf16_bytes name) /\ valid_string name /\ name_end = fixed + n /\
  name_end <= len remaining /\ sub remaining fixed n = utf16_bytes name.
Proof.
  intros Hf Hn Hr. unfold entry_name. split.
  - intros Hd. accept Hd. bool_facts. apply Ok_inj in Hd as [= <- <-].
    pose proof (len_sub remaining fixed n ltac:(lia) ltac:(lia) ltac:(lia)) as Hl.
    apply utf16_decoded in Hopt as [Hu Hv]; [|rewrite Hl; by apply Z.mod_divide].
    by rewrite Hu, Hl.
  - intros (-> & Hv & -> & Hend & Hsub). rewrite len_utf16_bytes at 1.
    rewrite Z.mul_comm, Z.mod_mul by done. cbn [Z.eqb negb].
    rewrite (proj2 (checked_add_some _ _ _ (fixed + len (utf16_bytes name)))) by (split; [done|lia]).
    cbn [ok_or obind]. rewrite (proj2 (Z.ltb_ge _ _)) by done.
    rewrite (slice_sub _ _ _ (len (utf16_bytes name))) by lia. cbn [obind].
    by rewrite Hsub, utf16_decodes.
Qed.

Lemma returns_entry_name class_ remaining fixed n : 0 <= fixed -> 0 <= n ->
  returns (entry_name class_ remaining fixed n).
Proof. intros. unfold entry_name. repeat returns_step. Qed.

(** ** The layout of the entries *)

(** An entry as a server writes it; what the decoders do not read is free. *)
Definition name_entry_bytes (next : Z) (e : DirectoryNameEntry.t) : bytes :=
  le_bytes 4 next ++ le_bytes 4 (DirectoryNameEntry.file_index e)
  ++ le_bytes 4 (len (utf16_bytes (DirectoryNameEntry.name e)))
  ++ utf16_bytes (DirectoryNameEntry.name e).

Definition metadata_entry_bytes (next : Z) (accessed changed others : bytes)
    (e : DirectoryMetadataEntry.t) : bytes :=
  le_bytes 4 next ++ le_bytes 4 (DirectoryMetadataEntry.file_index e)
  ++ le_bytes 8 (DirectoryMetadataEntry.creation_time e) ++ accessed
  ++ le_bytes 8 (DirectoryMetadataEntry.last_write_time e) ++ changed
  ++ le_bytes 8 (DirectoryMetadataEntry.end_of_file e)
  ++ le_bytes 8 (DirectoryMetadataEntry.allocation_size e)
  ++ le_bytes 4 (DirectoryMetadataEntry.file_attributes e)
  ++ le_bytes 4 (len (utf16_bytes (DirectoryMetadataEntry.name e))) ++ others
  ++ utf16_bytes (DirectoryMetadataEntry.name e).

(** A block that holds an entry, perhaps with padding behind it. *)
Definition name_block (block : bytes) (next : Z) (e : DirectoryNameEntry.t) : Prop :=
  u32 next /\ u32 (DirectoryNameEntry.file_index e) /\
  valid_string (DirectoryNameEntry.name e) /\
  u32 (len (utf16_bytes (DirectoryNameEntry.name e))) /\
  exists padding, block = name_entry_bytes next e ++ padding.

Definition metadata_block (block : bytes) (next : Z) (e : DirectoryMetadataEntry.t) : Prop :=
  u32 next /\ u32 (DirectoryMetadataEntry.file_index e) /\
  u64 (DirectoryMetadataEntry.creation_time e) /\ u64 (DirectoryMetadataEntry.last_write_time e) /\
  uint 63 (DirectoryMetadataEntry.end_of_file e) /\
  uint 63 (DirectoryMetadataEntry.allocation_size e) /\
  u32 (DirectoryMetadataEntry.file_attributes e) /\
  valid_string (DirectoryMetadataEntry.name e) /\
  u32 (len (utf16_bytes (DirectoryMetadataEntry.name e))) /\
  exists accessed changed others padding,
    len accessed = 8 /\ len changed = 8 /\ len others = 16 /\
    block = metadata_entry_bytes next accessed changed others e ++ padding.

(** A page: blocks whose NextEntryOffset is their length, a multiple of eight,
    up to the end or to a block without one, behind which nothing counts. *)
Inductive page {A} (block : bytes -> Z -> A -> Prop) : bytes -> list A -> Prop :=
  | page_end : page block [] []
  | page_last b e : block b 0 e -> page block b [e]
  | page_next b rest e es : block b (len b) e -> len b mod 8 = 0 -> b <> [] ->
      page block rest es -> page block (b ++ rest) (e :: es).

Definition name_size (e : DirectoryNameEntry.t) : Z := 12 + len (utf16_bytes (DirectoryNameEntry.name e)).
Definition metadata_size (e : DirectoryMetadataEntry.t) : Z :=
  80 + len (utf16_bytes (DirectoryMetadataEntry.name e)).

Lemma returns_names_entry remaining : returns (names_entry remaining).
Proof.
  unfold names_entry, FILE_NAMES_INFORMATION_FIXED_SIZE. repeat returns_step.
  read_facts. bool_facts. apply returns_bind; [apply returns_entry_name; lia|by intros [? ?] _].
Qed.

Lemma returns_metadata_entry remaining : returns (metadata_entry remaining).
Proof.
  unfold metadata_entry, get_i64, FILE_ID_FULL_DIRECTORY_INFORMATION_FIXED_SIZE,
    FILE_ID_FULL_DIRECTORY_INFORMATION_NAME_LENGTH_OFFSET. repeat returns_step.
  read_facts. bool_facts. apply returns_bind; [apply returns_entry_name; lia|by intros [? ?] _].
Qed.

Lemma names_entry_iff remaining e next name_end : len remaining <= usize_max ->
  names_entry remaining = Ok (e, next, name_end) <->
  name_block remaining next e /\ name_end = name_size e.
Proof.
  intros Hmax. unfold names_entry, name_block, name_size, name_entry_bytes,
    FILE_NAMES_INFORMATION_FIXED_SIZE. split.
  - intros Hd. accept Hd. read_facts. bool_facts. apply obind_ok in Hd as ([ne name] & Hn & Hd).
    apply Ok_inj in Hd as [= <- <- <-]. apply entry_name_ok in Hn as (Hl & Hv & -> & He & Hs); try lia.
    cbn. rewrite <- Hl. split; [|done]. unfold u32, uint. split_and!; try lia; [done|].
    exists (drop (Z.to_nat (12 + le_at 4 remaining 8)) remaining).
    rewrite <- Hs, !le_bytes_le_at by lia. rewrite <- !app_assoc. rejoin. apply drop_0_Z.
  - intros ((Hnx & Hi & Hv & Hl & padding & ->) & ->).
    destruct e as [ix nm]. cbn in *. rewrite <- !app_assoc in *.
    pose proof (len_nonneg (utf16_bytes nm)).
    rewrite (proj2 (Z.ltb_ge _ _)) by len_lia. follow.
    rewrite (proj2 (entry_name_ok _ _ 12 (len (utf16_bytes nm)) (12 + len (utf16_bytes nm)) nm
      ltac:(lia) ltac:(lia) Hmax)); [done|].
    split_and!; [done..|len_lia|by sub_at].
Qed.

Lemma metadata_entry_iff remaining e next name_end : len remaining <= usize_max ->
  metadata_entry remaining = Ok (e, next, name_end) <->
  metadata_block remaining next e /\ name_end = metadata_size e.
Proof.
  intros Hmax. unfold metadata_entry, metadata_block, metadata_size, metadata_entry_bytes, get_i64,
    FILE_ID_FULL_DIRECTORY_INFORMATION_FIXED_SIZE,
    FILE_ID_FULL_DIRECTORY_INFORMATION_NAME_LENGTH_OFFSET. split.
  - intros Hd. accept Hd. read_facts. bool_facts. apply obind_ok in Hd as ([ne name] & Hn & Hd).
    apply Ok_inj in Hd as [= <- <- <-]. apply entry_name_ok in Hn as (Hl & Hv & -> & He & Hs); try lia.
    destruct (as_i64_nonneg (le_at 8 remaining 40)) as [He1 ?]; [done..|].
    destruct (as_i64_nonneg (le_at 8 remaining 48)) as [He2 ?]; [done..|].
    cbn. rewrite <- Hl, He1, He2. split; [|done]. unfold u32, u64, uint.
    split_and!; try lia; try done.
    exists (sub remaining 16 8), (sub remaining 32 8), (sub remaining 64 16),
      (drop (Z.to_nat (80 + le_at 4 remaining 60)) remaining).
    rewrite !len_sub by lia. do 3 (split; [done|]).
    rewrite <- Hs, !le_bytes_le_at by lia. rewrite <- !app_assoc. rejoin. apply drop_0_Z.
  - intros ((Hnx & Hi & Hc & Hw & He & Ha & Hat & Hv & Hl & accessed & changed & others & padding &
      Hla & Hlc & Hlo & ->) & ->).
    destruct e as [ix nm ct wt eof al at_]. cbn in *. rewrite <- !app_assoc in *.
    pose proof (len_nonneg (utf16_bytes nm)). unfold uint in *.
    rewrite (proj2 (Z.ltb_ge _ _)) by len_lia. follow.
    all: rewrite ?as_i64_small in * by lia; try lia.
    rewrite (proj2 (entry_name_ok _ _ 80 (len (utf16_bytes nm)) (80 + len (utf16_bytes nm)) nm
      ltac:(lia) ltac:(lia) Hmax)); [done|].
    split_and!; [done..|len_lia|by sub_at].
Qed.

(** ** The loop over a page *)

(** What the two kinds of entries have in common. *)
Class EntryFormat {A} (entry : bytes -> fs (A * Z * Z)) (block : bytes -> Z -> A -> Prop)
    (size : A -> Z) : Prop := {
  format_returns remaining : returns (entry remaining);
  format_iff remaining e next name_end : len remaining <= usize_max ->
    entry remaining = Ok (e, next, name_end) <-> block remaining next e /\ name_end = size e;
  format_cut b rest next e : block (b ++ rest) next e -> size e <= len b -> block b next e;
  format_extend b rest next e : block b next e -> block (b ++ rest) next e;
  format_size b next e : block b next e -> 8 <= size e <= len b /\ 0 <= next
}.

(** A prefix that holds all of what [l ++ tail = b ++ rest] starts with. *)
Lemma prefix_cut {A} (l tail b rest : list A) : b ++ rest = l ++ tail -> len l <= len b ->
  exists tail', b = l ++ tail'.
Proof.
  intros H Hl. exists (drop (length l) b).
  rewrite <- (take_drop (length l) b) at 1. f_equal.
  apply (f_equal (take (length l))) in H. rewrite take_app_length in H.
  rewrite take_app_le in H by (unfold len in Hl; lia). done.
Qed.

#[global] Instance names_format : EntryFormat names_entry name_block name_size.
Proof.
  split.
  - apply returns_names_entry.
  - apply names_entry_iff.
  - intros b rest next e (? & ? & ? & ? & padding & Hb) Hs. split_and!; [done..|].
    eapply prefix_cut; [exact Hb|]. revert Hs. unfold name_size, name_entry_bytes. len_lia.
  - intros b rest next e (? & ? & ? & ? & padding & ->). split_and!; [done..|].
    exists (padding ++ rest). by rewrite app_assoc.
  - intros b next e ([? ?] & ? & ? & [? ?] & padding & ->). unfold name_size, name_entry_bytes. len_lia.
Qed.

#[global] Instance metadata_format : EntryFormat metadata_entry metadata_block metadata_size.
Proof.
  split.
  - apply returns_metadata_entry.
  - apply metadata_entry_iff.
  - intros b rest next e (? & ? & ? & ? & ? & ? & ? & ? & ? & accessed & changed & others & padding &
      ? & ? & ? & Hb) Hs. split_and!; [done..|]. exists accessed, changed, others.
    assert (exists tail', b = metadata_entry_bytes next accessed changed others e ++ tail') as [tail' ->].
    { eapply prefix_cut; [exact Hb|]. revert Hs. unfold metadata_size, metadata_entry_bytes. len_lia. }
    by exists tail'.
  - intros b rest next e (? & ? & ? & ? & ? & ? & ? & ? & ? & accessed & changed & others & padding &
      ? & ? & ? & ->). split_and!; [done..|]. exists accessed, changed, others, (padding ++ rest).
    by rewrite app_assoc.
  - intros b next e ([? ?] & ? & ? & ? & ? & ? & ? & ? & [? ?] & accessed & changed & others & padding &
      ? & ? & ? & ->). unfold metadata_size, metadata_entry_bytes. len_lia.
Qed.

Section entries.
Context {A} {entry : bytes -> fs (A * Z * Z)} {block : bytes -> Z -> A -> Prop} {size : A -> Z}
  `{!EntryFormat entry block size} (class_ : string).

Lemma entries_loop_returns fuel : forall buffer offset entries, 0 <= offset ->
  len buffer - offset <= Z.of_nat fuel -> len buffer <= usize_max ->
  returns (entries_loop fuel class_ entry buffer offset entries).
Proof.
  induction fuel as [|fuel IH]; intros buffer offset entries Ho Hf Hm; cbn [entries_loop].
  { by rewrite (proj2 (Z.ltb_ge _ _)) by lia. }
  destruct (Z.ltb_spec offset (len buffer)); [|done]. cbn [negb].
  rewrite slice_from_ok by lia. cbn [obind]. set (r := drop _ buffer).
  assert (len r = len buffer - offset) as Hr by (subst r; len_lia).
  apply returns_bind; [apply format_returns|]. intros [[e next] name_end] He.
  apply format_iff in He as [Hb ->]; [|lia]. apply format_size in Hb as [? ?].
  destruct (next =? 0); [done|]. destruct (_ || _) eqn:Hc; [done|]. bool_facts.
  apply returns_bind; [apply returns_ok_or|]. intros o' Ho'%ok_or_ok%checked_add_some.
  destruct Ho' as [-> ?]. apply IH; lia.
Qed.

Lemma page_nil es : page block [] es -> es = [].
Proof.
  intros Hp. remember [] as l eqn:Hl. destruct Hp as [|b e Hb|b rest e es Hb Hm Hn Hp]; [done|..].
  - apply format_size in Hb. subst. exfalso. len_lia.
  - by apply app_nil in Hl as [-> _].
Qed.

(** A page that is not empty, as one turn of the loop sees it. *)
Lemma page_step r es : 0 < len r ->
  page block r es <-> exists e next es', es = e :: es' /\ block r next e /\
    (next = 0 /\ es' = [] \/
     next <> 0 /\ size e <= next <= len r /\ next mod 8 = 0 /\ page block (drop (Z.to_nat next) r) es').
Proof.
  intros Hr. split.
  - destruct 1 as [|b e Hb|b rest e es Hb Hm Hn Hp]; [len_lia|by exists e, 0, []; auto|].
    exists e, (len b), es. split; [done|]. split; [by apply format_extend|]. right.
    pose proof (format_size _ _ _ Hb). split; [lia|]. split; [len_lia|]. split; [done|].
    unfold len. by rewrite Nat2Z.id, drop_app_length.
  - intros (e & next & es' & -> & Hb & [[-> ->]|(Hz & [Hs Hn] & Hm & Hp)]); [by constructor|].
    pose proof (format_size _ _ _ Hb) as [[? ?] ?].
    rewrite <- (take_drop (Z.to_nat next) r) in Hb |- *. set (b := take _ r) in *.
    assert (len b = next) as Hl by (subst b; len_lia).
    constructor; [|by rewrite Hl| |done].
    + rewrite Hl. eapply format_cut; [exact Hb|lia].
    + intros Hnil. rewrite Hnil in Hl. len_lia.
Qed.

Lemma entries_loop_iff fuel : forall buffer offset entries result, 0 <= offset ->
  len buffer - offset <= Z.of_nat fuel -> len buffer <= usize_max ->
  entries_loop fuel class_ entry buffer offset entries = Ok result <->
  exists es, result = entries ++ es /\ page block (drop (Z.to_nat offset) buffer) es.
Proof.
  assert (forall (buffer : bytes) offset entries result, len buffer <= offset ->
    (Ok entries : fs (list A)) = Ok result <->
    exists es, result = entries ++ es /\ page block (drop (Z.to_nat offset) buffer) es) as Hend.
  { intros buffer offset entries result Hl. rewrite drop_ge by (unfold len in Hl; lia). split.
    - intros [= <-]. exists []. rewrite app_nil_r. split; [done|constructor].
    - intros (es & -> & ->%page_nil). by rewrite app_nil_r. }
  induction fuel as [|fuel IH]; intros buffer offset entries result Ho Hf Hm; cbn [entries_loop].
  { rewrite (proj2 (Z.ltb_ge _ _)) by lia. apply Hend. lia. }
  destruct (Z.ltb_spec offset (len buffer)) as [Hlt|]; [|by apply Hend]. cbn [negb].
  rewrite slice_from_ok by lia. cbn [obind]. set (r := drop _ buffer).
  assert (len r = len buffer - offset) as Hr by (subst r; len_lia).
  rewrite obind_ok. split.
  - intros ([[e next] name_end] & He & Hd). apply format_iff in He as [Hb ->]; [|lia].
    pose proof (format_size _ _ _ Hb) as [[Hs1 Hs2] Hn]. destruct (Z.eqb_spec next 0) as [->|Hnz].
    { apply Ok_inj in Hd as <-. exists [e]. split; [done|by constructor]. }
    accept Hd. bool_facts. apply IH in Hd as (es & -> & Hp); [|lia..].
    exists (e :: es). split; [by rewrite <- app_assoc|]. apply page_step; [lia|].
    exists e, next, es. split; [done|]. split; [done|]. right.
    do 3 (split; [lia || done|]). subst r. rewrite drop_drop.
    by replace (Z.to_nat offset + Z.to_nat next)%nat with (Z.to_nat (offset + next)) by lia.
  - intros (es & -> & Hp). apply page_step in Hp as (e & next & es' & -> & Hb & Hcase); [|lia].
    exists (e, next, size e). split; [by apply format_iff; [lia|]|].
    destruct Hcase as [[-> ->]|(Hz & Hs & Hm8 & Hp)]; [done|].
    pose proof (format_size _ _ _ Hb).
    rewrite (proj2 (Z.eqb_neq _ _)), (proj2 (Z.ltb_ge next _)), (proj2 (Z.ltb_ge (len r) _)) by lia.
    rewrite Hm8. cbn [orb negb Z.eqb].
    rewrite (proj2 (checked_add_some _ _ _ (offset + next))) by (split; [done|lia]).
    cbn [ok_or obind]. apply IH; [lia..|]. exists es'. split; [by rewrite <- app_assoc|].
    subst r. rewrite drop_drop in Hp.
    by replace (Z.to_nat (offset + next)) with (Z.to_nat offset + Z.to_nat next)%nat by lia.
Qed.
End entries.

Section decoders.
Context (buffer : bytes) (Hbuffer : len buffer <= usize_max).

Lemma returns_decode_names : returns (decode_file_names_information buffer).
Proof. apply entries_loop_returns; unfold len in *; lia. Qed.

Lemma returns_decode_metadata : returns (decode_file_id_full_directory_metadata buffer).
Proof. apply entries_loop_returns; unfold len in *; lia. Qed.

Lemma decode_names_iff entries :
  decode_file_names_information buffer = Ok entries <-> page name_block buffer entries.
Proof.
  unfold decode_file_names_information.
  rewrite entries_loop_iff by (unfold len in *; lia). rewrite drop_0.
  split; [by intros (es & -> & ?)|intros; by exists entries].
Qed.

Lemma decode_metadata_iff entries :
  decode_file_id_full_directory_metadata buffer = Ok entries <-> page metadata_block buffer entries.
Proof.
  unfold decode_file_id_full_directory_metadata.
  rewrite entries_loop_iff by (unfold len in *; lia). rewrite drop_0.
  split; [by intros (es & -> & ?)|intros; by exists entries].
Qed.
End decoders.

(** An entry takes up at least its fixed part, so a page holds a bounded number. *)
Lemma metadata_page_bounded b es : page metadata_block b es -> 80 * len es <= len b.
Proof.
  assert (forall b next e, metadata_block b next e -> 80 <= len b) as Hsize.
  { intros b' next e Hb. pose proof (format_size _ _ _ Hb) as [[_ Hs] _].
    unfold metadata_size in Hs. len_lia. }
  induction 1 as [|b e Hb|b rest e es Hb _ _ _ IH]; [done|apply Hsize in Hb; len_lia..].
Qed.

(** ** Sizes and standard information *)

Lemma returns_standard_decode buffer : returns (FileStandardInformation.decode buffer).
Proof. unfold FileStandardInformation.decode, get_i64, STANDARD_INFORMATION_SIZE. repeat returns_step. Qed.

Lemma returns_full_size_decode buffer : returns (FileFsFullSizeInformation.decode buffer).
Proof. unfold FileFsFullSizeInformation.decode, get_i64. repeat returns_step; bool_facts; repeat returns_step. Qed.

(** The capacities, in unbounded arithmetic: no product leaves 128 bits. *)
Lemma capacity_ok buffer info : FileFsFullSizeInformation.decode buffer = Ok info ->
  let unit_ := le_at 4 buffer 24 * le_at 4 buffer 28 in
  len buffer = 32 /\ 0 < unit_ /\
  FileFsFullSizeInformation.capacity_bytes info
  = Ok (Z.min (le_at 8 buffer 0 * unit_) i64_max, Z.min (le_at 8 buffer 8 * unit_) i64_max).
Proof.
  unfold FileFsFullSizeInformation.decode, get_i64. intros Hd. accept_step Hd. bool_facts.
  accept Hd. apply Ok_inj in Hd as <-. read_facts. bool_facts.
  destruct (as_i64_nonneg (le_at 8 buffer 0)) as [-> ?]; [done..|].
  destruct (as_i64_nonneg (le_at 8 buffer 8)) as [-> ?]; [done..|].
  set (s := le_at 4 buffer 24) in *. set (b := le_at 4 buffer 28) in *.
  set (t := le_at 8 buffer 0) in *. set (c := le_at 8 buffer 8) in *.
  assert (0 < s * b <= 2 ^ 64) by (change (2 ^ (8 * Z.of_nat 4)) with (2 ^ 32) in *; nia).
  split; [done|]. split; [lia|].
  unfold FileFsFullSizeInformation.capacity_bytes, FileFsFullSizeInformation.to_java,
    FileFsFullSizeInformation.mul_u128, u128_max. cbn.
  rewrite (proj2 (Z.leb_le _ _)) by lia. cbn [obind].
  rewrite (proj2 (Z.leb_le (t * _) _)) by nia. cbn [obind].
  by rewrite (proj2 (Z.leb_le (c * _) _)) by nia.
Qed.

Lemma standard_ok buffer info : FileStandardInformation.decode buffer = Ok info ->
  24 <= len buffer /\
  FileStandardInformation.allocation_size info = le_at 8 buffer 0 /\
  FileStandardInformation.end_of_file info = le_at 8 buffer 8 /\
  uint 63 (FileStandardInformation.allocation_size info) /\
  uint 63 (FileStandardInformation.end_of_file info).
Proof.
  unfold FileStandardInformation.decode, get_i64, STANDARD_INFORMATION_SIZE. intros Hd.
  accept Hd. read_facts. bool_facts. apply Ok_inj in Hd as <-. cbn.
  destruct (as_i64_nonneg (le_at 8 buffer 0)) as [-> ?]; [done..|].
  destruct (as_i64_nonneg (le_at 8 buffer 8)) as [-> ?]; [done..|]. unfold uint. split_and!; lia || done.
Qed.

(** ** Reading a directory *)

Section fetch.
Context {T : Type} `{TransportSafe T} `{CryptoLaws}.
#[local] Abbreviation session := (SessionConnection.t T).

Definition page_query (pattern : rust_string) : QueryDirectoryOptions.t :=
  QueryDirectoryOptions.new FILE_ID_FULL_DIRECTORY_INFORMATION_CLASS pattern
    DEFAULT_QUERY_BUFFER_SIZE.

(** The queries of a directory: one for each buffer, and one for its end. *)
Fixpoint fetched (s : session) (directory : FileHandle.t) (pattern : rust_string)
    (buffers : list bytes) (s' : session) : Prop :=
  match buffers with
  | [] => one_directory_query s directory (page_query pattern) (Ok []) s'
  | buffer :: buffers => buffer <> [] /\ exists s1,
      one_directory_query s directory (page_query pattern) (Ok buffer) s1 /\
      fetched s1 directory pattern buffers s'
  end.

Lemma directory_query_ok (s : session) directory options r s' :
  one_directory_query s directory options r s' ->
  session_wf s' /\
  forall b, r = Ok b -> len b <= QueryDirectoryOptions.output_buffer_length options \/ b = [].
Proof.
  intros (charge & _ & Hone). split.
  - apply one_request_traffic in Hone as (es & Ha & _). apply Ha.
  - intros b ->. destruct Hone as (es & _ & _ & id & m & ms & response & h & _ & _ & _ & _ & Hq).
    destruct Hq as [[_ ->]|(_ & Hl & _)]; [by right|by left].
Qed.

Lemma read_pages_runs patience directory pattern : forall entries (s : session), session_wf s ->
  eruns (read_pages patience directory pattern entries) s (fun r s' => session_wf s' /\
    match r with
    | Ok result => exists buffers pages, fetched s directory pattern buffers s' /\
        Forall2 (page metadata_block) buffers pages /\ result = entries ++ mjoin pages
    | _ => True
    end).
Proof.
  induction patience as [|patience IH]; intros entries s Hs; cbn [read_pages]; [done|].
  apply eruns_bind, eruns_client_on. eapply runs_mono; [by apply query_directory_runs|].
  intros r s1 Hq. apply directory_query_ok in Hq as Hok. destruct Hok as [Hs1 Hlen].
  destruct r as [buffer|e| |]; cbn [omap_err id]; [|by split|done..].
  destruct (is_empty buffer) eqn:He.
  { apply is_empty_true in He as ->. unfold eruns, eret. split; [done|].
    exists [], []. split; [done|]. split; [constructor|]. by rewrite app_nil_r. }
  assert (len buffer <= usize_max) as Hmax.
  { destruct (Hlen buffer eq_refl) as [Hl| ->]; [cbn in Hl; unfold DEFAULT_QUERY_BUFFER_SIZE in Hl;
      unfold usize_max; lia|done]. }
  apply eruns_bind_lift; [by apply returns_decode_metadata|by split|].
  intros entries1 Hd. apply decode_metadata_iff in Hd; [|done].
  eapply eruns_mono; [by apply IH|]. intros r s' [Hs' Hr]. split; [done|].
  destruct r as [result|e| |]; [|done..]. destruct Hr as (buffers & pages & Hf & Hp & ->).
  exists (buffer :: buffers), (entries1 :: pages). split.
  - cbn [fetched]. split; [by intros ->|]. by exists s1.
  - split; [by constructor|]. cbn. by rewrite app_assoc.
Qed.

Lemma read_directory_runs patience directory pattern (s : session) : session_wf s ->
  eruns (read_directory_metadata_matching patience directory pattern) s (fun r s' =>
    session_wf s' /\
    match r with
    | Ok entries => pattern <> [] /\ exists buffers pages,
        fetched s directory pattern buffers s' /\
        Forall2 (page metadata_block) buffers pages /\ entries = mjoin pages
    | _ => True
    end).
Proof.
  intros Hs. unfold read_directory_metadata_matching.
  destruct (is_empty pattern) eqn:He; [by unfold eruns, efail|].
  eapply eruns_mono; [by apply read_pages_runs|]. intros r s' [Hs' Hr]. split; [done|].
  destruct r; [|done..]. split; [by intros ->|exact Hr].
Qed.

Lemma standard_information_runs file (s : session) : session_wf s ->
  eruns (query_standard_information file) s (fun r s' => session_wf s' /\
    match r with
    | Ok info => uint 63 (FileStandardInformation.allocation_size info) /\
                 uint 63 (FileStandardInformation.end_of_file info)
    | _ => True
    end).
Proof.
  intros Hs. unfold query_standard_information. apply eruns_bind, eruns_client_on.
  eapply runs_mono; [by apply query_info_runs|]. intros r s' (charge & _ & Hone).
  apply one_request_traffic in Hone as (es & Ha & _). unfold id.
  assert (session_wf s') by apply Ha.
  destruct r as [buffer|e| |]; cbn [omap_err]; [|done..]. unfold eruns, elift.
  pose proof (returns_standard_decode buffer) as Hr.
  destruct (FileStandardInformation.decode buffer) as [info|e| |] eqn:E; [|done..].
  split; [done|]. by apply standard_ok in E as (_ & _ & _ & ? & ?).
Qed.
End fetch.

(** ** Properties *)

(** C30: the directory decoders accept exactly the well-formed pages. On every
    buffer they return, without panicking and in at most one turn per byte; they
    succeed exactly when the buffer is a sequence of entries, each followed by
    the next at a NextEntryOffset that is a multiple of eight and not before the
    end of its name, down to one without a next or to the end of the buffer; and
    they return those entries, whatever the unread fields and the padding hold.
    A page never holds more entries than fit. *)
Theorem directory_page_iff (buffer : bytes) (Hbuffer : len buffer <= usize_max) :
  returns (decode_file_names_information buffer) /\
  returns (decode_file_id_full_directory_metadata buffer) /\
  (forall entries, decode_file_names_information buffer = Ok entries <->
                   page name_block buffer entries) /\
  (forall entries, decode_file_id_full_directory_metadata buffer = Ok entries <->
                   page metadata_block buffer entries) /\
  (forall entries, page metadata_block buffer entries -> 80 * len entries <= len buffer).
Proof.
  split_and!; [by apply returns_decode_names|by apply returns_decode_metadata|
    by apply decode_names_iff|by apply decode_metadata_iff|apply metadata_page_bounded].
Qed.

(** Two names, the first padded to a multiple of eight. *)
Definition sample_names : bytes :=
  name_entry_bytes 16 (DirectoryNameEntry.mk 1 [97]) ++ [x00; x00]
  ++ name_entry_bytes 0 (DirectoryNameEntry.mk 2 [98; 99]).

Lemma directory_page_iff_witness :
  len sample_names <= usize_max /\
  page name_block sample_names [DirectoryNameEntry.mk 1 [97]; DirectoryNameEntry.mk 2 [98; 99]].
Proof.
  split; [by vm_compute|].
  apply (proj1 (proj2 (proj2 (directory_page_iff sample_names ltac:(by vm_compute))))).
  vm_compute. reflexivity.
Defined.

(** C28: reading a directory returns its pages, whole and in order. Whatever the
    server answers, no panic, and the session stays usable. On success the
    pattern was not empty; the server was asked page after page until it
    answered with an empty one; every page was accepted as one answer to one
    request; and the entries are those of the well-formed pages, in order. *)
Theorem read_directory_sound {T} `{TransportSafe T} `{CryptoLaws} (s : SessionConnection.t T)
    (patience : nat) (directory : FileHandle.t) (pattern : rust_string) (Hs : session_wf s) :
  eruns (read_directory_metadata_matching patience directory pattern) s (fun r s' =>
    session_wf s' /\
    match r with
    | Ok entries => pattern <> [] /\ exists buffers pages,
        fetched s directory pattern buffers s' /\
        Forall2 (page metadata_block) buffers pages /\ entries = mjoin pages
    | _ => True
    end).
Proof. by apply read_directory_runs. Qed.

Definition sample_metadata : DirectoryMetadataEntry.t :=
  DirectoryMetadataEntry.mk 7 [97; 98] 10 20 1000 4096 32.
Definition sample_page : bytes :=
  metadata_entry_bytes 0 (replicate 8 x00) (replicate 8 x00) (replicate 16 x00) sample_metadata.
Definition sample_page_response : bytes :=
  sample_header Command.QueryDirectory 0 1 (Sync 0 5)
  ++ le_bytes 2 9 ++ le_bytes 2 72 ++ le_bytes 4 (len sample_page) ++ sample_page.
Definition sample_directory_end : bytes :=
  sample_header Command.QueryDirectory STATUS_NO_MORE_FILES 2 (Sync 0 5)
  ++ le_bytes 2 9 ++ replicate 7 x00.

Lemma read_directory_sound_witness :
  exists entries (s' : SessionConnection.t TcpTransport.t) buffers,
    entries = [sample_metadata] /\
    @fetched _ _ toy_crypto (sample_session [sample_page_response; sample_directory_end])
      sample_file any_name buffers s'.
Proof.
  destruct (eruns_ended _ _ _ (fun entries _ => bool_decide (entries = [sample_metadata]))
      (@read_directory_sound _ _ _ toy_crypto toy_laws
         (sample_session [sample_page_response; sample_directory_end]) 4 sample_file any_name
         (sample_session_wf _)))
    as (entries & s' & (_ & _ & buffers & pages & Hf & _) & Ht%bool_decide_eq_true);
    [vm_compute; reflexivity|].
  exists entries, s', buffers. split; [exact Ht|exact Hf].
Defined.
