(* ===== verification/FsMutation.v ===== *)
(** * Filesystem mutations

    [crates/smb-fs/src/mutation.rs]: directories and files made, renamed and
    deleted by an open, a SET_INFO and a close. *)
From S2P Require Import Prelude WireError Utf16 Frame Header Create CreateContext Durable SetInfo.
From S2P Require Import Client Effects Credits MessageIds AsyncResponse Transport Signing Connection.
From S2P Require Import Auth Session Exchange Tree Files Write SetInfoOps.

Definition STATUS_ACCESS_DENIED : Z := 0xC0000022.
Definition STATUS_OBJECT_NAME_NOT_FOUND : Z := 0xC0000034.
Definition STATUS_OBJECT_NAME_COLLISION : Z := 0xC0000035.
Definition STATUS_OBJECT_PATH_NOT_FOUND : Z := 0xC000003A.
Definition STATUS_SHARING_VIOLATION : Z := 0xC0000043.
Definition STATUS_FILE_IS_A_DIRECTORY : Z := 0xC00000BA.
Definition STATUS_DIRECTORY_NOT_EMPTY : Z := 0xC0000101.
Definition STATUS_NOT_A_DIRECTORY : Z := 0xC0000103.
Definition STATUS_CANNOT_DELETE : Z := 0xC0000121.

Inductive FsMutationError : Type :=
  | InvalidPath (message : string)
  | NotFound
  | AlreadyExists
  | AccessDenied
  | SharingViolation
  | DirectoryNotEmpty
  | CannotDelete
  | IsDirectory
  | NotDirectory
  | MutationClient (error : ClientError).

Definition map_client_error (error : ClientError) : FsMutationError :=
  match error with
  | ServerStatus status =>
      if (status =? STATUS_OBJECT_NAME_NOT_FOUND) || (status =? STATUS_OBJECT_PATH_NOT_FOUND)
      then NotFound else
      if status =? STATUS_OBJECT_NAME_COLLISION then AlreadyExists else
      if status =? STATUS_ACCESS_DENIED then AccessDenied else
      if status =? STATUS_SHARING_VIOLATION then SharingViolation else
      if status =? STATUS_DIRECTORY_NOT_EMPTY then DirectoryNotEmpty else
      if status =? STATUS_CANNOT_DELETE then CannotDelete else
      if status =? STATUS_FILE_IS_A_DIRECTORY then IsDirectory else
      if status =? STATUS_NOT_A_DIRECTORY then NotDirectory else MutationClient error
  | other => MutationClient other
  end.

(** ** Paths *)

(** [path.split(c)] and [components.join(c)]. *)
Fixpoint split_on (c : Z) (s : rust_string) : list rust_string :=
  match s with
  | [] => [[]]
  | x :: s =>
      if x =? c then [] :: split_on c s
      else match split_on c s with
           | [] => [[x]]
           | w :: ws => (x :: w) :: ws
           end
  end.

Fixpoint join_with (c : Z) (ws : list rust_string) : rust_string :=
  match ws with
  | [] => []
  | [w] => w
  | w :: ws => w ++ c :: join_with c ws
  end.

(** The loop over the components. *)
Fixpoint path_components (ws : list rust_string) : outcome FsMutationError (list rust_string) :=
  match ws with
  | [] => Ok []
  | component :: ws =>
      if is_empty component then path_components ws else
      if bool_decide (component = [46]) || bool_decide (component = [46; 46])
      then Err (InvalidPath "dot path components are not allowed") else
      let! components := path_components ws in
      Ok (component :: components)
  end.

Definition normalize_mutation_path (path : rust_string) : outcome FsMutationError rust_string :=
  if is_empty path then Err (InvalidPath "path must not be empty") else
  if starts_with 92 path || starts_with 47 path
  then Err (InvalidPath "path must be relative to the connected share") else
  if contains 0 path then Err (InvalidPath "path must not contain NUL") else
  let replaced := backslashes path in
  let! components := path_components (split_on 92 replaced) in
  if is_empty components then Err (InvalidPath "path must name an entry") else
  Ok (join_with 92 components).

(** ** Operations *)

Section mutation.
Context {T : Type} `{Transport T} `{Crypto}.
#[local] Abbreviation session := (SessionConnection.t T).
#[local] Abbreviation fsm := (est FsMutationError session).

(** [session.op(..).await.map_err(map_client_error)?], and its result. *)
Definition mutation {A} (m : st session A) : fsm A :=
  client_on map_client_error id (fun _ s => s) m.
Definition mutation_result {A} (m : st session A) : fsm (ClientError + A) :=
  attempt id (fun _ s => s) m.

Definition mkdir (tree : TreeHandle.t) (path : rust_string) : fsm unit :=
  rec! path := elift (normalize_mutation_path path) in
  rec! directory := mutation (open_file tree path FileOpenOptions.create_directory) in
  rec! _ := mutation (close_file directory CloseOptions.default) in
  eret tt.

Definition create_file (tree : TreeHandle.t) (path : rust_string) : fsm unit :=
  rec! path := elift (normalize_mutation_path path) in
  rec! file := mutation (open_file tree path FileOpenOptions.create_new_random) in
  rec! _ := mutation (close_file file CloseOptions.default) in
  eret tt.

Definition mutate_then_close (patience : nat) (file : FileHandle.t) (options : SetInfoOptions.t) :
    fsm unit :=
  rec! mutated := mutation_result (set_info patience file options) in
  rec! closed := mutation_result (close_file file CloseOptions.default) in
  match mutated, closed with
  | inl error, _ => efail (map_client_error error)
  | inr _, inl error => efail (map_client_error error)
  | inr _, inr _ => eret tt
  end.

Definition mark_delete_pending_then_close (patience : nat) (file : FileHandle.t) : fsm unit :=
  let buffer := FileDispositionInformation.encode FileDispositionInformation.delete in
  mutate_then_close patience file
    (SetInfoOptions.file set_info_class.FILE_DISPOSITION_INFORMATION buffer).

(** [?] of a wire error, by [FsMutationError::from]. *)
Definition from_wire_error {A} (m : wire A) : outcome FsMutationError A :=
  omap_err (fun e => MutationClient (Wire e)) m.

Definition rename (patience : nat) (tree : TreeHandle.t) (source destination : rust_string)
    (replace_if_exists : bool) : fsm unit :=
  rec! source := elift (normalize_mutation_path source) in
  rec! destination := elift (normalize_mutation_path destination) in
  rec! file := mutation (open_file tree source FileOpenOptions.mutation_existing) in
  rec! buffer := elift (from_wire_error
    (FileRenameInformation.encode (FileRenameInformation.mk destination replace_if_exists))) in
  mutate_then_close patience file
    (SetInfoOptions.file set_info_class.FILE_RENAME_INFORMATION buffer).

Definition delete_file (patience : nat) (tree : TreeHandle.t) (path : rust_string) : fsm unit :=
  rec! path := elift (normalize_mutation_path path) in
  rec! file := mutation (open_file tree path FileOpenOptions.mutation_existing_file) in
  mark_delete_pending_then_close patience file.

Definition delete_directory (patience : nat) (tree : TreeHandle.t) (path : rust_string) :
    fsm unit :=
  rec! path := elift (normalize_mutation_path path) in
  rec! directory := mutation (open_file tree path FileOpenOptions.mutation_existing_directory) in
  mark_delete_pending_then_close patience directory.

End mutation.

(** ** Canonical paths *)

(** A component that names an entry, and the paths the operations use: such
    components with single backslashes between them. *)
Definition plain (w : rust_string) : Prop :=
  w <> [] /\ w <> [46] /\ w <> [46; 46] /\ 92 ∉ w /\ 47 ∉ w /\ 0 ∉ w.
Definition canonical (path : rust_string) : Prop :=
  exists ws, ws <> [] /\ Forall plain ws /\ path = join_with 92 ws.

Lemma split_on_nonempty c s : split_on c s <> [].
Proof. destruct s as [|x s]; cbn; [done|]. destruct (x =? c); [done|]. by destruct (split_on c s). Qed.

Lemma split_on_in c s w x : w ∈ split_on c s -> x ∈ w -> x <> c /\ x ∈ s.
Proof.
  induction s as [|y s IH] in w |- *; cbn.
  { intros ->%list_elem_of_singleton Hx. by apply not_elem_of_nil in Hx. }
  rewrite elem_of_cons. destruct (Z.eqb_spec y c) as [->|Hy].
  - rewrite elem_of_cons. intros [->|Hw] Hx; [by apply not_elem_of_nil in Hx|].
    destruct (IH w Hw Hx). by split; [|right].
  - destruct (split_on c s) as [|w0 ws] eqn:E; [by destruct (split_on_nonempty c s)|].
    rewrite elem_of_cons. intros [->|Hw] Hx.
    + apply elem_of_cons in Hx as [->|Hx]; [by split; [|left]|].
      destruct (IH w0 ltac:(by left) Hx). by split; [|right].
    + destruct (IH w ltac:(by right) Hx). by split; [|right].
Qed.

Lemma split_on_app c w s : c ∉ w -> split_on c (w ++ c :: s) = w :: split_on c s.
Proof.
  intros Hw. induction w as [|x w IH]; cbn; [by rewrite Z.eqb_refl|].
  apply not_elem_of_cons in Hw as [? ?]. rewrite (proj2 (Z.eqb_neq x c)) by done. by rewrite IH.
Qed.

Lemma split_on_none c w : c ∉ w -> split_on c w = [w].
Proof.
  intros Hw. induction w as [|x w IH]; cbn; [done|].
  apply not_elem_of_cons in Hw as [? ?]. rewrite (proj2 (Z.eqb_neq x c)) by done. by rewrite IH.
Qed.

Lemma split_join c ws : ws <> [] -> Forall (fun w => c ∉ w) ws -> split_on c (join_with c ws) = ws.
Proof.
  intros Hne. induction 1 as [|w ws Hw Hws IH]; [done|]. destruct ws as [|w' ws].
  - by apply split_on_none.
  - cbn [join_with]. rewrite split_on_app by done. f_equal. by apply IH.
Qed.

Lemma join_with_in c ws x : x ∈ join_with c ws -> x = c \/ exists w, w ∈ ws /\ x ∈ w.
Proof.
  induction ws as [|w ws IH]; [by intros ?%not_elem_of_nil|]. destruct ws as [|w' ws].
  - cbn. intros Hx. right. exists w. by split; [left|].
  - cbn [join_with]. rewrite elem_of_app, elem_of_cons. intros [Hx|[->|Hx]]; [|by left|].
    + right. exists w. by split; [left|].
    + destruct (IH Hx) as [->|(v & Hv & Hxv)]; [by left|]. right. exists v. by split; [right|].
Qed.

Lemma path_components_ok ws cs : path_components ws = Ok cs ->
  Forall (fun w => w <> [] /\ w <> [46] /\ w <> [46; 46] /\ w ∈ ws) cs.
Proof.
  induction ws as [|w ws IH] in cs |- *; cbn [path_components].
  { intros [= <-]. constructor. }
  destruct (is_empty w) eqn:He.
  { intros Hc. eapply Forall_impl; [by apply IH|]. intros v (? & ? & ? & ?). by split_and!; [..|right]. }
  destruct (bool_decide _ || bool_decide _) eqn:Hd; [done|]. bool_facts.
  destruct (path_components ws) as [cs'| | |]; [|done..]. intros [= <-].
  constructor.
  - split; [by intros ->|]. split; [done|]. split; [done|by left].
  - eapply Forall_impl; [by apply IH|]. cbn. intros v (? & ? & ? & ?). by split_and!; [..|right].
Qed.

Lemma path_components_plain ws : Forall plain ws -> path_components ws = Ok ws.
Proof.
  induction 1 as [|w ws (Hn & H1 & H2 & _) _ IH]; [done|]. cbn [path_components].
  destruct w as [|x w]; [done|]. cbn [is_empty]. rewrite !bool_decide_false by done.
  cbn [orb]. by rewrite IH.
Qed.

Lemma returns_path_components ws : returns (path_components ws).
Proof.
  induction ws as [|w ws IH]; cbn [path_components]; [done|]. destruct (is_empty w); [done|].
  destruct (_ || _); [done|]. by apply returns_bind.
Qed.

Lemma returns_normalize_mutation_path path : returns (normalize_mutation_path path).
Proof.
  unfold normalize_mutation_path. repeat case_match; try done.
  cbv zeta. apply returns_bind; [apply returns_path_components|]. intros cs _. by destruct (is_empty cs).
Qed.

Lemma backslashes_in s x : x ∈ backslashes s -> x <> 47 /\ (x = 92 \/ x ∈ s).
Proof.
  unfold backslashes. intros (y & -> & Hy)%list_elem_of_fmap.
  destruct (Z.eqb_spec y 47); [by split; [|left]|by split; [|right]].
Qed.

Lemma normalize_mutation_path_canonical path q : normalize_mutation_path path = Ok q -> canonical q.
Proof.
  unfold normalize_mutation_path. intros Hq. accept Hq. apply obind_ok in Hq as (cs & Hcs & Hq).
  accept Hq. apply Ok_inj in Hq as <-. bool_facts. exists cs. split; [by intros ->|]. split; [|done].
  apply path_components_ok in Hcs. eapply Forall_impl; [exact Hcs|].
  intros w (Hn & H1 & H2 & Hw). split_and!; [done..| | |].
  - intros Hx. by destruct (split_on_in _ _ _ _ Hw Hx).
  - intros Hx. apply split_on_in with (x := 47) in Hw as [_ Hw]; [|done].
    by apply backslashes_in in Hw as [? _].
  - intros Hx. apply split_on_in with (x := 0) in Hw as [_ Hw]; [|done].
    apply backslashes_in in Hw as [_ [?|Hin]]; [done|]. apply contains_true in Hin. congruence.
Qed.

Lemma canonical_in path x : canonical path -> x ∈ path -> x = 92 \/ x <> 47 /\ x <> 0.
Proof.
  intros (ws & _ & Hp & ->) [->|(w & Hw & Hx)]%join_with_in; [by left|]. right.
  rewrite Forall_forall in Hp. destruct (Hp w Hw) as (_ & _ & _ & _ & H47 & H0).
  split; by intros ->.
Qed.

Lemma canonical_head path : canonical path ->
  exists x rest, path = x :: rest /\ x <> 92 /\ x <> 47.
Proof.
  intros (ws & Hne & Hp & ->). destruct Hp as [|w ws (Hn & _ & _ & H92 & H47 & _) _]; [done|].
  destruct w as [|x w]; [done|]. exists x.
  destruct ws as [|w' ws]; cbn [join_with]; eexists; (split; [reflexivity|]);
    split; intros ->; [apply H92|apply H47|apply H92|apply H47]; left.
Qed.

(** A canonical path is its own normal form. *)
Lemma normalize_canonical path : canonical path -> normalize_mutation_path path = Ok path.
Proof.
  intros Hc. destruct (canonical_head _ Hc) as (x & rest & Hpath & Hx92 & Hx47).
  assert (contains 0 path = false) as H0.
  { apply not_true_iff_false. rewrite contains_true. intros Hin.
    destruct (canonical_in _ _ Hc Hin) as [|[? ?]]; done. }
  assert (backslashes path = path) as Hb.
  { unfold backslashes. rewrite <- (list_fmap_id path) at 2. apply Forall_fmap_ext_1, Forall_forall.
    intros y Hy. destruct (Z.eqb_spec y 47) as [->|]; [|done].
    by destruct (canonical_in _ _ Hc Hy) as [|[? ?]]. }
  assert (is_empty path = false /\ starts_with 92 path = false /\ starts_with 47 path = false)
    as (He & H92 & H47) by (rewrite Hpath; by split_and!; [|apply Z.eqb_neq..]).
  unfold normalize_mutation_path. rewrite H0, Hb, He, H92, H47. cbn [orb]. cbv zeta.
  destruct Hc as (ws & Hne & Hp & ->).
  rewrite split_join, path_components_plain; [|done|done|].
  - cbn [obind]. by destruct ws.
  - eapply Forall_impl; [exact Hp|]. by intros w (_ & _ & _ & ? & _).
Qed.

(** The components of a path, and the paths that are refused: absolute ones, ones
    with a NUL, ones with a component [.] or [..], and ones without components. *)
Definition components (path : rust_string) : list rust_string :=
  filter (fun w => w <> []) (split_on 92 (backslashes path)).
Definition refused_mutation_path (path : rust_string) : Prop :=
  (exists c rest, path = c :: rest /\ (c = 47 \/ c = 92)) \/ 0 ∈ path \/
  [46] ∈ components path \/ [46; 46] ∈ components path \/ components path = [].

Lemma path_components_cases ws : let cs := filter (fun w => w <> []) ws in
  (([46] ∈ cs \/ [46; 46] ∈ cs) /\ exists e, path_components ws = Err e) \/
  (~ ([46] ∈ cs \/ [46; 46] ∈ cs) /\ path_components ws = Ok cs).
Proof.
  cbn zeta. induction ws as [|w ws IH]; cbn [path_components].
  { right. split; [|done]. by intros [?%elem_of_nil|?%elem_of_nil]. }
  rewrite filter_cons. destruct (is_empty w) eqn:He.
  { apply is_empty_true in He as ->. by rewrite decide_False by by intros []. }
  rewrite decide_True by by intros ->. rewrite !elem_of_cons.
  destruct (bool_decide_reflect (w = [46])) as [->|H1]; [left; split; [by left; left|by eexists]|].
  destruct (bool_decide_reflect (w = [46; 46])) as [->|H2]; [left; split; [by right; left|by eexists]|].
  cbn [orb]. destruct IH as [[Hd [e ->]]|[Hd ->]]; [left|right]; (split; [|cbn; eauto]).
  - destruct Hd; auto.
  - intros [[|]|[|]]; [congruence|by apply Hd; left|congruence|by apply Hd; right].
Qed.

Lemma normalize_mutation_path_cases path :
  (refused_mutation_path path /\ exists e, normalize_mutation_path path = Err e) \/
  (~ refused_mutation_path path /\ normalize_mutation_path path = Ok (join_with 92 (components path))).
Proof.
  unfold normalize_mutation_path, refused_mutation_path. destruct (is_empty path) eqn:He.
  { apply is_empty_true in He as ->. left. split; [by do 4 right|eauto]. }
  destruct (starts_with 92 path || starts_with 47 path) eqn:Hs.
  { left. split; [|eauto]. left. destruct path as [|c rest]; [done|]. exists c, rest. split; [done|].
    cbn in Hs. apply orb_true_iff in Hs as [->%Z.eqb_eq| ->%Z.eqb_eq]; auto. }
  destruct (contains 0 path) eqn:H0.
  { apply contains_true in H0. left. split; [by right; left|eauto]. }
  cbv zeta. fold (components path).
  destruct (path_components_cases (split_on 92 (backslashes path))) as [[Hd [e ->]]|[Hd ->]];
    fold (components path) in Hd |- *; cbn [obind].
  { left. split; [|eauto]. right; right. tauto. }
  destruct (is_empty (components path)) eqn:Hc.
  { apply is_empty_true in Hc. left. split; [by do 4 right|eauto]. }
  right. split; [|done]. intros [(c & rest & -> & Hsep)|[Hnul|[Hd1|[Hd2|Hnil]]]]; [..|tauto|tauto|].
  - cbn in Hs. apply orb_false_iff in Hs as [?%Z.eqb_neq ?%Z.eqb_neq]. tauto.
  - apply contains_true in Hnul. congruence.
  - by rewrite Hnil in Hc.
Qed.

(** ** What the operations come to *)

Section mutation_laws.
Context {T : Type} `{TransportSafe T} `{CryptoLaws}.
#[local] Abbreviation session := (SessionConnection.t T).
#[local] Abbreviation outcome_of := (outcome FsMutationError unit).

(** A path is normalised first, to its components with single backslashes between
    them; if it is refused nothing else happens. *)
Definition on_path (path : rust_string) (s : session)
    (P : rust_string -> outcome_of -> session -> Prop) (r : outcome_of) (s' : session) : Prop :=
  match normalize_mutation_path path with
  | Ok p => ~ refused_mutation_path path /\ p = join_with 92 (components path) /\ canonical p /\ P p r s'
  | Err e => refused_mutation_path path /\ r = Err e /\ s' = s
  | _ => False
  end.

(** One open, and what is done with the file if there is one. *)
Definition opened_then (s : session) (tree : TreeHandle.t) (options : FileOpenOptions.t)
    (work : session -> FileHandle.t -> outcome_of -> session -> Prop) (path : rust_string)
    (r : outcome_of) (s' : session) : Prop :=
  exists opening s1, one_open s tree path options [] opening s1 /\
  match opening with
  | Ok result => work s1 (FileOpenResult.file result) r s'
  | Err e => r = Err (map_client_error e) /\ s' = s1
  | _ => False
  end.

(** The file is closed, whatever came before, and an earlier error wins. *)
Definition closing (before : client unit) (s : session) (file : FileHandle.t) (r : outcome_of)
    (s' : session) : Prop :=
  exists close, one_close s file CloseOptions.default close s' /\
  match before, close with
  | Err e, (Ok _ | Err _) => r = Err (map_client_error e)
  | Ok _, Err e => r = Err (map_client_error e)
  | Ok _, Ok _ => r = Ok tt
  | _, _ => False
  end.

Definition changing (options : SetInfoOptions.t) (s : session) (file : FileHandle.t)
    (r : outcome_of) (s' : session) : Prop :=
  exists change s1, one_mutation s file options change s1 /\ closing change s1 file r s'.

Lemma one_mutation_wf (s : session) file options r s' : one_mutation s file options r s' -> session_wf s'.
Proof. intros (charge & _ & es & Ha & _). apply Ha. Qed.

(** Steps on the session. *)
Lemma mutation_runs {A B} (m : st session A) (k : A -> est FsMutationError session B) (s : session)
    (P : client A -> session -> Prop) (Q : outcome FsMutationError B -> session -> Prop) :
  runs m s P -> (forall a s1, P (Ok a) s1 -> eruns (k a) s1 Q) ->
  (forall e s1, P (Err e) s1 -> Q (Err (map_client_error e)) s1) ->
  eruns (ebind (mutation m) k) s Q.
Proof.
  intros Hm Hok Herr. apply eruns_bind, eruns_client_on. eapply runs_mono; [exact Hm|].
  intros [a|e| |] s1 Hp; cbn [omap_err id]; [by apply Hok|by apply Herr|done..].
Qed.

Lemma mutation_result_runs {A B} (m : st session A)
    (k : ClientError + A -> est FsMutationError session B) (s : session)
    (P : client A -> session -> Prop) (Q : outcome FsMutationError B -> session -> Prop) :
  runs m s P -> (forall a s1, P (Ok a) s1 -> eruns (k (inr a)) s1 Q) ->
  (forall e s1, P (Err e) s1 -> eruns (k (inl e)) s1 Q) ->
  eruns (ebind (mutation_result m) k) s Q.
Proof.
  intros Hm Hok Herr. apply eruns_bind, eruns_attempt. eapply runs_mono; [exact Hm|].
  intros [a|e| |] s1 Hp; [by apply Hok|by apply Herr|done..].
Qed.

Lemma on_path_runs path (k : rust_string -> est FsMutationError session unit) s P :
  (forall p, normalize_mutation_path path = Ok p -> eruns (k p) s (P p)) ->
  eruns (ebind (elift (normalize_mutation_path path)) k) s (on_path path s P).
Proof.
  intros Hk. unfold on_path. apply eruns_bind_lift; [apply returns_normalize_mutation_path| |].
  - intros e He. destruct (normalize_mutation_path_cases path) as [[Hr _]|[_ Hok]]; [|congruence].
    by rewrite He.
  - intros p Hp. rewrite Hp. eapply eruns_mono; [by apply Hk|]. intros r s' HP.
    destruct (normalize_mutation_path_cases path) as [[_ [e He]]|[Hr Hok]]; [congruence|].
    split; [done|]. split; [congruence|]. split; [by eapply normalize_mutation_path_canonical|done].
Qed.

Lemma open_then_runs tree options path work (k : FileHandle.t -> est FsMutationError session unit) s :
  session_wf s ->
  (forall file s1, session_wf s1 -> eruns (k file) s1 (work s1 file)) ->
  eruns (ebind (mutation (open_file tree path options)) k) s
    (opened_then s tree options work path).
Proof.
  intros Hs Hk.
  apply (mutation_runs _ _ _ (fun r s1 => match r with
    | Ok file => exists result, file = FileOpenResult.file result /\
                   one_open s tree path options [] (Ok result) s1
    | Err e => one_open s tree path options [] (Err e) s1
    | _ => True end)).
  - unfold open_file. apply runs_bind. eapply runs_mono; [by apply open_file_runs|].
    intros [result|e| |] s1 Ho; [|done..]. unfold runs, sret. by exists result.
  - intros file s1 (result & -> & Ho). eapply eruns_mono; [apply Hk; by eapply one_open_wf|].
    intros r s' Hw. by exists (Ok result), s1.
  - intros e s1 Ho. by exists (Err e), s1.
Qed.

Lemma close_runs file (s : session) : session_wf s ->
  eruns (rec! _ := mutation (close_file file CloseOptions.default) in eret tt) s
    (closing (Ok tt) s file).
Proof.
  intros Hs. eapply mutation_runs; [by apply close_file_runs|..].
  - intros info s1 Hc. unfold eruns, eret. by exists (Ok info).
  - intros e s1 Hc. by exists (Err e).
Qed.

Lemma mutate_then_close_runs patience file options (s : session) : session_wf s ->
  eruns (mutate_then_close patience file options) s (changing options s file).
Proof.
  intros Hs. unfold mutate_then_close.
  assert (forall change s1, is_ok change = true \/ (exists e, change = Err e) ->
    one_mutation s file options change s1 ->
    eruns (rec! closed := mutation_result (close_file file CloseOptions.default) in
           match (match change with Ok u => inr u | Err e => inl e | _ => inr tt end), closed with
           | inl error, _ => efail (map_client_error error)
           | inr _, inl error => efail (map_client_error error)
           | inr _, inr _ => eret tt
           end) s1 (changing options s file)) as Hclose.
  { intros change s1 Hc Hm. pose proof (one_mutation_wf _ _ _ _ _ Hm) as Hs1.
    eapply mutation_result_runs; [by apply close_file_runs|..]; intros x s2 Hcl;
      destruct change as [u|e| |]; try (by destruct Hc as [|[? ?]]);
      unfold eruns, eret, efail; eexists _, s1; (split; [exact Hm|]); eexists; (split; [exact Hcl|done]). }
  eapply mutation_result_runs; [by apply set_info_runs|..].
  - intros u s1 Hm. by apply (Hclose (Ok u)); [left|].
  - intros e s1 Hm. apply (Hclose (Err e)); [right; by eexists|done].
Qed.

(** A canonical target always has an encoding, but for its length. *)
Lemma rename_target_ok destination replace : canonical destination ->
  len (utf16_bytes destination) <= u32_max ->
  FileRenameInformation.encode (FileRenameInformation.mk destination replace)
  = Ok (rename_bytes (if replace then 1 else 0) destination).
Proof.
  intros Hc Hl. rewrite rename_encode_ok. unfold encode_relative_utf16_name.
  cbn [FileRenameInformation.file_name FileRenameInformation.replace_if_exists].
  destruct (canonical_head _ Hc) as (x & rest & -> & Hx92 & Hx47). cbn [is_empty starts_with].
  rewrite !(proj2 (Z.eqb_neq x _)) by done. cbn [orb].
  destruct (contains 0 (x :: rest)) eqn:Hnul.
  { apply contains_true in Hnul. by destruct (canonical_in _ _ Hc Hnul) as [|[? ?]]. }
  rewrite (proj2 (Z.ltb_ge u32_max _)) by exact Hl. done.
Qed.

Definition rename_options (destination : rust_string) (replace : bool) : SetInfoOptions.t :=
  SetInfoOptions.file set_info_class.FILE_RENAME_INFORMATION
    (rename_bytes (if replace then 1 else 0) destination).
Definition delete_options : SetInfoOptions.t :=
  SetInfoOptions.file set_info_class.FILE_DISPOSITION_INFORMATION [x01].

Lemma rename_target_long destination replace : canonical destination ->
  u32_max < len (utf16_bytes destination) ->
  exists e, FileRenameInformation.encode (FileRenameInformation.mk destination replace) = Err e.
Proof.
  intros Hc Hl. rewrite rename_encode_ok. unfold encode_relative_utf16_name.
  cbn [FileRenameInformation.file_name].
  rewrite (proj2 (Z.ltb_lt u32_max _)) by done. by repeat case_match; eexists.
Qed.

(** A file that was opened to be renamed: a target whose UTF-16 form is longer
    than a [u32] has no encoding, which is found out only now, and the file is
    left open; any other is sent. *)
Definition renaming (destination : rust_string) (replace : bool) (s : session) (file : FileHandle.t)
    (r : outcome_of) (s' : session) : Prop :=
  if decide (len (utf16_bytes destination) <= u32_max)
  then changing (rename_options destination replace) s file r s'
  else s' = s /\ exists e, r = Err (MutationClient (Wire e)).
End mutation_laws.

Lemma fs_mutation_runs {T} `{TransportSafe T} `{CryptoLaws} (s : SessionConnection.t T)
    (patience : nat) (tree : TreeHandle.t) (path destination : rust_string) (replace : bool)
    (Hs : session_wf s) :
  eruns (mkdir tree path) s
    (on_path path s (opened_then s tree FileOpenOptions.create_directory (closing (Ok tt)))) /\
  eruns (create_file tree path) s
    (on_path path s (opened_then s tree FileOpenOptions.create_new_random (closing (Ok tt)))) /\
  eruns (delete_file patience tree path) s
    (on_path path s (opened_then s tree FileOpenOptions.mutation_existing_file
                       (changing delete_options))) /\
  eruns (delete_directory patience tree path) s
    (on_path path s (opened_then s tree FileOpenOptions.mutation_existing_directory
                       (changing delete_options))) /\
  eruns (rename patience tree path destination replace) s
    (on_path path s (fun p => on_path destination s (fun d =>
       opened_then s tree FileOpenOptions.mutation_existing (renaming d replace) p))).
Proof.
  split_and!; apply on_path_runs; intros p Hp.
  1,2: by apply open_then_runs; [|intros; apply close_runs].
  1,2: by apply open_then_runs; [|intros; apply mutate_then_close_runs].
  apply on_path_runs. intros d Hd%normalize_mutation_path_canonical. apply open_then_runs; [done|].
  intros file s1 Hs1. unfold renaming. destruct (decide _) as [Hl|Hl].
  - rewrite rename_target_ok by done.
    apply eruns_bind_lift; [done|done|intros b [= <-]]. by apply mutate_then_close_runs.
  - destruct (rename_target_long d replace Hd ltac:(lia)) as [e ->].
    apply eruns_bind_lift; [done| |done]. intros ? [= <-]. split; [done|by eexists].
Qed.

(** ** Properties *)

(** The paths of mutations are canonical. A path is accepted exactly by
    becoming one or more plain components (not empty, not [.] or [..], without
    separators and NUL) joined by single backslashes, so that it cannot leave
    the share; and what is accepted is accepted again unchanged. *)
Theorem mutation_path_canonical (path q : rust_string) :
  (normalize_mutation_path path = Ok q -> canonical q /\ normalize_mutation_path q = Ok q) /\
  (canonical path <-> normalize_mutation_path path = Ok path) /\
  returns (normalize_mutation_path path).
Proof.
  split_and!.
  - intros Hq%normalize_mutation_path_canonical. split; [done|by apply normalize_canonical].
  - split; [apply normalize_canonical|apply normalize_mutation_path_canonical].
  - apply returns_normalize_mutation_path.
Qed.

Lemma mutation_path_canonical_witness :
  canonical [97; 92; 98] /\ normalize_mutation_path [97; 47; 47; 98; 92] = Ok [97; 92; 98].
Proof.
  assert (normalize_mutation_path [97; 47; 47; 98; 92] = Ok [97; 92; 98]) as H by (vm_compute; reflexivity).
  split; [|exact H]. exact (proj1 (proj1 (mutation_path_canonical _ _) H)).
Defined.

(** C29: a mutation opens at most one file and closes it, but for one rename.
    Whatever the server answers, without panicking: an absolute path, one with a
    NUL, one with a [.] or [..] component and one that names nothing are refused
    and leave the session untouched; else one CREATE with the options of the
    operation names the path's components with single backslashes between them;
    and when it yields a file, that file is closed, after at most one SET_INFO,
    whatever became of it. The result is success only if every step succeeded,
    and else the first error, by its status. The exception is a rename to a target
    of more than [u32::MAX] bytes in UTF-16: it is found to have no encoding only
    after the open, the rename returns that error at once, and the file stays
    open. *)
Theorem fs_mutation_sound {T} `{TransportSafe T} `{CryptoLaws} (s : SessionConnection.t T)
    (patience : nat) (tree : TreeHandle.t) (path destination : rust_string) (replace : bool)
    (Hs : session_wf s) :
  eruns (mkdir tree path) s
    (on_path path s (opened_then s tree FileOpenOptions.create_directory (closing (Ok tt)))) /\
  eruns (create_file tree path) s
    (on_path path s (opened_then s tree FileOpenOptions.create_new_random (closing (Ok tt)))) /\
  eruns (delete_file patience tree path) s
    (on_path path s (opened_then s tree FileOpenOptions.mutation_existing_file
                       (changing delete_options))) /\
  eruns (delete_directory patience tree path) s
    (on_path path s (opened_then s tree FileOpenOptions.mutation_existing_directory
                       (changing delete_options))) /\
  eruns (rename patience tree path destination replace) s
    (on_path path s (fun p => on_path destination s (fun d =>
       opened_then s tree FileOpenOptions.mutation_existing (renaming d replace) p))).
Proof. by apply fs_mutation_runs. Qed.

(** A server that lets a file be marked for deletion. *)
Definition deleting_server : list bytes :=
  [ sample_create_response;
    sample_header Command.SetInfo 0 2 (Sync 0 5) ++ le_bytes 2 2;
    sample_header Command.Close 0 3 (Sync 0 5) ++ le_bytes 2 60 ++ le_bytes 2 0 ++ replicate 56 x00 ].

#[local] Existing Instance toy_crypto.
#[local] Existing Instance toy_laws.

Lemma fs_mutation_sound_witness :
  exists s' : SessionConnection.t TcpTransport.t,
    on_path sample_path (sample_session deleting_server)
      (opened_then (sample_session deleting_server) sample_tree
         FileOpenOptions.mutation_existing_file (changing delete_options)) (Ok tt) s'.
Proof.
  destruct (eruns_ended _ _ _ (fun _ _ => true)
      (proj1 (proj2 (proj2 (fs_mutation_sound (sample_session deleting_server) 4 sample_tree
         sample_path [] false (sample_session_wf _))))))
    as ([] & s' & Hd & _); [vm_compute; reflexivity|].
  exists s'. exact Hd.
Defined.
