(* ===== verification/EngineTypes.v ===== *)
(** * The Android engine: data

    The part of [crates/smb-android/src/engine.rs] that does no I/O: errors,
    requests and their validation, the tables of opaque handles and their four
    kinds of numbers, and the binary payloads handed to the caller. *)
From S2P Require Import Prelude WireError Utf16 Frame Header Create CreateContext Durable.
From S2P Require Import Client Effects Credits MessageIds AsyncResponse Transport Signing Connection.
From S2P Require Import Auth Session Exchange Tree Files Write Read PipelinedRead Cancellation.
From S2P Require Import Ntlm CancelRead Reconnect RecoveringRead VideoReader Broker FsQuery FsMutation.

Definition i64_max_u64 : Z := 9223372036854775807.

Module AndroidEngineConfig.
Record t : Type := mk {
  runtime_worker_threads : Z;
  max_read_bytes : Z;
  read_reconnect_attempts : Z;
  reconnect_backoff : Z
}.
Definition default : t := mk 2 (8 * 1024 * 1024) 2 (250 * 1000000).
End AndroidEngineConfig.

Module VideoOpenRequest.
Record t : Type := mk {
  host : rust_string; port : Z; share : rust_string; path : rust_string;
  username : rust_string; password : rust_string; domain : rust_string;
  workstation : rust_string; stream : VideoReaderConfig.t
}.
Definition new (host share path username password : rust_string) : t :=
  mk host 445 share path username password [] [] VideoReaderConfig.default.
End VideoOpenRequest.

Module SmbMutationRequest.
Record t : Type := mk {
  host : rust_string; port : Z; share : rust_string; path : rust_string;
  username : rust_string; password : rust_string; domain : rust_string; workstation : rust_string
}.
Definition new (host share path username password : rust_string) : t :=
  mk host 445 share path username password [] [].
End SmbMutationRequest.

(** [VideoHandle], of which the other handles are tagged copies. *)
Abbreviation VideoHandle := Z (only parsing).

Inductive AndroidBridgeError : Type :=
  | Runtime (kind : ErrorKind)
  | BridgeClient (error : ClientError)
  | BridgeFs (error : FsMutationError)
  | BridgeQuery (error : FsQueryError)
  | BridgeStream (error : StreamError)
  | InvalidHandle (handle : VideoHandle)
  | BridgeInvalidConfig (message : string)
  | ReadTooLarge (requested maximum : Z)
  | WriteTooLarge (requested maximum : Z)
  | InternalState (message : string)
  | BridgeRandomSource.

Abbreviation bridge := (outcome AndroidBridgeError).

Definition cancelled_bridge_error : AndroidBridgeError := BridgeStream (StreamClient Cancelled).

Definition map_broker_error (error : BrokerError) : AndroidBridgeError :=
  match error with
  | BrokerStream (StreamReconnect RandomSource) => BridgeRandomSource
  | BrokerStream (StreamReconnect ReconnectCancelled) | StaleGeneration => cancelled_bridge_error
  | BrokerStream error => BridgeStream error
  | Closed => InternalState "video broker is closed"
  | BrokerInvalidConfig message => BridgeInvalidConfig message
  end.

(** ** Validation *)

Definition dot : rust_string := [46].
Definition dot_dot : rust_string := [46; 46].

(** [s.contains(['\\', '/', '\0'])]. *)
Definition contains_separator (s : rust_string) : bool :=
  existsb (fun c => (c =? 92) || (c =? 47) || (c =? 0)) s.

Definition validate_mutation_path (path : rust_string) : bridge unit :=
  if is_empty path || starts_with 92 path || starts_with 47 path || contains 0 path
     || existsb (fun component => bool_decide (component = dot) || bool_decide (component = dot_dot))
          (split_on 47 ((fun c => if c =? 92 then 47 else c) <$> path))
  then Err (BridgeInvalidConfig
    "mutation path must be share-relative, non-empty, and contain no dot components or NUL")
  else Ok tt.

Definition validate_mutation_request (request : SmbMutationRequest.t) : bridge unit :=
  if is_empty (SmbMutationRequest.host request) || contains_separator (SmbMutationRequest.host request)
  then Err (BridgeInvalidConfig "host must be a non-empty DNS name or IP address") else
  if SmbMutationRequest.port request =? 0
  then Err (BridgeInvalidConfig "port must be greater than zero") else
  if is_empty (SmbMutationRequest.share request) || contains_separator (SmbMutationRequest.share request)
  then Err (BridgeInvalidConfig "share must be a single non-empty share name") else
  validate_mutation_path (SmbMutationRequest.path request).

Definition root : rust_string := [114; 111; 111; 116].

Definition validate_directory_request (request : SmbMutationRequest.t) : bridge unit :=
  if is_empty (SmbMutationRequest.path request)
  then validate_mutation_request
         (SmbMutationRequest.mk (SmbMutationRequest.host request) (SmbMutationRequest.port request)
            (SmbMutationRequest.share request) root [] [] [] [])
  else validate_mutation_request request.

Definition validate_open_request (request : VideoOpenRequest.t) : bridge unit :=
  if is_empty (VideoOpenRequest.host request) || contains_separator (VideoOpenRequest.host request)
  then Err (BridgeInvalidConfig "host must be a non-empty DNS name or IP address") else
  if VideoOpenRequest.port request =? 0
  then Err (BridgeInvalidConfig "port must be greater than zero") else
  if is_empty (VideoOpenRequest.share request) || contains_separator (VideoOpenRequest.share request)
  then Err (BridgeInvalidConfig "share must be a single non-empty share name") else
  if is_empty (VideoOpenRequest.path request)
  then Err (BridgeInvalidConfig "path must not be empty") else Ok tt.

(** ** Tables of handles *)

(** A [Mutex], which a panic of its holder poisons. *)
Module Mutex.
Record t (A : Type) : Type := mk { poisoned : bool; value : A }.
End Mutex.
Arguments Mutex.mk {A}.
Arguments Mutex.poisoned {A}.
Arguments Mutex.value {A}.

Definition lock {A} (mutex : Mutex.t A) : bridge A :=
  if Mutex.poisoned mutex then Err (InternalState "mutex poisoned") else Ok (Mutex.value mutex).

Module HandleTable.
Record t (A : Type) : Type := mk { next : Z; entries : Mutex.t (gmap Z A) }.
Arguments mk {A}.
Arguments next {A}.
Arguments entries {A}.

Section table.
Context {A : Type}.

Definition new : t A := mk 1 (Mutex.mk false ∅).

(** [fetch_add] until the number is neither zero nor in the table: as many
    numbers as the table has entries can be taken, and zero. *)
Fixpoint insert_loop (fuel : nat) (next : Z) (entries : gmap Z A) (value : A) :
    bridge Z * (Z * gmap Z A) :=
  match fuel with
  | O => (OutOfFuel, (next, entries))
  | S fuel =>
      let raw := next in
      let next := wrapping_add 64 next 1 in
      if raw =? 0 then insert_loop fuel next entries value else
      match entries !! raw with
      | None => (Ok raw, (next, <[raw := value]> entries))
      | Some _ => insert_loop fuel next entries value
      end
  end.

Definition insert (value : A) : est AndroidBridgeError (t A) Z := fun self =>
  match lock (entries self) with
  | Ok locked =>
      let '(r, (next, locked)) := insert_loop (size locked + 2) (next self) locked value in
      (r, mk next (Mutex.mk (Mutex.poisoned (entries self)) locked))
  | Err e => (Err e, self)
  | Panic => (Panic, self)
  | OutOfFuel => (OutOfFuel, self)
  end.

Definition get (self : t A) (handle : Z) : bridge A :=
  let! locked := lock (entries self) in ok_or (locked !! handle) (InvalidHandle handle).

Definition remove (handle : Z) : est AndroidBridgeError (t A) A := fun self =>
  match lock (entries self) with
  | Ok locked =>
      (ok_or (locked !! handle) (InvalidHandle handle),
       mk (next self) (Mutex.mk (Mutex.poisoned (entries self)) (delete handle locked)))
  | Err e => (Err e, self)
  | Panic => (Panic, self)
  | OutOfFuel => (OutOfFuel, self)
  end.

(** The entry of a live handle is changed through its [Arc]. *)
Definition update (self : t A) (handle : Z) (value : A) : t A :=
  mk (next self) (Mutex.mk (Mutex.poisoned (entries self))
                    (alter (fun _ => value) handle (Mutex.value (entries self)))).
End table.
End HandleTable.

(** ** The kinds of handles *)

Definition DIRECTORY_HANDLE_FLAG : Z := Z.shiftl 1 62.
Definition WRITABLE_HANDLE_FLAG : Z := Z.shiftl 1 61.
Definition RANDOM_HANDLE_FLAG : Z := Z.shiftl 1 60.

(** [value & !flag]. *)
Definition without (value flag : Z) : Z := Z.land value (bit_not 64 flag).

Module DirectoryHandle.
Definition from_id (id : Z) : Z := Z.lor id DIRECTORY_HANDLE_FLAG.
Definition table_key (handle : Z) : bridge Z :=
  if (Z.land handle DIRECTORY_HANDLE_FLAG =? 0) || (handle =? DIRECTORY_HANDLE_FLAG)
  then Err (BridgeInvalidConfig "invalid directory handle")
  else Ok (without handle DIRECTORY_HANDLE_FLAG).
End DirectoryHandle.

Module WritableHandle.
Definition from_id (id : Z) : Z := Z.lor id WRITABLE_HANDLE_FLAG.
Definition table_key (handle : Z) : bridge Z :=
  if (Z.land handle WRITABLE_HANDLE_FLAG =? 0) || negb (Z.land handle DIRECTORY_HANDLE_FLAG =? 0)
     || (handle =? WRITABLE_HANDLE_FLAG)
  then Err (BridgeInvalidConfig "invalid writable handle")
  else Ok (without handle WRITABLE_HANDLE_FLAG).
End WritableHandle.

Module RandomHandle.
Definition from_id (id : Z) : Z := Z.lor id RANDOM_HANDLE_FLAG.
Definition table_key (handle : Z) : bridge Z :=
  if (Z.land handle RANDOM_HANDLE_FLAG =? 0)
     || negb (Z.land handle (Z.lor (Z.lor DIRECTORY_HANDLE_FLAG WRITABLE_HANDLE_FLAG) (Z.shiftl 1 63)) =? 0)
     || (handle =? RANDOM_HANDLE_FLAG)
  then Err (BridgeInvalidConfig "invalid random-access handle")
  else Ok (without handle RANDOM_HANDLE_FLAG).
End RandomHandle.

(** ** Payloads *)

(** [str::as_bytes]: UTF-8. *)
Definition utf8_char (c : Z) : bytes :=
  (if c <? 0x80 then [c]
   else if c <? 0x800 then [Z.lor 0xC0 (Z.shiftr c 6); Z.lor 0x80 (Z.land c 0x3F)]
   else if c <? 0x10000
   then [Z.lor 0xE0 (Z.shiftr c 12); Z.lor 0x80 (Z.land (Z.shiftr c 6) 0x3F); Z.lor 0x80 (Z.land c 0x3F)]
   else [Z.lor 0xF0 (Z.shiftr c 18); Z.lor 0x80 (Z.land (Z.shiftr c 12) 0x3F);
         Z.lor 0x80 (Z.land (Z.shiftr c 6) 0x3F); Z.lor 0x80 (Z.land c 0x3F)]) ≫= le_bytes 1.
Definition as_bytes (s : rust_string) : bytes := s ≫= utf8_char.

(** An [i64] as eight bytes. *)
Definition i64_bytes (v : Z) : bytes := le_bytes 8 (v mod 2 ^ 64).

Definition MAX_DIRECTORY_RESULT_BYTES : Z := 16 * 1024 * 1024.

Definition XFL1 : bytes := [x58; x46; x4c; x31].
Definition XSS1 : bytes := [x58; x53; x53; x31].

Definition encode_capacity_bytes (total caller_free : Z) : bytes :=
  XSS1 ++ i64_bytes total ++ i64_bytes caller_free.

Definition push_entry (bytes : bytes) (entry : DirectoryMetadataEntry.t) : bridge Prelude.bytes :=
  let name := as_bytes (DirectoryMetadataEntry.name entry) in
  let! name_length := ok_or (try_from u32_max (len name)) (BridgeInvalidConfig "directory name too long") in
  let! required := ok_or
    (size ← checked_add usize_max 4 (len name);
     size ← checked_add usize_max size 28;
     checked_add usize_max size (len bytes)) (BridgeInvalidConfig "directory listing length overflow") in
  if MAX_DIRECTORY_RESULT_BYTES <? required
  then Err (BridgeInvalidConfig "directory listing exceeds maximum JNI payload") else
  Ok (bytes ++ le_bytes 4 name_length ++ name
      ++ le_bytes 4 (DirectoryMetadataEntry.file_attributes entry)
      ++ le_bytes 8 (DirectoryMetadataEntry.end_of_file entry)
      ++ le_bytes 8 (DirectoryMetadataEntry.creation_time entry)
      ++ le_bytes 8 (DirectoryMetadataEntry.last_write_time entry)).

Fixpoint push_entries (bytes : bytes) (entries : list DirectoryMetadataEntry.t) : bridge Prelude.bytes :=
  match entries with
  | [] => Ok bytes
  | entry :: entries => let! bytes := push_entry bytes entry in push_entries bytes entries
  end.

Definition encode_directory_metadata (entries : list DirectoryMetadataEntry.t) : bridge bytes :=
  let! count := ok_or (try_from u32_max (len entries))
    (BridgeInvalidConfig "directory entry count exceeds u32") in
  push_entries (XFL1 ++ le_bytes 4 count) entries.

(** ** Sizes of trees *)

(** What a page of a directory adds to the directories to visit, a stack whose
    top is the head of the list, and to the sum. *)
Definition accumulate_entry (path : rust_string) (acc : list rust_string * Z)
    (entry : DirectoryMetadataEntry.t) : list rust_string * Z :=
  let '(pending, total) := acc in
  let name := DirectoryMetadataEntry.name entry in
  if is_empty name || bool_decide (name = dot) || bool_decide (name = dot_dot)
     || contains 47 name || contains 92 name || contains 0 name then acc else
  if has_flag (DirectoryMetadataEntry.file_attributes entry) 0x10 then
    if negb (has_flag (DirectoryMetadataEntry.file_attributes entry) 0x400)
    then ((if is_empty path then name else path ++ [47] ++ name) :: pending, total)
    else acc
  else (pending, Z.min (saturating_add u64_max total (DirectoryMetadataEntry.end_of_file entry)) i64_max_u64).

Definition accumulate_directory_entries (entries : list DirectoryMetadataEntry.t) (path : rust_string)
    (pending : list rust_string) (total : Z) : list rust_string * Z :=
  foldl (accumulate_entry path) (pending, total) entries.


(** ** Handles *)

Lemma land_flag v n : 0 <= n -> (Z.land v (Z.shiftl 1 n) =? 0) = negb (Z.testbit v n).
Proof.
  intros Hn. rewrite Z.shiftl_1_l. destruct (Z.testbit v n) eqn:E.
  - apply Z.eqb_neq. intros H0. apply (f_equal (fun z => Z.testbit z n)) in H0.
    by rewrite Z.land_spec, Z.pow2_bits_true, E, Z.bits_0 in H0.
  - apply Z.eqb_eq, Z.bits_inj'. intros i Hi. rewrite Z.land_spec, Z.bits_0.
    destruct (decide (i = n)) as [->|]; [by rewrite E|].
    by rewrite Z.pow2_bits_false, andb_false_r.
Qed.

Lemma tag_bits id n i : 0 <= n -> 0 <= i ->
  Z.testbit (Z.lor id (Z.shiftl 1 n)) i = Z.testbit id i || bool_decide (i = n).
Proof.
  intros Hn Hi. rewrite Z.lor_spec, Z.shiftl_1_l. f_equal. rewrite Z.pow2_bits_eqb by done.
  destruct (Z.eqb_spec n i); [by rewrite bool_decide_true|by rewrite bool_decide_false].
Qed.

Lemma low_bits id n i : 0 <= id < 2 ^ n -> n <= i -> Z.testbit id i = false.
Proof.
  intros Hid Hi. destruct (decide (id = 0)) as [->|]; [apply Z.bits_0|].
  apply Z.bits_above_log2; [lia|]. apply Z.log2_lt_pow2; [lia|].
  assert (2 ^ n <= 2 ^ i) by (apply Z.pow_le_mono_r; lia). lia.
Qed.

(** Setting a clear bit and clearing a set one undo each other. *)
Lemma tag_without id n : 0 <= n < 64 -> uint 64 id -> Z.testbit id n = false ->
  without (Z.lor id (Z.shiftl 1 n)) (Z.shiftl 1 n) = id.
Proof.
  intros Hn Hid Hbit. unfold without. rewrite bit_not_ldiff;
    [|lia|rewrite Z.shiftl_1_l; split; [apply Z.pow_nonneg; lia|apply Z.pow_lt_mono_r; lia]].
  apply Z.bits_inj'. intros i Hi.
  rewrite Z.land_spec, tag_bits, Z.ldiff_spec, Z.shiftl_1_l, Z.pow2_bits_eqb by lia.
  destruct (decide (i = n)) as [->|].
  - by rewrite Z.eqb_refl, Hbit, andb_false_r, andb_false_r.
  - rewrite bool_decide_false, orb_false_r by done.
    rewrite (proj2 (Z.eqb_neq n i)) by done. rewrite andb_true_r.
    destruct (decide (i < 64)); [by rewrite Z.ones_spec_low, andb_true_r by lia|].
    by rewrite (low_bits id 64) by (unfold uint in *; lia).
Qed.

Lemma without_tag h n : 0 <= n < 64 -> uint 64 h -> Z.testbit h n = true ->
  h = Z.lor (without h (Z.shiftl 1 n)) (Z.shiftl 1 n) /\
  Z.testbit (without h (Z.shiftl 1 n)) n = false /\ uint 64 (without h (Z.shiftl 1 n)).
Proof.
  intros Hn Hh Hbit. unfold without. rewrite bit_not_ldiff;
    [|lia|rewrite Z.shiftl_1_l; split; [apply Z.pow_nonneg; lia|apply Z.pow_lt_mono_r; lia]].
  assert (Z.testbit (Z.land h (Z.ldiff (Z.ones 64) (Z.shiftl 1 n))) n = false) as Hclear.
  { rewrite Z.land_spec, Z.ldiff_spec, Z.shiftl_1_l, Z.pow2_bits_true by lia.
    by rewrite andb_false_r, andb_false_r. }
  split_and!; [|done|].
  - apply Z.bits_inj'. intros i Hi. rewrite tag_bits, Z.land_spec, Z.ldiff_spec, Z.shiftl_1_l by lia.
    rewrite Z.pow2_bits_eqb by lia. destruct (decide (i = n)) as [->|].
    + by rewrite bool_decide_true, orb_true_r.
    + rewrite bool_decide_false, orb_false_r by done.
      rewrite (proj2 (Z.eqb_neq n i)) by done. rewrite andb_true_r.
      destruct (decide (i < 64)); [by rewrite Z.ones_spec_low, andb_true_r by lia|].
      by rewrite (low_bits h 64) by (unfold uint in *; lia).
  - set (m := Z.ldiff _ _) in *. unfold uint.
    assert (Z.land h m = Z.land h m mod 2 ^ 64) as ->; [|by apply Z.mod_pos_bound].
    rewrite <- Z.land_ones by done. apply Z.bits_inj'. intros i Hi. rewrite !Z.land_spec.
    destruct (decide (i < 64)); [by rewrite Z.ones_spec_low, andb_true_r by lia|].
    by rewrite (low_bits h 64) by (unfold uint in *; lia).
Qed.

Lemma land_lor_zero h a b : (Z.land h (Z.lor a b) =? 0) = (Z.land h a =? 0) && (Z.land h b =? 0).
Proof.
  rewrite Z.land_lor_distr_r. destruct (Z.eqb_spec (Z.lor (Z.land h a) (Z.land h b)) 0) as [E|E].
  - apply Z.lor_eq_0_iff in E as [-> ->]. done.
  - symmetry. apply andb_false_iff. destruct (Z.eqb_spec (Z.land h a) 0) as [Ea|]; [|by left].
    right. apply Z.eqb_neq. intros Eb. apply E. by rewrite Ea, Eb.
Qed.

(** The handle of key [k] with tag bit [n]; the bits [others] are not set. *)
Definition tagged (n : Z) (others : list Z) (h k : Z) : Prop :=
  h = Z.lor k (Z.shiftl 1 n) /\ u64 k /\ k <> 0 /\ Forall (fun i => Z.testbit k i = false) (n :: others).

Lemma tagged_iff n others h k :
  0 <= n < 64 -> Forall (fun i => 0 <= i < 64 /\ i <> n) others -> u64 h ->
  tagged n others h k <->
  Z.testbit h n = true /\ Forall (fun i => Z.testbit h i = false) others /\
  h <> Z.shiftl 1 n /\ k = without h (Z.shiftl 1 n).
Proof.
  intros Hn Ho Hh. split.
  - intros (-> & Hk & Hz & [Hc Hf]%Forall_cons). split_and!.
    + by rewrite tag_bits, bool_decide_true, orb_true_r by lia.
    + rewrite Forall_forall in *. intros i Hi. specialize (Ho i Hi).
      rewrite tag_bits, bool_decide_false, orb_false_r by lia. by apply Hf.
    + intros E. apply Hz. rewrite <- (tag_without k n), E by done. unfold without.
      rewrite bit_not_ldiff; [|lia|rewrite <- E; done].
      apply Z.bits_inj'. intros i Hi. rewrite Z.land_spec, Z.ldiff_spec, Z.bits_0.
      destruct (Z.testbit (Z.shiftl 1 n) i); by rewrite ?andb_false_r.
    + by rewrite tag_without.
  - intros (Hb & Hf & Hne & ->). destruct (without_tag h n) as (Eh & Hc & Hu); [done..|].
    split_and!; [done|done|intros E|].
    + apply Hne. by rewrite Eh, E, Z.lor_0_l.
    + apply Forall_cons. split; [done|]. rewrite Forall_forall in *. intros i Hi.
      specialize (Ho i Hi). specialize (Hf i Hi). rewrite Eh, tag_bits in Hf by lia.
      by apply orb_false_iff in Hf as [].
Qed.

(** The numbers each kind of handle accepts. *)
Lemma directory_key_iff h k : u64 h ->
  DirectoryHandle.table_key h = Ok k <-> tagged 62 [] h k.
Proof.
  intros Hh. rewrite tagged_iff by (done || constructor).
  unfold DirectoryHandle.table_key, DIRECTORY_HANDLE_FLAG. rewrite land_flag by done.
  destruct (Z.testbit h 62); cbn [negb orb]; [|naive_solver].
  destruct (Z.eqb_spec h (Z.shiftl 1 62)); [naive_solver|].
  split; [intros [= <-]|intros (_ & _ & _ & ->)]; done.
Qed.

Lemma writable_key_iff h k : u64 h ->
  WritableHandle.table_key h = Ok k <-> tagged 61 [62] h k.
Proof.
  intros Hh. rewrite tagged_iff by (done || by repeat constructor).
  unfold WritableHandle.table_key, DIRECTORY_HANDLE_FLAG, WRITABLE_HANDLE_FLAG.
  rewrite Forall_singleton, !land_flag by done.
  destruct (Z.testbit h 61), (Z.testbit h 62); cbn [negb orb]; [naive_solver| |naive_solver..].
  destruct (Z.eqb_spec h (Z.shiftl 1 61)); [naive_solver|].
  split; [intros [= <-]|intros (_ & _ & _ & ->)]; done.
Qed.

Lemma random_key_iff h k : u64 h ->
  RandomHandle.table_key h = Ok k <-> tagged 60 [61; 62; 63] h k.
Proof.
  intros Hh. rewrite tagged_iff by (done || by repeat constructor).
  unfold RandomHandle.table_key, DIRECTORY_HANDLE_FLAG, WRITABLE_HANDLE_FLAG, RANDOM_HANDLE_FLAG.
  rewrite !Forall_cons, !land_lor_zero, !land_flag by done.
  destruct (Z.testbit h 60), (Z.testbit h 61), (Z.testbit h 62), (Z.testbit h 63); cbn [negb orb andb];
    try naive_solver.
  destruct (Z.eqb_spec h (Z.shiftl 1 60)); [naive_solver|].
  split; [intros [= <-]|intros (_ & _ & _ & ->)]; done.
Qed.

Lemma tag_value id n : 0 <= n -> 0 <= id < 2 ^ n -> Z.lor id (Z.shiftl 1 n) = id + 2 ^ n.
Proof. intros. rewrite Z.lor_comm, lor_shiftl_add by done. lia. Qed.

(** A key in the range of the counter, with a tag that the kind accepts. *)
Lemma tagged_small id n m others : 0 < id < 2 ^ 60 -> 60 <= n < 64 -> 60 <= m ->
  Forall (fun i => 60 <= i) others ->
  tagged m others (Z.lor id (Z.shiftl 1 n)) id <-> m = n.
Proof.
  intros Hid Hn Hm Ho. split; [|intros ->].
  - intros (E & _). apply (f_equal (fun z => Z.testbit z m)) in E.
    rewrite !tag_bits, (low_bits id 60 m) in E by lia. cbn [orb] in E.
    rewrite (bool_decide_true (m = m)) in E by done. by apply bool_decide_eq_true in E.
  - split_and!; [done|unfold uint; lia|lia|]. apply Forall_cons. split; [apply (low_bits _ 60); lia|].
    eapply Forall_impl; [exact Ho|]. cbn. intros i Hi. apply (low_bits _ 60); lia.
Qed.

(** ** Tables *)

(** The table is not poisoned, and another entry fits. *)
Definition table_wf {A} (t : HandleTable.t A) : Prop :=
  u64 (HandleTable.next t) /\ Mutex.poisoned (HandleTable.entries t) = false /\
  map_Forall (fun h _ => uint 64 h /\ h <> 0) (Mutex.value (HandleTable.entries t)) /\
  Z.of_nat (size (Mutex.value (HandleTable.entries t))) + 2 <= 2 ^ 64.

Definition numbers (next : Z) (n : nat) : list Z := (fun k => (next + Z.of_nat k) mod 2 ^ 64) <$> seq 0 n.

Lemma numbers_distinct next n : Z.of_nat n <= 2 ^ 64 -> NoDup (numbers next n).
Proof.
  intros Hn. apply NoDup_fmap_2_strong; [|apply NoDup_seq].
  intros a b [_ Ha]%elem_of_seq [_ Hb]%elem_of_seq E.
  assert ((Z.of_nat a - Z.of_nat b) mod 2 ^ 64 = 0) as E0.
  { replace (Z.of_nat a - Z.of_nat b) with ((next + Z.of_nat a) - (next + Z.of_nat b)) by lia.
    by rewrite Zminus_mod, E, Z.sub_diag. }
  apply Z.mod_divide in E0 as [q Hq]; [|done]. nia.
Qed.

Lemma numbers_S next n : 0 <= next < 2 ^ 64 ->
  numbers next (S n) = next :: numbers ((next + 1) mod 2 ^ 64) n.
Proof.
  intros Hn. unfold numbers. cbn [seq fmap list_fmap]. f_equal; [rewrite Z.mod_small; lia|].
  rewrite <- fmap_S_seq, <- list_fmap_compose. apply list_fmap_ext. intros _ k _. cbn [compose].
  rewrite Zplus_mod_idemp_l. f_equal. lia.
Qed.

(** Among more numbers than are taken there is one to take. *)
Lemma number_free (taken : gset Z) next n : Z.of_nat n <= 2 ^ 64 -> (size taken < n)%nat ->
  exists x, x ∈ numbers next n /\ x ∉ taken.
Proof.
  intros Hn Hsize. destruct (decide (Exists (fun x => x ∉ taken) (numbers next n))) as [Hex|Hno].
  { by apply Exists_exists in Hex. }
  exfalso. apply not_Exists_Forall in Hno; [|solve_decision].
  assert (list_to_set (numbers next n) ⊆ taken) as Hsub.
  { intros x Hx%elem_of_list_to_set. rewrite Forall_forall in Hno. by apply dec_stable, Hno. }
  apply subseteq_size in Hsub. rewrite size_list_to_set in Hsub by by apply numbers_distinct.
  unfold numbers in Hsub. rewrite length_fmap, length_seq in Hsub. lia.
Qed.

(** The loop takes the first number that is neither zero nor in the table. *)
Lemma insert_loop_fresh {A} (value : A) fuel : forall next entries x, 0 <= next < 2 ^ 64 ->
  x ∈ numbers next fuel -> x <> 0 -> entries !! x = None ->
  exists raw next', HandleTable.insert_loop fuel next entries value
                    = (Ok raw, (next', <[raw := value]> entries)) /\
    u64 raw /\ raw <> 0 /\ entries !! raw = None /\ u64 next' /\
    (next <> 0 -> entries !! next = None -> raw = next).
Proof.
  induction fuel as [|fuel IH]; intros next entries x Hn Hx Hx0 Hxe; [by apply not_elem_of_nil in Hx|].
  rewrite numbers_S in Hx by done. cbn [HandleTable.insert_loop]. unfold wrapping_add.
  pose proof (Z.mod_pos_bound (next + 1) (2 ^ 64) ltac:(done)) as Hb.
  assert (x <> next -> exists raw next', HandleTable.insert_loop fuel ((next + 1) mod 2 ^ 64) entries value
                    = (Ok raw, (next', <[raw := value]> entries)) /\
    u64 raw /\ raw <> 0 /\ entries !! raw = None /\ u64 next' /\ True) as Hrest.
  { intros Hne. apply elem_of_cons in Hx as [|Hx]; [done|].
    destruct (IH _ _ _ Hb Hx Hx0 Hxe) as (raw & next' & -> & ? & ? & ? & ? & _). by exists raw, next'. }
  destruct (Z.eqb_spec next 0) as [E|E].
  { destruct Hrest as (raw & next' & -> & ? & ? & ? & ? & _); [congruence|]. by exists raw, next'. }
  destruct (entries !! next) as [v|] eqn:El.
  { destruct Hrest as (raw & next' & -> & ? & ? & ? & ? & _); [congruence|]. by exists raw, next'. }
  exists next, ((next + 1) mod 2 ^ 64). split_and!; done.
Qed.

Lemma insert_runs {A} (t : HandleTable.t A) value : table_wf t ->
  exists raw next', HandleTable.insert value t
    = (Ok raw, HandleTable.mk next' (Mutex.mk false (<[raw := value]> (Mutex.value (HandleTable.entries t))))) /\
  u64 raw /\ raw <> 0 /\ Mutex.value (HandleTable.entries t) !! raw = None /\ u64 next' /\
  (HandleTable.next t <> 0 -> Mutex.value (HandleTable.entries t) !! HandleTable.next t = None ->
   raw = HandleTable.next t).
Proof.
  destruct t as [next [p entries]]. intros (Hn & Hp & Hk & Hs). cbn in *. subst p.
  destruct (number_free ({[0]} ∪ dom entries) next (size entries + 2)) as (x & Hx & Hfree).
  { lia. }
  { rewrite size_union_alt, size_singleton.
    enough (size (dom entries ∖ {[0%Z]}) <= size (dom entries))%nat by (pose proof (size_dom (D:=gset Z) entries); lia).
    apply subseteq_size. set_solver. }
  apply not_elem_of_union in Hfree as [H0%not_elem_of_singleton He%not_elem_of_dom].
  destruct (insert_loop_fresh value _ _ _ _ Hn Hx H0 He) as (raw & next' & E & Hrest).
  exists raw, next'. unfold HandleTable.insert, lock. cbn [HandleTable.entries HandleTable.next Mutex.poisoned Mutex.value].
  rewrite E. split; [done|]. exact Hrest.
Qed.

(** ** The directory payload *)

Definition listed_bytes (e : DirectoryMetadataEntry.t) : bytes :=
  le_bytes 4 (len (as_bytes (DirectoryMetadataEntry.name e))) ++ as_bytes (DirectoryMetadataEntry.name e)
  ++ le_bytes 4 (DirectoryMetadataEntry.file_attributes e) ++ le_bytes 8 (DirectoryMetadataEntry.end_of_file e)
  ++ le_bytes 8 (DirectoryMetadataEntry.creation_time e)
  ++ le_bytes 8 (DirectoryMetadataEntry.last_write_time e).

Definition listing_bytes (entries : list DirectoryMetadataEntry.t) : bytes :=
  XFL1 ++ le_bytes 4 (len entries) ++ mjoin (listed_bytes <$> entries).

Lemma mjoin_nil {A} : mjoin (@nil (list A)) = [].
Proof. done. Qed.
Lemma mjoin_cons {A} (l : list A) ls : mjoin (l :: ls) = l ++ mjoin ls.
Proof. done. Qed.

Lemma len_listed_bytes e : len (listed_bytes e) = 32 + len (as_bytes (DirectoryMetadataEntry.name e)).
Proof. unfold listed_bytes. len_lia. Qed.

Lemma listed_count entries : 32 * len entries <= len (mjoin (listed_bytes <$> entries)).
Proof.
  induction entries as [|e entries IH]; [done|]. rewrite fmap_cons, mjoin_cons.
  rewrite len_app, len_cons, len_listed_bytes. pose proof (len_nonneg (as_bytes (DirectoryMetadataEntry.name e))).
  lia.
Qed.

Lemma push_entry_iff b e b' : push_entry b e = Ok b' <->
  b' = b ++ listed_bytes e /\ len b' <= MAX_DIRECTORY_RESULT_BYTES.
Proof.
  unfold push_entry, MAX_DIRECTORY_RESULT_BYTES. pose proof (len_nonneg b).
  set (n := len (as_bytes _)). assert (0 <= n) by apply len_nonneg.
  assert (len (b ++ listed_bytes e) = len b + 32 + n) as Hl by (rewrite len_app, len_listed_bytes; lia).
  unfold try_from, checked_add, usize_max, u32_max.
  destruct (Z.leb_spec n 4294967295) as [Hn|Hn]; cbn [ok_or obind].
  2:{ split; [done|]. intros [-> ?]. lia. }
  destruct (Z.leb_spec (4 + n) 18446744073709551615); [|lia]. cbn [mbind option_bind].
  destruct (Z.leb_spec (4 + n + 28) 18446744073709551615); [|lia]. cbn [mbind option_bind].
  destruct (Z.leb_spec (4 + n + 28 + len b) 18446744073709551615); cbn [ok_or obind].
  2:{ split; [done|]. intros [-> ?]. lia. }
  destruct (Z.ltb_spec (16 * 1024 * 1024) (4 + n + 28 + len b)).
  - split; [done|]. intros [-> ?]. lia.
  - split; [intros [= <-]|intros [-> _]; done]. split; [done|].
    change (len (b ++ listed_bytes e) <= 16 * 1024 * 1024). lia.
Qed.

Lemma push_entries_iff entries : forall b b', len b <= MAX_DIRECTORY_RESULT_BYTES ->
  push_entries b entries = Ok b' <->
  b' = b ++ mjoin (listed_bytes <$> entries) /\ len b' <= MAX_DIRECTORY_RESULT_BYTES.
Proof.
  induction entries as [|e entries IH]; intros b b' Hb; cbn [push_entries].
  { rewrite fmap_nil, mjoin_nil, app_nil_r. split; [by intros [= <-]|by intros [-> _]]. }
  rewrite fmap_cons, mjoin_cons, app_assoc. split.
  - intros (b1 & Hp%push_entry_iff & Hr)%obind_ok. destruct Hp as [-> Hl]. by apply IH in Hr.
  - intros [-> Hl]. apply obind_ok. exists (b ++ listed_bytes e).
    assert (len (b ++ listed_bytes e) <= MAX_DIRECTORY_RESULT_BYTES) by (rewrite len_app in Hl; len_lia).
    split; [by apply push_entry_iff|by apply IH].
Qed.

Lemma returns_push_entries entries : forall b, returns (push_entries b entries).
Proof.
  induction entries as [|e entries IH]; intros b; [done|]. cbn [push_entries].
  apply returns_bind; [|intros; apply IH]. unfold push_entry.
  apply returns_bind; [apply returns_ok_or|intros]. apply returns_bind; [apply returns_ok_or|intros].
  by case_match.
Qed.

Lemma encode_listing_iff entries b : encode_directory_metadata entries = Ok b <->
  b = listing_bytes entries /\ len b <= MAX_DIRECTORY_RESULT_BYTES.
Proof.
  unfold encode_directory_metadata, try_from, u32_max, MAX_DIRECTORY_RESULT_BYTES.
  pose proof (listed_count entries) as Hc. assert (len XFL1 = 4) as Hx by done.
  destruct (Z.leb_spec (len entries) 4294967295); cbn [ok_or obind].
  - rewrite push_entries_iff by (unfold MAX_DIRECTORY_RESULT_BYTES; len_lia).
    unfold listing_bytes, MAX_DIRECTORY_RESULT_BYTES. by rewrite <- app_assoc.
  - split; [done|]. intros [-> Hl]. unfold listing_bytes in Hl. rewrite !len_app in Hl. len_lia.
Qed.

Lemma returns_encode_listing entries : returns (encode_directory_metadata entries).
Proof.
  unfold encode_directory_metadata. apply returns_bind; [apply returns_ok_or|intros]. apply returns_push_entries.
Qed.

(** What a reader of the payload finds. *)
Module Listed.
Record t : Type := mk {
  name : bytes; file_attributes : Z; end_of_file : Z; creation_time : Z; last_write_time : Z
}.
End Listed.

Definition listed (e : DirectoryMetadataEntry.t) : Listed.t :=
  Listed.mk (as_bytes (DirectoryMetadataEntry.name e)) (DirectoryMetadataEntry.file_attributes e)
    (DirectoryMetadataEntry.end_of_file e) (DirectoryMetadataEntry.creation_time e)
    (DirectoryMetadataEntry.last_write_time e).

Fixpoint read_listed (n : nat) (b : bytes) : option (list Listed.t) :=
  match n with
  | O => if is_empty b then Some [] else None
  | S n =>
      let name := sub b 4 (le_at 4 b 0) in
      let rest := drop (Z.to_nat (4 + len name)) b in
      if len b <? 32 + le_at 4 b 0 then None else
      cons (Listed.mk name (le_at 4 rest 0) (le_at 8 rest 4) (le_at 8 rest 12) (le_at 8 rest 20))
        <$> read_listed n (drop 28 rest)
  end.

Definition read_listing (b : bytes) : option (list Listed.t) :=
  if bool_decide (take 4 b = XFL1) then read_listed (Z.to_nat (le_at 4 b 4)) (drop 8 b) else None.

(** The fields of an entry are within their widths. *)
Definition metadata_wf (e : DirectoryMetadataEntry.t) : Prop :=
  u32 (DirectoryMetadataEntry.file_attributes e) /\ u64 (DirectoryMetadataEntry.end_of_file e) /\
  u64 (DirectoryMetadataEntry.creation_time e) /\ u64 (DirectoryMetadataEntry.last_write_time e).

Lemma read_listed_step n e rest : metadata_wf e -> len (as_bytes (DirectoryMetadataEntry.name e)) <= u32_max ->
  read_listed (S n) (listed_bytes e ++ rest) = cons (listed e) <$> read_listed n rest.
Proof.
  intros (Ha & He & Hc & Hw) Hn. set (name := as_bytes (DirectoryMetadataEntry.name e)) in *.
  pose proof (len_nonneg name). pose proof (len_nonneg rest).
  assert (le_at 4 (listed_bytes e ++ rest) 0 = len name) as Hlen.
  { unfold listed_bytes. fold name. rewrite <- !app_assoc. apply (le_at_here _ _ _ 32); [done|].
    unfold uint, u32_max in *. lia. }
  cbn [read_listed]. rewrite Hlen, (proj2 (Z.ltb_ge _ _)) by (rewrite len_app, len_listed_bytes; fold name; lia).
  assert (sub (listed_bytes e ++ rest) 4 (len name) = name) as Hname.
  { unfold listed_bytes. fold name. rewrite <- !app_assoc, sub_app_r by (by rewrite len_le_bytes).
    rewrite len_le_bytes. by apply sub_app_here. }
  rewrite Hname.
  assert (drop (Z.to_nat (4 + len name)) (listed_bytes e ++ rest)
    = (le_bytes 4 (DirectoryMetadataEntry.file_attributes e) ++ le_bytes 8 (DirectoryMetadataEntry.end_of_file e)
       ++ le_bytes 8 (DirectoryMetadataEntry.creation_time e)
       ++ le_bytes 8 (DirectoryMetadataEntry.last_write_time e)) ++ rest) as ->.
  { unfold listed_bytes. fold name. rewrite app_assoc, <- (app_assoc (_ ++ name)).
    apply drop_app_here. by rewrite len_app, len_le_bytes. }
  rewrite (drop_app_length' _ rest 28) by done. rewrite <- !app_assoc.
  rewrite (le_at_here 4 _ _ 32) by done.
  rewrite (le_at_app_r 8 (le_bytes 4 _) _ 4), (le_at_app_r 8 (le_bytes 4 _) _ 12),
    (le_at_app_r 8 (le_bytes 4 _) _ 20) by done.
  change (4 - len _) with 0. change (12 - len _) with 8. change (20 - len _) with 16.
  rewrite (le_at_here 8 _ _ 64) by done.
  rewrite (le_at_app_r 8 (le_bytes 8 _) _ 8), (le_at_app_r 8 (le_bytes 8 _) _ 16) by done.
  change (8 - len _) with 0. change (16 - len _) with 8. rewrite (le_at_here 8 _ _ 64) by done.
  rewrite (le_at_app_r 8 (le_bytes 8 _) _ 8) by done. change (8 - len _) with 0.
  by rewrite (le_at_here 8 _ _ 64) by done.
Qed.

Lemma read_listed_all entries : Forall metadata_wf entries ->
  len (mjoin (listed_bytes <$> entries)) <= u32_max ->
  read_listed (length entries) (mjoin (listed_bytes <$> entries)) = Some (listed <$> entries).
Proof.
  induction 1 as [|e entries He _ IH]; intros Hl; [done|].
  rewrite fmap_cons, mjoin_cons in *. rewrite len_app, len_listed_bytes in Hl.
  pose proof (len_nonneg (mjoin (listed_bytes <$> entries))).
  pose proof (len_nonneg (as_bytes (DirectoryMetadataEntry.name e))).
  cbn [length]. rewrite read_listed_step by (done || lia). rewrite IH by lia. done.
Qed.

Lemma read_listing_ok entries : Forall metadata_wf entries ->
  len (listing_bytes entries) <= MAX_DIRECTORY_RESULT_BYTES ->
  read_listing (listing_bytes entries) = Some (listed <$> entries).
Proof.
  intros He Hl. unfold read_listing, listing_bytes, MAX_DIRECTORY_RESULT_BYTES in *.
  rewrite !len_app, len_le_bytes in Hl. pose proof (listed_count entries).
  assert (len XFL1 = 4) as Hx by done. rewrite Hx in Hl. pose proof (len_nonneg entries).
  rewrite bool_decide_true by done. rewrite le_at_app_r, Hx by (rewrite Hx; done).
  rewrite (le_at_here _ _ _ 32) by (done || unfold uint; lia). unfold len at 1. rewrite Nat2Z.id.
  rewrite app_assoc, (drop_app_length' (XFL1 ++ le_bytes 4 (len entries))) by done.
  apply read_listed_all; [done|]. unfold u32_max. lia.
Qed.

(** A name takes at most twice the bytes it had on the wire. *)
Lemma len_utf8_char c : len (utf8_char c) <= 2 * (2 * len (encode_char c)).
Proof.
  assert (forall l, len (mbind (le_bytes 1) l) = len l) as Hb.
  { induction l as [|x l IH]; [done|]. rewrite bind_cons, len_app, IH, len_cons. done. }
  unfold utf8_char. rewrite Hb. unfold encode_char. repeat case_match; rewrite ?len_cons, ?len_nil; lia.
Qed.

Lemma len_as_bytes s : len (as_bytes s) <= 2 * len (utf16_bytes s).
Proof.
  rewrite len_utf16_bytes. unfold as_bytes, encode_utf16.
  induction s as [|c s IH]; [done|]. rewrite !bind_cons, !len_app. pose proof (len_utf8_char c).
  cbn [mbind] in *. lia.
Qed.

(** The payload of a page of a server is at most twice the page. *)
Lemma listed_page_bounded b es : page metadata_block b es ->
  Forall metadata_wf es /\ len (mjoin (listed_bytes <$> es)) <= 2 * len b.
Proof.
  assert (forall b next e, metadata_block b next e ->
    metadata_wf e /\ len (listed_bytes e) <= 2 * len b) as Hblock.
  { intros b0 next e (_ & _ & Hc & Hw & He & _ & Hf & _ & _ & acc & chg & oth & pad & Ha & Hch & Ho & ->).
    split; [by split_and!; try done; unfold uint in *; lia|]. rewrite len_listed_bytes.
    pose proof (len_as_bytes (DirectoryMetadataEntry.name e)). unfold metadata_entry_bytes. len_lia. }
  induction 1 as [|b e Hb|b rest e es Hb _ _ _ [IH1 IH2]].
  - split; [constructor|done].
  - apply Hblock in Hb as [? ?]. split; [by constructor|].
    rewrite fmap_cons, fmap_nil, mjoin_cons, mjoin_nil, app_nil_r. done.
  - apply Hblock in Hb as [? ?]. split; [by constructor|].
    rewrite fmap_cons, mjoin_cons, !len_app. lia.
Qed.

Lemma encode_page_ok b es : page metadata_block b es -> len b <= DEFAULT_QUERY_BUFFER_SIZE ->
  encode_directory_metadata es = Ok (listing_bytes es) /\
  read_listing (listing_bytes es) = Some (listed <$> es).
Proof.
  intros [Hw Hl]%listed_page_bounded Hb. unfold DEFAULT_QUERY_BUFFER_SIZE in Hb.
  assert (len (listing_bytes es) <= MAX_DIRECTORY_RESULT_BYTES) as Hmax.
  { unfold listing_bytes, MAX_DIRECTORY_RESULT_BYTES. assert (len XFL1 = 4) by done. len_lia. }
  split; [by apply encode_listing_iff|by apply read_listing_ok].
Qed.

(** ** Paths *)

Lemma split_both p :
  split_on 47 ((fun c => if c =? 92 then 47 else c) <$> p) = split_on 92 (backslashes p).
Proof.
  unfold backslashes. induction p as [|x p IH]; [done|]. rewrite !fmap_cons. cbn [split_on].
  rewrite IH. destruct (Z.eqb_spec x 92) as [->|H92]; [done|].
  destruct (Z.eqb_spec x 47) as [->|H47]; [done|]. by rewrite !(proj2 (Z.eqb_neq x _)).
Qed.

Lemma path_components_iff ws : (exists cs, path_components ws = Ok cs) <->
  existsb (fun w => bool_decide (w = dot) || bool_decide (w = dot_dot)) ws = false.
Proof.
  unfold dot, dot_dot. induction ws as [|w ws IH]; cbn [path_components existsb]; [naive_solver|].
  destruct w as [|x w]; cbn [is_empty].
  { rewrite IH. by rewrite !bool_decide_false by done. }
  destruct (bool_decide (x :: w = [46]) || bool_decide (x :: w = [46; 46])); cbn [orb]; [naive_solver|].
  rewrite <- IH. split.
  - intros (cs & (cs' & Hc & _)%obind_ok). by exists cs'.
  - intros (cs & ->). by eexists.
Qed.

Lemma validated_paths p :
  validate_mutation_path p = Ok tt <-> exists q, normalize_mutation_path p = Ok q.
Proof.
  unfold validate_mutation_path, normalize_mutation_path. cbv zeta. rewrite split_both.
  destruct p as [|x p]; [split; [done|by intros [? ?]]|]. cbn [is_empty orb starts_with].
  destruct (x =? 92) eqn:E92; [split; [done|by intros [? ?]]|].
  destruct (x =? 47) eqn:E47; [split; [done|by intros [? ?]]|].
  destruct (contains 0 (x :: p)); [split; [done|by intros [? ?]]|]. cbn [orb].
  pose proof (path_components_iff (split_on 92 (backslashes (x :: p)))) as Hc.
  destruct (existsb _ _) eqn:Hex.
  - split; [done|]. intros (q & (cs & Hcs & _)%obind_ok). assert (true = false) by (apply Hc; eauto). done.
  - split; [intros _|done]. destruct (proj2 Hc eq_refl) as (cs & Hcs). rewrite Hcs. cbn [obind].
    destruct cs as [|c cs]; [|by eexists]. exfalso. revert Hcs. clear Hex Hc.
    unfold backslashes. rewrite fmap_cons, E47. cbn [split_on]. rewrite E92.
    destruct (split_on 92 _) as [|w ws]; cbn [path_components is_empty];
      (destruct (_ || _); [done|]); by intros (? & _ & [=])%obind_ok.
Qed.

(** ** Properties *)

(** C20: a handle table gives out fresh numbers and forgets none. However far the
    counter has come, also after it wrapped, inserting into a table that is not
    poisoned takes a number that is not zero and not in use, in as many steps as
    the table has entries; the next number of the counter, if that is free. Then
    the number finds exactly what was inserted, every other number finds what it
    found before, and once it is removed nobody finds it again. *)
Theorem handle_table_sound {A} (t : HandleTable.t A) (value : A) (Hwf : table_wf t) :
  exists raw t', HandleTable.insert value t = (Ok raw, t') /\
    u64 raw /\ raw <> 0 /\ HandleTable.get t raw = Err (InvalidHandle raw) /\
    HandleTable.get t' raw = Ok value /\
    (forall h, h <> raw -> HandleTable.get t' h = HandleTable.get t h) /\
    (HandleTable.next t <> 0 -> HandleTable.get t (HandleTable.next t) = Err (InvalidHandle (HandleTable.next t)) ->
     raw = HandleTable.next t) /\
    exists t'', HandleTable.remove raw t' = (Ok value, t'') /\ table_wf t'' /\
      HandleTable.get t'' raw = Err (InvalidHandle raw) /\
      (forall h, h <> raw -> HandleTable.get t'' h = HandleTable.get t h).
Proof.
  destruct (insert_runs t value Hwf) as (raw & next' & E & Hr & H0 & Hfree & Hn & Hnext).
  destruct t as [next [p entries]], Hwf as (_ & Hp & Hk & Hs). cbn in *. subst p.
  exists raw. eexists. split; [exact E|]. unfold HandleTable.get, HandleTable.remove, lock. cbn.
  rewrite Hfree, lookup_insert_eq. cbn. split_and!; [done..| | |].
  - intros h Hh. by rewrite lookup_insert_ne.
  - intros Hnz Hg. apply Hnext; [done|]. by destruct (entries !! next).
  - eexists. split; [reflexivity|]. cbn. rewrite delete_insert_id by done. rewrite Hfree.
    split_and!; done.
Qed.

Lemma handle_table_sound_witness :
  exists t' : HandleTable.t Z, HandleTable.get t' 2 = Ok 7.
Proof.
  destruct (handle_table_sound (HandleTable.mk 1 (Mutex.mk false {[ 1 := 5 ]})) 7)
    as (raw & t' & E & _ & _ & _ & Hg & _).
  { split_and!; [done|done| |by vm_compute]. by apply map_Forall_singleton. }
  exists t'. assert (raw = 2) as <-; [|exact Hg].
  vm_compute in E. by injection E.
Defined.

(** C19: the kinds of handles do not mix. The numbers of directories, of
    writable and of random-access files are those of their tables with the tag
    bit of the kind, and each kind accepts exactly these: so, for any number, at
    most one kind accepts it, an untagged one is refused by all, and a key comes
    back from its handle. As long as a counter is below 2^60 the handles are
    positive as a Java [long]. *)
Theorem handle_kinds_sound (h k : Z) (Hh : u64 h) :
  (DirectoryHandle.table_key h = Ok k <-> tagged 62 [] h k) /\
  (WritableHandle.table_key h = Ok k <-> tagged 61 [62] h k) /\
  (RandomHandle.table_key h = Ok k <-> tagged 60 [61; 62; 63] h k) /\
  ((if is_ok (DirectoryHandle.table_key h) then 1 else 0) + (if is_ok (WritableHandle.table_key h) then 1 else 0)
   + (if is_ok (RandomHandle.table_key h) then 1 else 0) <= (if h <? 2 ^ 60 then 0 else 1)) /\
  (0 < k < 2 ^ 60 ->
    DirectoryHandle.table_key (DirectoryHandle.from_id k) = Ok k /\
    WritableHandle.table_key (WritableHandle.from_id k) = Ok k /\
    RandomHandle.table_key (RandomHandle.from_id k) = Ok k /\
    k < RandomHandle.from_id k < WritableHandle.from_id k /\
    WritableHandle.from_id k < DirectoryHandle.from_id k < 2 ^ 63).
Proof.
  split; [by apply directory_key_iff|]. split; [by apply writable_key_iff|].
  split; [by apply random_key_iff|]. split.
  - unfold DirectoryHandle.table_key, WritableHandle.table_key, RandomHandle.table_key,
      DIRECTORY_HANDLE_FLAG, WRITABLE_HANDLE_FLAG, RANDOM_HANDLE_FLAG.
    rewrite !land_lor_zero, !land_flag by done. destruct (Z.ltb_spec h (2 ^ 60)) as [Hlt|Hge].
    + rewrite !(low_bits h 60) by (unfold uint in Hh; lia). done.
    + destruct (Z.testbit h 62), (Z.testbit h 61), (Z.testbit h 60); cbn [negb orb andb is_ok];
        repeat case_match; done.
  - intros Hk. unfold DirectoryHandle.from_id, WritableHandle.from_id, RandomHandle.from_id,
      DIRECTORY_HANDLE_FLAG, WRITABLE_HANDLE_FLAG, RANDOM_HANDLE_FLAG.
    assert (forall n, 60 <= n < 64 -> Z.lor k (Z.shiftl 1 n) = k + 2 ^ n /\ 2 ^ 60 <= 2 ^ n <= 2 ^ 63) as Hv.
    { intros n Hn. assert (2 ^ 60 <= 2 ^ n) by (apply Z.pow_le_mono_r; lia).
      assert (2 ^ n <= 2 ^ 63) by (apply Z.pow_le_mono_r; lia). split; [apply tag_value; lia|lia]. }
    assert (forall n, 60 <= n < 64 -> u64 (Z.lor k (Z.shiftl 1 n))) as Hu.
    { intros n Hn. destruct (Hv n Hn) as [-> ?]. unfold uint. lia. }
    split_and!.
    + apply directory_key_iff; [by apply Hu|]. apply tagged_small; [lia..|constructor|done].
    + apply writable_key_iff; [by apply Hu|]. apply tagged_small; [lia..|by repeat constructor|done].
    + apply random_key_iff; [by apply Hu|]. apply tagged_small; [lia..|by repeat constructor|done].
    + rewrite tag_value; lia.
    + rewrite !tag_value; lia.
    + rewrite !tag_value; lia.
    + rewrite !tag_value; lia.
Qed.

Lemma handle_kinds_sound_witness :
  u64 (2 ^ 61 + 5) /\ WritableHandle.table_key (WritableHandle.from_id 5) = Ok 5.
Proof.
  split; [done|]. apply (handle_kinds_sound (2 ^ 61 + 5) 5); done.
Defined.

(** C21: a directory payload is whole or refused. The encoder returns for every
    list of entries, without panicking; it succeeds exactly when the whole
    payload (magic, count, and every entry behind the one before) fits in the
    maximum, and then a reader of the payload finds every entry in order, with
    its name, attributes, size and times; and what a server puts in one page
    always fits. *)
Theorem directory_payload_roundtrip (entries : list DirectoryMetadataEntry.t)
    (Hwf : Forall metadata_wf entries) :
  returns (encode_directory_metadata entries) /\
  (forall b, encode_directory_metadata entries = Ok b <->
     b = listing_bytes entries /\ len b <= MAX_DIRECTORY_RESULT_BYTES) /\
  (forall b, encode_directory_metadata entries = Ok b -> read_listing b = Some (listed <$> entries)) /\
  (forall buffer, page metadata_block buffer entries -> len buffer <= DEFAULT_QUERY_BUFFER_SIZE ->
     encode_directory_metadata entries = Ok (listing_bytes entries)).
Proof.
  split_and!.
  - apply returns_encode_listing.
  - apply encode_listing_iff.
  - intros b [-> Hl]%encode_listing_iff. by apply read_listing_ok.
  - intros buffer Hp Hl. by apply (encode_page_ok buffer).
Qed.

Lemma directory_payload_roundtrip_witness :
  exists b, encode_directory_metadata [sample_metadata] = Ok b /\
    read_listing b = Some [Listed.mk [x61; x62] 32 1000 10 20].
Proof.
  assert (Forall metadata_wf [sample_metadata]) as Hwf by (constructor; [split_and!; done|constructor]).
  exists (listing_bytes [sample_metadata]). split.
  - apply (directory_payload_roundtrip _ Hwf). vm_compute. split; [reflexivity|discriminate].
  - apply (directory_payload_roundtrip _ Hwf). apply (directory_payload_roundtrip _ Hwf).
    vm_compute. split; [reflexivity|discriminate].
Defined.
