(* ===== verification/Engine.v ===== *)
(** * The Android engine: operations

    [crates/smb-android/src/engine.rs]: the methods of [AndroidEngine], each on
    the tables of open handles and on the world in which new sessions connect.
    What runs while a mutex is held is a computation on what the mutex guards,
    from which the concurrent model is made, too. The runtime of the engine runs
    a future to its end ([block_on]); the runner of a broker is spawned on it, so
    its replies are arguments of the calls that wait for them. *)
From S2P Require Import Prelude WireError Utf16 Frame Header Create CreateContext Durable.
From S2P Require Import Client Effects Credits MessageIds AsyncResponse Transport Signing Connection.
From S2P Require Import Auth Session Exchange Tree Files Write Read PipelinedRead Cancellation.
From S2P Require Import QueryOps SetInfoOps Ntlm CancelRead Reconnect RecoveringRead VideoReader Broker.
From S2P Require Import FsQuery FsMutation EngineTypes.

Definition MAX_JNI_WRITE_BYTES : Z := 1024 * 1024.
Definition DIRECTORY_QUERY_BUFFER_BYTES : Z := 65535.

Inductive FileMutation : Type :=
  | Mkdir
  | CreateFile
  | Rename (destination : rust_string)
  | DeleteFile.

(** ** Sessions behind handles *)

Module VideoSession.
Record t : Type := mk { broker : Shared.t; file_len : Z }.
End VideoSession.

Module DirectorySession.
Record t (T : Type) : Type := mk {
  session : SessionConnection.t T; directory : FileHandle.t; tree : TreeHandle.t;
  root_path : rust_string; exhausted : bool
}.
End DirectorySession.
Arguments DirectorySession.mk {T}.
Arguments DirectorySession.session {T}.
Arguments DirectorySession.directory {T}.
Arguments DirectorySession.tree {T}.
Arguments DirectorySession.root_path {T}.
Arguments DirectorySession.exhausted {T}.

(** [WritableSession] and [RandomSession] have the same fields. *)
Module OpenFile.
Record t (T : Type) : Type := mk {
  session : SessionConnection.t T; file : FileHandle.t; poisoned : bool
}.
End OpenFile.
Arguments OpenFile.mk {T}.
Arguments OpenFile.session {T}.
Arguments OpenFile.file {T}.
Arguments OpenFile.poisoned {T}.

Module RandomEntry.
Record t (T : Type) : Type := mk { closing : bool; state : Mutex.t (OpenFile.t T) }.
End RandomEntry.
Arguments RandomEntry.mk {T}.
Arguments RandomEntry.closing {T}.
Arguments RandomEntry.state {T}.

(** Code under a lock: the guard is dropped at the end, and a panic poisons. *)
Definition with_lock {A X} (body : est AndroidBridgeError A X) : est AndroidBridgeError (Mutex.t A) X :=
  fun mutex =>
    match lock mutex with
    | Ok a =>
        let '(r, a) := body a in
        (r, Mutex.mk (match r with Panic => true | _ => Mutex.poisoned mutex end) a)
    | Err e => (Err e, mutex)
    | Panic => (Panic, mutex)
    | OutOfFuel => (OutOfFuel, mutex)
    end.

(** The entry of a handle, changed in place. *)
Definition with_entry {A X} (key : Z) (body : est AndroidBridgeError A X) :
    est AndroidBridgeError (HandleTable.t A) X := fun table =>
  match HandleTable.get table key with
  | Ok a => let '(r, a) := body a in (r, HandleTable.update table key a)
  | Err e => (Err e, table)
  | Panic => (Panic, table)
  | OutOfFuel => (OutOfFuel, table)
  end.

(** An entry taken out of the table, for its last use. *)
Definition with_removed {A X} (key : Z) (body : est AndroidBridgeError A X) :
    est AndroidBridgeError (HandleTable.t A) X :=
  rec! entry := HandleTable.remove key in elift (body entry).1.

(** ** Under the lock *)

Section sessions.
Context {T : Type} `{Transport T} `{Crypto}.
#[local] Abbreviation session := (SessionConnection.t T).

(** [session.op(..).await?] of a session, of a directory and of a file. *)
Definition on_session {A} (m : st session A) : est AndroidBridgeError session A :=
  client_on BridgeClient id (fun _ s => s) m.

Definition set_session (d : DirectorySession.t T) (s : session) : DirectorySession.t T :=
  DirectorySession.mk s (DirectorySession.directory d) (DirectorySession.tree d)
    (DirectorySession.root_path d) (DirectorySession.exhausted d).
Definition set_exhausted (d : DirectorySession.t T) : DirectorySession.t T :=
  DirectorySession.mk (DirectorySession.session d) (DirectorySession.directory d)
    (DirectorySession.tree d) (DirectorySession.root_path d) true.
Definition in_directory {A} (m : est AndroidBridgeError session A) :
    est AndroidBridgeError (DirectorySession.t T) A := fun d =>
  let '(r, s) := m (DirectorySession.session d) in (r, set_session d s).

Definition directory_query : QueryDirectoryOptions.t :=
  QueryDirectoryOptions.new FILE_ID_FULL_DIRECTORY_INFORMATION_CLASS any_name
    DIRECTORY_QUERY_BUFFER_BYTES.

(** [?] of an error of smb-fs. *)
Definition from_query {A} (m : outcome FsQueryError A) : bridge A := omap_err BridgeQuery m.

Definition read_page : est AndroidBridgeError (DirectorySession.t T) bytes :=
  rec! state := eget id in
  if DirectorySession.exhausted state then elift (encode_directory_metadata []) else
  rec! buffer := in_directory
    (on_session (query_directory (DirectorySession.directory state) directory_query)) in
  if is_empty buffer then
    rec! _ := emodify set_exhausted in
    elift (encode_directory_metadata [])
  else
    rec! entries := elift (from_query (decode_file_id_full_directory_metadata buffer)) in
    elift (encode_directory_metadata entries).

Definition capacity : est AndroidBridgeError (DirectorySession.t T) bytes :=
  rec! state := eget id in
  rec! raw := in_directory
    (on_session (query_info (DirectorySession.directory state) (QueryInfoOptions.filesystem 0x07 32))) in
  rec! info := elift (from_query (FileFsFullSizeInformation.decode raw)) in
  rec! sizes := elift (from_query (FileFsFullSizeInformation.capacity_bytes info)) in
  let '(total, caller_free) := sizes in
  eret (encode_capacity_bytes total caller_free).

(** The loop over the pages of one directory: what is to be visited, and the
    sum. *)
Fixpoint size_pages (pages : nat) (directory : FileHandle.t) (path : rust_string)
    (pending : list rust_string) (total : Z) : est AndroidBridgeError session (list rust_string * Z) :=
  match pages with
  | O => fun s => (OutOfFuel, s)
  | S pages =>
      rec! buffer := on_session (query_directory directory directory_query) in
      if is_empty buffer then eret (pending, total) else
      rec! entries := elift (from_query (decode_file_id_full_directory_metadata buffer)) in
      let '(pending, total) := accumulate_directory_entries entries path pending total in
      size_pages pages directory path pending total
  end.

(** One turn of the loop over the directories: the directory is closed also
    when a page failed. *)
Definition size_visit (pages : nat) (tree : TreeHandle.t) (path : rust_string)
    (pending : list rust_string) (total : Z) : est AndroidBridgeError session (list rust_string * Z) :=
  rec! directory := on_session (open_file tree path FileOpenOptions.read_existing_directory) in
  rec! result := caught (size_pages pages directory path pending total) in
  rec! closed := caught (on_session (close_file directory CloseOptions.default)) in
  match result, closed with
  | inl error, _ => efail error
  | inr _, inl error => efail error
  | inr found, inr _ => eret found
  end.

(** [while let Some(path) = pending.pop()]: [visits] bounds the directories
    visited, for the server may show a new one in each. *)
Fixpoint size_loop (visits pages : nat) (tree : TreeHandle.t) (pending : list rust_string) (total : Z) :
    est AndroidBridgeError session Z :=
  match pending with
  | [] => eret (as_i64 total)
  | path :: pending =>
      match visits with
      | O => fun s => (OutOfFuel, s)
      | S visits =>
          rec! found := size_visit pages tree path pending total in
          let '(pending, total) := found in
          size_loop visits pages tree pending total
      end
  end.

Definition size_tree (visits pages : nat) : est AndroidBridgeError (DirectorySession.t T) Z :=
  rec! state := eget id in
  in_directory
    (size_loop visits pages (DirectorySession.tree state) [DirectorySession.root_path state] 0).

Definition close_directory_session : est AndroidBridgeError (DirectorySession.t T) unit :=
  rec! directory := eget DirectorySession.directory in
  rec! _ := in_directory (on_session (close_file directory CloseOptions.default)) in eret tt.

(** *** Files *)

Definition set_open (f : OpenFile.t T) (s : session) : OpenFile.t T :=
  OpenFile.mk s (OpenFile.file f) (OpenFile.poisoned f).
Definition poison (f : OpenFile.t T) : OpenFile.t T :=
  OpenFile.mk (OpenFile.session f) (OpenFile.file f) true.
Definition record_len (length : Z) (f : OpenFile.t T) : OpenFile.t T :=
  OpenFile.mk (OpenFile.session f) (FileHandle.record_confirmed_len (OpenFile.file f) length)
    (OpenFile.poisoned f).

(** [match block_on(session.op(file, ..)) { Ok(a) => k(a), Err(error) => .. }]:
    an error poisons the handle. *)
Definition file_op {A X} (op : FileHandle.t -> st session A)
    (k : A -> est AndroidBridgeError (OpenFile.t T) X) : est AndroidBridgeError (OpenFile.t T) X :=
  rec! file := eget OpenFile.file in
  rec! result := attempt OpenFile.session set_open (op file) in
  match result with
  | inr a => k a
  | inl error => rec! _ := emodify poison in efail (BridgeClient error)
  end.

(** The refusal of a handle that failed. *)
Definition unless_poisoned {X} (message : string) (m : est AndroidBridgeError (OpenFile.t T) X) :
    est AndroidBridgeError (OpenFile.t T) X :=
  rec! poisoned := eget OpenFile.poisoned in
  if poisoned then efail (InternalState message) else m.

Definition write_writable (patience : nat) (offset : Z) (data : bytes) :
    est AndroidBridgeError (OpenFile.t T) Z :=
  unless_poisoned "writable SMB handle cannot be used after a failed operation"
    (if is_empty data then eret 0 else
     file_op (fun file => write_at patience file offset data) eret).

Definition flush_open (patience : nat) (message : string) : est AndroidBridgeError (OpenFile.t T) unit :=
  unless_poisoned message (file_op (flush_file patience) eret).

Definition close_open : est AndroidBridgeError (OpenFile.t T) unit :=
  rec! file := eget OpenFile.file in
  rec! _ := client_on BridgeClient OpenFile.session set_open (close_file file CloseOptions.default) in
  eret tt.

Definition random_refused : string := "random-access SMB handle is closed or failed".

Definition read_random (patience : nat) (offset length : Z) : est AndroidBridgeError (OpenFile.t T) bytes :=
  unless_poisoned random_refused
    (if length =? 0 then eret [] else file_op (fun file => read_at patience file offset length) eret).

Definition write_random (patience : nat) (offset : Z) (data : bytes) (end_ : Z) :
    est AndroidBridgeError (OpenFile.t T) Z :=
  unless_poisoned random_refused
    (if is_empty data then eret 0 else
     file_op (fun file => write_at patience file offset data) (fun count =>
       if count =? len data then
         rec! file := eget OpenFile.file in
         rec! _ := emodify (record_len (Z.max (FileHandle.length_ file) end_)) in
         eret count
       else
         rec! _ := emodify poison in efail (InternalState "short random-access SMB WRITE"))).

Definition set_length_random (patience : nat) (length : Z) : est AndroidBridgeError (OpenFile.t T) unit :=
  unless_poisoned random_refused
    (file_op (fun file => set_end_of_file patience file length)
       (fun _ => emodify (record_len length))).

Definition flush_random (patience : nat) : est AndroidBridgeError (OpenFile.t T) unit :=
  flush_open patience random_refused.

(** The state of a random-access file, unless the handle is being closed. *)
Definition unless_closing {X} (body : est AndroidBridgeError (OpenFile.t T) X) :
    est AndroidBridgeError (RandomEntry.t T) X := fun entry =>
  let '(r, state) :=
    with_lock (if RandomEntry.closing entry then efail (InternalState random_refused) else body)
      (RandomEntry.state entry) in
  (r, RandomEntry.mk (RandomEntry.closing entry) state).

Definition close_random_entry : est AndroidBridgeError (RandomEntry.t T) unit := fun entry =>
  let '(r, state) := with_lock close_open (RandomEntry.state entry) in (r, RandomEntry.mk true state).

End sessions.

(** ** The engine *)

Module AndroidEngine.
Record t (T : Type) : Type := mk {
  videos : HandleTable.t VideoSession.t;
  directories : HandleTable.t (Mutex.t (DirectorySession.t T));
  writers : HandleTable.t (Mutex.t (OpenFile.t T));
  randoms : HandleTable.t (RandomEntry.t T);
  max_read_bytes : Z;
  reconnect_policy : ReadReconnectPolicy.t
}.
Arguments mk {T}.
Arguments videos {T}.
Arguments directories {T}.
Arguments writers {T}.
Arguments randoms {T}.
Arguments max_read_bytes {T}.
Arguments reconnect_policy {T}.

Section engine.
Context {T W : Type} `{Transport T} `{Crypto} `{NtlmEnvironment} `{Host T W}.
#[local] Abbreviation session := (SessionConnection.t T).
#[local] Abbreviation engine := (est AndroidBridgeError (t T * W)).
#[local] Abbreviation world := (est AndroidBridgeError W).

(** [runtime] is what building the runtime came to. *)
Definition new (config : AndroidEngineConfig.t) (runtime : option ErrorKind) : bridge (t T) :=
  if AndroidEngineConfig.runtime_worker_threads config =? 0
  then Err (BridgeInvalidConfig "runtime_worker_threads must be greater than zero") else
  if AndroidEngineConfig.max_read_bytes config =? 0
  then Err (BridgeInvalidConfig "max_read_bytes must be greater than zero") else
  match runtime with
  | Some error => Err (Runtime error)
  | None =>
      Ok (mk HandleTable.new HandleTable.new HandleTable.new HandleTable.new
            (AndroidEngineConfig.max_read_bytes config)
            (ReadReconnectPolicy.mk (AndroidEngineConfig.read_reconnect_attempts config)
               (AndroidEngineConfig.reconnect_backoff config)))
  end.

(** The tables, and the world. *)
Definition on_videos {A} (m : est AndroidBridgeError (HandleTable.t VideoSession.t) A) : engine A :=
  fun '(e, w) => let '(r, table) := m (videos e) in
    (r, (mk table (directories e) (writers e) (randoms e) (max_read_bytes e) (reconnect_policy e), w)).
Definition on_directories {A}
    (m : est AndroidBridgeError (HandleTable.t (Mutex.t (DirectorySession.t T))) A) : engine A :=
  fun '(e, w) => let '(r, table) := m (directories e) in
    (r, (mk (videos e) table (writers e) (randoms e) (max_read_bytes e) (reconnect_policy e), w)).
Definition on_writers {A}
    (m : est AndroidBridgeError (HandleTable.t (Mutex.t (OpenFile.t T))) A) : engine A :=
  fun '(e, w) => let '(r, table) := m (writers e) in
    (r, (mk (videos e) (directories e) table (randoms e) (max_read_bytes e) (reconnect_policy e), w)).
Definition on_randoms {A} (m : est AndroidBridgeError (HandleTable.t (RandomEntry.t T)) A) : engine A :=
  fun '(e, w) => let '(r, table) := m (randoms e) in
    (r, (mk (videos e) (directories e) (writers e) table (max_read_bytes e) (reconnect_policy e), w)).
Definition in_world {A} (m : world A) : engine A :=
  fun '(e, w) => let '(r, w) := m w in (r, (e, w)).

(** [getrandom::fill] of so many bytes. *)
Definition random_fill (n : Z) : world bytes := fun w =>
  let '(r, w) := fill_random n w in (ok_or r BridgeRandomSource, w).

(** What a request tells a session: the steps of negotiating and of
    authenticating are those of the recipes. *)
Definition target_of (request : SmbMutationRequest.t) : Target.t :=
  Target.mk (SmbMutationRequest.host request) (SmbMutationRequest.port request)
    (SmbMutationRequest.share request) (SmbMutationRequest.path request)
    (SmbMutationRequest.username request) (SmbMutationRequest.password request)
    (SmbMutationRequest.domain request) (SmbMutationRequest.workstation request) false.

Definition unc_share (request : SmbMutationRequest.t) : rust_string :=
  [92; 92] ++ SmbMutationRequest.host request ++ [92] ++ SmbMutationRequest.share request.

Definition connect_share (request : SmbMutationRequest.t) : world (session * TreeHandle.t * rust_string) :=
  rec! client_guid := random_fill 16 in
  rec! preauth_salt := random_fill 32 in
  rec! transport := (fun w =>
    let '(r, w) := tcp_connect (SmbMutationRequest.host request) (SmbMutationRequest.port request) w in
    (omap_err BridgeClient r, w)) in
  rec! session := elift (omap_err BridgeClient
    (open_session (target_of request) client_guid preauth_salt transport)) in
  match tree_connect (unc_share request) TreeConnectOptions.default session with
  | (Ok tree, session) => eret (session, tree, SmbMutationRequest.path request)
  | (Err e, _) => efail (BridgeClient e)
  | (Panic, _) => elift Panic
  | (OutOfFuel, _) => elift OutOfFuel
  end.

(** Code on a session that ends with it. *)
Definition with_session {A} (s : session) (m : est AndroidBridgeError session A) : world A :=
  elift (m s).1.

(** [.await?] of an operation of smb-fs. *)
Definition fs_mutation {A} (m : est FsMutationError session A) : est AndroidBridgeError session A :=
  fun s => let '(r, s) := m s in (omap_err BridgeFs r, s).

Definition mutate_on (patience : nat) (tree : TreeHandle.t) (path : rust_string) (operation : FileMutation) :
    est AndroidBridgeError session unit :=
  fs_mutation
    match operation with
    | Mkdir => FsMutation.mkdir tree path
    | CreateFile => FsMutation.create_file tree path
    | Rename destination => FsMutation.rename patience tree path destination false
    | DeleteFile => FsMutation.delete_file patience tree path
    end.

Definition mutate (patience : nat) (request : SmbMutationRequest.t) (operation : FileMutation) : engine unit :=
  rec! _ := elift (validate_mutation_request request) in
  rec! _ := (match operation with
             | Rename destination => elift (validate_mutation_path destination)
             | _ => eret tt
             end) in
  in_world
    (rec! connected := connect_share request in
     let '(session, tree, path) := connected in
     with_session session (mutate_on patience tree path operation)).

Definition mkdir (patience : nat) (request : SmbMutationRequest.t) : engine unit :=
  mutate patience request Mkdir.
Definition create_file (patience : nat) (request : SmbMutationRequest.t) : engine unit :=
  mutate patience request CreateFile.
Definition rename (patience : nat) (request : SmbMutationRequest.t) (destination : rust_string) : engine unit :=
  mutate patience request (Rename destination).
Definition delete_file (patience : nat) (request : SmbMutationRequest.t) : engine unit :=
  mutate patience request DeleteFile.

(** [connect_share], an open, and the session with the file. *)
Definition open_on_share {A} (request : SmbMutationRequest.t) (options : FileOpenOptions.t)
    (k : session -> TreeHandle.t -> rust_string -> FileHandle.t -> A) : engine A :=
  in_world
    (rec! connected := connect_share request in
     let '(session, tree, path) := connected in
     match open_file tree path options session with
     | (Ok file, session) => eret (k session tree path file)
     | (Err e, _) => efail (BridgeClient e)
     | (Panic, _) => elift Panic
     | (OutOfFuel, _) => elift OutOfFuel
     end).

(** *** Directories *)

Definition open_directory (request : SmbMutationRequest.t) : engine Z :=
  rec! _ := elift (validate_directory_request request) in
  rec! session := open_on_share request FileOpenOptions.read_existing_directory
    (fun session tree path directory => DirectorySession.mk session directory tree path false) in
  rec! id := on_directories (HandleTable.insert (Mutex.mk false session)) in
  eret (DirectoryHandle.from_id id).

Definition directory_entry {A} (handle : Z) (body : est AndroidBridgeError (DirectorySession.t T) A) :
    engine A :=
  rec! key := elift (DirectoryHandle.table_key handle) in
  on_directories (with_entry key (with_lock body)).

Definition read_directory_page (handle : Z) : engine bytes := directory_entry handle read_page.
Definition directory_capacity (handle : Z) : engine bytes := directory_entry handle capacity.
Definition directory_size (visits pages : nat) (handle : Z) : engine Z :=
  directory_entry handle (size_tree visits pages).

Definition close_directory (handle : Z) : engine unit :=
  rec! key := elift (DirectoryHandle.table_key handle) in
  on_directories (with_removed key (with_lock close_directory_session)).

(** *** Writable files *)

Definition open_writable (request : SmbMutationRequest.t) : engine Z :=
  rec! _ := elift (validate_mutation_request request) in
  rec! writer := open_on_share request FileOpenOptions.overwrite_for_stream
    (fun session _ _ file => OpenFile.mk session file false) in
  rec! id := on_writers (HandleTable.insert (Mutex.mk false writer)) in
  eret (WritableHandle.from_id id).

Definition writable_entry {A} (handle : Z) (body : est AndroidBridgeError (OpenFile.t T) A) : engine A :=
  rec! key := elift (WritableHandle.table_key handle) in
  on_writers (with_entry key (with_lock body)).

Definition write_writable_at (patience : nat) (handle offset : Z) (data : bytes) : engine Z :=
  if MAX_JNI_WRITE_BYTES <? len data then efail (WriteTooLarge (len data) MAX_JNI_WRITE_BYTES) else
  writable_entry handle (write_writable patience offset data).

Definition flush_writable (patience : nat) (handle : Z) : engine unit :=
  writable_entry handle (flush_open patience "writable SMB handle cannot be flushed after failure").

Definition close_writable (handle : Z) : engine unit :=
  rec! key := elift (WritableHandle.table_key handle) in
  on_writers (with_removed key (with_lock close_open)).

(** *** Random-access files *)

Definition open_random (request : SmbMutationRequest.t) : engine Z :=
  rec! _ := elift (validate_mutation_request request) in
  rec! state := open_on_share request FileOpenOptions.write_existing_random
    (fun session _ _ file => OpenFile.mk session file false) in
  rec! id := on_randoms (HandleTable.insert (RandomEntry.mk false (Mutex.mk false state))) in
  eret (RandomHandle.from_id id).

Definition random_entry {A} (handle : Z) (body : est AndroidBridgeError (OpenFile.t T) A) : engine A :=
  rec! key := elift (RandomHandle.table_key handle) in
  on_randoms (with_entry key (unless_closing body)).

Definition read_random_at (patience : nat) (handle offset length : Z) : engine bytes :=
  if MAX_JNI_WRITE_BYTES <? length then efail (ReadTooLarge length MAX_JNI_WRITE_BYTES) else
  random_entry handle (read_random patience offset length).

(** The checks of a write before its handle is looked at. *)
Definition random_write_end (offset : Z) (data : bytes) : bridge Z :=
  if MAX_JNI_WRITE_BYTES <? len data then Err (WriteTooLarge (len data) MAX_JNI_WRITE_BYTES) else
  let! end_ := ok_or (checked_add u64_max offset (len data))
                 (BridgeInvalidConfig "random-access write offset overflow") in
  if i64_max_u64 <? end_ then Err (BridgeInvalidConfig "random-access write exceeds signed EOF") else
  Ok end_.

Definition write_random_at (patience : nat) (handle offset : Z) (data : bytes) : engine Z :=
  rec! end_ := elift (random_write_end offset data) in
  random_entry handle (write_random patience offset data end_).

Definition set_random_length (patience : nat) (handle length : Z) : engine unit :=
  if i64_max_u64 <? length
  then efail (BridgeInvalidConfig "random-access length exceeds signed EOF") else
  random_entry handle (set_length_random patience length).

Definition flush_random_at (patience : nat) (handle : Z) : engine unit :=
  random_entry handle (flush_random patience).

Definition close_random (handle : Z) : engine unit :=
  rec! key := elift (RandomHandle.table_key handle) in
  on_randoms (with_removed key close_random_entry).

(** *** Videos *)

(** The runner that is spawned is returned beside the handle; [tokens], [clock]
    and [script] are its environment. *)
Definition open_video (patience : nat) (request : VideoOpenRequest.t) (tokens : list nat * list nat)
    (clock : list Z) (script : list (list Happening)) :
    engine (Z * VideoBrokerRunner.t (RecoveringReadOnlyFile T W)) :=
  rec! _ := elift (validate_open_request request) in
  let recipe := Recipe.new (VideoOpenRequest.host request) (VideoOpenRequest.port request)
    (VideoOpenRequest.share request) (VideoOpenRequest.path request) (VideoOpenRequest.username request)
    (VideoOpenRequest.password request) (VideoOpenRequest.domain request)
    (VideoOpenRequest.workstation request) in
  let broker_config := VideoBrokerConfig.mk (VideoOpenRequest.stream request)
    (VideoBrokerConfig.queue_capacity VideoBrokerConfig.default) in
  rec! policy := eget (fun p : t T * W => reconnect_policy p.1) in
  rec! runner := in_world (fun w =>
    let '(r, (_, w)) := recovering_video_broker_with_policy patience policy broker_config tokens clock
                          script (recipe, w) in
    (omap_err map_broker_error r, w)) in
  rec! handle := on_videos (HandleTable.insert
    (VideoSession.mk (VideoBrokerRunner.shared runner) (VideoBrokerRunner.file_len runner))) in
  eret (handle, runner).

Definition video_len (handle : Z) : engine Z :=
  on_videos (with_entry handle (eget VideoSession.file_len)).

Definition validate_read_length (length : Z) : engine unit :=
  rec! maximum := eget (fun p : t T * W => max_read_bytes p.1) in
  if maximum <? length then efail (ReadTooLarge length maximum) else eret tt.

(** A step of the broker's handle, and its error. *)
Definition on_broker {A} (m : est BrokerError Shared.t A) : est AndroidBridgeError VideoSession.t A :=
  fun v => let '(r, s) := m (VideoSession.broker v) in
    (omap_err map_broker_error r, VideoSession.mk s (VideoSession.file_len v)).

(** [reply] names the channel, [replied] is what comes through it. *)
Definition read_at (handle offset length : Z) (reply : nat) (replied : option (BrokerError + bytes)) :
    engine bytes :=
  rec! _ := validate_read_length length in
  on_videos (with_entry handle (on_broker
    (rec! _ := VideoBrokerHandle.read offset length reply in
     elift (VideoBrokerHandle.awaited replied)))).

Definition prefetch (handle offset length : Z) : engine unit :=
  rec! _ := validate_read_length length in
  on_videos (with_entry handle (on_broker (VideoBrokerHandle.prefetch offset length))).

Definition seek (handle : Z) : engine Z :=
  on_videos (with_entry handle (on_broker VideoBrokerHandle.seek)).

(** What the shutdown does to the state shared with the runner is the state that
    [close_broker] leaves; the table no longer leads to it. *)
Definition close_broker (reply : nat) (replied : option (BrokerError + CloseInfo.t)) :
    est AndroidBridgeError VideoSession.t CloseInfo.t :=
  on_broker
    (rec! _ := VideoBrokerHandle.close reply in
     elift (VideoBrokerHandle.awaited replied)).

Definition close_video (handle : Z) (reply : nat) (replied : option (BrokerError + CloseInfo.t)) :
    engine CloseInfo.t :=
  on_videos (with_removed handle (close_broker reply replied)).

End engine.
End AndroidEngine.
