(* ===== verification/EngineSafety.v ===== *)
(** * The Android engine: what its sessions do

    What every operation on an open directory, writable file or random-access
    file comes to, whatever the server answers: the requests it sends, the state
    it leaves and its result. *)
From S2P Require Import Prelude WireError Utf16 Frame Header Create CreateContext Durable.
From S2P Require Import Client Effects Credits MessageIds AsyncResponse Transport Signing Connection.
From S2P Require Import Auth Session Exchange Tree Files Write Read PipelinedRead Cancellation.
From S2P Require Import QueryOps SetInfo SetInfoOps Ntlm CancelRead Reconnect RecoveringRead VideoReader Broker.
From S2P Require Import FsQuery FsMutation EngineTypes Engine.

(** ** Sizes *)

(** An entry that is counted: its name is one plain component. *)
Definition plain_b (w : rust_string) : bool :=
  negb (is_empty w || bool_decide (w = dot) || bool_decide (w = dot_dot)
        || contains 47 w || contains 92 w || contains 0 w).

Lemma plain_b_iff w : plain_b w = true <-> plain w.
Proof.
  unfold plain_b, plain, dot, dot_dot. rewrite negb_true_iff, !orb_false_iff, !bool_decide_eq_false.
  assert (forall c, contains c w = false <-> c ∉ w) as Hc.
  { intros c. rewrite <- not_true_iff_false, contains_true. done. }
  rewrite !Hc. destruct w; cbn; naive_solver.
Qed.

Definition is_directory (e : DirectoryMetadataEntry.t) : bool :=
  has_flag (DirectoryMetadataEntry.file_attributes e) 0x10.
Definition is_reparse_point (e : DirectoryMetadataEntry.t) : bool :=
  has_flag (DirectoryMetadataEntry.file_attributes e) 0x400.

(** The path of a directory to descend into, and the size of a file. *)
Definition child (path : rust_string) (e : DirectoryMetadataEntry.t) : option rust_string :=
  let name := DirectoryMetadataEntry.name e in
  if plain_b name && is_directory e && negb (is_reparse_point e)
  then Some (if is_empty path then name else path ++ [47] ++ name) else None.
Definition file_size (e : DirectoryMetadataEntry.t) : Z :=
  if plain_b (DirectoryMetadataEntry.name e) && negb (is_directory e)
  then DirectoryMetadataEntry.end_of_file e else 0.
Definition sizes (entries : list DirectoryMetadataEntry.t) : Z := foldr Z.add 0 (file_size <$> entries).
Definition children (path : rust_string) (entries : list DirectoryMetadataEntry.t) : list rust_string :=
  omap (child path) entries.

Lemma file_size_nonneg e : u64 (DirectoryMetadataEntry.end_of_file e) -> 0 <= file_size e.
Proof. intros [He _]. unfold file_size. by case_match. Qed.

Lemma sizes_cons e es : sizes (e :: es) = file_size e + sizes es.
Proof. done. Qed.

Lemma sizes_nonneg entries : Forall (fun e => u64 (DirectoryMetadataEntry.end_of_file e)) entries ->
  0 <= sizes entries.
Proof.
  induction 1 as [|e es He _ IH]; [done|]. rewrite sizes_cons. pose proof (file_size_nonneg e He). lia.
Qed.

Lemma accumulate_entry_ok path pending total e :
  0 <= total <= i64_max_u64 -> u64 (DirectoryMetadataEntry.end_of_file e) ->
  accumulate_entry path (pending, total) e
  = (option_list (child path e) ++ pending, Z.min (total + file_size e) i64_max_u64).
Proof.
  intros Ht He. unfold accumulate_entry, child, file_size, is_directory, is_reparse_point.
  fold (plain_b (DirectoryMetadataEntry.name e)).
  assert (forall w, is_empty w || bool_decide (w = dot) || bool_decide (w = dot_dot)
        || contains 47 w || contains 92 w || contains 0 w = negb (plain_b w)) as ->
    by (intros w; unfold plain_b; by rewrite negb_involutive).
  destruct (plain_b _); cbn [negb andb].
  2:{ cbn. f_equal. lia. }
  destruct (has_flag _ 0x10); cbn [negb andb].
  - destruct (has_flag _ 0x400); cbn; f_equal; lia.
  - unfold saturating_add, u64_max, i64_max_u64, uint in *. cbn [option_list app]. f_equal. lia.
Qed.

Lemma accumulate_ok path entries : forall pending total,
  0 <= total <= i64_max_u64 -> Forall (fun e => u64 (DirectoryMetadataEntry.end_of_file e)) entries ->
  accumulate_directory_entries entries path pending total
  = (reverse (children path entries) ++ pending, Z.min (total + sizes entries) i64_max_u64).
Proof.
  unfold accumulate_directory_entries.
  induction entries as [|e entries IH]; intros pending total Ht He; cbn [foldl].
  { unfold sizes. cbn. f_equal. lia. }
  apply Forall_cons in He as [He Hes]. rewrite accumulate_entry_ok by done.
  pose proof (file_size_nonneg e He). pose proof (sizes_nonneg _ Hes). rewrite sizes_cons.
  rewrite IH by (done || unfold i64_max_u64 in *; lia). f_equal; [|lia].
  unfold children. cbn [omap list_omap]. destruct (child path e); cbn [option_list]; [|done].
  by rewrite reverse_cons, <- app_assoc.
Qed.

Lemma sizes_app e1 e2 : sizes (e1 ++ e2) = sizes e1 + sizes e2.
Proof. unfold sizes. induction e1 as [|e e1 IH]; [done|]. cbn in *. lia. Qed.

Lemma children_app path e1 e2 : children path (e1 ++ e2) = children path e1 ++ children path e2.
Proof. unfold children. apply omap_app. Qed.

Lemma page_entries_wf b es : page metadata_block b es ->
  Forall (fun e => u64 (DirectoryMetadataEntry.end_of_file e)) es.
Proof.
  intros [Hw _]%listed_page_bounded. eapply Forall_impl; [exact Hw|]. by intros e (_ & ? & _).
Qed.

(** ** Directories *)

Section directory_laws.
Context {T : Type} `{TransportSafe T} `{CryptoLaws}.
#[local] Abbreviation session := (SessionConnection.t T).

Lemma on_session_runs {A B} (m : st session A) (k : A -> est AndroidBridgeError session B) (s : session)
    (P : client A -> session -> Prop) (Q : bridge B -> session -> Prop) :
  runs m s P -> (forall a s1, P (Ok a) s1 -> eruns (k a) s1 Q) ->
  (forall e s1, P (Err e) s1 -> Q (Err (BridgeClient e)) s1) ->
  eruns (ebind (on_session m) k) s Q.
Proof.
  intros Hm Hok Herr. apply eruns_bind, eruns_client_on. eapply runs_mono; [exact Hm|].
  intros [a|e| |] s1 Hp; cbn [omap_err id]; [by apply Hok|by apply Herr|done..].
Qed.

Lemma one_directory_query_advances (s : session) directory options r s' :
  one_directory_query s directory options r s' -> exists es, advances s es s'.
Proof. intros (charge & _ & es & Ha & _). by exists es. Qed.

(** What a page of the directory holds, if the client can read it. *)
Definition page_answer (buffer : bytes) (r : bridge bytes) : Prop :=
  (exists entries, page metadata_block buffer entries /\ r = Ok (listing_bytes entries) /\
     read_listing (listing_bytes entries) = Some (listed <$> entries)) \/
  ((forall entries, ~ page metadata_block buffer entries) /\ exists e, r = Err (BridgeQuery e)).

Definition page_read (d : DirectorySession.t T) (r : bridge bytes) (d' : DirectorySession.t T) : Prop :=
  if DirectorySession.exhausted d then r = Ok (listing_bytes []) /\ d' = d else
  exists answer s',
    one_directory_query (DirectorySession.session d) (DirectorySession.directory d) directory_query answer s' /\
    match answer with
    | Ok [] => r = Ok (listing_bytes []) /\ d' = set_exhausted (set_session d s')
    | Ok buffer => page_answer buffer r /\ d' = set_session d s'
    | Err e => r = Err (BridgeClient e) /\ d' = set_session d s'
    | _ => False
    end.

Lemma in_directory_runs {A B} (m : st session A) (k : A -> est AndroidBridgeError (DirectorySession.t T) B)
    (d : DirectorySession.t T) (P : client A -> session -> Prop)
    (Q : bridge B -> DirectorySession.t T -> Prop) :
  runs m (DirectorySession.session d) P ->
  (forall a s1, P (Ok a) s1 -> eruns (k a) (set_session d s1) Q) ->
  (forall e s1, P (Err e) s1 -> Q (Err (BridgeClient e)) (set_session d s1)) ->
  eruns (ebind (in_directory (on_session m)) k) d Q.
Proof.
  intros Hm Hok Herr. apply eruns_bind. unfold eruns at 1, in_directory, on_session, client_on.
  unfold runs in Hm. cbn [id]. destruct (m (DirectorySession.session d)) as [[a|e| |] s1];
    cbn [omap_err]; [by apply Hok|by apply Herr|done..].
Qed.

(** A buffer of a directory query is small enough to be decoded. *)
Lemma directory_buffer (s : session) directory buffer s' :
  one_directory_query s directory directory_query (Ok buffer) s' ->
  len buffer <= DEFAULT_QUERY_BUFFER_SIZE /\ len buffer <= usize_max.
Proof.
  intros Hq. destruct (directory_query_ok _ _ _ _ _ Hq) as [_ Hl].
  unfold DEFAULT_QUERY_BUFFER_SIZE, usize_max. destruct (Hl buffer eq_refl) as [Hl'| ->]; [|done].
  cbn in Hl'. unfold DIRECTORY_QUERY_BUFFER_BYTES in Hl'. lia.
Qed.

Lemma page_answered (s : session) directory buffer s' :
  one_directory_query s directory directory_query (Ok buffer) s' ->
  page_answer buffer (match decode_file_id_full_directory_metadata buffer with
    | Ok entries => encode_directory_metadata entries
    | Err e => Err (BridgeQuery e)
    | _ => Panic
    end).
Proof.
  intros [Hl Hmax]%directory_buffer. pose proof (returns_decode_metadata buffer Hmax) as Hr.
  destruct (decode_file_id_full_directory_metadata buffer) as [entries|e| |] eqn:E; [| |done..].
  - left. exists entries. apply decode_metadata_iff in E; [|done]. split; [done|].
    destruct (encode_page_ok _ _ E Hl) as [-> Hread]. by split.
  - right. split; [|by exists e]. intros entries Hp. apply decode_metadata_iff in Hp; [|done]. congruence.
Qed.

Lemma read_page_runs (d : DirectorySession.t T) : session_wf (DirectorySession.session d) ->
  eruns read_page d (fun r d' => session_wf (DirectorySession.session d') /\ page_read d r d').
Proof.
  intros Hs. unfold read_page, page_read. apply eruns_get. cbn [id].
  destruct (DirectorySession.exhausted d); [by unfold eruns, elift; cbn|].
  eapply in_directory_runs; [by apply query_directory_runs| |].
  - intros buffer s1 Hq. destruct (directory_query_ok _ _ _ _ _ Hq) as [Hs1 _].
    destruct buffer as [|x buffer]; cbn [is_empty].
    + apply eruns_modify. unfold eruns, elift. cbn. split; [done|]. by exists (Ok []), s1.
    + pose proof (page_answered _ _ _ _ Hq) as Hpage. apply directory_buffer in Hq as Hb.
      pose proof (returns_decode_metadata (x :: buffer) (proj2 Hb)) as Hr.
      unfold eruns, ebind, elift, from_query.
      destruct (decode_file_id_full_directory_metadata (x :: buffer)) as [entries|e| |];
        cbn [omap_err]; [| |done..].
      * pose proof (returns_encode_listing entries) as Hl.
        destruct (encode_directory_metadata entries) as [b|e| |]; [| |done..];
          (split; [done|]); by exists (Ok (x :: buffer)), s1.
      * split; [done|]. by exists (Ok (x :: buffer)), s1.
  - intros e s1 Hq. destruct (directory_query_ok _ _ _ _ _ Hq) as [Hs1 _].
    split; [done|]. by exists (Err e), s1.
Qed.

(** *** Sizes *)

Lemma fetched_advances (s : session) directory pattern buffers : forall s', 
  fetched s directory pattern buffers s' -> exists es, advances s es s'.
Proof.
  revert s. induction buffers as [|b buffers IH]; cbn [fetched]; intros s s'.
  { apply one_directory_query_advances. }
  intros (_ & s1 & (es1 & Ha1)%one_directory_query_advances & (es2 & Ha2)%IH).
  exists (es1 ++ es2). by eapply advances_app.
Qed.

(** The pages of one directory: all of them, or as many as could be read. *)
Definition pages_read (s : session) (directory : FileHandle.t) (path : rust_string)
    (pending : list rust_string) (total : Z) (r : bridge (list rust_string * Z)) (s' : session) : Prop :=
  match r with
  | Ok (pending', total') => exists buffers pages,
      fetched s directory any_name buffers s' /\ Forall2 (page metadata_block) buffers pages /\
      pending' = reverse (children path (mjoin pages)) ++ pending /\
      total' = Z.min (total + sizes (mjoin pages)) i64_max_u64 /\ 0 <= sizes (mjoin pages)
  | _ => exists es, advances s es s'
  end.

Lemma size_pages_runs pages directory path : forall pending total (s : session), session_wf s ->
  0 <= total <= i64_max_u64 ->
  eruns (size_pages pages directory path pending total) s (pages_read s directory path pending total).
Proof.
  induction pages as [|pages IH]; intros pending total s Hs Ht; cbn [size_pages]; [done|].
  eapply on_session_runs; [by apply query_directory_runs| |].
  2:{ intros e s1 Hq. by apply one_directory_query_advances in Hq. }
  intros buffer s1 Hq. destruct (directory_query_ok _ _ _ _ _ Hq) as [Hs1 _].
  destruct (is_empty buffer) eqn:He.
  { apply is_empty_true in He as ->. unfold eruns, eret. exists [], []. split; [exact Hq|].
    split; [constructor|]. cbn. split; [done|]. unfold sizes. cbn. split; [|done].
    unfold i64_max_u64 in *. lia. }
  apply directory_buffer in Hq as Hb. destruct Hb as [_ Hmax].
  apply one_directory_query_advances in Hq as Hadv. destruct Hadv as (es1 & Ha1).
  unfold from_query. apply eruns_bind_lift; [apply returns_map_err; by apply returns_decode_metadata|
    intros; by exists es1|].
  intros entries Hd. destruct (decode_file_id_full_directory_metadata buffer) as [entries'| | |] eqn:Hd';
    try discriminate. injection Hd as ->. apply decode_metadata_iff in Hd'; [|done].
  pose proof (page_entries_wf _ _ Hd') as Hwf. rewrite accumulate_ok by done. cbv beta iota.
  pose proof (sizes_nonneg _ Hwf).
  eapply eruns_mono; [apply IH; [done|unfold i64_max_u64 in *; lia]|].
  intros [[pending' total']|e| |] s'; cbn [pages_read].
  - intros (buffers & pgs & Hf & Hp & -> & -> & Hn). exists (buffer :: buffers), (entries :: pgs).
    rewrite mjoin_cons, children_app, sizes_app, reverse_app. split_and!.
    + split; [by intros ->|]. by exists s1.
    + by constructor.
    + by rewrite app_assoc.
    + unfold i64_max_u64 in *. lia.
    + lia.
  - intros (es2 & Ha2). exists (es1 ++ es2). by eapply advances_app.
  - intros (es2 & Ha2). exists (es1 ++ es2). by eapply advances_app.
  - intros (es2 & Ha2). exists (es1 ++ es2). by eapply advances_app.
Qed.

(** A walk over a tree: one directory after the other is opened, its pages are
    read, it is closed, and its directories are walked before what was pending.
    Nothing else is sent, and a directory that was opened is always closed. *)
Inductive walk (tree : TreeHandle.t) : session -> list rust_string -> Z -> bridge Z -> session -> Prop :=
  | walk_done s total : walk tree s [] total (Ok total) s
  | walk_directory s path pending total opened s1 buffers pages s2 info s3 r s' :
      one_open s tree path FileOpenOptions.read_existing_directory [] (Ok opened) s1 ->
      fetched s1 (FileOpenResult.file opened) any_name buffers s2 ->
      Forall2 (page metadata_block) buffers pages ->
      one_close s2 (FileOpenResult.file opened) CloseOptions.default (Ok info) s3 ->
      walk tree s3 (reverse (children path (mjoin pages)) ++ pending)
        (Z.min (total + sizes (mjoin pages)) i64_max_u64) r s' ->
      walk tree s (path :: pending) total r s'
  | walk_unopened s path pending total e s' :
      one_open s tree path FileOpenOptions.read_existing_directory [] (Err e) s' ->
      walk tree s (path :: pending) total (Err (BridgeClient e)) s'
  | walk_failed s path pending total opened s1 es s2 closed s' e :
      one_open s tree path FileOpenOptions.read_existing_directory [] (Ok opened) s1 ->
      advances s1 es s2 ->
      one_close s2 (FileOpenResult.file opened) CloseOptions.default closed s' ->
      walk tree s (path :: pending) total (Err e) s'.

Lemma open_file_ok_runs tree path options (s : session) : session_wf s ->
  runs (open_file tree path options) s (fun r s' => session_wf s' /\
    match r with
    | Ok file => exists opened, file = FileOpenResult.file opened /\
        one_open s tree path options [] (Ok opened) s'
    | Err e => one_open s tree path options [] (Err e) s'
    | _ => True
    end).
Proof.
  intros Hs. unfold open_file. apply runs_bind. eapply runs_mono; [by apply open_file_runs|].
  intros [opened|e| |] s1 Ho; [|split; [by eapply one_open_wf|done]|done..].
  unfold runs, sret. split; [by eapply one_open_wf|]. by exists opened.
Qed.

Lemma size_visit_runs pages tree path pending total (s : session) : session_wf s ->
  0 <= total <= i64_max_u64 ->
  eruns (size_visit pages tree path pending total) s (fun r s' => session_wf s' /\
    match r with
    | Ok (pending', total') => 0 <= total' <= i64_max_u64 /\
        (forall r' s'', walk tree s' pending' total' r' s'' -> walk tree s (path :: pending) total r' s'')
    | Err e => walk tree s (path :: pending) total (Err e) s'
    | _ => True
    end).
Proof.
  intros Hs Ht. unfold size_visit. eapply on_session_runs; [by apply open_file_ok_runs| |].
  2:{ intros e s1 [Hs1 Ho]. split; [done|]. by apply walk_unopened. }
  intros file s1 (Hs1 & opened & -> & Ho). apply eruns_caught.
  eapply eruns_mono; [by apply size_pages_runs|]. intros result s2 Hpages.
  assert (session_wf s2 /\ exists es, advances s1 es s2) as (Hs2 & es & Ha).
  { assert (exists es, advances s1 es s2) as (es & Ha).
    { destruct result as [[? ?]| | |]; [|done..]. destruct Hpages as (bs & ps & Hf & _).
      by eapply fetched_advances. }
    split; [apply Ha|by exists es]. }
  assert (forall k (Q : bridge (list rust_string * Z) -> session -> Prop),
    (forall closed s3, one_close s2 (FileOpenResult.file opened) CloseOptions.default closed s3 ->
       match closed with
       | Ok info => eruns (k (inr info)) s3 Q
       | Err e => eruns (k (inl (BridgeClient e))) s3 Q
       | _ => True
       end) ->
    eruns (ebind (caught (on_session (close_file (FileOpenResult.file opened) CloseOptions.default))) k) s2 Q)
    as Hclose.
  { intros k Q HQ. apply eruns_caught, eruns_client_on. eapply runs_mono; [by apply close_file_runs|].
    intros closed s3 Hc. specialize (HQ closed s3 Hc). by destruct closed. }
  destruct result as [[pending' total']|e| |]; [| |done..].
  - apply Hclose. intros closed s3 Hc. pose proof (one_close_wf _ _ _ _ _ Hc) as Hs3.
    destruct closed as [info|e| |]; [| |done..]; unfold eruns, efail, eret; (split; [done|]).
    + destruct Hpages as (buffers & pgs & Hf & Hp & -> & -> & Hn).
      split; [unfold i64_max_u64 in *; lia|]. intros r' s'' Hw. by eapply walk_directory.
    + by eapply walk_failed.
  - apply Hclose. intros closed s3 Hc. pose proof (one_close_wf _ _ _ _ _ Hc) as Hs3.
    destruct closed as [info|e'| |]; [| |done..]; unfold eruns, efail; (split; [done|]); by eapply walk_failed.
Qed.

Lemma size_loop_runs visits pages tree : forall pending total (s : session), session_wf s ->
  0 <= total <= i64_max_u64 ->
  eruns (size_loop visits pages tree pending total) s (fun r s' => session_wf s' /\
    walk tree s pending total r s' /\ match r with Ok n => 0 <= n <= i64_max_u64 | _ => True end).
Proof.
  induction visits as [|visits IH]; intros [|path pending] total s Hs Ht; cbn [size_loop].
  1,3: rewrite as_i64_small by (unfold i64_max_u64 in *; lia); unfold eruns, eret;
    (split; [done|]; split; [apply walk_done|done]).
  - done.
  - apply eruns_bind. eapply eruns_mono; [by apply size_visit_runs|].
    intros [[pending' total']|e| |] s1 [Hs1 Hw]; [|done..]. destruct Hw as [Ht' Hw].
    eapply eruns_mono; [by apply IH|]. intros r s' (Hs' & Hw' & Hr). split; [done|]. split; [by apply Hw|done].
Qed.

(** A path is walked into only below the path it was found in. *)
Lemma children_plain path entries p : p ∈ children path entries ->
  exists name, plain name /\ p = (if is_empty path then name else path ++ [47] ++ name).
Proof.
  unfold children. intros (e & _ & Hc)%list_elem_of_omap. unfold child in Hc.
  destruct (plain_b _) eqn:Hp; [|done]. case_match; [|done]. injection Hc as <-.
  exists (DirectoryMetadataEntry.name e). split; [by apply plain_b_iff|done].
Qed.

Lemma size_runs visits pages (d : DirectorySession.t T) : session_wf (DirectorySession.session d) ->
  eruns (size_tree visits pages) d (fun r d' => exists s', d' = set_session d s' /\ session_wf s' /\
    walk (DirectorySession.tree d) (DirectorySession.session d) [DirectorySession.root_path d] 0 r s' /\
    match r with Ok n => 0 <= n <= i64_max_u64 | _ => True end).
Proof.
  intros Hs. unfold size_tree. apply eruns_get. cbn [id]. unfold eruns, in_directory.
  pose proof (size_loop_runs visits pages (DirectorySession.tree d) [DirectorySession.root_path d] 0
    (DirectorySession.session d) Hs ltac:(done)) as Hl. unfold eruns in Hl.
  destruct (size_loop _ _ _ _ _ _) as [[n|e| |] s']; [| |done..]; exists s'; naive_solver.
Qed.

(** *** Capacity and closing *)

Lemma capacity_runs (d : DirectorySession.t T) : session_wf (DirectorySession.session d) ->
  eruns capacity d (fun r d' => session_wf (DirectorySession.session d') /\
    (exists s', d' = set_session d s') /\
    match r with
    | Ok b => exists total free, b = XSS1 ++ le_bytes 8 total ++ le_bytes 8 free /\
        0 <= total <= i64_max /\ 0 <= free <= i64_max
    | _ => True
    end).
Proof.
  intros Hs. unfold capacity. apply eruns_get. cbn [id].
  eapply in_directory_runs; [by apply query_info_runs| |].
  2:{ intros e s1 (charge & _ & es & Ha & _). split; [apply Ha|]. split; [by exists s1|done]. }
  intros raw s1 (charge & _ & es & Ha & _). assert (session_wf s1) as Hs1 by apply Ha.
  unfold from_query. apply eruns_bind_lift; [apply returns_map_err, returns_full_size_decode|
    by intros; split; [|split; [exists s1|]]|].
  intros info Hd. destruct (FileFsFullSizeInformation.decode raw) as [info'| | |] eqn:Hd'; try discriminate.
  injection Hd as ->. destruct (capacity_ok _ _ Hd') as (_ & Hu & Hcap). cbv zeta in Hcap.
  rewrite Hcap. cbn [omap_err]. unfold eruns, ebind, elift, eret. split; [done|]. split; [by exists s1|].
  eexists _, _. unfold encode_capacity_bytes, i64_bytes.
  set (total := Z.min _ _). set (free := Z.min (le_at 8 raw 8 * _) _).
  pose proof (le_at_bound 8 raw 0). pose proof (le_at_bound 8 raw 8).
  assert (0 <= total <= i64_max /\ 0 <= free <= i64_max) as [Ht Hf]
    by (unfold total, free, i64_max; lia).
  rewrite !Z.mod_small by (unfold i64_max in *; lia). by split.
Qed.

Lemma close_directory_runs (d : DirectorySession.t T) : session_wf (DirectorySession.session d) ->
  eruns close_directory_session d (fun r d' => exists closed s', d' = set_session d s' /\
    one_close (DirectorySession.session d) (DirectorySession.directory d) CloseOptions.default closed s' /\
    match closed with Ok _ => r = Ok tt | Err e => r = Err (BridgeClient e) | _ => False end).
Proof.
  intros Hs. unfold close_directory_session. apply eruns_get.
  eapply in_directory_runs; [by apply close_file_runs| |].
  - intros info s1 Hc. unfold eruns, eret. by exists (Ok info), s1.
  - intros e s1 Hc. by exists (Err e), s1.
Qed.
End directory_laws.

(** ** Files *)

Section file_laws.
Context {T : Type} `{TransportSafe T} `{CryptoLaws}.
#[local] Abbreviation session := (SessionConnection.t T).
#[local] Abbreviation open := (OpenFile.t T).

(** What an operation on an open file comes to: a failed handle is refused and
    left alone; else one operation [op] of the session, after whose success the
    handle is [good], and after whose failure it is failed. *)
Definition file_outcome {A X} (f : open) (message : string) (op : client A -> session -> Prop)
    (good : A -> session -> bridge X -> open -> Prop) (r : bridge X) (f' : open) : Prop :=
  if OpenFile.poisoned f then r = Err (InternalState message) /\ f' = f else
  exists answer s', op answer s' /\
  match answer with
  | Ok a => good a s' r f'
  | Err e => r = Err (BridgeClient e) /\ f' = poison (set_open f s')
  | _ => False
  end.

(** The handle goes on with the session of the operation. *)
Definition unchanged {X} (f : open) (x : X) (s' : session) (r : bridge X) (f' : open) : Prop :=
  r = Ok x /\ f' = set_open f s'.

Lemma file_op_runs {A X} op (k : A -> est AndroidBridgeError open X) (f : open) message
    (P : client A -> session -> Prop) good :
  runs (op (OpenFile.file f)) (OpenFile.session f) P ->
  (forall a s1, OpenFile.poisoned f = false -> P (Ok a) s1 -> eruns (k a) (set_open f s1) (good a s1)) ->
  eruns (unless_poisoned message (file_op op k)) f (file_outcome f message P good).
Proof.
  intros Hop Hok. unfold unless_poisoned, file_outcome. apply eruns_get.
  destruct (OpenFile.poisoned f) eqn:Hp; [done|]. unfold file_op. apply eruns_get, eruns_bind, eruns_attempt.
  eapply runs_mono; [exact Hop|]. intros [a|e| |] s1 Ha; [| |done..].
  - eapply eruns_mono; [by apply Hok|]. intros r f' Hg. by exists (Ok a), s1.
  - apply eruns_modify. unfold eruns, efail. by exists (Err e), s1.
Qed.

Lemma file_outcome_wf {A X} (f : open) message (P : client A -> session -> Prop) good (r : bridge X) f' :
  session_wf (OpenFile.session f) -> (forall a s', P a s' -> session_wf s') ->
  (forall a s' r f', good a s' r f' -> OpenFile.session f' = s') ->
  file_outcome f message P good r f' -> session_wf (OpenFile.session f').
Proof.
  intros Hs HP Hg. unfold file_outcome. destruct (OpenFile.poisoned f); [by intros [_ ->]|].
  intros (answer & s' & Ha & Hr). apply HP in Ha. destruct answer as [a|e| |]; [| |done..].
  - by rewrite (Hg _ _ _ _ Hr).
  - by destruct Hr as [_ ->].
Qed.

(** *** Writable files *)

Definition wrote (f : open) (message : string) (offset : Z) (data : bytes)
    (good : Z -> session -> bridge Z -> open -> Prop) (r : bridge Z) (f' : open) : Prop :=
  if negb (OpenFile.poisoned f) && is_empty data then r = Ok 0 /\ f' = f else
  file_outcome f message
    (write_result (OpenFile.session f) (OpenFile.file f) offset data (len data)) good r f'.

Lemma write_writable_runs patience offset data (f : open) : session_wf (OpenFile.session f) -> 0 <= offset ->
  eruns (write_writable patience offset data) f
    (wrote f "writable SMB handle cannot be used after a failed operation" offset data
       (fun n s' r f' => n = len data /\ unchanged f n s' r f')).
Proof.
  intros Hs Ho. unfold write_writable, wrote.
  destruct (is_empty data) eqn:He.
  - unfold unless_poisoned, file_outcome. apply eruns_get. by destruct (OpenFile.poisoned f).
  - rewrite andb_false_r. apply file_op_runs; [by apply write_at_runs|].
    intros n s1 _ (es & _ & -> & _). by unfold eruns, eret.
Qed.

Definition one_flush (s : session) (file : FileHandle.t) (r : client unit) (s' : session) : Prop :=
  exists charge,
    one_request s (fun id hint => from_wire (FileControl.FlushRequest.encode_message
        (FileControl.FlushRequest.mk (FileHandle.file_id file)) id (SessionConnection.session_id s)
        (FileHandle.tree_id file) charge hint))
      (SessionConnection.signing_required s)
      (async_answer s Command.Flush (FileHandle.tree_id file))
      (fun response h _ => status h = Status 0 /\
         FileControl.FlushResponse.decode_message response = Ok tt) r s'.

Lemma flush_open_runs patience message (f : open) : session_wf (OpenFile.session f) ->
  eruns (flush_open patience message) f
    (file_outcome f message (one_flush (OpenFile.session f) (OpenFile.file f)) (unchanged f)).
Proof.
  intros Hs. apply file_op_runs; [by apply flush_file_runs|]. intros [] s1 _ _. done.
Qed.

Lemma close_open_runs (f : open) : session_wf (OpenFile.session f) ->
  eruns close_open f (fun r f' => exists closed s', f' = set_open f s' /\
    one_close (OpenFile.session f) (OpenFile.file f) CloseOptions.default closed s' /\
    match closed with Ok _ => r = Ok tt | Err e => r = Err (BridgeClient e) | _ => False end).
Proof.
  intros Hs. unfold close_open. apply eruns_get, eruns_bind, eruns_client_on.
  eapply runs_mono; [by apply close_file_runs|]. intros [info|e| |] s1 Hc; cbn [omap_err]; [| |done..].
  - unfold eruns, eret. by exists (Ok info), s1.
  - by exists (Err e), s1.
Qed.

(** *** Random-access files *)

(** A read through the length that the handle knows. *)
Definition read_back (f : open) (offset length : Z) (r : bridge bytes) (f' : open) : Prop :=
  if negb (OpenFile.poisoned f) && (length =? 0) then r = Ok [] /\ f' = f else
  file_outcome f random_refused
    (read_result (OpenFile.session f) (OpenFile.file f) offset
       (Z.max 0 (Z.min length (FileHandle.length_ (OpenFile.file f) - offset))) [])
    (unchanged f) r f'.

Lemma read_random_runs patience offset length (f : open) : session_wf (OpenFile.session f) -> 0 <= length ->
  eruns (read_random patience offset length) f (read_back f offset length).
Proof.
  intros Hs Hl. unfold read_random, read_back. destruct (length =? 0) eqn:He.
  - unfold unless_poisoned, file_outcome. apply eruns_get. by destruct (OpenFile.poisoned f).
  - rewrite andb_false_r. apply file_op_runs; [by apply read_at_runs|]. intros b s1 _ _. done.
Qed.

(** The whole write succeeded, and the handle knows a length that covers it. *)
Definition extended (f : open) (data : bytes) (end_ n : Z) (s' : session) (r : bridge Z) (f' : open) : Prop :=
  n = len data /\ r = Ok n /\
  f' = record_len (Z.max (FileHandle.length_ (OpenFile.file f)) end_) (set_open f s').

Lemma write_random_runs patience offset data end_ (f : open) : session_wf (OpenFile.session f) -> 0 <= offset ->
  eruns (write_random patience offset data end_) f
    (wrote f random_refused offset data (extended f data end_)).
Proof.
  intros Hs Ho. unfold write_random, wrote. destruct (is_empty data) eqn:He.
  - unfold unless_poisoned, file_outcome. apply eruns_get. by destruct (OpenFile.poisoned f).
  - rewrite andb_false_r. apply file_op_runs; [by apply write_at_runs|].
    intros n s1 _ (es & _ & -> & _). rewrite Z.eqb_refl. by unfold eruns, ebind, eget, emodify, eret.
Qed.

Definition set_to (f : open) (length : Z) (_ : unit) (s' : session) (r : bridge unit) (f' : open) : Prop :=
  r = Ok tt /\ f' = record_len length (set_open f s').

Lemma set_length_random_runs patience length (f : open) : session_wf (OpenFile.session f) ->
  0 <= length <= i64_max_u64 ->
  eruns (set_length_random patience length) f
    (file_outcome f random_refused
       (one_mutation (OpenFile.session f) (OpenFile.file f) (end_of_file_options length))
       (set_to f length)).
Proof.
  intros Hs Hl. apply file_op_runs.
  - eapply runs_mono; [apply set_end_of_file_runs; [done|apply Hl]|]. intros r s'.
    rewrite (proj2 (Z.ltb_lt length (2 ^ 63))) by (unfold i64_max_u64 in *; lia). done.
  - intros [] s1 _ _. by unfold eruns, emodify.
Qed.

End file_laws.

(** ** Properties *)

(** Reading a directory page by page. Whatever the server answers, without
    panicking: a page sends one QUERY_DIRECTORY and no other, continues the scan
    of the open directory, and returns the payload of exactly the entries that
    the server put in the page, from which they can be read back, in order; a
    page that is not well formed is an error. The empty page is the end: from
    then on nothing is sent and the empty payload is returned, for ever. *)
Theorem directory_page_sound {T} `{TransportSafe T} `{CryptoLaws} (d : DirectorySession.t T)
    (Hd : session_wf (DirectorySession.session d)) :
  eruns read_page d (fun r d' => session_wf (DirectorySession.session d') /\ page_read d r d' /\
    DirectorySession.directory d' = DirectorySession.directory d /\
    (DirectorySession.exhausted d' = true -> read_page d' = (Ok (listing_bytes []), d'))).
Proof.
  eapply eruns_mono; [by apply read_page_runs|]. intros r d' [Hs Hp]. split; [done|]. split; [done|].
  split.
  - unfold page_read in Hp. destruct (DirectorySession.exhausted d); [by destruct Hp as [_ ->]|].
    destruct Hp as (answer & s' & _ & Hr). destruct answer as [[|]|e| |]; [..|done|done]; by destruct Hr as [_ ->].
  - intros He. unfold read_page, ebind, eget. cbn [id]. by rewrite He.
Qed.

#[local] Existing Instance toy_crypto.
#[local] Existing Instance toy_laws.

(** A directory with one entry. *)
Definition sample_scan (responses : list bytes) : DirectorySession.t TcpTransport.t :=
  DirectorySession.mk (sample_session responses) sample_file sample_tree [] false.

Lemma directory_page_sound_witness :
  exists d' entries, page_read (sample_scan [sample_page_response]) (Ok (listing_bytes entries)) d' /\
    entries = [sample_metadata].
Proof.
  destruct (eruns_ended _ _ _ (fun b _ => bool_decide (b = listing_bytes [sample_metadata]))
      (directory_page_sound (sample_scan [sample_page_response]) (sample_session_wf _)))
    as (b & d' & (_ & Hp & _) & ->%bool_decide_eq_true); [vm_compute; reflexivity|].
  exists d', [sample_metadata]. split; [exact Hp|reflexivity].
Defined.

(** C13: the size of a tree. Whatever the server answers, without panicking: the
    directories are visited one at a time, depth first, each opened with the
    options of a directory scan, read to its last page and closed before the
    next, and closed also when a page failed; what is visited is the root and,
    below a visited path, directories that are one plain component (no
    separators, no dot entries) and not reparse points, so that the walk cannot
    leave the tree or follow a link; and the result of a walk that succeeds is the
    sum of the sizes of all files met, or the largest Java [long] if that is
    less. *)
Theorem directory_size_sound {T} `{TransportSafe T} `{CryptoLaws} (visits pages : nat)
    (d : DirectorySession.t T) (Hd : session_wf (DirectorySession.session d)) :
  eruns (size_tree visits pages) d (fun r d' => exists s', d' = set_session d s' /\ session_wf s' /\
    walk (DirectorySession.tree d) (DirectorySession.session d) [DirectorySession.root_path d] 0 r s' /\
    match r with Ok n => 0 <= n <= i64_max_u64 | _ => True end) /\
  forall path entries p, p ∈ children path entries ->
    exists name, plain name /\ p = (if is_empty path then name else path ++ [47] ++ name).
Proof. split; [by apply size_runs|]. apply children_plain. Qed.

(** A root with a directory [c] and a file of 7 bytes, and in [c] a file of 1000
    and a junction. *)
Definition sample_answer (cmd : Command.t) (id : Z) (body : bytes) : bytes :=
  sample_header cmd 0 id (Sync 0 5) ++ body.
Definition sample_opening (id : Z) : bytes := sample_answer Command.Create id (drop 64 sample_create_response).
Definition sample_closing (id : Z) : bytes := sample_answer Command.Close id (drop 64 sample_close_response).
Definition sample_entry (next : Z) (e : DirectoryMetadataEntry.t) : bytes :=
  metadata_entry_bytes next (replicate 8 x00) (replicate 8 x00) (replicate 16 x00) e.
Definition sample_listing (id : Z) (page : bytes) : bytes :=
  sample_answer Command.QueryDirectory id
    (le_bytes 2 9 ++ le_bytes 2 72 ++ le_bytes 4 (len page) ++ page).
Definition sample_end (id : Z) : bytes :=
  sample_header Command.QueryDirectory STATUS_NO_MORE_FILES id (Sync 0 5) ++ le_bytes 2 9 ++ replicate 7 x00.
Definition sample_tree_server : list bytes :=
  [ sample_opening 1;
    sample_listing 2 (sample_entry 88 (DirectoryMetadataEntry.mk 1 [99] 0 0 0 0 0x10) ++ replicate 6 x00
                      ++ sample_entry 0 (DirectoryMetadataEntry.mk 2 [100] 0 0 7 8 0x20));
    sample_end 3; sample_closing 4;
    sample_opening 5;
    sample_listing 6 (sample_entry 88 (DirectoryMetadataEntry.mk 1 [101] 0 0 0 0 0x410) ++ replicate 6 x00
                      ++ sample_entry 0 (DirectoryMetadataEntry.mk 2 [102] 0 0 1000 1024 0x20));
    sample_end 7; sample_closing 8 ].

Lemma directory_size_sound_witness :
  exists s', walk sample_tree (sample_session sample_tree_server) [[]] 0 (Ok 1007) s'.
Proof.
  destruct (eruns_ended _ _ _ (fun n _ => n =? 1007)
      (proj1 (directory_size_sound 3 3 (sample_scan sample_tree_server) (sample_session_wf _))))
    as (n & d' & (s' & _ & _ & Hw & _) & ->%Z.eqb_eq); [vm_compute; reflexivity|].
  exists s'. exact Hw.
Defined.

Lemma random_write_end_ok offset data end_ : AndroidEngine.random_write_end offset data = Ok end_ ->
  len data <= MAX_JNI_WRITE_BYTES /\ end_ = offset + len data /\ end_ <= i64_max_u64.
Proof.
  unfold AndroidEngine.random_write_end, checked_add. destruct (Z.ltb_spec MAX_JNI_WRITE_BYTES (len data)); [done|].
  destruct (offset + len data <=? u64_max); cbn [ok_or obind]; [|done].
  destruct (Z.ltb_spec i64_max_u64 (offset + len data)); [done|]. intros [= <-]. lia.
Qed.

(** C14: a random-access file is read and written where it is, and known for what
    it is. Whatever the server answers, without panicking: a handle that failed
    is refused and sends nothing, ever; an operation that fails marks its handle,
    whatever the error; a write that passes the checks is of at most a mebibyte
    and ends within the signed range, and its success means that the server
    confirmed every byte in place and that the handle knows a length that covers
    it, so that reads reach what was written; setting the length is one SET_INFO,
    after whose success the handle knows exactly that length; a read or a flush
    changes nothing but the session. *)
Theorem random_file_sound {T} `{TransportSafe T} `{CryptoLaws} (f : OpenFile.t T) (patience : nat)
    (offset length : Z) (data : bytes) (end_ : Z)
    (Hf : session_wf (OpenFile.session f)) (Hoffset : 0 <= offset) (Hlength : 0 <= length <= i64_max_u64)
    (Hend : AndroidEngine.random_write_end offset data = Ok end_) :
  len data <= MAX_JNI_WRITE_BYTES /\ end_ = offset + len data /\ end_ <= i64_max_u64 /\
  eruns (read_random patience offset length) f (read_back f offset length) /\
  eruns (write_random patience offset data end_) f (fun r f' =>
    wrote f random_refused offset data (extended f data end_) r f' /\
    (OpenFile.poisoned f' = false -> data <> [] ->
     FileHandle.length_ (OpenFile.file f) <= FileHandle.length_ (OpenFile.file f') /\
     end_ <= FileHandle.length_ (OpenFile.file f'))) /\
  eruns (set_length_random patience length) f
    (file_outcome f random_refused
       (one_mutation (OpenFile.session f) (OpenFile.file f) (end_of_file_options length)) (set_to f length)) /\
  eruns (flush_random patience) f
    (file_outcome f random_refused (one_flush (OpenFile.session f) (OpenFile.file f)) (unchanged f)).
Proof.
  destruct (random_write_end_ok _ _ _ Hend) as (Hl & He & Hm).
  split; [done|]. split; [done|]. split; [done|]. split; [apply read_random_runs; [done|apply Hlength]|].
  split; [|split; [by apply set_length_random_runs|by apply flush_open_runs]].
  eapply eruns_mono; [by apply write_random_runs|]. intros r f' Hw. split; [done|].
  intros Hp Hne. unfold wrote in Hw. destruct data as [|x data]; [done|]. cbn [is_empty] in Hw.
  rewrite andb_false_r in Hw. unfold file_outcome in Hw.
  destruct (OpenFile.poisoned f) eqn:Hpf; [destruct Hw as [_ ->]; congruence|].
  destruct Hw as (answer & s' & _ & Hr). destruct answer as [n|e| |]; [|by destruct Hr as [_ ->]|done..].
  destruct Hr as (_ & _ & ->). cbn. lia.
Qed.

(** Three bytes behind the end of a file of 1000. *)
Lemma random_file_sound_witness :
  exists f' : OpenFile.t TcpTransport.t,
    wrote (OpenFile.mk (sample_session sample_writes) sample_file false) random_refused 1000 [x01; x02; x03]
      (extended (OpenFile.mk (sample_session sample_writes) sample_file false) [x01; x02; x03] 1003) (Ok 3) f' /\
    FileHandle.length_ (OpenFile.file f') = 1003.
Proof.
  destruct (eruns_ended _ _ _ (fun n f' => (n =? 3) && (FileHandle.length_ (OpenFile.file f') =? 1003))
      (proj1 (proj2 (proj2 (proj2 (proj2 (random_file_sound
         (OpenFile.mk (sample_session sample_writes) sample_file false) 4 1000 0 [x01; x02; x03] 1003
         (sample_session_wf _) ltac:(done) ltac:(done) ltac:(vm_compute; reflexivity))))))))
    as (n & f' & (Hw & _) & [->%Z.eqb_eq Hl%Z.eqb_eq]%andb_true_iff); [vm_compute; reflexivity|].
  exists f'. split; [exact Hw|exact Hl].
Defined.
