(* ===== verification/EngineRandom.v ===== *)
(** * The Android engine: threads on one random-access file

    The calls on a random-access handle run on several threads. They share the
    table, the [closing] flag and, under the mutex of the entry, the file. Here is
    every interleaving of their steps: looking the handle up, taking the lock with
    the check of the flag, the operation under the lock, and the three steps of a
    close. *)
From stdpp Require Import relations functions.
From S2P Require Import Prelude WireError Utf16 Frame Header Create CreateContext Durable.
From S2P Require Import Client Effects Credits MessageIds AsyncResponse Transport Signing Connection.
From S2P Require Import Auth Session Exchange Tree Files Write Read PipelinedRead Cancellation.
From S2P Require Import QueryOps SetInfo SetInfoOps Ntlm CancelRead Reconnect RecoveringRead VideoReader Broker.
From S2P Require Import FsQuery FsMutation EngineTypes Engine EngineSafety.

(** An operation on the file, after the checks of its arguments. *)
Inductive RandomOp : Type :=
  | ReadOp (offset length : Z)
  | WriteOp (offset : Z) (data : bytes) (end_ : Z)
  | LengthOp (length : Z)
  | FlushOp.

Definition op_ok (op : RandomOp) : Prop :=
  match op with
  | ReadOp offset length => 0 <= offset /\ 0 <= length
  | WriteOp offset data end_ => 0 <= offset /\ AndroidEngine.random_write_end offset data = Ok end_
  | LengthOp length => 0 <= length <= i64_max_u64
  | FlushOp => True
  end.

(** Where a thread is: before its call, past the lookup with the [Arc] of the
    entry, past the checks with the lock; or, for a close, past the removal and
    past setting the flag; or back. *)
Inductive Phase : Type :=
  | Idle
  | Waiting (op : RandomOp)
  | Holding (op : RandomOp)
  | Removed
  | Closing
  | Returned.

(** What went through the session of the file: an operation, and whether it
    failed the handle, or the CLOSE. *)
Inductive Event : Type := Used (failed : bool) | SentClose.

Section threads.
Context {T : Type} `{Transport T} `{Crypto}.

Definition run_op (patience : nat) (op : RandomOp) : est AndroidBridgeError (OpenFile.t T) unit :=
  match op with
  | ReadOp offset length => rec! _ := read_random patience offset length in eret tt
  | WriteOp offset data end_ => rec! _ := write_random patience offset data end_ in eret tt
  | LengthOp length => set_length_random patience length
  | FlushOp => flush_random patience
  end.

Record Threads : Type := mkThreads {
  in_table : bool;
  closing_flag : bool;
  holder : option nat;
  the_file : OpenFile.t T;
  phase : nat -> Phase;
  events : list Event
}.

Definition start (f : OpenFile.t T) : Threads := mkThreads true false None f (fun _ => Idle) [].

Definition go (s : Threads) (i : nat) (p : Phase) : nat -> Phase := <[i := p]> (phase s).

Inductive step (patience : nat) : Threads -> Threads -> Prop :=
  | step_get s i op : phase s i = Idle -> op_ok op -> in_table s = true ->
      step patience s (mkThreads (in_table s) (closing_flag s) (holder s) (the_file s)
                         (go s i (Waiting op)) (events s))
  | step_missing s i : phase s i = Idle -> in_table s = false ->
      step patience s (mkThreads (in_table s) (closing_flag s) (holder s) (the_file s)
                         (go s i Returned) (events s))
  | step_enter s i op : phase s i = Waiting op -> holder s = None ->
      closing_flag s = false -> OpenFile.poisoned (the_file s) = false ->
      step patience s (mkThreads (in_table s) (closing_flag s) (Some i) (the_file s)
                         (go s i (Holding op)) (events s))
  | step_refused s i op : phase s i = Waiting op -> holder s = None ->
      closing_flag s || OpenFile.poisoned (the_file s) = true ->
      step patience s (mkThreads (in_table s) (closing_flag s) None (the_file s)
                         (go s i Returned) (events s))
  | step_perform s i op r f' : phase s i = Holding op -> run_op patience op (the_file s) = (r, f') ->
      r <> OutOfFuel ->
      step patience s (mkThreads (in_table s) (closing_flag s) None f'
                         (go s i Returned) (events s ++ [Used (OpenFile.poisoned f')]))
  | step_remove s i : phase s i = Idle -> in_table s = true ->
      step patience s (mkThreads false (closing_flag s) (holder s) (the_file s)
                         (go s i Removed) (events s))
  | step_flag s i : phase s i = Removed ->
      step patience s (mkThreads (in_table s) true (holder s) (the_file s)
                         (go s i Closing) (events s))
  | step_close s i r f' : phase s i = Closing -> holder s = None -> close_open (the_file s) = (r, f') ->
      r <> OutOfFuel ->
      step patience s (mkThreads (in_table s) (closing_flag s) None f'
                         (go s i Returned) (events s ++ [SentClose])).

(** A call that no other thread interrupts is the sequential one. *)
Lemma uninterrupted patience op (entry : RandomEntry.t T) r f' :
  Mutex.poisoned (RandomEntry.state entry) = false -> RandomEntry.closing entry = false ->
  run_op patience op (Mutex.value (RandomEntry.state entry)) = (r, f') -> r <> Panic ->
  unless_closing (run_op patience op) entry = (r, RandomEntry.mk false (Mutex.mk false f')).
Proof.
  intros Hp Hc Hr Hn. unfold unless_closing, with_lock, lock. rewrite Hp, Hc, Hr. by destruct r.
Qed.
End threads.

Section thread_laws.
Context {T : Type} `{TransportSafe T} `{CryptoLaws}.
#[local] Abbreviation threads := (Threads (T := T)).

(** An operation on a file that did not fail leaves a well-formed session. *)
Lemma run_op_runs patience op (f : OpenFile.t T) : op_ok op -> session_wf (OpenFile.session f) ->
  eruns (run_op patience op) f (fun _ f' => session_wf (OpenFile.session f')).
Proof.
  intros Ho Hf.
  assert (forall {A} (m : est AndroidBridgeError (OpenFile.t T) A),
    eruns m f (fun _ f' => session_wf (OpenFile.session f')) ->
    eruns (rec! _ := m in eret tt) f (fun _ f' => session_wf (OpenFile.session f'))) as Hunit.
  { intros A m Hm. unfold eruns, ebind in *. by destruct (m f) as [[] f']. }
  destruct op as [offset length|offset data end_|length|]; cbn [run_op op_ok] in *.
  - apply Hunit. eapply eruns_mono; [apply read_random_runs; [done|apply Ho]|]. intros r f'. unfold read_back.
    destruct (negb _ && _); [by intros [_ ->]|].
    apply file_outcome_wf; [done|intros a s' (es & Ha & _); apply Ha|by intros a s' r0 f0 [_ ->]].
  - apply Hunit. eapply eruns_mono; [apply write_random_runs; [done|apply Ho]|]. intros r f'. unfold wrote.
    destruct (negb _ && _); [by intros [_ ->]|].
    apply file_outcome_wf; [done|intros a s' (es & Ha & _); apply Ha|by intros a s' r0 f0 (_ & _ & ->)].
  - eapply eruns_mono; [by apply set_length_random_runs|]. intros r f'.
    apply file_outcome_wf; [done|intros a s' Hm; by eapply one_mutation_wf|by intros a s' r0 f0 [_ ->]].
  - eapply eruns_mono; [by apply flush_open_runs|]. intros r f'.
    apply file_outcome_wf; [done|intros a s' (charge & es & Ha & _); apply Ha|by intros a s' r0 f0 [_ ->]].
Qed.

(** Uses that went well, then perhaps one that failed the handle, then perhaps
    the CLOSE. *)
Definition use_then_close (n : nat) (failed closed : bool) : list Event :=
  replicate n (Used false) ++ (if failed then [Used true] else []) ++ (if closed then [SentClose] else []).

Definition closer (p : Phase) : bool := match p with Removed | Closing => true | _ => false end.

Record threads_ok (s : threads) : Prop := {
  ok_session : session_wf (OpenFile.session (the_file s));
  ok_args : forall i op, phase s i = Waiting op \/ phase s i = Holding op -> op_ok op;
  ok_holder : forall i, (exists op, phase s i = Holding op) <-> holder s = Some i;
  ok_holding : forall i, holder s = Some i -> OpenFile.poisoned (the_file s) = false;
  ok_closer : forall i j, closer (phase s i) = true -> closer (phase s j) = true -> i = j;
  ok_table : in_table s = true -> closing_flag s = false /\ forall i, closer (phase s i) = false;
  ok_flag : forall i, phase s i = Closing -> closing_flag s = true;
  ok_events : exists n closed, events s = use_then_close n (OpenFile.poisoned (the_file s)) closed /\
    (closed = true -> holder s = None /\ closing_flag s = true /\ in_table s = false /\
       forall i, closer (phase s i) = false)
}.

Lemma start_ok (f : OpenFile.t T) : session_wf (OpenFile.session f) -> OpenFile.poisoned f = false ->
  threads_ok (start f).
Proof.
  intros Hs Hp. split; cbn; try done.
  - by intros i op [|].
  - intros i. split; [by intros [op ?]|done].
  - exists 0%nat, false. by rewrite Hp.
Qed.

Lemma go_at (s : threads) i p : go s i p i = p.
Proof. apply fn_lookup_insert. Qed.
Lemma go_other (s : threads) i j p : i <> j -> go s i p j = phase s j.
Proof. apply fn_lookup_insert_ne. Qed.

(** Looking at another thread, or at the one that moved. *)
Ltac at_thread i j :=
  destruct (decide (i = j)) as [<-|?]; [rewrite ?go_at in *|rewrite ?(go_other _ i j) in * by done].

Lemma use_after n failed : failed = false ->
  forall failed', use_then_close n failed false ++ [Used failed'] = use_then_close (if failed' then n else S n) failed' false.
Proof.
  intros -> failed'. unfold use_then_close. rewrite !app_nil_r. destruct failed'; [by rewrite ?app_nil_r|].
  by rewrite replicate_S_end, app_nil_r.
Qed.

Lemma close_after n failed : use_then_close n failed false ++ [SentClose] = use_then_close n failed true.
Proof. unfold use_then_close. by rewrite <- !app_assoc. Qed.

(** A thread moves where nothing is held and nothing is being closed. *)
Lemma moved_ok (s : threads) i q : threads_ok s ->
  closer (phase s i) = false -> (forall op, phase s i <> Holding op) ->
  closer q = false -> (forall op, q <> Holding op) -> (forall op, q = Waiting op -> op_ok op) ->
  threads_ok (mkThreads (in_table s) (closing_flag s) (holder s) (the_file s) (go s i q) (events s)).
Proof.
  intros [Hs Ha Hh Hp Hc Ht Hf (n & closed & He & Hcl)] Hi Hni Hq Hnq Hop. split; cbn; try done.
  - intros j o. at_thread i j; [|apply Ha]. intros [?|?]; [by apply Hop|by destruct (Hnq o)].
  - intros j. at_thread i j; [|apply Hh]. rewrite <- Hh.
    split; intros [o Ho]; [by destruct (Hnq o)|by destruct (Hni o)].
  - intros j k. at_thread i j; [congruence|]. at_thread i k; [congruence|apply Hc].
  - intros Hin. destruct (Ht Hin) as [Hfl Hno]. split; [done|]. intros j. at_thread i j; [done|apply Hno].
  - intros j. at_thread i j; [by intros ->|apply Hf].
  - exists n, closed. split; [done|]. intros Hcd. destruct (Hcl Hcd) as (? & ? & ? & Hno).
    split_and!; try done. intros j. at_thread i j; [done|apply Hno].
Qed.

Lemma entered_ok (s : threads) i op : threads_ok s -> phase s i = Waiting op -> holder s = None ->
  closing_flag s = false -> OpenFile.poisoned (the_file s) = false ->
  threads_ok (mkThreads (in_table s) (closing_flag s) (Some i) (the_file s) (go s i (Holding op)) (events s)).
Proof.
  intros [Hs Ha Hh Hp Hc Ht Hf (n & closed & He & Hcl)] Hi Hfree Hflag Hpo. split; cbn; try done.
  - intros j o. at_thread i j; [|apply Ha]. intros [[=]|[= <-]]. apply (Ha i). by left.
  - intros j. at_thread i j; [by split; [|exists op]|]. rewrite Hh, Hfree. by split; [|intros [= ?]].
  - intros j k. at_thread i j; [done|]. at_thread i k; [done|apply Hc].
  - intros Hin. destruct (Ht Hin) as [_ Hno]. split; [done|]. intros j. at_thread i j; [done|apply Hno].
  - intros j. at_thread i j; [done|apply Hf].
  - exists n, closed. split; [done|]. intros Hcd. destruct (Hcl Hcd) as (_ & ? & _). congruence.
Qed.

Lemma performed_ok patience (s : threads) i op r f' : threads_ok s -> phase s i = Holding op ->
  run_op patience op (the_file s) = (r, f') -> r <> OutOfFuel ->
  r <> Panic /\
  threads_ok (mkThreads (in_table s) (closing_flag s) None f' (go s i Returned)
                (events s ++ [Used (OpenFile.poisoned f')])).
Proof.
  intros [Hs Ha Hh Hp Hc Ht Hf (n & closed & He & Hcl)] Hi Hrun Hr.
  assert (holder s = Some i) as Hhold by (apply Hh; by exists op).
  pose proof (run_op_runs patience op (the_file s) (Ha i op (or_intror Hi)) Hs) as Hw.
  unfold eruns in Hw. rewrite Hrun in Hw.
  assert (r <> Panic /\ session_wf (OpenFile.session f')) as [Hnp Hw'] by (by destruct r). split; [done|].
  assert (closed = false) as -> by (destruct closed; [destruct (Hcl eq_refl); congruence|done]).
  split; cbn; try done.
  - intros j o. at_thread i j; [by intros [|]|apply Ha].
  - intros j. at_thread i j; [by split; [intros [o [=]]|]|]. rewrite Hh, Hhold.
    by split; [intros [= ?]|].
  - intros j k. at_thread i j; [done|]. at_thread i k; [done|apply Hc].
  - intros Hin. destruct (Ht Hin) as [? Hno]. split; [done|]. intros j. at_thread i j; [done|apply Hno].
  - intros j. at_thread i j; [done|apply Hf].
  - exists (if OpenFile.poisoned f' then n else S n), false. split; [|done].
    rewrite He. apply use_after. by eapply Hp.
Qed.

Lemma removed_ok (s : threads) i : threads_ok s -> phase s i = Idle -> in_table s = true ->
  threads_ok (mkThreads false (closing_flag s) (holder s) (the_file s) (go s i Removed) (events s)).
Proof.
  intros [Hs Ha Hh Hp Hc Ht Hf (n & closed & He & Hcl)] Hi Hin. destruct (Ht Hin) as [Hflag Hno].
  split; cbn; try done.
  - intros j o. at_thread i j; [by intros [|]|apply Ha].
  - intros j. at_thread i j; [|apply Hh]. rewrite <- Hh, Hi. by split; intros [o [=]].
  - intros j k. at_thread i j; at_thread i k; [done| | |]; rewrite ?Hno; done.
  - intros j. at_thread i j; [done|apply Hf].
  - exists n, closed. split; [done|]. intros Hcd. destruct (Hcl Hcd) as (_ & _ & ? & _). congruence.
Qed.

Lemma flagged_ok (s : threads) i : threads_ok s -> phase s i = Removed ->
  threads_ok (mkThreads (in_table s) true (holder s) (the_file s) (go s i Closing) (events s)).
Proof.
  intros [Hs Ha Hh Hp Hc Ht Hf (n & closed & He & Hcl)] Hi.
  assert (in_table s = false) as Hout.
  { destruct (in_table s); [|done]. destruct (Ht eq_refl) as [_ Hno]. specialize (Hno i). by rewrite Hi in Hno. }
  split; cbn; try done.
  - intros j o. at_thread i j; [by intros [|]|apply Ha].
  - intros j. at_thread i j; [|apply Hh]. rewrite <- Hh, Hi. by split; intros [o [=]].
  - intros j k. assert (closer (phase s i) = true) as Hci by by rewrite Hi.
    at_thread i j; at_thread i k; [done| | |]; intros Hj Hk; by apply Hc.
  - by rewrite Hout.
  - exists n, closed. split; [done|]. intros Hcd. destruct (Hcl Hcd) as (_ & _ & _ & Hno).
    specialize (Hno i). by rewrite Hi in Hno.
Qed.

Lemma closed_ok (s : threads) i r f' : threads_ok s -> phase s i = Closing -> holder s = None ->
  close_open (the_file s) = (r, f') -> r <> OutOfFuel ->
  r <> Panic /\
  threads_ok (mkThreads (in_table s) (closing_flag s) None f' (go s i Returned) (events s ++ [SentClose])).
Proof.
  intros [Hs Ha Hh Hp Hc Ht Hf (n & closed & He & Hcl)] Hi Hfree Hrun Hr.
  assert (closer (phase s i) = true) as Hci by by rewrite Hi.
  pose proof (close_open_runs (the_file s) Hs) as Hw. unfold eruns in Hw. rewrite Hrun in Hw.
  assert (r <> Panic /\ exists c s', f' = set_open (the_file s) s' /\
    one_close (OpenFile.session (the_file s)) (OpenFile.file (the_file s)) CloseOptions.default c s')
    as (Hnp & c & s' & -> & Hclose).
  { destruct r; try done; destruct Hw as (c & s' & Hf' & Hc' & _); (split; [done|]); by exists c, s'. }
  split; [done|]. apply one_close_wf in Hclose.
  assert (closed = false) as ->.
  { destruct closed; [|done]. destruct (Hcl eq_refl) as (_ & _ & _ & Hno). specialize (Hno i). congruence. }
  assert (forall j, closer (go s i Returned j) = false) as Hnone.
  { intros j. at_thread i j; [done|]. destruct (closer (phase s j)) eqn:E; [|done]. by destruct (Hc i j). }
  split; cbn; try done.
  - intros j o. at_thread i j; [by intros [|]|apply Ha].
  - intros j. at_thread i j; [by split; [intros [o [=]]|]|]. by rewrite Hh, Hfree.
  - intros j k. by rewrite Hnone.
  - intros Hin. destruct (Ht Hin) as [? _]. by split.
  - intros j. at_thread i j; [done|apply Hf].
  - exists n, true. split; [by rewrite He, close_after|]. intros _.
    assert (in_table s = false) by (destruct (in_table s); [|done]; destruct (Ht eq_refl) as [_ Hno];
      specialize (Hno i); congruence).
    by split_and!; [|eapply Hf|..].
Qed.

Lemma step_ok patience (s s' : threads) : threads_ok s -> step patience s s' -> threads_ok s'.
Proof.
  intros Hok Hstep.
  destruct Hstep as [s i op Hi Hop Hin|s i Hi Hin|s i op Hi Hfree Hflag Hpo|s i op Hi Hfree Href
    |s i op r f' Hi Hrun Hr|s i Hi Hin|s i Hi|s i r f' Hi Hfree Hrun Hr].
  - apply moved_ok; rewrite ?Hi; try done. by intros o [= <-].
  - by apply moved_ok; rewrite ?Hi.
  - by apply entered_ok.
  - rewrite <- Hfree at 1. by apply moved_ok; rewrite ?Hi.
  - by eapply performed_ok.
  - by apply removed_ok.
  - by apply flagged_ok.
  - by eapply closed_ok.
Qed.

Lemma steps_ok patience (s s' : threads) : threads_ok s -> rtc (step patience) s s' -> threads_ok s'.
Proof. intros Hok. induction 1 as [|s1 s2 s3 H12 _ IH]; [done|]. apply IH. by eapply step_ok. Qed.

(** After the CLOSE nothing is sent any more. *)
Lemma closed_stays patience (s s' : threads) : threads_ok s -> SentClose ∈ events s ->
  rtc (step patience) s s' -> events s' = events s.
Proof.
  intros Hok Hin Hsteps. revert Hok Hin. induction Hsteps as [|s1 s2 s3 H12 _ IH]; [done|]. intros Hok Hin.
  assert (events s2 = events s1) as He; [|rewrite <- He; apply IH; [by eapply step_ok|by rewrite He]].
  destruct (ok_events s1 Hok) as (n & closed & He & Hcl).
  assert (closed = true) as ->.
  { destruct closed; [done|]. exfalso. rewrite He in Hin. unfold use_then_close in Hin.
    rewrite app_nil_r in Hin. apply elem_of_app in Hin as [Hin|Hin].
    - by apply elem_of_replicate in Hin as [? _].
    - destruct (OpenFile.poisoned _); [by apply list_elem_of_singleton in Hin|by apply not_elem_of_nil in Hin]. }
  destruct (Hcl eq_refl) as (Hfree & _ & _ & Hno).
  destruct H12 as [| | | |s1 i op r f' Hi| | |s1 i r f' Hi]; try done.
  - assert (holder s1 = Some i) by (apply (ok_holder s1 Hok); by exists op). congruence.
  - specialize (Hno i). by rewrite Hi in Hno.
Qed.

(** What waits is not blocked, but by an answer that does not come. *)
Definition unanswered (patience : nat) (s : threads) : Prop :=
  (exists i op, phase s i = Holding op /\ (run_op patience op (the_file s)).1 = OutOfFuel) \/
  (close_open (the_file s)).1 = OutOfFuel.

Lemma progress patience (s : threads) i : threads_ok s -> phase s i <> Idle -> phase s i <> Returned ->
  (exists s', step patience s s') \/ unanswered patience s.
Proof.
  intros Hok Hi Hr. destruct (holder s) as [j|] eqn:Hh.
  - apply (ok_holder s Hok) in Hh as [op Hj].
    destruct (run_op patience op (the_file s)) as [r f'] eqn:E.
    destruct r as [a|e| |]; [left; eexists; eapply step_perform; [exact Hj|exact E|done]..|].
    right. left. exists j, op. by rewrite E.
  - destruct (phase s i) as [|op|op| | |] eqn:Hp; try done.
    + left. destruct (closing_flag s || OpenFile.poisoned (the_file s)) eqn:Hb.
      * eexists. by eapply step_refused.
      * apply orb_false_iff in Hb as [? ?]. eexists. by eapply step_enter.
    + assert (holder s = Some i) by (apply (ok_holder s Hok); by exists op). congruence.
    + left. eexists. by eapply step_flag.
    + destruct (close_open (the_file s)) as [r f'] eqn:E.
      destruct r as [a|e| |]; [left; eexists; eapply step_close; [exact Hp|exact Hh|exact E|done]..|].
      right. right. by rewrite E.
Qed.
End thread_laws.

(** ** Properties *)

(** C11: the CLOSE of a random-access file is the last thing sent for it. Any
    number of threads read, write, resize, flush and close one handle, with their
    steps interleaved in any way, against any server. Then what goes through the
    file's session are operations one at a time, all of which went well but
    perhaps the last, after which only the CLOSE follows, at most once; after it
    nothing is sent any more, although threads that looked the handle up before
    still come to take the lock. No thread panics, the session stays well formed,
    and no thread is blocked for ever but by a server that does not answer. *)
Theorem random_close_last {T} `{TransportSafe T} `{CryptoLaws} (f : OpenFile.t T) (patience : nat)
    (s : Threads (T := T)) (Hf : session_wf (OpenFile.session f)) (Hfresh : OpenFile.poisoned f = false)
    (Hreach : rtc (step patience) (start f) s) :
  (exists n closed, events s = use_then_close n (OpenFile.poisoned (the_file s)) closed) /\
  session_wf (OpenFile.session (the_file s)) /\
  (SentClose ∈ events s -> forall s', rtc (step patience) s s' -> events s' = events s) /\
  (forall i op r f', phase s i = Holding op -> run_op patience op (the_file s) = (r, f') -> r <> Panic) /\
  (forall i, phase s i <> Idle -> phase s i <> Returned ->
     (exists s', step patience s s') \/ unanswered patience s).
Proof.
  pose proof (steps_ok patience _ _ (start_ok f Hf Hfresh) Hreach) as Hok. split_and!.
  - destruct (ok_events s Hok) as (n & closed & He & _). by exists n, closed.
  - apply Hok.
  - intros Hin s' Hs'. by eapply closed_stays.
  - intros i op r f' Hi Hrun.
    pose proof (run_op_runs patience op (the_file s) (ok_args s Hok i op (or_intror Hi)) (ok_session s Hok)) as Hr.
    unfold eruns in Hr. rewrite Hrun in Hr. by destruct r.
  - intros i. by apply progress.
Qed.

#[local] Existing Instance toy_crypto.
#[local] Existing Instance toy_laws.

Definition sample_open : OpenFile.t TcpTransport.t :=
  OpenFile.mk (sample_session (sample_writes ++ [sample_closing 3])) sample_file false.
Definition sample_write : RandomOp := WriteOp 1000 [x01; x02; x03] 1003.

(** One more step, in a state whose fields are plain. *)
Ltac thread_step :=
  unfold go; cbn [in_table closing_flag holder the_file phase events]; eapply rtc_l.

(** One thread is at work, another closes and a third waits. *)
Lemma close_while_used {T} `{Transport T} `{Crypto} patience op (f f' f'' : OpenFile.t T) r c :
  OpenFile.poisoned f = false -> op_ok op ->
  run_op patience op f = (r, f') -> r <> OutOfFuel -> close_open f' = (c, f'') -> c <> OutOfFuel ->
  exists s, rtc (step patience) (start f) s /\ events s = [Used (OpenFile.poisoned f'); SentClose] /\
    phase s 2%nat = Returned.
Proof.
  intros Hp Hop Hr Hnr Hc Hnc. unfold start. eexists. split.
  - thread_step; [by apply (step_get patience _ 0 op)|].
    thread_step; [by apply (step_enter patience _ 0 op)|].
    thread_step; [by apply (step_get patience _ 2 FlushOp)|].
    thread_step; [by apply (step_remove patience _ 1)|].
    thread_step; [by apply (step_flag patience _ 1)|].
    thread_step; [by eapply (step_perform patience _ 0 op); [|exact Hr|]|].
    thread_step; [by eapply (step_close patience _ 1); [| |exact Hc|]|].
    thread_step; [by apply (step_refused patience _ 2 FlushOp)|].
    apply rtc_refl.
  - by split.
Qed.

Lemma random_close_last_witness :
  exists s, rtc (step 4) (start sample_open) s /\ events s = [Used false; SentClose] /\
    phase s 2%nat = Returned /\ session_wf (OpenFile.session (the_file s)).
Proof.
  assert (let '(r, f') := run_op 4 sample_write sample_open in
    (let '(c, _) := close_open f' in is_ok c) && is_ok r && negb (OpenFile.poisoned f') = true) as Ht
    by (vm_compute; reflexivity).
  destruct (run_op 4 sample_write sample_open) as [r f'] eqn:Hr.
  destruct (close_open f') as [c f''] eqn:Hc.
  apply andb_true_iff in Ht as [[Hco Hro]%andb_true_iff Hp%negb_true_iff].
  destruct (close_while_used 4 sample_write sample_open f' f'' r c) as (s & Hs & He & Hi);
    [reflexivity|split; [done|vm_compute; reflexivity]|exact Hr|by destruct r|exact Hc|by destruct c|].
  exists s. split; [exact Hs|]. rewrite He, Hp. split; [reflexivity|]. split; [exact Hi|].
  apply (random_close_last sample_open 4 s (sample_session_wf _) eq_refl Hs).
Defined.
