(* ===== verification/EngineCalls.v ===== *)
(** * The Android engine: sequences of calls

    The invariant of the tables of [AndroidEngine], that every call keeps it,
    and what holds of any sequence of calls. *)
From S2P Require Import Prelude WireError Utf16 Frame Header Create CreateContext Durable.
From S2P Require Import Client Effects Credits MessageIds AsyncResponse Transport Signing Connection.
From S2P Require Import Auth Session Exchange Tree Files Write Read PipelinedRead Cancellation.
From S2P Require Import QueryOps SetInfo SetInfoOps Ntlm CancelRead Reconnect RecoveringRead VideoReader Broker.
From S2P Require Import FsQuery FsMutation EngineTypes Engine EngineSafety.

(** ** Tables and locks *)

(** What a mutex guards is well formed and was never left by a panic. *)
Definition guarded {A} (P : A -> Prop) (m : Mutex.t A) : Prop :=
  Mutex.poisoned m = false /\ P (Mutex.value m).

(** Every number below the counter was given out, once. *)
Record table_inv {A} (P : A -> Prop) (t : HandleTable.t A) : Prop := {
  table_next : 0 < HandleTable.next t <= 2 ^ 60;
  table_lock : Mutex.poisoned (HandleTable.entries t) = false;
  table_keys : map_Forall (fun h a => 0 < h < HandleTable.next t /\ P a) (Mutex.value (HandleTable.entries t));
  table_size : Z.of_nat (size (Mutex.value (HandleTable.entries t))) < HandleTable.next t
}.

Lemma table_inv_new {A} (P : A -> Prop) : table_inv P HandleTable.new.
Proof. by split. Qed.

Lemma table_inv_wf {A} (P : A -> Prop) (t : HandleTable.t A) : table_inv P t -> table_wf t.
Proof.
  intros [Hn Hp Hk Hs]. split; [unfold uint; lia|]. split; [done|]. split; [|lia].
  eapply map_Forall_impl; [exact Hk|]. cbn. intros h a [Hh _]. unfold uint. lia.
Qed.

(** The next number is always free. *)
Lemma insert_inv {A} (P : A -> Prop) (t : HandleTable.t A) value :
  table_inv P t -> HandleTable.next t < 2 ^ 60 -> P value ->
  exists t', HandleTable.insert value t = (Ok (HandleTable.next t), t') /\ table_inv P t' /\
    HandleTable.next t' = HandleTable.next t + 1.
Proof.
  intros [Hn Hp Hk Hs] Hroom Hv. destruct t as [next [p entries]]. cbn in *. subst p.
  assert (entries !! next = None) as Hfree.
  { destruct (entries !! next) as [a|] eqn:E; [|done]. apply Hk in E as [? _]. lia. }
  exists (HandleTable.mk (next + 1) (Mutex.mk false (<[next := value]> entries))).
  unfold HandleTable.insert, lock. cbn [HandleTable.entries HandleTable.next Mutex.poisoned Mutex.value].
  replace (size entries + 2)%nat with (S (S (size entries))) by lia. cbn [HandleTable.insert_loop].
  rewrite (proj2 (Z.eqb_neq next 0)) by lia. rewrite Hfree. unfold wrapping_add.
  rewrite Z.mod_small by lia. split; [done|]. split; [|done]. split; cbn.
  - lia.
  - done.
  - apply map_Forall_insert_2; [split; [lia|done]|].
    eapply map_Forall_impl; [exact Hk|]. cbn. intros h a [? ?]. split; [lia|done].
  - rewrite map_size_insert_None by done. lia.
Qed.

Lemma with_entry_inv {A X} (P : A -> Prop) key (body : est AndroidBridgeError A X) (t : HandleTable.t A) :
  table_inv P t -> (forall a, P a -> eruns body a (fun _ a' => P a')) ->
  eruns (with_entry key body) t (fun _ t' => table_inv P t' /\ HandleTable.next t' = HandleTable.next t).
Proof.
  intros Hinv Hbody. unfold eruns, with_entry, HandleTable.get, lock.
  destruct Hinv as [Hn Hp Hk Hs]. rewrite Hp. cbn [obind].
  destruct (_ !! key) as [a|] eqn:E; cbn [ok_or]; [|by split; [by split|]].
  destruct (Hk _ _ E) as [Hkey Ha]. specialize (Hbody a Ha). unfold eruns in Hbody.
  destruct (body a) as [r a'].
  assert (P a' -> table_inv P (HandleTable.update t key a') /\
    HandleTable.next (HandleTable.update t key a') = HandleTable.next t) as Hup.
  { intros Ha'. split; [|done]. split; cbn; [done|done| |by rewrite <- (size_dom (D:=gset Z)), dom_alter_L, size_dom].
    intros h b. destruct (decide (h = key)) as [->|Hne].
    - rewrite lookup_alter_eq, E. intros [= <-]. done.
    - rewrite lookup_alter_ne by done. apply Hk. }
  destruct r; [by apply Hup|by apply Hup|done|done].
Qed.

Lemma with_lock_runs {A X} (P : A -> Prop) (body : est AndroidBridgeError A X) (m : Mutex.t A) :
  guarded P m -> (forall a, P a -> eruns body a (fun _ a' => P a')) ->
  eruns (with_lock body) m (fun _ m' => guarded P m').
Proof.
  intros [Hp Ha] Hbody. specialize (Hbody _ Ha). unfold eruns, with_lock, lock in *. rewrite Hp.
  destruct (body (Mutex.value m)) as [[] a']; by try split.
Qed.

Lemma with_removed_inv {A X} (P : A -> Prop) key (body : est AndroidBridgeError A X) (t : HandleTable.t A) :
  table_inv P t -> (forall a, P a -> eruns body a (fun _ _ => True)) ->
  eruns (with_removed key body) t (fun _ t' => table_inv P t' /\ HandleTable.next t' = HandleTable.next t).
Proof.
  intros [Hn Hp Hk Hs] Hbody. unfold eruns, with_removed, ebind, elift, HandleTable.remove, lock. rewrite Hp.
  assert (table_inv P (HandleTable.mk (HandleTable.next t)
    (Mutex.mk false (delete key (Mutex.value (HandleTable.entries t)))))) as Hinv.
  { split; cbn; [done|done| |].
    - by apply map_Forall_delete.
    - destruct (Mutex.value (HandleTable.entries t) !! key) as [a|] eqn:E.
      + rewrite map_size_delete_Some by by eexists. lia.
      + by rewrite map_size_delete_None. }
  destruct (_ !! key) as [a|] eqn:E; cbn [ok_or]; [|by split].
  destruct (Hk _ _ E) as [_ Ha]. specialize (Hbody a Ha). unfold eruns in Hbody.
  destruct (body a) as [[] a']; cbn [fst]; by try split.
Qed.

(** ** Connecting *)

Section engine_laws.
Context {T W : Type} `{TransportSafe T} `{CryptoLaws} `{NtlmEnvironmentLaws} `{HostLaws T W}.
#[local] Abbreviation session := (SessionConnection.t T).

(** A session that may be used: its share was connected to, by a response that
    passed every check. *)
Definition share_connected (request : SmbMutationRequest.t) (c : session * TreeHandle.t * rust_string) : Prop :=
  let '(s, tree, path) := c in
  session_wf s /\ path = SmbMutationRequest.path request /\
  exists s0, session_wf s0 /\
    one_tree_connect s0 (AndroidEngine.unc_share request) TreeConnectOptions.default (Ok tree) s.

Lemma random_fill_runs n {B} (k : bytes -> est AndroidBridgeError W B) w (Q : bridge B -> W -> Prop) : 0 <= n ->
  (forall b w', len b = n -> eruns (k b) w' Q) -> (forall e w', Q (Err e) w') ->
  eruns (ebind (AndroidEngine.random_fill n) k) w Q.
Proof.
  intros Hn Hk He. apply eruns_bind. unfold eruns at 1, AndroidEngine.random_fill.
  destruct (fill_random n w) as [[b|] w'] eqn:E; cbn [ok_or]; [|apply He].
  apply Hk. eapply (fill_random_len n w); [done|by rewrite E].
Qed.

Lemma connect_share_runs request w :
  eruns (AndroidEngine.connect_share request) w (fun r _ =>
    match r with Ok c => share_connected request c | _ => True end).
Proof.
  unfold AndroidEngine.connect_share. apply random_fill_runs; [done| |done]. intros guid w1 Hg.
  apply random_fill_runs; [done| |done]. intros salt w2 _. apply eruns_bind.
  pose proof (tcp_connect_returns (SmbMutationRequest.host request) (SmbMutationRequest.port request) w2) as Hc.
  unfold eruns at 1. destruct (tcp_connect _ _ w2) as [[t|e| |] w3]; cbn [omap_err]; [|done..].
  unfold eruns, ebind, elift.
  destruct (open_session_runs (AndroidEngine.target_of request) guid salt t Hg) as [Ha| ->]; [|done].
  destruct (open_session _ _ _ _) as [s0|e| |]; cbn [omap_err]; [|done..].
  pose proof (tree_connect_runs s0 (AndroidEngine.unc_share request) TreeConnectOptions.default Ha) as Ht.
  unfold runs in Ht. destruct (tree_connect _ _ s0) as [[tree|e| |] s]; [|done..].
  unfold eret. split; [by destruct Ht as (? & ? & _ & es & Hadv & _); apply Hadv|]. split; [done|].
  by exists s0.
Qed.

Lemma in_world_runs {A} (m : est AndroidBridgeError W A) e w (Q : bridge A -> AndroidEngine.t T * W -> Prop) :
  eruns m w (fun r w' => Q r (e, w')) -> eruns (AndroidEngine.in_world m) (e, w) Q.
Proof. unfold eruns, AndroidEngine.in_world. by destruct (m w) as [[] w']. Qed.

(** A file opened on a share, in a session of its own. *)
Definition share_opened (request : SmbMutationRequest.t) (options : FileOpenOptions.t) (s : session)
    (tree : TreeHandle.t) (path : rust_string) (file : FileHandle.t) : Prop :=
  session_wf s /\ exists s0 opened, share_connected request (s0, tree, path) /\
    file = FileOpenResult.file opened /\ one_open s0 tree path options [] (Ok opened) s.

Lemma open_on_share_runs {A} request options (k : session -> TreeHandle.t -> rust_string -> FileHandle.t -> A)
    (e : AndroidEngine.t T) (w : W) :
  eruns (AndroidEngine.open_on_share request options k) (e, w) (fun r p => p.1 = e /\
    match r with
    | Ok a => exists s tree path file, a = k s tree path file /\ share_opened request options s tree path file
    | _ => True
    end).
Proof.
  apply in_world_runs. apply eruns_bind. eapply eruns_mono; [apply connect_share_runs|].
  intros [[[s0 tree] path]|er| |] w1 Hc; [|done..]. pose proof Hc as (Hs0 & _).
  pose proof (open_file_ok_runs tree path options s0 Hs0) as Ho. unfold runs in Ho. unfold eruns.
  destruct (open_file tree path options s0) as [[file|er| |] s]; [|done..].
  destruct Ho as (Hs & opened & -> & Ho). unfold eret. split; [done|].
  exists s, tree, path, (FileOpenResult.file opened). split; [done|]. split; [done|]. by exists s0, opened.
Qed.

(** ** Mutations *)

(** What a mutation on a session comes to. *)
Definition mutated_as (operation : FileMutation) (s : session) (tree : TreeHandle.t) (path : rust_string)
    (r : outcome FsMutationError unit) (s' : session) : Prop :=
  match operation with
  | Mkdir => on_path path s (opened_then s tree FileOpenOptions.create_directory (closing (Ok tt))) r s'
  | CreateFile => on_path path s (opened_then s tree FileOpenOptions.create_new_random (closing (Ok tt))) r s'
  | Rename destination =>
      on_path path s (fun p => on_path destination s (fun d =>
        opened_then s tree FileOpenOptions.mutation_existing (renaming d false) p)) r s'
  | DeleteFile =>
      on_path path s (opened_then s tree FileOpenOptions.mutation_existing_file (changing delete_options)) r s'
  end.

Lemma mutate_on_runs patience tree path operation (s : session) : session_wf s ->
  eruns (AndroidEngine.mutate_on patience tree path operation) s (fun r s' =>
    exists r0, r = omap_err BridgeFs r0 /\ mutated_as operation s tree path r0 s').
Proof.
  intros Hs. unfold AndroidEngine.mutate_on.
  assert (forall (m : est FsMutationError session unit) P, eruns m s P -> eruns (AndroidEngine.fs_mutation m) s (fun r s' =>
    exists r0, r = omap_err BridgeFs r0 /\ P r0 s')) as Hm.
  { intros m P Hm. unfold eruns, AndroidEngine.fs_mutation in *.
    destruct (m s) as [[a|er| |] s']; [by exists (Ok a)|by exists (Err er)|done..]. }
  apply Hm. set (destination := match operation with Rename d => d | _ => [] end).
  destruct (fs_mutation_runs s patience tree path destination false Hs) as (Hmk & Hcf & Hdf & _ & Hrn).
  destruct operation; [exact Hmk|exact Hcf|exact Hrn|exact Hdf].
Qed.

(** The checks before anything is done. *)
Definition mutation_request_ok (request : SmbMutationRequest.t) (operation : FileMutation) : bridge unit :=
  let! _ := validate_mutation_request request in
  match operation with Rename destination => validate_mutation_path destination | _ => Ok tt end.

Lemma returns_validate_path p : returns (validate_mutation_path p).
Proof. unfold validate_mutation_path. by case_match. Qed.
Lemma returns_validate_request request : returns (validate_mutation_request request).
Proof. unfold validate_mutation_request. repeat case_match; try done. apply returns_validate_path. Qed.

Lemma mutate_runs patience request operation (e : AndroidEngine.t T) (w : W) :
  eruns (AndroidEngine.mutate patience request operation) (e, w) (fun r p => p.1 = e /\
    match mutation_request_ok request operation with
    | Ok _ =>
        match AndroidEngine.connect_share request w with
        | (Ok (s, tree, path), w1) => p.2 = w1 /\ share_connected request (s, tree, path) /\
            exists r0 s', r = omap_err BridgeFs r0 /\ mutated_as operation s tree path r0 s'
        | (failed, w1) => p.2 = w1 /\ exists er, failed = Err er /\ r = Err er
        end
    | refused => p.2 = w /\ r = refused
    end).
Proof.
  unfold AndroidEngine.mutate, mutation_request_ok.
  pose proof (returns_validate_request request) as Hv.
  apply eruns_bind_lift; [done| |].
  { intros er Her. by rewrite Her. }
  intros [] Hok. rewrite Hok. cbn [obind].
  assert (eruns (AndroidEngine.in_world
      (rec! connected := AndroidEngine.connect_share request in
       let '(s, tree, path) := connected in
       AndroidEngine.with_session s (AndroidEngine.mutate_on patience tree path operation))) (e, w) (fun r p =>
    p.1 = e /\ match AndroidEngine.connect_share request w with
        | (Ok (s, tree, path), w1) => p.2 = w1 /\ share_connected request (s, tree, path) /\
            exists r0 s', r = omap_err BridgeFs r0 /\ mutated_as operation s tree path r0 s'
        | (failed, w1) => p.2 = w1 /\ exists er, failed = Err er /\ r = Err er
        end)) as Hrun.
  { apply in_world_runs. pose proof (connect_share_runs request w) as Hc. unfold eruns, ebind in *.
    destruct (AndroidEngine.connect_share request w) as [[[[s tree] path]|er| |] w1]; [| |done..].
    - pose proof Hc as (Hs & _). pose proof (mutate_on_runs patience tree path operation s Hs) as Hm.
      unfold eruns, AndroidEngine.with_session, elift in *.
      destruct (AndroidEngine.mutate_on patience tree path operation s) as [[u|er| |] s']; cbn [fst]; [| |done..];
        (split; [done|]; split; [done|]; split; [done|]); destruct Hm as (r0 & Hr & Hm); by exists r0, s'.
    - split; [done|]. split; [done|]. by exists er. }
  destruct operation as [| |destination|]; [exact Hrun|exact Hrun| |exact Hrun].
  apply eruns_bind_lift; [apply returns_validate_path| |].
  { intros er ->. done. }
  intros [] ->. exact Hrun.
Qed.

(** ** Calls *)

(** What the caller passes; [env] stands for the tasks beside the runner of a
    video, [replied] for what its runner answers. *)
Inductive Call : Type :=
  | Mutate (request : SmbMutationRequest.t) (operation : FileMutation)
  | OpenDirectory (request : SmbMutationRequest.t)
  | ReadPage (handle : Z)
  | Capacity (handle : Z)
  | Size (visits pages : nat) (handle : Z)
  | CloseDirectory (handle : Z)
  | OpenWritable (request : SmbMutationRequest.t)
  | WriteWritable (handle offset : Z) (data : bytes)
  | FlushWritable (handle : Z)
  | CloseWritable (handle : Z)
  | OpenRandom (request : SmbMutationRequest.t)
  | ReadRandom (handle offset length : Z)
  | WriteRandom (handle offset : Z) (data : bytes)
  | SetLength (handle length : Z)
  | FlushRandom (handle : Z)
  | CloseRandom (handle : Z)
  | OpenVideo (request : VideoOpenRequest.t) (tokens : list nat * list nat) (clock : list Z)
      (script : list (list Happening))
  | VideoLen (handle : Z)
  | ReadVideo (handle offset length : Z) (reply : nat) (replied : option (BrokerError + bytes))
  | PrefetchVideo (handle offset length : Z)
  | SeekVideo (handle : Z)
  | CloseVideo (handle : Z) (reply : nat) (replied : option (BrokerError + CloseInfo.t)).

(** The handle that a call opened, if it opened one. *)
#[local] Abbreviation engine := (est AndroidBridgeError (AndroidEngine.t T * W)).

Definition opens (m : engine Z) : engine (option Z) := rec! handle := m in eret (Some handle).
Definition uses {A} (m : engine A) : engine (option Z) := rec! _ := m in eret None.

Definition perform (patience : nat) (call : Call) : engine (option Z) :=
  match call with
  | Mutate request operation => uses (AndroidEngine.mutate patience request operation)
  | OpenDirectory request => opens (AndroidEngine.open_directory request)
  | ReadPage handle => uses (AndroidEngine.read_directory_page handle)
  | Capacity handle => uses (AndroidEngine.directory_capacity handle)
  | Size visits pages handle => uses (AndroidEngine.directory_size visits pages handle)
  | CloseDirectory handle => uses (AndroidEngine.close_directory handle)
  | OpenWritable request => opens (AndroidEngine.open_writable request)
  | WriteWritable handle offset data => uses (AndroidEngine.write_writable_at patience handle offset data)
  | FlushWritable handle => uses (AndroidEngine.flush_writable patience handle)
  | CloseWritable handle => uses (AndroidEngine.close_writable handle)
  | OpenRandom request => opens (AndroidEngine.open_random request)
  | ReadRandom handle offset length => uses (AndroidEngine.read_random_at patience handle offset length)
  | WriteRandom handle offset data => uses (AndroidEngine.write_random_at patience handle offset data)
  | SetLength handle length => uses (AndroidEngine.set_random_length patience handle length)
  | FlushRandom handle => uses (AndroidEngine.flush_random_at patience handle)
  | CloseRandom handle => uses (AndroidEngine.close_random handle)
  | OpenVideo request tokens clock script =>
      rec! opened := AndroidEngine.open_video patience request tokens clock script in
      eret (Some (fst opened))
  | VideoLen handle => uses (AndroidEngine.video_len handle)
  | ReadVideo handle offset length reply replied =>
      uses (AndroidEngine.read_at handle offset length reply replied)
  | PrefetchVideo handle offset length => uses (AndroidEngine.prefetch handle offset length)
  | SeekVideo handle => uses (AndroidEngine.seek handle)
  | CloseVideo handle reply replied => uses (AndroidEngine.close_video handle reply replied)
  end.

(** The arguments have their types: offsets and lengths are not negative. *)
Definition call_ok (call : Call) : Prop :=
  match call with
  | WriteWritable _ offset _ | WriteRandom _ offset _ => 0 <= offset
  | ReadRandom _ offset length => 0 <= offset /\ 0 <= length
  | SetLength _ length => 0 <= length
  | _ => True
  end.

(** One call after the other, an error being an answer like any other; a call
    that does not return is the last. *)
Fixpoint perform_all (patience : nat) (calls : list Call) (p : AndroidEngine.t T * W) :
    list (bridge (option Z)) * (AndroidEngine.t T * W) :=
  match calls with
  | [] => ([], p)
  | call :: calls =>
      match perform patience call p with
      | (OutOfFuel, p) => ([OutOfFuel], p)
      | (Panic, p) => ([Panic], p)
      | (r, p) => let '(rs, p) := perform_all patience calls p in (r :: rs, p)
      end
  end.

Definition opened_handles (rs : list (bridge (option Z))) : list Z :=
  omap (fun r => match r with Ok (Some handle) => Some handle | _ => None end) rs.

(** ** The invariant *)

Definition directory_ok : DirectorySession.t T -> Prop := fun d => session_wf (DirectorySession.session d).
Definition open_ok : OpenFile.t T -> Prop := fun f => session_wf (OpenFile.session f).
Definition random_ok : RandomEntry.t T -> Prop := fun r => guarded open_ok (RandomEntry.state r).

Record engine_inv (e : AndroidEngine.t T) : Prop := {
  inv_videos : table_inv (fun _ => True) (AndroidEngine.videos e);
  inv_directories : table_inv (guarded directory_ok) (AndroidEngine.directories e);
  inv_writers : table_inv (guarded open_ok) (AndroidEngine.writers e);
  inv_randoms : table_inv random_ok (AndroidEngine.randoms e)
}.

(** Where the counters of the tables are. *)
Record counters : Type := { at_videos : Z; at_directories : Z; at_writers : Z; at_randoms : Z }.
Definition counters_of (e : AndroidEngine.t T) : counters := {|
  at_videos := HandleTable.next (AndroidEngine.videos e);
  at_directories := HandleTable.next (AndroidEngine.directories e);
  at_writers := HandleTable.next (AndroidEngine.writers e);
  at_randoms := HandleTable.next (AndroidEngine.randoms e)
|}.
Definition below (n : Z) (c : counters) : Prop :=
  at_videos c <= n /\ at_directories c <= n /\ at_writers c <= n /\ at_randoms c <= n.

(** A handle that was given out when the counters were at [c]. *)
Definition issued (c : counters) (h : Z) : Prop :=
  0 < h < at_videos c \/
  (exists id, 0 < id < at_directories c /\ h = DirectoryHandle.from_id id) \/
  (exists id, 0 < id < at_writers c /\ h = WritableHandle.from_id id) \/
  (exists id, 0 < id < at_randoms c /\ h = RandomHandle.from_id id).

(** What a call leaves: one table at most has gone on, by the handle returned. *)
Definition called (e : AndroidEngine.t T) (r : bridge (option Z)) (e' : AndroidEngine.t T) : Prop :=
  engine_inv e' /\ (forall h, issued (counters_of e) h -> issued (counters_of e') h) /\
  (forall n, below n (counters_of e) -> below (n + 1) (counters_of e')) /\
  forall h, r = Ok (Some h) -> issued (counters_of e') h /\ ~ issued (counters_of e) h.

(** *** Calls that open nothing *)

Definition stays {A} (m : engine A) : Prop := forall e w, engine_inv e ->
  eruns m (e, w) (fun _ p => engine_inv p.1 /\ counters_of p.1 = counters_of e).

Lemma stays_elift_bind {A B} (r : bridge A) (k : A -> engine B) :
  returns r -> (forall a, r = Ok a -> stays (k a)) -> stays (ebind (elift r) k).
Proof.
  intros Hr Hk e w He. apply eruns_bind_lift; [done|by intros|]. intros a Ha. by apply Hk.
Qed.

Lemma stays_fail {A} (er : AndroidBridgeError) : stays (efail er : engine A).
Proof. by intros e w He. Qed.

Lemma stays_videos {A} (m : est AndroidBridgeError (HandleTable.t VideoSession.t) A) :
  (forall t, table_inv (fun _ => True) t ->
    eruns m t (fun _ t' => table_inv (fun _ => True) t' /\ HandleTable.next t' = HandleTable.next t)) ->
  stays (AndroidEngine.on_videos m).
Proof.
  intros Hm e w [Hv Hd Hw Hr]. specialize (Hm _ Hv). unfold eruns, AndroidEngine.on_videos in *.
  destruct (m (AndroidEngine.videos e)) as [[] t']; try done; destruct Hm as [Hi Hn];
    (split; [by split|]; unfold counters_of; cbn; by rewrite Hn).
Qed.

Lemma stays_directories {A} (m : est AndroidBridgeError (HandleTable.t (Mutex.t (DirectorySession.t T))) A) :
  (forall t, table_inv (guarded directory_ok) t ->
    eruns m t (fun _ t' => table_inv (guarded directory_ok) t' /\ HandleTable.next t' = HandleTable.next t)) ->
  stays (AndroidEngine.on_directories m).
Proof.
  intros Hm e w [Hv Hd Hw Hr]. specialize (Hm _ Hd). unfold eruns, AndroidEngine.on_directories in *.
  destruct (m (AndroidEngine.directories e)) as [[] t']; try done; destruct Hm as [Hi Hn];
    (split; [by split|]; unfold counters_of; cbn; by rewrite Hn).
Qed.

Lemma stays_writers {A} (m : est AndroidBridgeError (HandleTable.t (Mutex.t (OpenFile.t T))) A) :
  (forall t, table_inv (guarded open_ok) t ->
    eruns m t (fun _ t' => table_inv (guarded open_ok) t' /\ HandleTable.next t' = HandleTable.next t)) ->
  stays (AndroidEngine.on_writers m).
Proof.
  intros Hm e w [Hv Hd Hw Hr]. specialize (Hm _ Hw). unfold eruns, AndroidEngine.on_writers in *.
  destruct (m (AndroidEngine.writers e)) as [[] t']; try done; destruct Hm as [Hi Hn];
    (split; [by split|]; unfold counters_of; cbn; by rewrite Hn).
Qed.

Lemma stays_randoms {A} (m : est AndroidBridgeError (HandleTable.t (RandomEntry.t T)) A) :
  (forall t, table_inv random_ok t ->
    eruns m t (fun _ t' => table_inv random_ok t' /\ HandleTable.next t' = HandleTable.next t)) ->
  stays (AndroidEngine.on_randoms m).
Proof.
  intros Hm e w [Hv Hd Hw Hr]. specialize (Hm _ Hr). unfold eruns, AndroidEngine.on_randoms in *.
  destruct (m (AndroidEngine.randoms e)) as [[] t']; try done; destruct Hm as [Hi Hn];
    (split; [by split|]; unfold counters_of; cbn; by rewrite Hn).
Qed.

Lemma returns_directory_key h : returns (DirectoryHandle.table_key h).
Proof. unfold DirectoryHandle.table_key. by case_match. Qed.
Lemma returns_writable_key h : returns (WritableHandle.table_key h).
Proof. unfold WritableHandle.table_key. by case_match. Qed.
Lemma returns_random_key h : returns (RandomHandle.table_key h).
Proof. unfold RandomHandle.table_key. by case_match. Qed.

(** A use of an entry, whatever keeps the entry well formed. *)
Lemma stays_directory_entry {A} handle (body : est AndroidBridgeError (DirectorySession.t T) A) :
  (forall d, directory_ok d -> eruns body d (fun _ d' => directory_ok d')) ->
  stays (AndroidEngine.directory_entry handle body).
Proof.
  intros Hb. apply stays_elift_bind; [apply returns_directory_key|]. intros key _.
  apply stays_directories. intros t Ht. apply with_entry_inv; [done|]. intros m Hm. by apply with_lock_runs.
Qed.

Lemma stays_writable_entry {A} handle (body : est AndroidBridgeError (OpenFile.t T) A) :
  (forall f, open_ok f -> eruns body f (fun _ f' => open_ok f')) ->
  stays (AndroidEngine.writable_entry handle body).
Proof.
  intros Hb. apply stays_elift_bind; [apply returns_writable_key|]. intros key _.
  apply stays_writers. intros t Ht. apply with_entry_inv; [done|]. intros m Hm. by apply with_lock_runs.
Qed.

Lemma stays_random_entry {A} handle (body : est AndroidBridgeError (OpenFile.t T) A) :
  (forall f, open_ok f -> eruns body f (fun _ f' => open_ok f')) ->
  stays (AndroidEngine.random_entry handle body).
Proof.
  intros Hb. apply stays_elift_bind; [apply returns_random_key|]. intros key _.
  apply stays_randoms. intros t Ht. apply with_entry_inv; [done|]. intros entry Hentry.
  unfold unless_closing. pose proof (with_lock_runs open_ok
    (if RandomEntry.closing entry then efail (InternalState random_refused) else body)
    (RandomEntry.state entry) Hentry) as Hl.
  assert (forall f, open_ok f -> eruns (if RandomEntry.closing entry
      then efail (InternalState random_refused) else body) f (fun _ f' => open_ok f')) as Hbody.
  { intros f Hf. destruct (RandomEntry.closing entry); [done|by apply Hb]. }
  specialize (Hl Hbody). unfold eruns in *. by destruct (with_lock _ _) as [[] m'].
Qed.

Lemma stays_video_entry {A} handle (body : est BrokerError Shared.t A) :
  (forall s, (body s).1 <> Panic) ->
  stays (AndroidEngine.on_videos (with_entry handle (AndroidEngine.on_broker body))).
Proof.
  intros Hb. apply stays_videos. intros t Ht. apply with_entry_inv; [done|]. intros v _.
  unfold eruns, AndroidEngine.on_broker. specialize (Hb (VideoSession.broker v)).
  by destruct (body (VideoSession.broker v)) as [[] s'].
Qed.

(** *** Files and directories keep their sessions *)

Lemma write_result_wf (s : session) file offset data n r s' :
  write_result s file offset data n r s' -> session_wf s'.
Proof. intros (es & Ha & _). apply Ha. Qed.
Lemma random_read_wf (s : session) file offset n prefix r s' :
  read_result s file offset n prefix r s' -> session_wf s'.
Proof. intros (es & Ha & _). apply Ha. Qed.
Lemma one_flush_wf (s : session) file r s' : one_flush s file r s' -> session_wf s'.
Proof. intros (charge & es & Ha & _). apply Ha. Qed.

Lemma keeps_flush patience message f : open_ok f ->
  eruns (flush_open patience message) f (fun _ f' => open_ok f').
Proof.
  intros Hf. eapply eruns_mono; [by apply flush_open_runs|]. intros r f' Ho.
  eapply file_outcome_wf; [exact Hf| | |exact Ho]; [intros; by eapply one_flush_wf|].
  by intros a s' r0 f0 [_ ->].
Qed.

Lemma keeps_wrote f message offset data good r f' : open_ok f ->
  (forall n s' r f', good n s' r f' -> OpenFile.session f' = s') ->
  wrote f message offset data good r f' -> open_ok f'.
Proof.
  intros Hf Hg. unfold wrote. destruct (negb _ && _); [by intros [_ ->]|].
  apply file_outcome_wf; [done| |done]. intros; by eapply write_result_wf.
Qed.

Lemma keeps_write_writable patience offset data f : open_ok f -> 0 <= offset ->
  eruns (write_writable patience offset data) f (fun _ f' => open_ok f').
Proof.
  intros Hf Ho. eapply eruns_mono; [by apply write_writable_runs|]. intros r f'.
  apply keeps_wrote; [done|]. by intros n s' r0 f0 (_ & _ & ->).
Qed.

Lemma keeps_write_random patience offset data end_ f : open_ok f -> 0 <= offset ->
  eruns (write_random patience offset data end_) f (fun _ f' => open_ok f').
Proof.
  intros Hf Ho. eapply eruns_mono; [by apply write_random_runs|]. intros r f'.
  apply keeps_wrote; [done|]. by intros n s' r0 f0 (_ & _ & ->).
Qed.

Lemma keeps_read_random patience offset length f : open_ok f -> 0 <= length ->
  eruns (read_random patience offset length) f (fun _ f' => open_ok f').
Proof.
  intros Hf Hl. eapply eruns_mono; [by apply read_random_runs|]. intros r f'. unfold read_back.
  destruct (negb _ && _); [by intros [_ ->]|].
  apply file_outcome_wf; [done| |by intros a s' r0 f0 [_ ->]]. intros; by eapply random_read_wf.
Qed.

Lemma keeps_set_length patience length f : open_ok f -> 0 <= length <= i64_max_u64 ->
  eruns (set_length_random patience length) f (fun _ f' => open_ok f').
Proof.
  intros Hf Hl. eapply eruns_mono; [by apply set_length_random_runs|]. intros r f'.
  apply file_outcome_wf; [done| |by intros a s' r0 f0 [_ ->]]. intros; by eapply one_mutation_wf.
Qed.

Lemma keeps_size visits pages d : directory_ok d ->
  eruns (size_tree visits pages) d (fun _ d' => directory_ok d').
Proof.
  intros Hd. eapply eruns_mono; [by apply size_runs|]. by intros r d' (s' & -> & Hs' & _).
Qed.

(** *** Calls that open something *)

Lemma from_id_values id : 0 < id < 2 ^ 60 ->
  DirectoryHandle.from_id id = id + 2 ^ 62 /\ WritableHandle.from_id id = id + 2 ^ 61 /\
  RandomHandle.from_id id = id + 2 ^ 60.
Proof.
  intros Hid. unfold DirectoryHandle.from_id, WritableHandle.from_id, RandomHandle.from_id,
    DIRECTORY_HANDLE_FLAG, WRITABLE_HANDLE_FLAG, RANDOM_HANDLE_FLAG.
  rewrite !tag_value by lia. done.
Qed.

(** The numbers of the handles that were given out. *)
Lemma issued_values c h : below (2 ^ 60) c -> issued c h <->
  0 < h < at_videos c \/ 0 < h - 2 ^ 62 < at_directories c \/
  0 < h - 2 ^ 61 < at_writers c \/ 0 < h - 2 ^ 60 < at_randoms c.
Proof.
  intros (Hv & Hd & Hw & Hr). unfold issued. split.
  - intros [?|[(id & Hid & ->)|[(id & Hid & ->)|(id & Hid & ->)]]];
      [by left|destruct (from_id_values id) as (E1 & E2 & E3); [lia|]; rewrite ?E1, ?E2, ?E3; lia..].
  - intros [?|[?|[?|?]]]; [by left|right; left; exists (h - 2 ^ 62)|right; right; left; exists (h - 2 ^ 61)|
      right; right; right; exists (h - 2 ^ 60)]; (split; [done|]);
      match goal with |- _ = _ ?id => destruct (from_id_values id) as (? & ? & ?); lia end.
Qed.

Lemma issued_positive c h : below (2 ^ 60) c -> issued c h -> 0 < h < 2 ^ 63.
Proof. intros Hb Hi%issued_values; [|done]. destruct Hb as (? & ? & ? & ?). lia. Qed.

Lemma called_same e r (e' : AndroidEngine.t T) : engine_inv e' -> counters_of e' = counters_of e ->
  (forall h, r <> Ok (Some h)) -> called e r e'.
Proof.
  intros Hi Hc Hr. split; [done|]. rewrite Hc. split; [done|]. split; [|by intros h ?%Hr].
  unfold below. intros n ?. lia.
Qed.

(** A table has gone on by one, to the handle with that number. *)
Lemma called_opened e h (e' : AndroidEngine.t T) : engine_inv e' ->
  below (2 ^ 60) (counters_of e) -> below (2 ^ 60) (counters_of e') ->
  (let c := counters_of e in let c' := counters_of e' in
   at_videos c <= at_videos c' <= at_videos c + 1 /\
   at_directories c <= at_directories c' <= at_directories c + 1 /\
   at_writers c <= at_writers c' <= at_writers c + 1 /\ at_randoms c <= at_randoms c' <= at_randoms c + 1 /\
   (h = at_videos c /\ at_videos c' = h + 1 \/
    h = at_directories c + 2 ^ 62 /\ at_directories c' = at_directories c + 1 \/
    h = at_writers c + 2 ^ 61 /\ at_writers c' = at_writers c + 1 \/
    h = at_randoms c + 2 ^ 60 /\ at_randoms c' = at_randoms c + 1) /\
   0 < at_videos c /\ 0 < at_directories c /\ 0 < at_writers c /\ 0 < at_randoms c) ->
  called e (Ok (Some h)) e'.
Proof.
  intros Hi Hb Hb' Hc. cbv zeta in Hc. split; [done|]. split.
  { intros h'. rewrite !issued_values by done. lia. }
  unfold below in *. split; [lia|]. intros h' [= <-]. rewrite !issued_values by done. lia.
Qed.

Definition opened_by (e : AndroidEngine.t T) (r : bridge Z) (p : AndroidEngine.t T * W) : Prop :=
  match r with
  | Ok h => called e (Ok (Some h)) p.1
  | _ => False
  end.

Definition room (e : AndroidEngine.t T) : Prop := below (2 ^ 60 - 1) (counters_of e).

Lemma inv_next e : engine_inv e -> let c := counters_of e in
  0 < at_videos c /\ 0 < at_directories c /\ 0 < at_writers c /\ 0 < at_randoms c.
Proof. intros [[] [] [] []]. cbn. lia. Qed.

Lemma opens_directory d e w : engine_inv e -> room e -> directory_ok d ->
  eruns (rec! id := AndroidEngine.on_directories (HandleTable.insert (Mutex.mk false d)) in
         eret (DirectoryHandle.from_id id)) (e, w) (opened_by e).
Proof.
  intros Hi Hroom Hd. pose proof (inv_next e Hi) as Hn. destruct Hroom as (Hv & Hdr & Hw & Hr).
  pose proof Hi as [Iv Id Iw Ir]. cbn in *.
  destruct (insert_inv _ (AndroidEngine.directories e) (Mutex.mk false d) Id) as (t' & E & It & Ht);
    [lia|by split|].
  unfold eruns, ebind, AndroidEngine.on_directories. rewrite E. cbn.
  destruct (from_id_values (HandleTable.next (AndroidEngine.directories e))) as (-> & _); [lia|].
  apply called_opened; [by split|unfold below; cbn; lia..|]. cbn. lia.
Qed.

Lemma opens_writable f e w : engine_inv e -> room e -> open_ok f ->
  eruns (rec! id := AndroidEngine.on_writers (HandleTable.insert (Mutex.mk false f)) in
         eret (WritableHandle.from_id id)) (e, w) (opened_by e).
Proof.
  intros Hi Hroom Hf. pose proof (inv_next e Hi) as Hn. destruct Hroom as (Hv & Hdr & Hw & Hr).
  pose proof Hi as [Iv Id Iw Ir]. cbn in *.
  destruct (insert_inv _ (AndroidEngine.writers e) (Mutex.mk false f) Iw) as (t' & E & It & Ht);
    [lia|by split|].
  unfold eruns, ebind, AndroidEngine.on_writers. rewrite E. cbn.
  destruct (from_id_values (HandleTable.next (AndroidEngine.writers e))) as (_ & -> & _); [lia|].
  apply called_opened; [by split|unfold below; cbn; lia..|]. cbn. lia.
Qed.

Lemma opens_random f e w : engine_inv e -> room e -> open_ok f ->
  eruns (rec! id := AndroidEngine.on_randoms
           (HandleTable.insert (RandomEntry.mk false (Mutex.mk false f))) in
         eret (RandomHandle.from_id id)) (e, w) (opened_by e).
Proof.
  intros Hi Hroom Hf. pose proof (inv_next e Hi) as Hn. destruct Hroom as (Hv & Hdr & Hw & Hr).
  pose proof Hi as [Iv Id Iw Ir]. cbn in *.
  destruct (insert_inv _ (AndroidEngine.randoms e) (RandomEntry.mk false (Mutex.mk false f)) Ir)
    as (t' & E & It & Ht); [lia|by split|].
  unfold eruns, ebind, AndroidEngine.on_randoms. rewrite E. cbn.
  destruct (from_id_values (HandleTable.next (AndroidEngine.randoms e))) as (_ & _ & ->); [lia|].
  apply called_opened; [by split|unfold below; cbn; lia..|]. cbn. lia.
Qed.

Lemma opens_video v e w : engine_inv e -> room e ->
  eruns (AndroidEngine.on_videos (HandleTable.insert v)) (e, w) (opened_by e).
Proof.
  intros Hi Hroom. pose proof (inv_next e Hi) as Hn. destruct Hroom as (Hv & Hdr & Hw & Hr).
  pose proof Hi as [Iv Id Iw Ir]. cbn in *.
  destruct (insert_inv _ (AndroidEngine.videos e) v Iv) as (t' & E & It & Ht); [lia|done|].
  unfold eruns, AndroidEngine.on_videos. rewrite E. cbn.
  apply called_opened; [by split|unfold below; cbn; lia..|]. cbn. lia.
Qed.

Lemma opened_share_runs {A} (valid : bridge unit) request options
    (k : session -> TreeHandle.t -> rust_string -> FileHandle.t -> A) (P : A -> Prop) (insert : A -> engine Z)
    (e : AndroidEngine.t T) (w : W) :
  returns valid -> (forall s tree path file, session_wf s -> P (k s tree path file)) ->
  (forall a e w, engine_inv e -> room e -> P a -> eruns (insert a) (e, w) (opened_by e)) ->
  engine_inv e -> room e ->
  eruns (opens (rec! _ := elift valid in
                rec! a := AndroidEngine.open_on_share request options k in insert a)) (e, w)
    (fun r p => called e r p.1).
Proof.
  intros Hv HP Hins Hi Hroom. unfold opens. apply eruns_bind. apply eruns_bind_lift; [done| |].
  { intros er _. by apply called_same. }
  intros [] _. apply eruns_bind. eapply eruns_mono; [apply open_on_share_runs|].
  intros [a|er| |] [e1 w1] [He Ha]; cbn in He; subst e1; [|by apply called_same|done..].
  destruct Ha as (s & tree & path & file & -> & Hs & _).
  eapply eruns_mono; [apply Hins; [done|done|by apply HP]|].
  intros [h|er| |] p Hp; [|by destruct Hp..]. exact Hp.
Qed.

Lemma video_broker_opened patience policy config tokens clock script recipe w : recipe_wf recipe ->
  (recovering_video_broker_with_policy patience policy config tokens clock script (recipe, w)).1 <> Panic.
Proof.
  intros Hr. unfold recovering_video_broker_with_policy, ebind, elift.
  unfold validate_queue_capacity. destruct (_ =? 0); cbn; [done|].
  assert (returns (VideoReader.new (VideoBrokerConfig.reader config))) as Hnew.
  { unfold VideoReader.new, validate_config. by repeat case_match. }
  destruct (VideoReader.new _) as [reader|er| |]; cbn; [|done..].
  pose proof (connected_runs patience policy (recipe, w) Hr) as Hc.
  destruct (connect_with_policy _ _ _) as [[f|er| |] p']; cbn; done.
Qed.

Lemma opened_video_runs patience request tokens clock script e w : engine_inv e -> room e ->
  eruns (rec! opened := AndroidEngine.open_video patience request tokens clock script in
         eret (Some (fst opened))) (e, w) (fun r p => called e r p.1).
Proof.
  intros Hi Hroom. apply eruns_bind. unfold AndroidEngine.open_video.
  apply eruns_bind_lift; [unfold validate_open_request; by repeat case_match|by intros; apply called_same|].
  intros [] _. cbv zeta. apply eruns_get. apply eruns_bind, in_world_runs.
  match goal with |- eruns (fun w => let '(_, _) := recovering_video_broker_with_policy ?p ?q ?c ?t ?k ?s
      (?r, w) in _) _ _ => pose proof (video_broker_opened p q c t k s r w) as Hp;
    assert (recipe_wf r) as Hr by (split; [by intros ? [=]|by intros ? [=]]); specialize (Hp Hr) end.
  unfold eruns at 1. destruct (recovering_video_broker_with_policy _ _ _ _ _ _ _) as [[runner|er| |] [rec w1]];
    cbn [omap_err fst]; [|by apply called_same|done..].
  apply eruns_bind. eapply eruns_mono; [by apply opens_video|].
  intros [h|er| |] p Hp'; [|by destruct Hp'..]. exact Hp'.
Qed.

(** Every call keeps the invariant, and never panics. *)
Lemma uses_called {A} (m : engine A) e w : stays m -> engine_inv e ->
  eruns (uses m) (e, w) (fun r p => called e r p.1).
Proof.
  intros Hm Hi. unfold uses. apply eruns_bind. eapply eruns_mono; [by apply Hm|].
  intros [a|er| |] p [Hp Hc]; [|by apply called_same|done..]. unfold eruns, eret. by apply called_same.
Qed.

Lemma stays_mutate patience request operation :
  stays (AndroidEngine.mutate patience request operation).
Proof.
  intros e w Hi. eapply eruns_mono; [by apply mutate_runs|]. by intros r p [-> _].
Qed.

Lemma stays_close_directory handle : stays (AndroidEngine.close_directory handle).
Proof.
  apply stays_elift_bind; [apply returns_directory_key|]. intros key _.
  apply stays_directories. intros t Ht. apply with_removed_inv; [done|]. intros m Hm.
  eapply eruns_mono; [by apply (with_lock_runs directory_ok); [|intros d Hd;
    eapply eruns_mono; [by apply close_directory_runs|]; intros r d' (c & s' & -> & Hc & _);
    by eapply one_close_wf]|done].
Qed.

Lemma keeps_close f : open_ok f -> eruns close_open f (fun _ f' => open_ok f').
Proof.
  intros Hf. eapply eruns_mono; [by apply close_open_runs|].
  intros r f' (c & s' & -> & Hc & _). by eapply one_close_wf.
Qed.

Lemma stays_close_writable handle : stays (AndroidEngine.close_writable handle).
Proof.
  apply stays_elift_bind; [apply returns_writable_key|]. intros key _.
  apply stays_writers. intros t Ht. apply with_removed_inv; [done|]. intros m Hm.
  eapply eruns_mono; [by apply (with_lock_runs open_ok); [|apply keeps_close]|done].
Qed.

Lemma stays_close_random handle : stays (AndroidEngine.close_random handle).
Proof.
  apply stays_elift_bind; [apply returns_random_key|]. intros key _.
  apply stays_randoms. intros t Ht. apply with_removed_inv; [done|]. intros entry Hentry.
  pose proof (with_lock_runs open_ok close_open (RandomEntry.state entry) Hentry keeps_close) as Hl.
  unfold eruns, close_random_entry in *. by destruct (with_lock _ _) as [[] m'].
Qed.

Lemma stays_check_length {A} length (m : engine A) : stays m ->
  stays (rec! _ := AndroidEngine.validate_read_length length in m).
Proof.
  intros Hm e w Hi. unfold AndroidEngine.validate_read_length.
  unfold eruns, ebind, eget. cbn. destruct (_ <? length); [done|]. by apply Hm.
Qed.

Lemma awaited_returns {A} (replied : option (BrokerError + A)) :
  VideoBrokerHandle.awaited replied <> Panic.
Proof. by destruct replied as [[|]|]. Qed.

Lemma stays_close_video handle reply replied : stays (AndroidEngine.close_video handle reply replied).
Proof.
  apply stays_videos. intros t Ht. apply with_removed_inv; [done|]. intros v _.
  unfold eruns, AndroidEngine.close_broker, AndroidEngine.on_broker, VideoBrokerHandle.close,
    VideoBrokerHandle.send, on_token, ebind, elift. cbn.
  destruct (Shared.receivers _); cbn; [|done].
  pose proof (awaited_returns replied). by destruct (VideoBrokerHandle.awaited replied).
Qed.

Lemma perform_called patience call e w : call_ok call -> engine_inv e -> room e ->
  eruns (perform patience call) (e, w) (fun r p => called e r p.1).
Proof.
  intros Hok Hi Hroom. destruct call; cbn [perform call_ok] in *;
    try (apply uses_called; [|done]).
  - by apply stays_mutate.
  - apply opened_share_runs with (P := directory_ok); [|done| |done|done].
    + unfold validate_directory_request. case_match; apply returns_validate_request.
    + intros d e1 w1 ? ? ?. by apply opens_directory.
  - apply stays_directory_entry. intros d Hd. eapply eruns_mono; [by apply read_page_runs|]. by intros r d' [? _].
  - apply stays_directory_entry. intros d Hd. eapply eruns_mono; [by apply capacity_runs|]. by intros r d' [? _].
  - apply stays_directory_entry. intros d Hd. by apply keeps_size.
  - apply stays_close_directory.
  - apply opened_share_runs with (P := open_ok); [|done| |done|done]; [apply returns_validate_request|].
    intros f e1 w1 ? ? ?. by apply opens_writable.
  - unfold AndroidEngine.write_writable_at. case_match; [apply stays_fail|].
    apply stays_writable_entry. intros f Hf. by apply keeps_write_writable.
  - apply stays_writable_entry. intros f Hf. by apply keeps_flush.
  - apply stays_close_writable.
  - apply opened_share_runs with (P := open_ok); [|done| |done|done]; [apply returns_validate_request|].
    intros f e1 w1 ? ? ?. by apply opens_random.
  - unfold AndroidEngine.read_random_at. case_match; [apply stays_fail|].
    apply stays_random_entry. intros f Hf. apply keeps_read_random; [done|apply Hok].
  - apply stays_elift_bind.
    { unfold AndroidEngine.random_write_end. case_match; [done|].
      apply returns_bind; [apply returns_ok_or|]. intros; by case_match. }
    intros end_ _. apply stays_random_entry. intros f Hf. by apply keeps_write_random.
  - unfold AndroidEngine.set_random_length. destruct (i64_max_u64 <? length) eqn:El; [apply stays_fail|].
    apply stays_random_entry. intros f Hf. apply keeps_set_length; [done|]. bool_facts. lia.
  - apply stays_random_entry. intros f Hf. by apply keeps_flush.
  - apply stays_close_random.
  - by apply opened_video_runs.
  - apply stays_videos. intros t Ht. by apply with_entry_inv.
  - apply stays_check_length, stays_video_entry. intros s.
    unfold VideoBrokerHandle.read, VideoBrokerHandle.generation, VideoBrokerHandle.send, on_token, ebind, elift.
    cbn. destruct (Shared.receivers _); cbn; [|done]. apply awaited_returns.
  - apply stays_check_length, stays_video_entry. intros s.
    unfold VideoBrokerHandle.prefetch, VideoBrokerHandle.generation, on_token, ebind. cbn. by case_match.
  - apply stays_video_entry. intros s. done.
  - apply stays_close_video.
Qed.

(** What a sequence of calls comes to. *)
Definition all_called (c : counters) (rs : list (bridge (option Z))) (e' : AndroidEngine.t T) : Prop :=
  Panic ∉ rs /\ NoDup (opened_handles rs) /\
  Forall (fun h => 0 < h < 2 ^ 63 /\ ~ issued c h) (opened_handles rs) /\
  (OutOfFuel ∉ rs -> engine_inv e').

Lemma perform_all_runs patience calls : forall e w, Forall call_ok calls -> engine_inv e ->
  below (2 ^ 60 - 1 - Z.of_nat (length calls)) (counters_of e) ->
  let '(rs, p) := perform_all patience calls (e, w) in all_called (counters_of e) rs p.1.
Proof.
  induction calls as [|call calls IH]; intros e w Hok Hi Hroom; cbn [perform_all].
  { split; [apply not_elem_of_nil|]. split; [constructor|]. by split; [constructor|]. }
  apply Forall_cons in Hok as [Hok Hoks]. cbn [length] in Hroom.
  assert (room e) as Hr by (unfold room, below in *; lia).
  pose proof (perform_called patience call e w Hok Hi Hr) as Hc. unfold eruns in Hc.
  assert (forall r e1 w1, called e r e1 -> r <> Panic ->
    let '(rs, p) := perform_all patience calls (e1, w1) in
    all_called (counters_of e) (r :: rs) p.1) as Hstep.
  { intros r e1 w1 (Hi1 & Hold & Hnew & Hh) Hnp.
    assert (below (2 ^ 60 - 1 - Z.of_nat (length calls)) (counters_of e1)) as Hroom1.
    { apply Hnew in Hroom. unfold below in *. lia. }
    specialize (IH e1 w1 Hoks Hi1 Hroom1). destruct (perform_all patience calls (e1, w1)) as [rs p].
    destruct IH as (Hnp' & Hnd & Hf & Hinv).
    split; [apply not_elem_of_cons; split; [congruence|done]|].
    assert (Forall (fun h => 0 < h < 2 ^ 63 /\ ~ issued (counters_of e) h) (opened_handles rs)) as Hf'.
    { eapply Forall_impl; [exact Hf|]. cbn. intros h [? Hni]. split; [done|]. by intros ?%Hold. }
    assert (OutOfFuel ∉ r :: rs -> engine_inv p.1) as Hinv'.
    { intros Hno. apply Hinv. by apply not_elem_of_cons in Hno as [_ ?]. }
    destruct r as [[h|]|er| |]; cbn [opened_handles omap list_omap]; try by split.
    destruct (Hh h eq_refl) as [Hin Hni]. split.
    { apply NoDup_cons. split; [|done]. intros Hel. rewrite Forall_forall in Hf. by destruct (Hf h Hel) as [_ ?]. }
    split; [|done]. apply Forall_cons. split; [|done]. split; [|done].
    eapply issued_positive; [|exact Hin]. unfold below in *. lia. }
  destruct (perform patience call (e, w)) as [[x|er| |] [e1 w1]]; [| |done|].
  - specialize (Hstep (Ok x) e1 w1 Hc ltac:(done)). by destruct (perform_all _ _ _).
  - specialize (Hstep (Err er) e1 w1 Hc ltac:(done)). by destruct (perform_all _ _ _).
  - split; [by intros ?%list_elem_of_singleton|]. split; [constructor|]. split; [constructor|].
    intros Hno. exfalso. apply Hno. by left.
Qed.

Lemma new_inv config runtime e : AndroidEngine.new config runtime = Ok e ->
  engine_inv e /\ counters_of e = Build_counters 1 1 1 1.
Proof.
  unfold AndroidEngine.new. do 2 (case_match; [done|]). destruct runtime; [done|]. intros [= <-].
  split; [split; apply table_inv_new|done].
Qed.
End engine_laws.

(** ** Properties *)

(** C12: the engine survives every sequence of calls. Whatever the callers ask for
    in whatever order, with whatever handles, and whatever the servers answer, no
    call panics, so no mutex of the engine is ever poisoned; every session behind
    a handle stays well formed, and when all calls returned the engine is as well
    formed as a new one. The handles given out are all different, also between
    the kinds and after a close, and positive as a Java [long]. *)
Theorem engine_calls_sound {T W} `{TransportSafe T} `{CryptoLaws} `{NtlmEnvironmentLaws} `{HostLaws T W}
    (config : AndroidEngineConfig.t) (runtime : option ErrorKind) (e : AndroidEngine.t T) (patience : nat)
    (calls : list Call) (w : W)
    (Hnew : AndroidEngine.new config runtime = Ok e) (Hcalls : Forall call_ok calls)
    (Hlength : Z.of_nat (length calls) < 2 ^ 60 - 1) :
  let '(rs, p) := perform_all patience calls (e, w) in
  Panic ∉ rs /\ NoDup (opened_handles rs) /\ Forall (fun h => 0 < h < 2 ^ 63) (opened_handles rs) /\
  (OutOfFuel ∉ rs -> engine_inv p.1).
Proof.
  apply new_inv in Hnew as [Hi Hc].
  pose proof (perform_all_runs patience calls e w Hcalls Hi) as Hp. rewrite Hc in Hp.
  specialize (Hp ltac:(unfold below; cbn; lia)).
  destruct (perform_all patience calls (e, w)) as [rs p]. destruct Hp as (Hnp & Hnd & Hf & Hinv).
  split; [done|]. split; [done|]. split; [|done]. eapply Forall_impl; [exact Hf|]. by intros h [? _].
Qed.

#[local] Existing Instance toy_environment.
#[local] Existing Instance toy_environment_laws.
#[local] Existing Instance toy_crypto.
#[local] Existing Instance toy_laws.
#[local] Existing Instance toy_host.
#[local] Existing Instance toy_host_laws.

(** The share of the file server, and connections in which it opens something and
    then answers as told. *)
Definition sample_request : SmbMutationRequest.t := SmbMutationRequest.new [115] [118] sample_path [] [].
Definition share_server (answers : list bytes) : list bytes := take 5 (file_server []) ++ answers.
Definition sample_calls : list Call :=
  [ OpenDirectory sample_request; OpenRandom sample_request; ReadRandom (2 ^ 60 + 1) 0 3;
    OpenWritable sample_request; CloseDirectory (2 ^ 62 + 1); ReadPage (2 ^ 62 + 1);
    OpenDirectory sample_request; Mutate sample_request DeleteFile ].
Definition sample_world : list (list bytes) :=
  [ share_server []; share_server [read_reply 5 [x01; x02; x03]]; share_server []; share_server [] ].
Definition sample_engine : AndroidEngine.t TcpTransport.t :=
  AndroidEngine.mk HandleTable.new HandleTable.new HandleTable.new HandleTable.new (8 * 1024 * 1024)
    (ReadReconnectPolicy.mk 2 (250 * 1000000)).

Lemma engine_calls_sound_witness :
  exists rs p, perform_all 4 sample_calls (sample_engine, sample_world) = (rs, p) /\
    opened_handles rs = [2 ^ 62 + 1; 2 ^ 60 + 1; 2 ^ 61 + 1; 2 ^ 62 + 2] /\ engine_inv p.1.
Proof.
  assert (let '(rs, _) := perform_all 4 sample_calls (sample_engine, sample_world) in
    bool_decide (opened_handles rs = [2 ^ 62 + 1; 2 ^ 60 + 1; 2 ^ 61 + 1; 2 ^ 62 + 2])
    && forallb (fun r => match r with OutOfFuel => false | _ => true end) rs = true) as Ht
    by (vm_compute; reflexivity).
  pose proof (engine_calls_sound AndroidEngineConfig.default None sample_engine 4 sample_calls sample_world
    ltac:(reflexivity) ltac:(repeat constructor; discriminate) ltac:(reflexivity)) as Hs.
  destruct (perform_all 4 sample_calls (sample_engine, sample_world)) as [rs p].
  apply andb_true_iff in Ht as [Hh%bool_decide_eq_true Hf]. destruct Hs as (_ & _ & _ & Hi).
  exists rs, p. split; [reflexivity|]. split; [exact Hh|]. apply Hi. intros Hin.
  rewrite forallb_forall in Hf. apply list_elem_of_In in Hin. by apply Hf in Hin.
Defined.

(** C15: a mutation is made at most once, in a session of its own. Whatever the
    server answers, the tables of the engine are left alone. A request whose
    host, port, share or path (or whose new name) is not acceptable is refused
    with nothing sent and the world untouched; and the engine and the layer below
    agree on paths, so that what passes has a canonical form. Else one session is
    connected to the share of the request, or its error returned; and on it
    exactly what the operation of that layer promises is done, once. *)
Theorem engine_mutation_sound {T W} `{TransportSafe T} `{CryptoLaws} `{NtlmEnvironmentLaws} `{HostLaws T W}
    (patience : nat) (request : SmbMutationRequest.t) (operation : FileMutation)
    (e : AndroidEngine.t T) (w : W) :
  eruns (AndroidEngine.mutate patience request operation) (e, w) (fun r p => p.1 = e /\
    match mutation_request_ok request operation with
    | Ok _ =>
        (exists q, normalize_mutation_path (SmbMutationRequest.path request) = Ok q) /\
        match AndroidEngine.connect_share request w with
        | (Ok (s, tree, path), w1) => p.2 = w1 /\ share_connected request (s, tree, path) /\
            exists r0 s', r = omap_err BridgeFs r0 /\ mutated_as operation s tree path r0 s'
        | (failed, w1) => p.2 = w1 /\ exists er, failed = Err er /\ r = Err er
        end
    | refused => p.2 = w /\ r = refused
    end) /\
  (forall path, validate_mutation_path path = Ok tt <-> exists q, normalize_mutation_path path = Ok q).
Proof.
  split; [|apply validated_paths]. eapply eruns_mono; [by apply mutate_runs|]. intros r p [He Hr].
  split; [done|]. destruct (mutation_request_ok request operation) as [u| | |] eqn:Hok; [|done..].
  split; [|done]. apply validated_paths. unfold mutation_request_ok in Hok.
  apply obind_ok in Hok as ([] & Hv & _). unfold validate_mutation_request in Hv.
  clear -Hv. repeat (case_match; [done|]). done.
Qed.

(** A server that lets the file be deleted. *)
Definition deletable : list bytes :=
  share_server [ Reconnect.reply Command.SetInfo 0 5 77 (le_bytes 2 2);
                 Reconnect.reply Command.Close 0 6 77 (le_bytes 2 60 ++ le_bytes 2 0 ++ replicate 56 x00) ].

Lemma engine_mutation_sound_witness :
  exists s tree w1 s', (AndroidEngine.connect_share sample_request [deletable]) = (Ok (s, tree, sample_path), w1) /\
    share_connected sample_request (s, tree, sample_path) /\
    mutated_as DeleteFile s tree sample_path (Ok tt) s'.
Proof.
  assert (eended (fun _ _ => true) (AndroidEngine.mutate 4 sample_request DeleteFile (sample_engine, [deletable]))
    = true) as Ht by (vm_compute; reflexivity).
  destruct (eruns_ended _ _ _ (fun _ _ => true)
      (proj1 (engine_mutation_sound 4 sample_request DeleteFile sample_engine [deletable])) Ht)
    as ([] & p & [_ Hm] & _).
  replace (mutation_request_ok sample_request DeleteFile) with (Ok tt : bridge unit) in Hm
    by (vm_compute; reflexivity).
  destruct Hm as [_ Hm].
  destruct (AndroidEngine.connect_share sample_request [deletable]) as [[[[s tree] path]|er| |] w1];
    [|by destruct Hm as (_ & ? & _ & [=])|by destruct Hm as (_ & ? & [=] & _)..].
  destruct Hm as (_ & Hc & r0 & s' & Hr & Hm). pose proof Hc as (_ & -> & _).
  exists s, tree, w1, s'. split; [reflexivity|]. split; [exact Hc|].
  destruct r0 as [[]| | |]; try discriminate Hr. exact Hm.
Defined.
