(* ===== verification/Probe.v ===== *)
(** * The probe

    [crates/smb-probe/src/main.rs]: the command line tool that takes the whole
    library through a connection: it reads a range of a file in every way there is
    and compares. Its command line, its hexadecimal payloads and its three runs;
    what is printed on the way is not modelled. *)
From S2P Require Import Prelude WireError Utf16 Frame Header Create CreateContext Durable.
From S2P Require Import Negotiate SessionMessages FileControl.
From S2P Require Import Client Effects Credits MessageIds AsyncResponse Transport Signing Connection.
From S2P Require Import Auth Session Exchange Testkit Tree Files Write Read PipelinedRead Cancellation.
From S2P Require Import Spnego Ntlm Anonymous Reconnect RecoveringRead RecoveringCancel.
From S2P Require Import VideoReader VideoSafety VideoPlayback Broker EngineTypes Engine EngineCalls.

(** ** Errors *)

(** What a [ParseIntError] or a [TryFromIntError] says. *)
Inductive NumberError : Type := Empty | InvalidDigit | PosOverflow | TryFromInt.

(** [Box<dyn Error>]; a message that is formatted keeps its arguments. *)
Inductive ProbeError : Type :=
  | Message (text : string)
  | RangeExceeds (offset end_ file_len : Z)
  | ReadMismatch (reader : string) (offset : Z) (expected actual : rust_string)
  | BarrierTimeout (path : rust_string)
  | ProbeClient (error : ClientError)
  | ProbeBridge (error : AndroidBridgeError)
  | ParseNumber (error : NumberError)
  | ProbeIo (kind : ErrorKind)
  | ProbeRandom.

Definition usage : ProbeError := Message
"usage: smb-io-probe [negotiate] <host> [port]
       smb-io-probe verify <host> <port> <share> <path> <username|-> <password|-> <offset> <expected-hex>
       smb-io-probe verify-reconnect <host> <port> <share> <path> <username|-> <password|-> <first-offset> <first-hex> <second-offset> <second-hex> <ready-file> <resume-file>".
Definition verify_usage : ProbeError := Message
"usage: smb-io-probe verify <host> <port> <share> <path> <username|-> <password|-> <offset> <expected-hex>".
Definition reconnect_usage : ProbeError := Message
"usage: smb-io-probe verify-reconnect <host> <port> <share> <path> <username|-> <password|-> <first-offset> <first-hex> <second-offset> <second-hex> <ready-file> <resume-file>".

Abbreviation probe := (outcome ProbeError).

(** ** Text *)

(** A literal of the source. *)
Definition literal (s : string) : rust_string := Z_of_byte <$> String.list_byte_of_string s.

(** [str::as_bytes]: the UTF-8 encoding. *)
Definition utf8_char (c : Z) : list Z :=
  if c <? 0x80 then [c] else
  if c <? 0x800 then [0xC0 + c / 0x40; 0x80 + c mod 0x40] else
  if c <? 0x10000 then [0xE0 + c / 0x1000; 0x80 + c / 0x40 mod 0x40; 0x80 + c mod 0x40] else
  [0xF0 + c / 0x40000; 0x80 + c / 0x1000 mod 0x40; 0x80 + c / 0x40 mod 0x40; 0x80 + c mod 0x40].
Definition as_bytes (s : rust_string) : list Z := s ≫= utf8_char.

(** [str::parse] of an unsigned integer with this maximum. *)
Fixpoint parse_digits (maximum value : Z) (digits : rust_string) : outcome NumberError Z :=
  match digits with
  | [] => Ok value
  | c :: digits =>
      if (48 <=? c) && (c <=? 57) then
        let value := 10 * value + (c - 48) in
        if maximum <? value then Err PosOverflow else parse_digits maximum value digits
      else Err InvalidDigit
  end.
Definition parse_uint (maximum : Z) (text : rust_string) : probe Z :=
  omap_err ParseNumber
    match text with
    | [] => Err Empty
    | 43 :: (_ :: _) as digits => parse_digits maximum 0 (tail digits)
    | digits => parse_digits maximum 0 digits
    end.

Definition hex_nibble (byte : Z) : option Z :=
  if (48 <=? byte) && (byte <=? 57) then Some (byte - 48) else
  if (97 <=? byte) && (byte <=? 102) then Some (byte - 97 + 10) else
  if (65 <=? byte) && (byte <=? 70) then Some (byte - 65 + 10) else None.

Definition non_hex_digit : ProbeError := Message "hex payload contains a non-hex digit".

(** The loop over [chunks_exact(2)]. *)
Fixpoint parse_pairs (input : list Z) : probe bytes :=
  match input with
  | first :: second :: input =>
      let! high := ok_or (hex_nibble first) non_hex_digit in
      let! low := ok_or (hex_nibble second) non_hex_digit in
      let! out := parse_pairs input in
      Ok (byte_of_Z (Z.lor (Z.shiftl high 4 mod 256) low) :: out)
  | _ => Ok []
  end.

Definition parse_hex (value : rust_string) : probe bytes :=
  let input := as_bytes value in
  if is_empty input || negb (len input mod 2 =? 0)
  then Err (Message "hex payload must contain an even, non-zero number of digits")
  else parse_pairs input.

(** [{byte:02x}]. *)
Definition hex_digit (d : Z) : Z := if d <? 10 then 48 + d else 87 + d.
Definition hex (bs : bytes) : rust_string :=
  bs ≫= fun byte => [hex_digit (Z_of_byte byte / 16); hex_digit (Z_of_byte byte mod 16)].
Definition format_guid (guid : bytes) : rust_string := hex guid.

Definition dialect_name (dialect : Dialect) : string :=
  match dialect with
  | Smb202 => "SMB 2.0.2"
  | Smb210 => "SMB 2.1"
  | Smb300 => "SMB 3.0"
  | Smb302 => "SMB 3.0.2"
  | Smb311 => "SMB 3.1.1"
  end.

(** ** The command line *)

Module VerifyRequest.
Record t : Type := mk {
  host : rust_string; port : Z; share : rust_string; path : rust_string;
  username : rust_string; password : rust_string; offset : Z; expected : bytes
}.
End VerifyRequest.

Module ReconnectVerifyRequest.
Record t : Type := mk {
  host : rust_string; port : Z; share : rust_string; path : rust_string;
  username : rust_string; password : rust_string;
  first_offset : Z; first_expected : bytes; second_offset : Z; second_expected : bytes;
  ready_file : rust_string; resume_file : rust_string
}.
End ReconnectVerifyRequest.

(** What the arguments ask for. *)
Inductive ProbeCommand : Type :=
  | RunNegotiate (host : rust_string) (port : Z)
  | RunVerify (request : VerifyRequest.t)
  | RunReconnectVerify (request : ReconnectVerifyRequest.t).

Abbreviation arguments := (est ProbeError (list rust_string)).

(** [args.next()], and [.ok_or_else(missing)?]. *)
Definition next_arg : arguments (option rust_string) := fun args =>
  match args with [] => (Ok None, []) | first :: args => (Ok (Some first), args) end.
Definition required_arg (missing : ProbeError) : arguments rust_string :=
  rec! arg := next_arg in elift (ok_or arg missing).

Definition parse_port (value : option rust_string) : probe Z :=
  match value with
  | Some value => parse_uint u16_max value
  | None => Ok 445
  end.

Definition dash_to_empty (value : rust_string) : rust_string :=
  if bool_decide (value = literal "-") then [] else value.

Definition ensure_no_more_with (message : ProbeError) : arguments unit :=
  rec! arg := next_arg in
  match arg with Some _ => efail message | None => eret tt end.
Definition ensure_no_more : arguments unit := ensure_no_more_with usage.

(** An argument that is a number, and one that is a payload. *)
Definition number_arg (maximum : Z) (missing : ProbeError) : arguments Z :=
  rec! text := required_arg missing in elift (parse_uint maximum text).
Definition hex_arg (missing : ProbeError) : arguments bytes :=
  rec! text := required_arg missing in elift (parse_hex text).

Definition verify_request : arguments VerifyRequest.t :=
  rec! host := required_arg verify_usage in
  rec! port := number_arg u16_max verify_usage in
  rec! share := required_arg verify_usage in
  rec! path := required_arg verify_usage in
  rec! username := required_arg verify_usage in
  rec! password := required_arg verify_usage in
  rec! offset := number_arg u64_max verify_usage in
  rec! expected := hex_arg verify_usage in
  eret (VerifyRequest.mk host port share path (dash_to_empty username) (dash_to_empty password)
          offset expected).

Definition reconnect_request : arguments ReconnectVerifyRequest.t :=
  rec! host := required_arg reconnect_usage in
  rec! port := number_arg u16_max reconnect_usage in
  rec! share := required_arg reconnect_usage in
  rec! path := required_arg reconnect_usage in
  rec! username := required_arg reconnect_usage in
  rec! password := required_arg reconnect_usage in
  rec! first_offset := number_arg u64_max reconnect_usage in
  rec! first_expected := hex_arg reconnect_usage in
  rec! second_offset := number_arg u64_max reconnect_usage in
  rec! second_expected := hex_arg reconnect_usage in
  rec! ready_file := required_arg reconnect_usage in
  rec! resume_file := required_arg reconnect_usage in
  eret (ReconnectVerifyRequest.mk host port share path (dash_to_empty username) (dash_to_empty password)
          first_offset first_expected second_offset second_expected ready_file resume_file).

Definition parse_command : arguments ProbeCommand :=
  rec! first := required_arg usage in
  if bool_decide (first = literal "negotiate") then
    rec! host := required_arg usage in
    rec! port := next_arg in
    rec! port := elift (parse_port port) in
    rec! _ := ensure_no_more in
    eret (RunNegotiate host port)
  else if bool_decide (first = literal "verify") then
    rec! request := verify_request in
    rec! _ := ensure_no_more_with verify_usage in
    eret (RunVerify request)
  else if bool_decide (first = literal "verify-reconnect") then
    rec! request := reconnect_request in
    rec! _ := ensure_no_more_with reconnect_usage in
    eret (RunReconnectVerify request)
  else
    rec! port := next_arg in
    rec! port := elift (parse_port port) in
    rec! _ := ensure_no_more in
    eret (RunNegotiate first port).

(** ** The runs *)

(** [TcpStream::peer_addr] of a connection. *)
Class Peer (T : Type) : Type := { peer_addr : T -> client rust_string }.
Class PeerLaws (T : Type) `{Peer T} : Prop := { peer_addr_returns t : returns (peer_addr t) }.

(** What [run_negotiate] prints. *)
Module NegotiateReport.
Record t : Type := mk {
  peer : rust_string; dialect : string; server_guid : rust_string;
  signing_enabled : bool; signing_required : bool; capabilities : Z; initial_credits : Z;
  max_transact_size : Z; max_read_size : Z; max_write_size : Z; preauth_hash_active : bool
}.
End NegotiateReport.

(** What passes between the second run and the world around it: the runtime of
    the engine and the task of the broker, whose replies come through the channels,
    and the file system. [ready] is what writing the ready file came to, [looks]
    are the times of the looks for the other file, and whether it was there. *)
Module ReconnectEnvironment.
Record t : Type := mk {
  runtime : option ErrorKind;
  tokens : list nat * list nat;
  clock : list Z;
  script : list (list Happening);
  first_reply : option (BrokerError + bytes);
  second_reply : option (BrokerError + bytes);
  close_reply : option (BrokerError + CloseInfo.t);
  ready : option ErrorKind;
  deadline : Z;
  looks : list (Z * bool)
}.
End ReconnectEnvironment.

Section probe.
Context {T W : Type} `{Transport T} `{Crypto} `{NtlmEnvironment} `{Host T W} `{Peer T}.
#[local] Abbreviation session := (SessionConnection.t T).
#[local] Abbreviation world := (est ProbeError W).

Definition probe_random (n : Z) : world bytes := fun w =>
  let '(r, w) := fill_random n w in (ok_or r ProbeRandom, w).

Definition negotiated_connection (host : rust_string) (port : Z) : world (Connection.t T * rust_string) :=
  rec! client_guid := probe_random 16 in
  rec! preauth_salt := probe_random 32 in
  rec! transport := (fun w => let '(r, w) := tcp_connect host port w in (omap_err ProbeClient r, w)) in
  rec! peer := elift (omap_err ProbeClient (peer_addr transport)) in
  match Connection.negotiate (NegotiateConfig.modern client_guid preauth_salt) (Connection.new transport) with
  | (Ok _, connection) => eret (connection, peer)
  | (Err e, _) => efail (ProbeClient e)
  | (Panic, _) => elift Panic
  | (OutOfFuel, _) => elift OutOfFuel
  end.

Definition probe_establish_session (connection : Connection.t T) (username password : rust_string) :
    client session :=
  if is_empty username
  then (session_setup SessionSetupConfig.default (connection, NullSession.new)).1
  else (session_setup SessionSetupConfig.default
          (connection, ntlm_new (NtlmCredentials.new username password))).1.

Definition run_negotiate (host : rust_string) (port : Z) : world NegotiateReport.t :=
  rec! made := negotiated_connection host port in
  let '(connection, peer) := made in
  rec! negotiated := elift (ok_or (Connection.negotiated connection)
                              (Message "NEGOTIATE completed without negotiated parameters")) in
  eret (NegotiateReport.mk peer (dialect_name (NegotiatedParameters.dialect negotiated))
          (format_guid (NegotiatedParameters.server_guid negotiated))
          (NegotiatedParameters.signing_enabled negotiated)
          (NegotiatedParameters.signing_required negotiated)
          (NegotiatedParameters.capabilities negotiated)
          (NegotiatedParameters.initial_credits negotiated)
          (NegotiatedParameters.max_transact_size negotiated)
          (NegotiatedParameters.max_read_size negotiated)
          (NegotiatedParameters.max_write_size negotiated)
          (bool_decide (is_Some (Connection.preauth_hash connection)))).

(** *** Verifying a range *)

Definition unc (request : VerifyRequest.t) : rust_string :=
  [92; 92] ++ VerifyRequest.host request ++ [92] ++ VerifyRequest.share request.

(** [session.op(..).await?]. *)
Definition on_session {A} (m : st session A) : est ProbeError session A :=
  client_on ProbeClient id (fun _ s => s) m.

(** A read that must give the expected bytes. *)
Definition compare_read (reader : string) (request : VerifyRequest.t) (m : st session bytes) :
    est ProbeError session unit :=
  rec! data := on_session m in
  if negb (bool_decide (data = VerifyRequest.expected request))
  then efail (ReadMismatch reader (VerifyRequest.offset request) (hex (VerifyRequest.expected request)) (hex data))
  else eret tt.
(** A read at the end of the file. *)
Definition empty_read (message : string) (m : st session bytes) : est ProbeError session unit :=
  rec! data := on_session m in
  if negb (is_empty data) then efail (Message message) else eret tt.

Definition verify_reads (patience : nat) (request : VerifyRequest.t) (file : FileHandle.t) :
    est ProbeError session unit :=
  let offset := VerifyRequest.offset request in
  let expected := VerifyRequest.expected request in
  rec! count := elift (ok_or (try_from u64_max (len expected)) (ParseNumber TryFromInt)) in
  rec! expected_end := elift (ok_or (checked_add u64_max offset count)
                                (Message "verification offset overflow")) in
  if FileHandle.length_ file <? expected_end
  then efail (RangeExceeds offset expected_end (FileHandle.length_ file)) else
  rec! _ := compare_read "direct" request (read_at patience file offset (len expected)) in
  rec! _ := compare_read "pipelined" request (read_at_pipelined patience file offset (len expected)) in
  rec! _ := empty_read "direct read at EOF returned data"
              (read_at patience file (FileHandle.length_ file) 1) in
  empty_read "pipelined read at EOF returned data"
    (read_at_pipelined patience file (FileHandle.length_ file) 1).

Definition verify_session (patience : nat) (request : VerifyRequest.t) : est ProbeError session unit :=
  rec! tree := on_session (tree_connect (unc request) TreeConnectOptions.default) in
  rec! file := on_session (open_file tree (VerifyRequest.path request) FileOpenOptions.read_existing_random) in
  rec! _ := verify_reads patience request file in
  rec! _ := on_session (close_file file CloseOptions.default) in
  eret tt.

Definition run_verify (patience : nat) (request : VerifyRequest.t) : world unit :=
  if is_empty (VerifyRequest.expected request)
  then efail (Message "verify expected hex payload must not be empty") else
  rec! made := negotiated_connection (VerifyRequest.host request) (VerifyRequest.port request) in
  rec! session := elift (omap_err ProbeClient (probe_establish_session (fst made)
                    (VerifyRequest.username request) (VerifyRequest.password request))) in
  elift (verify_session patience request session).1.

(** *** Verifying across a reconnection *)

#[local] Abbreviation engine := (est ProbeError (AndroidEngine.t T * W)).
Definition on_engine {A} (m : est AndroidBridgeError (AndroidEngine.t T * W) A) : engine A := fun s =>
  let '(r, s) := m s in (omap_err ProbeBridge r, s).

Definition verify_engine_read (handle offset : Z) (expected : bytes) (reply : nat)
    (replied : option (BrokerError + bytes)) : engine unit :=
  rec! actual := on_engine (AndroidEngine.read_at handle offset (len expected) reply replied) in
  if negb (bool_decide (actual = expected))
  then efail (ReadMismatch "Android engine" offset (hex expected) (hex actual)) else eret tt.

(** The loop until the deadline; the sleep between looks is the time that has
    passed at the next one. *)
Fixpoint wait_for_file (path : rust_string) (deadline : Z) (looks : list (Z * bool)) : probe unit :=
  match looks with
  | [] => OutOfFuel
  | (now, exists_) :: looks =>
      if now <? deadline then if exists_ : bool then Ok tt else wait_for_file path deadline looks
      else Err (BarrierTimeout path)
  end.

Definition probe_engine_config : AndroidEngineConfig.t :=
  AndroidEngineConfig.mk (AndroidEngineConfig.runtime_worker_threads AndroidEngineConfig.default)
    (AndroidEngineConfig.max_read_bytes AndroidEngineConfig.default) 6 (250 * 1000000).

Definition probe_open_request (request : ReconnectVerifyRequest.t) : VideoOpenRequest.t :=
  let open := VideoOpenRequest.new (ReconnectVerifyRequest.host request)
    (ReconnectVerifyRequest.share request) (ReconnectVerifyRequest.path request)
    (ReconnectVerifyRequest.username request) (ReconnectVerifyRequest.password request) in
  VideoOpenRequest.mk (VideoOpenRequest.host open) (ReconnectVerifyRequest.port request)
    (VideoOpenRequest.share open) (VideoOpenRequest.path open) (VideoOpenRequest.username open)
    (VideoOpenRequest.password open) (VideoOpenRequest.domain open) (VideoOpenRequest.workstation open)
    (VideoOpenRequest.stream open).

(** What is done with the engine. *)
Definition reconnect_steps (patience : nat) (request : ReconnectVerifyRequest.t)
    (env : ReconnectEnvironment.t) : engine unit :=
  rec! opened := on_engine (AndroidEngine.open_video patience (probe_open_request request)
      (ReconnectEnvironment.tokens env) (ReconnectEnvironment.clock env) (ReconnectEnvironment.script env)) in
  let handle := fst opened in
  rec! _ := verify_engine_read handle (ReconnectVerifyRequest.first_offset request)
      (ReconnectVerifyRequest.first_expected request) 0 (ReconnectEnvironment.first_reply env) in
  rec! _ := elift (match ReconnectEnvironment.ready env with Some kind => Err (ProbeIo kind) | None => Ok tt end) in
  rec! _ := elift (wait_for_file (ReconnectVerifyRequest.resume_file request)
      (ReconnectEnvironment.deadline env) (ReconnectEnvironment.looks env)) in
  rec! _ := on_engine (AndroidEngine.seek handle) in
  rec! _ := verify_engine_read handle (ReconnectVerifyRequest.second_offset request)
      (ReconnectVerifyRequest.second_expected request) 1 (ReconnectEnvironment.second_reply env) in
  rec! _ := on_engine (AndroidEngine.close_video handle 2 (ReconnectEnvironment.close_reply env)) in
  eret tt.

Definition run_reconnect_verify (patience : nat) (request : ReconnectVerifyRequest.t)
    (env : ReconnectEnvironment.t) : world unit :=
  if is_empty (ReconnectVerifyRequest.first_expected request)
     || is_empty (ReconnectVerifyRequest.second_expected request)
  then efail (Message "reconnect expected payloads must not be empty") else
  rec! engine := elift (omap_err ProbeBridge
                          (AndroidEngine.new probe_engine_config (ReconnectEnvironment.runtime env))) in
  fun w => let '(r, (_, w)) := reconnect_steps patience request env (engine, w) in (r, w).

(** The thread that is joined; its error is passed on as text. *)
Definition run_reconnect_verify_on_plain_thread (patience : nat) (request : ReconnectVerifyRequest.t)
    (env : ReconnectEnvironment.t) : world unit := fun w =>
  match run_reconnect_verify patience request env w with
  | (Panic, w) => (Err (Message "reconnect verifier thread panicked"), w)
  | (r, w) => (r, w)
  end.

Definition main (patience : nat) (env : ReconnectEnvironment.t) (args : list rust_string) : world unit :=
  rec! command := elift (parse_command args).1 in
  match command with
  | RunNegotiate host port => rec! _ := run_negotiate host port in eret tt
  | RunVerify request => run_verify patience request
  | RunReconnectVerify request => run_reconnect_verify_on_plain_thread patience request env
  end.
End probe.

(** ** The payloads *)

(** The lower-case form of a hexadecimal digit. *)
Definition lower_hex (c : Z) : Z := if (65 <=? c) && (c <=? 70) then c + 32 else c.

Lemma hex_nibble_iff c d :
  hex_nibble c = Some d <-> 0 <= d < 16 /\ lower_hex c = hex_digit d.
Proof.
  unfold hex_nibble, lower_hex, hex_digit.
  repeat (case_match; bool_facts); (split; [intros [= <-]|intros [Hd Hc]]); bool_facts; try lia;
    try (f_equal; lia).
Qed.

Lemma pack_nibbles high low : 0 <= high < 16 -> 0 <= low < 16 ->
  Z.lor (Z.shiftl high 4 mod 256) low = 16 * high + low.
Proof.
  intros Hh Hl. rewrite Z.mod_small by (rewrite Z.shiftl_mul_pow2 by lia; lia).
  rewrite lor_shiftl_add by lia. lia.
Qed.

Lemma parse_pairs_iff b : forall input, Nat.Even (length input) ->
  parse_pairs input = Ok b <-> lower_hex <$> input = hex b.
Proof.
  induction b as [|c b IH]; intros [|x [|y input]] He; try (exfalso; destruct He as [k Hk]; cbn in Hk; lia); cbn [parse_pairs].
  - done.
  - split; [|done]. destruct (hex_nibble x); [|done]. destruct (hex_nibble y); [|done]. cbn.
    by destruct (parse_pairs input).
  - done.
  - assert (Nat.Even (length input)) as He' by (destruct He as [k Hk]; exists (k - 1)%nat; cbn in Hk; lia).
    specialize (IH input He'). pose proof (Z_of_byte_range c) as Hc.
    change (hex (c :: b)) with (hex_digit (Z_of_byte c / 16) :: hex_digit (Z_of_byte c mod 16) :: hex b).
    cbn [fmap list_fmap]. split.
    + destruct (hex_nibble x) as [h|] eqn:Hx; [|done]. destruct (hex_nibble y) as [l|] eqn:Hy; [|done].
      apply hex_nibble_iff in Hx as [Hh ->], Hy as [Hl ->]. cbn [ok_or obind].
      destruct (parse_pairs input) as [out| | |]; cbn [obind]; try done. intros [= <- ->].
      rewrite (proj1 IH eq_refl), pack_nibbles, Z_of_byte_of_Z by done.
      rewrite (Z.mod_small _ 256) by lia. repeat f_equal; [|symmetry in |- *]; Z.div_mod_to_equations; lia.
    + intros [= Hx Hy Hrest]. rewrite (proj2 (hex_nibble_iff x (Z_of_byte c / 16)));
        [|split; [Z.div_mod_to_equations; lia|done]].
      rewrite (proj2 (hex_nibble_iff y (Z_of_byte c mod 16))); [|split; [apply Z.mod_pos_bound; lia|done]].
      cbn [ok_or obind]. rewrite (proj2 IH Hrest). cbn [obind]. rewrite pack_nibbles.
      * by rewrite <- Z.div_mod, byte_of_Z_of_byte.
      * Z.div_mod_to_equations; lia.
      * apply Z.mod_pos_bound; lia.
Qed.

Lemma length_hex b : length (hex b) = (2 * length b)%nat.
Proof. induction b as [|c b IH]; [done|]. unfold hex in *. cbn in *. rewrite IH. lia. Qed.

(** A payload is accepted exactly if its digits, in either case, are those that
    are printed for the bytes. *)
Lemma parse_hex_iff value b : parse_hex value = Ok b <-> b <> [] /\ lower_hex <$> as_bytes value = hex b.
Proof.
  unfold parse_hex. set (input := as_bytes value). destruct (is_empty input) eqn:Hempty; cbn [orb].
  { split; [done|]. intros [Hb Heq]. apply is_empty_true in Hempty. rewrite Hempty in Heq. by destruct b. }
  assert (Nat.Even (length input) <-> len input mod 2 = 0) as Heven.
  { unfold len. split; [intros [k ->]|intros Hm].
    - rewrite Nat2Z.inj_mul, Z.mul_comm. apply Z.mod_mul. lia.
    - exists (Z.to_nat (Z.of_nat (length input) / 2)). Z.div_mod_to_equations. lia. }
  destruct (Z.eqb_spec (len input mod 2) 0) as [Hm|Hm]; cbn [negb].
  - rewrite parse_pairs_iff by by apply Heven. split; [|by intros []]. intros Heq. split; [|done].
    intros ->. by destruct input.
  - split; [done|]. intros [Hb Heq]. destruct Hm. apply Heven. exists (length b).
    by rewrite <- length_hex, <- Heq, length_fmap.
Qed.

Lemma hex_digit_ascii d : 0 <= d < 16 -> 0 <= hex_digit d < 0x80 /\ lower_hex (hex_digit d) = hex_digit d.
Proof. unfold hex_digit, lower_hex. intros Hd. repeat case_match; bool_facts; lia. Qed.

Lemma hex_chars b : Forall (fun c => utf8_char c = [c] /\ lower_hex c = c) (hex b).
Proof.
  assert (forall d, 0 <= d < 16 -> utf8_char (hex_digit d) = [hex_digit d] /\
    lower_hex (hex_digit d) = hex_digit d) as Hd.
  { intros d [Hr Hl]%hex_digit_ascii. split; [|done]. unfold utf8_char.
    by rewrite (proj2 (Z.ltb_lt _ _)) by lia. }
  unfold hex. apply Forall_flat_map, Forall_true. intros c. pose proof (Z_of_byte_range c).
  repeat constructor; apply Hd; Z.div_mod_to_equations; lia.
Qed.

(** What is printed is read back. *)
Lemma parse_hex_hex b : b <> [] -> parse_hex (hex b) = Ok b.
Proof.
  intros Hb. apply parse_hex_iff. split; [done|].
  pose proof (hex_chars b) as Hall. unfold as_bytes. induction Hall as [|c s [Hc Hl] _ IH]; [done|].
  cbn. rewrite Hc. cbn. by rewrite Hl, IH.
Qed.

(** ** Numbers *)

Lemma parse_digits_range maximum digits : forall value v, 0 <= value <= maximum ->
  parse_digits maximum value digits = Ok v -> 0 <= v <= maximum.
Proof.
  induction digits as [|c digits IH]; intros value v Hv; cbn [parse_digits]; [by intros [= <-]|].
  destruct (_ && _) eqn:Hc; [|done]. bool_facts. destruct (Z.ltb_spec maximum (10 * value + (c - 48))); [done|].
  apply IH. lia.
Qed.

Lemma parse_uint_range maximum text v : 0 <= maximum -> parse_uint maximum text = Ok v -> 0 <= v <= maximum.
Proof.
  intros Hm. unfold parse_uint.
  assert (forall digits, omap_err ParseNumber (parse_digits maximum 0 digits) = Ok v -> 0 <= v <= maximum) as Hd.
  { intros digits. pose proof (parse_digits_range maximum digits 0) as Hr.
    destruct (parse_digits maximum 0 digits); cbn; try done. intros [= <-]. apply Hr; [lia|done]. }
  repeat (case_match; try done; try apply Hd).
Qed.

(** ** What a verified range is *)

Section probe_laws.
Context {T W : Type} `{TransportSafe T} `{CryptoLaws} `{NtlmEnvironmentLaws} `{HostLaws T W} `{PeerLaws T}.
#[local] Abbreviation session := (SessionConnection.t T).
#[local] Abbreviation world := (est ProbeError W).

(** The reads of a run, one after the other: both ways of reading gave the bytes,
    and both gave nothing at the end of the file. *)
Definition range_verified (request : VerifyRequest.t) (file : FileHandle.t) (s s' : session) : Prop :=
  let offset := VerifyRequest.offset request in
  let expected := VerifyRequest.expected request in
  let end_ := FileHandle.length_ file in
  offset + len expected <= end_ /\
  exists s1 s2 s3 piped at_end,
    read_result s file offset (len expected) [] (Ok expected) s1 /\
    pipelined_result s1 file offset (len expected) PipelinedReadOptions.default (Ok piped) s2 /\
    PipelinedReadResult.data piped = expected /\
    read_result s2 file end_ 0 [] (Ok []) s3 /\
    pipelined_result s3 file end_ 1 PipelinedReadOptions.default (Ok at_end) s' /\
    PipelinedReadResult.data at_end = [].

Lemma probe_random_runs {A} n (k : bytes -> world A) w Q : 0 <= n ->
  (forall bs w', fill_random n w = (Some bs, w') -> len bs = n -> eruns (k bs) w' Q) -> (forall w', Q (Err ProbeRandom) w') ->
  eruns (ebind (probe_random n) k) w Q.
Proof.
  intros Hn Hk Herr. apply eruns_bind. unfold eruns at 1, probe_random.
  pose proof (fun r => fill_random_len n w r Hn) as Hl.
  destruct (fill_random n w) as [[r|] w']; cbn in *; [apply Hk; [done|by apply Hl]|apply Herr].
Qed.

(** Where a connection comes from: a dial of this host and port, with fresh random
    numbers, and a negotiation of the two messages exchanged with it. *)
Definition connection_made (host : rust_string) (port : Z) (w w' : W) (c : Connection.t T) : Prop :=
  exists guid salt w1 w2 transport p request response t1,
    fill_random 16 w = (Some guid, w1) /\ fill_random 32 w1 = (Some salt, w2) /\
    tcp_connect host port w2 = (Ok transport, w') /\
    send_message request transport = (Ok tt, t1) /\
    receive_message t1 = (Ok response, Connection.transport c) /\
    Connection.negotiated c = Some p /\
    Connection.agreed (NegotiateConfig.modern guid salt) 0 request response p
      (Connection.preauth_hash c) (Connection.credits c).

(** And a session: the authentication of this connection, without a name as an
    anonymous one, with a name by NTLM under that name and password. *)
Definition session_made (host : rust_string) (port : Z) (username password : rust_string) (w w' : W)
    (s : session) : Prop :=
  exists c, connection_made host port w w' c /\
    (username = [] /\ set_up SessionSetupConfig.default (c, NullSession.new) s \/
     username <> [] /\ set_up SessionSetupConfig.default
       (c, ntlm_new (NtlmCredentials.new username password)) s).

Lemma negotiated_connection_runs host port w :
  eruns (negotiated_connection host port) w (fun r w' =>
    match r with Ok (c, _) => Connection.wf c /\ connection_made host port w w' c | _ => True end).
Proof.
  unfold negotiated_connection. apply probe_random_runs; [done| |done]. intros guid w1 Hguid Hg.
  apply probe_random_runs; [done| |done]. intros salt w2 Hsalt _. apply eruns_bind.
  pose proof (tcp_connect_returns host port w2) as Hc. unfold eruns at 1.
  destruct (tcp_connect host port w2) as [[t|e| |] w3] eqn:Hdial; cbn [omap_err]; [|done..].
  apply eruns_bind_lift; [pose proof (peer_addr_returns t); by destruct (peer_addr t)|done|].
  intros peer _.
  pose proof (Connection.negotiate_runs (NegotiateConfig.modern guid salt) (Connection.new t) Hg) as Hn.
  assert (Connection.wf (Connection.new t)) as Hwf by (split; [uint_solve|done..]).
  specialize (Hn Hwf). unfold runs in Hn.
  destruct (Connection.negotiate _ _) as [[n|e| |] c]; [|done..]. unfold eruns, eret.
  destruct Hn as (Hwc & _ & Hneg & request & response & t1 & Hsend & Hrecv & Hagreed). split; [done|].
  by exists guid, salt, w1, w2, t, n, request, response, t1.
Qed.

Lemma probe_establish_runs host port (c : Connection.t T) username password w w' :
  Connection.wf c -> connection_made host port w w' c ->
  match probe_establish_session c username password with
  | Ok s => session_made host port username password w w' s
  | Panic => False
  | _ => True
  end.
Proof.
  intros Hwf Hc. unfold probe_establish_session. destruct (is_empty username) eqn:Hu.
  - apply is_empty_true in Hu as ->.
    pose proof (session_setup_runs SessionSetupConfig.default (c, NullSession.new) Hwf) as Hr.
    unfold runs in Hr. destruct (session_setup _ _) as [[s|e| |] w2]; try done. exists c. split; [done|by left].
  - pose proof (session_setup_runs SessionSetupConfig.default
      (c, ntlm_new (NtlmCredentials.new username password)) Hwf) as Hr.
    unfold runs in Hr. destruct (session_setup _ _) as [[s|e| |] w2]; try done. exists c. split; [done|].
    right. split; [by intros ->|done].
Qed.

Lemma session_made_wf host port username password w w' s :
  session_made host port username password w w' s -> session_wf s.
Proof. by intros (c & _ & [[_ Hs%set_up_wf]|[_ Hs%set_up_wf]]). Qed.

Lemma probe_session_runs {A B} (m : st session A) (k : A -> est ProbeError session B) s P Q :
  runs m s P -> (forall a s', P (Ok a) s' -> eruns (k a) s' Q) ->
  (forall e s', P (Err e) s' -> Q (Err (ProbeClient e)) s') ->
  eruns (ebind (on_session m) k) s Q.
Proof.
  intros Hm Hk Herr. apply eruns_bind. apply eruns_client_on. eapply runs_mono; [exact Hm|].
  intros [a|e| |] s' Hp; cbn [omap_err]; [by apply Hk|by apply Herr|done..].
Qed.

Lemma read_pipelined_runs patience file offset length (s : session) : session_wf s ->
  0 <= offset -> 0 <= length -> Z.of_nat patience < usize_max ->
  runs (read_at_pipelined patience file offset length) s (fun r s' => session_wf s' /\
    match r with
    | Ok data => exists res, pipelined_result s file offset length PipelinedReadOptions.default (Ok res) s' /\
                   PipelinedReadResult.data res = data
    | _ => True
    end).
Proof.
  intros Hs Ho Hl Hp. unfold read_at_pipelined, read_at_pipelined_with_options. apply runs_bind.
  eapply runs_mono; [by apply pipelined_read_runs|].
  intros [res|e| |] s' Hr; [|by destruct Hr as (es & Ha & _); split; [apply Ha|]|done..].
  unfold runs, sret. split; [by destruct Hr as (es & Ha & _); apply Ha|by exists res].
Qed.

Lemma compare_read_runs {B} reader request (m : st session bytes) (k : unit -> est ProbeError session B)
    s P Q : runs m s P -> (forall s', P (Ok (VerifyRequest.expected request)) s' -> eruns (k tt) s' Q) ->
  (forall r e s', P r s' -> Q (Err e) s') -> eruns (ebind (compare_read reader request m) k) s Q.
Proof.
  intros Hm Hk Herr. apply eruns_bind. unfold compare_read.
  eapply probe_session_runs; [exact Hm| |intros e s' Hp; by eapply Herr].
  intros data s' Hp. destruct (bool_decide_reflect (data = VerifyRequest.expected request)) as [->|]; cbn [negb].
  - by apply Hk.
  - by eapply Herr.
Qed.

Lemma empty_read_runs message (m : st session bytes) s P : runs m s P ->
  eruns (empty_read message m) s (fun r s' =>
    match r with Ok _ => P (Ok []) s' | Err _ => exists r, P r s' | _ => False end).
Proof.
  intros Hm. unfold empty_read. eapply probe_session_runs; [exact Hm| |by intros e s' Hp; eexists].
  intros [|b data] s' Hp; cbn [is_empty negb]; [done|by eexists].
Qed.

Lemma read_session_wf s file offset target r (s' : session) :
  read_result s file offset target [] r s' -> session_wf s'.
Proof. intros (es & Ha & _). apply Ha. Qed.

Lemma verify_reads_runs patience request file (s : session) : session_wf s ->
  0 <= VerifyRequest.offset request -> 0 <= FileHandle.length_ file -> Z.of_nat patience < usize_max ->
  eruns (verify_reads patience request file) s (fun r s' => session_wf s' /\
    match r with Ok _ => range_verified request file s s' | _ => True end).
Proof.
  intros Hs Ho Hu Hp. unfold verify_reads. set (expected := VerifyRequest.expected request) in *.
  set (offset := VerifyRequest.offset request) in *. pose proof (len_nonneg expected) as Hl.
  apply eruns_bind_lift; [auto with returns|by intros|intros count [-> _]%ok_or_ok%try_from_some].
  apply eruns_bind_lift; [auto with returns|by intros|intros end_ Hend%ok_or_ok].
  unfold checked_add in Hend. destruct (Z.leb_spec (offset + len expected) u64_max); [|done].
  injection Hend as <-.
  destruct (Z.ltb_spec (FileHandle.length_ file) (offset + len expected)) as [|Hin]; [by split|].
  eapply compare_read_runs; [by apply read_at_runs| |].
  2:{ intros r e s1 Hr%read_session_wf. by split. }
  intros s1 Hr1. pose proof (read_session_wf _ _ _ _ _ _ Hr1) as Hs1.
  replace (Z.max 0 _) with (len expected) in Hr1 by lia.
  eapply compare_read_runs; [by apply read_pipelined_runs| |by intros r e s2 [? _]].
  intros s2 (Hs2 & piped & Hr2 & Hpiped).
  apply eruns_bind. eapply eruns_mono; [by apply empty_read_runs, read_at_runs|].
  intros [[]|e| |] s3 Hr3; [|destruct Hr3 as [r Hr%read_session_wf]; by split|done..].
  pose proof (read_session_wf _ _ _ _ _ _ Hr3) as Hs3. replace (Z.max 0 _) with 0 in Hr3 by lia.
  eapply eruns_mono; [by apply empty_read_runs, read_pipelined_runs|].
  intros [[]|e| |] s4 Hr4; [|destruct Hr4 as [r [Hr _]]; by split|done..].
  destruct Hr4 as (Hs4 & at_end & Hr4 & Hend). split; [done|]. split; [done|].
  by exists s1, s2, s3, piped, at_end.
Qed.

(** The whole run on a session, request by request. *)
Definition file_verified (request : VerifyRequest.t) (s s' : session) : Prop :=
  exists tree result s1 s2 s3 info,
    one_tree_connect s (unc request) TreeConnectOptions.default (Ok tree) s1 /\
    one_open s1 tree (VerifyRequest.path request) FileOpenOptions.read_existing_random [] (Ok result) s2 /\
    range_verified request (FileOpenResult.file result) s2 s3 /\
    one_close s3 (FileOpenResult.file result) CloseOptions.default (Ok info) s'.

Lemma one_request_wf {A} (s : session) encode required answer (good : bytes -> Smb2Header -> A -> Prop) r s' :
  one_request s encode required answer good r s' -> session_wf s'.
Proof. intros (es & Ha & _). apply Ha. Qed.

Lemma verify_session_runs patience request (s : session) : session_wf s ->
  0 <= VerifyRequest.offset request -> Z.of_nat patience < usize_max ->
  eruns (verify_session patience request) s (fun r s' =>
    match r with Ok _ => file_verified request s s' | _ => True end).
Proof.
  intros Hs Ho Hp. unfold verify_session.
  eapply probe_session_runs; [by apply tree_connect_runs| |done]. intros tree s1 Htree.
  assert (session_wf s1) as Hs1 by (destruct Htree as (? & ? & _ & Hone); by eapply one_request_wf).
  eapply probe_session_runs with (P := fun r s' => match r with
      | Ok file => exists result, one_open s1 tree (VerifyRequest.path request)
            FileOpenOptions.read_existing_random [] (Ok result) s' /\ FileOpenResult.file result = file
      | _ => True
      end); [|intros file s2 (result & Hopen & <-)|done].
  { unfold open_file. apply runs_bind. eapply runs_mono; [by apply open_file_runs|].
    intros [result|e| |] s' Hr; [by exists result|done..]. }
  pose proof (one_open_handle _ _ _ _ _ _ _ Hopen) as (_ & _ & Hu).
  pose proof (one_open_wf _ _ _ _ _ _ _ Hs1 Hopen) as Hs2.
  apply eruns_bind. eapply eruns_mono; [apply verify_reads_runs; [done|done|apply Hu|done]|].
  intros [[]|e| |] s3 [Hs3 Hr]; [|done..].
  eapply probe_session_runs; [by apply close_file_runs| |done]. intros info s4 Hclose.
  unfold eruns, eret. by exists tree, result, s1, s2, s3, info.
Qed.

Lemma run_verify_runs patience request w : 0 <= VerifyRequest.offset request ->
  Z.of_nat patience < usize_max ->
  eruns (run_verify patience request) w (fun r w' =>
    match r with
    | Ok _ => VerifyRequest.expected request <> [] /\
        exists s s' : session, session_made (VerifyRequest.host request) (VerifyRequest.port request)
            (VerifyRequest.username request) (VerifyRequest.password request) w w' s /\
          file_verified request s s'
    | _ => True
    end).
Proof.
  intros Ho Hp. unfold run_verify. destruct (is_empty _) eqn:Hempty; [done|].
  apply eruns_bind. eapply eruns_mono; [apply negotiated_connection_runs|].
  intros [[c peer]|e| |] w1 Hc; [|done..]. destruct Hc as [Hwf Hc]. cbn [fst].
  unfold ebind, elift, eruns.
  pose proof (probe_establish_runs _ _ _ (VerifyRequest.username request)
    (VerifyRequest.password request) _ _ Hwf Hc) as Hmade.
  destruct (probe_establish_session _ _ _) as [s|e| |]; cbn [omap_err]; [|done..].
  pose proof (verify_session_runs patience request s (session_made_wf _ _ _ _ _ _ _ Hmade) Ho Hp) as Hr.
  unfold eruns in Hr.
  destruct (verify_session patience request s) as [[[]|e| |] s']; [|done..]. cbn [fst].
  split; [|by exists s, s']. intros Heq. by rewrite Heq in Hempty.
Qed.
End probe_laws.

(** ** The command line *)

Lemma required_arg_runs {B} missing (k : rust_string -> arguments B) args Q :
  (forall text args', eruns (k text) args' Q) -> (forall e args', Q (Err e) args') ->
  eruns (ebind (required_arg missing) k) args Q.
Proof. intros Hk He. destruct args; [apply He|apply Hk]. Qed.

Lemma next_arg_runs {B} (k : option rust_string -> arguments B) args Q :
  (forall arg args', eruns (k arg) args' Q) -> eruns (ebind next_arg k) args Q.
Proof. intros Hk. destruct args; apply Hk. Qed.

Lemma parse_digits_returns maximum digits : forall value, returns (parse_digits maximum value digits).
Proof. induction digits as [|c digits IH]; intros value; cbn [parse_digits]; repeat case_match; done || apply IH. Qed.

Lemma parse_uint_returns maximum text : returns (parse_uint maximum text).
Proof.
  unfold parse_uint. apply returns_map_err. repeat case_match; done || apply parse_digits_returns.
Qed.

Lemma parse_pairs_returns : forall n input, (length input <= n)%nat -> returns (parse_pairs input).
Proof.
  induction n as [|n IH]; intros [|x [|y input]] Hn; cbn [parse_pairs] in *; try done; cbn in Hn; [lia|].
  specialize (IH input ltac:(lia)). destruct (hex_nibble x), (hex_nibble y); try done. cbn.
  by destruct (parse_pairs input).
Qed.

Lemma parse_hex_returns value : returns (parse_hex value).
Proof. unfold parse_hex. case_match; [done|by eapply parse_pairs_returns]. Qed.

Lemma number_arg_runs {B} maximum missing (k : Z -> arguments B) args Q : 0 <= maximum ->
  (forall n args', 0 <= n <= maximum -> eruns (k n) args' Q) -> (forall e args', Q (Err e) args') ->
  eruns (ebind (number_arg maximum missing) k) args Q.
Proof.
  intros Hm Hk He. apply eruns_bind. unfold number_arg. apply required_arg_runs; [|done].
  intros text args'. unfold eruns, elift. pose proof (parse_uint_returns maximum text) as Hr.
  pose proof (parse_uint_range maximum text) as Hrange.
  destruct (parse_uint maximum text) as [n|e| |]; [|apply He|done..]. apply Hk. by apply Hrange.
Qed.

Lemma hex_arg_runs {B} missing (k : bytes -> arguments B) args Q :
  (forall b args', eruns (k b) args' Q) -> (forall e args', Q (Err e) args') ->
  eruns (ebind (hex_arg missing) k) args Q.
Proof.
  intros Hk He. apply eruns_bind. unfold hex_arg. apply required_arg_runs; [|done].
  intros text args'. unfold eruns, elift. pose proof (parse_hex_returns text) as Hr.
  destruct (parse_hex text) as [b|e| |]; [apply Hk|apply He|done..].
Qed.

#[local] Ltac arg_steps :=
  repeat first [ apply required_arg_runs; [intros ? ?|done]
               | apply number_arg_runs; [by vm_compute|intros ? ? ?|done]
               | apply hex_arg_runs; [intros ? ?|done] ].

(** Whatever the arguments are, they are refused or make sense. *)
Lemma parse_command_runs args : eruns parse_command args (fun r _ =>
  match r with Ok (RunVerify request) => 0 <= VerifyRequest.offset request | _ => True end).
Proof.
  assert (forall host args, eruns
    (rec! port := next_arg in rec! port := elift (parse_port port) in rec! _ := ensure_no_more in
     eret (RunNegotiate host port)) args (fun r _ =>
    match r with Ok (RunVerify request) => 0 <= VerifyRequest.offset request | _ => True end)) as Hport.
  { intros host args'. apply next_arg_runs. intros arg args2.
    apply eruns_bind_lift; [destruct arg; [apply parse_uint_returns|done]|done|]. intros port _.
    unfold ensure_no_more, ensure_no_more_with. apply eruns_bind, next_arg_runs. by intros [] args3. }
  assert (forall B message (b : B) args (Q : probe B -> list rust_string -> Prop), (forall args', Q (Ok b) args') -> (forall e args', Q (Err e) args') ->
    eruns (rec! _ := ensure_no_more_with message in eret b) args Q) as Hend.
  { intros B message b args' Q Hok Herr. unfold ensure_no_more_with. apply eruns_bind, next_arg_runs.
    intros [] args2; [apply Herr|apply Hok]. }
  unfold parse_command. apply required_arg_runs; [intros first args'|done].
  case_match; [apply required_arg_runs; [intros host args2; apply Hport|done]|].
  case_match; [|case_match; [|apply Hport]].
  - apply eruns_bind. unfold verify_request. arg_steps. unfold eruns at 1, eret. apply Hend; [intros ?; cbn; lia|done].
  - apply eruns_bind. unfold reconnect_request. arg_steps. unfold eruns at 1, eret. by apply Hend.
Qed.

Lemma parse_verify_command host port_text port share path username password offset_text offset hex_text expected :
  parse_uint u16_max port_text = Ok port -> parse_uint u64_max offset_text = Ok offset ->
  parse_hex hex_text = Ok expected ->
  (parse_command [literal "verify"; host; port_text; share; path; username; password; offset_text; hex_text]).1
  = Ok (RunVerify (VerifyRequest.mk host port share path (dash_to_empty username) (dash_to_empty password)
                     offset expected)).
Proof.
  intros Hp Ho Hh. unfold parse_command, verify_request, number_arg, hex_arg, required_arg, ensure_no_more_with, ebind, next_arg, elift.
  cbn [ok_or]. rewrite bool_decide_eq_false_2 by done. rewrite bool_decide_eq_true_2 by done.
  cbv beta iota. cbn [ok_or]. rewrite Hp. cbv beta iota. rewrite Ho. cbv beta iota. rewrite Hh. reflexivity.
Qed.

(** ** Properties *)

(** C24: the probe says "verified" only of bytes that the server served. Whatever the
    arguments, the servers and the replies of the engine are, the probe does not
    panic. With the command line [verify], a payload printed for some bytes and
    numbers that parse, it succeeds only if the host and the port of the command
    line were dialled, a connection was negotiated over what was dialled (with a
    GUID and a salt drawn from the system's random numbers), and on it a session
    was set up, anonymous without a user name and else by NTLM under the name and
    the password of the command line ([-] stands for none), each by the exchange
    that the promises of NEGOTIATE and SESSION_SETUP describe; and in this session,
    one after the other, the share was connected to, the
    file was opened for reading, the range was inside the file, a sequential and a
    pipelined read of it gave exactly these bytes, both ways of reading gave nothing
    at the end of the file, and the file was closed; each of these steps meets the
    specification of its operation. *)
Theorem probe_verify_sound {T W} `{TransportSafe T} `{CryptoLaws} `{NtlmEnvironmentLaws}
    `{HostLaws T W} `{PeerLaws T} (patience : nat) (env : ReconnectEnvironment.t)
    (host port_text share path username password offset_text : rust_string) (port offset : Z)
    (expected : bytes) (w : W)
    (Hpatience : Z.of_nat patience < usize_max)
    (Hport : parse_uint u16_max port_text = Ok port)
    (Hoffset : parse_uint u64_max offset_text = Ok offset) (Hexpected : expected <> []) :
  (forall args w, fst (main patience env args w) <> Panic) /\
  eruns (main patience env [literal "verify"; host; port_text; share; path; username; password;
                            offset_text; hex expected]) w
    (fun r w' => match r with
     | Ok _ => exists s s' : SessionConnection.t T,
         session_made host port (dash_to_empty username) (dash_to_empty password) w w' s /\
         file_verified (VerifyRequest.mk host port share path (dash_to_empty username)
                          (dash_to_empty password) offset expected) s s'
     | _ => True
     end).
Proof.
  split.
  - intros args w'. pose proof (parse_command_runs args) as Hc. unfold main, eruns, ebind, elift in *.
    destruct (parse_command args) as [[[h p|request|request]|e| |] args']; try done; cbn [fst].
    + unfold run_negotiate, ebind. pose proof (negotiated_connection_runs h p w') as Hn. unfold eruns in Hn.
      destruct (negotiated_connection h p w') as [[[c peer]|e| |] w2]; try done.
      unfold elift. by destruct (Connection.negotiated c).
    + pose proof (run_verify_runs patience request w' Hc Hpatience) as Hr. unfold eruns in Hr.
      by destruct (run_verify patience request w') as [[] ?].
    + unfold run_reconnect_verify_on_plain_thread.
      by destruct (run_reconnect_verify patience request env w') as [[] ?].
  - unfold main, eruns at 1, ebind, elift.
    rewrite (parse_verify_command _ _ port _ _ _ _ _ offset _ expected Hport Hoffset)
      by by apply parse_hex_hex.
    eapply eruns_mono; [apply run_verify_runs; [cbn|done]|].
    + by apply parse_uint_range in Hoffset as [? _].
    + intros [[]|e| |] w'; try done. by intros [_ Hr].
Qed.

#[local] Existing Instance toy_environment.
#[local] Existing Instance toy_environment_laws.
#[local] Existing Instance toy_crypto.
#[local] Existing Instance toy_laws.

(** Connections to scripted transports, one script each. *)
#[local] Instance scripted_host : Host ScriptedTransport.t (list (list bytes)) := {|
  sha256 := fun m => toy_digest m ++ toy_digest (x00 :: m);
  tcp_connect := fun _ _ w =>
    match w with
    | [] => (Err (Io (OtherIo 111)), [])
    | script :: w => (Ok (ScriptedTransport.new script), w)
    end;
  fill_random := fun n w => (Some (replicate (Z.to_nat n) x2a), w)
|}.
#[local] Instance scripted_host_laws : HostLaws ScriptedTransport.t (list (list bytes)).
Proof.
  split; cbn; [intros m; unfold toy_digest; by rewrite len_app, !len_le_bytes|by intros _ _ [|]|].
  intros n w r Hn [= <-]. by rewrite len_replicate, Z2Nat.id.
Qed.
#[local] Instance scripted_peer : Peer ScriptedTransport.t := {| peer_addr := fun _ => Ok [] |}.
#[local] Instance scripted_peer_laws : PeerLaws ScriptedTransport.t.
Proof. by split. Qed.

(** A server that answers both reads of two bytes, and the close. *)
Definition verified_server (data : bytes) : list bytes :=
  take 5 (file_server []) ++
  [read_reply 5 data; read_reply 6 data;
   Reconnect.reply Command.Close 0 7 77 (le_bytes 2 60 ++ le_bytes 2 0 ++ le_bytes 4 0 ++ replicate 52 x00)].
Definition quiet_environment : ReconnectEnvironment.t :=
  ReconnectEnvironment.mk None ([], []) [] [] None None None None 0 [].
Definition verify_arguments : list rust_string :=
  [literal "verify"; [115]; literal "445"; [118]; sample_path; literal "-"; literal "-"; literal "1"; literal "0203"].

Lemma probe_verify_sound_witness :
  (exists w' (s s' : SessionConnection.t ScriptedTransport.t),
     session_made [115] 445 [] [] [verified_server [x02; x03]] w' s /\
     file_verified (VerifyRequest.mk [115] 445 [118] sample_path [] [] 1 [x02; x03]) s s') /\
  fst (main 4 quiet_environment verify_arguments [verified_server [x02; x04]])
  = Err (ReadMismatch "direct" 1 (literal "0203") (literal "0204")).
Proof.
  split; [|vm_compute; reflexivity].
  destruct (eruns_ended _ _ _ (fun _ _ => true)
    (proj2 (probe_verify_sound (T := ScriptedTransport.t) 4 quiet_environment [115] (literal "445") [118]
      sample_path (literal "-") (literal "-") (literal "1") 445 1 [x02; x03] [verified_server [x02; x03]]
      ltac:(by vm_compute) ltac:(vm_compute; reflexivity) ltac:(vm_compute; reflexivity) ltac:(done))))
    as ([] & w' & (s & s' & Hs & Hv) & _); [vm_compute; reflexivity|].
  exists w', s, s'. split; [exact Hs|exact Hv].
Defined.
