(* ===== verification/Jni.v ===== *)
(** * The Java surface

    [crates/smb-android/src/jni.rs]: the native methods of the app, each the
    closure that the source gives to [with_env], and [resolve], which makes of
    what the closure came to what Java sees. The [jni] crate is a class: strings
    and arrays of the Java heap, and exceptions that are thrown there. *)
From S2P Require Import Prelude WireError Utf16 Frame Header Create CreateContext Durable.
From S2P Require Import Client Effects Credits MessageIds AsyncResponse Transport Signing Connection.
From S2P Require Import Auth Session Exchange Tree Files Write Read PipelinedRead Cancellation.
From S2P Require Import Ntlm CancelRead Reconnect RecoveringRead VideoReader Broker.
From S2P Require Import FsQuery FsMutation EngineTypes Engine.

Definition API_VERSION : Z := 9.

Definition i32_max : Z := 2147483647.

(** [jni_str!] of the classes that are thrown. *)
Inductive ExceptionClass : Type := IOException | IllegalArgumentException.

(** What is displayed: a text of the source, or an error of the engine. *)
Inductive Message : Type :=
  | Text (text : string)
  | Shown (error : AndroidBridgeError).

(** The calls into Java. [throw_failure] is what [ThrowRuntimeExAndDefault] does
    with an error, or with a panic. *)
Class Java (J JString JByteArray JniError : Type) : Type := {
  null_array : JByteArray;
  try_to_string : JString -> est JniError J rust_string;
  array_len : JByteArray -> est JniError J Z;
  get_region : JByteArray -> Z -> Z -> est JniError J (list Z);
  set_region : JByteArray -> Z -> list Z -> est JniError J unit;
  byte_array_from_slice : bytes -> est JniError J JByteArray;
  throw_new : ExceptionClass -> Message -> est JniError J unit;
  throw_failure : option JniError -> J -> J
}.

(** [T: Default]. *)
Class Default (A : Type) : Type := default_value : A.
#[export] Instance default_unit : Default unit := tt.
#[export] Instance default_Z : Default Z := 0.

(** ** Bytes *)

(** The bits of a [u8] as a [jbyte]: [as_jbytes]; and back, [byte as u8]. *)
Definition jbyte_of (b : byte) : Z :=
  if Z_of_byte b <? 128 then Z_of_byte b else Z_of_byte b - 256.
Definition as_jbytes (bytes : bytes) : list Z := jbyte_of <$> bytes.
Definition as_u8s (jbytes : list Z) : bytes := byte_of_Z <$> jbytes.

(** [u16::try_from] of a [jint]. *)
Definition port_of_jint (port : Z) : option Z :=
  if (0 <=? port) && (port <=? u16_max) then Some port else None.

(** [i64 as u64]. *)
Definition as_u64 (v : Z) : Z := v mod 2 ^ 64.

(** The strings and the port that every opening method takes, in their order;
    [native_rename] has a second path. *)
Module Arguments_.
Record t (JString : Type) : Type := mk {
  host : JString; port : Z; share : JString; path : JString;
  username : JString; password : JString; domain : JString; workstation : JString
}.
End Arguments_.
Arguments Arguments_.mk {JString}.
Arguments Arguments_.host {JString}.
Arguments Arguments_.port {JString}.
Arguments Arguments_.share {JString}.
Arguments Arguments_.path {JString}.
Arguments Arguments_.username {JString}.
Arguments Arguments_.password {JString}.
Arguments Arguments_.domain {JString}.
Arguments Arguments_.workstation {JString}.

(** The process: the [OnceLock] of the engine, whose error is kept, too; the
    world of its connections; and Java. *)
Module Process.
Record t (T W J : Type) : Type := mk {
  ENGINE : option (AndroidBridgeError + AndroidEngine.t T); world : W; java : J
}.
End Process.
Arguments Process.mk {T W J}.
Arguments Process.ENGINE {T W J}.
Arguments Process.world {T W J}.
Arguments Process.java {T W J}.

Section jni.
Context {T W : Type} `{Transport T} `{Crypto} `{NtlmEnvironment} `{Host T W}.
Context {J JString JByteArray JniError : Type} `{Java J JString JByteArray JniError}.
(** [JByteArray::default()] is null. *)
#[local] Instance default_array : Default JByteArray := (null_array : JByteArray).
(** What building the runtime of the engine came to. *)
Context (runtime : option ErrorKind).
#[local] Abbreviation process := (Process.t T W J).
#[local] Abbreviation native := (est JniError process).
#[local] Abbreviation engine_op := (est AndroidBridgeError (AndroidEngine.t T * W)).
#[local] Abbreviation arguments := (Arguments_.t JString).

(** A call into Java. *)
Definition in_java {A} (m : est JniError J A) : native A := fun p =>
  let '(r, j) := m (Process.java p) in (r, Process.mk (Process.ENGINE p) (Process.world p) j).

(** [with_env(..).resolve()]. *)
Definition resolve {A} `{Default A} (m : native A) : est Empty_set process A := fun p =>
  let failed failure p :=
    (Ok default_value, Process.mk (Process.ENGINE p) (Process.world p) (throw_failure failure (Process.java p))) in
  match m p with
  | (Ok a, p) => (Ok a, p)
  | (Err error, p) => failed (Some error) p
  | (Panic, p) => failed None p
  | (OutOfFuel, p) => (OutOfFuel, p)
  end.

(** [ENGINE.get_or_init]. *)
Definition engine : native (AndroidBridgeError + AndroidEngine.t T) := fun p =>
  match Process.ENGINE p with
  | Some engine => (Ok engine, p)
  | None =>
      let initialized engine := (Ok engine, Process.mk (Some engine) (Process.world p) (Process.java p)) in
      match AndroidEngine.new AndroidEngineConfig.default runtime with
      | Ok engine => initialized (inr engine)
      | Err error => initialized (inl error)
      | Panic => (Panic, p)
      | OutOfFuel => (OutOfFuel, p)
      end
  end.

Definition throw_exception {A} `{Default A} (class : ExceptionClass) (message : Message) : est JniError J A :=
  rec! _ := throw_new class message in eret default_value.
Definition throw_io {A} `{Default A} (error : Message) : est JniError J A := throw_exception IOException error.
Definition throw_argument {A} `{Default A} (message : string) : est JniError J A :=
  throw_exception IllegalArgumentException (Text message).

(** [engine.op(..)] on the engine of the process. *)
Definition run_engine {A} (engine : AndroidEngine.t T) (op : engine_op A) : native (AndroidBridgeError + A) :=
  fun p =>
    let '(r, (engine, w)) := op (engine, Process.world p) in
    (match r with
     | Ok a => Ok (inr a)
     | Err error => Ok (inl error)
     | Panic => Panic
     | OutOfFuel => OutOfFuel
     end, Process.mk (Some (inr engine)) w (Process.java p)).

(** [match engine() { Ok(engine) => match engine.op(..) { Ok(a) => k(a), Err(error)
    => throw_io(env, error) }, Err(error) => throw_io(env, error) }]. *)
Definition on_engine {A X} `{Default X} (op : engine_op A) (k : A -> est JniError J X) : native X :=
  rec! found := engine in
  match found with
  | inl error => in_java (throw_io (Shown error))
  | inr engine =>
      rec! result := run_engine engine op in
      match result with
      | inl error => in_java (throw_io (Shown error))
      | inr a => in_java (k a)
      end
  end.

(** [T::try_from(v)], or an exception. *)
Definition in_range (maximum v : Z) (message : string) : est JniError J Z :=
  match try_from maximum v with
  | Some v => eret v
  | None => throw_io (Text message)
  end.

Definition video_handle (raw : Z) : est JniError J (option Z) :=
  if raw <=? 0 then
    rec! _ := throw_argument (A:=unit) "SMB video handle must be positive" in eret None
  else eret (Some (as_u64 raw)).

Definition port_message : string := "SMB port must be between 1 and 65535".

Definition mutation_request (args : arguments) : est JniError J (option SmbMutationRequest.t) :=
  let refused := rec! _ := throw_argument (A:=unit) port_message in eret None in
  match port_of_jint (Arguments_.port args) with
  | None => refused
  | Some port =>
      if port =? 0 then refused else
      rec! host := try_to_string (Arguments_.host args) in
      rec! share := try_to_string (Arguments_.share args) in
      rec! path := try_to_string (Arguments_.path args) in
      rec! username := try_to_string (Arguments_.username args) in
      rec! password := try_to_string (Arguments_.password args) in
      rec! domain := try_to_string (Arguments_.domain args) in
      rec! workstation := try_to_string (Arguments_.workstation args) in
      eret (Some (SmbMutationRequest.mk host port share path username password domain workstation))
  end.

(** [let Some(request) = mutation_request(..)? else { return Ok(T::default()) }]. *)
Definition with_request {X} `{Default X} (args : arguments) (k : SmbMutationRequest.t -> native X) : native X :=
  rec! request := in_java (mutation_request args) in
  match request with
  | None => eret default_value
  | Some request => k request
  end.

(** ** The native methods *)

Definition native_api_version : native Z := eret API_VERSION.

Definition native_open_video (patience : nat) (tokens : list nat * list nat) (clock : list Z)
    (script : list (list Happening)) (args : arguments) : native Z :=
  match port_of_jint (Arguments_.port args) with
  | None => in_java (throw_argument port_message)
  | Some port =>
      if port =? 0 then in_java (throw_argument port_message) else
      rec! host := in_java (try_to_string (Arguments_.host args)) in
      rec! share := in_java (try_to_string (Arguments_.share args)) in
      rec! path := in_java (try_to_string (Arguments_.path args)) in
      rec! username := in_java (try_to_string (Arguments_.username args)) in
      rec! password := in_java (try_to_string (Arguments_.password args)) in
      rec! domain := in_java (try_to_string (Arguments_.domain args)) in
      rec! workstation := in_java (try_to_string (Arguments_.workstation args)) in
      let request := VideoOpenRequest.mk host port share path username password domain workstation
                       VideoReaderConfig.default in
      on_engine (AndroidEngine.open_video patience request tokens clock script)
        (fun opened => in_range i64_max_u64 (fst opened) "SMB native handle space exceeded Java Long range")
  end.

(** *** Directories *)

Definition native_open_directory (args : arguments) : native Z :=
  with_request args (fun request =>
    on_engine (AndroidEngine.open_directory request) (fun handle => eret (as_i64 handle))).

Definition native_read_directory_page (handle : Z) : native JByteArray :=
  if handle <=? 0 then in_java (throw_argument "directory handle must be positive") else
  on_engine (AndroidEngine.read_directory_page (as_u64 handle)) byte_array_from_slice.

Definition native_directory_capacity (handle : Z) : native JByteArray :=
  if handle <=? 0 then in_java (throw_argument "directory handle must be positive") else
  on_engine (AndroidEngine.directory_capacity (as_u64 handle)) byte_array_from_slice.

Definition native_directory_size (visits pages : nat) (handle : Z) : native Z :=
  if handle <=? 0 then in_java (throw_argument "directory handle must be positive") else
  on_engine (AndroidEngine.directory_size visits pages (as_u64 handle)) eret.

Definition native_close_directory (handle : Z) : native unit :=
  if handle <=? 0 then in_java (throw_argument "directory handle must be positive") else
  on_engine (AndroidEngine.close_directory (as_u64 handle)) eret.

(** *** Writable files *)

Definition native_open_writable (args : arguments) : native Z :=
  with_request args (fun request =>
    on_engine (AndroidEngine.open_writable request) (fun handle => eret (as_i64 handle))).

(** [vec![0; length]] filled from the array, if there is anything to fill. *)
Definition source_bytes (source : JByteArray) (source_offset length : Z) : est JniError J bytes :=
  rec! jbytes := (if 0 <? length then get_region source source_offset length else eret []) in
  eret (as_u8s jbytes).

Definition native_write_at (patience : nat) (handle position : Z) (source : JByteArray)
    (source_offset length : Z) : native Z :=
  if handle <=? 0 then in_java (throw_argument "writable SMB handle must be positive") else
  if position <? 0 then in_java (throw_argument "SMB write position must be nonnegative") else
  if (source_offset <? 0) || (length <? 0)
  then in_java (throw_argument "SMB write source range must be nonnegative") else
  if 1024 * 1024 <? length then in_java (throw_argument "SMB JNI write chunk exceeds 1 MiB") else
  rec! array_len := in_java (array_len source) in
  match checked_add usize_max source_offset length with
  | None => in_java (throw_argument "SMB write array range overflow")
  | Some end_ =>
      if array_len <? end_ then in_java (throw_argument "SMB write range exceeds source array") else
      rec! bytes := in_java (source_bytes source source_offset length) in
      on_engine (AndroidEngine.write_writable_at patience (as_u64 handle) (as_u64 position) bytes)
        (fun count => in_range i32_max count "SMB native write count exceeds Java Int")
  end.

Definition native_flush_writable (patience : nat) (handle : Z) : native unit :=
  if handle <=? 0 then in_java (throw_argument "writable SMB handle must be positive") else
  on_engine (AndroidEngine.flush_writable patience (as_u64 handle)) eret.

Definition native_close_writable (handle : Z) : native unit :=
  if handle <=? 0 then in_java (throw_argument "writable SMB handle must be positive") else
  on_engine (AndroidEngine.close_writable (as_u64 handle)) eret.

(** *** Random-access files *)

Definition native_open_random (args : arguments) : native Z :=
  with_request args (fun request =>
    on_engine (AndroidEngine.open_random request) (fun handle => eret (as_i64 handle))).

Definition native_read_random_at (patience : nat) (handle position : Z) (destination : JByteArray)
    (destination_offset length : Z) : native Z :=
  if (handle <=? 0) || (position <? 0)
  then in_java (throw_argument "random SMB handle and read position must be nonnegative") else
  if (destination_offset <? 0) || negb ((0 <=? length) && (length <=? 1024 * 1024))
  then in_java (throw_argument "random SMB read range invalid or exceeds 1 MiB") else
  rec! array_len := in_java (array_len destination) in
  match checked_add usize_max destination_offset length with
  | None => in_java (throw_argument "random SMB destination range overflow")
  | Some end_ =>
      if array_len <? end_ then in_java (throw_argument "random SMB read exceeds destination array") else
      on_engine (AndroidEngine.read_random_at patience (as_u64 handle) (as_u64 position) length)
        (fun bytes =>
           if is_empty bytes && negb (length =? 0) then eret (-1) else
           rec! _ := set_region destination destination_offset (as_jbytes bytes) in
           in_range i32_max (len bytes) "random SMB read count exceeds Java Int")
  end.

Definition native_write_random_at (patience : nat) (handle position : Z) (source : JByteArray)
    (source_offset length : Z) : native Z :=
  if (handle <=? 0) || (position <? 0)
  then in_java (throw_argument "random SMB handle and write position must be nonnegative") else
  if (source_offset <? 0) || negb ((0 <=? length) && (length <=? 1024 * 1024))
  then in_java (throw_argument "random SMB write range invalid or exceeds 1 MiB") else
  rec! array_len := in_java (array_len source) in
  match checked_add usize_max source_offset length with
  | None => in_java (throw_argument "random SMB source range overflow")
  | Some end_ =>
      if array_len <? end_ then in_java (throw_argument "random SMB write exceeds source array") else
      rec! bytes := in_java (source_bytes source source_offset length) in
      on_engine (AndroidEngine.write_random_at patience (as_u64 handle) (as_u64 position) bytes)
        (fun count => in_range i32_max count "random SMB write count exceeds Java Int")
  end.

Definition native_set_random_length (patience : nat) (handle length : Z) : native unit :=
  if (handle <=? 0) || (length <? 0)
  then in_java (throw_argument "random SMB handle must be positive and length nonnegative") else
  on_engine (AndroidEngine.set_random_length patience (as_u64 handle) (as_u64 length)) eret.

Definition native_flush_random (patience : nat) (handle : Z) : native unit :=
  if handle <=? 0 then in_java (throw_argument "random SMB handle must be positive") else
  on_engine (AndroidEngine.flush_random_at patience (as_u64 handle)) eret.

Definition native_close_random (handle : Z) : native unit :=
  if handle <=? 0 then in_java (throw_argument "random SMB handle must be positive") else
  on_engine (AndroidEngine.close_random (as_u64 handle)) eret.

(** *** Mutations *)

Definition native_mkdir (patience : nat) (args : arguments) : native unit :=
  with_request args (fun request => on_engine (AndroidEngine.mkdir patience request) eret).

Definition native_create_file (patience : nat) (args : arguments) : native unit :=
  with_request args (fun request => on_engine (AndroidEngine.create_file patience request) eret).

Definition native_rename (patience : nat) (args : arguments) (destination : JString) : native unit :=
  with_request args (fun request =>
    rec! destination := in_java (try_to_string destination) in
    on_engine (AndroidEngine.rename patience request destination) eret).

Definition native_delete_file (patience : nat) (args : arguments) : native unit :=
  with_request args (fun request => on_engine (AndroidEngine.delete_file patience request) eret).

(** *** Videos *)

(** [let Some(handle) = video_handle(env, handle)? else { return Ok(other) }]. *)
Definition with_video {X} (handle : Z) (other : X) (k : Z -> native X) : native X :=
  rec! handle := in_java (video_handle handle) in
  match handle with
  | None => eret other
  | Some handle => k handle
  end.

Definition native_len (handle : Z) : native Z :=
  with_video handle (-1) (fun handle =>
    on_engine (AndroidEngine.video_len handle)
      (fun length => in_range i64_max_u64 length "SMB file length exceeds Java Long range")).

Definition native_read_at (reply : nat) (replied : option (BrokerError + bytes)) (handle position : Z)
    (destination : JByteArray) (destination_offset length : Z) : native Z :=
  with_video handle (-1) (fun handle =>
    if position <? 0 then in_java (throw_argument "SMB read position must not be negative") else
    if (destination_offset <? 0) || (length <? 0)
    then in_java (throw_argument "SMB read buffer offset/length must not be negative") else
    if length =? 0 then eret 0 else
    rec! array_len := in_java (array_len destination) in
    match checked_add usize_max destination_offset length with
    | None => in_java (throw_argument "SMB read buffer range overflow")
    | Some end_ =>
        if array_len <? end_
        then in_java (throw_argument "SMB read buffer range exceeds destination array") else
        on_engine (AndroidEngine.read_at handle (as_u64 position) length reply replied) (fun data =>
          rec! _ := set_region destination destination_offset (as_jbytes data) in
          in_range i32_max (len data) "SMB native read result exceeds Java Int range")
    end).

Definition native_prefetch (handle position length : Z) : native unit :=
  with_video handle tt (fun handle =>
    if position <? 0 then in_java (throw_argument "SMB prefetch position must not be negative") else
    if length <? 0 then in_java (throw_argument "SMB prefetch length must not be negative") else
    if length =? 0 then eret tt else
    on_engine (AndroidEngine.prefetch handle (as_u64 position) length) eret).

Definition native_seek (handle position : Z) : native Z :=
  with_video handle (-1) (fun handle =>
    if position <? 0 then in_java (throw_argument "SMB seek position must not be negative") else
    on_engine (AndroidEngine.seek handle)
      (fun generation => in_range i64_max_u64 generation "SMB seek generation exceeds Java Long range")).

Definition native_close (reply : nat) (replied : option (BrokerError + CloseInfo.t)) (handle : Z) :
    native unit :=
  with_video handle tt (fun handle =>
    on_engine (AndroidEngine.close_video handle reply replied) (fun _ => eret tt)).
End jni.
