(* ===== verification/JniSafety.v ===== *)
(** * The Java surface: what Java can rely on

    The laws of the [jni] crate and of the heap behind it, and the native methods
    proved against them: what is refused and how, which bytes of an array are
    read or written, and what any sequence of native calls leaves. *)
From S2P Require Import Prelude WireError Utf16 Frame Header Create CreateContext Durable.
From S2P Require Import Client Effects Credits MessageIds AsyncResponse Transport Signing Connection.
From S2P Require Import Auth Session Exchange Tree Files Write Read PipelinedRead Cancellation.
From S2P Require Import QueryOps SetInfo SetInfoOps Ntlm CancelRead Reconnect RecoveringRead VideoReader Broker.
From S2P Require Import FsQuery FsMutation EngineTypes Engine EngineSafety EngineCalls Jni.

(** A computation that returns. *)
Definition settles {S A E} (m : est E S A) (s : S) (Q : outcome E A -> S -> Prop) : Prop :=
  match m s with
  | (Ok a, s') => Q (Ok a) s'
  | (Err e, s') => Q (Err e) s'
  | _ => False
  end.

Lemma settles_bind {S A B E} (m : est E S A) (k : A -> est E S B) s Q :
  settles m s (fun r s1 =>
    match r with Ok a => settles (k a) s1 Q | Err e => Q (Err e) s1 | _ => False end) ->
  settles (ebind m k) s Q.
Proof. unfold settles, ebind. by destruct (m s) as [[a|e| |] s1]. Qed.

Lemma settles_mono {S A E} (m : est E S A) s (P Q : outcome E A -> S -> Prop) :
  settles m s P -> (forall r s', returns r -> P r s' -> Q r s') -> settles m s Q.
Proof. unfold settles. destruct (m s) as [[]]; naive_solver. Qed.

(** ** The heap of Java *)

Definition jbyte (v : Z) : Prop := -128 <= v < 128.

Inductive Exception : Type :=
  | Thrown (class : ExceptionClass) (message : Message)
  | OtherException.

(** The arrays, and the exception that is pending. *)
Class JavaView (J JByteArray : Type) : Type := {
  contents : J -> JByteArray -> option (list Z);
  pending : J -> option Exception
}.

Section heap.
Context {J JByteArray : Type} `{JavaView J JByteArray}.
Definition same_arrays (j j' : J) : Prop := forall a, contents j' a = contents j a.
Definition same_heap (j j' : J) : Prop := same_arrays j j' /\ pending j' = pending j.
(** Only one array is another. *)
Definition same_but (a : JByteArray) (j j' : J) : Prop := forall b, b <> a -> contents j' b = contents j b.
End heap.

(** The bytes of [l] from [offset] on are [part]. *)
Definition splice (l : list Z) (offset : Z) (part : list Z) : list Z :=
  take (Z.to_nat offset) l ++ part ++ drop (Z.to_nat (offset + len part)) l.

(** The functions of the JNI specification. An access to a region that is not in
    the array throws and transfers nothing; a string has at most [i32::MAX] units;
    [throw_new] may fail, but [ThrowRuntimeExAndDefault] leaves an exception
    pending in any case, the one that was pending if there was one. *)
Class JavaLaws (J JString JByteArray JniError : Type) `{Java J JString JByteArray JniError}
    `{JavaView J JByteArray} : Prop := {
  contents_jbytes : forall j a l, contents j a = Some l -> Forall jbyte l;
  try_to_string_settles : forall s j, settles (try_to_string s) j (fun r j' => same_arrays j j' /\
    forall str, r = Ok str -> pending j' = pending j /\ len (utf16_bytes str) <= 2 * i32_max);
  array_len_settles : forall a j, settles (array_len a) j (fun r j' => same_arrays j j' /\
    forall n, r = Ok n -> pending j' = pending j /\ n <= i32_max /\
      exists l, contents j a = Some l /\ n = len l);
  get_region_settles : forall a offset n j, 0 <= offset -> 0 <= n ->
    settles (get_region a offset n) j (fun r j' => same_arrays j j' /\
      forall part, r = Ok part -> pending j' = pending j /\
        exists l, contents j a = Some l /\ offset + n <= len l /\ part = sub l offset n);
  set_region_settles : forall a offset part j, 0 <= offset -> Forall jbyte part ->
    settles (set_region a offset part) j (fun r j' =>
      match r with
      | Ok _ => pending j' = pending j /\ same_but a j j' /\ exists l, contents j a = Some l /\
          offset + len part <= len l /\ contents j' a = Some (splice l offset part)
      | _ => same_arrays j j'
      end);
  byte_array_settles : forall b j, settles (byte_array_from_slice b) j (fun r j' =>
    match r with
    | Ok a => pending j' = pending j /\ contents j a = None /\ contents j' a = Some (as_jbytes b) /\
        same_but a j j'
    | _ => same_arrays j j'
    end);
  throw_new_settles : forall class message j, settles (throw_new class message) j (fun r j' =>
    same_arrays j j' /\ (r = Ok tt -> pending j' = Some (Thrown class message)));
  throw_failure_pending : forall e j, same_arrays j (throw_failure e j) /\
    pending (throw_failure e j) <> None /\
    forall x, pending j = Some x -> pending (throw_failure e j) = Some x
}.

Lemma jbyte_range b : jbyte (jbyte_of b).
Proof. unfold jbyte, jbyte_of. pose proof (Z_of_byte_range b). destruct (Z.ltb_spec (Z_of_byte b) 128); lia. Qed.

(** The bits survive both conversions. *)
Lemma as_u8s_jbytes b : as_u8s (as_jbytes b) = b.
Proof.
  unfold as_u8s, as_jbytes. rewrite <- list_fmap_compose. rewrite <- (list_fmap_id b) at 2.
  apply list_fmap_ext. intros i x _. cbn. apply Z_of_byte_inj. rewrite Z_of_byte_of_Z. unfold jbyte_of.
  pose proof (Z_of_byte_range x). destruct (Z.ltb_spec (Z_of_byte x) 128).
  - by rewrite Z.mod_small.
  - rewrite <- (Z_mod_plus_full _ 1 256). rewrite Z.mod_small; lia.
Qed.

Lemma as_jbytes_range b : Forall jbyte (as_jbytes b).
Proof. unfold as_jbytes. rewrite Forall_fmap. apply Forall_true. intros x. apply jbyte_range. Qed.

Lemma as_jbytes_u8s l : Forall jbyte l -> as_jbytes (as_u8s l) = l.
Proof.
  unfold as_u8s, as_jbytes. rewrite <- list_fmap_compose. induction 1 as [|v l Hv _ IH]; [done|].
  rewrite fmap_cons. f_equal; [|done]. cbn. unfold jbyte, jbyte_of in *. rewrite Z_of_byte_of_Z.
  destruct (Z.ltb_spec v 0).
  - rewrite <- (Z_mod_plus_full _ 1 256), Z.mod_small by lia. destruct (Z.ltb_spec (v + 1 * 256) 128); lia.
  - rewrite Z.mod_small by lia. destruct (Z.ltb_spec v 128); lia.
Qed.

Lemma splice_nil l offset : splice l offset [] = l.
Proof. unfold splice. rewrite len_nil, Z.add_0_r. apply take_drop. Qed.

Lemma len_as_jbytes b : len (as_jbytes b) = len b.
Proof. unfold len, as_jbytes. by rewrite length_fmap. Qed.

(** ** Calls *)

(** What Java passes, by what it gets back; the rest stands for what the runner
    of a video and the directories of a server do. *)
Inductive NativeCall (JString JByteArray : Type) : Type -> Type :=
  | ApiVersion : NativeCall JString JByteArray Z
  | NativeOpenVideo (tokens : list nat * list nat) (clock : list Z) (script : list (list Happening))
      (args : Arguments_.t JString) : NativeCall JString JByteArray Z
  | NativeOpenDirectory (args : Arguments_.t JString) : NativeCall JString JByteArray Z
  | NativeReadPage (handle : Z) : NativeCall JString JByteArray JByteArray
  | NativeCapacity (handle : Z) : NativeCall JString JByteArray JByteArray
  | NativeSize (visits pages : nat) (handle : Z) : NativeCall JString JByteArray Z
  | NativeCloseDirectory (handle : Z) : NativeCall JString JByteArray unit
  | NativeOpenWritable (args : Arguments_.t JString) : NativeCall JString JByteArray Z
  | NativeWriteAt (handle position : Z) (source : JByteArray) (source_offset length : Z) :
      NativeCall JString JByteArray Z
  | NativeFlushWritable (handle : Z) : NativeCall JString JByteArray unit
  | NativeCloseWritable (handle : Z) : NativeCall JString JByteArray unit
  | NativeOpenRandom (args : Arguments_.t JString) : NativeCall JString JByteArray Z
  | NativeReadRandomAt (handle position : Z) (destination : JByteArray) (destination_offset length : Z) :
      NativeCall JString JByteArray Z
  | NativeWriteRandomAt (handle position : Z) (source : JByteArray) (source_offset length : Z) :
      NativeCall JString JByteArray Z
  | NativeSetRandomLength (handle length : Z) : NativeCall JString JByteArray unit
  | NativeFlushRandom (handle : Z) : NativeCall JString JByteArray unit
  | NativeCloseRandom (handle : Z) : NativeCall JString JByteArray unit
  | NativeMkdir (args : Arguments_.t JString) : NativeCall JString JByteArray unit
  | NativeCreateFile (args : Arguments_.t JString) : NativeCall JString JByteArray unit
  | NativeRename (args : Arguments_.t JString) (destination : JString) : NativeCall JString JByteArray unit
  | NativeDeleteFile (args : Arguments_.t JString) : NativeCall JString JByteArray unit
  | NativeLen (handle : Z) : NativeCall JString JByteArray Z
  | NativeReadAt (reply : nat) (replied : option (BrokerError + bytes)) (handle position : Z)
      (destination : JByteArray) (destination_offset length : Z) : NativeCall JString JByteArray Z
  | NativePrefetch (handle position length : Z) : NativeCall JString JByteArray unit
  | NativeSeek (handle position : Z) : NativeCall JString JByteArray Z
  | NativeClose (reply : nat) (replied : option (BrokerError + CloseInfo.t)) (handle : Z) :
      NativeCall JString JByteArray unit.
#[global] Arguments ApiVersion {JString JByteArray}.
#[global] Arguments NativeOpenVideo {JString JByteArray}.
#[global] Arguments NativeOpenDirectory {JString JByteArray}.
#[global] Arguments NativeReadPage {JString JByteArray}.
#[global] Arguments NativeCapacity {JString JByteArray}.
#[global] Arguments NativeSize {JString JByteArray}.
#[global] Arguments NativeCloseDirectory {JString JByteArray}.
#[global] Arguments NativeOpenWritable {JString JByteArray}.
#[global] Arguments NativeWriteAt {JString JByteArray}.
#[global] Arguments NativeFlushWritable {JString JByteArray}.
#[global] Arguments NativeCloseWritable {JString JByteArray}.
#[global] Arguments NativeOpenRandom {JString JByteArray}.
#[global] Arguments NativeReadRandomAt {JString JByteArray}.
#[global] Arguments NativeWriteRandomAt {JString JByteArray}.
#[global] Arguments NativeSetRandomLength {JString JByteArray}.
#[global] Arguments NativeFlushRandom {JString JByteArray}.
#[global] Arguments NativeCloseRandom {JString JByteArray}.
#[global] Arguments NativeMkdir {JString JByteArray}.
#[global] Arguments NativeCreateFile {JString JByteArray}.
#[global] Arguments NativeRename {JString JByteArray}.
#[global] Arguments NativeDeleteFile {JString JByteArray}.
#[global] Arguments NativeLen {JString JByteArray}.
#[global] Arguments NativeReadAt {JString JByteArray}.
#[global] Arguments NativePrefetch {JString JByteArray}.
#[global] Arguments NativeSeek {JString JByteArray}.
#[global] Arguments NativeClose {JString JByteArray}.

(** The handle that Java was given: 0 is none. *)
Definition given_handle {JString JByteArray A} (call : NativeCall JString JByteArray A) : A -> option Z :=
  match call in NativeCall _ _ A return A -> option Z with
  | NativeOpenVideo _ _ _ _ | NativeOpenDirectory _ | NativeOpenWritable _ | NativeOpenRandom _ =>
      fun h => if h =? 0 then None else Some h
  | _ => fun _ => None
  end.

(** The numbers that a method takes. *)
Definition port_ok {JString} (args : Arguments_.t JString) : bool :=
  (1 <=? Arguments_.port args) && (Arguments_.port args <=? 65535).
Definition chunk_ok (handle position offset length : Z) : bool :=
  (0 <? handle) && (0 <=? position) && (0 <=? offset) && (0 <=? length) && (length <=? 1024 * 1024).

Definition well_formed {JString JByteArray A} (call : NativeCall JString JByteArray A) : bool :=
  match call with
  | ApiVersion => true
  | NativeOpenVideo _ _ _ args | NativeOpenDirectory args | NativeOpenWritable args | NativeOpenRandom args
  | NativeMkdir args | NativeCreateFile args | NativeRename args _ | NativeDeleteFile args => port_ok args
  | NativeReadPage handle | NativeCapacity handle | NativeSize _ _ handle | NativeCloseDirectory handle
  | NativeFlushWritable handle | NativeCloseWritable handle | NativeFlushRandom handle
  | NativeCloseRandom handle | NativeLen handle | NativeClose _ _ handle => 0 <? handle
  | NativeWriteAt handle position _ offset length | NativeReadRandomAt handle position _ offset length
  | NativeWriteRandomAt handle position _ offset length => chunk_ok handle position offset length
  | NativeReadAt _ _ handle position _ offset length =>
      (0 <? handle) && (0 <=? position) && (0 <=? offset) && (0 <=? length)
  | NativeSetRandomLength handle length => (0 <? handle) && (0 <=? length)
  | NativePrefetch handle position length => (0 <? handle) && (0 <=? position) && (0 <=? length)
  | NativeSeek handle position => (0 <? handle) && (0 <=? position)
  end.

(** The region that a method is given is in its array. *)
Definition array_fits {J JByteArray} `{JavaView J JByteArray} (j : J) (a : JByteArray) (end_ : Z) : bool :=
  match contents j a with
  | Some l => end_ <=? len l
  | None => false
  end.
Definition fits {J JString JByteArray} `{JavaView J JByteArray} {A} (j : J)
    (call : NativeCall JString JByteArray A) : bool :=
  match call with
  | NativeWriteAt _ _ source offset length | NativeWriteRandomAt _ _ source offset length =>
      array_fits j source (offset + length)
  | NativeReadRandomAt _ _ destination offset length => array_fits j destination (offset + length)
  | NativeReadAt _ _ _ _ destination offset length =>
      (length =? 0) || array_fits j destination (offset + length)
  | _ => true
  end.

(** ** The process *)

Section process_laws.
Context {T W : Type} `{TransportSafe T} `{CryptoLaws} `{NtlmEnvironmentLaws} `{HostLaws T W}.
Context {J JString JByteArray JniError : Type} `{JavaLaws J JString JByteArray JniError}.
Context (runtime : option ErrorKind).
#[local] Abbreviation process := (Process.t T W J).
#[local] Abbreviation native := (est JniError process).
#[local] Abbreviation engine_op := (est AndroidBridgeError (AndroidEngine.t T * W)).

Definition set_java (p : process) (j : J) : process := Process.mk (Process.ENGINE p) (Process.world p) j.
Definition set_engine (p : process) (engine : AndroidBridgeError + AndroidEngine.t T) (w : W) : process :=
  Process.mk (Some engine) w (Process.java p).

(** What [engine()] finds. *)
Definition found_engine (p : process) : AndroidBridgeError + AndroidEngine.t T :=
  match Process.ENGINE p with
  | Some engine => engine
  | None =>
      match runtime with
      | Some error => inl (Runtime error)
      | None => inr (AndroidEngine.mk HandleTable.new HandleTable.new HandleTable.new HandleTable.new
                       (8 * 1024 * 1024) (ReadReconnectPolicy.mk 2 (250 * 1000000)))
      end
  end.

Lemma engine_found (p : process) :
  (engine runtime : native _) p = (Ok (found_engine p), set_engine p (found_engine p) (Process.world p)).
Proof.
  unfold engine, found_engine, set_engine. destruct p as [[e|] w j]; cbn; [done|]. by destruct runtime.
Qed.

(** A call into Java leaves the engine and its world alone. *)
Lemma in_java_runs {A} (m : est JniError J A) (p : process) Q :
  settles m (Process.java p) (fun r j => Q r (set_java p j)) -> eruns (in_java m : native A) p Q.
Proof. unfold settles, eruns, in_java, set_java. by destruct (m (Process.java p)) as [[] j]. Qed.

Lemma in_java_bind_runs {A B} (m : est JniError J A) (k : A -> native B) (p : process) Q :
  settles m (Process.java p) (fun r j =>
    match r with Ok a => eruns (k a) (set_java p j) Q | Err e => Q (Err e) (set_java p j) | _ => False end) ->
  eruns (ebind (in_java m) k) p Q.
Proof.
  intros Hm. apply eruns_bind, in_java_runs. eapply settles_mono; [exact Hm|]. by intros [].
Qed.

(** Throwing works: the class is found, and so on. *)
Definition throwing : Prop := forall class message (j : J),
  pending (snd (throw_new class message j)) = Some (Thrown class message).

(** An exception of this kind, or one that came in the way of throwing it. *)
Definition threw {A} (class : ExceptionClass) (message : Message) (a : A) (j : J) (r : outcome JniError A)
    (j' : J) : Prop :=
  same_arrays j j' /\ (throwing -> pending j' = Some (Thrown class message)) /\
  match r with Ok x => x = a /\ pending j' = Some (Thrown class message) | Err _ => True | _ => False end.

Lemma throw_exception_settles {A} `{Default A} class message j :
  settles (throw_exception class message : est JniError J A) j (threw class message default_value j).
Proof.
  pose proof (throw_new_settles class message j) as Hn. unfold throw_exception.
  assert (throwing -> pending (snd (throw_new class message j)) = Some (Thrown class message)) as Ht
    by (intros Ht; apply Ht).
  unfold settles, ebind, eret in *.
  destruct (throw_new class message j) as [[[]|e| |] j']; [|by split_and!; try apply Hn|done..].
  destruct Hn as [Ha Hp]. split; [done|]. split; [done|]. split; [done|]. by apply Hp.
Qed.

(** One call of the engine, between two calls into Java. *)
Lemma on_engine_runs {A X} `{Default X} (op : engine_op A) (k : A -> est JniError J X) (p : process) Q :
  (forall error r j, found_engine p = inl error ->
     threw IOException (Shown error) (default_value : X) (Process.java p) r j ->
     Q r (Process.mk (Some (inl error)) (Process.world p) j)) ->
  (forall e, found_engine p = inr e -> eruns op (e, Process.world p) (fun answer q =>
     match answer with
     | Ok a => settles (k a) (Process.java p) (fun r j => Q r (Process.mk (Some (inr q.1)) q.2 j))
     | Err error => forall r j, threw IOException (Shown error) (default_value : X) (Process.java p) r j ->
         Q r (Process.mk (Some (inr q.1)) q.2 j)
     | _ => True
     end)) ->
  eruns (on_engine runtime op k : native X) p Q.
Proof.
  intros Hbroken Hop. unfold on_engine. apply eruns_bind. unfold eruns at 1. rewrite engine_found.
  destruct (found_engine p) as [error|e].
  - apply in_java_runs. eapply settles_mono; [apply throw_exception_settles|].
    intros r j _ Ht. by apply Hbroken.
  - specialize (Hop e eq_refl). apply eruns_bind. unfold eruns, run_engine in *. cbn [set_engine Process.world].
    destruct (op (e, Process.world p)) as [[a|error| |] [e' w']]; [| |done..].
    + apply in_java_runs. eapply settles_mono; [exact Hop|]. done.
    + apply in_java_runs. eapply settles_mono; [apply throw_exception_settles|].
      intros r j _ Ht. by apply Hop.
Qed.

(** *** The invariant *)

Definition process_counters (p : process) : counters :=
  match found_engine p with inr e => counters_of e | inl _ => Build_counters 1 1 1 1 end.
Definition process_inv (p : process) : Prop :=
  match found_engine p with inr e => engine_inv e | inl _ => True end.

(** What a native call leaves, that gave this handle to Java or none. *)
Definition native_called (p : process) (given : option Z) (p' : process) : Prop :=
  process_inv p' /\ (forall h, issued (process_counters p) h -> issued (process_counters p') h) /\
  (forall n, below n (process_counters p) -> below (n + 1) (process_counters p')) /\
  forall h, given = Some h -> issued (process_counters p') h /\ ~ issued (process_counters p) h.

Lemma native_called_same (p p' : process) : process_inv p -> found_engine p' = found_engine p ->
  native_called p None p'.
Proof.
  intros Hi Hf. unfold native_called, process_inv, process_counters in *. rewrite Hf. split; [done|].
  split; [done|]. split; [|done]. unfold below. intros n ?. lia.
Qed.

(** The handle of a native call, and of what it returned. *)
Definition given {A} (handle : A -> option Z) (r : outcome JniError A) : option Z :=
  match r with Ok a => handle a | _ => None end.

Lemma native_called_less (p p' : process) h : native_called p h p' -> native_called p None p'.
Proof. intros (? & ? & ? & _). by split_and!. Qed.

Lemma eruns_map {E S A B} (m : est E S A) (f : A -> B) s Q :
  eruns (rec! a := m in eret (f a)) s Q ->
  eruns m s (fun r s' =>
    match r with Ok a => Q (Ok (f a)) s' | Err e => Q (Err e) s' | _ => True end).
Proof. unfold eruns, ebind, eret. by destruct (m s) as [[] s']. Qed.

Lemma on_engine_called {A X} `{Default X} patience call (op : engine_op A) (opened : A -> option Z)
    (k : A -> est JniError J X) (handle : X -> option Z) (p : process) :
  perform patience call = (rec! a := op in eret (opened a)) -> call_ok call ->
  handle default_value = None ->
  (forall a j, (forall h, opened a = Some h -> 0 < h < 2 ^ 63) ->
     settles (k a) j (fun r _ => forall x h, r = Ok x -> handle x = Some h -> opened a = Some h)) ->
  process_inv p -> below (2 ^ 60 - 1) (process_counters p) ->
  eruns (on_engine runtime op k : native X) p (fun r p' => native_called p (given handle r) p').
Proof.
  intros Hperform Hok Hdefault Hk Hi Hroom.
  unfold process_inv, process_counters in Hi, Hroom.
  apply on_engine_runs.
  - intros error r j Hf (_ & _ & Ht). assert (given handle r = None) as ->.
    { destruct r as [x|er| |]; [by destruct Ht as [-> _]|done..]. }
    apply native_called_same; [unfold process_inv; by rewrite Hf|by rewrite Hf].
  - intros e Hf. rewrite Hf in Hi, Hroom.
    pose proof (perform_called patience call e (Process.world p) Hok Hi Hroom) as Hc.
    rewrite Hperform in Hc. apply eruns_map in Hc. eapply eruns_mono; [exact Hc|].
    assert (forall (q : AndroidEngine.t T * W) r j, called e r q.1 ->
      native_called p (match r with Ok h => h | _ => None end) (Process.mk (Some (inr q.1)) q.2 j)) as Hlift.
    { intros q r j (Hi' & Hold & Hnew & Hh). unfold native_called, process_inv, process_counters. rewrite Hf.
      split; [done|]. split; [done|]. split; [done|]. intros h Hr. apply Hh. destruct r; by subst. }
    intros [a|error| |] q Hq; [| |done..].
    + assert (forall h, opened a = Some h -> 0 < h < 2 ^ 63) as Hpos.
      { intros h Ho. destruct Hq as (_ & _ & Hb & Hh). eapply issued_positive; [|apply Hh; by rewrite Ho].
        apply (Hb _ Hroom). }
      eapply settles_mono; [by apply Hk|]. intros r j _ Hr. specialize (Hlift q _ j Hq). cbn in Hlift.
      destruct r as [x|er| |]; cbn [given]; try by eapply native_called_less.
      destruct (handle x) as [h|] eqn:Hx; [|by eapply native_called_less].
      by rewrite (Hr x h eq_refl Hx) in Hlift.
    + intros r j (_ & _ & Ht). assert (given handle r = None) as ->.
      { destruct r as [x|er| |]; [by destruct Ht as [-> _]|done..]. }
      by apply (Hlift q (Err error)).
Qed.

(** The closure of a call. *)
Definition closure {A} (patience : nat) (call : NativeCall JString JByteArray A) : native A :=
  match call in NativeCall _ _ A return native A with
  | ApiVersion => native_api_version
  | NativeOpenVideo tokens clock script args => native_open_video runtime patience tokens clock script args
  | NativeOpenDirectory args => native_open_directory runtime args
  | NativeReadPage handle => native_read_directory_page runtime handle
  | NativeCapacity handle => native_directory_capacity runtime handle
  | NativeSize visits pages handle => native_directory_size runtime visits pages handle
  | NativeCloseDirectory handle => native_close_directory runtime handle
  | NativeOpenWritable args => native_open_writable runtime args
  | NativeWriteAt handle position source offset length =>
      native_write_at runtime patience handle position source offset length
  | NativeFlushWritable handle => native_flush_writable runtime patience handle
  | NativeCloseWritable handle => native_close_writable runtime handle
  | NativeOpenRandom args => native_open_random runtime args
  | NativeReadRandomAt handle position destination offset length =>
      native_read_random_at runtime patience handle position destination offset length
  | NativeWriteRandomAt handle position source offset length =>
      native_write_random_at runtime patience handle position source offset length
  | NativeSetRandomLength handle length => native_set_random_length runtime patience handle length
  | NativeFlushRandom handle => native_flush_random runtime patience handle
  | NativeCloseRandom handle => native_close_random runtime handle
  | NativeMkdir args => native_mkdir runtime patience args
  | NativeCreateFile args => native_create_file runtime patience args
  | NativeRename args destination => native_rename runtime patience args destination
  | NativeDeleteFile args => native_delete_file runtime patience args
  | NativeLen handle => native_len runtime handle
  | NativeReadAt reply replied handle position destination offset length =>
      native_read_at runtime reply replied handle position destination offset length
  | NativePrefetch handle position length => native_prefetch runtime handle position length
  | NativeSeek handle position => native_seek runtime handle position
  | NativeClose reply replied handle => native_close runtime reply replied handle
  end.

(** What a call returns besides an exception. *)
#[local] Instance null_default : Default JByteArray := (null_array : JByteArray).
Definition default_of {A} (call : NativeCall JString JByteArray A) : Default A :=
  match call in NativeCall _ _ A return Default A with
  | ApiVersion | NativeOpenVideo _ _ _ _ | NativeOpenDirectory _ | NativeSize _ _ _ | NativeOpenWritable _
  | NativeWriteAt _ _ _ _ _ | NativeOpenRandom _ | NativeReadRandomAt _ _ _ _ _
  | NativeWriteRandomAt _ _ _ _ _ | NativeLen _ | NativeReadAt _ _ _ _ _ _ _ | NativeSeek _ _ => default_Z
  | NativeReadPage _ | NativeCapacity _ => null_default
  | _ => default_unit
  end.

(** What Java sees of a call. *)
Definition perform_native {A} (patience : nat) (call : NativeCall JString JByteArray A) :
    est Empty_set process A :=
  @resolve T W J JString JByteArray JniError _ A (default_of call) (closure patience call).

(** What the closures came to, one call after the other, each resolved. *)
Fixpoint native_all (patience : nat) (calls : list (sigT (NativeCall JString JByteArray))) (p : process) :
    list (outcome JniError (option Z)) * process :=
  match calls with
  | [] => ([], p)
  | existT A call :: calls =>
      match closure patience call p with
      | (OutOfFuel, p) => ([OutOfFuel], p)
      | (r, _) =>
          let '(rs, p') := native_all patience calls (snd (perform_native patience call p)) in
          ((let! a := r in Ok (given_handle call a)) :: rs, p')
      end
  end.

(** *** Closures that keep the invariant *)

Definition keeps {A} (handle : A -> option Z) (m : native A) : Prop := forall p, process_inv p ->
  below (2 ^ 60 - 1) (process_counters p) ->
  eruns m p (fun r p' => native_called p (given handle r) p').

Lemma keeps_java {A} handle (m : est JniError J A) :
  (forall j, settles m j (fun r _ => given handle r = None)) -> keeps handle (in_java m).
Proof.
  intros Hm p Hi _. apply in_java_runs. eapply settles_mono; [apply Hm|].
  intros r j _ ->. by apply native_called_same.
Qed.

Lemma keeps_java_bind {A B} handle (P : A -> Prop) (m : est JniError J A) (k : A -> native B) :
  (forall j, settles m j (fun r _ => forall a, r = Ok a -> P a)) -> (forall a, P a -> keeps handle (k a)) ->
  keeps handle (ebind (in_java m) k).
Proof.
  intros Hm Hk p Hi Hroom. apply in_java_bind_runs. eapply settles_mono; [apply Hm|].
  intros [a|e| |] j Hr Ha; [|by apply native_called_same|done..].
  apply (Hk a (Ha a eq_refl) (set_java p j)); [done|]. exact Hroom.
Qed.

Lemma keeps_ret {A} handle (a : A) : handle a = None -> keeps handle (eret a).
Proof. intros Ha p Hi _. unfold eruns, eret, given. rewrite Ha. by apply native_called_same. Qed.

Lemma keeps_throw {A} `{Default A} handle class message : handle default_value = None ->
  keeps handle (in_java (throw_exception class message) : native A).
Proof.
  intros Ha. apply keeps_java. intros j. eapply settles_mono; [apply throw_exception_settles|].
  intros r j' _ (_ & _ & Hr). destruct r; [by destruct Hr as [-> _]|done..].
Qed.

Lemma string_settles str j : settles (try_to_string str) j (fun r _ =>
  forall s, r = Ok s -> len (utf16_bytes s) <= 2 * i32_max).
Proof. eapply settles_mono; [apply try_to_string_settles|]. intros r j' _ [_ Hs] s Hr. by apply Hs. Qed.

Lemma settles_any {A} (m : est JniError J A) j Q : settles m j Q -> settles m j (fun _ _ => True).
Proof. intros Hm. by eapply settles_mono. Qed.

Lemma string_bind_settles {B} str (k : rust_string -> est JniError J B) j Q :
  (forall s j, settles (k s) j Q) -> (forall e j, Q (Err e) j) -> settles (ebind (try_to_string str) k) j Q.
Proof.
  intros Hk He. apply settles_bind. eapply settles_mono; [apply try_to_string_settles|]. by intros [].
Qed.

Lemma refused_settles {A B} `{Default A} message (b : B) j :
  settles (rec! _ := (throw_argument message : est JniError J A) in eret b) j (fun _ _ => True).
Proof.
  apply settles_bind. eapply settles_mono; [apply throw_exception_settles|]. by intros [] ? ? (_ & _ & ?).
Qed.

Lemma mutation_request_settles args j : settles (mutation_request args) j (fun _ _ => True).
Proof.
  unfold mutation_request. destruct (port_of_jint _) as [port|]; [|apply refused_settles].
  destruct (port =? 0); [apply refused_settles|].
  repeat (apply string_bind_settles; [|done]; intros). done.
Qed.

Lemma keeps_request {X} `{Default X} handle args (k : SmbMutationRequest.t -> native X) :
  handle default_value = None -> (forall request, keeps handle (k request)) -> keeps handle (with_request args k).
Proof.
  intros Hd Hk. apply keeps_java_bind with (P := fun _ => True).
  { intros j. eapply settles_mono; [apply mutation_request_settles|]. done. }
  intros [request|] _; [apply Hk|by apply keeps_ret].
Qed.

Lemma keeps_video {X} handle (raw : Z) (other : X) (k : Z -> native X) :
  handle other = None -> (forall handle', keeps handle (k handle')) -> keeps handle (with_video raw other k).
Proof.
  intros Hd Hk. apply keeps_java_bind with (P := fun _ => True).
  { intros j. unfold video_handle. destruct (raw <=? 0); [|done].
    eapply settles_mono; [apply refused_settles|done]. }
  intros [h|] _; [apply Hk|by apply keeps_ret].
Qed.

(** Calls that give no handle. *)
Lemma keeps_engine {A X} `{Default X} patience call (op : engine_op A) (k : A -> est JniError J X) :
  perform patience call = (rec! a := op in eret None) -> call_ok call ->
  (forall a j, settles (k a) j (fun _ _ => True)) -> keeps (fun _ => None) (on_engine runtime op k : native X).
Proof.
  intros Hp Hok Hk p Hi Hroom. apply (on_engine_called patience call op (fun _ => None)); try done.
  intros a j _. eapply settles_mono; [apply Hk|done].
Qed.

(** Calls that give one. *)
Lemma keeps_engine_open {A} patience call (op : engine_op A) (opened : A -> Z) (k : A -> est JniError J Z) :
  perform patience call = (rec! a := op in eret (Some (opened a))) -> call_ok call ->
  (forall a j, 0 < opened a < 2 ^ 63 -> settles (k a) j (fun r _ => forall h, r = Ok h -> h = opened a)) ->
  keeps (fun h => if h =? 0 then None else Some h) (on_engine runtime op k : native Z).
Proof.
  intros Hp Hok Hk p Hi Hroom. apply (on_engine_called patience call op (fun a => Some (opened a))); try done.
  intros a j Ha. eapply settles_mono; [apply Hk; by apply Ha|]. intros r j' _ Hr x h -> Hx.
  rewrite (Hr x eq_refl) in Hx. by destruct (opened a =? 0).
Qed.

Lemma in_range_settles maximum v message j :
  settles (in_range maximum v message : est JniError J Z) j (fun r j' => same_arrays j j' /\
    (v <= maximum -> r = Ok v /\ j' = j)).
Proof.
  unfold in_range, try_from. destruct (Z.leb_spec v maximum); [done|].
  eapply settles_mono; [apply throw_exception_settles|]. intros r j' _ (Ha & _). split; [done|lia].
Qed.

Lemma array_settles b j : settles (byte_array_from_slice b) j (fun _ _ => True).
Proof. eapply settles_any, byte_array_settles. Qed.

Lemma source_settles source offset length j : 0 <= offset ->
  settles (source_bytes source offset length) j (fun r j' => same_arrays j j' /\
    forall b, r = Ok b -> pending j' = pending j /\ (length <= 0 -> b = []) /\
      (0 < length -> exists l, contents j source = Some l /\ offset + length <= len l /\
         b = as_u8s (sub l offset length))).
Proof.
  intros Ho. unfold source_bytes. destruct (Z.ltb_spec 0 length).
  - apply settles_bind. eapply settles_mono; [apply get_region_settles; lia|].
    intros [part|e| |] j' Hr [Ha Hp]; [|by split|done..]. split; [done|]. intros b [= <-].
    destruct (Hp part eq_refl) as (? & l & ? & ? & ->). split; [done|]. split; [lia|].
    intros _. by exists l.
  - unfold settles, ebind, eret. split; [done|]. intros b [= <-]. split; [done|]. split; [done|lia].
Qed.

Lemma as_u64_nonneg v : 0 <= as_u64 v.
Proof. by apply Z.mod_pos_bound. Qed.

Lemma handle_settles h j : 0 < h < 2 ^ 63 ->
  settles (eret (as_i64 h) : est JniError J Z) j (fun r _ => forall h', r = Ok h' -> h' = h).
Proof. intros Hh. unfold settles, eret. rewrite as_i64_small by lia. by intros h' [= <-]. Qed.

Lemma range_keeps maximum v message j :
  settles (in_range maximum v message : est JniError J Z) j (fun _ _ => True).
Proof. eapply settles_any, in_range_settles. Qed.

(** The whole of a request that opens something. *)
Lemma keeps_opens patience call args (op : SmbMutationRequest.t -> engine_op Z) :
  (forall request, perform patience (call request) = (rec! h := op request in eret (Some h)) /\
     call_ok (call request)) ->
  keeps (fun h => if h =? 0 then None else Some h)
    (with_request args (fun request => on_engine runtime (op request) (fun h => eret (as_i64 h))) : native Z).
Proof.
  intros Hc. apply keeps_request; [done|]. intros request. destruct (Hc request) as [Hp Hok].
  apply (keeps_engine_open patience (call request) _ (fun h => h)); [done|done|].
  intros h j Hh. by apply handle_settles.
Qed.

Lemma keeps_mutates patience operation args (op : SmbMutationRequest.t -> engine_op unit) :
  (forall request, perform patience (Mutate request operation) = (rec! _ := op request in eret None)) ->
  keeps (fun _ => None)
    (with_request args (fun request => on_engine runtime (op request) eret) : native unit).
Proof.
  intros Hc. apply keeps_request; [done|]. intros request.
  by apply (keeps_engine patience (Mutate request operation)).
Qed.

(** The writes from an array. *)
Lemma keeps_write {X} `{Default X} patience source offset length message1 message2
    (call : bytes -> Call) (op : bytes -> engine_op Z) (k : Z -> est JniError J X) :
  0 <= offset -> (forall b, perform patience (call b) = (rec! _ := op b in eret None) /\ call_ok (call b)) ->
  (forall a j, settles (k a) j (fun _ _ => True)) ->
  keeps (fun _ => None)
    ((rec! array_len := in_java (array_len source) in
      match checked_add usize_max offset length with
      | None => in_java (throw_argument message1)
      | Some end_ =>
          if array_len <? end_ then in_java (throw_argument message2) else
          rec! bytes := in_java (source_bytes source offset length) in
          on_engine runtime (op bytes) k
      end) : native X).
Proof.
  intros Ho Hc Hk. apply keeps_java_bind with (P := fun _ => True).
  { intros j. eapply settles_mono; [apply array_len_settles|done]. }
  intros n _. destruct (checked_add _ _ _) as [e|]; [|by apply keeps_throw].
  destruct (n <? e); [by apply keeps_throw|]. apply keeps_java_bind with (P := fun _ => True).
  { intros j. eapply settles_mono; [by apply source_settles|done]. }
  intros b _. destruct (Hc b) as [Hp Hok]. by apply (keeps_engine patience (call b)).
Qed.

Lemma keeps_read {X} `{Default X} patience call destination offset length message1 message2
    (op : engine_op bytes) (k : bytes -> est JniError J X) :
  perform patience call = (rec! _ := op in eret None) -> call_ok call ->
  (forall a j, settles (k a) j (fun _ _ => True)) ->
  keeps (fun _ => None)
    ((rec! array_len := in_java (array_len destination) in
      match checked_add usize_max offset length with
      | None => in_java (throw_argument message1)
      | Some end_ =>
          if array_len <? end_ then in_java (throw_argument message2) else
          on_engine runtime op k
      end) : native X).
Proof.
  intros Hp Hok Hk. apply keeps_java_bind with (P := fun _ => True).
  { intros j. eapply settles_mono; [apply array_len_settles|done]. }
  intros n _. destruct (checked_add _ _ _) as [e|]; [|by apply keeps_throw].
  destruct (n <? e); [by apply keeps_throw|]. by apply (keeps_engine patience call).
Qed.

(** What a read puts into the array. *)
Lemma deliver_settles destination offset b message j : 0 <= offset ->
  settles (rec! _ := set_region destination offset (as_jbytes b) in in_range i32_max (len b) message) j
    (fun _ _ => True).
Proof.
  intros Ho. apply settles_bind. eapply settles_mono; [by apply set_region_settles, as_jbytes_range|].
  intros [[]|e| |] j' Hr _; [apply range_keeps|done..].
Qed.

Lemma closure_keeps {A} patience (call : NativeCall JString JByteArray A) :
  keeps (given_handle call) (closure patience call).
Proof.
  destruct call; cbn [closure given_handle].
  - by apply keeps_ret.
  - unfold native_open_video. destruct (port_of_jint _) as [port|]; [|by apply keeps_throw].
    destruct (port =? 0); [by apply keeps_throw|].
    repeat (apply keeps_java_bind with (P := fun _ => True);
      [intros j; eapply settles_mono; [apply try_to_string_settles|done]|intros ? _]).
    match goal with |- keeps _ (on_engine _ (AndroidEngine.open_video _ ?request _ _ _) _) =>
      apply (keeps_engine_open patience (OpenVideo request tokens clock script) _ fst); [done|done|] end.
    intros [h runner] j Hh. cbn in *. eapply settles_mono; [apply in_range_settles|].
    intros r j' _ [_ Hr] h'. destruct Hr as [-> _]; [unfold i64_max_u64; lia|]. by intros [= <-].
  - by apply (keeps_opens patience OpenDirectory).
  - unfold native_read_directory_page. case_match; [by apply keeps_throw|].
    apply (keeps_engine patience (ReadPage (as_u64 handle))); [done|done|]. apply array_settles.
  - unfold native_directory_capacity. case_match; [by apply keeps_throw|].
    apply (keeps_engine patience (Capacity (as_u64 handle))); [done|done|]. apply array_settles.
  - unfold native_directory_size. case_match; [by apply keeps_throw|].
    by apply (keeps_engine patience (Size visits pages (as_u64 handle))).
  - unfold native_close_directory. case_match; [by apply keeps_throw|].
    by apply (keeps_engine patience (CloseDirectory (as_u64 handle))).
  - by apply (keeps_opens patience OpenWritable).
  - unfold native_write_at. do 4 (case_match; [by apply keeps_throw|]). bool_facts.
    apply keeps_write with (patience := patience)
      (call := fun b => WriteWritable (as_u64 handle) (as_u64 position) b); [lia| |intros; apply range_keeps].
    intros b. split; [done|]. apply as_u64_nonneg.
  - unfold native_flush_writable. case_match; [by apply keeps_throw|].
    by apply (keeps_engine patience (FlushWritable (as_u64 handle))).
  - unfold native_close_writable. case_match; [by apply keeps_throw|].
    by apply (keeps_engine patience (CloseWritable (as_u64 handle))).
  - by apply (keeps_opens patience OpenRandom).
  - unfold native_read_random_at. do 2 (case_match; [by apply keeps_throw|]). bool_facts.
    apply keeps_read with (patience := patience) (call := ReadRandom (as_u64 handle) (as_u64 position) length);
      [done|split; [apply as_u64_nonneg|cbn; lia]|].
    intros b j. case_match; [done|]. apply deliver_settles. lia.
  - unfold native_write_random_at. do 2 (case_match; [by apply keeps_throw|]). bool_facts.
    apply keeps_write with (patience := patience)
      (call := fun b => WriteRandom (as_u64 handle) (as_u64 position) b); [lia| |intros; apply range_keeps].
    intros b. split; [done|]. apply as_u64_nonneg.
  - unfold native_set_random_length. case_match; [by apply keeps_throw|].
    apply (keeps_engine patience (SetLength (as_u64 handle) (as_u64 length))); [done|apply as_u64_nonneg|done].
  - unfold native_flush_random. case_match; [by apply keeps_throw|].
    by apply (keeps_engine patience (FlushRandom (as_u64 handle))).
  - unfold native_close_random. case_match; [by apply keeps_throw|].
    by apply (keeps_engine patience (CloseRandom (as_u64 handle))).
  - by apply (keeps_mutates patience Mkdir).
  - by apply (keeps_mutates patience CreateFile).
  - apply keeps_request; [done|]. intros request.
    apply keeps_java_bind with (P := fun d => len (utf16_bytes d) <= 2 * i32_max).
    { intros j. apply string_settles. }
    intros d _. by apply (keeps_engine patience (Mutate request (Rename d))).
  - by apply (keeps_mutates patience DeleteFile).
  - apply keeps_video; [done|]. intros h. apply (keeps_engine patience (VideoLen h)); [done|done|].
    intros; apply range_keeps.
  - apply keeps_video; [done|]. intros h. do 2 (case_match; [by apply keeps_throw|]).
    destruct (length =? 0); [by apply keeps_ret|]. bool_facts.
    apply keeps_read with (patience := patience) (call := ReadVideo h (as_u64 position) length reply replied);
      [done|done|]. intros b j. apply deliver_settles. lia.
  - apply keeps_video; [done|]. intros h. do 2 (case_match; [by apply keeps_throw|]).
    destruct (length =? 0); [by apply keeps_ret|].
    by apply (keeps_engine patience (PrefetchVideo h (as_u64 position) length)).
  - apply keeps_video; [done|]. intros h. case_match; [by apply keeps_throw|].
    apply (keeps_engine patience (SeekVideo h)); [done|done|]. intros; apply range_keeps.
  - apply keeps_video; [done|]. intros h. by apply (keeps_engine patience (CloseVideo h reply replied)).
Qed.

(** *** Sequences *)

Lemma native_called_java (p p' : process) h j : native_called p h p' -> native_called p h (set_java p' j).
Proof. done. Qed.

Definition given_handles (rs : list (outcome JniError (option Z))) : list Z :=
  omap (fun r => match r with Ok (Some handle) => Some handle | _ => None end) rs.

Definition all_native_called (c : counters) (rs : list (outcome JniError (option Z))) (p' : process) : Prop :=
  Panic ∉ rs /\ NoDup (given_handles rs) /\
  Forall (fun h => 0 < h < 2 ^ 63 /\ ~ issued c h) (given_handles rs) /\
  (OutOfFuel ∉ rs -> process_inv p').

Lemma native_step (c : counters) (p p1 : process) (r : outcome JniError (option Z)) rs p' n :
  native_called p (match r with Ok h => h | _ => None end) p1 -> r <> Panic ->
  below (2 ^ 60 - 1 - n) (process_counters p1) -> 0 <= n ->
  all_native_called (process_counters p1) rs p' -> c = process_counters p ->
  all_native_called c (r :: rs) p'.
Proof.
  intros (Hi & Hold & Hnew & Hh) Hr Hroom Hn (Hnp & Hnd & Hf & Hinv) ->.
  split; [apply not_elem_of_cons; by split|].
  assert (Forall (fun h => 0 < h < 2 ^ 63 /\ ~ issued (process_counters p) h) (given_handles rs)) as Hf'.
  { eapply Forall_impl; [exact Hf|]. cbn. intros h [? Hni]. split; [done|]. by intros ?%Hold. }
  assert (OutOfFuel ∉ r :: rs -> process_inv p') as Hinv'.
  { intros Hno. apply Hinv. by apply not_elem_of_cons in Hno as [_ ?]. }
  destruct r as [[h|]|er| |]; cbn [given_handles omap list_omap]; try by split.
  destruct (Hh h eq_refl) as [Hin Hni]. split.
  { apply NoDup_cons. split; [|done]. intros Hel. rewrite Forall_forall in Hf. by destruct (Hf h Hel) as [_ ?]. }
  split; [|done]. apply Forall_cons. split; [|done]. split; [|done].
  eapply issued_positive; [|exact Hin]. unfold below in *. lia.
Qed.

Lemma native_all_runs patience calls : forall p, process_inv p ->
  below (2 ^ 60 - 1 - Z.of_nat (length calls)) (process_counters p) ->
  let '(rs, p') := native_all patience calls p in all_native_called (process_counters p) rs p'.
Proof.
  induction calls as [|[A call] calls IH]; intros p Hi Hroom; cbn [native_all].
  { split; [apply not_elem_of_nil|]. split; [constructor|]. by split; [constructor|]. }
  cbn [length] in Hroom.
  pose proof (closure_keeps patience call p Hi ltac:(unfold below in *; lia)) as Hc.
  unfold eruns in Hc. unfold perform_native, resolve.
  destruct (closure patience call p) as [r p1]. destruct r as [a|e| |]; cbn [snd]; [| |done|].
  3: { split; [by intros ?%list_elem_of_singleton|]. split; [constructor|]. split; [constructor|].
       intros Hno. exfalso. apply Hno. by left. }
  all: assert (below (2 ^ 60 - 1 - Z.of_nat (length calls)) (process_counters p1)) as Hroom1
    by (destruct Hc as (_ & _ & Hb & _); apply Hb in Hroom; unfold below in *; lia).
  - specialize (IH p1 ltac:(apply Hc) Hroom1). destruct (native_all patience calls p1) as [rs p'].
    eapply native_step; [exact Hc|done|exact Hroom1|lia|exact IH|done..].
  - specialize (IH (set_java p1 (throw_failure (Some e) (Process.java p1))) ltac:(apply Hc) Hroom1).
    unfold set_java in IH. destruct (native_all patience calls _) as [rs p'].
    eapply native_step; [exact Hc|done|exact Hroom1|lia|exact IH|done..].
Qed.

(** *** Refusals *)

(** Only an exception is thrown; if [argument], one for the argument. *)
Definition refused {A} (argument : bool) (p : process) (r : outcome JniError A) (p' : process) : Prop :=
  Process.ENGINE p' = Process.ENGINE p /\ Process.world p' = Process.world p /\
  same_arrays (Process.java p) (Process.java p') /\
  (argument = true -> throwing -> exists text,
     pending (Process.java p') = Some (Thrown IllegalArgumentException (Text text))) /\
  (is_ok r = true -> pending (Process.java p') <> None).

Lemma throw_refused {A B} `{Default A} argument text (p : process) (k : A -> native B) :
  (forall a p, settles (k a) p (fun r p' => is_ok r = true /\ p' = p)) ->
  settles (ebind (in_java (throw_argument text)) k) p (refused argument p).
Proof.
  intros Hk. apply settles_bind. unfold settles at 1, in_java.
  pose proof (throw_exception_settles (A:=A) IllegalArgumentException (Text text) (Process.java p)) as Ht.
  unfold settles, throw_argument in *.
  destruct (throw_exception _ _ (Process.java p)) as [[a|e| |] j]; try done; destruct Ht as (Ha & Ht & Hr).
  - specialize (Hk a (set_java p j)). unfold settles, set_java in *.
    destruct (k a _) as [r p']. destruct Hr as [_ Hr].
    assert (refused argument p r p' ) as Hgoal.
    { assert (p' = Process.mk (Process.ENGINE p) (Process.world p) j) as -> by (destruct r; try done; by destruct Hk).
      split_and!; [done..| |cbn; congruence]. intros _ _. by exists text. }
    by destruct r.
  - split_and!; [done..| |done]. intros _ Hthrow. exists text. by apply Ht.
Qed.

Lemma throw_argument_refused {A} `{Default A} argument text (p : process) :
  settles (in_java (throw_argument text) : native A) p (refused argument p).
Proof.
  pose proof (throw_refused (A:=A) argument text p eret ltac:(done)) as Ht.
  unfold settles, ebind, eret in *. by destruct (in_java _ p) as [[] p'].
Qed.

Lemma request_refused {X} `{Default X} (args : Arguments_.t JString) (k : SmbMutationRequest.t -> native X)
    (p : process) : port_ok args = false -> settles (with_request args k) p (refused true p).
Proof.
  intros Hp. unfold with_request, mutation_request.
  assert (match port_of_jint (Arguments_.port args) with Some port => port =? 0 | None => true end = true) as Hport.
  { unfold port_of_jint, port_ok, u16_max in *.
    destruct (Z.leb_spec 0 (Arguments_.port args)), (Z.leb_spec (Arguments_.port args) 65535); try done. cbn.
    bool_facts. lia. }
  pose proof (throw_refused (A:=unit) (B:=X) true port_message p (fun _ => eret default_value) ltac:(done)) as Ht.
  assert (forall (m : est JniError J (option SmbMutationRequest.t)),
    m = (rec! _ := (throw_argument port_message : est JniError J unit) in eret None) ->
    settles (rec! request := (in_java m : native _) in match request with
             | None => eret default_value | Some request => k request end) p (refused true p)) as Hm.
  { intros m ->. unfold settles, ebind, in_java, eret in *.
    by destruct (throw_argument _ _) as [[] j]. }
  destruct (port_of_jint _) as [port|]; [rewrite Hport|]; by apply Hm.
Qed.

Lemma video_refused {X} (raw : Z) (other : X) (k : Z -> native X) (p : process) :
  (0 <? raw) = false -> settles (with_video raw other k) p (refused true p).
Proof.
  intros Hr. unfold with_video, video_handle. replace (raw <=? 0) with true by (bool_facts; lia).
  pose proof (throw_refused (A:=unit) (B:=X) true "SMB video handle must be positive" p
    (fun _ => eret other) ltac:(done)) as Ht.
  unfold settles, ebind, in_java, eret in *. by destruct (throw_argument _ _) as [[] j].
Qed.

Lemma video_accepted {X} (raw : Z) (other : X) (k : Z -> native X) (p : process) Q :
  (0 <? raw) = true -> settles (k (as_u64 raw)) p Q -> settles (with_video raw other k) p Q.
Proof.
  intros Hr Hk. unfold with_video, video_handle. replace (raw <=? 0) with false by (bool_facts; lia).
  by destruct p.
Qed.

Lemma region_refused {X} `{Default X} a offset length message1 message2 (k : native X) (p : process) :
  array_fits (Process.java p) a (offset + length) = false ->
  settles ((rec! array_len := in_java (array_len a) in
      match checked_add usize_max offset length with
      | None => in_java (throw_argument message1)
      | Some end_ => if array_len <? end_ then in_java (throw_argument message2) else k
      end) : native X) p (refused false p).
Proof.
  intros Hf. apply settles_bind. unfold settles at 1, in_java at 1.
  pose proof (array_len_settles a (Process.java p)) as Hl. unfold settles in Hl.
  destruct (array_len a (Process.java p)) as [[n|e| |] j]; try done; destruct Hl as [Ha Hl]; [|by split_and!].
  destruct (Hl n eq_refl) as (_ & _ & l & Hc & ->). unfold array_fits in Hf. rewrite Hc in Hf.
  assert (forall message, settles (in_java (throw_argument message) : native X)
    (Process.mk (Process.ENGINE p) (Process.world p) j) (refused false p)) as Ht.
  { intros message. eapply settles_mono; [apply (throw_argument_refused false)|].
    intros r p' _ (? & ? & Hs & _ & ?). split_and!; [done..| |done|done]. intros b. by rewrite Hs. }
  unfold checked_add. destruct (offset + length <=? usize_max); [|apply Ht].
  replace (len l <? offset + length) with true by (bool_facts; lia). apply Ht.
Qed.

(** A region of an array that does not fit, once the numbers are accepted. *)
Lemma chunk_refused {X} `{Default X} handle position a offset length message1 message2 (k : native X)
    (p : process) :
  0 < handle -> 0 <= position -> 0 <= offset -> 0 <= length <= 1024 * 1024 ->
  chunk_ok handle position offset length && array_fits (Process.java p) a (offset + length) = false ->
  settles ((rec! array_len := in_java (array_len a) in
      match checked_add usize_max offset length with
      | None => in_java (throw_argument message1)
      | Some end_ => if array_len <? end_ then in_java (throw_argument message2) else k
      end) : native X) p (refused (negb (chunk_ok handle position offset length)) p).
Proof.
  intros Hh Hp Ho Hl. replace (chunk_ok handle position offset length) with true
    by (unfold chunk_ok; symmetry; rewrite !andb_true_iff; lia).
  cbn [andb negb]. apply region_refused.
Qed.

Lemma closure_refuses {A} patience (call : NativeCall JString JByteArray A) (p : process) :
  well_formed call && fits (Process.java p) call = false ->
  settles (closure patience call) p (refused (negb (well_formed call)) p).
Proof.
  destruct call; cbn [closure well_formed fits]; rewrite ?andb_true_r; intros Hbad; try done;
    try (rewrite Hbad; by apply request_refused); try (rewrite Hbad; by apply video_refused);
    unfold native_read_directory_page, native_directory_capacity, native_directory_size,
      native_close_directory, native_flush_writable, native_close_writable, native_flush_random,
      native_close_random, native_write_at, native_read_random_at, native_write_random_at,
      native_set_random_length;
    try (case_match; [apply throw_argument_refused|]; bool_facts; try lia).
  - rewrite Hbad. unfold native_open_video, port_of_jint, port_ok, u16_max in *.
    destruct (Z.leb_spec 0 (Arguments_.port args)), (Z.leb_spec (Arguments_.port args) 65535); cbn;
      try apply throw_argument_refused.
    case_match; [apply throw_argument_refused|]. bool_facts. lia.
  - do 3 (case_match; [apply throw_argument_refused|]). bool_facts. apply chunk_refused; [lia..|done].
  - case_match; [apply throw_argument_refused|]. bool_facts. apply chunk_refused; [lia..|done].
  - case_match; [apply throw_argument_refused|]. bool_facts. apply chunk_refused; [lia..|done].
  - unfold native_read_at. destruct (0 <? handle) eqn:Eh; [|by apply video_refused].
    apply video_accepted; [done|]. do 2 (case_match; [apply throw_argument_refused|]). bool_facts.
    revert Hbad. replace (0 <=? position) with true by lia. replace (0 <=? destination_offset) with true by lia.
    replace (0 <=? length) with true by lia. cbn [andb negb]. destruct (length =? 0); [done|].
    apply region_refused.
  - unfold native_prefetch. destruct (0 <? handle) eqn:Eh; [|by apply video_refused].
    apply video_accepted; [done|]. do 2 (case_match; [apply throw_argument_refused|]). bool_facts. lia.
  - unfold native_seek. destruct (0 <? handle) eqn:Eh; [|by apply video_refused].
    apply video_accepted; [done|]. case_match; [apply throw_argument_refused|]. bool_facts. lia.
Qed.

(** What Java sees of a refusal. *)
Lemma resolve_refused {A} `{Default A} argument (m : native A) (p : process) :
  settles m p (refused argument p) -> exists a p', resolve m p = (Ok a, p') /\
    refused argument p (Ok a : outcome JniError A) p'.
Proof.
  unfold settles, resolve. destruct (m p) as [[a|e| |] p']; [by exists a, p'| |done..].
  intros (He & Hw & Ha & Ht & _). destruct (throw_failure_pending (Some e) (Process.java p')) as (Hs & Hp & Hk).
  eexists _, _. split; [reflexivity|]. split; [done|]. split; [done|]. split; [|split]; cbn.
  - intros b. by rewrite Hs.
  - intros Harg Hthrow. destruct (Ht Harg Hthrow) as [text Htext]. exists text. by apply Hk.
  - done.
Qed.

(** *** What the engine answers *)

Lemma with_entry_value {A X} (P : A -> Prop) (Q : X -> Prop) key (body : est AndroidBridgeError A X)
    (t : HandleTable.t A) :
  table_inv P t -> (forall a, P a -> eruns body a (fun r _ => forall x, r = Ok x -> Q x)) ->
  eruns (with_entry key body) t (fun r _ => forall x, r = Ok x -> Q x).
Proof.
  intros [Hn Hp Hk Hs] Hbody. unfold eruns, with_entry, HandleTable.get, lock. rewrite Hp. cbn [obind].
  destruct (_ !! key) as [a|] eqn:E; cbn [ok_or]; [|done]. destruct (Hk _ _ E) as [_ Ha].
  specialize (Hbody a Ha). unfold eruns in Hbody. by destruct (body a) as [[] a'].
Qed.

Lemma with_lock_value {A X} (P : A -> Prop) (Q : X -> Prop) (body : est AndroidBridgeError A X) (m : Mutex.t A) :
  guarded P m -> (forall a, P a -> eruns body a (fun r _ => forall x, r = Ok x -> Q x)) ->
  eruns (with_lock body) m (fun r _ => forall x, r = Ok x -> Q x).
Proof.
  intros [Hp Ha] Hbody. specialize (Hbody _ Ha). unfold eruns, with_lock, lock in *. rewrite Hp.
  by destruct (body (Mutex.value m)) as [[] a'].
Qed.

Lemma elift_bind_value {E S A B} (m : outcome E A) (k : A -> est E S B) s (Q : B -> Prop) :
  returns m -> (forall a, eruns (k a) s (fun r _ => forall x, r = Ok x -> Q x)) ->
  eruns (ebind (elift m) k) s (fun r _ => forall x, r = Ok x -> Q x).
Proof. intros Hm Hk. apply eruns_bind_lift; [done|by intros e _ x|]. intros a _. apply Hk. Qed.

Lemma random_entry_value {A} handle (body : est AndroidBridgeError (OpenFile.t T) A) (Q : A -> Prop) e (w : W) :
  engine_inv e -> (forall f, open_ok f -> eruns body f (fun r _ => forall x, r = Ok x -> Q x)) ->
  eruns (AndroidEngine.random_entry handle body) (e, w) (fun r _ => forall x, r = Ok x -> Q x).
Proof.
  intros Hi Hb. apply elift_bind_value; [apply returns_random_key|]. intros key.
  pose proof (with_entry_value random_ok Q key (unless_closing body) (AndroidEngine.randoms e)) as Hw.
  unfold eruns at 1, AndroidEngine.on_randoms. unfold eruns in Hw.
  destruct (with_entry key (unless_closing body) (AndroidEngine.randoms e)) as [[] t'];
    try done; apply Hw; try apply Hi; intros entry Hentry; unfold unless_closing.
  all: pose proof (with_lock_value open_ok Q
    (if RandomEntry.closing entry then efail (InternalState random_refused) else body)
    (RandomEntry.state entry) Hentry) as Hl; unfold eruns in *;
    destruct (with_lock _ _) as [[] m']; try done; apply Hl; intros f Hf;
    (destruct (RandomEntry.closing entry); [done|]); by apply Hb.
Qed.

Lemma writable_entry_value {A} handle (body : est AndroidBridgeError (OpenFile.t T) A) (Q : A -> Prop) e (w : W) :
  engine_inv e -> (forall f, open_ok f -> eruns body f (fun r _ => forall x, r = Ok x -> Q x)) ->
  eruns (AndroidEngine.writable_entry handle body) (e, w) (fun r _ => forall x, r = Ok x -> Q x).
Proof.
  intros Hi Hb. apply elift_bind_value; [apply returns_writable_key|]. intros key.
  pose proof (with_entry_value (guarded open_ok) Q key (with_lock body) (AndroidEngine.writers e)) as Hw.
  unfold eruns at 1, AndroidEngine.on_writers. unfold eruns in Hw.
  destruct (with_entry key (with_lock body) (AndroidEngine.writers e)) as [[] t'];
    try done; apply Hw; try apply Hi; intros entry Hentry; by apply (with_lock_value open_ok).
Qed.

(** A file operation answers what its result says. *)
Lemma file_outcome_value {A X} (f : OpenFile.t T) message op (good : A -> SessionConnection.t T -> bridge X -> OpenFile.t T -> Prop)
    (r : bridge X) f' (Q : X -> Prop) :
  file_outcome f message op good r f' ->
  (forall a s' x, op (Ok a) s' -> good a s' r f' -> r = Ok x -> Q x) -> forall x, r = Ok x -> Q x.
Proof.
  unfold file_outcome. intros Ho Hq x ->. destruct (OpenFile.poisoned f); [by destruct Ho|].
  destruct Ho as (answer & s' & Hop & Hr). destruct answer as [a|er| |]; [by eapply Hq|by destruct Hr|done..].
Qed.

Lemma read_random_value patience handle offset length e (w : W) : engine_inv e -> 0 <= length ->
  eruns (AndroidEngine.read_random_at patience handle offset length) (e, w)
    (fun r _ => forall b, r = Ok b -> len b <= length).
Proof.
  intros Hi Hl. unfold AndroidEngine.read_random_at. case_match; [done|].
  apply random_entry_value; [done|]. intros f Hf. eapply eruns_mono; [by apply read_random_runs|].
  intros r f'. unfold read_back. destruct (negb _ && _); [by intros [-> _] b [= <-]|].
  intros Ho. eapply file_outcome_value; [exact Ho|].
  intros a s' b (es & _ & data & ended & -> & _ & Hd & _) [-> _] [= <-]. cbn [app].
  lia.
Qed.

Lemma wrote_value f message offset data good r (f' : OpenFile.t T) :
  wrote f message offset data good r f' ->
  (forall n s' r f' x, good n s' r f' -> r = Ok x -> x = len data) -> forall n, r = Ok n -> n = len data.
Proof.
  unfold wrote. intros Hw Hg. destruct (negb _ && _) eqn:E.
  - destruct Hw as [-> _]. intros n [= <-]. destruct data; [done|]. by rewrite andb_false_r in E.
  - eapply file_outcome_value; [exact Hw|]. intros a s' x _ Hgood Hr. by eapply Hg.
Qed.

Lemma write_random_value patience handle offset data e (w : W) : engine_inv e -> 0 <= offset ->
  eruns (AndroidEngine.write_random_at patience handle offset data) (e, w)
    (fun r _ => forall n, r = Ok n -> n = len data).
Proof.
  intros Hi Ho. apply elift_bind_value.
  { unfold AndroidEngine.random_write_end. case_match; [done|].
    apply returns_bind; [apply returns_ok_or|]. intros; by case_match. }
  intros end_. apply random_entry_value; [done|]. intros f Hf.
  eapply eruns_mono; [by apply write_random_runs|]. intros r f' Hw. eapply wrote_value; [exact Hw|].
  intros n s' r0 f0 x (-> & -> & _) [= <-]. done.
Qed.

Lemma write_writable_value patience handle offset data e (w : W) : engine_inv e -> 0 <= offset ->
  eruns (AndroidEngine.write_writable_at patience handle offset data) (e, w)
    (fun r _ => forall n, r = Ok n -> n = len data).
Proof.
  intros Hi Ho. unfold AndroidEngine.write_writable_at. case_match; [done|].
  apply writable_entry_value; [done|]. intros f Hf.
  eapply eruns_mono; [by apply write_writable_runs|]. intros r f' Hw. eapply wrote_value; [exact Hw|].
  intros n s' r0 f0 x (-> & -> & _) [= <-]. done.
Qed.

Lemma read_video_value handle offset length reply replied (e : AndroidEngine.t T) (w : W) : engine_inv e ->
  eruns (AndroidEngine.read_at handle offset length reply replied) (e, w)
    (fun r _ => forall b, r = Ok b -> replied = Some (inr b)).
Proof.
  intros Hi. unfold AndroidEngine.read_at, AndroidEngine.validate_read_length.
  unfold eruns at 1, ebind at 1, eget. cbn. destruct (_ <? length); [done|].
  pose proof (with_entry_value (fun _ => True) (fun b => replied = Some (inr b)) handle
    (AndroidEngine.on_broker
       (rec! _ := VideoBrokerHandle.read offset length reply in elift (VideoBrokerHandle.awaited replied)))
    (AndroidEngine.videos e) (inv_videos e Hi)) as Hw.
  unfold AndroidEngine.on_videos. unfold eruns in Hw.
  assert (forall v, True -> eruns (AndroidEngine.on_broker
       (rec! _ := VideoBrokerHandle.read offset length reply in elift (VideoBrokerHandle.awaited replied))) v
    (fun r _ => forall b, r = Ok b -> replied = Some (inr b))) as Hb.
  { intros v _. unfold eruns, AndroidEngine.on_broker, VideoBrokerHandle.read, VideoBrokerHandle.generation,
      VideoBrokerHandle.send, on_token, ebind, elift. cbn.
    destruct (Shared.receivers _); cbn; [|done]. destruct replied as [[er|b]|]; cbn; [done| |done].
    by intros b' [= <-]. }
  specialize (Hw Hb). unfold eret. by destruct (with_entry _ _ (AndroidEngine.videos e)) as [[] t'].
Qed.

(** *** Bytes from and into arrays *)

(** The engine of the process gave this answer, once. *)
Definition engine_answers {A} (p p' : process) (op : engine_op A) (answer : bridge A) : Prop :=
  exists e q, found_engine p = inr e /\ op (e, Process.world p) = (answer, q) /\
    Process.ENGINE p' = Some (inr q.1) /\ Process.world p' = q.2.

(** What a read does to Java: a region of one array, no longer than asked for,
    holds what the engine answered; or an exception is pending and nothing was
    written. *)
Definition read_delivers (p : process) (destination : JByteArray) (offset length : Z) (eof : bool)
    (op : engine_op bytes) (r : outcome Empty_set Z) (p' : process) : Prop :=
  same_but destination (Process.java p) (Process.java p') /\ exists n, r = Ok n /\
  ((exists data l, engine_answers p p' op (Ok data) /\ pending (Process.java p') = pending (Process.java p) /\
      contents (Process.java p) destination = Some l /\ 0 <= offset /\ offset + length <= len l /\
      len data <= length /\
      contents (Process.java p') destination = Some (splice l offset (as_jbytes data)) /\
      n = if eof && is_empty data && negb (length =? 0) then -1 else len data) \/
   (pending (Process.java p') <> None /\ same_arrays (Process.java p) (Process.java p'))).

(** What a write takes from Java: exactly the bytes of the region, all of which
    were written; or an exception is pending. *)
Definition write_takes (p : process) (source : JByteArray) (offset length : Z)
    (op : bytes -> engine_op Z) (r : outcome Empty_set Z) (p' : process) : Prop :=
  same_arrays (Process.java p) (Process.java p') /\ exists n, r = Ok n /\
  ((exists data l, engine_answers p p' (op data) (Ok n) /\
      pending (Process.java p') = pending (Process.java p) /\
      contents (Process.java p) source = Some l /\ 0 <= offset /\ offset + length <= len l /\
      as_jbytes data = sub l offset length /\ n = length) \/
   pending (Process.java p') <> None).

Lemma resolve_runs {A} `{Default A} (m : native A) (p : process) Q :
  eruns m p (fun r p' =>
    match r with
    | Ok a => Q (Ok a) p'
    | Err e => Q (Ok default_value) (set_java p' (throw_failure (Some e) (Process.java p')))
    | _ => True
    end) -> eruns (resolve m) p Q.
Proof. unfold eruns, resolve. by destruct (m p) as [[a|e| |] p']. Qed.

(** A closure that failed, with nothing written. *)
Definition failed {A} (p : process) (r : outcome JniError A) (p' : process) : Prop :=
  same_arrays (Process.java p) (Process.java p') /\
  (is_ok r = true -> pending (Process.java p') <> None).

Definition resolved {A} `{Default A} (p' : process) (r : outcome JniError A) : A * process :=
  match r with
  | Ok a => (a, p')
  | Err e => (default_value, set_java p' (throw_failure (Some e) (Process.java p')))
  | _ => (default_value, p')
  end.

Lemma failed_resolved {A} `{Default A} (p p' : process) (r : outcome JniError A) : returns r -> failed p r p' ->
  same_arrays (Process.java p) (Process.java (resolved p' r).2) /\
  pending (Process.java (resolved p' r).2) <> None.
Proof.
  intros Hr [Ha Hp]. destruct r as [a|e| |]; [|clear Hp|done..].
  - split; [done|]. by apply Hp.
  - destruct (throw_failure_pending (Some e) (Process.java p')) as (Hs & Hn & _).
    split; [|done]. intros b. cbn. by rewrite Hs.
Qed.

Lemma threw_failed {A} class message (a : A) (p : process) j r p' : same_arrays (Process.java p) j ->
  threw class message a j r (Process.java p') -> failed p r p'.
Proof.
  intros Hj (Ha & _ & Hr). split; [intros b; by rewrite Ha|].
  destruct r as [x| | |]; [|done..]. intros _. by destruct Hr as [_ ->].
Qed.

Lemma refused_failed {A} argument (p p' : process) (r : outcome JniError A) :
  refused argument p r p' -> failed p r p'.
Proof. intros (_ & _ & ? & _ & ?). by split. Qed.

Lemma engine_answers_same {A} (p p1 p' : process) (op : engine_op A) answer :
  Process.ENGINE p1 = Process.ENGINE p -> Process.world p1 = Process.world p ->
  engine_answers p1 p' op answer -> engine_answers p p' op answer.
Proof. unfold engine_answers, found_engine. by intros -> ->. Qed.

(** The arguments were accepted, and the array was measured. *)
Lemma region_runs {X} `{Default X} a offset length message1 message2 (k : native X) (p : process)
    (Q : outcome JniError X -> process -> Prop) : 0 <= offset -> 0 <= length ->
  (forall r p', failed p r p' -> Q r p') ->
  (forall j l, same_heap (Process.java p) j -> contents (Process.java p) a = Some l ->
     offset + length <= len l -> len l <= i32_max -> eruns k (set_java p j) Q) ->
  eruns ((rec! array_len := in_java (array_len a) in
      match checked_add usize_max offset length with
      | None => in_java (throw_argument message1)
      | Some end_ => if array_len <? end_ then in_java (throw_argument message2) else k
      end) : native X) p Q.
Proof.
  intros Ho Hl HQ Hk. apply in_java_bind_runs. eapply settles_mono; [apply array_len_settles|].
  intros [n|e| |] j Hr [Ha Hn]; [|by apply HQ; split|done..].
  destruct (Hn n eq_refl) as (Hp & Hmax & l & Hc & ->).
  assert (forall message, eruns (in_java (throw_argument message) : native X) (set_java p j) Q) as Ht.
  { intros message. apply in_java_runs. eapply settles_mono; [apply throw_exception_settles|].
    intros r j' _ Ht. apply HQ. by eapply threw_failed. }
  unfold checked_add. destruct (offset + length <=? usize_max); [|apply Ht].
  destruct (Z.ltb_spec (len l) (offset + length)); [apply Ht|]. by apply (Hk j l).
Qed.

(** What becomes of the answer of the engine to a read. *)
Definition delivery (destination : JByteArray) (offset length : Z) (eof : bool) (message : string)
    (data : bytes) : est JniError J Z :=
  if eof && (is_empty data && negb (length =? 0)) then eret (-1) else
  rec! _ := set_region destination offset (as_jbytes data) in in_range i32_max (len data) message.

Lemma delivery_settles destination offset length eof message data j l : 0 <= offset -> 0 <= length ->
  contents j destination = Some l -> offset + length <= len l -> len l <= i32_max -> len data <= length ->
  settles (delivery destination offset length eof message data) j (fun r j' =>
    match r with
    | Ok n => same_but destination j j' /\ pending j' = pending j /\
        contents j' destination = Some (splice l offset (as_jbytes data)) /\
        n = if eof && is_empty data && negb (length =? 0) then -1 else len data
    | _ => same_arrays j j'
    end).
Proof.
  intros Ho Hl Hc Hfit Hmax Hd. unfold delivery. rewrite <- andb_assoc. destruct (eof && _) eqn:E.
  - assert (data = []) as -> by (destruct data, eof; done). unfold settles, eret.
    rewrite splice_nil. by split_and!.
  - apply settles_bind. eapply settles_mono; [by apply set_region_settles, as_jbytes_range|].
    intros [[]|e| |] j' Hr Hs; [|done..]. destruct Hs as (Hp & Hb & l' & Hc' & _ & Hnew).
    rewrite Hc in Hc'. injection Hc' as <-. eapply settles_mono; [apply in_range_settles|].
    intros r j2 _ [_ Hin]. destruct Hin as [-> ->]; [lia|]. by split_and!.
Qed.

(** A property of what Java sees that holds of every failure without a write. *)
Definition holds_of_failures {X} `{Default X} (p : process) (Q : outcome Empty_set X -> process -> Prop) : Prop :=
  forall (a : X) p', same_arrays (Process.java p) (Process.java p') -> pending (Process.java p') <> None ->
    Q (Ok a) p'.

(** What [resolve] makes of a closure. *)
Definition seen {X} `{Default X} (Q : outcome Empty_set X -> process -> Prop) (r : outcome JniError X)
    (p' : process) : Prop :=
  match r with
  | Ok a => Q (Ok a) p'
  | Err e => Q (Ok default_value) (set_java p' (throw_failure (Some e) (Process.java p')))
  | _ => True
  end.

Lemma failed_seen {X} `{Default X} (p : process) Q (r : outcome JniError X) p' :
  holds_of_failures p Q -> failed p r p' -> seen Q r p'.
Proof.
  intros HQ [Ha Hp]. destruct r as [a|e| |]; [by apply HQ; [|apply Hp]| |done..].
  destruct (throw_failure_pending (Some e) (Process.java p')) as (Hs & Hn & _).
  apply HQ; [|done]. intros b. cbn. by rewrite Hs.
Qed.

Lemma engine_seen {A X} `{Default X} (op : engine_op A) (k : A -> est JniError J X) (p : process) j Q :
  holds_of_failures p Q -> same_arrays (Process.java p) j ->
  (forall e, found_engine p = inr e -> eruns op (e, Process.world p) (fun answer q =>
     match answer with
     | Ok a => settles (k a) j (fun r j' =>
         match r with
         | Ok x => Q (Ok x) (Process.mk (Some (inr q.1)) q.2 j')
         | _ => same_arrays j j'
         end)
     | _ => True
     end)) ->
  eruns (on_engine runtime op k : native X) (set_java p j) (seen Q).
Proof.
  intros HQ Ha Hop. apply on_engine_runs.
  - intros error r j' _ Ht. eapply failed_seen; [exact HQ|]. by eapply threw_failed.
  - intros e Hf. eapply eruns_mono; [by apply Hop|]. intros [a|error| |] q Hq; [| |done..].
    + eapply settles_mono; [exact Hq|]. intros [x|er| |] j' Hr Hj; [done| |done..].
      eapply failed_seen; [exact HQ|]. split; [|done]. intros b. cbn. by rewrite Hj.
    + intros r j' Ht. eapply failed_seen; [exact HQ|]. by eapply threw_failed.
Qed.

Lemma region_read_runs destination offset length eof message1 message2 message3 (op : engine_op bytes) (p : process) :
  0 <= offset -> 0 <= length ->
  (forall e, found_engine p = inr e ->
     eruns op (e, Process.world p) (fun r _ => forall b, r = Ok b -> len b <= length)) ->
  eruns (resolve ((rec! array_len := in_java (array_len destination) in
      match checked_add usize_max offset length with
      | None => in_java (throw_argument message1)
      | Some end_ =>
          if array_len <? end_ then in_java (throw_argument message2) else
          on_engine runtime op (delivery destination offset length eof message3)
      end) : native Z)) p (read_delivers p destination offset length eof op).
Proof.
  intros Ho Hl Hop. apply resolve_runs.
  assert (holds_of_failures p (read_delivers p destination offset length eof op)) as HQ.
  { intros n p' Ha Hp. split; [intros b _; apply Ha|]. exists n. split; [done|]. by right. }
  apply region_runs; [done|done|by intros; eapply failed_seen|].
  intros j l [Ha Hp] Hc Hfit Hmax. apply engine_seen; [done|done|]. intros e Hf. specialize (Hop e Hf).
  unfold eruns in *. destruct (op (e, Process.world p)) as [[data|er| |] q] eqn:Eop; try done.
  rewrite <- Ha in Hc. eapply settles_mono; [apply delivery_settles; try done; by apply Hop|].
  intros [n|er| |] j' Hr Hj; [|done..]. destruct Hj as (Hb & Hpj & Hnew & Hn). rewrite Ha in Hc.
  split; [intros b Hne; cbn; by rewrite Hb, Ha|]. exists n. split; [done|]. left. exists data, l.
  split; [by exists e, q|]. cbn. split; [congruence|]. split_and!; try done. by apply Hop.
Qed.

Lemma region_write_runs source offset length message1 message2 message3 (op : bytes -> engine_op Z) (p : process) :
  0 <= offset -> 0 <= length <= i32_max ->
  (forall e data, found_engine p = inr e ->
     eruns (op data) (e, Process.world p) (fun r _ => forall n, r = Ok n -> n = len data)) ->
  eruns (resolve ((rec! array_len := in_java (array_len source) in
      match checked_add usize_max offset length with
      | None => in_java (throw_argument message1)
      | Some end_ =>
          if array_len <? end_ then in_java (throw_argument message2) else
          rec! bytes := in_java (source_bytes source offset length) in
          on_engine runtime (op bytes) (fun count => in_range i32_max count message3)
      end) : native Z)) p (write_takes p source offset length op).
Proof.
  intros Ho Hl Hop. apply resolve_runs.
  assert (holds_of_failures p (write_takes p source offset length op)) as HQ.
  { intros n p' Ha Hp. split; [done|]. exists n. split; [done|]. by right. }
  apply region_runs; [done|lia|by intros; eapply failed_seen|].
  intros j l [Ha Hp] Hc Hfit Hmax. apply in_java_bind_runs.
  eapply settles_mono; [apply source_settles; lia|]. cbn [set_java Process.java].
  intros [data|er| |] j1 Hr [Ha1 Hd]; [| |done..].
  2: { apply (failed_seen p _ (Err er)); [done|]. split; [|done]. intros b. cbn. by rewrite Ha1. }
  assert (same_arrays (Process.java p) j1) as Ha' by (intros b; by rewrite Ha1).
  destruct (Hd data eq_refl) as (Hp1 & Hempty & Hfull).
  assert (as_jbytes data = sub l offset length /\ len data = length) as [Hdata Hlen].
  { destruct (Z.ltb_spec 0 length) as [Hpos|Hz].
    - destruct (Hfull Hpos) as (l' & Hc' & _ & ->). rewrite Ha, Hc in Hc'. injection Hc' as <-.
      rewrite as_jbytes_u8s; [split; [done|]|].
      + rewrite <- len_as_jbytes, as_jbytes_u8s; [apply len_sub; lia|].
        eapply Forall_take, Forall_drop, contents_jbytes; exact Hc.
      + eapply Forall_take, Forall_drop, contents_jbytes; exact Hc.
    - rewrite Hempty by done. assert (length = 0) as -> by lia. done. }
  apply (engine_seen _ _ p j1); [done|done|]. intros e Hf. specialize (Hop e data Hf).
  unfold eruns in *. destruct (op data (e, Process.world p)) as [[n|er| |] q] eqn:Eop; try done.
  eapply settles_mono; [apply in_range_settles|]. intros r j' Hr' [Hs Hin].
  rewrite (Hop n eq_refl) in *. destruct Hin as [-> ->]; [lia|].
  split; [done|]. eexists. split; [done|]. left. exists data, l. rewrite Hlen in *.
  split; [by exists e, q|]. cbn. split; [congruence|]. by split_and!.
Qed.

Lemma refused_seen {X} `{Default X} argument (m : native X) (p : process) Q :
  settles m p (refused argument p) -> holds_of_failures p Q -> eruns (resolve m) p Q.
Proof.
  intros Hm HQ. apply resolve_runs. unfold settles, eruns in *.
  destruct (m p) as [[a|e| |] p']; [| |done..]; apply refused_failed in Hm;
    [by apply (failed_seen p Q (Ok a))|by apply (failed_seen p Q (Err e))].
Qed.

Lemma delivers_failures p destination offset length eof op :
  holds_of_failures p (read_delivers p destination offset length eof op).
Proof. intros n p' Ha Hp. split; [intros b _; apply Ha|]. exists n. split; [done|]. by right. Qed.

Lemma takes_failures p source offset length op : holds_of_failures p (write_takes p source offset length op).
Proof. intros n p' Ha Hp. split; [done|]. exists n. split; [done|]. by right. Qed.

Lemma as_u64_id v : 0 <= v < 2 ^ 63 -> as_u64 v = v.
Proof. intros Hv. apply Z.mod_small. lia. Qed.

Lemma native_read_random_runs patience handle position destination offset length (p : process) :
  process_inv p -> handle < 2 ^ 63 -> position < 2 ^ 63 ->
  eruns (resolve (native_read_random_at runtime patience handle position destination offset length)) p
    (read_delivers p destination offset length true
       (AndroidEngine.read_random_at patience handle position length)).
Proof.
  intros Hi Hh Hpos. unfold native_read_random_at. pose proof (delivers_failures p destination offset length true
    (AndroidEngine.read_random_at patience handle position length)) as HQ.
  do 2 (case_match; [by apply (refused_seen false); [apply throw_argument_refused|]|]). bool_facts.
  rewrite !as_u64_id by lia.
  apply (region_read_runs destination offset length true _ _ "random SMB read count exceeds Java Int"); [lia..|].
  intros e Hf. apply read_random_value; [|lia]. unfold process_inv in Hi. by rewrite Hf in Hi.
Qed.

Lemma native_read_runs reply replied handle position destination offset length (p : process) :
  process_inv p -> handle < 2 ^ 63 -> position < 2 ^ 63 ->
  (forall data, replied = Some (inr data) -> len data <= length) ->
  eruns (resolve (native_read_at runtime reply replied handle position destination offset length)) p
    (fun r p' => (length = 0 /\ r = Ok 0 /\ p' = p) \/
       read_delivers p destination offset length false
         (AndroidEngine.read_at handle position length reply replied) r p').
Proof.
  intros Hi Hh Hpos Hreply. set (op := AndroidEngine.read_at handle position length reply replied).
  assert (holds_of_failures p (fun r p' => (length = 0 /\ r = Ok 0 /\ p' = p) \/
    read_delivers p destination offset length false op r p')) as HQ.
  { intros n p' Ha Hp. right. by apply delivers_failures. }
  destruct (0 <? handle) eqn:Eh; [|by apply (refused_seen true); [apply video_refused|]].
  assert (forall (k : Z -> native Z) Q, eruns (resolve (k handle)) p Q ->
    eruns (resolve (with_video handle (-1) k)) p Q) as Hvideo.
  { intros k Q. unfold with_video, video_handle. replace (handle <=? 0) with false by (bool_facts; lia).
    rewrite as_u64_id by (bool_facts; lia). by destruct p. }
  apply Hvideo. do 2 (case_match; [by apply (refused_seen false); [apply throw_argument_refused|]|]).
  destruct (length =? 0) eqn:El.
  { bool_facts. subst length. unfold eruns, resolve, eret. by left. }
  bool_facts. rewrite as_u64_id by lia.
  eapply eruns_mono; [apply (region_read_runs destination offset length false _ _
    "SMB native read result exceeds Java Int range" op); [lia..|]|by right].
  intros e Hf. eapply eruns_mono; [apply read_video_value|].
  - unfold process_inv in Hi. by rewrite Hf in Hi.
  - intros r q Hr b Hb. by apply Hreply, Hr.
Qed.

Lemma native_write_runs patience handle position source offset length (p : process) :
  process_inv p -> handle < 2 ^ 63 -> position < 2 ^ 63 ->
  eruns (resolve (native_write_at runtime patience handle position source offset length)) p
    (write_takes p source offset length (AndroidEngine.write_writable_at patience handle position)).
Proof.
  intros Hi Hh Hpos. unfold native_write_at. pose proof (takes_failures p source offset length
    (AndroidEngine.write_writable_at patience handle position)) as HQ.
  do 4 (case_match; [by apply (refused_seen false); [apply throw_argument_refused|]|]). bool_facts.
  rewrite !as_u64_id by lia. apply region_write_runs; [lia|unfold i32_max; lia|].
  intros e data Hf. apply write_writable_value; [|lia]. unfold process_inv in Hi. by rewrite Hf in Hi.
Qed.

Lemma native_write_random_runs patience handle position source offset length (p : process) :
  process_inv p -> handle < 2 ^ 63 -> position < 2 ^ 63 ->
  eruns (resolve (native_write_random_at runtime patience handle position source offset length)) p
    (write_takes p source offset length (AndroidEngine.write_random_at patience handle position)).
Proof.
  intros Hi Hh Hpos. unfold native_write_random_at. pose proof (takes_failures p source offset length
    (AndroidEngine.write_random_at patience handle position)) as HQ.
  do 2 (case_match; [by apply (refused_seen false); [apply throw_argument_refused|]|]). bool_facts.
  rewrite !as_u64_id by lia. apply region_write_runs; [lia|unfold i32_max; lia|].
  intros e data Hf. apply write_random_value; [|lia]. unfold process_inv in Hi. by rewrite Hf in Hi.
Qed.

(** A call that returned. *)
Definition ended {A} (patience : nat) (call : NativeCall JString JByteArray A) (p : process) : bool :=
  match fst (closure patience call p) with OutOfFuel => false | _ => true end.

Lemma perform_native_inv {A} patience (call : NativeCall JString JByteArray A) (p : process) :
  process_inv p -> below (2 ^ 60 - 1) (process_counters p) -> ended patience call p = true ->
  process_inv (snd (perform_native patience call p)).
Proof.
  intros Hi Hroom He. pose proof (closure_keeps patience call p Hi Hroom) as Hc.
  unfold eruns, ended, perform_native, resolve in *.
  destruct (closure patience call p) as [[a|e| |] p1]; [apply Hc|apply Hc|done|done].
Qed.

Lemma found_inv (p : process) : Process.ENGINE p = None ->
  process_inv p /\ process_counters p = Build_counters 1 1 1 1.
Proof.
  intros Hn. unfold process_inv, process_counters, found_engine. rewrite Hn. destruct runtime; [done|].
  split; [split; apply table_inv_new|done].
Qed.
End process_laws.

(** ** Properties *)

(** C18: arguments are checked before anything is done. A native method that is
    given a number out of its range (a port, a handle, a position, an offset, a
    length, a chunk of more than a mebibyte) or a region that is not in its array
    returns with an exception pending, and that is all: the engine is not even
    created, no connection is made, and no array is changed. For a number the
    exception is an [IllegalArgumentException]. *)
Theorem native_refusals_sound {T W J JString JByteArray JniError} `{TransportSafe T} `{CryptoLaws}
    `{NtlmEnvironmentLaws} `{HostLaws T W} `{JavaLaws J JString JByteArray JniError}
    (runtime : option ErrorKind) (patience : nat) (A : Type) (call : NativeCall JString JByteArray A)
    (p : Process.t T W J) (Hbad : well_formed call && fits (Process.java p) call = false) :
  exists a p', perform_native runtime patience call p = (Ok a, p') /\
    Process.ENGINE p' = Process.ENGINE p /\ Process.world p' = Process.world p /\
    same_arrays (Process.java p) (Process.java p') /\ pending (Process.java p') <> None /\
    (well_formed call = false -> throwing (J:=J) -> exists text,
       pending (Process.java p') = Some (Thrown IllegalArgumentException (Text text))).
Proof.
  destruct (@resolve_refused _ _ _ _ _ _ _ _ _ _ (default_of call) _ _ _
    (closure_refuses runtime patience call p Hbad)) as (a & p' & Hr & He & Hw & Ha & Ht & Hp).
  exists a, p'. split_and!; [done..|by apply Hp|]. intros Hwf. apply Ht. by rewrite Hwf.
Qed.

(** C16: what Java calls, in whatever order, is survived. For any sequence of native
    calls of a process that has just started, whatever their arguments and
    whatever Java, the servers and the building of the engine come to: no closure
    panics; the handles that Java is given are all different, and positive [long]s;
    and when all calls returned the engine of the process, if it could be built,
    is as well formed as a new one. *)
Theorem native_calls_sound {T W J JString JByteArray JniError} `{TransportSafe T} `{CryptoLaws}
    `{NtlmEnvironmentLaws} `{HostLaws T W} `{JavaLaws J JString JByteArray JniError}
    (runtime : option ErrorKind) (patience : nat) (calls : list (sigT (NativeCall JString JByteArray)))
    (p : Process.t T W J) (Hstart : Process.ENGINE p = None)
    (Hlength : Z.of_nat (length calls) < 2 ^ 60 - 1) :
  let '(rs, p') := native_all runtime patience calls p in
  Panic ∉ rs /\ NoDup (given_handles rs) /\ Forall (fun h => 0 < h < 2 ^ 63) (given_handles rs) /\
  (OutOfFuel ∉ rs -> process_inv runtime p').
Proof.
  destruct (found_inv runtime p Hstart) as [Hi Hc].
  pose proof (native_all_runs runtime patience calls p Hi) as Hp. rewrite Hc in Hp.
  specialize (Hp ltac:(unfold below; cbn; lia)).
  destruct (native_all runtime patience calls p) as [rs p']. destruct Hp as (Hnp & Hnd & Hf & Hinv).
  split; [done|]. split; [done|]. split; [|done]. eapply Forall_impl; [exact Hf|]. by intros h [? _].
Qed.

(** C17: bytes cross the border to Java unchanged, and only where they may. A read
    either changes one array, in the region that was given and in no more of it
    than was asked for, where it puts bit for bit what the engine answered, and
    returns how much that is (or -1 at the end of a random-access file); or it
    leaves an exception and every array as it was. A write hands the engine bit
    for bit the region that was given and returns its length only if the engine
    wrote all of it; else it leaves an exception; no array is changed. The reply
    of a video's broker, which comes from outside the call, is assumed no longer
    than what was asked for, as the promises of the broker have it. *)
Theorem native_transfers_sound {T W J JString JByteArray JniError} `{TransportSafe T} `{CryptoLaws}
    `{NtlmEnvironmentLaws} `{HostLaws T W} `{JavaLaws J JString JByteArray JniError}
    (runtime : option ErrorKind) (patience : nat) (handle position : Z) (array : JByteArray)
    (offset length : Z) (reply : nat) (replied : option (BrokerError + bytes)) (p : Process.t T W J)
    (Hp : process_inv runtime p) (Hhandle : handle < 2 ^ 63) (Hposition : position < 2 ^ 63)
    (Hreplied : forall data, replied = Some (inr data) -> len data <= length) :
  eruns (resolve (native_read_random_at runtime patience handle position array offset length)) p
    (read_delivers runtime p array offset length true
       (AndroidEngine.read_random_at patience handle position length)) /\
  eruns (resolve (native_read_at runtime reply replied handle position array offset length)) p
    (fun r p' => (length = 0 /\ r = Ok 0 /\ p' = p) \/
       read_delivers runtime p array offset length false
         (AndroidEngine.read_at handle position length reply replied) r p') /\
  eruns (resolve (native_write_random_at runtime patience handle position array offset length)) p
    (write_takes runtime p array offset length (AndroidEngine.write_random_at patience handle position)) /\
  eruns (resolve (native_write_at runtime patience handle position array offset length)) p
    (write_takes runtime p array offset length (AndroidEngine.write_writable_at patience handle position)).
Proof.
  split; [by apply native_read_random_runs|]. split; [by apply native_read_runs|].
  split; [by apply native_write_random_runs|by apply native_write_runs].
Qed.

(** ** A Java *)

(** Arrays by number, [None] being null; strings that may be null. *)
Record ToyJava : Type := mkToyJava { toy_arrays : list bytes; toy_thrown : option Exception }.
Inductive ToyError : Type := NullPointer | JavaException.

Definition toy_throw (exception : Exception) (j : ToyJava) : ToyJava :=
  mkToyJava (toy_arrays j) (Some exception).
Definition toy_array (a : option nat) (j : ToyJava) : option bytes := a ≫= (fun n => toy_arrays j !! n).

#[local] Instance toy_java : Java ToyJava (option rust_string) (option nat) ToyError := {|
  null_array := None;
  try_to_string := fun s j =>
    match s with
    | Some s => if len (utf16_bytes s) <=? 2 * i32_max then (Ok s, j) else (Err NullPointer, j)
    | None => (Err NullPointer, j)
    end;
  array_len := fun a j =>
    match toy_array a j with
    | Some b => if len b <=? i32_max then (Ok (len b), j) else (Err NullPointer, j)
    | None => (Err NullPointer, j)
    end;
  get_region := fun a offset n j =>
    match toy_array a j with
    | Some b =>
        if (0 <=? offset) && (offset + n <=? len b) then (Ok (sub (as_jbytes b) offset n), j)
        else (Err JavaException, toy_throw OtherException j)
    | None => (Err NullPointer, j)
    end;
  set_region := fun a offset part j =>
    match a, toy_array a j with
    | Some n, Some b =>
        if (0 <=? offset) && (offset + len part <=? len b)
        then (Ok tt, mkToyJava (<[n := as_u8s (splice (as_jbytes b) offset part)]> (toy_arrays j)) (toy_thrown j))
        else (Err JavaException, toy_throw OtherException j)
    | _, _ => (Err NullPointer, j)
    end;
  byte_array_from_slice := fun b j =>
    (Ok (Some (length (toy_arrays j))), mkToyJava (toy_arrays j ++ [b]) (toy_thrown j));
  throw_new := fun class message j => (Ok tt, toy_throw (Thrown class message) j);
  throw_failure := fun _ j => match toy_thrown j with Some _ => j | None => toy_throw OtherException j end
|}.

#[local] Instance toy_view : JavaView ToyJava (option nat) := {|
  contents := fun j a => as_jbytes <$> toy_array a j;
  pending := toy_thrown
|}.

Lemma Forall_splice l offset part : Forall jbyte l -> Forall jbyte part -> Forall jbyte (splice l offset part).
Proof.
  intros Hl Hp. unfold splice. rewrite !Forall_app. split; [by apply Forall_take|].
  split; [done|by apply Forall_drop].
Qed.

#[local] Instance toy_java_laws : JavaLaws ToyJava (option rust_string) (option nat) ToyError.
Proof.
  split.
  - intros j a l. cbn. destruct (toy_array a j) as [b|]; [|done]. intros [= <-]. apply as_jbytes_range.
  - intros [s|] j; cbn; unfold settles; cbn; [|done].
    destruct (Z.leb_spec (len (utf16_bytes s)) (2 * i32_max)); [|done]. split; [done|]. by intros str [= <-].
  - intros a j. cbn. unfold settles. destruct (toy_array a j) as [b|] eqn:E; [|done].
    destruct (Z.leb_spec (len b) i32_max); [|done]. split; [done|]. intros n [= <-].
    split; [done|]. split; [done|]. exists (as_jbytes b). by rewrite len_as_jbytes.
  - intros a offset n j Ho Hn. cbn. unfold settles. destruct (toy_array a j) as [b|] eqn:E; [|done].
    destruct (Z.leb_spec 0 offset), (Z.leb_spec (offset + n) (len b)); cbn; try done.
    split; [done|]. intros part [= <-]. split; [done|]. exists (as_jbytes b). by rewrite len_as_jbytes.
  - intros a offset part j Ho Hp. cbn. unfold settles. destruct a as [n|]; [|done].
    destruct (toy_arrays j !! n) as [b|] eqn:E; [|done].
    destruct (Z.leb_spec 0 offset), (Z.leb_spec (offset + len part) (len b)); cbn; try done.
    split; [done|]. split.
    + intros [m|] Hne; [|done]. cbn. rewrite list_lookup_insert_ne; [done|congruence].
    + exists (as_jbytes b). rewrite len_as_jbytes, E. split; [done|]. split; [done|].
      rewrite list_lookup_insert_eq by (by eapply lookup_lt_Some). cbn.
      rewrite as_jbytes_u8s; [done|]. apply Forall_splice; [apply as_jbytes_range|done].
  - intros b j. cbn. unfold settles. split; [done|]. split.
    { cbn. rewrite lookup_ge_None_2; [done|lia]. }
    split.
    { cbn. by rewrite list_lookup_middle. }
    intros [m|] Hne; [|done]. cbn. destruct (decide (m < length (toy_arrays j))%nat).
    + by rewrite lookup_app_l.
    + rewrite !lookup_ge_None_2; [done| |]; rewrite ?length_app; cbn; [lia|].
      assert (m <> length (toy_arrays j)) by congruence. lia.
  - intros class message j. done.
  - intros e j. cbn. destruct (toy_thrown j) as [x|] eqn:E; cbn; rewrite ?E; done.
Qed.

#[local] Existing Instance toy_environment.
#[local] Existing Instance toy_environment_laws.
#[local] Existing Instance toy_crypto.
#[local] Existing Instance toy_laws.
#[local] Existing Instance toy_host.
#[local] Existing Instance toy_host_laws.

Definition sample_args : Arguments_.t (option rust_string) :=
  Arguments_.mk (Some [115]) 445 (Some [118]) (Some sample_path) (Some []) (Some []) (Some []) (Some []).
Definition sample_start (w : list (list bytes)) : Process.t TcpTransport.t (list (list bytes)) ToyJava :=
  Process.mk None w (mkToyJava [replicate 8 x00] None).

(** A region that ends behind the array. *)
Lemma native_refusals_sound_witness :
  exists a p', perform_native None 4 (NativeReadRandomAt 1 0 (Some 0%nat) 6 3) (sample_start []) = (Ok a, p') /\
    Process.ENGINE p' = None /\ pending (Process.java p') <> None.
Proof.
  set (call := NativeReadRandomAt 1 0 (Some 0%nat) 6 3 : NativeCall (option rust_string) (option nat) Z).
  assert (well_formed call && fits (Process.java (sample_start [])) call = false) as Hbad
    by (vm_compute; reflexivity).
  destruct (native_refusals_sound (JniError := ToyError) None 4 Z call (sample_start []) Hbad)
    as (a & p' & Hr & He & _ & _ & Hp & _).
  exists a, p'. split; [exact Hr|]. split; [exact He|exact Hp].
Defined.

Definition some_call {A} (call : NativeCall (option rust_string) (option nat) A) :
    sigT (NativeCall (option rust_string) (option nat)) := existT A call.

(** A file is opened and read into an array; a directory is opened, and its handle
    is not one of a file. *)
Definition sample_native_calls : list (sigT (NativeCall (option rust_string) (option nat))) :=
  [ some_call ApiVersion; some_call (NativeOpenRandom sample_args);
    some_call (NativeReadRandomAt (2 ^ 60 + 1) 0 (Some 0%nat) 1 3);
    some_call (NativeSetRandomLength (-1) 0); some_call (NativeOpenDirectory sample_args);
    some_call (NativeCloseRandom (2 ^ 62 + 1)) ].
Definition sample_connections : list (list bytes) :=
  [ share_server [read_reply 5 [x01; x02; xff]]; share_server [] ].

Lemma native_calls_sound_witness :
  exists rs p', native_all (JniError := ToyError) None 4 sample_native_calls (sample_start sample_connections)
      = (rs, p') /\
    given_handles rs = [2 ^ 60 + 1; 2 ^ 62 + 1] /\ process_inv None p' /\
    contents (Process.java p') (Some 0%nat) = Some [0; 1; 2; -1; 0; 0; 0; 0].
Proof.
  assert (let '(rs, p') := native_all (JniError := ToyError) None 4 sample_native_calls
            (sample_start sample_connections) in
    bool_decide (given_handles rs = [2 ^ 60 + 1; 2 ^ 62 + 1])
    && bool_decide (contents (Process.java p') (Some 0%nat) = Some [0; 1; 2; -1; 0; 0; 0; 0])
    && forallb (fun r => match r with OutOfFuel => false | _ => true end) rs = true) as Ht
    by (vm_compute; reflexivity).
  pose proof (native_calls_sound (JniError := ToyError) None 4 sample_native_calls
    (sample_start sample_connections) ltac:(reflexivity) ltac:(reflexivity)) as Hs.
  destruct (native_all None 4 sample_native_calls (sample_start sample_connections)) as [rs p'].
  apply andb_true_iff in Ht as [[Hh%bool_decide_eq_true Hc%bool_decide_eq_true]%andb_true_iff Hf].
  destruct Hs as (_ & _ & _ & Hi). exists rs, p'. split; [reflexivity|]. split; [exact Hh|].
  split; [|exact Hc]. apply Hi. intros Hin.
  rewrite forallb_forall in Hf. apply list_elem_of_In in Hin. by apply Hf in Hin.
Defined.

(** The process in which the file was opened. *)
Definition sample_open : Process.t TcpTransport.t (list (list bytes)) ToyJava :=
  snd (perform_native (JniError := ToyError) None 4 (NativeOpenRandom sample_args)
         (sample_start sample_connections)).

Lemma native_transfers_sound_witness :
  exists p', read_delivers None sample_open (Some 0%nat) 1 3 true
      (AndroidEngine.read_random_at 4 (2 ^ 60 + 1) 0 3) (Ok 3) p' /\
    contents (Process.java p') (Some 0%nat) = Some [0; 1; 2; -1; 0; 0; 0; 0].
Proof.
  assert (process_inv None sample_open) as Hinv.
  { destruct (found_inv None (sample_start sample_connections) eq_refl) as [Hi Hc].
    apply perform_native_inv; [exact Hi|rewrite Hc; by vm_compute|vm_compute; reflexivity]. }
  pose proof (native_transfers_sound (JniError := ToyError) None 4 (2 ^ 60 + 1) 0 (Some 0%nat) 1 3 0 None
    sample_open Hinv ltac:(reflexivity) ltac:(reflexivity) ltac:(discriminate)) as [Hs _].
  destruct (eruns_ended _ _ _ (fun n p' => (n =? 3)
      && bool_decide (contents (Process.java p') (Some 0%nat) = Some [0; 1; 2; -1; 0; 0; 0; 0])) Hs)
    as (n & p' & Hd & [->%Z.eqb_eq Hc%bool_decide_eq_true]%andb_true_iff); [vm_compute; reflexivity|].
  exists p'. split; [exact Hd|exact Hc].
Defined.
